(* ===== verification/_CoqProject ===== *)
-Q . S2P
Prelude.v
GoStd.v
Bytes.v
NetIP.v
CIDR.v
Prefix.v
Model.v
Decoder.v
SecretTaint.v
Chain.v
AlertBus.v
Correlator.v
EgressGuard.v
EgressPolicy.v
SafetyNet.v
DestClass.v
EgressMon.v
FlowLabels.v
EgressLedger.v
RecentRing.v
TrustZone.v
AssetClass.v
Pipeline.v
RateLimit.v
Burst.v
Spine.v
Provenance.v
Process.v
LineageStore.v
EgressValve.v
AlertRouter.v
HotGraph.v
LedgerFeed.v
CGroupClass.v
ConnState.v
Verdict.v
PacketFilter.v
KernelPolicy.v
DnsPoison.v
Nonce.v
MaintenanceChain.v
ActionLog.v
Decision.v
Takeover.v
Response.v
PlannerWire.v
