(* ===== verification/Prelude.v ===== *)
(** * xhelix: a verification development

    xhelix is a host security daemon for Linux, written in Go.  Sensors produce
    events (pkg/model); pipeline stages enrich and judge them (secret taint,
    egress guard, rules, correlation); alerts go to the response engine and to
    the takeover planner; everything is recorded in a signed, hash-linked chain
    of batches.  Operators unlock guarded behaviour with signed maintenance
    grants, and sensitive endpoints use single-use nonces.

    This library models the parts below as executable functions that follow the
    source line by line, and proves what makes each correct.  Pure functions are
    functions; an object with a mutex is a record, each method a function from
    the record to the new record and the result (a method is atomic because it
    holds the lock); fallible calls return [result] or [option].

    ** Files and what they model

    Foundations:
    - Prelude: results, machine integers, lists, maps, map iteration orders,
      tactics and hints.
    - GoStd: the strings, strconv and time functions the code calls ([Str],
      [Time]).  A time is the integer of nanoseconds since 1970.
    - Bytes: little-endian encodings, stream reads, hexadecimal (encoding/binary).
    - NetIP, CIDR, Prefix: netip.ParseAddr, net.ParseIP, SplitHostPort, address
      classes; net.ParseCIDR and IPNet.Contains; prefixes of net/netip.
    - Model: pkg/model events, alerts, severities.

    From the kernel to the pipeline:
    - Decoder: sensors/ebpf, the records of the kernel and the events they become.
    - LedgerFeed: the first stage of pkg/pipeline, from a decoded flow to the ledger.
    - Burst: pkg/burstdet and pkg/sshbrute, sliding windows and the ring of failures.
    - Provenance: pkg/source causal sets and file taint, pkg/proctree, and the
      file stages of pkg/pipeline that join them.
    - Process: the stages of Handle that move the process graph, in their order.
    - LineageStore: pkg/lineage, chains, origins, data-class taint.
    - HotGraph: pkg/canonical, pkg/hotgraph, pkg/causalengine and their stage.
    - CGroupClass: pkg/cgroupclass, the class of a process and its cache.
    - ConnState: pkg/connstate, the table of connections on a heap of rows.
    - Pipeline: pkg/pipeline, the egress policy, taint, asset, trust zone and
      egress guard stages of Handle, in its order.

    Judging traffic:
    - SecretTaint: pkg/secrettaint, the taint lattice, the store (store.go) and
      the event classifier (sources.go).
    - EgressGuard: pkg/egressguard, the decision chain, the deny cache and the
      enforcement path.
    - EgressPolicy: pkg/egresspolicy, signed per-binary policies, the engine, the
      directory, and the proposals made from observed flows.
    - EgressValve: pkg/egress and pkg/passport, destinations of tainted lineages.
    - KernelPolicy: the policy stage on what the kernel reports.
    - TrustZone: pkg/trustzone.  AssetClass: pkg/assetclass.
    - DestClass: pkg/destclass.  FlowLabels: pkg/servicerole and pkg/l7proto.
    - EgressMon: pkg/egressmon, the observer.
    - EgressLedger, RecentRing: pkg/egressledger, three tiers of counters, and the
      ring of recent process events.
    - SafetyNet: pkg/safetynet and pkg/netban.
    - Verdict: pkg/verdict, pkg/policy, pkg/knowngood, pkg/telemetrycorpus.
    - PacketFilter: pkg/enforce/nfqueue and its arming.
    - DnsPoison: pkg/deception/dnspoison, the wire codec and the answer.

    Judging events and alerts:
    - Correlator: pkg/correlator, rules, sessions, Ingest, expiry and replay.
    - RateLimit: pkg/firerate, the limiter and the bucket ring.
    - Spine: pkg/source, anchors, events, the spine queries, the walk, the layout.
    - AlertRouter: pkg/rulecat, pkg/lineagescore, pkg/fleetrarity,
      pkg/verdictcount and the router of cmd/xhelix/run.go.
    - AlertBus: pkg/alert, the bus, the ring, the rotating file.

    Response and record:
    - Decision: pkg/decision and the planning side of pkg/runtime.
    - Takeover: pkg/takeover, signals, scorer, aggregator, planner glue.
    - Response: pkg/response and pkg/enforce (quarantine tracker, panic switch).
    - PlannerWire: pkg/daemon/wire, alerts to signals and the tick.
    - ActionLog: pkg/actionlog, the containment state machine and its history.
    - Chain: pkg/chain, batches, the file codec, rotation, resumption, Verify.
    - Nonce: pkg/nonce.  MaintenanceChain: pkg/maintenancechain.

    ** How the parts meet

    Bytes of the kernel go through [Decoder.Decode].  The event feeds the ledger
    (LedgerFeed), the process graph and the file table (Process, Provenance), the
    live graph (HotGraph), the class cache (CGroupClass) and the connection table
    (ConnState), then the judging stages (Pipeline); several theorems start from
    the bytes and end in one of those states, through the lemmas of Decoder and
    Process on what a kernel event can carry ([kernel_event]).
    Flows of the ledger become proposals of EgressPolicy.  The observer, the
    ledger and the guard ask DestClass; the banner asks SafetyNet.
    The packet filter looks a packet up in the connection table and asks the
    verdict engine, whose cache and policy file are Verdict's.
    Correlator and rules send alerts to the bus, which asks AlertRouter and hands
    what is left to the sinks through the class [Sink].
    Pipeline is written against two classes, a taint store and an egress guard;
    SecretTaint and EgressGuard are their instances; an EgressPolicy engine, a
    trust zone manager and an asset resolver feed the same request.
    Decision uses the capability inventory only through the class
    [CapabilityChecker], whose single law is that annotation appends warnings.
    Takeover feeds [Decision.Plan] the score and the state that ActionLog holds;
    PlannerWire runs the plans through [Response.Execute] and records them in
    ActionLog.  The causal engine of HotGraph reads the origins of LineageStore;
    EgressValve reads its classes and asks for passports through the class
    [PassportSource], of which the store of passports is an instance.

    ** What is shown

    - SecretTaint: the store implements a join-semilattice of taint (refinement,
      per operation); taint never decays, follows spawn chains, needs evidence;
      a sweep removes exactly what expired.
    - LineageStore: the bit-parallel count is exact; chains and class names are
      read back; a taint ends only with the origin of its lineage (without one,
      never).
    - EgressGuard: the decision is characterised; the internal-address test is
      exact on IPv4; the deny cache is bounded and exact in time; two defects (a
      failed push is not retried, large lineages share a key).
    - EgressPolicy, KernelPolicy: only signed policies act; what is signed and
      imported takes effect; a proposal admits the traffic it was made from;
      defects: colliding files, reclassified destinations, and on kernel events,
      which name no host, rules beyond the address are dead and a proposed
      lockdown denies everything.
    - EgressValve: the decision is characterised, more taint never opens it; what
      passports open was issued and approved within a quarter of an hour and not
      revoked; an issued passport verifies until it expires, a revoked one never
      again; queries can use up the class registry, after which they answer allow
      (a defect).
    - EgressLedger, RecentRing, LedgerFeed: counters reach the timeline through the
      tiers; rows of the kernel are typed and name nothing; a failed roll loses
      rows; a draft made from the ledger cannot be signed; the ring refines the
      history of what was put.
    - DestClass, EgressMon, FlowLabels: the order of the tables, a client that
      names its own class, exact observer counters and a snapshot that repeats
      samples.
    - TrustZone, AssetClass: the zone decision in full; a saved change survives
      a restart; operator files never change what is sensitive.
    - SafetyNet: an allowed address is never banned; overlap of a block is exact.
    - Pipeline: secret taint never changes what the guard answers below the two
      restricted states; the signed policy has the last word over zones, taint
      and classes; without one a zone denial is enforced; a lineage stays stamped.
    - ConnState, Verdict, PacketFilter: the index agrees with the table, which is
      bounded; a row keeps its first owner; lookups give the most specific
      prefix; a saved policy takes effect and cached verdicts follow it; when a
      packet is dropped is characterised, arming drops packets before its soak
      starts, extension headers pass.
    - HotGraph: every index is exact and the graph bounded; ancestors are the path
      of parents, descendants what can be reached; fed by the kernel the graph
      never learns of an exit and freezes when full; a reused number joins the
      dead process.
    - Process, Provenance, Burst, CGroupClass: kernel exits go unseen; a change of
      credentials erases the source; causal sets are canonical up to their cap;
      the graph keeps its cap and evicts no ancestor of what it keeps; a taint
      goes from writer to reader; windows count exactly; a class outlives its
      process.
    - Correlator, RateLimit: a replay does not depend on the order sessions are
      visited; an incident is backed by events that match its steps; a sequence
      of matching events delivers its incident; three divergences from the rule's
      window; the limiter is exact and its rate bounded.
    - AlertRouter, AlertBus: the scorer refines one that keeps everything; a
      synthesised alert is backed by evidence of its lineage; a critical verdict
      silences a lineage; what the sinks get is in order; the rotated files
      are the end of one log and bounded, but for what an earlier run left; a
      failed rotation panics.
    - Spine: the depth-limited walk ends with the nodes up to the depth; without
      a limit it never ends exactly when parent links form a cycle, on which the
      layout overflows its stack too.
    - DnsPoison: a flagged query resolves to the sink, read back by a client; no
      byte string makes the shim slice out of range.
    - Chain: tampering is evident up to a collision the directories exhibit; every
      reachable directory verifies; a restart resumes exactly; after rotation
      verification fails at the first file.
    - Nonce, MaintenanceChain: at most one redemption per minting; an exec is
      unlocked only by an authorised, unexpired grant for that cgroup and binary;
      revocation holds until the grant is imported again.
    - ActionLog, Decision, Takeover: histories are legal paths; the plan's tier is
      the join of its inputs; plans are valid and reversible; the aggregator
      refines a time window; floods are bounded.
    - Response, PlannerWire: monitor mode, baseline window and panic switch hold
      for alerts; evidence comes before containment; plans bypass monitor mode;
      an active planner never touches a process although it reports that it did;
      executed plans are logged from the live states and not from closed ones.

    ** Parameters, bounds and abstractions

    SHA-256, HMAC, Ed25519, the JSON and YAML packages, gob, ULID strings, the
    nft tool, the packet queue, the XDP table, base64, signal delivery, SQLite
    failures, the key-value store's iterator, answers of the file system and of
    the hub, the intelligence and organisation providers are arguments or section
    variables.  The hypotheses on them are few and named where used: hash and key
    lengths, a signature verifying under its own key, a grant decoding to itself,
    non-empty ids; the witnesses instantiate them.
    What /proc and the cgroup files say, clock readings, random bytes and fresh
    ids are arguments of the operation that reads or draws them.  A range over a
    map takes its order as an argument, and results are proved for every order
    ([range_order]); so does the order a sort leaves equal elements in.  Counters
    and ids that can wrap go through [u64]; scores, weights and durations stay
    far below the machine range and are integers.  The water marks of HotGraph and
    the vote on a DNS label are floating point and arguments.
    [ToLower] and [Quote] are exact on ASCII.

    Fuel: the IPv6 parser has 8, one step per group, and an address has at most
    8; the name reader of DnsPoison has the source's own 128; the walks of
    HotGraph have one turn per node and per known child, proved enough; the walk
    of Spine takes its turns and its layout the depth of the stack as an
    argument, and theorems say how much is enough and when none is.
    Log lines and metrics that nothing reads are left out, as is concurrency
    below the granularity of one locked method, but for the packet filter, whose
    arming is modelled store by store because the filter reads between them.

    ** Not modelled

    Sensors and eBPF programs are system calls; stores, transports and the hub
    are SQL and sockets, where the work is done by other programs; baselines and
    traffic analytics are statistics in floating point, which have no exact
    contract; the rules engine evaluates a third-party expression language; user
    interfaces and tools render what others computed; start-up wiring is a long
    list of constructor calls, of which the parts that decide something (the
    router, the verdict and enforcement wiring, the ledger adapters) are modelled
    with the component they belong to.  The one-event detectors, contracts and
    host checks are tables over opaque reads that share no state with the parts
    above. *)

From stdpp Require Export base tactics option list gmap strings fin_maps sets.
From stdpp Require Export sorting.
From Stdlib Require Export ZArith Lia Ascii.

Declare Scope xh_scope.
Delimit Scope xh_scope with xh.
Open Scope xh_scope.

(** ** Fallible operations *)

(** A Go function that returns [(T, error)]: [Ok v] is the value with a nil
    error, [Err e] a non-nil error (the value is then never used). *)
Inductive result (E A : Type) : Type :=
  | Ok (v : A)
  | Err (e : E).
Arguments Ok {E A} v.
Arguments Err {E A} e.

Definition is_ok {E A} (r : result E A) : bool :=
  match r with Ok _ => true | Err _ => false end.

#[export] Instance result_eq_dec {E A} `{EqDecision E, EqDecision A} :
  EqDecision (result E A).
Proof. solve_decision. Defined.

#[export] Instance result_ret {E} : MRet (result E) := λ A x, Ok x.
#[export] Instance result_bind {E} : MBind (result E) := λ A B f r,
  match r with Ok v => f v | Err e => Err e end.

(** ** Machine integers

    Unsigned w-bit values are integers in [0, 2^w); conversions and
    arithmetic that can leave the range go through these functions. *)
Definition u8 (z : Z) : Z := z mod 2 ^ 8.
Definition u16 (z : Z) : Z := z mod 2 ^ 16.
Definition u32 (z : Z) : Z := z mod 2 ^ 32.
Definition u64 (z : Z) : Z := z mod 2 ^ 64.

Definition max_int64 : Z := 2 ^ 63 - 1.
Definition min_int64 : Z := - 2 ^ 63.

(** two's-complement reading of the low w bits *)
Definition signed (w z : Z) : Z :=
  let m := (z mod 2 ^ w)%Z in if (m <? 2 ^ (w - 1))%Z then m else (m - 2 ^ w)%Z.
Definition i32 (z : Z) : Z := signed 32 z.
Definition i64 (z : Z) : Z := signed 64 z.

Lemma u64_small (z : Z) : (0 ≤ z < 2 ^ 64)%Z → u64 z = z.
Proof. intros. by apply Z.mod_small. Qed.

Lemma u64_bound (z : Z) : (0 ≤ u64 z < 2 ^ 64)%Z.
Proof. apply Z.mod_pos_bound. lia. Qed.

Lemma u32_small (z : Z) : (0 ≤ z < 2 ^ 32)%Z → u32 z = z.
Proof. intros. by apply Z.mod_small. Qed.

Lemma i64_range (z : Z) : (min_int64 ≤ i64 z ≤ max_int64)%Z.
Proof.
  unfold min_int64, max_int64, i64, signed.
  pose proof (Z.mod_pos_bound z (2 ^ 64) ltac:(lia)).
  destruct (Z.ltb_spec (z mod 2 ^ 64) (2 ^ (64 - 1))); lia.
Qed.

Lemma i64_u64 (z : Z) : (min_int64 ≤ z ≤ max_int64)%Z → i64 (u64 z) = z.
Proof.
  unfold min_int64, max_int64, i64, signed, u64. intros Hz.
  rewrite Z.mod_mod by lia. destruct (Z_lt_le_dec z 0).
  - replace (z mod 2 ^ 64)%Z with (z + 2 ^ 64)%Z.
    + rewrite (proj2 (Z.ltb_ge _ _)) by lia. lia.
    + apply (Z.mod_unique z (2 ^ 64) (-1)); lia.
  - rewrite Z.mod_small by lia. by rewrite (proj2 (Z.ltb_lt _ _)) by lia.
Qed.

(** equality of 64-bit counters: congruence modulo 2^64 *)
Inductive eq64 (x y : Z) : Prop := Eq64 : u64 x = u64 y → eq64 x y.
Infix "≡64" := eq64 (at level 70).

Lemma eq64_u64 (x y : Z) : x ≡64 y ↔ u64 x = u64 y.
Proof. split; [by intros []|by constructor]. Qed.

#[export] Instance eq64_equivalence : Equivalence eq64.
Proof. split; [by intros x|intros x y []; by constructor|intros x y z [] []; constructor; congruence]. Qed.

#[export] Instance eq64_add : Proper (eq64 ==> eq64 ==> eq64) Z.add.
Proof.
  intros x x' [Hx] y y' [Hy]. constructor. unfold u64 in *. by rewrite Z.add_mod, Hx, Hy, <-Z.add_mod by done.
Qed.

#[export] Instance eq64_sub : Proper (eq64 ==> eq64 ==> eq64) Z.sub.
Proof.
  intros x x' [Hx] y y' [Hy]. constructor. unfold u64 in *. by rewrite Zminus_mod, Hx, Hy, <-Zminus_mod.
Qed.

Lemma u64_eq64 (x : Z) : u64 x ≡64 x.
Proof. constructor. unfold u64. by rewrite Z.mod_mod. Qed.

(** two sums that are equal as integers *)
Ltac eq64_lia := constructor; f_equal; lia.

(** ** Automation *)

Create HintDb xh.
Create Rewrite HintDb xh.
#[export] Hint Resolve u64_bound : xh.

(** Turns the boolean tests of the code into propositions. *)
Ltac bool_to_prop :=
  repeat match goal with
  | H : (_ && _)%bool = true |- _ => apply andb_true_iff in H as [??]
  | H : (_ || _)%bool = false |- _ => apply orb_false_iff in H as [??]
  | H : negb _ = true |- _ => apply negb_true_iff in H
  | H : negb _ = false |- _ => apply negb_false_iff in H
  | H : (_ =? _)%Z = true |- _ => apply Z.eqb_eq in H
  | H : (_ =? _)%Z = false |- _ => apply Z.eqb_neq in H
  | H : (_ <? _)%Z = true |- _ => apply Z.ltb_lt in H
  | H : (_ <? _)%Z = false |- _ => apply Z.ltb_ge in H
  | H : (_ <=? _)%Z = true |- _ => apply Z.leb_le in H
  | H : (_ <=? _)%Z = false |- _ => apply Z.leb_gt in H
  | H : (_ =? _)%nat = true |- _ => apply Nat.eqb_eq in H
  | H : (_ =? _)%nat = false |- _ => apply Nat.eqb_neq in H
  | H : (_ <? _)%nat = true |- _ => apply Nat.ltb_lt in H
  | H : (_ <? _)%nat = false |- _ => apply Nat.ltb_ge in H
  | H : (_ <=? _)%nat = true |- _ => apply Nat.leb_le in H
  | H : (_ <=? _)%nat = false |- _ => apply Nat.leb_gt in H
  | H : bool_decide _ = true |- _ => apply bool_decide_eq_true in H
  | H : bool_decide _ = false |- _ => apply bool_decide_eq_false in H
  end.

(** Splits on the tests and matches the goal is stuck on. *)
Ltac case_tests :=
  repeat (case_match; simplify_eq/=; bool_to_prop).

(** ** Lists *)

(** The last [n] elements of [l], all of [l] when it is shorter. *)
Definition last_n {A} (n : nat) (l : list A) : list A := drop (length l - n) l.

Lemma last_n_snoc {A} (n : nat) (l : list A) (x : A) : 0 < n → n ≤ length l → tail (last_n n l) ++ [x] = last_n n (l ++ [x]).
Proof.
  intros Hn Hl. unfold last_n. rewrite length_app, drop_app_le by (cbn; lia). f_equal.
  change (tail (drop (length l - n) l)) with (drop 1 (drop (length l - n) l)). rewrite drop_drop. f_equal. cbn. lia.
Qed.

Lemma last_n_length {A} (n : nat) (l : list A) : length (last_n n l) = min n (length l).
Proof. unfold last_n. rewrite length_drop. lia. Qed.

Lemma last_n_app {A} (n : nat) (l k : list A) :
  length k = n → last_n n (l ++ k) = k.
Proof.
  intros <-. unfold last_n. rewrite length_app.
  replace (length l + length k - length k) with (length l) by lia.
  by rewrite drop_app_length.
Qed.

Lemma last_n_all {A} (n : nat) (l : list A) : length l ≤ n → last_n n l = l.
Proof. intros. unfold last_n. replace (length l - n) with 0 by lia. done. Qed.

(** *** Ring buffers *)

(** a ring read from its oldest place, [idx] being the next one written *)
Definition unrolled {A} (idx : nat) (l : list A) : list A := drop idx l ++ take idx l.

Lemma unrolled_perm {A} (idx : nat) (l : list A) : unrolled idx l ≡ₚ l.
Proof. unfold unrolled. by rewrite Permutation_app_comm, take_drop. Qed.

Lemma unrolled_write {A} (n idx : nat) (l : list A) (x : A) :
  length l = n → idx < n → unrolled ((idx + 1) mod n) (<[idx := x]> l) = tail (unrolled idx l) ++ [x].
Proof.
  intros Hl Hi. destruct (lookup_lt_is_Some_2 l idx ltac:(lia)) as [y Hy].
  rewrite <-(take_drop_middle l idx y Hy) at 1. rewrite insert_app_r_alt by (rewrite length_take; lia).
  rewrite length_take. replace (idx - idx `min` length l) with 0 by lia. cbn [insert list_insert].
  assert (unrolled idx l = y :: drop (S idx) l ++ take idx l) as ->.
  { unfold unrolled. by rewrite (drop_S l y idx Hy). }
  cbn [tail]. unfold unrolled. destruct (decide (idx + 1 = n)) as [He|Hne].
  - rewrite He, Nat.Div0.mod_same. cbn [drop take]. rewrite app_nil_r. rewrite (drop_ge l (S idx)) by lia. done.
  - rewrite Nat.mod_small by lia. rewrite drop_app_ge, take_app_ge by (rewrite length_take; lia).
    rewrite length_take. replace (idx + 1 - idx `min` length l) with 1 by lia. cbn [drop take]. by rewrite app_assoc.
Qed.

Lemma last_default_cons {A} (ls : list A) (c d : A) :
  List.last (c :: ls) d = List.last ls c.
Proof.
  revert c d. induction ls as [|x ls IH]; intros c d; [done|].
  change (List.last (x :: ls) d = List.last (x :: ls) c). by rewrite !IH.
Qed.

Lemma filter_all {A} (P : A → Prop) `{∀ x, Decision (P x)} (l : list A) :
  Forall P l → filter P l = l.
Proof. induction 1 as [|x l Hx _ IH]; [done|]. rewrite filter_cons_True by done. by rewrite IH. Qed.

Lemma Forall_filter {A} (P Q : A → Prop) `{∀ x, Decision (Q x)} (l : list A) :
  Forall P l → Forall P (filter Q l).
Proof. rewrite !Forall_forall. intros HP x [_ Hx]%list_elem_of_filter. auto. Qed.

Lemma forallb_spec {A} (f : A → bool) (l : list A) : forallb f l = true ↔ Forall (λ x, f x = true) l.
Proof. induction l as [|x l IH]; cbn; [by rewrite Forall_nil|]. by rewrite andb_true_iff, Forall_cons, IH. Qed.

Lemma filter_none {A} (P : A → Prop) `{∀ x, Decision (P x)} (l : list A) :
  Forall (λ x, ¬ P x) l → filter P l = [].
Proof. induction 1 as [|x l Hx _ IH]; [done|]. by rewrite filter_cons_False. Qed.

Lemma Forall2_diag {A} (R : A → A → Prop) (l : list A) : Forall (λ x, R x x) l → Forall2 R l l.
Proof. induction 1; by constructor. Qed.

Lemma filter_ext_in {A} (P Q : A → Prop) `{!∀ x, Decision (P x), !∀ x, Decision (Q x)} (l : list A) :
  (∀ x, x ∈ l → P x ↔ Q x) → filter P l = filter Q l.
Proof.
  induction l as [|x l IH]; intros HPQ; [done|]. rewrite !filter_cons.
  rewrite IH by (intros; apply HPQ; by right). specialize (HPQ x ltac:(by left)).
  repeat case_decide; naive_solver.
Qed.

Lemma length_filter_fmap {A B} (f : A → B) (P : B → Prop) `{!∀ y, Decision (P y)} (l : list A) :
  length (filter P (f <$> l)) = length (filter (λ x, P (f x)) l).
Proof.
  induction l as [|x l IH]; [done|]. rewrite fmap_cons, !filter_cons.
  case_decide; cbn [length]; by rewrite IH.
Qed.

Lemma length_filter_mono {A} (P Q : A → Prop) `{!∀ x, Decision (P x), !∀ x, Decision (Q x)} (l : list A) :
  (∀ x, P x → Q x) → length (filter P l) ≤ length (filter Q l).
Proof.
  intros HPQ. rewrite <-(list_filter_filter_l P Q) by done. apply sublist_length, sublist_filter.
Qed.

Lemma sublist_fmap {A B} (f : A → B) (l k : list A) : l `sublist_of` k → f <$> l `sublist_of` f <$> k.
Proof. induction 1; csimpl; by constructor. Qed.

(** a key function that is injective on a list without repeated keys *)
Lemma NoDup_fmap_inj {A B} (f : A → B) (l : list A) (x y : A) :
  NoDup (f <$> l) → x ∈ l → y ∈ l → f x = f y → x = y.
Proof.
  intros Hnd Hx Hy Hf. apply list_elem_of_lookup in Hx as [i Hi], Hy as [j Hj].
  assert (i = j) as ->; [|by simplify_eq].
  eapply (NoDup_lookup _ i j (f x)); [exact Hnd|by rewrite list_lookup_fmap, Hi|].
  by rewrite list_lookup_fmap, Hj, Hf.
Qed.

(** [sort.Slice] on integers *)
Definition zle (a b : Z) : Prop := (a ≤ b)%Z.
#[export] Instance zle_dec : RelDecision zle.
Proof. intros a b. unfold zle. destruct (Z_le_dec a b); [by left|by right]. Defined.
Definition sort_Z (l : list Z) : list Z := merge_sort zle l.

Lemma sort_Z_perm (l : list Z) : sort_Z l ≡ₚ l.
Proof. apply merge_sort_Permutation. Qed.

#[export] Instance zle_total : Total zle.
Proof. intros a b. unfold zle. lia. Qed.
#[export] Instance zle_trans : Transitive zle.
Proof. intros a b c. unfold zle. lia. Qed.
#[export] Instance zle_antisymm : AntiSymm (=) zle.
Proof. intros a b. unfold zle. lia. Qed.

Lemma sort_Z_unique (l k : list Z) : l ≡ₚ k → sort_Z l = sort_Z k.
Proof.
  intros Hp. apply (StronglySorted_unique zle); [apply (StronglySorted_merge_sort _)..|].
  by rewrite !sort_Z_perm.
Qed.

(** [sort.Strings] *)
Definition sort_str (l : list string) : list string := merge_sort String.le l.

Lemma sort_str_perm (l : list string) : sort_str l ≡ₚ l.
Proof. apply merge_sort_Permutation. Qed.

Lemma sort_str_unique (l k : list string) : l ≡ₚ k → sort_str l = sort_str k.
Proof.
  intros Hp. apply (StronglySorted_unique String.le); [apply (StronglySorted_merge_sort _)..|].
  by rewrite !sort_str_perm.
Qed.

(** ** Maps *)

(** Membership of a key as the boolean of a Go two-valued map read. *)
Definition has_key {K V} `{Countable K} (k : K) (m : gmap K V) : bool :=
  match m !! k with Some _ => true | None => false end.

Lemma has_key_true {K V} `{Countable K} (k : K) (m : gmap K V) :
  has_key k m = true ↔ is_Some (m !! k).
Proof. unfold has_key. destruct (m !! k); naive_solver. Qed.

Lemma has_key_false {K V} `{Countable K} (k : K) (m : gmap K V) :
  has_key k m = false ↔ m !! k = None.
Proof. unfold has_key. destruct (m !! k); naive_solver. Qed.

Lemma map_size_pos {K V} `{Countable K} (m : gmap K V) (k : K) (v : V) :
  m !! k = Some v → 0 < size m.
Proof.
  intros Hk. destruct (decide (size m = 0)) as [Hz|]; [|lia].
  apply map_size_empty_inv in Hz. by simplify_map_eq.
Qed.

(** checking a property of every entry by evaluation *)
Lemma forallb_entries {K V} `{Countable K} (m : gmap K V) (f : K → V → bool) (k : K) (v : V) :
  forallb (λ p, f p.1 p.2) (map_to_list m) = true → m !! k = Some v → f k v = true.
Proof.
  intros Hall Hk. rewrite forallb_forall in Hall. apply (Hall (k, v)), list_elem_of_In.
  by apply elem_of_map_to_list.
Qed.

(** ** Sums *)

Definition sumZ (l : list Z) : Z := foldr Z.add 0%Z l.

Lemma sumZ_perm (l l' : list Z) : l ≡ₚ l' → sumZ l = sumZ l'.
Proof. induction 1; simpl; lia. Qed.

Lemma sumZ_app (l k : list Z) : sumZ (l ++ k) = (sumZ l + sumZ k)%Z.
Proof. unfold sumZ. induction l as [|x l IH]; [done|]. cbn. lia. Qed.

(** a sum over the entries of a map *)
Definition msum {K V} `{Countable K} (f : K → V → Z) (m : gmap K V) : Z :=
  sumZ ((λ p, f p.1 p.2) <$> map_to_list m).

Lemma msum_empty {K V} `{Countable K} (f : K → V → Z) : msum f ∅ = 0%Z.
Proof. unfold msum. by rewrite map_to_list_empty. Qed.

Lemma msum_fresh {K V} `{Countable K} (f : K → V → Z) (m : gmap K V) (k : K) (v : V) :
  m !! k = None → msum f (<[k := v]> m) = (f k v + msum f m)%Z.
Proof. intros Hk. unfold msum. by rewrite (sumZ_perm _ ((λ p, f p.1 p.2) <$> ((k, v) :: map_to_list m))) by (by rewrite map_to_list_insert). Qed.

Lemma msum_delete {K V} `{Countable K} (f : K → V → Z) (m : gmap K V) (k : K) (v : V) :
  m !! k = Some v → msum f (delete k m) = (msum f m - f k v)%Z.
Proof.
  intros Hk. rewrite <-(insert_delete_id m k v Hk) at 2. rewrite msum_fresh by apply lookup_delete_eq. lia.
Qed.

Lemma msum_insert {K V} `{Countable K} (f : K → V → Z) (m : gmap K V) (k : K) (v : V) :
  msum f (<[k := v]> m) = (msum f m - from_option (f k) 0 (m !! k) + f k v)%Z.
Proof.
  destruct (m !! k) as [w|] eqn:Hk; cbn.
  - rewrite <-insert_delete_eq, msum_fresh by apply lookup_delete_eq. rewrite (msum_delete f m k w) by done. lia.
  - rewrite msum_fresh by done. lia.
Qed.

Lemma msum_filter {K V} `{Countable K} (f : K → V → Z) (P : K * V → Prop) `{∀ x, Decision (P x)} (m : gmap K V) :
  msum f m = (msum f (filter P m) + msum f (filter (λ p, ¬ P p) m))%Z.
Proof.
  induction m as [|k v m Hk IH] using map_ind; [by rewrite !map_filter_empty, msum_empty|].
  rewrite msum_fresh, IH by done. destruct (decide (P (k, v))) as [Hp|Hp].
  - rewrite map_filter_insert_True by done. rewrite map_filter_insert_False by (by intros ?).
    rewrite msum_fresh by (by apply map_lookup_filter_None_2; left). rewrite (delete_id m) by done. lia.
  - rewrite map_filter_insert_False by done. rewrite map_filter_insert_True by done.
    rewrite (msum_fresh _ (filter (λ p, ¬ P p) m)) by (by apply map_lookup_filter_None_2; left). rewrite (delete_id m) by done. lia.
Qed.

Lemma msum_zero {K V} `{Countable K} (f : K → V → Z) (m : gmap K V) :
  (∀ k v, m !! k = Some v → f k v = 0%Z) → msum f m = 0%Z.
Proof.
  induction m as [|k v m Hk IH] using map_ind; intros Hf; [apply msum_empty|].
  rewrite msum_fresh, IH, (Hf k v) by (done || apply lookup_insert_eq ||
    (intros k' v' Hm; apply Hf; by rewrite lookup_insert_ne by congruence)). done.
Qed.

(** the same sum over a list of keys that misses none but zeros *)
Lemma msum_keys {K V} `{Countable K} (f : K → V → Z) (m : gmap K V) (ks : list K) :
  NoDup ks → (∀ k v, m !! k = Some v → k ∉ ks → f k v = 0%Z) →
  msum f m = sumZ ((λ k, from_option (f k) 0%Z (m !! k)) <$> ks).
Proof.
  intros Hnd. revert m. induction Hnd as [|k ks Hk Hnd IH]; intros m Hf.
  - apply msum_zero. intros k v Hm. apply (Hf k v Hm). apply not_elem_of_nil.
  - destruct (m !! k) as [v|] eqn:Hm.
    + pose proof (msum_delete f m k v Hm) as Hd. rewrite IH in Hd.
      2:{ intros k' v' [Hn Hm']%lookup_delete_Some Hks. apply (Hf k' v' Hm'). rewrite not_elem_of_cons. done. }
      assert ((λ k', from_option (f k') 0%Z (delete k m !! k')) <$> ks = (λ k', from_option (f k') 0%Z (m !! k')) <$> ks) as He.
      { apply list_fmap_ext. intros i k' Hi. cbn. rewrite lookup_delete_ne; [done|]. intros ->.
        apply Hk. by eapply list_elem_of_lookup_2. }
      rewrite He in Hd. cbn. rewrite Hm. cbn. unfold sumZ in *. lia.
    + rewrite IH; [cbn; by rewrite Hm|]. intros k' v' Hm' Hks. apply (Hf k' v' Hm').
      rewrite not_elem_of_cons. split; [congruence|done].
Qed.

(** A Go [for k := range m] visits every key once, in an order the language
    leaves open: [range_order m ks] says that [ks] is such an order. *)
Definition range_order {K V} `{Countable K} (m : gmap K V) (ks : list K) : Prop :=
  NoDup ks ∧ ∀ k, k ∈ ks ↔ is_Some (m !! k).

(** The order in which [map_to_list] lists a map: one admissible order. *)
Definition some_order {K V} `{Countable K} (m : gmap K V) : list K := (map_to_list m).*1.

Lemma some_order_ok {K V} `{Countable K} (m : gmap K V) : range_order m (some_order m).
Proof.
  split; [apply NoDup_fst_map_to_list|].
  intros k. unfold some_order. rewrite list_elem_of_fmap. split.
  - intros ([k' v] & -> & Hin). apply elem_of_map_to_list in Hin. eauto.
  - intros [v Hv]. exists (k, v). split; [done|]. by apply elem_of_map_to_list.
Qed.

(** Two orders of the same map are permutations of each other. *)
Lemma range_order_perm {K V} `{Countable K} (m : gmap K V) (ks ks' : list K) :
  range_order m ks → range_order m ks' → ks ≡ₚ ks'.
Proof.
  intros [Hn Hk] [Hn' Hk']. apply NoDup_Permutation; [done..|].
  intros k. by rewrite Hk, Hk'.
Qed.

#[export] Hint Resolve some_order_ok : xh.

(** ** A text code

    The binary digits of the number that codes a value: a concrete encoding
    with its round trip, for the encodings that are variables of the model. *)
Fixpoint digits (p : positive) : string :=
  match p with xH => "." | xO p => String "0" (digits p) | xI p => String "1" (digits p) end.

Fixpoint undigits (s : string) : positive :=
  match s with
  | String "0" s => xO (undigits s)
  | String "1" s => xI (undigits s)
  | _ => xH
  end.

Lemma undigits_digits (p : positive) : undigits (digits p) = p.
Proof. induction p as [p IH|p IH|]; simpl; by rewrite ?IH. Qed.

Definition text_of {A} `{Countable A} (x : A) : string := digits (encode x).
Definition of_text {A} `{Countable A} (s : string) : option A := decode (undigits s).

Lemma of_text_of {A} `{Countable A} (x : A) : of_text (text_of x) = Some x.
Proof. unfold of_text, text_of. by rewrite undigits_digits, decode_encode. Qed.
