(* ===== verification/GoStd.v ===== *)
(** * The parts of Go's standard library the modelled code calls

    Go strings are byte strings ([string]); [strings.*] functions are given on
    them.  [time.Time] is an integer count of nanoseconds since the Unix
    epoch; [time.Duration] is the int64 nanosecond count it is in Go. *)

From S2P Require Import Prelude.
From stdpp Require Import pretty.

(** ** package strings *)

Module Str.

(** [len(s)] *)
Fixpoint len (s : string) : nat :=
  match s with EmptyString => 0 | String _ s' => S (len s') end.

(** [s[n:]] for [n <= len(s)] *)
Fixpoint from (n : nat) (s : string) : string :=
  match n, s with
  | O, _ => s
  | S n', String _ s' => from n' s'
  | S _, EmptyString => EmptyString
  end.

(** [s[:n]] for [n <= len(s)] *)
Fixpoint upto (n : nat) (s : string) : string :=
  match n, s with
  | S n', String c s' => String c (upto n' s')
  | _, _ => EmptyString
  end.

Fixpoint HasPrefix (s p : string) {struct p} : bool :=
  match p, s with
  | EmptyString, _ => true
  | String c p', String d s' => bool_decide (c = d) && HasPrefix s' p'
  | String _ _, EmptyString => false
  end.

Definition HasSuffix (s p : string) : bool :=
  (len p <=? len s)%nat && bool_decide (from (len s - len p) s = p).

Fixpoint Contains (s sub : string) : bool :=
  HasPrefix s sub ||
  match s with EmptyString => false | String _ s' => Contains s' sub end.

(** [strings.IndexByte]; [None] is -1 *)
Fixpoint IndexByte (s : string) (c : ascii) : option nat :=
  match s with
  | EmptyString => None
  | String d s' => if bool_decide (c = d) then Some 0 else S <$> IndexByte s' c
  end.

(** [strings.LastIndexByte]; [None] is -1 *)
Fixpoint LastIndexByte (s : string) (c : ascii) : option nat :=
  match s with
  | EmptyString => None
  | String d s' =>
      match LastIndexByte s' c with
      | Some i => Some (S i)
      | None => if bool_decide (c = d) then Some 0 else None
      end
  end.

(** [strings.Count] of a one-byte separator *)
Fixpoint CountByte (s : string) (c : ascii) : nat :=
  match s with
  | EmptyString => 0
  | String d s' => (if bool_decide (c = d) then 1 else 0) + CountByte s' c
  end.

(** ASCII part of [unicode.ToLower] *)
Definition lower (c : ascii) : ascii :=
  let n := nat_of_ascii c in
  if (65 <=? n)%nat && (n <=? 90)%nat then ascii_of_nat (n + 32) else c.

(** [strings.ToLower] on ASCII text, which is what host names, tags and
    paths of the modelled code are *)
Fixpoint ToLower (s : string) : string :=
  match s with EmptyString => EmptyString | String c s' => String (lower c) (ToLower s') end.

Definition is_space (c : ascii) : bool :=
  let n := nat_of_ascii c in
  (n =? 32)%nat || ((9 <=? n)%nat && (n <=? 13)%nat).

Fixpoint TrimLeft (s : string) : string :=
  match s with
  | EmptyString => EmptyString
  | String c s' => if is_space c then TrimLeft s' else s
  end.

Fixpoint TrimRight (s : string) : string :=
  match s with
  | EmptyString => EmptyString
  | String c s' =>
      match TrimRight s' with
      | EmptyString => if is_space c then EmptyString else String c EmptyString
      | t => String c t
      end
  end.

(** [strings.TrimSpace] on ASCII text *)
Definition TrimSpace (s : string) : string := TrimRight (TrimLeft s).

Definition TrimPrefix (s p : string) : string :=
  if HasPrefix s p then from (len p) s else s.
Definition TrimSuffix (s p : string) : string :=
  if HasSuffix s p then upto (len s - len p) s else s.

(** [a == ""] *)
Definition empty (s : string) : bool := bool_decide (s = "").

(** [fmt.Sprintf("%d", n)] *)
Definition itoa (n : Z) : string := pretty n.

(** Go's [<] on strings: bytewise lexicographic *)
Definition ltb (a b : string) : bool :=
  match String.compare a b with Lt => true | _ => false end.

(** [strings.EqualFold] on ASCII text *)
Definition EqualFold (a b : string) : bool := bool_decide (ToLower a = ToLower b).

(** [skip] bytes of a match are still to be passed over *)
Fixpoint replace_all (skip : nat) (s old new : string) : string :=
  match s with
  | EmptyString => EmptyString
  | String c s' =>
      match skip with
      | S k => replace_all k s' old new
      | O => if HasPrefix s old then new +:+ replace_all (len old - 1) s' old new
             else String c (replace_all 0 s' old new)
      end
  end.

(** [strings.ReplaceAll(s, old, new)] for a non-empty [old] *)
Definition ReplaceAll (s old new : string) : string := replace_all 0 s old new.

(** [strings.Join] *)
Fixpoint Join (l : list string) (sep : string) : string :=
  match l with
  | [] => ""
  | [a] => a
  | a :: l' => a +:+ (sep +:+ Join l' sep)
  end.

(** [filepath.Base] on Unix *)
Fixpoint trim_slashes (s : string) : string :=
  match s with
  | EmptyString => EmptyString
  | String c s' =>
      match trim_slashes s' with
      | EmptyString => if bool_decide (c = "/"%char) then EmptyString else String c EmptyString
      | t => String c t
      end
  end.

Definition Base (path : string) : string :=
  if empty path then "."
  else
    let p := trim_slashes path in
    let b := match LastIndexByte p "/" with Some i => from (S i) p | None => p end in
    if empty b then "/" else b.

(** lower-case hexadecimal digit *)
Definition hexdigit (n : nat) : ascii :=
  if (n <? 10)%nat then ascii_of_nat (48 + n) else ascii_of_nat (87 + n).

Definition quote_byte (c : ascii) : string :=
  let n := nat_of_ascii c in
  let esc (d : ascii) := String "\"%char (String d "") in
  if (n =? 34)%nat || (n =? 92)%nat then esc c
  else if (n =? 7)%nat then esc "a"%char else if (n =? 8)%nat then esc "b"%char
  else if (n =? 12)%nat then esc "f"%char else if (n =? 10)%nat then esc "n"%char
  else if (n =? 13)%nat then esc "r"%char else if (n =? 9)%nat then esc "t"%char
  else if (n =? 11)%nat then esc "v"%char
  else if (n <? 32)%nat || (n =? 127)%nat
  then String "\"%char (String "x"%char (String (hexdigit (n / 16)) (String (hexdigit (n mod 16)) "")))
  else String c "".

(** [strconv.Quote] (the verb %q) on ASCII text *)
Definition Quote (s : string) : string :=
  String (ascii_of_nat 34)
    ((fix go s := match s with EmptyString => String (ascii_of_nat 34) ""
                             | String c s' => quote_byte c +:+ go s' end) s).

Fixpoint hex_digits (fuel : nat) (n : Z) : string :=
  match fuel with
  | O => ""
  | S fuel' => (if (n <? 16)%Z then "" else hex_digits fuel' (n / 16)) +:+ String (hexdigit (Z.to_nat (n mod 16))) ""
  end.

(** [fmt.Sprintf("%x", n)] of an unsigned integer of at most 64 bits *)
Definition hex (n : Z) : string := hex_digits 16 n.

Definition byte_str (z : Z) : string := String (ascii_of_nat (Z.to_nat z)) "".

(** [string(r)] for a rune: its UTF-8 encoding, U+FFFD for a value that is no
    code point *)
Definition rune_string (r : Z) : string :=
  if (r <? 0)%Z || (0x10FFFF <? r)%Z || ((0xD800 <=? r)%Z && (r <=? 0xDFFF)%Z)
  then byte_str 0xEF +:+ byte_str 0xBF +:+ byte_str 0xBD
  else if (r <? 0x80)%Z then byte_str r
  else if (r <? 0x800)%Z then byte_str (0xC0 + r / 64) +:+ byte_str (0x80 + r mod 64)
  else if (r <? 0x10000)%Z
  then byte_str (0xE0 + r / 4096) +:+ byte_str (0x80 + (r / 64) mod 64) +:+ byte_str (0x80 + r mod 64)
  else byte_str (0xF0 + r / 262144) +:+ byte_str (0x80 + (r / 4096) mod 64) +:+
       byte_str (0x80 + (r / 64) mod 64) +:+ byte_str (0x80 + r mod 64).

(** the digits of [strconv.ParseUint] in base 10; [None] is a syntax error *)
Fixpoint digits_val (acc : Z) (s : string) : option Z :=
  match s with
  | EmptyString => Some acc
  | String c s' =>
      let d := (Z.of_nat (nat_of_ascii c) - 48)%Z in
      if (0 <=? d)%Z && (d <=? 9)%Z then digits_val (acc * 10 + d)%Z s' else None
  end.

(** [strconv.ParseUint(s, 10, bits)]; [None] is an error (syntax or range) *)
Definition ParseUint (bits : Z) (s : string) : option Z :=
  if bool_decide (s = "") then None
  else n ← digits_val 0 s; if (n <? 2 ^ bits)%Z then Some n else None.

Fixpoint scan_digits (s : string) : string :=
  match s with
  | String c s' => let n := nat_of_ascii c in
                   if (48 <=? n)%nat && (n <=? 57)%nat then String c (scan_digits s') else EmptyString
  | EmptyString => EmptyString
  end.

(** [fmt.Sscanf(s, "%d", &v)] for an unsigned [v] that is 0: blanks are skipped
    (a line break is an error), the digits that follow are read, the rest is
    left; any error leaves 0 *)
Fixpoint scan_uint (bits : Z) (s : string) : Z :=
  match s with
  | EmptyString => 0%Z
  | String c s' =>
      if bool_decide (c = "010"%char) then 0%Z
      else if is_space c then scan_uint bits s'
      else default 0%Z (ParseUint bits (scan_digits s))
  end.

(** the same for a signed [v] of 64 bits *)
Fixpoint scan_int (s : string) : Z :=
  match s with
  | EmptyString => 0%Z
  | String c s' =>
      if bool_decide (c = "010"%char) then 0%Z
      else if is_space c then scan_int s'
      else
        let '(sign, d) := if bool_decide (c = "-"%char) then ((-1)%Z, s') else if bool_decide (c = "+"%char) then (1%Z, s') else (1%Z, s) in
        let n := if empty (scan_digits d) then 0%Z else default 0%Z (digits_val 0 (scan_digits d)) in
        let v := (sign * n)%Z in
        if (- 2 ^ 63 <=? v)%Z && (v <? 2 ^ 63)%Z then v else 0%Z
  end.

(** [strings.Split] at one byte *)
Fixpoint Split (c : ascii) (s : string) : list string :=
  match s with
  | EmptyString => [EmptyString]
  | String d s' =>
      if bool_decide (d = c) then EmptyString :: Split c s'
      else match Split c s' with w :: ws => String d w :: ws | [] => [String d EmptyString] end
  end.

(** [strings.Index] *)
Fixpoint Index (s sub : string) : option nat :=
  if HasPrefix s sub then Some 0 else match s with EmptyString => None | String _ s' => S <$> Index s' sub end.

(** a final carriage return is not part of a line *)
Fixpoint drop_cr (s : string) : string :=
  match s with
  | EmptyString => EmptyString
  | String c s' => if bool_decide (c = "013"%char) && bool_decide (s' = EmptyString) then EmptyString else String c (drop_cr s')
  end.

(** the tokens of a [bufio.Scanner]: lines up to one longer than its buffer;
    text after the last line break is a line unless it is empty *)
Fixpoint scan_tokens (ls : list string) : list string :=
  match ls with
  | [] => []
  | l :: ls' => if (65536 <=? Z.of_nat (len l))%Z then []
                else match ls' with [] => if empty l then [] else [drop_cr l] | _ => drop_cr l :: scan_tokens ls' end
  end.

Definition scan_lines (s : string) : list string := scan_tokens (Split "010" s).

Example scan_lines_ex :
  scan_lines ("a" +:+ String "013" (String "010" ("b" +:+ String "010" ""))) = ["a"; "b"] ∧ Index "chicken" "ken" = Some 4.
Proof. split; reflexivity. Qed.

Lemma len_app (a b : string) : len (a +:+ b) = len a + len b.
Proof. induction a as [|c a IH]; [done|]. change (S (len (a +:+ b)) = S (len a) + len b). lia. Qed.

Lemma from_len (i : nat) (s : string) : len (from i s) ≤ len s.
Proof.
  revert s. induction i as [|i IH]; intros [|c s]; cbn; try lia. specialize (IH s). lia.
Qed.

Lemma trim_slashes_len (s : string) : len (trim_slashes s) ≤ len s.
Proof.
  induction s as [|c s IH]; [done|]. cbn [trim_slashes]. destruct (trim_slashes s) as [|c' t]; [case_bool_decide; cbn; lia|].
  change (S (len (String c' t)) ≤ S (len s)). lia.
Qed.

(** a base name is not longer than its path *)
Lemma Base_len (s : string) : len (Base s) ≤ max 1 (len s).
Proof.
  unfold Base. destruct (empty s); [change (len ".") with 1; lia|]. cbv zeta. pose proof (trim_slashes_len s).
  destruct (LastIndexByte _ _) as [i|]; [pose proof (from_len (S i) (trim_slashes s))|]; case_match; fold len in *; first [lia | change (len "/") with 1; lia].
Qed.

Lemma app_nil_r (a : string) : a +:+ "" = a.
Proof. induction a as [|c a IH]; [done|]. change (String c (a +:+ "") = String c a). by rewrite IH. Qed.

Lemma app_assoc (a b c : string) : a +:+ (b +:+ c) = (a +:+ b) +:+ c.
Proof. induction a as [|x a IH]; [done|]. change (String x (a +:+ (b +:+ c)) = String x ((a +:+ b) +:+ c)). by rewrite IH. Qed.

Lemma ToLower_app (a b : string) : ToLower (a +:+ b) = ToLower a +:+ ToLower b.
Proof.
  induction a as [|c a IH]; [done|].
  change (String (lower c) (ToLower (a +:+ b)) = String (lower c) (ToLower a +:+ ToLower b)).
  by rewrite IH.
Qed.

Lemma from_app (a b : string) : from (len a) (a +:+ b) = b.
Proof. induction a as [|c a IH]; [by destruct b|]. apply IH. Qed.

Lemma from_S_app (a b : string) (c : ascii) : from (S (len a)) (a +:+ String c b) = b.
Proof. induction a as [|d a IH]; [by destruct b|exact IH]. Qed.

Lemma upto_app (a b : string) : upto (len a) (a +:+ b) = a.
Proof.
  induction a as [|c a IH]; [by destruct b|].
  change (String c (upto (len a) (a +:+ b)) = String c a). by rewrite IH.
Qed.

Lemma upto_from (n : nat) (s : string) : upto n s +:+ from n s = s.
Proof.
  revert s. induction n as [|n IH]; intros [|c s]; try done.
  change (String c (upto n s +:+ from n s) = String c s). by rewrite IH.
Qed.

Lemma len_from (n : nat) (s : string) : len (from n s) = len s - n.
Proof. revert s. induction n as [|n IH]; intros [|c s]; simpl; auto. Qed.

Lemma len_upto (n : nat) (s : string) : len (upto n s) = min n (len s).
Proof. revert s. induction n as [|n IH]; intros [|c s]; simpl; try done. by rewrite IH. Qed.

Lemma app_inj_l (a b c : string) : a +:+ b = a +:+ c → b = c.
Proof. intros H. rewrite <-(from_app a b), H. apply from_app. Qed.

Lemma app_inj_r (a b c : string) : a +:+ c = b +:+ c → a = b.
Proof.
  intros H. assert (len a = len b) as Hl.
  { apply (f_equal len) in H. rewrite !len_app in H. lia. }
  rewrite <-(upto_app a c), H, Hl. apply upto_app.
Qed.

Lemma HasPrefix_spec (s p : string) : HasPrefix s p = true ↔ ∃ t, s = p +:+ t.
Proof.
  revert s. induction p as [|c p IH]; intros s; simpl.
  - split; [|by destruct s]. intros _. by exists s.
  - destruct s as [|d s]; [split; [done|intros [t Ht]; discriminate Ht]|].
    rewrite andb_true_iff, bool_decide_eq_true, IH. split.
    + intros [-> [t ->]]. by exists t.
    + intros [t Ht]. change (String d s = String c (p +:+ t)) in Ht.
      simplify_eq. eauto.
Qed.

Lemma HasSuffix_spec (s p : string) : HasSuffix s p = true ↔ ∃ t, s = t +:+ p.
Proof.
  unfold HasSuffix. rewrite andb_true_iff, Nat.leb_le, bool_decide_eq_true. split.
  - intros [Hl Hf]. exists (upto (len s - len p) s).
    rewrite <-Hf at 2. by rewrite upto_from.
  - intros [t ->]. rewrite len_app. split; [lia|].
    replace (len t + len p - len p) with (len t) by lia. apply from_app.
Qed.

Lemma Contains_spec (s sub : string) :
  Contains s sub = true ↔ ∃ a b, s = a +:+ (sub +:+ b).
Proof.
  induction s as [|c s IH]; simpl.
  - rewrite orb_false_r, HasPrefix_spec. split.
    + intros [t Ht]. by exists "", t.
    + intros ([|x a] & b & H); [by exists b|discriminate H].
  - rewrite orb_true_iff, HasPrefix_spec, IH. split.
    + intros [[t Ht]|(a & b & ->)]; [by exists "", t|by exists (String c a), b].
    + intros ([|x a] & b & H); [left; by exists b|right].
      change (String c s = String x (a +:+ (sub +:+ b))) in H. simplify_eq. eauto.
Qed.

Lemma IndexByte_spec (s : string) (c : ascii) (i : nat) :
  IndexByte s c = Some i → ∃ a b, s = a +:+ String c b ∧ len a = i ∧ IndexByte a c = None.
Proof.
  revert i. induction s as [|d s IH]; intros i; simpl; [done|].
  case_bool_decide as Hc; intros Hi; simplify_eq/=.
  - exists "", s. done.
  - destruct (IndexByte s c) as [j|] eqn:Hj; simplify_eq/=.
    destruct (IH j eq_refl) as (a & b & -> & <- & Ha).
    exists (String d a), b. repeat split; [done..|].
    simpl. rewrite bool_decide_eq_false_2 by done. by rewrite Ha.
Qed.

(** the part after the last separator holds none *)
Lemma LastIndexByte_spec (s : string) (c : ascii) (i : nat) :
  LastIndexByte s c = Some i →
  ∃ a b, s = a +:+ String c b ∧ len a = i ∧ LastIndexByte b c = None.
Proof.
  revert i. induction s as [|d s IH]; intros i; simpl; [done|].
  destruct (LastIndexByte s c) as [j|] eqn:Hj; intros Hi; simplify_eq.
  - destruct (IH j eq_refl) as (a & b & -> & <- & Hb). by exists (String d a), b.
  - case_bool_decide; simplify_eq. by exists "", s.
Qed.

Lemma LastIndexByte_None (s : string) (c : ascii) :
  LastIndexByte s c = None ↔ CountByte s c = 0.
Proof.
  induction s as [|d s IH]; simpl; [done|].
  destruct (LastIndexByte s c) as [i|]; case_bool_decide; simpl;
    split; intros; simplify_eq; try lia; try (by apply IH).
  - apply IH in H0. done.
Qed.

Lemma LastIndexByte_app (a b : string) (c : ascii) :
  LastIndexByte b c = None → LastIndexByte (a +:+ String c b) c = Some (len a).
Proof.
  intros Hb. induction a as [|d a IH].
  - change ("" +:+ String c b) with (String c b). simpl. rewrite Hb.
    by rewrite bool_decide_eq_true_2.
  - change (LastIndexByte (String d (a +:+ String c b)) c = Some (len (String d a))).
    simpl. by rewrite IH.
Qed.

Lemma CountByte_app (a b : string) (c : ascii) :
  CountByte (a +:+ b) c = CountByte a c + CountByte b c.
Proof.
  induction a as [|d a IH]; [done|].
  change (CountByte (String d (a +:+ b)) c = CountByte (String d a) c + CountByte b c).
  simpl. rewrite IH. lia.
Qed.

Lemma itoa_inj : Inj (=) (=) itoa.
Proof. apply _. Qed.

(** decimal text contains no separator *)
Lemma pretty_N_go_count (c : ascii) (x : N) (s : string) :
  (∀ d, pretty_N_char d ≠ c) → CountByte (pretty_N_go x s) c = CountByte s c.
Proof.
  intros Hc. revert s. induction (N.lt_wf_0 x) as [x _ IH]; intros s.
  destruct (decide (x = 0%N)) as [->|Hx]; [by rewrite pretty_N_go_0|].
  rewrite pretty_N_go_step by lia. rewrite IH by (apply N.div_lt; lia). simpl.
  by rewrite bool_decide_eq_false_2 by (intros Heq; by apply (Hc (x `mod` 10)%N)).
Qed.

Lemma itoa_no_colon (n : Z) : (0 ≤ n)%Z → CountByte (itoa n) ":" = 0.
Proof.
  intros Hn. unfold itoa, pretty, pretty_Z. destruct n as [|q|q]; [done| |lia].
  unfold pretty, pretty_positive, pretty, pretty_N. rewrite decide_False by done. rewrite pretty_N_go_count; [done|].
  intros d. unfold pretty_N_char. by repeat case_match.
Qed.

Lemma pretty_char_digit (d : N) :
  (d < 10)%N → (Z.of_nat (nat_of_ascii (pretty_N_char d)) - 48)%Z = Z.of_N d.
Proof.
  intros Hd. assert (Forall (λ d, (Z.of_nat (nat_of_ascii (pretty_N_char (N.of_nat d))) - 48)%Z = Z.of_nat d) (seq 0 10)) as H
    by (cbv; repeat constructor).
  rewrite Forall_forall in H. specialize (H (N.to_nat d)). rewrite N2Nat.id in H. rewrite H; [lia|]. apply elem_of_seq. lia.
Qed.

Lemma pretty_N_go_digits (x : N) (s : string) : digits_val 0 (pretty_N_go x s) = digits_val (Z.of_N x) s.
Proof.
  revert s. induction (N.lt_wf_0 x) as [x _ IH]; intros s.
  destruct (decide (x = 0%N)) as [->|Hx]; [by rewrite pretty_N_go_0|].
  rewrite pretty_N_go_step by lia. rewrite IH by (apply N.div_lt; lia). cbn [digits_val].
  pose proof (N.mod_lt x 10 ltac:(done)). rewrite pretty_char_digit by done.
  pose proof (N.div_mod' x 10) as Hdm. revert Hdm H. generalize (x `mod` 10)%N (x `div` 10)%N. intros r q -> Hr.
  rewrite (proj2 (Z.leb_le _ _)), (proj2 (Z.leb_le _ _)) by lia. cbn [andb]. f_equal. lia.
Qed.

(** a number survives being written in decimal *)
Lemma ParseUint_itoa (bits n : Z) : (0 ≤ n < 2 ^ bits)%Z → ParseUint bits (itoa n) = Some n.
Proof.
  intros Hn. unfold ParseUint. assert (digits_val 0 (itoa n) = Some n ∧ itoa n ≠ "") as [-> Hne].
  { unfold itoa, pretty, pretty_Z. destruct n as [|q|q]; [done| |lia].
    unfold pretty, pretty_positive, pretty, pretty_N. rewrite decide_False by done. rewrite pretty_N_go_digits. split; [done|].
    intros He. assert (digits_val 0 (pretty_N_go (N.pos q) "") = Some 0%Z) as H by (by rewrite He).
    rewrite pretty_N_go_digits in H. simpl in H. congruence. }
  rewrite bool_decide_false by done. cbn [mbind option_bind]. by rewrite (proj2 (Z.ltb_lt _ _)) by lia.
Qed.

Lemma pretty_N_go_scan (x : N) (s : string) : scan_digits s = s → scan_digits (pretty_N_go x s) = pretty_N_go x s.
Proof.
  revert s. induction (N.lt_wf_0 x) as [x _ IH]; intros s Hs.
  destruct (decide (x = 0%N)) as [->|Hx]; [by rewrite pretty_N_go_0|].
  rewrite pretty_N_go_step by lia. apply IH; [apply N.div_lt; lia|]. cbn [scan_digits].
  pose proof (pretty_char_digit (x `mod` 10) (N.mod_lt x 10 ltac:(done))) as Hd.
  pose proof (N.mod_lt x 10 ltac:(done)) as Hm. revert Hd Hm. generalize (x `mod` 10)%N. intros d Hd Hm.
  rewrite (proj2 (Nat.leb_le _ _)), (proj2 (Nat.leb_le _ _)) by lia. cbn [andb]. by rewrite Hs.
Qed.

(** a number is read back from the start of a text that is only its decimal form *)
Lemma scan_uint_itoa (bits n : Z) : (0 ≤ n < 2 ^ bits)%Z → scan_uint bits (itoa n) = n.
Proof.
  intros Hn. assert (scan_digits (itoa n) = itoa n) as Hs.
  { unfold itoa, pretty, pretty_Z. destruct n as [|q|q]; [done| |lia].
    unfold pretty, pretty_positive, pretty, pretty_N. rewrite decide_False by done. by apply pretty_N_go_scan. }
  pose proof (ParseUint_itoa bits n Hn) as Hp. revert Hs Hp. generalize (itoa n). intros [|c s] Hs Hp; [done|].
  assert (48 ≤ nat_of_ascii c ≤ 57) as Hc.
  { cbn [scan_digits] in Hs. destruct ((48 <=? nat_of_ascii c)%nat && (nat_of_ascii c <=? 57)%nat) eqn:Hc; [|discriminate Hs].
    apply andb_prop in Hc as [H1%Nat.leb_le H2%Nat.leb_le]. lia. }
  cbn [scan_uint]. rewrite bool_decide_false by (intros ->; vm_compute in Hc; lia).
  assert (is_space c = false) as ->.
  { unfold is_space. rewrite (proj2 (Nat.eqb_neq _ _)), (proj2 (Nat.leb_gt (nat_of_ascii c) 13)) by lia. by rewrite andb_false_r. }
  by rewrite Hs, Hp.
Qed.

Lemma compare_refl (a : string) : String.compare a a = Eq.
Proof.
  pose proof (String.compare_antisym a a) as H.
  destruct (String.compare a a); [done|discriminate H..].
Qed.

Lemma ltb_irrefl (a : string) : ltb a a = false.
Proof. unfold ltb. by rewrite compare_refl. Qed.

Example base_ex : (Base "/usr/bin/curl", Base "curl", Base "/usr/bin/", Base "//", Base "") =
  ("curl", "curl", "bin", "/", ".").
Proof. reflexivity. Qed.
Example replace_ex : (ReplaceAll "a/b//c" "/" "_", ReplaceAll "a...b" ".." "_") = ("a_b__c", "a_.b").
Proof. reflexivity. Qed.

End Str.

(** ** package time *)

Module Time.

Abbreviation time := Z (only parsing).
Abbreviation duration := Z (only parsing).

Definition Nanosecond : duration := 1.
Definition Microsecond : duration := 1000.
Definition Millisecond : duration := 1000000.
Definition Second : duration := 1000000000.
Definition Minute : duration := 60 * Second.
Definition Hour : duration := 60 * Minute.

(** the zero [time.Time], 1 January of year 1 UTC *)
Definition zero : time := -62135596800 * Second.

Definition IsZero (t : time) : bool := (t =? zero)%Z.
Definition Before (t u : time) : bool := (t <? u)%Z.
Definition After (t u : time) : bool := (u <? t)%Z.

(** [t.Add(d)] *)
Definition Add (t : time) (d : duration) : time := (t + d)%Z.

(** [t.Sub(u)] saturates at the ends of the duration range *)
Definition Sub (t u : time) : duration :=
  Z.max min_int64 (Z.min max_int64 (t - u)%Z).

(** [t.Truncate(time.Second)]: the zero time is a whole number of seconds *)
Definition TruncateSecond (t : time) : time := (Z.div t Second * Second)%Z.

(** [t.Truncate(d)]: down to a multiple of [d] since the zero time *)
Definition Truncate (t : time) (d : duration) : time := if (d <=? 0)%Z then t else (t - (t - zero) mod d)%Z.

Lemma Truncate_bounds (t : time) (d : duration) : (0 < d)%Z → (t - d < Truncate t d ≤ t)%Z.
Proof.
  intros Hd. unfold Truncate. rewrite (proj2 (Z.leb_gt _ _)) by done.
  pose proof (Z.mod_pos_bound (t - zero) d Hd). lia.
Qed.

(** year, month and day of a number of days since 1970 (proleptic Gregorian) *)
Definition civil (days : Z) : Z * Z * Z :=
  (let z := days + 719468 in
   let era := z / 146097 in
   let doe := z mod 146097 in
   let yoe := (doe - doe / 1460 + doe / 36524 - doe / 146096) / 365 in
   let doy := doe - (365 * yoe + yoe / 4 - yoe / 100) in
   let mp := (5 * doy + 2) / 153 in
   let d := doy - (153 * mp + 2) / 5 + 1 in
   let m := if mp <? 10 then mp + 3 else mp - 9 in
   (yoe + era * 400 + (if m <=? 2 then 1 else 0), m, d))%Z.

(** a number in decimal, padded with zeros to [w] digits *)
Definition pad (w : nat) (n : Z) : string :=
  let s := Str.itoa n in foldr (λ _ t, "0" +:+ t) s (replicate (w - Str.len s) tt).

(** [t.UTC().Format("2006-01-02")], for the years 0 to 9999 *)
Definition FormatDate (t : time) : string :=
  let '(y, m, d) := civil (t / (24 * Hour)) in
  pad 4 y +:+ ("-" +:+ (pad 2 m +:+ ("-" +:+ pad 2 d))).

(** [t.UTC().Format(time.RFC3339)], for the years 0 to 9999 *)
Definition FormatRFC3339 (t : time) : string :=
  let s := ((t / Second) mod 86400)%Z in
  FormatDate t +:+ ("T" +:+ (pad 2 (s / 3600) +:+ (":" +:+ (pad 2 ((s / 60) mod 60) +:+ (":" +:+
    (pad 2 (s mod 60) +:+ "Z")))))).


Lemma Sub_exact (t u : time) :
  (min_int64 ≤ t - u ≤ max_int64)%Z → Sub t u = (t - u)%Z.
Proof. unfold Sub. lia. Qed.

Lemma Sub_diag (t : time) : Sub t t = 0%Z.
Proof. rewrite Sub_exact; rewrite Z.sub_diag; [done|]. unfold min_int64, max_int64. lia. Qed.

(** a saturated difference compares with a duration as the exact one does *)
Lemma Sub_gt (t u : time) (d : duration) :
  (min_int64 ≤ d < max_int64)%Z → (d < Sub t u)%Z ↔ (d < t - u)%Z.
Proof. unfold Sub. lia. Qed.

Example rfc3339_epoch : FormatRFC3339 0 = "1970-01-01T00:00:00Z".
Proof. reflexivity. Qed.
Example rfc3339_leap : FormatRFC3339 (1709210096 * Second + 5) = "2024-02-29T12:34:56Z".
Proof. reflexivity. Qed.
Example rfc3339_zero : FormatRFC3339 zero = "0001-01-01T00:00:00Z".
Proof. reflexivity. Qed.

End Time.
