(* ===== verification/Bytes.v ===== *)
(** * Byte strings and fixed-width encodings (encoding/binary, fmt %x) *)

From S2P Require Import Prelude GoStd.

Abbreviation bytes := (list Z) (only parsing).

(** little-endian encoding of the low [8 * n] bits *)
Fixpoint le_enc (n : nat) (z : Z) : bytes :=
  match n with O => [] | S n' => (z mod 256)%Z :: le_enc n' (z / 256)%Z end.

Fixpoint le_dec (l : bytes) : Z :=
  match l with [] => 0%Z | b :: l' => (b + 256 * le_dec l')%Z end.

Lemma le_enc_length (n : nat) (z : Z) : length (le_enc n z) = n.
Proof. revert z. induction n as [|n IH]; intros z; simpl; [done|]. by rewrite IH. Qed.

Lemma le_dec_enc (n : nat) (z : Z) : le_dec (le_enc n z) = (z mod 256 ^ Z.of_nat n)%Z.
Proof.
  revert z. induction n as [|n IH]; intros z; [by rewrite Z.mod_1_r|].
  cbn [le_enc le_dec]. rewrite IH. rewrite Nat2Z.inj_succ, Z.pow_succ_r by lia.
  rewrite Z.rem_mul_r by lia. lia.
Qed.

Lemma le_dec_enc_small (n : nat) (z : Z) :
  (0 ≤ z < 256 ^ Z.of_nat n)%Z → le_dec (le_enc n z) = z.
Proof. intros. rewrite le_dec_enc. by apply Z.mod_small. Qed.

Definition byte_ok (b : Z) : Prop := (0 ≤ b < 256)%Z.

Lemma le_dec_bound (l : bytes) : Forall byte_ok l → (0 ≤ le_dec l < 256 ^ Z.of_nat (length l))%Z.
Proof.
  induction 1 as [|b l Hb _ IH]; [done|]. cbn [le_dec length]. unfold byte_ok in Hb.
  rewrite Nat2Z.inj_succ, Z.pow_succ_r by lia. lia.
Qed.

(** big-endian *)
Definition be_enc (n : nat) (z : Z) : bytes := rev (le_enc n z).
Definition be_dec (l : bytes) : Z := le_dec (rev l).

Lemma be_enc_length (n : nat) (z : Z) : length (be_enc n z) = n.
Proof. unfold be_enc. by rewrite length_rev, le_enc_length. Qed.

Lemma be_dec_enc (n : nat) (z : Z) : (0 ≤ z < 256 ^ Z.of_nat n)%Z → be_dec (be_enc n z) = z.
Proof. intros. unfold be_dec, be_enc. rewrite rev_involutive. by apply le_dec_enc_small. Qed.

Lemma le_dec_app (a b : bytes) : le_dec (a ++ b) = (le_dec a + 256 ^ Z.of_nat (length a) * le_dec b)%Z.
Proof.
  induction a as [|x a IH]; [cbn; lia|]. cbn [app le_dec length]. rewrite IH, Nat2Z.inj_succ, Z.pow_succ_r by lia. lia.
Qed.

Lemma be_dec_app (a b : bytes) : be_dec (a ++ b) = (be_dec a * 256 ^ Z.of_nat (length b) + be_dec b)%Z.
Proof. unfold be_dec. rewrite rev_app_distr, le_dec_app, length_rev. lia. Qed.

Lemma le_dec_inj (a b : bytes) : Forall byte_ok a → Forall byte_ok b → length a = length b → le_dec a = le_dec b → a = b.
Proof.
  intros Ha. revert b. induction Ha as [|x a Hx _ IH]; intros [|y b] Hb Hl He; try done.
  apply Forall_cons in Hb as [Hy Hb]. cbn [le_dec] in He. unfold byte_ok in *. f_equal; [lia|].
  apply IH; [done|by injection Hl|lia].
Qed.

Lemma be_dec_inj (a b : bytes) : Forall byte_ok a → Forall byte_ok b → length a = length b → be_dec a = be_dec b → a = b.
Proof.
  intros Ha Hb Hl He. apply rev_inj, le_dec_inj; [by apply Forall_rev..|by rewrite !length_rev|exact He].
Qed.

(** FNV-1a over the bytes, 64 bits *)
Definition fnv64a (bs : bytes) : Z :=
  foldl (λ h b, (Z.lxor h b * 1099511628211) mod 2 ^ 64)%Z 14695981039346656037%Z bs.

(** ** Reading from a byte stream *)

(** [io.ReadFull] of [n] bytes: the bytes and the rest, [None] when short *)
Definition read_full (n : nat) (s : bytes) : option (bytes * bytes) :=
  if (length s <? n)%nat then None else Some (take n s, drop n s).

Lemma read_full_app (a b : bytes) : read_full (length a) (a ++ b) = Some (a, b).
Proof.
  unfold read_full. rewrite (proj2 (Nat.ltb_ge _ _)) by (rewrite length_app; lia).
  by rewrite take_app_length, drop_app_length.
Qed.

Lemma read_full_app' (n : nat) (a b : bytes) : length a = n → read_full n (a ++ b) = Some (a, b).
Proof. intros <-. apply read_full_app. Qed.

(** [binary.Read] of an unsigned integer when the error is dropped: a short
    stream leaves zero and is used up *)
Definition read_uint (n : nat) (s : bytes) : Z * bytes :=
  match read_full n s with Some (b, s') => (le_dec b, s') | None => (0%Z, []) end.

(** [io.ReadFull] into an [n]-byte array when the error is dropped: the bytes
    that are there fill its front, the rest stays zero *)
Definition read_array (n : nat) (s : bytes) : bytes * bytes :=
  (take n s ++ replicate (n - length s) 0%Z, drop n s).

Lemma read_uint_enc (n : nat) (z : Z) (s : bytes) :
  (0 ≤ z < 256 ^ Z.of_nat n)%Z → read_uint n (le_enc n z ++ s) = (z, s).
Proof.
  intros Hz. unfold read_uint. rewrite read_full_app' by apply le_enc_length.
  by rewrite le_dec_enc_small.
Qed.

Lemma read_array_app (n : nat) (a s : bytes) : length a = n → read_array n (a ++ s) = (a, s).
Proof.
  intros <-. unfold read_array. rewrite length_app, take_app_length, drop_app_length.
  replace (length a - (length a + length s)) with 0 by lia. simpl. by rewrite app_nil_r.
Qed.

Lemma read_uint_bound (n : nat) (s : bytes) :
  Forall byte_ok s → (0 ≤ (read_uint n s).1 < 256 ^ Z.of_nat n)%Z ∧ Forall byte_ok (read_uint n s).2.
Proof.
  intros Hs. unfold read_uint, read_full. destruct (length s <? n)%nat eqn:Hn; simpl.
  - split; [|constructor]. split; [done|]. apply Z.pow_pos_nonneg; lia.
  - bool_to_prop. split; [|by apply Forall_drop].
    pose proof (le_dec_bound (take n s) (Forall_take _ _ _ Hs)) as Hb.
    rewrite length_take in Hb. by replace (n `min` length s) with n in Hb by lia.
Qed.

Lemma read_array_length (n : nat) (s : bytes) : length (read_array n s).1 = n.
Proof. unfold read_array. simpl. rewrite length_app, length_take, length_replicate. lia. Qed.

(** [copy(dst[:n], src)] into a zeroed [n]-byte array *)
Definition to_array (n : nat) (a : bytes) : bytes := take n a ++ replicate (n - length a) 0%Z.

Lemma to_array_length (n : nat) (a : bytes) : length (to_array n a) = n.
Proof. unfold to_array. rewrite length_app, length_take, length_replicate. lia. Qed.

Lemma to_array_id (n : nat) (a : bytes) : length a = n → to_array n a = a.
Proof. intros <-. unfold to_array. rewrite firstn_all, Nat.sub_diag. apply app_nil_r. Qed.

(** ** Fixed-width hexadecimal text *)

(** the low [k] hexadecimal digits of [n], most significant first *)
Fixpoint hexd (k : nat) (n : Z) : string :=
  match k with
  | O => ""
  | S k' => String (Str.hexdigit (Z.to_nat ((n / 16 ^ Z.of_nat k') mod 16))) (hexd k' n)
  end.

(** [fmt.Sprintf("%016x", n)] of a uint64 *)
Definition hex16 (n : Z) : string := hexd 16 n.

Lemma hexd_mod (k j : nat) (n : Z) : k ≤ j → hexd k (n mod 16 ^ Z.of_nat j) = hexd k n.
Proof.
  induction k as [|k IH]; intros Hk; [done|]. cbn [hexd]. rewrite IH by lia. do 3 f_equal.
  replace (Z.of_nat j) with (Z.of_nat k + 1 + (Z.of_nat j - Z.of_nat k - 1))%Z by lia.
  set (r := (Z.of_nat j - Z.of_nat k - 1)%Z). assert (0 ≤ r)%Z by lia.
  rewrite !Z.pow_add_r, Z.pow_1_r by lia.
  rewrite <-Z.mul_assoc, Z.rem_mul_r by (try apply Z.mul_pos_pos; try apply Z.pow_nonzero; try apply Z.pow_pos_nonneg; lia).
  rewrite Z.add_comm, Z.mul_comm, Z.div_add_l by (apply Z.pow_nonzero; lia).
  rewrite (Z.div_small (n mod _)), Z.add_0_r by (apply Z.mod_pos_bound, Z.pow_pos_nonneg; lia).
  rewrite Z.rem_mul_r by (try apply Z.pow_pos_nonneg; lia).
  rewrite Z.mul_comm, Z.mod_add by lia. by rewrite Z.mod_mod.
Qed.

Lemma hexdigit_compare (a b : nat) : a < 16 → b < 16 →
  Ascii.compare (Str.hexdigit a) (Str.hexdigit b) = Nat.compare a b.
Proof.
  intros Ha Hb.
  do 16 (destruct a as [|a]; [do 16 (destruct b as [|b]; [reflexivity|]); lia|]). lia.
Qed.

(** fixed-width hexadecimal text sorts like the numbers it writes *)
Lemma hexd_compare (k : nat) (n m : Z) (s : string) :
  (0 ≤ n < m)%Z → (m < 16 ^ Z.of_nat k)%Z →
  String.compare (hexd k n +:+ s) (hexd k m +:+ s) = Lt.
Proof.
  revert n m. induction k as [|k IH]; intros n m Hnm Hm; [simpl in Hm; lia|].
  set (p := (16 ^ Z.of_nat k)%Z). assert (0 < p)%Z by (apply Z.pow_pos_nonneg; lia).
  assert (16 ^ Z.of_nat (S k) = 16 * p)%Z as Hp.
  { rewrite Nat2Z.inj_succ, Z.pow_succ_r by lia. done. }
  rewrite Hp in Hm.
  assert (0 ≤ n / p ≤ m / p)%Z as [Hn0 Hle].
  { split; [apply Z.div_pos; lia|apply Z.div_le_mono; lia]. }
  assert (m / p < 16)%Z as Hd by (apply Z.div_lt_upper_bound; lia).
  change (hexd (S k) ?x +:+ s) with
    (String (Str.hexdigit (Z.to_nat ((x / p) mod 16))) (hexd k x +:+ s)).
  cbn [String.compare]. rewrite !Z.mod_small by lia. rewrite hexdigit_compare by lia.
  destruct (Z.eq_dec (n / p) (m / p)) as [Heq|Hne].
  - rewrite Heq, Nat.compare_refl.
    rewrite <-(hexd_mod k k n), <-(hexd_mod k k m) by lia. fold p.
    apply IH; [|apply Z.mod_pos_bound; lia].
    pose proof (Z.mod_pos_bound n p ltac:(lia)).
    pose proof (Z.div_mod n p ltac:(lia)) as Hdn. pose proof (Z.div_mod m p ltac:(lia)) as Hdm.
    rewrite Heq in Hdn. lia.
  - assert (Z.to_nat (n / p) < Z.to_nat (m / p))%nat as Hlt%Nat.compare_lt_iff by lia.
    by rewrite Hlt.
Qed.

Lemma hex16_compare (n m : Z) (s : string) :
  (0 ≤ n < m)%Z → (m < 2 ^ 64)%Z → String.compare (hex16 n +:+ s) (hex16 m +:+ s) = Lt.
Proof. intros ??. by apply hexd_compare. Qed.

(** ** Text *)

(** [string(b)] *)
Definition string_of (b : bytes) : string := foldr (λ z s, Str.byte_str z +:+ s) "" b.

(** [[]byte(s)] *)
Definition bytes_of (s : string) : bytes := (λ c, Z.of_nat (nat_of_ascii c)) <$> String.list_ascii_of_string s.

(** [b[i:j]] where the caller has checked [j <= len(b)] *)
Definition slice (b : bytes) (i j : nat) : bytes := take (j - i) (drop i b).

(** [binary.LittleEndian.Uint16/32/64(b[i:i+n])], checked likewise *)
Definition le_at (n : nat) (b : bytes) (i : nat) : Z := le_dec (slice b i (i + n)).

Lemma slice_app (a b : bytes) (i j : nat) : length a ≤ i → slice (a ++ b) i j = slice b (i - length a) (j - length a).
Proof. intros Ha. unfold slice. rewrite drop_app_ge by lia. f_equal. lia. Qed.

Lemma slice_skip (m : nat) (z : Z) (b : bytes) (i j : nat) :
  m ≤ i → slice (le_enc m z ++ b) i j = slice b (i - m) (j - m).
Proof. intros Hm. rewrite slice_app; by rewrite le_enc_length. Qed.

Lemma le_at_skip (n m : nat) (z : Z) (b : bytes) (i : nat) :
  m ≤ i → le_at n (le_enc m z ++ b) i = le_at n b (i - m).
Proof. intros Hm. unfold le_at. rewrite slice_skip by done. do 2 f_equal. lia. Qed.

Lemma le_at_here (n : nat) (z : Z) (b : bytes) : (0 ≤ z < 256 ^ Z.of_nat n)%Z → le_at n (le_enc n z ++ b) 0 = z.
Proof.
  intros Hz. unfold le_at, slice. rewrite drop_0, Nat.add_0_l, Nat.sub_0_r.
  rewrite take_app_length' by (by rewrite le_enc_length). by apply le_dec_enc_small.
Qed.

Lemma slice_here (a b : bytes) (j : nat) : length a = j → slice (a ++ b) 0 j = a.
Proof. intros <-. unfold slice. by rewrite Nat.sub_0_r, drop_0, take_app_length. Qed.

(** reads of fields written one after another *)
Ltac read_fields := rewrite <-?app_assoc; repeat (rewrite le_at_skip by lia); repeat (rewrite slice_skip by lia); cbn [Nat.sub].

(** ** base64.StdEncoding *)

Definition b64_digit (n : Z) : ascii :=
  ascii_of_nat (Z.to_nat (if (n <? 26)%Z then 65 + n else if (n <? 52)%Z then 71 + n
                          else if (n <? 62)%Z then n - 4 else if (n =? 62)%Z then 43 else 47)).

Fixpoint base64 (b : bytes) : string :=
  match b with
  | [] => ""
  | [x] => String (b64_digit (x / 4)) (String (b64_digit (x mod 4 * 16)) "==")
  | [x; y] => String (b64_digit (x / 4)) (String (b64_digit (x mod 4 * 16 + y / 16)) (String (b64_digit (y mod 16 * 4)) "="))
  | x :: y :: z :: b' =>
      String (b64_digit (x / 4)) (String (b64_digit (x mod 4 * 16 + y / 16))
        (String (b64_digit (y mod 16 * 4 + z / 64)) (String (b64_digit (z mod 64)) (base64 b'))))
  end.

Example base64_ex : base64 (bytes_of "any carnal pleas") = "YW55IGNhcm5hbCBwbGVhcw==".
Proof. reflexivity. Qed.

Definition b64_value (c : ascii) : option Z :=
  let n := Z.of_nat (nat_of_ascii c) in
  if (65 <=? n)%Z && (n <=? 90)%Z then Some (n - 65)%Z
  else if (97 <=? n)%Z && (n <=? 122)%Z then Some (n - 71)%Z
  else if (48 <=? n)%Z && (n <=? 57)%Z then Some (n + 4)%Z
  else if (n =? 43)%Z then Some 62%Z else if (n =? 47)%Z then Some 63%Z else None.

(** groups of four, with padding in the last one only; the spare bits of a
    padded group are not looked at *)
Fixpoint b64_groups (s : string) : option bytes :=
  match s with
  | EmptyString => Some []
  | String c1 (String c2 (String c3 (String c4 s'))) =>
      v1 ← b64_value c1; v2 ← b64_value c2;
      let b1 := (v1 * 4 + v2 / 16)%Z in
      if bool_decide (c3 = "="%char) then (if bool_decide (c4 = "="%char) && Str.empty s' then Some [b1] else None)
      else
        v3 ← b64_value c3;
        let b2 := (v2 mod 16 * 16 + v3 / 4)%Z in
        if bool_decide (c4 = "="%char) then (if Str.empty s' then Some [b1; b2] else None)
        else v4 ← b64_value c4; rest ← b64_groups s'; Some (b1 :: b2 :: (v3 mod 4 * 64 + v4)%Z :: rest)
  | _ => None
  end.

Fixpoint drop_breaks (s : string) : string :=
  match s with
  | EmptyString => EmptyString
  | String c s' => if bool_decide (c = "010"%char) || bool_decide (c = "013"%char) then drop_breaks s' else String c (drop_breaks s')
  end.

(** [base64.StdEncoding.DecodeString]; line breaks are skipped *)
Definition base64_decode (s : string) : option bytes := b64_groups (drop_breaks s).

Example base64_decode_ex :
  base64_decode "YW55IGNhcm5hbCBwbGVhcw==" = Some (bytes_of "any carnal pleas") ∧ base64_decode "YQ==YQ==" = None.
Proof. split; reflexivity. Qed.
