(* ===== verification/NetIP.v ===== *)
(** * IP addresses: the parts of packages net and net/netip the code uses

    Address parsing follows [netip.ParseAddr] byte by byte; an address is its
    byte list, 4 bytes for IPv4 and 16 for IPv6. *)

From S2P Require Import Prelude GoStd.

Definition code (c : ascii) : Z := Z.of_nat (nat_of_ascii c).
Definition is_digit (c : ascii) : bool := (48 <=? code c)%Z && (code c <=? 57)%Z.

(** ** parseIPv4Fields *)

(** Scanner state: octets finished, value and digit count of the current one. *)
Record v4st := { v4_done : list Z; v4_val : Z; v4_dig : nat }.

Definition v4_start : v4st := {| v4_done := []; v4_val := 0; v4_dig := 0 |}.

(** one iteration on byte [c]; [last] says that [c] is the final byte.  A dot
    needs a digit before it (not first, no two dots in a row) and a byte after. *)
Definition v4_step (st : v4st) (c : ascii) (last : bool) : option v4st :=
  if is_digit c then
    if (v4_dig st =? 1)%nat && (v4_val st =? 0)%Z then None
    else let v := (v4_val st * 10 + (code c - 48))%Z in
         if (255 <? v)%Z then None
         else Some {| v4_done := v4_done st; v4_val := v; v4_dig := S (v4_dig st) |}
  else if bool_decide (c = "."%char) then
    if (v4_dig st =? 0)%nat || last then None
    else if (length (v4_done st) =? 3)%nat then None
    else Some {| v4_done := v4_done st ++ [v4_val st]; v4_val := 0; v4_dig := 0 |}
  else None.

Fixpoint v4_scan (st : v4st) (s : string) : option v4st :=
  match s with
  | EmptyString => Some st
  | String c s' => st' ← v4_step st c (bool_decide (s' = "")); v4_scan st' s'
  end.

Definition parseIPv4Fields (s : string) : option (list Z) :=
  st ← v4_scan v4_start s;
  if (length (v4_done st) <? 3)%nat then None else Some (v4_done st ++ [v4_val st]).

(** ** parseIPv6 *)

Definition hexval (c : ascii) : option Z :=
  if is_digit c then Some (code c - 48)%Z
  else if (97 <=? code c)%Z && (code c <=? 102)%Z then Some (code c - 87)%Z
  else if (65 <=? code c)%Z && (code c <=? 70)%Z then Some (code c - 55)%Z
  else None.

(** the inner hex loop: [inl tt] is a parse failure, otherwise the digits read,
    their value and the rest of the input *)
Fixpoint hex_group (off : nat) (acc : Z) (s : string) : option (nat * Z * string) :=
  match s with
  | EmptyString => Some (off, acc, s)
  | String c s' =>
      match hexval c with
      | None => Some (off, acc, s)
      | Some d =>
          let acc' := (acc * 16 + d)%Z in
          if (3 <? off)%nat || (65535 <? acc')%Z then None else hex_group (S off) acc' s'
      end
  end.

(** the group loop: bytes so far, position of the ellipsis, rest of the input.
    At most eight groups are read, so [fuel] 8 covers every run of the loop
    (its condition is [i < 16] and each turn adds 2 or ends it). *)
Fixpoint v6_loop (fuel : nat) (ip : list Z) (ell : option nat) (s : string) :
    option (list Z * option nat * string) :=
  match fuel with
  | O => Some (ip, ell, s)
  | S fuel' =>
      if (16 <=? length ip)%nat then Some (ip, ell, s) else
      '(off, acc, rest) ← hex_group 0 0 s;
      if (off =? 0)%nat then None else
      match rest with
      | String "." _ =>
          if bool_decide (ell = None) && negb (length ip =? 12)%nat then None
          else if (16 <? length ip + 4)%nat then None
          else v4 ← parseIPv4Fields s; Some (ip ++ v4, ell, "")
      | _ =>
          let ip' := ip ++ [Z.shiftr acc 8; Z.land acc 255] in
          match rest with
          | EmptyString => Some (ip', ell, "")
          | String c rest' =>
              if negb (bool_decide (c = ":"%char)) then None
              else match rest' with
              | EmptyString => None
              | String ":" rest'' =>
                  if bool_decide (ell ≠ None) then None
                  else match rest'' with
                       | EmptyString => Some (ip', Some (length ip'), "")
                       | _ => v6_loop fuel' ip' (Some (length ip')) rest''
                       end
              | _ => v6_loop fuel' ip' ell rest'
              end
          end
      end
  end.

(** the 16 address bytes and the zone *)
Definition parseIPv6 (s0 : string) : option (list Z * string) :=
  '(s, zone) ← match Str.IndexByte s0 "%" with
               | Some i => let z := Str.from (S i) s0 in
                           if Str.empty z then None else Some (Str.upto i s0, z)
               | None => Some (s0, "")
               end;
  let '(ell, s1) := if Str.HasPrefix s "::" then (Some 0, Str.from 2 s) else (None, s) in
  if bool_decide (ell ≠ None) && Str.empty s1 then Some (replicate 16 0%Z, zone) else
  '(ip, ell', rest) ← v6_loop 8 [] ell s1;
  if negb (Str.empty rest) then None else
  if (length ip <? 16)%nat then
    match ell' with
    | None => None
    | Some e => Some (take e ip ++ replicate (16 - length ip) 0%Z ++ drop e ip, zone)
    end
  else if bool_decide (ell' ≠ None) then None else Some (ip, zone).

(** ** netip.Addr *)

Inductive Addr : Type := Addr4 (b : list Z) | Addr6 (b : list Z) (zone : string).

(** the loop of [ParseAddr]: the first of '.', ':' and '%' decides the form *)
Fixpoint addr_form (s : string) : option ascii :=
  match s with
  | EmptyString => None
  | String c s' =>
      if decide (c ∈ ["."%char; ":"%char; "%"%char]) then Some c else addr_form s'
  end.

Definition ParseAddr (s : string) : option Addr :=
  match addr_form s with
  | Some "."%char => Addr4 <$> parseIPv4Fields s
  | Some ":"%char => '(b, z) ← parseIPv6 s; Some (Addr6 b z)
  | _ => None
  end.

(** ** net.IP *)

Definition v4InV6Prefix : list Z := [0;0;0;0;0;0;0;0;0;0;255;255]%Z.

(** [net.ParseIP]: 16 bytes, [None] is the nil IP *)
Definition ParseIP (s : string) : option (list Z) :=
  match ParseAddr s with
  | Some (Addr4 b) => Some (v4InV6Prefix ++ b)
  | Some (Addr6 b "") => Some b
  | _ => None
  end.

(** [ip.To4()] on a 16-byte address *)
Definition To4 (ip : list Z) : option (list Z) :=
  if bool_decide (take 12 ip = v4InV6Prefix) then Some (drop 12 ip) else None.

Definition byte_at (b : list Z) (i : nat) : Z := default 0%Z (b !! i).

Definition IsLoopback (ip : list Z) : bool :=
  match To4 ip with
  | Some b => (byte_at b 0 =? 127)%Z
  | None => bool_decide (ip = replicate 15 0%Z ++ [1%Z])
  end.

Definition IsPrivate (ip : list Z) : bool :=
  match To4 ip with
  | Some b => (byte_at b 0 =? 10)%Z ||
              ((byte_at b 0 =? 172)%Z && (Z.land (byte_at b 1) 240 =? 16)%Z) ||
              ((byte_at b 0 =? 192)%Z && (byte_at b 1 =? 168)%Z)
  | None => (Z.land (byte_at ip 0) 254 =? 252)%Z
  end.

Definition IsLinkLocalUnicast (ip : list Z) : bool :=
  match To4 ip with
  | Some b => (byte_at b 0 =? 169)%Z && (byte_at b 1 =? 254)%Z
  | None => (byte_at ip 0 =? 254)%Z && (Z.land (byte_at ip 1) 192 =? 128)%Z
  end.

Definition IsMulticast (ip : list Z) : bool :=
  match To4 ip with
  | Some b => (Z.land (byte_at b 0) 240 =? 224)%Z
  | None => (byte_at ip 0 =? 255)%Z
  end.

Definition IsLinkLocalMulticast (ip : list Z) : bool :=
  match To4 ip with
  | Some b => (byte_at b 0 =? 224)%Z && (byte_at b 1 =? 0)%Z && (byte_at b 2 =? 0)%Z
  | None => (byte_at ip 0 =? 255)%Z && (Z.land (byte_at ip 1) 15 =? 2)%Z
  end.

(** ** Dotted quads *)

(** [ip.IsUnspecified()]: 0.0.0.0 or :: *)
Definition IsUnspecified (ip : list Z) : bool :=
  bool_decide (ip = v4InV6Prefix ++ [0; 0; 0; 0]%Z) || bool_decide (ip = replicate 16 0%Z).

(** [net.SplitHostPort]; [None] is an address error *)
Definition SplitHostPort (hp : string) : option (string * string) :=
  match Str.LastIndexByte hp ":" with
  | None => None
  | Some i =>
      let port := Str.from (S i) hp in
      match hp with
      | String "[" _ =>
          match Str.IndexByte hp "]" with
          | None => None
          | Some e =>
              if negb (S e =? i)%nat then None
              else
                match Str.IndexByte (Str.from 1 hp) "[", Str.IndexByte (Str.from (S e) hp) "]" with
                | None, None => Some (Str.from 1 (Str.upto e hp), port)
                | _, _ => None
                end
          end
      | _ =>
          let host := Str.upto i hp in
          match Str.IndexByte host ":", Str.IndexByte hp "[", Str.IndexByte hp "]" with
          | None, None, None => Some (host, port)
          | _, _, _ => None
          end
      end
  end.

Definition octet (z : Z) : Prop := (0 ≤ z < 256)%Z.

(** the text [a.b.c.d] *)
Definition dotted (a b c d : Z) : string :=
  Str.itoa a +:+ ("." +:+ (Str.itoa b +:+ ("." +:+ (Str.itoa c +:+ ("." +:+ Str.itoa d))))).

Lemma octet_ind (P : Z → Prop) : Forall P (seqZ 0 256) → ∀ z, octet z → P z.
Proof.
  intros HP z Hz. rewrite Forall_forall in HP. apply HP, elem_of_seqZ. unfold octet in Hz. lia.
Qed.

(** scanning the decimal text of an octet from a fresh field leaves its value *)
Lemma scan_octet (z : Z) : octet z → ∀ ds rest, ∃ k, k ≠ 0 ∧
  v4_scan {| v4_done := ds; v4_val := 0; v4_dig := 0 |} (Str.itoa z +:+ rest) =
  v4_scan {| v4_done := ds; v4_val := z; v4_dig := k |} rest.
Proof.
  intros Hz. pattern z. apply octet_ind; [|exact Hz]. clear. vm_compute seqZ.
  repeat (apply Forall_cons_2; [intros ds rest; eexists; split; [|reflexivity]; lia|]).
  apply Forall_nil_2.
Qed.

(** the text of an octet is digits: it does not decide the address form *)
Lemma form_octet (z : Z) : octet z → ∀ rest, addr_form (Str.itoa z +:+ rest) = addr_form rest.
Proof.
  intros Hz. pattern z. apply octet_ind; [|exact Hz]. clear. vm_compute seqZ.
  repeat (apply Forall_cons_2; [reflexivity|]). apply Forall_nil_2.
Qed.

Lemma itoa_octet_ne (z : Z) : octet z → Str.itoa z ≠ "".
Proof.
  intros Hz. pattern z. apply octet_ind; [|exact Hz]. clear. vm_compute seqZ.
  repeat (apply Forall_cons_2; [discriminate|]). apply Forall_nil_2.
Qed.

Lemma scan_dot (ds : list Z) (v : Z) (k : nat) (s : string) :
  k ≠ 0 → s ≠ "" → length ds < 3 →
  v4_scan {| v4_done := ds; v4_val := v; v4_dig := k |} ("." +:+ s) =
  v4_scan {| v4_done := ds ++ [v]; v4_val := 0; v4_dig := 0 |} s.
Proof.
  intros Hk Hs Hd. change ("." +:+ s) with (String "." s). simpl.
  rewrite bool_decide_eq_false_2 by done. unfold v4_step. simpl.
  rewrite (proj2 (Nat.eqb_neq k 0)) by done. simpl.
  by rewrite (proj2 (Nat.eqb_neq (length ds) 3)) by lia.
Qed.

Lemma app_ne_l (a b : string) : a ≠ "" → a +:+ b ≠ "".
Proof. by destruct a. Qed.

Lemma parse_dotted (a b c d : Z) :
  octet a → octet b → octet c → octet d → parseIPv4Fields (dotted a b c d) = Some [a; b; c; d].
Proof.
  intros Ha Hb Hc Hd. unfold parseIPv4Fields, dotted, v4_start.
  destruct (scan_octet a Ha [] ("." +:+ (Str.itoa b +:+ ("." +:+ (Str.itoa c +:+ ("." +:+ Str.itoa d))))))
    as (k & Hk & ->).
  rewrite scan_dot by (first [done|by apply app_ne_l, itoa_octet_ne|simpl; lia]). cbn [app].
  destruct (scan_octet b Hb [a] ("." +:+ (Str.itoa c +:+ ("." +:+ Str.itoa d)))) as (k2 & Hk2 & ->).
  rewrite scan_dot by (first [done|by apply app_ne_l, itoa_octet_ne|simpl; lia]). cbn [app].
  destruct (scan_octet c Hc [a; b] ("." +:+ Str.itoa d)) as (k3 & Hk3 & ->).
  rewrite scan_dot by (first [done|by apply itoa_octet_ne|simpl; lia]). cbn [app].
  destruct (scan_octet d Hd [a; b; c] "") as (k4 & Hk4 & H4).
  rewrite Str.app_nil_r in H4. rewrite H4. reflexivity.
Qed.

Lemma ParseAddr_dotted (a b c d : Z) :
  octet a → octet b → octet c → octet d → ParseAddr (dotted a b c d) = Some (Addr4 [a; b; c; d]).
Proof.
  intros Ha Hb Hc Hd. unfold ParseAddr.
  assert (addr_form (dotted a b c d) = Some "."%char) as ->.
  { unfold dotted. by rewrite form_octet. }
  by rewrite parse_dotted.
Qed.

Lemma ParseIP_dotted (a b c d : Z) :
  octet a → octet b → octet c → octet d →
  ParseIP (dotted a b c d) = Some (v4InV6Prefix ++ [a; b; c; d]).
Proof. intros. unfold ParseIP. by rewrite ParseAddr_dotted. Qed.

Example parse_v6_1 : ParseIP "fd00:ec2::254" =
  Some [253;0;14;194;0;0;0;0;0;0;0;0;0;0;2;84]%Z.
Proof. reflexivity. Qed.
Example parse_v6_2 : ParseIP "::1" = Some (replicate 15 0%Z ++ [1%Z]).
Proof. reflexivity. Qed.
Example parse_v6_3 : ParseIP "::ffff:10.0.0.1" = Some (v4InV6Prefix ++ [10;0;0;1]%Z).
Proof. reflexivity. Qed.
Example parse_v6_4 : ParseIP "1:2:3:4:5:6:7:8" = Some [0;1;0;2;0;3;0;4;0;5;0;6;0;7;0;8]%Z.
Proof. reflexivity. Qed.
Example parse_v6_bad : (ParseIP "1:2:3:4:5:6:7::8", ParseIP "1::2::3", ParseIP "fe80::1%eth0",
  ParseIP "12345::", ParseIP "1:2:3:4:5:6:7:8:9", ParseIP ":1", ParseIP "1:") = (None, None, None, None, None, None, None).
Proof. reflexivity. Qed.
Example parse_v4 : (ParseIP "127.0.0.1", ParseIP "01.2.3.4", ParseIP "1.2.3.", ParseIP "256.1.1.1", ParseIP "1.2.3.4.5") =
  (Some (v4InV6Prefix ++ [127;0;0;1]%Z), None, None, None, None).
Proof. reflexivity. Qed.

(** ** The text of an address *)

Definition group (ip : list Z) (i : nat) : Z := (byte_at ip (2 * i) * 256 + byte_at ip (2 * i + 1))%Z.

(** how many groups are zero from [i] on *)
Fixpoint zero_run (fuel : nat) (ip : list Z) (i : nat) : nat :=
  match fuel with
  | O => 0
  | S fuel' => if (i <? 8)%nat && (group ip i =? 0)%Z then S (zero_run fuel' ip (S i)) else 0
  end.

(** the first of the longest runs of at least two zero groups: start, end *)
Definition zero_block (ip : list Z) : nat * nat :=
  foldl (λ best i, let l := zero_run 8 ip i in
                   if (2 <=? l)%nat && (best.2 - best.1 <? l)%nat then (i, i + l) else best)
        (255, 255) (seq 0 8).

Fixpoint groups_text (fuel : nat) (ip : list Z) (zs : nat * nat) (i : nat) : string :=
  match fuel with
  | O => ""
  | S fuel' =>
      if (8 <=? i)%nat then ""
      else if (i =? zs.1)%nat then
        "::" +:+ (if (8 <=? zs.2)%nat then "" else Str.hex (group ip zs.2) +:+ groups_text fuel' ip zs (S zs.2))
      else (if (0 <? i)%nat then ":" else "") +:+ (Str.hex (group ip i) +:+ groups_text fuel' ip zs (S i))
  end.

(** [ip.String()] of a 16-byte address *)
Definition IP_String (ip : list Z) : string :=
  match To4 ip with
  | Some b => dotted (byte_at b 0) (byte_at b 1) (byte_at b 2) (byte_at b 3)
  | None => groups_text 8 ip (zero_block ip) 0
  end.

Example ip_text_1 : IP_String ([32; 1; 13; 184] ++ replicate 11 0 ++ [1])%Z = "2001:db8::1".
Proof. reflexivity. Qed.

Example ip_text_2 : IP_String (replicate 16 0%Z) = "::".
Proof. reflexivity. Qed.

Example ip_text_3 : IP_String [0; 1; 0; 0; 0; 0; 0; 2; 0; 0; 0; 0; 0; 0; 0; 171]%Z = "1:0:0:2::ab".
Proof. reflexivity. Qed.
