(* ===== verification/CIDR.v ===== *)
(** * Address prefixes (net.ParseCIDR, net.IPNet of Go's standard library)

    [ParseCIDR], [CIDRMask], [IP.Mask] and [IPNet.Contains] as the library has
    them, on the byte lists of NetIP, and what they mean on IPv4: an address is
    in a.b.c.d/n when it agrees with it on the first n bits. *)

From stdpp Require Import pretty.
From S2P Require Import Prelude GoStd NetIP.

(** the loop of [net.CIDRMask]: [l] bytes, [n] ones left *)
Fixpoint mask_bytes (l : nat) (n : Z) : list Z :=
  match l with
  | O => []
  | S l' => if (8 <=? n)%Z then 255%Z :: mask_bytes l' (n - 8)
            else (255 - Z.shiftr 255 n)%Z :: mask_bytes l' 0
  end.

Definition CIDRMask (ones bits : Z) : list Z := mask_bytes (Z.to_nat (bits / 8)) ones.

(** [ip.Mask(mask)]; [None] is nil *)
Definition Mask (ip mask : list Z) : option (list Z) :=
  let mask := if (length mask =? 16)%nat && (length ip =? 4)%nat && bool_decide (take 12 mask = replicate 12 255%Z)
              then drop 12 mask else mask in
  let ip := if (length mask =? 4)%nat && (length ip =? 16)%nat && bool_decide (take 12 ip = v4InV6Prefix)
            then drop 12 ip else ip in
  if (length ip =? length mask)%nat then Some (zip_with Z.land ip mask) else None.

(** [IP] is nil only if the masking failed *)
Record IPNet := { net_IP : option (list Z); net_Mask : list Z }.

(** [net.dtoi] on all of its input: a decimal number, at least one digit *)
Definition dtoi (s : string) : option Z :=
  if Str.empty s then None else Str.digits_val 0 s.

Definition ParseCIDR (s : string) : option (list Z * IPNet) :=
  match Str.IndexByte s "/" with
  | None => None
  | Some i =>
      match ParseAddr (Str.upto i s), dtoi (Str.from (S i) s) with
      | Some (Addr4 b), Some n =>
          if (32 <? n)%Z then None
          else let ip := v4InV6Prefix ++ b in
               let m := CIDRMask n 32 in Some (ip, {| net_IP := Mask ip m; net_Mask := m |})
      | Some (Addr6 b ""), Some n =>
          if (128 <? n)%Z then None
          else let m := CIDRMask n 128 in Some (b, {| net_IP := Mask b m; net_Mask := m |})
      | _, _ => None
      end
  end.

(** [ip.To4()] on an address of either length *)
Definition to4 (ip : list Z) : option (list Z) :=
  if (length ip =? 4)%nat then Some ip
  else if (length ip =? 16)%nat then To4 ip else None.

(** [networkNumberAndMask] *)
Definition networkNumberAndMask (n : IPNet) : option (list Z * list Z) :=
  match net_IP n with
  | None => None
  | Some ip0 =>
      let ip := default ip0 (to4 ip0) in
      if (length ip =? 4)%nat || (length ip =? 16)%nat then
        match length (net_Mask n), length ip with
        | 4, 4 => Some (ip, net_Mask n)
        | 16, 4 => Some (ip, drop 12 (net_Mask n))
        | 16, _ => Some (ip, net_Mask n)
        | _, _ => None
        end
      else None
  end.

(** [n.Contains(ip)]; [None] is the nil address *)
Definition Contains (n : IPNet) (ip0 : option (list Z)) : bool :=
  let ip := match ip0 with Some l => default l (to4 l) | None => [] end in
  let '(nn, m) := default ([], []) (networkNumberAndMask n) in
  (length ip =? length nn)%nat && bool_decide (zip_with Z.land nn m = zip_with Z.land ip m).

(** ** IPv4 prefixes *)

(** the number of an address in dotted form *)
Definition v4num (a b c d : Z) : Z := (((a * 256 + b) * 256 + c) * 256 + d)%Z.

Definition v4 (a b c d : Z) : list Z := v4InV6Prefix ++ [a; b; c; d].

Definition prefix_text (a b c d n : Z) : string := dotted a b c d +:+ ("/" +:+ Str.itoa n).

Definition ex_net (s : string) (ip : list Z) : option bool :=
  '(_, n) ← ParseCIDR s; Some (Contains n (Some ip)).

Example cidr_in : ex_net "10.0.0.0/8" (v4 10 9 8 7) = Some true.
Proof. reflexivity. Qed.
Example cidr_out : ex_net "10.0.0.0/8" (v4 11 9 8 7) = Some false.
Proof. reflexivity. Qed.
Example cidr_mapped : ex_net "::ffff:10.0.0.0/104" (v4 10 9 8 7) = Some true.
Proof. reflexivity. Qed.
Example cidr_v6 : ex_net "fd00:ec2::/32" [253;0;14;194;0;0;0;0;0;0;0;0;0;0;2;84]%Z = Some true.
Proof. reflexivity. Qed.
Example cidr_v6_v4 : ex_net "::/0" (v4 10 9 8 7) = Some false.
Proof. reflexivity. Qed.
Example cidr_bad : (ParseCIDR "10.0.0.0", ParseCIDR "10.0.0.0/33", ParseCIDR "10.0.0.0/", ParseCIDR "10.0.0/8", ParseCIDR "fe80::1%lo/64")
  = (None, None, None, None, None).
Proof. reflexivity. Qed.

(** ** What a prefix contains *)

Lemma IndexByte_None (s : string) (c : ascii) : Str.CountByte s c = 0 → Str.IndexByte s c = None.
Proof.
  induction s as [|d s IH]; [done|]. simpl. case_bool_decide; simpl; [lia|]. intros Hs. by rewrite IH.
Qed.

Lemma IndexByte_first (a b : string) (c : ascii) :
  Str.CountByte a c = 0 → Str.IndexByte (a +:+ String c b) c = Some (Str.len a).
Proof.
  induction a as [|d a IH]; simpl.
  - intros _. by rewrite bool_decide_eq_true_2.
  - case_bool_decide; simpl; [lia|]. intros Ha. by rewrite IH.
Qed.

Lemma octet_no_slash (z : Z) : octet z → Str.CountByte (Str.itoa z) "/" = 0.
Proof.
  intros Hz. pattern z. apply octet_ind; [|exact Hz]. vm_compute seqZ.
  repeat (apply Forall_cons_2; [reflexivity|]). apply Forall_nil_2.
Qed.

Lemma dotted_no_slash (a b c d : Z) :
  octet a → octet b → octet c → octet d → Str.CountByte (dotted a b c d) "/" = 0.
Proof. intros. unfold dotted. by rewrite !Str.CountByte_app, !octet_no_slash. Qed.

Lemma dtoi_bits (n : Z) : (0 ≤ n ≤ 32)%Z → dtoi (Str.itoa n) = Some n.
Proof.
  intros Hn. pattern n. apply (Forall_forall _ (seqZ 0 33)); [|apply elem_of_seqZ; lia].
  vm_compute seqZ. repeat (apply Forall_cons_2; [reflexivity|]). apply Forall_nil_2.
Qed.

Lemma mask_bytes_length (l : nat) (n : Z) : length (mask_bytes l n) = l.
Proof. revert n. induction l as [|l IH]; intros n; simpl; [done|]. case_match; simpl; by rewrite IH. Qed.

Lemma mask4 (n : Z) : ∃ m0 m1 m2 m3, CIDRMask n 32 = [m0; m1; m2; m3].
Proof.
  assert (length (CIDRMask n 32) = 4) as Hl by apply mask_bytes_length.
  destruct (CIDRMask n 32) as [|m0 [|m1 [|m2 [|m3 [|m4 l]]]]]; try discriminate Hl. by exists m0, m1, m2, m3.
Qed.

Lemma parse_prefix (a b c d n : Z) :
  octet a → octet b → octet c → octet d → (0 ≤ n ≤ 32)%Z →
  ParseCIDR (prefix_text a b c d n) =
  Some (v4 a b c d, {| net_IP := Some (zip_with Z.land [a; b; c; d] (CIDRMask n 32)); net_Mask := CIDRMask n 32 |}).
Proof.
  intros Ha Hb Hc Hd Hn. unfold ParseCIDR, prefix_text. change ("/" +:+ Str.itoa n) with (String "/" (Str.itoa n)).
  rewrite IndexByte_first by by apply dotted_no_slash.
  rewrite Str.upto_app, Str.from_S_app, ParseAddr_dotted, dtoi_bits by done.
  rewrite (proj2 (Z.ltb_ge 32 n)) by lia. by destruct (mask4 n) as (m0 & m1 & m2 & m3 & ->).
Qed.

(** a byte under the mask that keeps its high [8 - k] bits *)
Lemma land_high (x m k : Z) :
  octet x → (0 ≤ k ≤ 8)%Z → m = (256 - 2 ^ k)%Z → Z.land x m = (2 ^ k * (x / 2 ^ k))%Z.
Proof.
  intros Hx Hk' ->. revert Hk'. pattern x. apply octet_ind; [|exact Hx]. clear x Hx. apply Forall_forall. intros x Hx%elem_of_seqZ Hk.
  assert (x mod 256 = x)%Z as Hm by (apply Z.mod_small; lia).
  rewrite <-Z.shiftr_div_pow2, Z.mul_comm, <-Z.shiftl_mul_pow2 by lia.
  apply Z.bits_inj'. intros i Hi. rewrite Z.land_spec, Z.shiftl_spec by done.
  replace (256 - 2 ^ k)%Z with (Z.shiftl (Z.ones (8 - k)) k).
  2:{ rewrite Z.shiftl_mul_pow2, Z.ones_equiv by lia. unfold Z.pred. rewrite Z.mul_add_distr_r, <-Z.pow_add_r by lia.
      replace (8 - k + k)%Z with 8%Z by lia. change (2 ^ 8)%Z with 256%Z. lia. }
  rewrite Z.shiftl_spec by done. destruct (decide (i < k)%Z) as [Hlt|Hge].
  - rewrite !(Z.testbit_neg_r _ (i - k)) by lia. by rewrite andb_false_r.
  - rewrite Z.shiftr_spec by lia. replace (i - k + k)%Z with i by lia.
    rewrite Z.testbit_ones by lia. destruct (decide (i < 8)%Z) as [H8|H8].
    + rewrite (proj2 (Z.leb_le 0 (i - k))), (proj2 (Z.ltb_lt (i - k) (8 - k))) by lia. by rewrite andb_true_r.
    + rewrite <-Hm. change 256%Z with (2 ^ 8)%Z. rewrite Z.mod_pow2_bits_high by lia. done.
Qed.

Lemma four_eq (a b c d a' b' c' d' : Z) :
  [a; b; c; d] = [a'; b'; c'; d'] ↔ a = a' ∧ b = b' ∧ c = c' ∧ d = d'.
Proof. split; [by intros [= -> -> -> ->]|by intros (-> & -> & -> & ->)]. Qed.

(** numbers built byte by byte agree above bit [k] of the last byte *)
Lemma byte_step (P Q x y k : Z) : octet x → octet y → (0 ≤ k ≤ 8)%Z →
  ((P * 256 + x) / 2 ^ k = (Q * 256 + y) / 2 ^ k ↔ P = Q ∧ 2 ^ k * (x / 2 ^ k) = 2 ^ k * (y / 2 ^ k))%Z.
Proof.
  intros Hx Hy Hk. unfold octet in *. assert (256 = 2 ^ (8 - k) * 2 ^ k)%Z as Hs.
  { rewrite <-Z.pow_add_r by lia. by replace (8 - k + k)%Z with 8%Z by lia. }
  assert (0 < 2 ^ k)%Z as Hp by (apply Z.pow_pos_nonneg; lia).
  assert (∀ R v, (0 ≤ v < 256)%Z → ((R * 256 + v) / 2 ^ k = R * 2 ^ (8 - k) + v / 2 ^ k)%Z ∧
                 (0 ≤ v / 2 ^ k < 2 ^ (8 - k))%Z) as Hv.
  { intros R v Hv. split.
    - rewrite Hs, Z.mul_assoc, Z.add_comm, Z.div_add by lia. lia.
    - split; [apply Z.div_pos; lia|apply Z.div_lt_upper_bound; lia]. }
  destruct (Hv P x Hx) as [-> ?], (Hv Q y Hy) as [-> ?]. rewrite Z.mul_cancel_l by lia.
  generalize dependent (2 ^ (8 - k))%Z. intros M _ _ Hu Hv'.
  destruct (Z.lt_trichotomy P Q) as [?|[->|?]]; [split; [nia|lia]|lia|split; [nia|lia]].
Qed.

Lemma byte_skip (P x j : Z) : octet x → (0 ≤ j)%Z → ((P * 256 + x) / 2 ^ (8 + j) = P / 2 ^ j)%Z.
Proof.
  intros Hx Hj. unfold octet in Hx. assert (0 < 2 ^ j)%Z by (apply Z.pow_pos_nonneg; lia).
  rewrite Z.pow_add_r by lia. change (2 ^ 8)%Z with 256%Z. rewrite <-Z.div_div by lia.
  f_equal. symmetry. by apply (Z.div_unique _ _ _ x); [left|lia].
Qed.

(** masks with a byte are divisions *)
Ltac land_octets :=
  repeat match goal with
  | |- context [Z.land ?x ?m] =>
      first [rewrite (land_high x m 0) by done | rewrite (land_high x m 1) by done
            |rewrite (land_high x m 2) by done | rewrite (land_high x m 3) by done
            |rewrite (land_high x m 4) by done | rewrite (land_high x m 5) by done
            |rewrite (land_high x m 6) by done | rewrite (land_high x m 7) by done
            |rewrite (land_high x m 8) by done]
  end.

Lemma v4num_bytes (a b c d : Z) : v4num a b c d = ((((0 * 256 + a) * 256 + b) * 256 + c) * 256 + d)%Z.
Proof. reflexivity. Qed.

Lemma contains4 (a b c d m0 m1 m2 m3 w x y z : Z) :
  Contains {| net_IP := Some (zip_with Z.land [a; b; c; d] [m0; m1; m2; m3]); net_Mask := [m0; m1; m2; m3] |}
    (Some (v4 w x y z)) =
  bool_decide ([Z.land (Z.land a m0) m0; Z.land (Z.land b m1) m1; Z.land (Z.land c m2) m2; Z.land (Z.land d m3) m3] =
               [Z.land w m0; Z.land x m1; Z.land y m2; Z.land z m3]).
Proof. reflexivity. Qed.

Ltac eval_mask :=
  match goal with
  | |- context [CIDRMask ?n 32] =>
      let m := eval vm_compute in (CIDRMask n 32) in replace (CIDRMask n 32) with m by reflexivity
  end.

(** compare two numbers byte by byte from the last *)
Ltac split_bytes :=
  match goal with
  | |- context [(2 ^ (32 - ?n))%Z] => let k := eval vm_compute in (32 - n)%Z in change (32 - n)%Z with k
  | |- context [(((?P * 256 + ?x) / 2 ^ ?k)%Z = _)] => rewrite (byte_step P _ x _ k) by done
  | |- context [((_ * 256 + _) / 2 ^ ?k)%Z] =>
      let j := eval vm_compute in (k - 8)%Z in
      change (2 ^ k)%Z with (2 ^ (8 + j))%Z; rewrite !byte_skip by done
  end.

(** An address is in the prefix [a.b.c.d/n] when its first [n] bits are those
    of [a.b.c.d]. *)
Lemma prefix_contains (a b c d n w x y z : Z) :
  octet a → octet b → octet c → octet d → octet w → octet x → octet y → octet z → (0 ≤ n ≤ 32)%Z →
  ex_net (prefix_text a b c d n) (v4 w x y z) =
  Some (v4num w x y z / 2 ^ (32 - n) =? v4num a b c d / 2 ^ (32 - n))%Z.
Proof.
  intros Ha Hb Hc Hd Hw Hx Hy Hz Hn. unfold ex_net. rewrite parse_prefix by done. cbn [mbind option_bind]. f_equal.
  assert (n ∈ seqZ 0 33) as Hin by (apply elem_of_seqZ; lia). clear Hn. vm_compute seqZ in Hin.
  repeat (apply elem_of_cons in Hin as [->|Hin]; [shelve|]). by apply elem_of_nil in Hin.
  Unshelve.
  all: eval_mask; rewrite contains4.
  all: rewrite <-!Z.land_assoc, !Z.land_diag, ?Z.land_0_r; land_octets.
  all: apply Bool.eq_iff_eq_true; rewrite bool_decide_eq_true, four_eq, Z.eqb_eq.
  all: rewrite !v4num_bytes; change (2 ^ 0)%Z with 1%Z; rewrite ?Z.div_1_r, ?Z.mul_1_l.
  all: repeat split_bytes; unfold octet in *; rewrite ?(Z.div_small _ (2 ^ 8)) by (change (2 ^ 8)%Z with 256%Z; lia).
  all: lia.
Qed.

(** ** The text of an address is not a prefix *)

Lemma pretty_N_no_slash (x : N) (s : string) : Str.CountByte s "/" = 0 → Str.CountByte (pretty_N_go x s) "/" = 0.
Proof.
  revert s. induction (N.lt_wf_0 x) as [x _ IH]; intros s Hs.
  destruct (decide (x = 0%N)) as [->|Hx]; [by rewrite pretty_N_go_0|].
  rewrite pretty_N_go_step by lia. apply IH; [apply N.div_lt; lia|].
  pose proof (Str.pretty_char_digit (x `mod` 10) (N.mod_lt x 10 ltac:(done))) as Hd.
  revert Hd. generalize (x `mod` 10)%N. intros d. generalize (pretty_N_char d). intros c Hc.
  simpl. rewrite bool_decide_eq_false_2; [done|]. intros <-. vm_compute in Hc. by destruct d.
Qed.

Lemma itoa_no_slash (z : Z) : Str.CountByte (Str.itoa z) "/" = 0.
Proof.
  assert (∀ p, Str.CountByte (pretty (N.pos p)) "/" = 0) as Hp.
  { intros p. unfold pretty, pretty_N. rewrite decide_False by done. by apply pretty_N_no_slash. }
  unfold Str.itoa, pretty, pretty_Z. destruct z as [|p|p]; [done|apply Hp|]. exact (Hp p).
Qed.

Lemma hexdigit_no_slash (n : Z) : Str.CountByte (String (Str.hexdigit (Z.to_nat (n mod 16))) "") "/" = 0.
Proof.
  pose proof (Z.mod_pos_bound n 16 ltac:(lia)) as Hn. revert Hn. generalize (n mod 16)%Z. intros d Hd.
  pattern d. apply (Forall_forall _ (seqZ 0 16)); [|apply elem_of_seqZ; lia]. vm_compute seqZ.
  repeat (apply Forall_cons_2; [reflexivity|]). apply Forall_nil_2.
Qed.

Lemma hex_no_slash (fuel : nat) (n : Z) : Str.CountByte (Str.hex_digits fuel n) "/" = 0.
Proof.
  revert n. induction fuel as [|fuel IH]; intros n; [done|]. cbn [Str.hex_digits].
  rewrite Str.CountByte_app, hexdigit_no_slash. case_match; [done|]. by rewrite IH.
Qed.

Lemma groups_no_slash (fuel : nat) (ip : list Z) (zs : nat * nat) (i : nat) :
  Str.CountByte (groups_text fuel ip zs i) "/" = 0.
Proof.
  revert i. induction fuel as [|fuel IH]; intros i; [done|]. cbn [groups_text].
  case_match; [done|]. unfold Str.hex. case_match; rewrite !Str.CountByte_app.
  - case_match; [done|]. by rewrite Str.CountByte_app, hex_no_slash, IH.
  - rewrite hex_no_slash, IH. by case_match.
Qed.

Lemma ParseCIDR_address (ip : list Z) : ParseCIDR (IP_String ip) = None.
Proof.
  unfold ParseCIDR. rewrite IndexByte_None; [done|]. unfold IP_String. destruct (To4 ip) as [b|]; [|apply groups_no_slash].
  unfold dotted. by rewrite !Str.CountByte_app, !itoa_no_slash.
Qed.
