(* ===== verification/Prefix.v ===== *)
(** * Prefixes of net/netip

    [ParsePrefix], [PrefixFrom], [Contains] and [Overlaps] as the library has
    them, on the addresses of NetIP, and what they mean: an address is in a
    prefix of its own family when they agree on the leading bits, and two
    prefixes overlap exactly when an address is in both. *)

From S2P Require Import Prelude GoStd Bytes NetIP CIDR.

#[export] Instance Addr_eq_dec : EqDecision Addr.
Proof. solve_decision. Defined.

Definition addr_bytes (a : Addr) : list Z := match a with Addr4 b => b | Addr6 b _ => b end.
Definition addr_num (a : Addr) : Z := be_dec (addr_bytes a).
Definition BitLen (a : Addr) : Z := match a with Addr4 _ => 32 | Addr6 _ _ => 128 end.
Definition Is4 (a : Addr) : bool := match a with Addr4 _ => true | Addr6 _ _ => false end.
Definition Is6 (a : Addr) : bool := negb (Is4 a).
Definition Is4In6 (a : Addr) : bool := match a with Addr4 _ => false | Addr6 b _ => bool_decide (take 12 b = v4InV6Prefix) end.
Definition zone (a : Addr) : string := match a with Addr4 _ => "" | Addr6 _ z => z end.
Definition withoutZone (a : Addr) : Addr := match a with Addr4 b => Addr4 b | Addr6 b _ => Addr6 b "" end.

(** [pf_bits] is what [Bits()] returns: -1 for an invalid prefix *)
Record Prefix := { pf_ip : Addr; pf_bits : Z }.

#[export] Instance Prefix_eq_dec : EqDecision Prefix.
Proof. solve_decision. Defined.

Definition PrefixFrom (a : Addr) (bits : Z) : Prefix :=
  {| pf_ip := withoutZone a; pf_bits := if (0 <=? bits)%Z && (bits <=? BitLen a)%Z then bits else (-1)%Z |}.

(** the digits after the slash: no sign, no leading zero *)
Definition prefix_bits (s : string) : option Z :=
  match s with
  | String c (String _ _) => if (49 <=? code c)%Z && (code c <=? 57)%Z then dtoi s else None
  | _ => dtoi s
  end.

Definition ParsePrefix (s : string) : option Prefix :=
  match Str.LastIndexByte s "/" with
  | None => None
  | Some i =>
      match ParseAddr (Str.upto i s) with
      | None => None
      | Some a =>
          if negb (Str.empty (zone a)) then None else
          match prefix_bits (Str.from (S i) s) with
          | None => None
          | Some n => if (BitLen a <? n)%Z then None else Some (PrefixFrom a n)
          end
      end
  end.

Definition pf_valid (p : Prefix) : bool := (0 <=? pf_bits p)%Z.

Definition pf_Contains (p : Prefix) (a : Addr) : bool :=
  pf_valid p && Str.empty (zone a) && (BitLen (pf_ip p) =? BitLen a)%Z &&
  (Z.shiftr (Z.lxor (addr_num a) (addr_num (pf_ip p))) (BitLen a - pf_bits p) =? 0)%Z.

(** the address with the bits after the first [n] cleared *)
Definition masked_num (a : Addr) (n : Z) : Z := Z.shiftl (Z.shiftr (addr_num a) (BitLen a - n)) (BitLen a - n).

Definition pf_Overlaps (p o : Prefix) : bool :=
  if negb (pf_valid p) || negb (pf_valid o) then false
  else if bool_decide (p = o) then true
  else if negb (Bool.eqb (Is4 (pf_ip p)) (Is4 (pf_ip o))) then false
  else
    let minBits := if (pf_bits p <? pf_bits o)%Z then pf_bits p else pf_bits o in
    if (minBits =? 0)%Z then true
    else (masked_num (pf_ip p) minBits =? masked_num (pf_ip o) minBits)%Z.

(** ** Agreement on the leading bits *)

(** the numbers agree once the last [k] bits are dropped *)
Definition agree (k : Z) (x y : Z) : Prop := Z.shiftr x k = Z.shiftr y k.

#[export] Instance agree_equivalence (k : Z) : Equivalence (agree k).
Proof. unfold agree. split; [done|by intros ? ?|congruence]. Qed.

Lemma agree_xor (k x y : Z) : (0 ≤ k)%Z → (Z.shiftr (Z.lxor x y) k =? 0)%Z = true ↔ agree k x y.
Proof. intros Hk. unfold agree. by rewrite Z.eqb_eq, Z.shiftr_lxor, Z.lxor_eq_0_iff. Qed.

Lemma agree_coarser (j k x y : Z) : (0 ≤ j ≤ k)%Z → agree j x y → agree k x y.
Proof.
  unfold agree. intros Hjk Hj. replace k with (j + (k - j))%Z by lia. by rewrite <-!Z.shiftr_shiftr, Hj by lia.
Qed.

Lemma agree_masked (k x y : Z) : (0 ≤ k)%Z → Z.shiftl (Z.shiftr x k) k = Z.shiftl (Z.shiftr y k) k ↔ agree k x y.
Proof.
  intros Hk. unfold agree. split; [|congruence]. intros H. apply (f_equal (λ z, Z.shiftr z k)) in H.
  by rewrite !Z.shiftr_shiftl_l, !Z.sub_diag, !Z.shiftl_0_r in H by done.
Qed.

(** ** Well-formed addresses and prefixes *)

Definition addr_wf (a : Addr) : Prop :=
  Forall octet (addr_bytes a) ∧ length (addr_bytes a) = (if Is4 a then 4 else 16) ∧ zone a = "".

Definition pf_wf (p : Prefix) : Prop := addr_wf (pf_ip p) ∧ (0 ≤ pf_bits p ≤ BitLen (pf_ip p))%Z.

Lemma pf_Contains_spec (p : Prefix) (a : Addr) :
  pf_wf p → addr_wf a →
  pf_Contains p a = true ↔ Is4 (pf_ip p) = Is4 a ∧ agree (BitLen a - pf_bits p) (addr_num a) (addr_num (pf_ip p)).
Proof.
  intros [_ Hb] (_ & _ & Hz). unfold pf_Contains, pf_valid. rewrite Hz. rewrite (proj2 (Z.leb_le _ _)) by lia. cbn [andb].
  change (Str.empty "") with true. cbn [andb]. rewrite andb_true_iff, Z.eqb_eq.
  assert (BitLen (pf_ip p) = BitLen a ↔ Is4 (pf_ip p) = Is4 a) as Hf by (by destruct (pf_ip p), a).
  rewrite Hf. split; intros [H4 Ha]; (split; [done|]); apply Hf in H4; eapply agree_xor; (done || lia).
Qed.

Lemma contains_self (p : Prefix) : pf_wf p → pf_Contains p (pf_ip p) = true.
Proof. intros Hp. apply pf_Contains_spec; [done|by destruct Hp|]. by split. Qed.

(** prefixes overlap exactly when some address is in both *)
Lemma Overlaps_spec (p o : Prefix) :
  pf_wf p → pf_wf o →
  pf_Overlaps p o = true ↔ ∃ a, addr_wf a ∧ pf_Contains p a = true ∧ pf_Contains o a = true.
Proof.
  intros Hp Ho. pose proof Hp as [Hpa Hpb]. pose proof Ho as [Hoa Hob]. unfold pf_Overlaps, pf_valid.
  rewrite !(proj2 (Z.leb_le 0 _)) by lia. cbn [negb orb].
  case_bool_decide as Heq; [subst o; split; [intros _; exists (pf_ip p); by rewrite contains_self|done]|].
  destruct (Bool.eqb (Is4 (pf_ip p)) (Is4 (pf_ip o))) eqn:Hf; cbn [negb].
  2:{ split; [done|]. intros (a & Ha & [H1 _]%pf_Contains_spec & [H2 _]%pf_Contains_spec); try done.
      rewrite H1, H2, eqb_reflx in Hf. done. }
  apply eqb_prop in Hf. assert (BitLen (pf_ip p) = BitLen (pf_ip o)) as Hl by (by destruct (pf_ip p), (pf_ip o)).
  set (w := BitLen (pf_ip o)) in *. set (m := if (pf_bits p <? pf_bits o)%Z then _ else _).
  assert (m = Z.min (pf_bits p) (pf_bits o)) as Hm by (subst m; destruct (Z.ltb_spec (pf_bits p) (pf_bits o)); lia).
  clearbody m. assert (∃ q r, ((q = p ∧ r = o) ∨ (q = o ∧ r = p)) ∧ (pf_bits q = m ∧ m ≤ pf_bits r)%Z) as (q & r & Hqr & Hq).
  { destruct (Z.le_ge_cases (pf_bits p) (pf_bits o)); [exists p, o|exists o, p]; split; (lia || eauto). }
  assert (∀ a, addr_wf a → pf_Contains p a = true → pf_Contains o a = true →
          agree (w - m) (addr_num (pf_ip p)) (addr_num (pf_ip o))) as Hboth.
  { intros a Ha [H1 Hp1]%pf_Contains_spec [H2 Ho1]%pf_Contains_spec; try done.
    assert (BitLen a = w) as Hw by (subst w; by destruct a, (pf_ip o)). rewrite Hw in *.
    transitivity (addr_num a); [symmetry; apply (agree_coarser (w - pf_bits p)); [lia|done]|].
    apply (agree_coarser (w - pf_bits o)); [lia|done]. }
  assert (agree (w - m) (addr_num (pf_ip p)) (addr_num (pf_ip o)) →
          pf_Contains p (pf_ip r) = true ∧ pf_Contains o (pf_ip r) = true) as Hr.
  { intros Ha. assert (BitLen (pf_ip r) = w) as Hwr by (by destruct Hqr as [[-> ->]|[-> ->]]).
    destruct Hqr as [[-> ->]|[-> ->]]; split; try (by apply contains_self);
      apply pf_Contains_spec; try done; rewrite Hwr, (proj1 Hq); (split; [done|]); [by symmetry|done]. }
  destruct (m =? 0)%Z eqn:H0.
  - split; [intros _|done]. exists (pf_ip r). bool_to_prop. split; [by destruct Hqr as [[-> ->]|[-> ->]]|]. apply Hr.
    assert (∀ b, addr_wf b → BitLen b = w → Z.shiftr (addr_num b) w = 0%Z) as Hz.
    { intros b (Hb1 & Hb2 & _) Hb3. rewrite <-Hb3. rewrite Z.shiftr_div_pow2 by (by destruct b). apply Z.div_small.
      unfold addr_num, be_dec. pose proof (le_dec_bound (rev (addr_bytes b)) ltac:(by apply Forall_rev)) as Hbd.
      rewrite length_rev, Hb2 in Hbd. by destruct b. }
    subst m. rewrite H0, Z.sub_0_r. unfold agree. by rewrite !Hz by done.
  - rewrite Z.eqb_eq. unfold masked_num. rewrite Hl. fold w. bool_to_prop. rewrite agree_masked by lia. split.
    + intros Ha. exists (pf_ip r). split; [by destruct Hqr as [[-> ->]|[-> ->]]|]. by apply Hr.
    + intros (a & Ha & H1 & H2). by apply (Hboth a).
Qed.

(** ** Text *)

Lemma prefix_bits_itoa (n : Z) : (0 ≤ n ≤ 32)%Z → prefix_bits (Str.itoa n) = Some n.
Proof.
  intros Hn. pattern n. apply (Forall_forall _ (seqZ 0 33)); [|apply elem_of_seqZ; lia].
  vm_compute seqZ. repeat (apply Forall_cons_2; [reflexivity|]). apply Forall_nil_2.
Qed.

Lemma ParsePrefix_text (a b c d n : Z) :
  octet a → octet b → octet c → octet d → (0 ≤ n ≤ 32)%Z →
  ParsePrefix (prefix_text a b c d n) = Some {| pf_ip := Addr4 [a; b; c; d]; pf_bits := n |}.
Proof.
  intros Ha Hb Hc Hd Hn. unfold ParsePrefix, prefix_text. change ("/" +:+ Str.itoa n) with (String "/" (Str.itoa n)).
  rewrite Str.LastIndexByte_app by (apply Str.LastIndexByte_None, itoa_no_slash).
  rewrite Str.upto_app, Str.from_S_app, ParseAddr_dotted, prefix_bits_itoa by done. cbn [zone BitLen].
  change (Str.empty "") with true. cbn [negb]. rewrite (proj2 (Z.ltb_ge 32 n)) by lia. unfold PrefixFrom.
  cbn [withoutZone BitLen]. by rewrite !(proj2 (Z.leb_le _ _)) by lia.
Qed.

Lemma v4_wf (a b c d : Z) : octet a → octet b → octet c → octet d → addr_wf (Addr4 [a; b; c; d]).
Proof. intros. split; [|done]. cbn [addr_bytes]. repeat (apply Forall_cons_2; [done|]). apply Forall_nil_2. Qed.

Lemma v4_num (a b c d : Z) : addr_num (Addr4 [a; b; c; d]) = v4num a b c d.
Proof. unfold addr_num, be_dec, v4num. cbn. lia. Qed.

(** an IPv4 address is in a.b.c.d/n when it agrees with it on the first n bits *)
Lemma prefix_text_contains (a b c d n w x y z : Z) :
  octet a → octet b → octet c → octet d → octet w → octet x → octet y → octet z → (0 ≤ n ≤ 32)%Z →
  pf_Contains {| pf_ip := Addr4 [a; b; c; d]; pf_bits := n |} (Addr4 [w; x; y; z]) = true ↔
  (v4num w x y z / 2 ^ (32 - n) = v4num a b c d / 2 ^ (32 - n))%Z.
Proof.
  intros. rewrite pf_Contains_spec; [|split; [by apply v4_wf|done]|by apply v4_wf]. cbn [pf_ip pf_bits BitLen]. rewrite !v4_num. unfold agree.
  rewrite !Z.shiftr_div_pow2 by lia. naive_solver.
Qed.

(** a list of octets written out *)
Ltac octets := repeat (apply Forall_cons_2; [first [done | unfold octet; lia]|]); apply Forall_nil_2.

(** ** What parsing yields is well formed *)

Lemma is_digit_val (c : ascii) : is_digit c = true → (0 ≤ code c - 48 ≤ 9)%Z.
Proof. unfold is_digit. bool_to_prop. lia. Qed.

Lemma hexval_range (c : ascii) (d : Z) : hexval c = Some d → (0 ≤ d ≤ 15)%Z.
Proof. unfold hexval, is_digit. repeat case_match; intros; simplify_eq; bool_to_prop; lia. Qed.

Definition v4_ok (st : v4st) : Prop := Forall octet (v4_done st) ∧ octet (v4_val st) ∧ length (v4_done st) ≤ 3.

Lemma v4_step_ok (st st' : v4st) (c : ascii) (last : bool) : v4_ok st → v4_step st c last = Some st' → v4_ok st'.
Proof.
  intros (Hd & Hv & Hl). unfold v4_step, octet in *. destruct (is_digit c) eqn:Hc.
  - apply is_digit_val in Hc. repeat case_match; intros; simplify_eq. bool_to_prop. split_and!; [done|unfold octet; cbn; lia|done].
  - repeat case_match; intros; simplify_eq. bool_to_prop. unfold v4_ok. cbn [v4_done v4_val]. split_and!.
    + apply Forall_app_2; [done|]. octets.
    + unfold octet. lia.
    + rewrite length_app. cbn. lia.
Qed.

Lemma v4_fields_ok (s : string) (b : list Z) : parseIPv4Fields s = Some b → Forall octet b ∧ length b = 4.
Proof.
  unfold parseIPv4Fields. assert (∀ st st', v4_ok st → v4_scan st s = Some st' → v4_ok st') as Hs.
  { induction s as [|c s IH]; intros st st' Ho; cbn [v4_scan]; [by intros [= <-]|].
    destruct (v4_step st c _) as [st1|] eqn:H1; [|done]. cbn. apply IH. by eapply v4_step_ok. }
  destruct (v4_scan v4_start s) as [st|] eqn:Hst; [|done]. cbn.
  destruct (Hs v4_start st) as (Hd & Hv & Hl); [split_and!; [constructor|done|cbn; lia]|done|].
  case_match; [done|]. intros [= <-]. bool_to_prop. split; [apply Forall_app_2; [done|octets]|].
  rewrite length_app. cbn. lia.
Qed.

Lemma hex_group_ok (s rest : string) (off off' : nat) (acc acc' : Z) :
  (0 ≤ acc ≤ 65535)%Z → hex_group off acc s = Some (off', acc', rest) → (0 ≤ acc' ≤ 65535)%Z.
Proof.
  revert off acc. induction s as [|c s IH]; intros off acc Ha; cbn [hex_group]; [by intros [= _ <- _]|].
  destruct (hexval c) as [d|] eqn:Hd; [|by intros [= _ <- _]]. apply hexval_range in Hd.
  case_match; [done|]. apply IH. bool_to_prop. lia.
Qed.

Lemma group_octets (acc : Z) : (0 ≤ acc ≤ 65535)%Z → octet (Z.shiftr acc 8) ∧ octet (Z.land acc 255).
Proof.
  intros Ha. unfold octet. rewrite Z.shiftr_div_pow2 by lia. change 255%Z with (Z.ones 8). rewrite Z.land_ones by lia.
  split; [|apply Z.mod_pos_bound; lia]. split; [apply Z.div_pos; lia|apply Z.div_lt_upper_bound; lia].
Qed.

(** the bytes read so far: octets, in pairs, at most sixteen *)
Definition v6_ok (ip : list Z) : Prop := Forall octet ip ∧ Nat.Even (length ip) ∧ length ip ≤ 16.

Lemma v6_ok_pair (ip : list Z) (acc : Z) :
  v6_ok ip → length ip < 16 → (0 ≤ acc ≤ 65535)%Z → v6_ok (ip ++ [Z.shiftr acc 8; Z.land acc 255]).
Proof.
  intros (Ho & [k Hk] & Hl) Hlt Ha. destruct (group_octets acc Ha). split_and!.
  - apply Forall_app_2; [done|octets].
  - rewrite length_app. cbn. exists (S k). lia.
  - rewrite length_app. cbn. lia.
Qed.

Lemma v6_loop_ok (fuel : nat) (ip ip' : list Z) (ell ell' : option nat) (s rest : string) :
  v6_ok ip → v6_loop fuel ip ell s = Some (ip', ell', rest) → v6_ok ip'.
Proof.
  revert ip ip' ell ell' s rest. induction fuel as [|fuel IH]; intros ip ip' ell ell' s rest Hip; cbn [v6_loop]; [by intros [= <- _ _]|].
  destruct (16 <=? length ip)%nat eqn:Hl; [by intros [= <- _ _]|]. bool_to_prop.
  destruct (hex_group 0 0 s) as [[[off acc] r]|] eqn:Hg; [|done]. cbn [mbind option_bind].
  apply hex_group_ok in Hg; [|lia]. pose proof (v6_ok_pair ip acc Hip Hl Hg) as Hpair.
  destruct (off =? 0)%nat; [done|]. destruct r as [|c r]; [by intros [= <- _ _]|].
  assert (∀ x, (if negb (bool_decide (c = ":"%char)) then None
               else match r with
                    | "" => None
                    | String ":" rest'' =>
                        if bool_decide (ell ≠ None) then None
                        else match rest'' with
                             | "" => Some (ip ++ [Z.shiftr acc 8; Z.land acc 255], Some (length (ip ++ [Z.shiftr acc 8; Z.land acc 255])), "")
                             | _ => v6_loop fuel (ip ++ [Z.shiftr acc 8; Z.land acc 255])
                                      (Some (length (ip ++ [Z.shiftr acc 8; Z.land acc 255]))) rest''
                             end
                    | _ => v6_loop fuel (ip ++ [Z.shiftr acc 8; Z.land acc 255]) ell r
                    end) = Some x → v6_ok x.1.1) as Hcolon.
  { intros [[x1 x2] x3]. destruct (negb _); [done|]. repeat case_match; try done; intros Hx; simplify_eq; try done; cbn [fst]; by eapply IH. }
  assert (∀ x, (if bool_decide (ell = None) && negb (length ip =? 12)%nat then None
                else if (16 <? length ip + 4)%nat then None
                else v4 ← parseIPv4Fields s; Some (ip ++ v4, ell, "")) = Some x → v6_ok x.1.1) as Hdot.
  { intros x. destruct (bool_decide _ && _); [done|]. destruct (16 <? _)%nat eqn:H16; [done|]. bool_to_prop.
    destruct (parseIPv4Fields s) as [b|] eqn:Hb; [|done]. cbn. intros [= <-]. apply v4_fields_ok in Hb as [Hb1 Hb2].
    destruct Hip as (Ho & [k Hk] & _). split_and!; cbn [fst].
    - by apply Forall_app_2.
    - rewrite length_app. exists (S (S k)). lia.
    - rewrite length_app. lia. }
  intros Hx. destruct c as [[] [] [] [] [] [] [] []]; (apply Hcolon in Hx || apply Hdot in Hx); exact Hx.
Qed.

Lemma parseIPv6_ok (s z : string) (b : list Z) : parseIPv6 s = Some (b, z) → Forall octet b ∧ length b = 16.
Proof.
  assert (∀ n, Forall octet (replicate n 0%Z)) as Hz.
  { intros n. apply Forall_replicate. unfold octet. lia. }
  unfold parseIPv6. destruct (match Str.IndexByte s "%" with Some _ => _ | None => _ end) as [[s0 zn]|]; [|done].
  cbn [mbind option_bind]. destruct (if Str.HasPrefix s0 "::" then _ else _) as [ell s1].
  case_match; [intros [= <- _]; split; [exact (Hz 16)|done]|].
  destruct (v6_loop 8 [] ell s1) as [[[ip ell'] rest]|] eqn:Hv; [|done]. cbn [mbind option_bind].
  apply v6_loop_ok in Hv; [|split_and!; [constructor|by exists 0|cbn; lia]]. destruct Hv as (Ho & _ & Hl).
  case_match; [done|]. destruct (length ip <? 16)%nat eqn:Hlt; bool_to_prop.
  - destruct ell' as [e|]; [|done]. intros [= <- _]. split.
    + apply Forall_app_2; [by apply Forall_take|]. apply Forall_app_2; [apply Hz|by apply Forall_drop].
    + rewrite !length_app, length_replicate, length_take, length_drop. lia.
  - case_match; [done|]. intros [= <- _]. split; [done|lia].
Qed.

Lemma ParseAddr_ok (s : string) (a : Addr) :
  ParseAddr s = Some a → Forall octet (addr_bytes a) ∧ length (addr_bytes a) = (if Is4 a then 4 else 16).
Proof.
  unfold ParseAddr. destruct (addr_form s) as [c|]; [|done].
  destruct (parseIPv4Fields s) as [b|] eqn:H4; [apply v4_fields_ok in H4|];
    destruct (parseIPv6 s) as [[b6 z]|] eqn:H6; try apply parseIPv6_ok in H6;
    destruct c as [[] [] [] [] [] [] [] []]; cbn; intros Ha; simplify_eq; cbn; done.
Qed.

Lemma PrefixFrom_wf (a : Addr) (n : Z) :
  Forall octet (addr_bytes a) → length (addr_bytes a) = (if Is4 a then 4 else 16) → (0 ≤ n ≤ BitLen a)%Z → pf_wf (PrefixFrom a n).
Proof.
  intros Ho Hl Hn. unfold PrefixFrom. rewrite !(proj2 (Z.leb_le _ _)) by lia. cbn [andb].
  split; cbn [pf_ip pf_bits]; destruct a; cbn in *; (by split_and!) || lia.
Qed.

Lemma dtoi_nonneg (s : string) (n : Z) : dtoi s = Some n → (0 ≤ n)%Z.
Proof.
  unfold dtoi. destruct (Str.empty s); [done|]. assert (∀ acc, (0 ≤ acc)%Z → Str.digits_val acc s = Some n → (0 ≤ n)%Z) as Hs.
  { induction s as [|c s IH]; intros acc Ha; cbn [Str.digits_val]; [by intros [= <-]|]. case_match; [|done]. bool_to_prop.
    apply IH. lia. }
  by apply Hs.
Qed.

Lemma ParsePrefix_wf (s : string) (p : Prefix) : ParsePrefix s = Some p → pf_wf p.
Proof.
  unfold ParsePrefix. destruct (Str.LastIndexByte s "/") as [i|]; [|done].
  destruct (ParseAddr _) as [a|] eqn:Ha; [|done]. apply ParseAddr_ok in Ha as [Ho Hl]. destruct (negb _); [done|].
  destruct (prefix_bits _) as [n|] eqn:Hb; [|done]. destruct (Z.ltb_spec (BitLen a) n) as [|Hn]; [done|].
  intros [= <-]. apply PrefixFrom_wf; [done..|]. split; [|done]. unfold prefix_bits in Hb. repeat case_match; try done; by eapply dtoi_nonneg.
Qed.
