(* ===== verification/Model.v ===== *)
(** * Shared data: events, severities, alerts (src/pkg/model)

    The records every sensor produces and every stage of the pipeline reads.
    [Event.Raw] (a sensor-specific [any] no modelled code reads) is left out;
    a ULID is an opaque 128-bit number. *)

From S2P Require Import Prelude GoStd.

Inductive Severity : Type :=
  | SeverityInfo | SeverityNotice | SeverityWarn | SeverityHigh | SeverityCritical.

#[export] Instance Severity_eq_dec : EqDecision Severity.
Proof. solve_decision. Defined.

Definition Severity_String (s : Severity) : string :=
  match s with
  | SeverityInfo => "info"
  | SeverityNotice => "notice"
  | SeverityWarn => "warn"
  | SeverityHigh => "high"
  | SeverityCritical => "critical"
  end.

Definition ParseSeverity (s : string) : Severity * bool :=
  if decide (s = "info") then (SeverityInfo, true)
  else if decide (s = "notice") then (SeverityNotice, true)
  else if decide (s = "warn" ∨ s = "warning") then (SeverityWarn, true)
  else if decide (s = "high") then (SeverityHigh, true)
  else if decide (s = "critical" ∨ s = "crit") then (SeverityCritical, true)
  else (SeverityInfo, false).

Inductive Verdict : Type :=
  | VerdictUnknown | VerdictBenign | VerdictSuspicious | VerdictMalicious.

Record ProcNode := {
  pn_PID : Z;
  pn_Comm : string;
  pn_Argv : list string;
  pn_UID : Z;
  pn_StartNs : Z;
  pn_Image : string;
  pn_FirstAction : Time.time
}.

Record Event := {
  ev_ID : Z;
  ev_Time : Time.time;
  ev_Sensor : string;
  ev_Severity : Severity;
  ev_Verdict : Verdict;
  ev_Host : string;
  ev_PID : Z;
  ev_TID : Z;
  ev_Comm : string;
  ev_UID : Z;
  ev_GID : Z;
  ev_CGroupID : Z;
  ev_Container : string;
  ev_Image : string;
  ev_ParentPID : Z;
  ev_ProcTree : list ProcNode;
  ev_Rule : string;
  ev_Tags : gmap string string
}.

(** [ev.Tags[k]]: the empty string when the key is absent or the map nil *)
Definition tag (ev : Event) (k : string) : string := default "" (ev_Tags ev !! k).

(** [ev.Tags[k] = v], the map allocated first when it is nil *)
Definition set_tag (k v : string) (ev : Event) : Event := {|
  ev_ID := ev_ID ev; ev_Time := ev_Time ev; ev_Sensor := ev_Sensor ev;
  ev_Severity := ev_Severity ev; ev_Verdict := ev_Verdict ev; ev_Host := ev_Host ev;
  ev_PID := ev_PID ev; ev_TID := ev_TID ev; ev_Comm := ev_Comm ev; ev_UID := ev_UID ev;
  ev_GID := ev_GID ev; ev_CGroupID := ev_CGroupID ev; ev_Container := ev_Container ev;
  ev_Image := ev_Image ev; ev_ParentPID := ev_ParentPID ev; ev_ProcTree := ev_ProcTree ev;
  ev_Rule := ev_Rule ev; ev_Tags := <[k:=v]> (ev_Tags ev) |}.

(** [delete(ev.Tags, k)] *)
Definition del_tag (k : string) (ev : Event) : Event := {|
  ev_ID := ev_ID ev; ev_Time := ev_Time ev; ev_Sensor := ev_Sensor ev;
  ev_Severity := ev_Severity ev; ev_Verdict := ev_Verdict ev; ev_Host := ev_Host ev;
  ev_PID := ev_PID ev; ev_TID := ev_TID ev; ev_Comm := ev_Comm ev; ev_UID := ev_UID ev;
  ev_GID := ev_GID ev; ev_CGroupID := ev_CGroupID ev; ev_Container := ev_Container ev;
  ev_Image := ev_Image ev; ev_ParentPID := ev_ParentPID ev; ev_ProcTree := ev_ProcTree ev;
  ev_Rule := ev_Rule ev; ev_Tags := delete k (ev_Tags ev) |}.

Lemma tag_del_ne (k k' : string) (ev : Event) : k ≠ k' → tag (del_tag k ev) k' = tag ev k'.
Proof. intros. unfold tag. simpl. by rewrite lookup_delete_ne. Qed.

Lemma del_set_eq (k v : string) (ev : Event) : del_tag k (set_tag k v ev) = del_tag k ev.
Proof. unfold del_tag, set_tag. simpl. by rewrite delete_insert_eq. Qed.

Lemma del_set_ne (k k' v : string) (ev : Event) :
  k ≠ k' → del_tag k (set_tag k' v ev) = set_tag k' v (del_tag k ev).
Proof. intros. unfold del_tag, set_tag. simpl. by rewrite delete_insert_ne. Qed.

(** [ev.Severity = s] *)
Definition set_severity (s : Severity) (ev : Event) : Event := {|
  ev_ID := ev_ID ev; ev_Time := ev_Time ev; ev_Sensor := ev_Sensor ev;
  ev_Severity := s; ev_Verdict := ev_Verdict ev; ev_Host := ev_Host ev;
  ev_PID := ev_PID ev; ev_TID := ev_TID ev; ev_Comm := ev_Comm ev; ev_UID := ev_UID ev;
  ev_GID := ev_GID ev; ev_CGroupID := ev_CGroupID ev; ev_Container := ev_Container ev;
  ev_Image := ev_Image ev; ev_ParentPID := ev_ParentPID ev; ev_ProcTree := ev_ProcTree ev;
  ev_Rule := ev_Rule ev; ev_Tags := ev_Tags ev |}.

Definition blank_event : Event := {|
  ev_ID := 0; ev_Time := Time.zero; ev_Sensor := ""; ev_Severity := SeverityInfo;
  ev_Verdict := VerdictUnknown; ev_Host := ""; ev_PID := 0; ev_TID := 0; ev_Comm := "";
  ev_UID := 0; ev_GID := 0; ev_CGroupID := 0; ev_Container := ""; ev_Image := "";
  ev_ParentPID := 0; ev_ProcTree := []; ev_Rule := ""; ev_Tags := ∅ |}.

(** [NewEvent], with the fresh ULID and the clock reading as arguments *)
Definition NewEvent (id : Z) (now : Time.time) (sensor : string) (sev : Severity) : Event :=
  {| ev_ID := id; ev_Time := now; ev_Sensor := sensor; ev_Severity := sev;
     ev_Verdict := VerdictUnknown; ev_Host := ""; ev_PID := 0; ev_TID := 0; ev_Comm := "";
     ev_UID := 0; ev_GID := 0; ev_CGroupID := 0; ev_Container := ""; ev_Image := "";
     ev_ParentPID := 0; ev_ProcTree := []; ev_Rule := ""; ev_Tags := ∅ |}.

Inductive RuleMode : Type := ModeDetect | ModeQuarantine | ModeBlock.

Record Alert := {
  al_Event : Event;
  al_RuleID : string;
  al_Reason : string;
  al_EvidenceIDs : list Z;
  al_Mode : RuleMode;
  al_Action : string;
  al_Class : Z
}.

Lemma tag_set_eq (k v : string) (ev : Event) : tag (set_tag k v ev) k = v.
Proof. unfold tag. simpl. by rewrite lookup_insert_eq. Qed.

Lemma tag_set_ne (k k' v : string) (ev : Event) :
  k ≠ k' → tag (set_tag k v ev) k' = tag ev k'.
Proof. intros. unfold tag. simpl. by rewrite lookup_insert_ne. Qed.

#[export] Hint Rewrite tag_set_eq : xh.
#[export] Hint Rewrite tag_set_ne using (by intros [=]) : xh.
