(* ===== verification/Decoder.v ===== *)
(** * Kernel records to events (src/sensors/ebpf)

    [Decode] of decoder.go with the payload of every kind, and the kinds,
    sensors and severities of types.go.  Reads under /proc are the functions of
    [procfs].  Every slice of the code is guarded by a length check just above
    it, so the slices here are total.  Loading and attaching the programs is
    left out. *)

From S2P Require Import Prelude GoStd Bytes NetIP Model.

(** ** Kinds (types.go) *)

Definition KindProcSpawn : Z := 1.
Definition KindProcExit : Z := 2.
Definition KindProcCred : Z := 3.
Definition KindFileOpen : Z := 4.
Definition KindNetConnect : Z := 5.
Definition KindNetBind : Z := 6.
Definition KindModLoad : Z := 7.
Definition KindBPFSyscall : Z := 8.
Definition KindPtrace : Z := 9.
Definition KindMount : Z := 10.
Definition KindMprotectRWX : Z := 11.
Definition KindCanaryFail : Z := 12.
Definition KindInodePerm : Z := 13.
Definition KindSetxattr : Z := 14.
Definition KindNetICMP : Z := 15.
Definition KindNetRawSock : Z := 16.
Definition KindCapSet : Z := 17.
Definition KindPivotRoot : Z := 18.
Definition KindUnshare : Z := 19.
Definition KindSSLRead : Z := 20.
Definition KindNetBytes : Z := 22.
Definition KindProcScrape : Z := 23.

(** [switch k]: the first case that lists [k] *)
Fixpoint switch {A} (cases : list (list Z * A)) (default_ : A) (k : Z) : A :=
  match cases with
  | [] => default_
  | (ks, a) :: cases' => if existsb (Z.eqb k) ks then a else switch cases' default_ k
  end.

Definition EventKind_String : Z → string := switch
  [([KindProcSpawn], "proc_spawn"); ([KindProcExit], "proc_exit"); ([KindProcCred], "proc_cred");
   ([KindFileOpen], "file_open"); ([KindNetConnect], "net_connect"); ([KindNetBind], "net_bind");
   ([KindModLoad], "mod_load"); ([KindBPFSyscall], "bpf_syscall"); ([KindPtrace], "ptrace"); ([KindMount], "mount");
   ([KindMprotectRWX], "mprotect_rwx"); ([KindCanaryFail], "canary_fail"); ([KindInodePerm], "inode_perm");
   ([KindSetxattr], "setxattr"); ([KindNetICMP], "net_icmp"); ([KindNetRawSock], "net_raw_sock");
   ([KindCapSet], "cap_set"); ([KindPivotRoot], "pivot_root"); ([KindUnshare], "unshare"); ([KindSSLRead], "ssl_read");
   ([KindNetBytes], "net_bytes"); ([KindProcScrape], "proc_scrape")] "unknown".

Definition sensorForKind : Z → string := switch
  [([KindProcSpawn; KindProcCred], "ebpf.proc"); ([KindFileOpen], "ebpf.file");
   ([KindNetConnect; KindNetBind; KindNetRawSock; KindNetICMP; KindNetBytes], "ebpf.net");
   ([KindCapSet], "ebpf.cap"); ([KindPivotRoot; KindUnshare], "ebpf.ns"); ([KindSSLRead], "ebpf.ssl");
   ([KindModLoad], "ebpf.module"); ([KindBPFSyscall], "ebpf.self"); ([KindPtrace; KindMount], "ebpf.proc");
   ([KindMprotectRWX; KindCanaryFail], "ebpf.memory"); ([KindProcScrape], "ebpf.procscrape")] "ebpf".

Definition severityForKind : Z → Severity := switch
  [([KindMprotectRWX; KindCanaryFail; KindBPFSyscall], SeverityCritical);
   ([KindProcCred; KindModLoad; KindPtrace; KindMount; KindNetRawSock], SeverityWarn)] SeverityNotice.

(** ** Helpers *)

Fixpoint nullTerm (b : bytes) : string :=
  match b with
  | [] => ""
  | c :: b' => if (c =? 0)%Z then "" else Str.byte_str c +:+ nullTerm b'
  end.

Definition sanitise_byte (b : Z) : Z := if (b =? 0)%Z then 32 else if (b <? 32)%Z || (126 <? b)%Z then 63 else b.

Definition sanitiseArgv (body : bytes) : string := Str.TrimSpace (string_of (sanitise_byte <$> take 1024 body)).

Record procfs := { fs_readlink : string → option string; fs_readfile : string → option bytes }.

Definition set_image (image : string) (ev : Event) : Event := {|
  ev_ID := ev_ID ev; ev_Time := ev_Time ev; ev_Sensor := ev_Sensor ev;
  ev_Severity := ev_Severity ev; ev_Verdict := ev_Verdict ev; ev_Host := ev_Host ev;
  ev_PID := ev_PID ev; ev_TID := ev_TID ev; ev_Comm := ev_Comm ev; ev_UID := ev_UID ev;
  ev_GID := ev_GID ev; ev_CGroupID := ev_CGroupID ev; ev_Container := ev_Container ev;
  ev_Image := image; ev_ParentPID := ev_ParentPID ev; ev_ProcTree := ev_ProcTree ev;
  ev_Rule := ev_Rule ev; ev_Tags := ev_Tags ev |}.

(** [if c { ev.Tags[k] = v }] *)
Definition tag_if (c : bool) (k v : string) (ev : Event) : Event := if c then set_tag k v ev else ev.

Definition sev_if (c : bool) (s : Severity) (ev : Event) : Event := if c then set_severity s ev else ev.

(** [fmt.Sprintf("%#x", n)] *)
Definition hex_text (n : Z) : string := "0x" +:+ Str.hex n.

Lemma tag_severity (s : Severity) (ev : Event) (k : string) : tag (set_severity s ev) k = tag ev k.
Proof. done. Qed.

#[export] Hint Rewrite tag_severity : xh.

Section decode.
Context (fs : procfs).

Definition proc_path (pid : Z) (rest : string) : string := "/proc/" +:+ (Str.itoa pid +:+ rest).

Definition isSocketFd (pid : Z) (fd : Z) : bool :=
  match fs_readlink fs (proc_path pid ("/fd/" +:+ Str.itoa fd)) with
  | Some link => Str.HasPrefix link "socket:"
  | None => false
  end.

(** ** Payloads *)

(** [len(b) >= i+4 && Uint32(b[i:i+4]) != 0] *)
Definition flag_at (b : bytes) (i : nat) : bool := (i + 4 <=? length b)%nat && negb (le_at 4 b i =? 0)%Z.

(** the image of the spawn: the kernel's file name, else /proc/<pid>/exe *)
Definition spawn_image (b : bytes) (pid : Z) : string :=
  let image := nullTerm (take 256 b) in
  if Str.empty image && (0 <? pid)%Z
  then match fs_readlink fs (proc_path pid "/exe") with Some path => path | None => image end
  else image.

Definition socket_fallback (pid fd : Z) (k : string) (ev : Event) : Event :=
  tag_if (negb (bool_decide (tag ev k = "true")) && isSocketFd pid fd) k "true" ev.

Definition spawn_argv (pid : Z) (ev : Event) : Event :=
  match fs_readfile fs (proc_path pid "/cmdline") with
  | Some body => set_tag "argc" (Str.itoa (Z.of_nat (length (filter (λ c, c = 0%Z) body))))
                   (set_tag "argv" (sanitiseArgv body) ev)
  | None => ev
  end.

Definition decodeProcSpawn (b : bytes) (ev : Event) : Event :=
  if (length b <? 256)%nat then ev
  else
    let image := spawn_image b (ev_PID ev) in
    let ev := tag_if (flag_at b 264) "stdout_is_socket" "true"
                (tag_if (flag_at b 260) "stdin_is_socket" "true"
                   (tag_if (flag_at b 256) "from_memfd" "true" ev)) in
    let ev := tag_if (Str.HasPrefix image "/memfd:" || Str.HasPrefix image "/proc/self/fd/") "from_memfd" "true"
                (set_image image ev) in
    let ev := if (0 <? ev_PID ev)%Z
              then socket_fallback (ev_PID ev) 1 "stdout_is_socket" (socket_fallback (ev_PID ev) 0 "stdin_is_socket" ev)
              else ev in
    let ev := set_tag "path" (ev_Image ev) ev in
    if (0 <? ev_PID ev)%Z then spawn_argv (ev_PID ev) ev else ev.

Definition decodeProcCred (b : bytes) (ev : Event) : Event :=
  if (length b <? 8)%nat then ev
  else
    let old := le_at 4 b 0 in
    let nu := le_at 4 b 4 in
    let ev := set_tag "new_uid" (Str.itoa nu) (set_tag "old_uid" (Str.itoa old) ev) in
    let root := (nu =? 0)%Z && negb (old =? 0)%Z in
    tag_if root "uid0_transition" "true" (sev_if root SeverityCritical ev).

Definition decodeFileOpen (b : bytes) (ev : Event) : Event :=
  if (length b <? 256)%nat then ev
  else tag_if (260 <=? length b)%nat "flags" (hex_text (le_at 4 b 256)) (set_tag "path" (nullTerm (take 256 b)) ev).

(** [net.IPv4(addr[12], addr[13], addr[14], addr[15])] *)
Definition mapped (addr : bytes) : bytes := v4InV6Prefix ++ drop 12 addr.

Definition set_addr (family : Z) (addr : bytes) (other : Event → Event) (ev : Event) : Event :=
  if (family =? 2)%Z then set_tag "family" "inet" (set_tag "dst_ip" (IP_String (mapped addr)) ev)
  else if (family =? 10)%Z then set_tag "family" "inet6" (set_tag "dst_ip" (IP_String addr) ev)
  else other ev.

Definition set_sport (sport : Z) (ev : Event) : Event := tag_if (negb (sport =? 0)%Z) "src_port" (Str.itoa sport) ev.

Definition decodeNetEvent (b : bytes) (ev : Event) : Event :=
  if (length b <? 22)%nat then ev
  else
    let family := le_at 4 b 0 in
    let ev := set_addr family (slice b 4 20) (set_tag "family" (Str.itoa family)) ev in
    let ev := set_tag "dst_port" (Str.itoa (le_at 2 b 20)) ev in
    let ev := if (24 <=? length b)%nat then set_sport (le_at 2 b 22) ev else ev in
    set_tag "outbound" "true" ev.

Definition byte_is (b : bytes) (i : nat) (v : Z) : bool := bool_decide (b !! i = Some v).

Definition decodeNetBytesEvent (b : bytes) (ev : Event) : Event :=
  if (length b <? 29)%nat then ev
  else
    let ev := set_addr (le_at 4 b 0) (slice b 4 20) id ev in
    let ev := set_sport (le_at 2 b 22) (set_tag "dst_port" (Str.itoa (le_at 2 b 20)) ev) in
    let ev := set_tag "bytes" (Str.itoa (le_at 4 b 24)) ev in
    let ev := set_tag "dir" (if byte_is b 28 0 then "out" else "in") ev in
    tag_if ((29 <? length b)%nat && byte_is b 29 1) "quic_confirmed" "1" ev.

(** *** Plain text of a TLS read *)

Definition http_methods : list string :=
  ["GET "; "POST "; "PUT "; "DELETE "; "HEAD "; "OPTIONS "; "PATCH "; "CONNECT "; "TRACE "].

Definition isLikelyHTTPRequestLine (s : string) : bool :=
  existsb (λ m, Str.HasPrefix s m && Str.Contains s " HTTP/") http_methods.

Definition CR : ascii := ascii_of_nat 13.
Definition LF : ascii := ascii_of_nat 10.

(** [bytes.Split(b, "\r\n")] *)
Fixpoint split_crlf (s : string) : list string :=
  match s with
  | EmptyString => [""]
  | String c s' =>
      let more := match split_crlf s' with w :: ws => String c w :: ws | [] => [String c ""] end in
      match s' with
      | String d s'' => if bool_decide (c = CR) && bool_decide (d = LF) then "" :: split_crlf s'' else more
      | EmptyString => more
      end
  end.

Fixpoint find_host (lines : list string) : string :=
  match lines with
  | [] => ""
  | ln :: lines' =>
      if Str.empty ln then ""
      else if Str.HasPrefix (Str.ToLower ln) "host:" then Str.TrimSpace (Str.from 5 ln)
      else find_host lines'
  end.

Definition extractHTTPHostHeader (s : string) : string := find_host (split_crlf s).

(** [bytes.TrimRight(s, "\r")] *)
Fixpoint trim_cr (s : string) : string :=
  match s with
  | EmptyString => ""
  | String c s' => match trim_cr s' with
                   | EmptyString => if bool_decide (c = CR) then "" else String c ""
                   | t => String c t
                   end
  end.

Definition http_tags (payload : string) (ev : Event) : Event :=
  match Str.IndexByte payload LF with
  | None => ev
  | Some nl =>
      if (0 <? nl)%nat && (nl <? 8192)%nat then
        let line := trim_cr (Str.upto nl payload) in
        if isLikelyHTTPRequestLine line then
          let host := extractHTTPHostHeader (Str.from (S nl) payload) in
          tag_if (negb (Str.empty host)) "http_host" host (set_tag "http_request_line" line ev)
        else ev
      else ev
  end.

Definition decodeSSLReadEvent (b : bytes) (ev : Event) : Event :=
  if (length b <? 260)%nat then ev
  else
    let bufLen := Z.min (le_at 4 b 0) 256 in
    let payload := slice b 4 (4 + Z.to_nat bufLen) in
    let ev := set_tag "ssl_read_len" (Str.itoa bufLen) (set_tag "ssl_read" "true" ev) in
    let ev := if (0 <? bufLen)%Z
              then let ev := set_tag "payload_b64" (base64 payload) ev in
                   tag_if (bool_decide (ev_Tags ev !! "direction" = None)) "direction" "read" ev
              else ev in
    http_tags (string_of payload) ev.

(** *** Namespaces, capabilities, sockets, bpf, ptrace, memory *)

Definition CLONE_NEWNS : Z := 0x00020000.
Definition CLONE_NEWUSER : Z := 0x10000000.
Definition CLONE_NEWPID : Z := 0x20000000.
Definition CLONE_NEWNET : Z := 0x40000000.
Definition CLONE_NEWIPC : Z := 0x08000000.
Definition CLONE_NEWUTS : Z := 0x04000000.
Definition CLONE_NEWCGROUP : Z := 0x02000000.

Definition has_flag (flags bit : Z) : bool := negb (Z.land flags bit =? 0)%Z.

Definition decodeUnshareEvent (b : bytes) (ev : Event) : Event :=
  if (length b <? 8)%nat then ev
  else
    let flags := le_at 8 b 0 in
    let ev := set_tag "unshare" "true" (set_tag "unshare_flags" (hex_text flags) ev) in
    let ev := tag_if (has_flag flags CLONE_NEWNS) "unshare_ns_mount" "true" ev in
    let ev := sev_if (has_flag flags CLONE_NEWUSER) SeverityWarn
                (tag_if (has_flag flags CLONE_NEWUSER) "unshare_ns_user" "true" ev) in
    let ev := sev_if (has_flag flags CLONE_NEWPID) SeverityWarn
                (tag_if (has_flag flags CLONE_NEWPID) "unshare_ns_pid" "true" ev) in
    let ev := tag_if (has_flag flags CLONE_NEWNET) "unshare_ns_net" "true" ev in
    let ev := tag_if (has_flag flags CLONE_NEWIPC) "unshare_ns_ipc" "true" ev in
    let ev := tag_if (has_flag flags CLONE_NEWUTS) "unshare_ns_uts" "true" ev in
    tag_if (has_flag flags CLONE_NEWCGROUP) "unshare_ns_cgroup" "true" ev.

Definition decodeCapSetEvent (b : bytes) (ev : Event) : Event :=
  if (length b <? 24)%nat then ev
  else set_tag "capset" "true"
         (set_tag "cap_inheritable" (hex_text (le_at 8 b 16))
            (set_tag "cap_permitted" (hex_text (le_at 8 b 8)) (set_tag "cap_effective" (hex_text (le_at 8 b 0)) ev))).

Definition decodeRawSockEvent (b : bytes) (ev : Event) : Event :=
  if (length b <? 12)%nat then ev
  else
    let family := le_at 4 b 0 in
    let typ := le_at 4 b 4 in
    let ev := set_tag "sock_protocol" (Str.itoa (le_at 4 b 8))
                (set_tag "sock_type" (Str.itoa typ) (set_tag "sock_family" (Str.itoa family) ev)) in
    let ev := switch [([17], set_tag "family" "packet"); ([2], set_tag "family" "inet"); ([10], set_tag "family" "inet6")]%Z
                id family ev in
    let ev := switch [([3], set_tag "sock_type_name" "raw"); ([2], set_tag "sock_type_name" "dgram")]%Z id typ ev in
    set_severity SeverityWarn (set_tag "raw_socket" "true" ev).

Definition decodeBPFSyscall (b : bytes) (ev : Event) : Event :=
  if (length b <? 4)%nat then ev
  else set_tag "bpf_syscall" "true" (set_tag "bpf_cmd" (Str.itoa (le_at 4 b 0)) ev).

Definition decodePtrace (b : bytes) (ev : Event) : Event :=
  if (length b <? 8)%nat then ev
  else
    let target := le_at 4 b 4 in
    let ev := set_tag "ptrace_attach" "true"
                (set_tag "ptrace_target_pid" (Str.itoa target) (set_tag "ptrace_request" (Str.itoa (le_at 4 b 0)) ev)) in
    if (0 <? target)%Z then
      match fs_readfile fs (proc_path target "/comm") with
      | Some comm => set_tag "ptrace_target" (Str.TrimSpace (string_of comm)) ev
      | None => ev
      end
    else ev.

Definition decodeMprotect (b : bytes) (ev : Event) : Event :=
  if (length b <? 12)%nat then ev
  else set_severity SeverityCritical
         (set_tag "mprotect_rwx" "true"
            (set_tag "mprotect_prot" (hex_text (le_at 4 b 8)) (set_tag "mprotect_addr" (hex_text (le_at 8 b 0)) ev))).

(** [strconv.Atoi(s)] succeeds *)
Definition atoi_ok (s : string) : bool :=
  let body := match s with String "-" r => r | String "+" r => r | _ => s end in
  let bound := match s with String "-" _ => 2 ^ 63 | _ => 2 ^ 63 - 1 end%Z in
  match Str.ParseUint 64 body with Some n => (n <=? bound)%Z | None => false end.

Definition scrape_kind : Z → string := λ k, switch
  [([1], "environ"); ([2], "maps"); ([3], "mem"); ([4], "status"); ([5], "cmdline"); ([6], "auxv")]%Z (Str.itoa k) k.

Definition target_pid (path : string) : option string :=
  if Str.HasPrefix path "/proc/" then
    let rest := Str.from 6 path in
    match Str.IndexByte rest "/" with
    | Some (S _ as slash) => let pidStr := Str.upto slash rest in if atoi_ok pidStr then Some pidStr else None
    | _ => None
    end
  else None.

Definition decodeProcScrape (b : bytes) (ev : Event) : Event :=
  if (length b <? 8)%nat then ev
  else
    let path := if (264 <=? length b)%nat then nullTerm (slice b 8 264) else "" in
    let ev := set_tag "scrape_kind" (scrape_kind (le_at 4 b 0)) (set_tag "path" path ev) in
    let ev := match target_pid path with Some pidStr => set_tag "target_pid" pidStr ev | None => ev end in
    set_tag "proc_scrape" "true" ev.

(** ** The record *)

Definition hdrSize : nat := 56.

Record xhEventHdr := {
  h_TsNs : Z; h_Kind : Z; h_PID : Z; h_TID : Z; h_PPID : Z; h_UID : Z; h_GID : Z; h_CGroupID : Z; h_Comm : bytes }.

(** [binary.Read] of the header from a record that is long enough *)
Definition read_hdr (raw : bytes) : xhEventHdr := {|
  h_TsNs := le_at 8 raw 0; h_Kind := le_at 4 raw 8; h_PID := le_at 4 raw 12; h_TID := le_at 4 raw 16;
  h_PPID := le_at 4 raw 20; h_UID := le_at 4 raw 24; h_GID := le_at 4 raw 28; h_CGroupID := le_at 8 raw 32;
  h_Comm := slice raw 40 56 |}.

Definition defaultBoolTags : list string :=
  ["stdin_is_socket"; "stdout_is_socket"; "from_memfd"; "ptrace_attach"; "bpf_syscall"; "mod_load"; "mount";
   "outbound"; "uid0_transition"; "mprotect_rwx"; "jit_allowlisted"; "package_managed"; "first_seen_image";
   "proc_scrape"; "cred_proc_scrape"].

(** the event before its payload is read *)
Definition base_event (id : Z) (now : Time.time) (h : xhEventHdr) : Event := {|
  ev_ID := id; ev_Time := now; ev_Sensor := sensorForKind (h_Kind h); ev_Severity := severityForKind (h_Kind h);
  ev_Verdict := VerdictUnknown; ev_Host := ""; ev_PID := h_PID h; ev_TID := h_TID h; ev_Comm := nullTerm (h_Comm h);
  ev_UID := h_UID h; ev_GID := h_GID h; ev_CGroupID := h_CGroupID h; ev_Container := ""; ev_Image := "";
  ev_ParentPID := h_PPID h; ev_ProcTree := []; ev_Rule := "";
  ev_Tags := <["ts_ns" := Str.itoa (h_TsNs h)]> (<["kind" := EventKind_String (h_Kind h)]>
               (foldl (λ m k, <[k := "false"]> m) ∅ defaultBoolTags)) |}.

Definition decode_payload (k : Z) (b : bytes) : Event → Event := switch
  [([KindProcSpawn], decodeProcSpawn b); ([KindProcCred], decodeProcCred b); ([KindFileOpen], decodeFileOpen b);
   ([KindNetConnect; KindNetBind], decodeNetEvent b); ([KindNetBytes], decodeNetBytesEvent b);
   ([KindNetRawSock], decodeRawSockEvent b); ([KindCapSet], decodeCapSetEvent b);
   ([KindPivotRoot], λ ev, set_severity SeverityWarn (set_tag "pivot_root" "true" ev));
   ([KindUnshare], decodeUnshareEvent b); ([KindSSLRead], decodeSSLReadEvent b); ([KindBPFSyscall], decodeBPFSyscall b);
   ([KindPtrace], decodePtrace b); ([KindMprotectRWX], decodeMprotect b); ([KindModLoad], set_tag "mod_load" "true");
   ([KindMount], set_tag "mount" "true"); ([KindProcScrape], decodeProcScrape b)] id k.

(** [None] is a record shorter than the header, the only error; the fresh id
    and the clock reading are arguments *)
Definition Decode (id : Z) (now : Time.time) (raw : bytes) : option Event :=
  if (length raw <? hdrSize)%nat then None
  else let h := read_hdr raw in Some (decode_payload (h_Kind h) (drop hdrSize raw) (base_event id now h)).

End decode.

(** ** Kinds *)

Lemma switch_cases {A} (P : A → Prop) (cases : list (list Z * A)) (d : A) (k : Z) :
  Forall (λ c, P c.2) cases → P d → P (switch cases d k).
Proof. intros Hc Hd. induction Hc as [|[ks a] cases Ha _ IH]; [done|]. cbn. by destruct (existsb _ _). Qed.

Lemma switch_key {A} (cases : list (list Z * A)) (d v : A) (ks : list Z) (k : Z) :
  Forall (λ c, c.2 = v → c.1 = ks) cases → d ≠ v → switch cases d k = v → existsb (Z.eqb k) ks = true.
Proof.
  intros Hc Hd. induction Hc as [|[ks' a] cases Ha _ IH]; [done|]. cbn.
  destruct (existsb (Z.eqb k) ks') eqn:He; [|exact IH]. intros ->. by rewrite <-(Ha eq_refl).
Qed.

(** ** What a payload leaves alone *)

(** tags the stages give a meaning to and no payload writes *)
Definition reserved : list string :=
  ["kind"; "ts_ns"; "service"; "source_anchor_id"; "jit_allowlisted"; "write"; "create"; "parent_comm"; "dns_name"; "dst_dns";
   "dest_class"; "dst_country"; "dst_asn"; "cgroup_class"; "cgroup_unit"; "app_role"; "secret_taint"; "egress_policy_id";
   "egress_policy_action"; "sni"; "protocol"; "exe_sha256"; "cgroup_id"; "alpn"].

Definition free_key (k : string) : bool := negb (bool_decide (k ∈ reserved)).

(** same identity, same reserved tags: a payload only adds other tags, an
    image, a severity *)
Record same_identity (e ev : Event) : Prop := {
  k_ID : ev_ID ev = ev_ID e; k_Time : ev_Time ev = ev_Time e; k_Sensor : ev_Sensor ev = ev_Sensor e;
  k_PID : ev_PID ev = ev_PID e; k_TID : ev_TID ev = ev_TID e; k_Comm : ev_Comm ev = ev_Comm e;
  k_UID : ev_UID ev = ev_UID e; k_GID : ev_GID ev = ev_GID e; k_CGroupID : ev_CGroupID ev = ev_CGroupID e;
  k_ParentPID : ev_ParentPID ev = ev_ParentPID e; k_reserved k : k ∈ reserved → tag ev k = tag e k }.

Create HintDb same_identity.

Lemma same_identity_refl (ev : Event) : same_identity ev ev.
Proof. by constructor. Qed.

Lemma identity_set (e ev : Event) (k v : string) : free_key k = true → same_identity e ev → same_identity e (set_tag k v ev).
Proof.
  intros Hk []. constructor; try done. intros k' Hk'. rewrite tag_set_ne; [by apply k_reserved0|]. intros ->.
  unfold free_key in Hk. by rewrite bool_decide_true in Hk.
Qed.

Lemma identity_tag_if (e ev : Event) (c : bool) (k v : string) : free_key k = true → same_identity e ev → same_identity e (tag_if c k v ev).
Proof. intros Hk He. destruct c; [by apply identity_set|done]. Qed.

Lemma identity_severity (e ev : Event) (s : Severity) : same_identity e ev → same_identity e (set_severity s ev).
Proof. intros []. by constructor. Qed.

Lemma identity_sev_if (e ev : Event) (c : bool) (s : Severity) : same_identity e ev → same_identity e (sev_if c s ev).
Proof. intros He. destruct c; [by apply identity_severity|done]. Qed.

Lemma identity_image (e ev : Event) (i : string) : same_identity e ev → same_identity e (set_image i ev).
Proof. intros []. by constructor. Qed.

#[export] Hint Resolve same_identity_refl identity_severity identity_sev_if identity_image : same_identity.
#[export] Hint Extern 1 (same_identity _ (set_tag _ _ _)) => (apply identity_set; [reflexivity|]) : same_identity.
#[export] Hint Extern 1 (same_identity _ (tag_if _ _ _ _)) => (apply identity_tag_if; [reflexivity|]) : same_identity.

(** one payload: its conditionals, then the writes *)
Ltac payload_identity := cbv zeta; repeat case_match; eauto 20 with same_identity.

Lemma identity_addr (e ev : Event) (family : Z) (addr : bytes) (other : Event → Event) :
  same_identity e ev → same_identity e (other ev) → same_identity e (set_addr family addr other ev).
Proof. intros. unfold set_addr. payload_identity. Qed.

Lemma identity_sport (e ev : Event) (p : Z) : same_identity e ev → same_identity e (set_sport p ev).
Proof. intros. unfold set_sport. payload_identity. Qed.

Lemma identity_http (e ev : Event) (s : string) : same_identity e ev → same_identity e (http_tags s ev).
Proof. intros. unfold http_tags. payload_identity. Qed.

Lemma identity_argv (fs : procfs) (e ev : Event) (pid : Z) : same_identity e ev → same_identity e (spawn_argv fs pid ev).
Proof. intros. unfold spawn_argv. payload_identity. Qed.

Lemma identity_socket (fs : procfs) (e ev : Event) (pid fd : Z) (k : string) :
  free_key k = true → same_identity e ev → same_identity e (socket_fallback fs pid fd k ev).
Proof. intros. unfold socket_fallback. by apply identity_tag_if. Qed.

#[export] Hint Resolve identity_sport identity_http identity_argv : same_identity.
#[export] Hint Extern 1 (same_identity _ (socket_fallback _ _ _ _ _)) => (apply identity_socket; [reflexivity|]) : same_identity.

Lemma payload_identity_all (fs : procfs) (k : Z) (b : bytes) (ev : Event) : same_identity ev (decode_payload fs k b ev).
Proof.
  unfold decode_payload, switch. repeat match goal with |- same_identity _ ((if ?c then _ else _) _) => destruct c end;
    try unfold decodeProcSpawn; try unfold decodeProcCred; try unfold decodeFileOpen; try unfold decodeNetEvent;
    try unfold decodeNetBytesEvent; try unfold decodeRawSockEvent; try unfold decodeCapSetEvent;
    try unfold decodeUnshareEvent; try unfold decodeSSLReadEvent; try unfold decodeBPFSyscall; try unfold decodePtrace;
    try unfold decodeMprotect; try unfold decodeProcScrape; cbv zeta; unfold switch, id; repeat case_match;
    eauto 20 using identity_addr with same_identity.
Qed.

(** ** The wire format *)

(** a header as the kernel writes it *)
Definition hdr_bytes (h : xhEventHdr) : bytes :=
  le_enc 8 (h_TsNs h) ++ (le_enc 4 (h_Kind h) ++ (le_enc 4 (h_PID h) ++ (le_enc 4 (h_TID h) ++ (le_enc 4 (h_PPID h) ++
    (le_enc 4 (h_UID h) ++ (le_enc 4 (h_GID h) ++ (le_enc 8 (h_CGroupID h) ++ h_Comm h))))))).

Record hdr_ok (h : xhEventHdr) : Prop := {
  ok_ts : (0 ≤ h_TsNs h < 2 ^ 64)%Z; ok_cg : (0 ≤ h_CGroupID h < 2 ^ 64)%Z;
  ok_words : Forall (λ z, 0 ≤ z < 2 ^ 32)%Z [h_Kind h; h_PID h; h_TID h; h_PPID h; h_UID h; h_GID h];
  ok_comm : length (h_Comm h) = 16 }.

Lemma hdr_bytes_length (h : xhEventHdr) : length (h_Comm h) = 16 → length (hdr_bytes h) = hdrSize.
Proof. intros Hc. unfold hdr_bytes. rewrite !length_app, !le_enc_length, Hc. done. Qed.

Lemma read_hdr_bytes (h : xhEventHdr) (b : bytes) : hdr_ok h → read_hdr (hdr_bytes h ++ b) = h.
Proof.
  destruct h as [ts k p t pp u g c comm]. intros [Hts Hcg Hw Hcomm].
  cbn [h_TsNs h_Kind h_PID h_TID h_PPID h_UID h_GID h_CGroupID h_Comm] in *.
  rewrite !Forall_cons in Hw. destruct Hw as (Hk & Hp & Ht & Hpp & Hu & Hg & _).
  unfold read_hdr, hdr_bytes. cbn [h_TsNs h_Kind h_PID h_TID h_PPID h_UID h_GID h_CGroupID h_Comm].
  f_equal; read_fields; try (by apply le_at_here). by apply slice_here.
Qed.

Lemma base_kind (id : Z) (now : Time.time) (h : xhEventHdr) : tag (base_event id now h) "kind" = EventKind_String (h_Kind h).
Proof. unfold tag. cbn [base_event ev_Tags]. by rewrite lookup_insert_ne, lookup_insert_eq. Qed.

(** every record as long as the header decodes to an event of its kind, which no
    payload changes *)
Lemma Decode_some (fs : procfs) (id : Z) (now : Time.time) (raw : bytes) (ev : Event) :
  Decode fs id now raw = Some ev →
  ∃ h, h = read_hdr raw ∧ hdrSize ≤ length raw ∧ same_identity (base_event id now h) ev ∧
       ev_Sensor ev = sensorForKind (h_Kind h) ∧ tag ev "kind" = EventKind_String (h_Kind h).
Proof.
  unfold Decode. cbv zeta. remember (read_hdr raw) as h eqn:Hh. destruct (length raw <? hdrSize)%nat eqn:Hl; [done|].
  intros [= <-]. bool_to_prop. pose proof (payload_identity_all fs (h_Kind h) (drop hdrSize raw) (base_event id now h)) as He.
  exists h. split_and!; [done..| |].
  - by rewrite (k_Sensor _ _ He).
  - rewrite (k_reserved _ _ He) by (by apply (bool_decide_unpack _)). apply base_kind.
Qed.

Lemma Decode_hdr (fs : procfs) (id : Z) (now : Time.time) (h : xhEventHdr) (payload : bytes) :
  hdr_ok h → Decode fs id now (hdr_bytes h ++ payload) = Some (decode_payload fs (h_Kind h) payload (base_event id now h)).
Proof.
  intros Hh. pose proof (hdr_bytes_length h (ok_comm h Hh)) as Hlen. unfold Decode.
  rewrite (proj2 (Nat.ltb_ge _ _)) by (rewrite length_app, Hlen; lia). rewrite read_hdr_bytes by done.
  cbv zeta. by rewrite drop_app_length' by done.
Qed.

(** every documented boolean tag starts out as false *)
Lemma base_bool (id : Z) (now : Time.time) (h : xhEventHdr) (k : string) :
  k ∈ defaultBoolTags → tag (base_event id now h) k = "false".
Proof.
  intros Hk. unfold tag. cbn [base_event ev_Tags]. unfold defaultBoolTags in Hk. rewrite !elem_of_cons in Hk.
  repeat (destruct Hk as [->|Hk]; [rewrite lookup_insert_ne, lookup_insert_ne by discriminate; vm_compute; reflexivity|]). by apply elem_of_nil in Hk.
Qed.

Lemma false_tags_other (k : string) (l : list string) (m : gmap string string) :
  k ∉ l → foldl (λ m k, <[k := "false"]> m) m l !! k = m !! k.
Proof.
  revert m. induction l as [|x l IH]; intros m Hk; [done|]. rewrite not_elem_of_cons in Hk. cbn.
  rewrite IH by apply Hk. apply lookup_insert_ne. intros ->. by destruct Hk.
Qed.

Lemma base_absent (id : Z) (now : Time.time) (h : xhEventHdr) (k : string) :
  k ∉ "kind" :: "ts_ns" :: defaultBoolTags → tag (base_event id now h) k = "".
Proof.
  rewrite !not_elem_of_cons. intros (H1 & H2 & H3). unfold tag. cbn [base_event ev_Tags].
  rewrite !lookup_insert_ne by done. by rewrite false_tags_other.
Qed.

(** a reserved tag the base event does not carry stays empty *)
Lemma reserved_empty (id : Z) (now : Time.time) (h : xhEventHdr) (ev : Event) (k : string) :
  same_identity (base_event id now h) ev → k ∈ reserved → k ∉ "kind" :: "ts_ns" :: defaultBoolTags → tag ev k = "".
Proof. intros He Hk Hn. rewrite (k_reserved _ _ He) by done. by apply base_absent. Qed.

(** what the kernel puts in a record's header is what the event says,
    whatever kind the record is of and whatever follows the header: process,
    thread, parent, user, group, cgroup and command name, and the sensor and the
    kind tag the kind maps to.  Only a record shorter than the header is
    refused. *)
Theorem record_identity_survives (fs : procfs) (id : Z) (now : Time.time) (h : xhEventHdr) (payload : bytes) :
  hdr_ok h →
  (∃ ev, Decode fs id now (hdr_bytes h ++ payload) = Some ev ∧
    ev_Time ev = now ∧ ev_PID ev = h_PID h ∧ ev_TID ev = h_TID h ∧ ev_ParentPID ev = h_PPID h ∧
    ev_UID ev = h_UID h ∧ ev_GID ev = h_GID h ∧ ev_CGroupID ev = h_CGroupID h ∧ ev_Comm ev = nullTerm (h_Comm h) ∧
    ev_Sensor ev = sensorForKind (h_Kind h) ∧ tag ev "kind" = EventKind_String (h_Kind h)) ∧
  ∀ raw, Decode fs id now raw = None ↔ length raw < 56.
Proof.
  intros Hh. split.
  - rewrite Decode_hdr by done. eexists. split; [done|].
    destruct (payload_identity_all fs (h_Kind h) payload (base_event id now h)) as [].
    split_and!; try done. rewrite k_reserved0 by (by apply (bool_decide_unpack _)). apply base_kind.
  - intros raw. unfold Decode, hdrSize. destruct (length raw <? 56)%nat eqn:Hl; bool_to_prop; split; (done || lia).
Qed.

(** the payload of a connect to an IPv4 address *)
Definition connect4_payload (pad : bytes) (a b c d port sport : Z) (rest : bytes) : bytes :=
  le_enc 4 2 ++ ((pad ++ [a; b; c; d]) ++ (le_enc 2 port ++ (le_enc 2 sport ++ rest))).

(** what the decoder makes of an IPv4 connect record *)
Lemma connect_event (fs : procfs) (pad rest : bytes) (a b c d port sport : Z) (ev0 : Event) :
  length pad = 12 → (0 ≤ port < 65536)%Z → (0 ≤ sport < 65536)%Z →
  decode_payload fs KindNetConnect (connect4_payload pad a b c d port sport rest) ev0 =
  set_tag "outbound" "true" (set_sport sport (set_tag "dst_port" (Str.itoa port)
    (set_tag "family" "inet" (set_tag "dst_ip" (dotted a b c d) ev0)))).
Proof.
  intros Hp Hport Hs.
  assert (length (connect4_payload pad a b c d port sport rest) = 24 + length rest) as Hlen.
  { unfold connect4_payload. rewrite !length_app, !le_enc_length, Hp. done. }
  change (decode_payload fs KindNetConnect) with decodeNetEvent. unfold decodeNetEvent.
  rewrite Hlen. rewrite (proj2 (Nat.ltb_ge _ _)), (proj2 (Nat.leb_le _ _)) by lia.
  assert (le_at 4 (connect4_payload pad a b c d port sport rest) 0 = 2%Z) as -> by (by apply le_at_here).
  assert (slice (connect4_payload pad a b c d port sport rest) 4 20 = pad ++ [a; b; c; d]) as ->.
  { unfold connect4_payload. rewrite slice_skip by lia. apply slice_here. by rewrite length_app, Hp. }
  assert (∀ n i, 20 ≤ i → le_at n (connect4_payload pad a b c d port sport rest) i =
                          le_at n (le_enc 2 port ++ (le_enc 2 sport ++ rest)) (i - 20)) as Hskip.
  { intros n i Hi. unfold connect4_payload. rewrite le_at_skip by lia. unfold le_at.
    rewrite slice_app by (rewrite length_app, Hp; cbn; lia). do 2 f_equal; rewrite length_app, Hp; cbn; lia. }
  rewrite !Hskip by lia. cbn [Nat.sub]. rewrite le_at_skip by lia. cbn [Nat.sub]. rewrite !le_at_here by done.
  unfold set_addr, mapped. cbn [Z.eqb Pos.eqb]. rewrite drop_app_length' by done. done.
Qed.

(** a connect or bind to an IPv4 address reaches the stages as the tags they
    read: a destination that parses back to the same address, a port that
    parses back to the same port, [outbound] and the kind. *)
Theorem connect_decodes (fs : procfs) (pad rest : bytes) (a b c d port sport : Z) (ev0 : Event) :
  octet a → octet b → octet c → octet d → length pad = 12 →
  (0 ≤ port < 65536)%Z → (0 ≤ sport < 65536)%Z →
  let ev := decode_payload fs KindNetConnect (connect4_payload pad a b c d port sport rest) ev0 in
  tag ev "dst_ip" = dotted a b c d ∧ ParseIP (tag ev "dst_ip") = Some (v4InV6Prefix ++ [a; b; c; d]) ∧
  Str.ParseUint 16 (tag ev "dst_port") = Some port ∧ tag ev "outbound" = "true" ∧ tag ev "family" = "inet" ∧
  (sport ≠ 0%Z → Str.ParseUint 16 (tag ev "src_port") = Some sport).
Proof.
  intros Ha Hb Hc Hd Hp Hport Hs ev.
  subst ev. rewrite connect_event by done.
  unfold set_sport, tag_if. destruct (sport =? 0)%Z eqn:Hs0; bool_to_prop; cbn [negb]; autorewrite with xh;
    rewrite ParseIP_dotted, !Str.ParseUint_itoa by done; done.
Qed.

(** curl, pid 4242, connecting to 93.184.216.34:443 *)
Module Demo.
Definition fs : procfs := {| fs_readlink := λ _, None; fs_readfile := λ _, None |}.

Definition hdr : xhEventHdr := {|
  h_TsNs := 1700000000; h_Kind := KindNetConnect; h_PID := 4242; h_TID := 4242; h_PPID := 100; h_UID := 33; h_GID := 33;
  h_CGroupID := 77; h_Comm := to_array 16 (bytes_of "curl") |}.

Definition payload : bytes := connect4_payload (replicate 12 0%Z) 93 184 216 34 443 51000 [].
End Demo.

Lemma Demo_hdr_ok : hdr_ok Demo.hdr.
Proof. constructor; [split; done..| |done]. repeat (apply Forall_cons_2; [split; done|]). apply Forall_nil_2. Qed.

Lemma record_identity_survives_witness :
  hdr_ok Demo.hdr ∧
  ∃ ev, Decode Demo.fs 1 0 (hdr_bytes Demo.hdr ++ Demo.payload) = Some ev ∧ ev_PID ev = 4242%Z ∧ ev_Comm ev = "curl" ∧
        ev_Sensor ev = "ebpf.net" ∧ tag ev "kind" = "net_connect".
Proof.
  split; [exact Demo_hdr_ok|].
  destruct (proj1 (record_identity_survives Demo.fs 1 0 Demo.hdr Demo.payload Demo_hdr_ok))
    as (ev & Hev & _ & Hpid & _ & _ & _ & _ & _ & Hcomm & Hs & Hk).
  exists ev. split; [exact Hev|]. split; [exact Hpid|]. split; [exact Hcomm|]. split; [exact Hs|exact Hk].
Defined.

Lemma connect_decodes_witness :
  tag (decode_payload Demo.fs KindNetConnect Demo.payload (base_event 1 0 Demo.hdr)) "dst_ip" = "93.184.216.34" ∧
  Str.ParseUint 16 (tag (decode_payload Demo.fs KindNetConnect Demo.payload (base_event 1 0 Demo.hdr)) "dst_port") = Some 443%Z.
Proof.
  assert (octet 93 ∧ octet 184 ∧ octet 216 ∧ octet 34) as (Ha & Hb & Hc & Hd)
    by (unfold octet; repeat split; (discriminate || reflexivity)).
  destruct (connect_decodes Demo.fs (replicate 12 0%Z) [] 93 184 216 34 443 51000 (base_event 1 0 Demo.hdr)
              Ha Hb Hc Hd eq_refl ltac:(split; [discriminate|reflexivity]) ltac:(split; [discriminate|reflexivity]))
    as (Hip & _ & Hport & _).
  split; [exact Hip|exact Hport].
Defined.
