(* ===== verification/SecretTaint.v ===== *)
(** * Secret-taint store (src/pkg/secrettaint)

    Per-lineage taint state: a four-state machine Clean < SecretTouched <
    OutboundRestricted < ContainmentRequired, the set of secret classes the
    lineage has touched and a bounded audit history.  The store's operations
    are the methods of [memStore]; [ClassifyEvent] is the detector that feeds
    it. *)

From S2P Require Import Prelude GoStd Model.

Abbreviation SecretClass := string (only parsing).

Definition SecretEnv : SecretClass := "env".
Definition SecretProcEnviron : SecretClass := "proc_environ".
Definition SecretCloudCreds : SecretClass := "cloud_creds".
Definition SecretKubeToken : SecretClass := "kube_token".
Definition SecretGitToken : SecretClass := "git_token".
Definition SecretAPIKey : SecretClass := "api_key".
Definition SecretBrowserSession : SecretClass := "browser_session".
Definition SecretSecretFile : SecretClass := "secret_file".
Definition SecretMetadata : SecretClass := "metadata".
Definition SecretSessionStore : SecretClass := "session_store".
Definition SecretWorkloadIdentity : SecretClass := "workload_identity".
Definition SecretToken : SecretClass := "token".

Inductive TaintState : Type :=
  | TaintClean | TaintSecretTouched | TaintOutboundRestricted | TaintContainmentRequired.

#[export] Instance TaintState_eq_dec : EqDecision TaintState.
Proof. solve_decision. Defined.

(** the uint8 behind the constant: the order the code compares with *)
Definition rank (t : TaintState) : nat :=
  match t with
  | TaintClean => 0
  | TaintSecretTouched => 1
  | TaintOutboundRestricted => 2
  | TaintContainmentRequired => 3
  end.

Definition TaintState_String (t : TaintState) : string :=
  match t with
  | TaintClean => "clean"
  | TaintSecretTouched => "secret_touched"
  | TaintOutboundRestricted => "outbound_restricted"
  | TaintContainmentRequired => "containment_required"
  end.

Record Touch := {
  touch_PID : Z;
  touch_LineageID : Z;
  touch_SourceID : Z;
  touch_SecretClass : SecretClass;
  touch_Path : string;
  touch_At : Time.time
}.

Inductive ForgetReason : Type := ForgetLineageExit | ForgetOperatorOverride | ForgetTTLExpiry.

Record historyRecord := { h_at : Time.time; h_kind : string; h_detail : string }.

Record entry := {
  e_state : TaintState;
  e_classes : gset SecretClass;
  e_lastSeen : Time.time;
  e_history : list historyRecord
}.

Record memStore := {
  entries : gmap Z entry;
  maxAge : Time.duration
}.

Definition NewStore (age : Time.duration) : memStore := {| entries := ∅; maxAge := age |}.

Definition historyMax : nat := 16.

Definition appendHistory (at' : Time.time) (kind detail : string) (h : list historyRecord) :
    list historyRecord :=
  let h' := h ++ [{| h_at := at'; h_kind := kind; h_detail := detail |}] in
  if (historyMax <? length h')%nat then last_n historyMax h' else h'.

Definition new_entry : entry :=
  {| e_state := TaintClean; e_classes := ∅; e_lastSeen := Time.zero; e_history := [] |}.

(** the entry [getOrCreate] returns; its callers store the updated entry back
    under the same key, which is what writing through the pointer does *)
Definition getOrCreate (s : memStore) (lineage : Z) : entry :=
  default new_entry (entries s !! lineage).

Definition put (s : memStore) (lineage : Z) (e : entry) : memStore :=
  {| entries := <[lineage := e]> (entries s); maxAge := maxAge s |}.

Definition ObserveTouch (t : Touch) (s : memStore) : memStore :=
  if (touch_LineageID t =? 0)%Z then s else
  let e := getOrCreate s (touch_LineageID t) in
  put s (touch_LineageID t) {|
    e_state := (if decide (e_state e = TaintClean) then TaintSecretTouched else e_state e);
    e_classes := {[touch_SecretClass t]} ∪ e_classes e;
    e_lastSeen := touch_At t;
    e_history := appendHistory (touch_At t) "touch" (touch_SecretClass t) (e_history e) |}.

Definition StateForLineage (s : memStore) (lineage : Z) : TaintState :=
  if (lineage =? 0)%Z then TaintClean else
  match entries s !! lineage with None => TaintClean | Some e => e_state e end.

(** the returned slice lists the class set in some order *)
Definition ClassesForLineage (s : memStore) (lineage : Z) : list SecretClass :=
  if (lineage =? 0)%Z then [] else
  match entries s !! lineage with None => [] | Some e => elements (e_classes e) end.

(** the common body of the two promotions: [target] is the state moved to *)
Definition promote (target : TaintState) (lineage : Z) (at' : Time.time) (detail : string)
    (s : memStore) : memStore :=
  if (lineage =? 0)%Z then s else
  match entries s !! lineage with
  | None => s
  | Some e =>
      if (rank target <=? rank (e_state e))%nat then s else
      put s lineage {|
        e_state := target;
        e_classes := e_classes e;
        e_lastSeen := at';
        e_history := appendHistory at' "promote" detail (e_history e) |}
  end.

Definition PromoteOutboundRestricted (lineage : Z) (at' : Time.time) (reason : string) :=
  promote TaintOutboundRestricted lineage at' ("outbound_restricted: " +:+ reason).

Definition PromoteContainmentRequired (lineage : Z) (at' : Time.time) (reason : string) :=
  promote TaintContainmentRequired lineage at' ("containment_required: " +:+ reason).

(** [now] is the [time.Now()] of the call *)
Definition InheritFromParent (parentLineage childLineage : Z) (now : Time.time)
    (s : memStore) : memStore :=
  if (parentLineage =? 0)%Z || (childLineage =? 0)%Z || (parentLineage =? childLineage)%Z
  then s else
  match entries s !! parentLineage with
  | None => s
  | Some parent =>
      if decide (e_state parent = TaintClean) then s else
      let child := getOrCreate s childLineage in
      put s childLineage {|
        e_state := (if (rank (e_state child) <? rank (e_state parent))%nat
                    then e_state parent else e_state child);
        e_classes := e_classes parent ∪ e_classes child;
        e_lastSeen := now;
        e_history := appendHistory now "inherit" "from parent lineage" (e_history child) |}
  end.

Definition ForgetLineage (lineage : Z) (reason : ForgetReason) (s : memStore) : memStore * bool :=
  if (lineage =? 0)%Z then (s, false) else
  match entries s !! lineage with
  | None => (s, false)
  | Some e => ({| entries := delete lineage (entries s); maxAge := maxAge s |},
               bool_decide (e_state e ≠ TaintClean))
  end.

Definition Size (s : memStore) : nat := size (entries s).

(** the entries [Sweep] keeps; which ones go does not depend on the order the
    map is walked in *)
Definition swept (now : Time.time) (s : memStore) : gmap Z entry :=
  filter (λ p, Time.Before (e_lastSeen p.2) (Time.Add now (- maxAge s)) = false) (entries s).

Definition Sweep (now : Time.time) (s : memStore) : memStore * nat :=
  if (maxAge s <=? 0)%Z then (s, 0) else
  ({| entries := swept now s; maxAge := maxAge s |}, size (entries s) - size (swept now s)).

Definition History (s : memStore) (lineage : Z) : list historyRecord :=
  match entries s !! lineage with None => [] | Some e => e_history e end.

Definition AllTainted (s : memStore) : list Z := some_order (entries s).

(** ** The event classifier (sources.go) *)

(** only called with a tag map that has a path, so never with the nil map the
    code also guards against *)
Definition isReadAction (tags : gmap string string) : bool :=
  let t k := default "" (tags !! k) in
  if bool_decide (t "kind" = "file_open") || bool_decide (t "kind" = "file_read") then true
  else if bool_decide (t "mode" = "read") || bool_decide (t "mode" = "")
  then bool_decide (t "kind" = "file_open") || bool_decide (t "kind" = "")
  else false.

Definition classifyPath (path : string) : option SecretClass :=
  if Str.HasPrefix path "/etc/shadow" || Str.HasPrefix path "/etc/gshadow"
  then Some SecretSecretFile
  else if Str.Contains path "/.ssh/id_" || Str.HasPrefix path "/etc/ssh/ssh_host_"
  then Some SecretSecretFile
  else if Str.Contains path "/.aws/credentials" || Str.Contains path "/.aws/config" ||
          Str.Contains path "/.azure/credentials" || Str.Contains path "/.gcp/credentials" ||
          Str.Contains path "service-account-key.json"
  then Some SecretCloudCreds
  else if Str.HasPrefix path "/var/run/secrets/kubernetes.io/" ||
          Str.HasPrefix path "/run/secrets/kubernetes.io/" || Str.Contains path "/.kube/config"
  then Some SecretKubeToken
  else if Str.Contains path "/.git-credentials" || Str.Contains path "/.netrc"
  then Some SecretGitToken
  else if Str.Contains path "/.docker/config.json" || Str.Contains path "/.npmrc"
  then Some SecretAPIKey
  else if Str.HasSuffix path "/.env" || Str.HasSuffix path ".env.local" ||
          Str.HasSuffix path ".env.production"
  then Some SecretEnv
  else if Str.HasPrefix path "/var/lib/xhelix/credbroker/" || Str.HasPrefix path "/run/credentials/"
  then Some SecretSessionStore
  else if Str.Contains path "/var/lib/cloud/instance/sensitive-data-dir"
  then Some SecretWorkloadIdentity
  else None.

(** the [switch ev.Tags["class"]] of the credbroker branch *)
Definition credbrokerClass (c : string) : SecretClass :=
  if decide (c ∈ ["cloud_creds"; "aws"; "gcp"; "azure"]) then SecretCloudCreds
  else if decide (c ∈ ["kube_token"; "service_account"]) then SecretKubeToken
  else if decide (c ∈ ["git_token"; "gh_token"]) then SecretGitToken
  else if decide (c = "api_key") then SecretAPIKey
  else if decide (c = "browser_session") then SecretBrowserSession
  else SecretToken.

Definition ClassifyEvent (ev : Event) : option SecretClass :=
  let sensor := ev_Sensor ev in
  if bool_decide (sensor = "ebpf.net") &&
     (bool_decide (tag ev "dst_ip" = "169.254.169.254") ||
      Str.HasPrefix (tag ev "dst_ip") "fd00:ec2::")
  then Some SecretMetadata
  else if bool_decide (sensor = "procscrape") || bool_decide (tag ev "proc_scrape" = "environ")
  then Some SecretProcEnviron
  else
    let file_hit :=
      if (bool_decide (sensor = "ebpf.file") || bool_decide (sensor = "fim")) &&
         negb (Str.empty (tag ev "path")) && isReadAction (ev_Tags ev)
      then classifyPath (tag ev "path") else None in
    match file_hit with
    | Some c => Some c
    | None =>
        if bool_decide (sensor = "credbroker") then Some (credbrokerClass (tag ev "class"))
        else None
    end.

(** ** Sequences of store operations *)

Inductive op : Type :=
  | OpTouch (t : Touch)
  | OpPromoteOutbound (lineage : Z) (at' : Time.time) (reason : string)
  | OpPromoteContainment (lineage : Z) (at' : Time.time) (reason : string)
  | OpInherit (parent child : Z) (now : Time.time)
  | OpForget (lineage : Z) (reason : ForgetReason)
  | OpSweep (now : Time.time).

Definition exec (o : op) (s : memStore) : memStore :=
  match o with
  | OpTouch t => ObserveTouch t s
  | OpPromoteOutbound l a r => PromoteOutboundRestricted l a r s
  | OpPromoteContainment l a r => PromoteContainmentRequired l a r s
  | OpInherit p c now => InheritFromParent p c now s
  | OpForget l r => (ForgetLineage l r s).1
  | OpSweep now => (Sweep now s).1
  end.

Definition run (ops : list op) (s : memStore) : memStore := foldl (λ s o, exec o s) s ops.

(** the operations that may clear lineage [l] *)
Definition clears (l : Z) (o : op) : bool :=
  match o with
  | OpForget l' _ => bool_decide (l' = l)
  | OpSweep _ => true
  | _ => false
  end.

(** ** Invariant *)

Definition entry_ok (e : entry) : Prop :=
  e_state e ≠ TaintClean ∧ e_classes e ≠ ∅ ∧ length (e_history e) ≤ historyMax.

Definition wf (s : memStore) : Prop :=
  map_Forall (λ l e, l ≠ 0%Z ∧ entry_ok e) (entries s).

Lemma appendHistory_length (a : Time.time) (k d : string) (h : list historyRecord) :
  length h ≤ historyMax → length (appendHistory a k d h) ≤ historyMax.
Proof.
  intros Hh. unfold appendHistory. case_match; bool_to_prop; [|lia].
  rewrite last_n_length. lia.
Qed.

Lemma wf_put (s : memStore) (l : Z) (e : entry) :
  wf s → l ≠ 0%Z → entry_ok e → wf (put s l e).
Proof. intros Hs ??. by apply map_Forall_insert_2. Qed.

Lemma wf_lookup (s : memStore) (l : Z) (e : entry) :
  wf s → entries s !! l = Some e → l ≠ 0%Z ∧ entry_ok e.
Proof. intros Hs Hl. by apply (Hs l e). Qed.

(** what [getOrCreate] returns has a bounded history even when new *)
Lemma getOrCreate_history (s : memStore) (l : Z) :
  wf s → length (e_history (getOrCreate s l)) ≤ historyMax.
Proof.
  intros Hs. unfold getOrCreate. destruct (entries s !! l) as [e|] eqn:He; simpl; [|lia].
  by apply (wf_lookup s l e Hs) in He as [_ (_ & _ & ?)].
Qed.

#[local] Hint Resolve wf_put appendHistory_length getOrCreate_history : xh.

Lemma wf_touch (t : Touch) (s : memStore) : wf s → wf (ObserveTouch t s).
Proof.
  intros Hs. unfold ObserveTouch. case_match; bool_to_prop; [done|].
  apply wf_put; [done..|]. repeat split; simpl; [case_decide; congruence|set_solver|auto with xh].
Qed.

Lemma wf_promote (tgt : TaintState) (l : Z) (a : Time.time) (d : string) (s : memStore) :
  tgt ≠ TaintClean → wf s → wf (promote tgt l a d s).
Proof.
  intros Ht Hs. unfold promote. case_match; [done|].
  destruct (entries s !! l) as [e|] eqn:He; [|done]. case_match; [done|].
  destruct (wf_lookup s l e Hs He) as [? (? & ? & ?)].
  apply wf_put; [done..|]. repeat split; simpl; auto with xh.
Qed.

Lemma wf_inherit (p c : Z) (now : Time.time) (s : memStore) :
  wf s → wf (InheritFromParent p c now s).
Proof.
  intros Hs. unfold InheritFromParent. case_match; [done|]. bool_to_prop.
  destruct (entries s !! p) as [pe|] eqn:He; [|done]. case_decide; [done|].
  destruct (wf_lookup s p pe Hs He) as [? (? & ? & ?)].
  apply wf_put; [done..|]. repeat split; simpl; [|by intros [? _]%empty_union_L|auto with xh].
  case_match; [done|]. bool_to_prop.
  destruct (e_state pe), (e_state (getOrCreate s c)); simpl in *; congruence || lia.
Qed.

Lemma wf_forget (l : Z) (r : ForgetReason) (s : memStore) : wf s → wf (ForgetLineage l r s).1.
Proof.
  intros Hs. unfold ForgetLineage. repeat (case_match; simpl; try done).
  by apply map_Forall_delete.
Qed.

Lemma wf_sweep (now : Time.time) (s : memStore) : wf s → wf (Sweep now s).1.
Proof.
  intros Hs. unfold Sweep. case_match; [done|]. unfold wf; simpl.
  intros l e Hl. apply map_lookup_filter_Some in Hl as [Hl _]. by apply Hs.
Qed.

Lemma wf_exec (o : op) (s : memStore) : wf s → wf (exec o s).
Proof.
  intros Hs. destruct o; simpl.
  - by apply wf_touch.
  - by apply wf_promote.
  - by apply wf_promote.
  - by apply wf_inherit.
  - by apply wf_forget.
  - by apply wf_sweep.
Qed.

Lemma wf_run (ops : list op) (s : memStore) : wf s → wf (run ops s).
Proof. revert s. induction ops as [|o ops IH]; intros s Hs; [done|]. apply IH, wf_exec, Hs. Qed.

Lemma wf_new (age : Time.duration) : wf (NewStore age).
Proof. apply map_Forall_empty. Qed.

#[export] Hint Resolve wf_exec wf_run wf_new : xh.

(** ** Observations of a lineage *)

(** taint value of a lineage: its state and its class set *)
Definition taint : Type := TaintState * gset SecretClass.
Definition bot : taint := (TaintClean, ∅).

Definition max_state (a b : TaintState) : TaintState :=
  if (rank a <? rank b)%nat then b else a.

Definition join (a b : taint) : taint := (max_state a.1 b.1, a.2 ∪ b.2).

Definition taint_le (a b : taint) : Prop := rank a.1 ≤ rank b.1 ∧ a.2 ⊆ b.2.

Definition entry_taint (e : entry) : taint := (e_state e, e_classes e).

Definition taint_of (s : memStore) (l : Z) : taint :=
  if (l =? 0)%Z then bot else from_option entry_taint bot (entries s !! l).

#[export] Instance taint_le_preorder : PreOrder taint_le.
Proof.
  split; [by intros []|]. intros a b c [??] [??]. split; [lia|set_solver].
Qed.

Lemma max_state_rank (a b : TaintState) : rank (max_state a b) = max (rank a) (rank b).
Proof. unfold max_state. case_match; bool_to_prop; lia. Qed.

Lemma join_le_l (a b : taint) : taint_le a (join a b).
Proof. split; simpl; [rewrite max_state_rank; lia|set_solver]. Qed.

Lemma join_bot_r (a : taint) : join a bot = a.
Proof.
  destruct a as [st cl]. unfold join, max_state. simpl. f_equal. apply union_empty_r_L.
Qed.

Lemma taint_of_state (s : memStore) (l : Z) : (taint_of s l).1 = StateForLineage s l.
Proof. unfold taint_of, StateForLineage. case_match; [done|]. by destruct (entries s !! l). Qed.

Lemma taint_of_classes (s : memStore) (l : Z) (c : SecretClass) :
  c ∈ (taint_of s l).2 ↔ c ∈ ClassesForLineage s l.
Proof.
  unfold taint_of, ClassesForLineage. case_match; [set_solver|].
  destruct (entries s !! l); simpl; [|set_solver]. by rewrite elem_of_elements.
Qed.

Lemma taint_of_put_eq (s : memStore) (l : Z) (e : entry) :
  l ≠ 0%Z → taint_of (put s l e) l = entry_taint e.
Proof.
  intros. unfold taint_of. rewrite (proj2 (Z.eqb_neq l 0)) by done.
  simpl. by rewrite lookup_insert_eq.
Qed.

Lemma taint_of_put_ne (s : memStore) (l l' : Z) (e : entry) :
  l ≠ l' → taint_of (put s l e) l' = taint_of s l'.
Proof. intros. unfold taint_of. simpl. by rewrite lookup_insert_ne. Qed.

Lemma taint_of_getOrCreate (s : memStore) (l : Z) :
  l ≠ 0%Z → entry_taint (getOrCreate s l) = taint_of s l.
Proof.
  intros. unfold taint_of, getOrCreate. rewrite (proj2 (Z.eqb_neq l 0)) by done.
  by destruct (entries s !! l).
Qed.

(** ** Abstract specification

    A lineage's taint is an element of a join semilattice.  Touching joins in
    [(SecretTouched, {c})]; a promotion joins in the target state unless the
    lineage is clean; inheritance joins in the parent's value; forgetting
    resets one lineage; a sweep may reset any lineage and touches no other. *)

Definition abs : Type := Z → taint.

Definition upd (a : abs) (l : Z) (v : taint) : abs := λ l', if decide (l' = l) then v else a l'.

Definition abs_promote (a : abs) (l : Z) (tgt : TaintState) : abs :=
  if decide ((a l).1 = TaintClean) then a else upd a l (join (a l) (tgt, ∅)).

Definition abs_exec (o : op) (a : abs) : abs :=
  match o with
  | OpTouch t =>
      let l := touch_LineageID t in
      if decide (l = 0%Z) then a
      else upd a l (join (a l) (TaintSecretTouched, {[touch_SecretClass t]}))
  | OpPromoteOutbound l _ _ => abs_promote a l TaintOutboundRestricted
  | OpPromoteContainment l _ _ => abs_promote a l TaintContainmentRequired
  | OpInherit p c _ => if decide (c = 0%Z) then a else upd a c (join (a c) (a p))
  | OpForget l _ => upd a l bot
  | OpSweep _ => a
  end.

Definition abs_step (o : op) (a a' : abs) : Prop :=
  match o with
  | OpSweep _ => ∀ l, a' l = a l ∨ a' l = bot
  | _ => ∀ l, a' l = abs_exec o a l
  end.

Lemma taint_of_zero (s : memStore) : taint_of s 0 = bot.
Proof. done. Qed.

Lemma touch_refines (t : Touch) (s : memStore) (l : Z) :
  taint_of (ObserveTouch t s) l = abs_exec (OpTouch t) (taint_of s) l.
Proof.
  simpl. unfold ObserveTouch. destruct (touch_LineageID t =? 0)%Z eqn:Hz; bool_to_prop.
  { by rewrite decide_True. }
  rewrite (decide_False (P := touch_LineageID t = 0%Z)) by done. unfold upd.
  destruct (decide (l = touch_LineageID t)) as [->|Hl]; [|by rewrite taint_of_put_ne].
  rewrite taint_of_put_eq, <-taint_of_getOrCreate by done.
  unfold entry_taint, join, max_state. simpl.
  f_equal; [|set_solver]. by destruct (e_state (getOrCreate _ _)).
Qed.

Lemma promote_refines (tgt : TaintState) (l0 : Z) (a : Time.time) (d : string) (s : memStore) (l : Z) :
  wf s → taint_of (promote tgt l0 a d s) l = abs_promote (taint_of s) l0 tgt l.
Proof.
  intros Hs. unfold promote, abs_promote. destruct (l0 =? 0)%Z eqn:Hz; bool_to_prop.
  { subst. by rewrite taint_of_zero. }
  assert (taint_of s l0 = from_option entry_taint bot (entries s !! l0)) as Ht.
  { unfold taint_of. by rewrite (proj2 (Z.eqb_neq l0 0)). }
  rewrite Ht. destruct (entries s !! l0) as [e|] eqn:He; simpl; [|done].
  destruct (wf_lookup s l0 e Hs He) as [_ (Hne & _)].
  rewrite decide_False by done. unfold upd.
  case_match; bool_to_prop; case_decide as Hl; try subst l.
  - rewrite Ht. unfold join, max_state, entry_taint. simpl.
    rewrite (proj2 (Nat.ltb_ge _ _)) by done. f_equal. set_solver.
  - done.
  - rewrite taint_of_put_eq by done. unfold join, max_state, entry_taint. simpl.
    rewrite (proj2 (Nat.ltb_lt _ _)) by done. f_equal. set_solver.
  - by rewrite taint_of_put_ne.
Qed.

Lemma inherit_refines (p c : Z) (now : Time.time) (s : memStore) (l : Z) :
  wf s → taint_of (InheritFromParent p c now s) l = abs_exec (OpInherit p c now) (taint_of s) l.
Proof.
  intros Hs. simpl. unfold InheritFromParent, upd.
  destruct (decide (c = 0%Z)) as [->|Hc].
  { by rewrite orb_true_r. }
  assert (p = 0%Z ∨ p = c ∨ (p ≠ 0%Z ∧ p ≠ c)) as [->|[->|[Hp Hpc]]] by lia.
  - simpl. rewrite taint_of_zero, join_bot_r. by case_decide; subst.
  - rewrite Z.eqb_refl, orb_true_r. case_decide; [subst l|done].
    unfold join, max_state. rewrite Nat.ltb_irrefl. destruct (taint_of s c); simpl. f_equal. set_solver.
  - rewrite !(proj2 (Z.eqb_neq _ _)) by done. simpl.
    assert (taint_of s p = from_option entry_taint bot (entries s !! p)) as Ht.
    { unfold taint_of. by rewrite (proj2 (Z.eqb_neq p 0)). }
    rewrite Ht. destruct (entries s !! p) as [pe|] eqn:He; simpl.
    + destruct (wf_lookup s p pe Hs He) as [_ (Hne & _)]. rewrite decide_False by done.
      case_decide; [subst l|by rewrite taint_of_put_ne].
      rewrite taint_of_put_eq, <-taint_of_getOrCreate by done.
      unfold join, max_state, entry_taint. simpl. f_equal. set_solver.
    + rewrite join_bot_r. by case_decide; subst.
Qed.

Lemma forget_refines (l0 : Z) (r : ForgetReason) (s : memStore) (l : Z) :
  taint_of (ForgetLineage l0 r s).1 l = upd (taint_of s) l0 bot l.
Proof.
  unfold ForgetLineage, upd. destruct (decide (l = l0)) as [->|Hl].
  - unfold taint_of. destruct (l0 =? 0)%Z eqn:Hz; [done|].
    destruct (entries s !! l0) eqn:He; simpl; [by rewrite lookup_delete_eq|by rewrite He].
  - case_match; [done|]. destruct (entries s !! l0) eqn:He; [|done].
    unfold taint_of. simpl. by rewrite lookup_delete_ne by congruence.
Qed.

Lemma sweep_refines (now : Time.time) (s : memStore) (l : Z) :
  taint_of (Sweep now s).1 l = taint_of s l ∨ taint_of (Sweep now s).1 l = bot.
Proof.
  unfold Sweep. case_match; [by left|]. unfold taint_of, swept. case_match; [by left|]. simpl.
  rewrite map_lookup_filter. destruct (entries s !! l) as [e|]; simpl; [|by left].
  case_guard; simpl; eauto.
Qed.

Lemma exec_refines (o : op) (s : memStore) :
  wf s → abs_step o (taint_of s) (taint_of (exec o s)).
Proof.
  intros Hs. destruct o; simpl; intros l.
  - apply touch_refines.
  - by apply promote_refines.
  - by apply promote_refines.
  - by apply inherit_refines.
  - apply forget_refines.
  - apply sweep_refines.
Qed.

Lemma upd_join_mono (a : abs) (l l' : Z) (v : taint) : taint_le (a l') (upd a l (join (a l) v) l').
Proof. unfold upd. case_decide; subst; [apply join_le_l|reflexivity]. Qed.

Lemma abs_promote_mono (a : abs) (l l' : Z) (tgt : TaintState) :
  taint_le (a l') (abs_promote a l tgt l').
Proof. unfold abs_promote. case_decide; [reflexivity|apply upd_join_mono]. Qed.

Lemma exec_mono (o : op) (s : memStore) (l : Z) :
  wf s → clears l o = false → taint_le (taint_of s l) (taint_of (exec o s) l).
Proof.
  intros Hs Hc. pose proof (exec_refines o s Hs) as Href.
  destruct o as [t|l0 a r|l0 a r|p c now|l0 r|now]; simpl in Hc, Href; try discriminate Hc;
    simpl; rewrite (Href l); [|apply abs_promote_mono..|case_decide; [reflexivity|apply upd_join_mono]|].
  - case_decide; [reflexivity|apply upd_join_mono].
  - bool_to_prop. unfold upd. rewrite decide_False by congruence. reflexivity.
Qed.

Lemma run_mono (ops : list op) (s : memStore) (l : Z) :
  wf s → forallb (λ o, negb (clears l o)) ops = true →
  taint_le (taint_of s l) (taint_of (run ops s) l).
Proof.
  revert s. induction ops as [|o ops IH]; intros s Hs Hc; simpl in *; [reflexivity|].
  bool_to_prop. trans (taint_of (exec o s) l); [by apply exec_mono|by apply IH; [apply wf_exec|]].
Qed.

(** spawn events along a chain of lineages, oldest first, as the spawn hook
    would deliver them *)
Fixpoint spawn_chain (now : Time.time) (l : Z) (ls : list Z) : list op :=
  match ls with
  | [] => []
  | c :: ls' => OpInherit l c now :: spawn_chain now c ls'
  end.

Lemma inherit_le (p c : Z) (now : Time.time) (s : memStore) :
  wf s → c ≠ 0%Z → taint_le (taint_of s p) (taint_of (InheritFromParent p c now s) c).
Proof.
  intros Hs Hc. rewrite inherit_refines by done. simpl. rewrite decide_False by done.
  unfold upd. rewrite decide_True by done. split; simpl; [rewrite max_state_rank; lia|set_solver].
Qed.

Lemma spawn_chain_le (now : Time.time) (ls : list Z) : ∀ (l : Z) (s : memStore),
  wf s → Forall (λ c, c ≠ 0%Z) ls →
  taint_le (taint_of s l) (taint_of (run (spawn_chain now l ls) s) (List.last ls l)).
Proof.
  induction ls as [|c ls IH]; intros l s Hs Hls; [reflexivity|].
  apply Forall_cons in Hls as [Hc Hls].
  rewrite last_default_cons.
  trans (taint_of (InheritFromParent l c now s) c); [by apply inherit_le|].
  apply IH; [by apply wf_inherit|done].
Qed.

(** ** Properties *)

(** C1: every operation of the store implements the taint-lattice
    specification on every store the program can reach: a touch joins the
    class in, a promotion raises only tainted lineages, inheritance joins the
    parent's taint into the child, forgetting resets exactly one lineage and a
    sweep resets lineages without altering the others. *)
Theorem store_refines_taint_lattice (age : Time.duration) (ops : list op) (o : op) :
  let s := run ops (NewStore age) in abs_step o (taint_of s) (taint_of (exec o s)).
Proof. simpl. apply exec_refines. auto with xh. Qed.

(** C40: taint never silently decays: over any sequence of operations that
    contains neither a forget of the lineage nor a sweep, the lineage's state
    never goes down and it never loses a secret class. *)
Theorem taint_never_decays (age : Time.duration) (pre ops : list op) (l : Z) :
  let s := run pre (NewStore age) in
  forallb (λ o, negb (clears l o)) ops = true →
  rank (StateForLineage s l) ≤ rank (StateForLineage (run ops s) l) ∧
  ∀ c, c ∈ ClassesForLineage s l → c ∈ ClassesForLineage (run ops s) l.
Proof.
  intros s Hc. destruct (run_mono ops s l (wf_run _ _ (wf_new age)) Hc) as [Hr Hsub].
  rewrite !taint_of_state in Hr. split; [done|].
  intros c. rewrite <-!taint_of_classes. set_solver.
Qed.

Definition demo_touch : Touch :=
  {| touch_PID := 10; touch_LineageID := 7; touch_SourceID := 0;
     touch_SecretClass := SecretKubeToken; touch_Path := "/run/secrets/kubernetes.io/x";
     touch_At := 100 |}.

Lemma taint_never_decays_witness :
  let s := run [OpTouch demo_touch] (NewStore 0) in
  let ops := [OpPromoteOutbound 7 200 "novel"; OpInherit 7 8 300; OpForget 8 ForgetLineageExit] in
  rank (StateForLineage s 7) ≤ rank (StateForLineage (run ops s) 7) ∧
  ∀ c, c ∈ ClassesForLineage s 7 → c ∈ ClassesForLineage (run ops s) 7.
Proof. intros s ops. apply (taint_never_decays 0 [OpTouch demo_touch] ops 7). reflexivity. Defined.

(** on every reachable store a lineage is reported tainted exactly when it
    is tracked, and then it has at least one recorded secret class and at most
    16 audit records: no lineage is tainted without evidence and clean
    lineages cannot be promoted. *)
Theorem tainted_iff_tracked_with_evidence (age : Time.duration) (ops : list op) (l : Z) :
  let s := run ops (NewStore age) in
  (StateForLineage s l ≠ TaintClean ↔ is_Some (entries s !! l)) ∧
  (is_Some (entries s !! l) →
   ClassesForLineage s l ≠ [] ∧ 0 < Size s ∧ length (History s l) ≤ historyMax).
Proof.
  intros s. assert (wf s) as Hs by (apply wf_run, wf_new).
  assert (is_Some (entries s !! l) → l ≠ 0%Z ∧ ∃ e, entries s !! l = Some e ∧ entry_ok e) as Hl.
  { intros [e He]. destruct (wf_lookup s l e Hs He). eauto. }
  unfold StateForLineage, ClassesForLineage, History. split.
  - split.
    + case_match; [done|]. destruct (entries s !! l); [eauto|done].
    + intros Ht. destruct (Hl Ht) as (Hz & e & He & Hok).
      rewrite (proj2 (Z.eqb_neq l 0)), He by done. apply Hok.
  - intros Ht. destruct (Hl Ht) as (Hz & e & He & (? & Hcl & ?)).
    rewrite (proj2 (Z.eqb_neq l 0)), He by done. split_and!; [|by eapply map_size_pos|done].
    intros Hn%elements_empty_iff. by apply leibniz_equiv in Hn.
Qed.

(** taint follows a spawn chain: after the spawn hook has delivered the
    inheritance of every process of a chain, the last descendant is at least
    as tainted as the process at the head, in state and in classes. *)
Theorem taint_follows_spawn_chain (age : Time.duration) (pre : list op) (now : Time.time)
    (l : Z) (ls : list Z) :
  let s := run pre (NewStore age) in
  let s' := run (spawn_chain now l ls) s in
  Forall (λ c, c ≠ 0%Z) ls →
  rank (StateForLineage s l) ≤ rank (StateForLineage s' (List.last ls l)) ∧
  ∀ c, c ∈ ClassesForLineage s l → c ∈ ClassesForLineage s' (List.last ls l).
Proof.
  intros s s' Hls.
  destruct (spawn_chain_le now ls l s (wf_run _ _ (wf_new age)) Hls) as [Hr Hsub].
  fold s' in Hr, Hsub. rewrite !taint_of_state in Hr. split; [done|].
  intros c. rewrite <-!taint_of_classes. set_solver.
Qed.

Lemma taint_follows_spawn_chain_witness :
  let s := run [OpTouch demo_touch; OpPromoteContainment 7 150 "persist"] (NewStore 0) in
  let s' := run (spawn_chain 200 7 [8; 9]%Z) s in
  rank (StateForLineage s 7) ≤ rank (StateForLineage s' 9) ∧
  ∀ c, c ∈ ClassesForLineage s 7 → c ∈ ClassesForLineage s' 9.
Proof.
  apply (taint_follows_spawn_chain 0 [OpTouch demo_touch; OpPromoteContainment 7 150 "persist"]
           200 7 [8; 9]%Z).
  repeat constructor; discriminate.
Defined.

(** a sweep clears exactly the lineages whose last observation is older
    than the configured age, leaves every other entry as it was, and reports
    how many it removed; with no age configured it does nothing. *)
Theorem sweep_clears_exactly_expired (now : Time.time) (s : memStore) (l : Z) :
  let '(s', n) := Sweep now s in
  size (entries s) = size (entries s') + n ∧
  entries s' !! l =
    match entries s !! l with
    | Some e => if (maxAge s <=? 0)%Z || negb (Time.Before (e_lastSeen e) (now - maxAge s)%Z)
                then Some e else None
    | None => None
    end.
Proof.
  unfold Sweep. destruct (maxAge s <=? 0)%Z eqn:Ha; simpl.
  { split; [lia|]. by destruct (entries s !! l). }
  split.
  - assert (size (swept now s) ≤ size (entries s)); [|lia].
    rewrite <-!size_dom. apply subseteq_size, dom_filter_subseteq.
  - unfold swept. rewrite map_lookup_filter. destruct (entries s !! l) as [e|]; simpl; [|done].
    unfold Time.Add. replace (now + - maxAge s)%Z with (now - maxAge s)%Z by lia.
    by destruct (Time.Before _ _).
Qed.

(** an event is reported as a secret touch only for one of the four
    detection sources: cloud-metadata traffic, a procfs environment scrape, a
    read of a classified path seen by a file sensor, or a credential-broker
    release, which is always reported. *)
Theorem classify_sources (ev : Event) :
  (is_Some (ClassifyEvent ev) →
   (ev_Sensor ev = "ebpf.net" ∧ ClassifyEvent ev = Some SecretMetadata) ∨
   ((ev_Sensor ev = "procscrape" ∨ tag ev "proc_scrape" = "environ") ∧
      (ClassifyEvent ev = Some SecretProcEnviron)) ∨
   ((ev_Sensor ev = "ebpf.file" ∨ ev_Sensor ev = "fim") ∧ isReadAction (ev_Tags ev) = true ∧
      ClassifyEvent ev = classifyPath (tag ev "path")) ∨
   ev_Sensor ev = "credbroker") ∧
  (ev_Sensor ev = "credbroker" → is_Some (ClassifyEvent ev)).
Proof.
  unfold ClassifyEvent.
  destruct (bool_decide (ev_Sensor ev = "ebpf.net") && _) eqn:H1; bool_to_prop; [naive_solver|].
  destruct (bool_decide (ev_Sensor ev = "procscrape") || _) eqn:H2; bool_to_prop.
  { apply orb_true_iff in H2 as [H2|H2]; bool_to_prop; naive_solver. }
  destruct ((bool_decide (ev_Sensor ev = "ebpf.file") || _) && _ && _) eqn:H3.
  - rewrite !andb_true_iff, orb_true_iff, !bool_decide_eq_true in H3. destruct H3 as [[H3 _] Hr].
    destruct (classifyPath _) as [c|]; [naive_solver|].
    destruct (bool_decide (ev_Sensor ev = "credbroker")) eqn:H4; bool_to_prop; [naive_solver|].
    split; [by intros []|done].
  - destruct (bool_decide (ev_Sensor ev = "credbroker")) eqn:H4; bool_to_prop; [naive_solver|].
    split; [by intros []|done].
Qed.
