(* ===== verification/Chain.v ===== *)
(** * Tamper-evident event chain (src/pkg/chain)

    Batches of events are written to files [<hex batch id>.bin], each with a
    header that carries the hash of the previous batch and a signature.  The
    directory is a map from file names to contents.  SHA-256, Ed25519 and the
    JSON encoder are section variables; the only facts used about them are the
    named hypotheses (output sizes, and that a signature made with the host key
    verifies). *)

From S2P Require Import Prelude GoStd Bytes Model.

Record Header := {
  BatchID : Z;
  StartTime : Time.time;
  EndTime : Time.time;
  EventCount : Z;
  PrevHash : bytes;
  BodyHash : bytes;
  Signature : bytes;
  HostKeyID : bytes
}.

Definition zero_hash : bytes := replicate 32 0%Z.

(** [UnixNano()] as the 64 bits binary.Write emits *)
Definition unix_nano (t : Time.time) : Z := u64 t.

Definition headerBytes (h : Header) : bytes :=
  le_enc 8 (BatchID h) ++ le_enc 8 (unix_nano (StartTime h)) ++ le_enc 8 (unix_nano (EndTime h)) ++
  le_enc 4 (EventCount h) ++ PrevHash h ++ BodyHash h ++ Signature h ++ HostKeyID h.

#[global] Arguments headerBytes : simpl never.
#[global] Arguments le_enc : simpl never.

(** the bytes [writeBatch] puts in the file *)
Definition batchBytes (h : Header) (body : bytes) : bytes :=
  let hb := headerBytes h in
  le_enc 4 (Z.of_nat (length hb)) ++ hb ++ le_enc 4 (Z.of_nat (length body)) ++ body.

Definition decodeHeader (b : bytes) : Header :=
  let '(id, b1) := read_uint 8 b in
  let '(startNs, b2) := read_uint 8 b1 in
  let '(endNs, b3) := read_uint 8 b2 in
  let '(cnt, b4) := read_uint 4 b3 in
  let '(ph, b5) := read_array 32 b4 in
  let '(bh, b6) := read_array 32 b5 in
  let '(sg, b7) := read_array 64 b6 in
  let '(hk, _) := read_array 16 b7 in
  {| BatchID := id; StartTime := i64 startNs; EndTime := i64 endNs; EventCount := cnt;
     PrevHash := ph; BodyHash := bh; Signature := sg; HostKeyID := hk |}.

(** reading a batch file; [None] is an I/O error (short file) *)
Definition readBatch (f : bytes) : option (Header * bytes) :=
  '(hl, f1) ← read_full 4 f;
  '(hb, f2) ← read_full (Z.to_nat (le_dec hl)) f1;
  '(bl, f3) ← read_full 4 f2;
  '(body, _) ← read_full (Z.to_nat (le_dec bl)) f3;
  Some (decodeHeader hb, body).

(** ** The directory *)

Abbreviation directory := (gmap string (list Z)) (only parsing).

Definition batchName (id : Z) : string := hex16 id +:+ ".bin".

Definition isBatchName (name : string) : bool :=
  Str.HasSuffix name ".bin" && negb (Str.HasSuffix name ".tmp").

(** the batch files, sorted by name *)
Definition batchFiles (d : directory) : list string :=
  merge_sort String.le (filter (λ n, isBatchName n = true) (some_order d)).

(** Result of [Verify]: how many batches were accepted, and the first error. *)
Inductive verify_error : Type :=
  | ErrRead (file : string)
  | ErrPrevHash (id : Z)
  | ErrBodyHash (id : Z)
  | ErrSignature (id : Z).

Inductive chain_error : Type := ErrKeyRequired | ErrMarshal | ErrWrite (msg : string) | ErrReadBatch.

Record Chain := {
  BatchCap : Z;
  BodyCap : Z;
  MaxBatches : Z;
  current : list Event;
  bodyBytes : Z;
  nextBatchID : Z;
  prevHash : bytes
}.

(** ** Encoding facts *)

Definition header_ok (h : Header) : Prop :=
  (0 ≤ BatchID h < 2 ^ 64)%Z ∧ (min_int64 ≤ StartTime h ≤ max_int64)%Z ∧
  (min_int64 ≤ EndTime h ≤ max_int64)%Z ∧ (0 ≤ EventCount h < 2 ^ 32)%Z ∧
  length (PrevHash h) = 32 ∧ length (BodyHash h) = 32 ∧ length (Signature h) = 64 ∧
  length (HostKeyID h) = 16.

Lemma headerBytes_length (h : Header) : header_ok h → length (headerBytes h) = 172.
Proof.
  intros (_ & _ & _ & _ & H1 & H2 & H3 & H4). unfold headerBytes.
  rewrite !length_app, !le_enc_length, H1, H2, H3, H4. done.
Qed.

Lemma decodeHeader_encode (h : Header) : header_ok h → decodeHeader (headerBytes h) = h.
Proof.
  intros (Hid & Hst & Hen & Hc & H1 & H2 & H3 & H4). unfold decodeHeader, headerBytes.
  rewrite read_uint_enc by done. rewrite !read_uint_enc by (apply u64_bound || done).
  rewrite !read_array_app by done. rewrite <-(app_nil_r (HostKeyID h)), read_array_app by done.
  unfold unix_nano. rewrite !i64_u64 by done. by destruct h.
Qed.

(** whatever bytes a file holds, the decoded header is in range *)
Lemma decodeHeader_ok (b : bytes) : Forall byte_ok b → header_ok (decodeHeader b).
Proof.
  intros Hb. unfold decodeHeader.
  destruct (read_uint 8 b) as [id b1] eqn:E1. destruct (read_uint 8 b1) as [st b2] eqn:E2.
  destruct (read_uint 8 b2) as [en b3] eqn:E3. destruct (read_uint 4 b3) as [cnt b4] eqn:E4.
  destruct (read_uint_bound 8 b Hb) as [Hid Hb1]. rewrite E1 in Hid, Hb1. simpl in Hb1.
  destruct (read_uint_bound 8 b1 Hb1) as [_ Hb2]. rewrite E2 in Hb2. simpl in Hb2.
  destruct (read_uint_bound 8 b2 Hb2) as [_ Hb3]. rewrite E3 in Hb3. simpl in Hb3.
  destruct (read_uint_bound 4 b3 Hb3) as [Hcnt _]. rewrite E4 in Hcnt.
  unfold header_ok. cbn [BatchID StartTime EndTime EventCount PrevHash BodyHash Signature HostKeyID].
  split_and!; try apply Hid; try apply Hcnt; try apply i64_range; apply read_array_length.
Qed.

Lemma headerBytes_inj (h h' : Header) :
  header_ok h → header_ok h' → headerBytes h = headerBytes h' → h = h'.
Proof.
  intros Hh Hh' Heq. rewrite <-(decodeHeader_encode h Hh), Heq. by apply decodeHeader_encode.
Qed.

Lemma linked_input_inj (h h' : Header) (b b' : bytes) :
  header_ok h → header_ok h' → headerBytes h ++ b = headerBytes h' ++ b' → h = h' ∧ b = b'.
Proof.
  intros Hh Hh' Heq. apply app_inj_1 in Heq as [H1 H2]; [|by rewrite !headerBytes_length].
  split; [by apply headerBytes_inj|done].
Qed.

Definition body_fits (b : bytes) : Prop := (Z.of_nat (length b) < 2 ^ 32)%Z.

(** reading back a written batch gives its header and body *)
Lemma readBatch_write (h : Header) (body : bytes) :
  header_ok h → body_fits body → readBatch (batchBytes h body) = Some (h, body).
Proof.
  intros Hh Hb. unfold readBatch, batchBytes. rewrite headerBytes_length by done.
  rewrite read_full_app' by apply le_enc_length. cbn [mbind option_bind].
  rewrite le_dec_enc_small by lia.
  rewrite read_full_app' by (rewrite headerBytes_length by done; reflexivity). cbn [mbind option_bind].
  rewrite read_full_app' by apply le_enc_length. cbn [mbind option_bind].
  unfold body_fits in Hb. rewrite le_dec_enc_small by lia.
  rewrite <-(app_nil_r body) at 2. rewrite read_full_app' by lia. cbn [mbind option_bind].
  by rewrite decodeHeader_encode.
Qed.

Section chain.
Context (sha256 : bytes → bytes).
Context (Sign : bytes → bytes).
Context (VerifySig : bytes → bytes → bool).
Context (marshal : Event → option bytes).
Context (keyID : bytes).

(** an event's line in the body: the encoder appends a newline; an event that
    does not encode contributes nothing *)
Definition encodeEvent (ev : Event) : bytes :=
  match marshal ev with Some b => b ++ [10%Z] | None => [] end.

Definition encodeBody (evs : list Event) : bytes := concat (encodeEvent <$> evs).

(** hash that the next batch must carry *)
Definition linkHash (h : Header) (body : bytes) : bytes := sha256 (headerBytes h ++ body).

Definition makeHeader (c : Chain) (now : Time.time) : Header :=
  let bh := sha256 (encodeBody (current c)) in
  let st := from_option ev_Time now (head (current c)) in
  let en := from_option ev_Time now (last (current c)) in
  {| BatchID := nextBatchID c;
     StartTime := if Time.IsZero st then now else st;
     EndTime := if Time.IsZero en then now else en;
     EventCount := u32 (Z.of_nat (length (current c)));
     PrevHash := prevHash c;
     BodyHash := bh;
     Signature := to_array 64 (Sign (prevHash c ++ bh));
     HostKeyID := keyID |}.

(** deletes the oldest files over the cap; [removable] says which removals the
    operating system grants, failures are ignored *)
Definition rotateLocked (removable : string → bool) (c : Chain) (d : directory) : directory :=
  let files := batchFiles d in
  let excess := (Z.of_nat (length files) - MaxBatches c)%Z in
  if (excess <=? 0)%Z then d
  else foldr (λ f d', if removable f then delete f d' else d') d (take (Z.to_nat excess) files).

Definition after_write (c : Chain) (h : Header) (body : bytes) : Chain :=
  {| BatchCap := BatchCap c; BodyCap := BodyCap c; MaxBatches := MaxBatches c; current := [];
     bodyBytes := 0; nextBatchID := u64 (nextBatchID c + 1); prevHash := linkHash h body |}.

(** [werr] is the error, if any, of writing the temporary file and renaming it;
    a failed write leaves the batch in progress in place *)
Definition finaliseLocked (now : Time.time) (werr : option string) (removable : string → bool)
    (c : Chain) (d : directory) : Chain * directory * option chain_error :=
  match current c with
  | [] => (c, d, None)
  | _ =>
      let h := makeHeader c now in
      let body := encodeBody (current c) in
      match werr with
      | Some e => (c, d, Some (ErrWrite e))
      | None =>
          let d1 := <[batchName (BatchID h) := batchBytes h body]> d in
          let c1 := after_write c h body in
          let d2 := if (0 <? MaxBatches c)%Z then rotateLocked removable c1 d1 else d1 in
          (c1, d2, None)
      end
  end.

Definition Add (ev : Event) (now : Time.time) (werr : option string) (removable : string → bool)
    (c : Chain) (d : directory) : Chain * directory * option chain_error :=
  match marshal ev with
  | None => (c, d, Some ErrMarshal)
  | Some b =>
      let c' := {| BatchCap := BatchCap c; BodyCap := BodyCap c; MaxBatches := MaxBatches c;
                   current := current c ++ [ev];
                   bodyBytes := (bodyBytes c + Z.of_nat (length b) + 1)%Z;
                   nextBatchID := nextBatchID c; prevHash := prevHash c |} in
      if (BatchCap c' <=? Z.of_nat (length (current c')))%Z || (BodyCap c' <=? bodyBytes c')%Z
      then finaliseLocked now werr removable c' d
      else (c', d, None)
  end.

Definition Tick (now : Time.time) (werr : option string) (removable : string → bool)
    (c : Chain) (d : directory) : Chain * directory * option chain_error :=
  match current c with
  | [] => (c, d, None)
  | _ => finaliseLocked now werr removable c d
  end.

(** a fresh chain object before [resume] *)
Definition freshChain (maxBatches : Z) : Chain :=
  {| BatchCap := 10000; BodyCap := 4 * 1024 * 1024; MaxBatches := maxBatches; current := [];
     bodyBytes := 0; nextBatchID := 0; prevHash := zero_hash |}.

Definition resume (c : Chain) (d : directory) : result chain_error Chain :=
  match last (batchFiles d) with
  | None => Ok c
  | Some f =>
      match readBatch (default [] (d !! f)) with
      | None => Err ErrReadBatch
      | Some (h, body) =>
          Ok {| BatchCap := BatchCap c; BodyCap := BodyCap c; MaxBatches := MaxBatches c;
                current := current c; bodyBytes := bodyBytes c;
                nextBatchID := u64 (BatchID h + 1); prevHash := linkHash h body |}
      end
  end.

(** [New]: [maxBatches] is the cap the daemon sets on the new chain *)
Definition New (has_key : bool) (maxBatches : Z) (d : directory) : result chain_error Chain :=
  if negb has_key then Err ErrKeyRequired else resume (freshChain maxBatches) d.

(** the loop of [Verify] over the files, [i] accepted so far *)
Fixpoint verifyFrom (d : directory) (i : nat) (prev : bytes) (files : list string) :
    nat * option verify_error :=
  match files with
  | [] => (i, None)
  | f :: fs =>
      match readBatch (default [] (d !! f)) with
      | None => (i, Some (ErrRead f))
      | Some (h, body) =>
          if negb (bool_decide (PrevHash h = prev)) then (i, Some (ErrPrevHash (BatchID h)))
          else if negb (bool_decide (sha256 body = BodyHash h)) then (i, Some (ErrBodyHash (BatchID h)))
          else if negb (VerifySig (PrevHash h ++ BodyHash h) (Signature h))
          then (i, Some (ErrSignature (BatchID h)))
          else verifyFrom d (S i) (linkHash h body) fs
      end
  end.

Definition Verify (d : directory) : nat * option verify_error :=
  verifyFrom d 0 zero_hash (batchFiles d).

(** ** Chains of batches *)

Abbreviation batch := (Header * bytes)%type (only parsing).

(** the checks [Verify] makes on consecutive batches starting from [prev] *)
Fixpoint linked (prev : bytes) (bs : list batch) : Prop :=
  match bs with
  | [] => True
  | (h, body) :: bs' =>
      PrevHash h = prev ∧ sha256 body = BodyHash h ∧
      VerifySig (PrevHash h ++ BodyHash h) (Signature h) = true ∧ linked (linkHash h body) bs'
  end.

(** the hash a successor of [bs] must carry *)
Definition tailHash (prev : bytes) (bs : list batch) : bytes :=
  foldl (λ _ b, linkHash b.1 b.2) prev bs.

Lemma linked_app (prev : bytes) (bs bs' : list batch) :
  linked prev (bs ++ bs') ↔ linked prev bs ∧ linked (tailHash prev bs) bs'.
Proof.
  clear Sign keyID. revert prev. induction bs as [|[h body] bs IH]; intros prev; simpl; [tauto|].
  rewrite IH. unfold tailHash. simpl. tauto.
Qed.

Lemma tailHash_app (prev : bytes) (bs bs' : list batch) :
  tailHash prev (bs ++ bs') = tailHash (tailHash prev bs) bs'.
Proof. unfold tailHash. by rewrite foldl_app. Qed.

(** [verifyFrom] accepts exactly the file lists that decode to linked batches *)
Lemma verifyFrom_spec (d : directory) (fs : list string) : ∀ (i : nat) (prev : bytes) (n : nat),
  verifyFrom d i prev fs = (n, None) ↔
  n = i + length fs ∧
  ∃ bs, Forall2 (λ f b, readBatch (default [] (d !! f)) = Some b) fs bs ∧ linked prev bs.
Proof.
  induction fs as [|f fs IH]; intros i prev n; simpl.
  - split.
    + intros [= <-]. split; [lia|]. by exists [].
    + intros [-> _]. by rewrite Nat.add_0_r.
  - destruct (readBatch (default [] (d !! f))) as [[h body]|] eqn:Hr.
    2:{ split; [done|]. intros (_ & bs & Hf & _). inversion Hf; simplify_eq. }
    split.
    + case_bool_decide as Hp; [|done]. case_bool_decide as Hb; [|done]. simpl.
      destruct (VerifySig _ _) eqn:Hs; [|done]. simpl. intros Hv%IH.
      destruct Hv as (-> & bs & Hf & Hl). split; [lia|].
      exists ((h, body) :: bs). split; [by constructor|]. simpl. by subst.
    + intros (-> & bs & Hf & Hl). inversion Hf as [|? b ? bs' Hr' Hf']; simplify_eq.
      destruct Hl as (-> & Hb & Hs & Hl).
      rewrite !bool_decide_eq_true_2 by done. rewrite Hs. simpl. apply IH.
      split; [lia|]. eauto.
Qed.

(** a collision the two chains themselves exhibit: at some position they hold
    different bytes under one and the same link hash *)
Definition link_collision (bs bs' : list batch) : Prop :=
  ∃ i b b', bs !! i = Some b ∧ bs' !! i = Some b' ∧
    headerBytes b.1 ++ b.2 ≠ headerBytes b'.1 ++ b'.2 ∧ linkHash b.1 b.2 = linkHash b'.1 b'.2.

Lemma link_collision_app (bs bs' cs cs' : list batch) :
  link_collision bs bs' → link_collision (bs ++ cs) (bs' ++ cs').
Proof.
  intros (i & b & b' & Hb & Hb' & H). exists i, b, b'.
  by rewrite (lookup_app_l_Some _ _ _ _ Hb), (lookup_app_l_Some _ _ _ _ Hb').
Qed.

(** Two linked chains of the same length that end in the same batch are the
    same chain, or they exhibit a collision. *)
Lemma linked_same_tail (bs : list batch) : ∀ (prev prev' : bytes) (bs' : list batch) (b : batch),
  length bs = length bs' →
  Forall (λ b, header_ok b.1) bs → Forall (λ b, header_ok b.1) bs' →
  linked prev (bs ++ [b]) → linked prev' (bs' ++ [b]) → bs = bs' ∨ link_collision bs bs'.
Proof.
  clear Sign keyID.
  induction bs as [|[h1 c1] bs IH] using rev_ind; intros prev prev' bs' b Hlen Hok Hok' Hl Hl'.
  { left. by destruct bs'. }
  destruct bs' as [|[h2 c2] bs' _] using rev_ind.
  { rewrite length_app in Hlen. simpl in Hlen. lia. }
  rewrite !length_app in Hlen. simpl in Hlen.
  rewrite Forall_app, Forall_singleton in Hok, Hok'.
  destruct Hok as [Hok Hh1], Hok' as [Hok' Hh2].
  apply linked_app in Hl as [Hl Ht]. apply linked_app in Hl' as [Hl' Ht'].
  destruct b as [h c]. destruct Ht as [Hp _], Ht' as [Hp' _].
  rewrite tailHash_app in Hp, Hp'. unfold tailHash, linkHash in Hp, Hp'.
  cbn [foldl fst snd] in Hp, Hp', Hh1, Hh2.
  destruct (decide (headerBytes h1 ++ c1 = headerBytes h2 ++ c2)) as [Heq|Hne].
  - destruct (linked_input_inj h1 h2 c1 c2 Hh1 Hh2 Heq) as [-> ->].
    destruct (IH prev prev' bs' (h2, c2)) as [->|?]; [lia|done..|by left|].
    right. by apply link_collision_app.
  - right. exists (length bs), (h1, c1), (h2, c2).
    assert (length bs = length bs') as Hl2 by lia.
    rewrite list_lookup_middle by done. rewrite Hl2, list_lookup_middle by done.
    unfold linkHash. cbn [fst snd]. split_and!; [done..|exact Hne|congruence].
Qed.

(** ** Directories the chain writes *)

Definition nameOf (b : batch) : string := batchName (BatchID b.1).

Definition dirOf (bs : list batch) : directory :=
  list_to_map ((λ b, (nameOf b, batchBytes b.1 b.2)) <$> bs).

(** batch ids count up from [k] *)
Definition consecutive (k : Z) (bs : list batch) : Prop :=
  ∀ i b, bs !! i = Some b → BatchID b.1 = (k + Z.of_nat i)%Z.

Lemma consecutive_cons (k : Z) (b : batch) (bs : list batch) :
  consecutive k (b :: bs) → BatchID b.1 = k ∧ consecutive (k + 1) bs.
Proof.
  intros Hc. split; [rewrite (Hc 0 b eq_refl); lia|].
  intros i b' Hi. rewrite (Hc (S i) b' Hi). lia.
Qed.

Lemma consecutive_snoc (k : Z) (b : batch) (bs : list batch) :
  consecutive k bs → BatchID b.1 = (k + Z.of_nat (length bs))%Z → consecutive k (bs ++ [b]).
Proof.
  intros Hc Hb i b' Hi. apply lookup_app_Some in Hi as [Hi|[Hl Hi]]; [by apply Hc|].
  destruct (i - length bs) as [|j] eqn:Hj; simplify_eq/=. rewrite Hb. lia.
Qed.

Definition str_lt (a b : string) : Prop := String.compare a b = Lt.

Lemma names_sorted (bs : list batch) : ∀ k : Z,
  (0 ≤ k)%Z → (k + Z.of_nat (length bs) ≤ 2 ^ 64)%Z → consecutive k bs →
  StronglySorted str_lt (nameOf <$> bs).
Proof.
  induction bs as [|b bs IH]; intros k Hk Hlen Hc; [constructor|].
  destruct (consecutive_cons k b bs Hc) as [Hb Hc']. simpl in Hlen. simpl. constructor.
  - apply (IH (k + 1)%Z); [lia..|done].
  - apply Forall_fmap, Forall_lookup. intros i b' Hi. simpl.
    pose proof (lookup_lt_Some _ _ _ Hi). unfold str_lt, nameOf, batchName.
    apply hex16_compare; rewrite ?Hb, (Hc' i b' Hi); lia.
Qed.

Lemma str_lt_le (l : list string) : StronglySorted str_lt l → StronglySorted String.le l ∧ NoDup l.
Proof.
  induction 1 as [|a l Hs [IH1 IH2] Hf]; [split; constructor|]. split; constructor; try done.
  - eapply Forall_impl; [exact Hf|]. intros b Hab. unfold String.le, String.leb.
    unfold str_lt in Hab. by rewrite Hab.
  - intros Ha. rewrite Forall_forall in Hf. apply Hf in Ha. unfold str_lt in Ha.
    by rewrite Str.compare_refl in Ha.
Qed.

Lemma batchName_ok (id : Z) : isBatchName (batchName id) = true.
Proof. reflexivity. Qed.

Lemma dirOf_keys (bs : list batch) : NoDup (nameOf <$> bs) → some_order (dirOf bs) ≡ₚ nameOf <$> bs.
Proof.
  intros Hnd. unfold some_order, dirOf. rewrite map_to_list_to_map.
  - rewrite <-list_fmap_compose. done.
  - rewrite <-list_fmap_compose. done.
Qed.

(** on a directory the chain wrote, the sorted file names are the batches in
    order *)
Lemma batchFiles_dirOf (k : Z) (bs : list batch) :
  (0 ≤ k)%Z → (k + Z.of_nat (length bs) ≤ 2 ^ 64)%Z → consecutive k bs →
  batchFiles (dirOf bs) = nameOf <$> bs.
Proof.
  intros Hk Hl Hc. destruct (str_lt_le _ (names_sorted bs k Hk Hl Hc)) as [Hs Hnd].
  unfold batchFiles. apply (StronglySorted_unique String.le); [|done|].
  - apply Sorted_StronglySorted; [apply _|]. apply (Sorted_merge_sort _).
  - rewrite merge_sort_Permutation, dirOf_keys by done.
    rewrite filter_all; [done|]. apply Forall_fmap, Forall_true. intros b. apply batchName_ok.
Qed.

Lemma dirOf_lookup (k : Z) (bs : list batch) (b : batch) :
  (0 ≤ k)%Z → (k + Z.of_nat (length bs) ≤ 2 ^ 64)%Z → consecutive k bs → b ∈ bs →
  dirOf bs !! nameOf b = Some (batchBytes b.1 b.2).
Proof.
  intros Hk Hl Hc Hb. destruct (str_lt_le _ (names_sorted bs k Hk Hl Hc)) as [_ Hnd].
  unfold dirOf. apply elem_of_list_to_map_1.
  - rewrite <-list_fmap_compose. done.
  - apply list_elem_of_fmap. by exists b.
Qed.

Lemma dirOf_snoc (bs : list batch) (b : batch) :
  nameOf b ∉ nameOf <$> bs → dirOf (bs ++ [b]) = <[nameOf b := batchBytes b.1 b.2]> (dirOf bs).
Proof.
  intros Hn. unfold dirOf. rewrite fmap_app. simpl. rewrite list_to_map_snoc; [done|].
  rewrite <-list_fmap_compose. done.
Qed.

Definition batch_ok (b : batch) : Prop := header_ok b.1 ∧ body_fits b.2.

Lemma dirOf_decodes (k : Z) (bs : list batch) :
  (0 ≤ k)%Z → (k + Z.of_nat (length bs) ≤ 2 ^ 64)%Z → consecutive k bs → Forall batch_ok bs →
  Forall2 (λ f b, readBatch (default [] (dirOf bs !! f)) = Some b) (nameOf <$> bs) bs.
Proof.
  intros Hk Hl Hc Hok. apply Forall2_fmap_l, Forall2_diag, Forall_forall.
  intros b Hb. unfold compose. rewrite (dirOf_lookup k bs b) by done.
  rewrite Forall_forall in Hok. destruct (Hok _ Hb). destruct b as [h body].
  by apply readBatch_write.
Qed.

Lemma Verify_dirOf (k : Z) (bs : list batch) :
  (0 ≤ k)%Z → (k + Z.of_nat (length bs) ≤ 2 ^ 64)%Z → consecutive k bs → Forall batch_ok bs →
  linked zero_hash bs → Verify (dirOf bs) = (length bs, None).
Proof.
  intros Hk Hl Hc Hok Hlk. unfold Verify. rewrite (batchFiles_dirOf k bs) by done.
  apply verifyFrom_spec. rewrite length_fmap. split; [done|]. exists bs.
  split; [by apply (dirOf_decodes k)|done].
Qed.

(** ** Tamper evidence *)

Definition bytes_ok (d : directory) : Prop := map_Forall (λ _ f, Forall byte_ok f) d.

(** the batches a directory decodes to, in file order *)
Definition decoded (d : directory) : list (option batch) :=
  (λ f, readBatch (default [] (d !! f))) <$> batchFiles d.

Lemma readBatch_ok (f : bytes) (h : Header) (body : bytes) :
  Forall byte_ok f → readBatch f = Some (h, body) → header_ok h.
Proof.
  intros Hf Hr. unfold readBatch, read_full in Hr.
  repeat (case_match; simplify_eq/=; try done). apply decodeHeader_ok.
  by apply Forall_take, Forall_drop.
Qed.

Lemma verified_batches (d : directory) (n : nat) :
  bytes_ok d → Verify d = (n, None) →
  ∃ bs, decoded d = Some <$> bs ∧ length bs = n ∧ linked zero_hash bs ∧
        Forall (λ b, header_ok b.1) bs.
Proof.
  intros Hd Hv. apply verifyFrom_spec in Hv as (-> & bs & Hf & Hl). exists bs.
  apply Forall2_length in Hf as Hlen. split_and!; [|by rewrite Hlen|done|].
  - unfold decoded. clear Hl Hlen. induction Hf as [|f b fs bs' Hr _ IH]; [done|].
    csimpl. by rewrite Hr, IH.
  - clear Hl Hlen. induction Hf as [|f [h body] fs bs' Hr _ IH]; constructor; [|done].
    eapply readBatch_ok; [|exact Hr]. destruct (d !! f) as [x|] eqn:Hx; [by apply (Hd f)|constructor].
Qed.

(** C2: tampering is evident: two directories that both verify over the same
    number of batches and end in the same batch decode to the same batches
    throughout, unless at some position the two directories hold different
    batches with the same link hash, which is a SHA-256 collision; so no
    historic batch can be altered, reordered or replaced under an unchanged
    tail. *)
Theorem tamper_evident (d d' : directory) (n : nat) :
  bytes_ok d → bytes_ok d' → Verify d = (n, None) → Verify d' = (n, None) →
  last (decoded d) = last (decoded d') →
  decoded d = decoded d' ∨
  ∃ bs bs', decoded d = Some <$> bs ∧ decoded d' = Some <$> bs' ∧ link_collision bs bs'.
Proof.
  clear Sign keyID. intros Hb Hb' Hv Hv' Hlast.
  destruct (verified_batches d n Hb Hv) as (bs & Hd & Hlen & Hl & Hok).
  destruct (verified_batches d' n Hb' Hv') as (bs' & Hd' & Hlen' & Hl' & Hok').
  rewrite Hd, Hd' in *. clear Hd Hd'.
  assert (length bs = length bs') as Hll by (by rewrite Hlen, Hlen'). clear Hlen Hlen' Hv Hv'.
  destruct bs as [|b bs _] using rev_ind.
  { left. by destruct bs'. }
  destruct bs' as [|b' bs' _] using rev_ind; [rewrite length_app in Hll; simpl in Hll; lia|].
  rewrite !length_app in Hll. cbn [length] in Hll.
  rewrite !fmap_app in Hlast. change (Some <$> [?x]) with [Some x] in Hlast.
  rewrite !last_snoc in Hlast. simplify_eq.
  rewrite Forall_app in Hok, Hok'.
  destruct (linked_same_tail bs zero_hash zero_hash bs' b') as [->|Hc];
    [lia|tauto|tauto|done|done|by left|].
  right. exists (bs ++ [b']), (bs' ++ [b']). by split_and!; [..|apply link_collision_app].
Qed.

(** ** Reachable states of an unrotated chain *)

Context (Hsha : ∀ x, length (sha256 x) = 32).
Context (Hkey : length keyID = 16).
Context (Hsig : ∀ m, VerifySig m (to_array 64 (Sign m)) = true).

Definition time_ok (t : Time.time) : Prop := (min_int64 ≤ t ≤ max_int64)%Z.

(** One operation of the daemon on a chain without rotation.  The side
    conditions are the machine sizes: clock readings fit UnixNano, a body fits
    its 32-bit length and the batch counter does not wrap.  A write may fail
    ([werr]); a restart drops the batch in progress. *)
Inductive step : Chain * directory → Chain * directory → Prop :=
  | step_add ev now werr rm c d c' d' e :
      time_ok now → time_ok (ev_Time ev) ∨ Time.IsZero (ev_Time ev) = true →
      body_fits (encodeBody (current c ++ [ev])) → (nextBatchID c + 1 < 2 ^ 64)%Z →
      Add ev now werr rm c d = (c', d', e) → step (c, d) (c', d')
  | step_tick now werr rm c d c' d' e :
      time_ok now → (nextBatchID c + 1 < 2 ^ 64)%Z →
      Tick now werr rm c d = (c', d', e) → step (c, d) (c', d')
  | step_restart c d c' : New true 0 d = Ok c' → step (c, d) (c', d).

Definition start : Chain * directory := (freshChain 0, ∅).

Record good (bs : list batch) (c : Chain) (d : directory) : Prop := {
  good_dir : d = dirOf bs;
  good_ids : consecutive 0 bs;
  good_next : nextBatchID c = Z.of_nat (length bs);
  good_small : (nextBatchID c < 2 ^ 64)%Z;
  good_batches : Forall batch_ok bs;
  good_linked : linked zero_hash bs;
  good_prev : prevHash c = tailHash zero_hash bs;
  good_prev_len : length (prevHash c) = 32;
  good_norot : MaxBatches c = 0%Z;
  good_times : Forall (λ ev, time_ok (ev_Time ev) ∨ Time.IsZero (ev_Time ev) = true) (current c);
  good_body : body_fits (encodeBody (current c))
}.

Lemma makeHeader_ok (bs : list batch) (c : Chain) (d : directory) (now : Time.time) :
  good bs c d → time_ok now → header_ok (makeHeader c now).
Proof.
  intros [] Hnow. unfold makeHeader, header_ok. simpl.
  assert (∀ o : option Event, (∀ ev, o = Some ev → ev ∈ current c) →
    let t := from_option ev_Time now o in time_ok (if Time.IsZero t then now else t)) as Ht.
  { intros [ev|] Ho; simpl; [|by case_match].
    rewrite Forall_forall in good_times0. destruct (good_times0 ev (Ho ev eq_refl)) as [H|H];
      [by case_match|by rewrite H]. }
  assert (∀ ev, head (current c) = Some ev → ev ∈ current c) as Hhd.
  { intros ev Hev. destruct (current c); simplify_eq/=. apply list_elem_of_here. }
  assert (∀ ev, last (current c) = Some ev → ev ∈ current c) as Hlast.
  { intros ev Hev. apply last_Some in Hev as [l ->]. set_solver. }
  pose proof (Ht _ Hhd) as Hst. pose proof (Ht _ Hlast) as Hen. simpl in Hst, Hen.
  pose proof (Z.mod_pos_bound (Z.of_nat (length (current c))) (2 ^ 32) ltac:(lia)) as Hcnt.
  split; [lia|]. split; [exact Hst|]. split; [exact Hen|]. split; [exact Hcnt|].
  by rewrite !Hsha, to_array_length.
Qed.

(** the batch that finalising [c] writes *)
Definition newBatch (c : Chain) (now : Time.time) : batch := (makeHeader c now, encodeBody (current c)).

(** finalising appends one linked batch *)
Lemma finalise_appends (bs : list batch) (c : Chain) (d : directory) (now : Time.time) :
  good bs c d → time_ok now → (nextBatchID c + 1 < 2 ^ 64)%Z →
  good (bs ++ [newBatch c now]) (after_write c (makeHeader c now) (encodeBody (current c)))
    (<[batchName (nextBatchID c) := batchBytes (makeHeader c now) (encodeBody (current c))]> d).
Proof.
  intros Hg Hnow Hsm. pose proof (makeHeader_ok bs c d now Hg Hnow) as Hh.
  destruct Hg as [-> Hids Hnx Hlt Hbs Hlk Hpv Hpl Hmb Hti Hbd]. set (b := newBatch c now).
  assert (consecutive 0 (bs ++ [b])) as Hids'.
  { apply consecutive_snoc; [done|]. simpl. lia. }
  split; try done.
  - rewrite dirOf_snoc; [done|].
    destruct (str_lt_le _ (names_sorted (bs ++ [b]) 0 ltac:(lia)
                (ltac:(rewrite length_app; simpl; lia)) Hids')) as [_ Hnd].
    rewrite fmap_app in Hnd. apply NoDup_app in Hnd as (_ & Hdis & _). intros Hin.
    by apply (Hdis _ Hin), list_elem_of_here.
  - simpl. rewrite u64_small by lia. rewrite length_app. simpl. lia.
  - simpl. rewrite u64_small; lia.
  - apply Forall_app. split; [done|]. by constructor.
  - apply linked_app. split; [done|]. simpl. by rewrite Hpv.
  - simpl. by rewrite tailHash_app.
  - simpl. apply Hsha.
Qed.

Lemma finalise_good (bs : list batch) (c c' : Chain) (d d' : directory) now werr rm e :
  good bs c d → time_ok now → (nextBatchID c + 1 < 2 ^ 64)%Z →
  finaliseLocked now werr rm c d = (c', d', e) → ∃ bs', good bs' c' d'.
Proof.
  intros Hg Hnow Hsm Hf. unfold finaliseLocked in Hf.
  destruct (current c) as [|ev evs] eqn:Hc; [simplify_eq; eauto|].
  destruct werr as [w|]; [simplify_eq; eauto|]. rewrite <-Hc, (good_norot _ _ _ Hg) in Hf.
  simpl in Hf. simplify_eq. eexists. by eapply finalise_appends.
Qed.

Lemma resume_good (bs : list batch) (c c' : Chain) (d : directory) :
  good bs c d → New true 0 d = Ok c' →
  good bs c' d ∧ nextBatchID c' = nextBatchID c ∧ prevHash c' = prevHash c.
Proof.
  intros [-> Hids Hnx Hlt Hbs Hlk Hpv Hpl Hmb Hti Hbd] Hn. unfold New, resume in Hn. simpl in Hn.
  rewrite (batchFiles_dirOf 0 bs) in Hn by (done || lia).
  destruct bs as [|b bs _] using rev_ind.
  { simpl in Hn. simplify_eq. simpl in *. split; [|by rewrite Hnx, Hpv].
    split; simpl; (done || lia || constructor). }
  rewrite fmap_app in Hn. change (nameOf <$> [b]) with [nameOf b] in Hn. rewrite last_snoc in Hn.
  rewrite (dirOf_lookup 0 (bs ++ [b]) b) in Hn by (set_solver || done || lia).
  pose proof Hbs as Hb. rewrite Forall_app, Forall_singleton in Hb. destruct Hb as [_ [Hh Hb]].
  destruct b as [h body].
  cbn [fst snd from_option] in Hn, Hh, Hb. unfold id in Hn. rewrite readBatch_write in Hn by done. simplify_eq.
  assert (BatchID h = Z.of_nat (length bs)) as Hid.
  { apply (Hids (length bs) (h, body)). by rewrite lookup_app_r, Nat.sub_diag. }
  rewrite length_app in Hnx. simpl in Hnx.
  assert (u64 (BatchID h + 1) = nextBatchID c) as Hu by (rewrite u64_small; lia).
  assert (linkHash h body = prevHash c) as Hl by (by rewrite Hpv, tailHash_app).
  simpl. rewrite Hu, Hl. split; [|done].
  split; simpl; try done; try lia.
  rewrite length_app. simpl. lia.
Qed.

Lemma step_good (bs : list batch) (s s' : Chain * directory) :
  good bs s.1 s.2 → step s s' → ∃ bs', good bs' s'.1 s'.2.
Proof.
  intros Hg Hs. destruct Hs as [ev now werr rm c d c' d' e Hn He Hb Hsm Ha|now werr rm c d c' d' e Hn Hsm Ht|c d c' Hn];
    simpl in *.
  - unfold Add in Ha. destruct (marshal ev) as [b|]; [|simplify_eq; eauto].
    set (c1 := {| BatchCap := _ |}) in Ha.
    assert (good bs c1 d) as Hg1.
    { destruct Hg. split; try done. simpl. apply Forall_app. by split; [|constructor]. }
    case_match; [|simplify_eq; eauto]. by eapply finalise_good.
  - unfold Tick in Ht. destruct (current c) eqn:Hc; [simplify_eq; eauto|]. by eapply finalise_good.
  - exists bs. by eapply resume_good.
Qed.

Lemma start_good : good [] start.1 start.2.
Proof. split; simpl; (done || lia || constructor). Qed.

Lemma reachable_good (s : Chain * directory) : rtc step start s → ∃ bs, good bs s.1 s.2.
Proof.
  intros Hr. remember start as s0 eqn:Hs0.
  assert (∃ bs, good bs s0.1 s0.2) as [bs Hg] by (subst; eauto using start_good).
  clear Hs0. revert bs Hg. induction Hr as [s|s s1 s2 Hst _ IH]; intros bs Hg; [eauto|].
  destruct (step_good bs s s1 Hg Hst) as [bs1 Hg1]. by eapply IH.
Qed.

(** ** Properties *)

(** at every point of the daemon's life (any adds, ticks, failed writes and
    restarts, without rotation) the directory verifies completely. *)
Theorem chain_always_verifies (c : Chain) (d : directory) :
  rtc step start (c, d) → Verify d = (length (batchFiles d), None).
Proof.
  intros Hr. destruct (reachable_good _ Hr) as [bs Hg]. destruct Hg. simpl in *. subst d.
  rewrite (batchFiles_dirOf 0 bs) by (done || lia). rewrite length_fmap.
  apply (Verify_dirOf 0); (done || lia).
Qed.

(** a restart always succeeds and resumes the chain exactly where it was:
    the next batch id and the hash to link to are those of the chain that
    stopped. *)
Theorem restart_resumes_chain (c : Chain) (d : directory) :
  rtc step start (c, d) →
  ∃ c', New true 0 d = Ok c' ∧ nextBatchID c' = nextBatchID c ∧ prevHash c' = prevHash c ∧
        current c' = [].
Proof.
  intros Hr. destruct (reachable_good _ Hr) as [bs Hg]. simpl in Hg.
  destruct (New true 0 d) as [c'|e] eqn:Hn.
  - destruct (resume_good bs c c' d Hg Hn) as (_ & ? & ?). exists c'. split_and!; [done..|].
    unfold New, resume in Hn. simpl in Hn. by repeat case_match; simplify_eq.
  - exfalso. destruct Hg. subst d. unfold New, resume in Hn. simpl in Hn.
    rewrite (batchFiles_dirOf 0 bs) in Hn by (done || lia).
    destruct bs as [|b bs _] using rev_ind; [done|].
    rewrite fmap_app in Hn. change (nameOf <$> [b]) with [nameOf b] in Hn. rewrite last_snoc in Hn.
    rewrite (dirOf_lookup 0 (bs ++ [b]) b) in Hn by (set_solver || done || lia).
    rewrite Forall_app, Forall_singleton in good_batches0. destruct good_batches0 as [_ [Hh Hb]].
    destruct b as [h body]. cbn [fst snd from_option] in Hn, Hh, Hb. unfold id in Hn.
    by rewrite readBatch_write in Hn.
Qed.

Definition with_cap (m : Z) (c : Chain) : Chain :=
  {| BatchCap := BatchCap c; BodyCap := BodyCap c; MaxBatches := m; current := current c;
     bodyBytes := bodyBytes c; nextBatchID := nextBatchID c; prevHash := prevHash c |}.

Lemma dirOf_delete_head (b : batch) (bs : list batch) :
  nameOf b ∉ nameOf <$> bs → delete (nameOf b) (dirOf (b :: bs)) = dirOf bs.
Proof.
  intros Hn. unfold dirOf. csimpl. apply delete_insert_id.
  apply not_elem_of_list_to_map_1. rewrite <-list_fmap_compose. done.
Qed.

(** one rotation of a full directory deletes exactly its first batch *)
Lemma rotate_drops_first (c : Chain) (b : batch) (bs : list batch) :
  consecutive 0 (b :: bs) → (Z.of_nat (S (length bs)) ≤ 2 ^ 64)%Z →
  MaxBatches c = Z.of_nat (length bs) →
  rotateLocked (λ _, true) c (dirOf (b :: bs)) = dirOf bs.
Proof.
  intros Hc Hl Hm. unfold rotateLocked.
  rewrite (batchFiles_dirOf 0 (b :: bs)) by (simpl; (done || lia)).
  rewrite length_fmap, Hm. cbn [length].
  replace (Z.of_nat (S (length bs)) - Z.of_nat (length bs))%Z with 1%Z by lia. simpl.
  apply dirOf_delete_head.
  destruct (str_lt_le _ (names_sorted (b :: bs) 0 ltac:(lia) ltac:(simpl; lia) Hc)) as [_ Hnd].
  csimpl in Hnd. by apply NoDup_cons in Hnd as [? _].
Qed.

(** a directory whose first batch carries another predecessor is rejected at once *)
Lemma Verify_wrong_head (k : Z) (b : batch) (bs : list batch) :
  (0 ≤ k)%Z → (k + Z.of_nat (length (b :: bs)) ≤ 2 ^ 64)%Z → consecutive k (b :: bs) →
  batch_ok b → PrevHash b.1 ≠ zero_hash → Verify (dirOf (b :: bs)) = (0, Some (ErrPrevHash k)).
Proof.
  intros Hk Hl Hc [Hh Hb] Hp. unfold Verify. rewrite (batchFiles_dirOf k (b :: bs)) by done.
  rewrite fmap_cons. cbn [verifyFrom]. rewrite (dirOf_lookup k (b :: bs) b) by (done || set_solver).
  destruct (consecutive_cons k b bs Hc) as [Hid _]. destruct b as [h body].
  cbn [fst snd from_option] in *. unfold id. rewrite readBatch_write by done.
  by rewrite bool_decide_eq_false_2, Hid.
Qed.

(** the retention cap defeats verification: when the directory holds as
    many batches as the cap and the batch in progress is written with every
    removal granted, the oldest batch is deleted and [Verify] of what is left
    fails on its very first file, because it expects the all-zero predecessor
    of batch 0 (short of a SHA-256 preimage of zero). *)
Theorem rotation_breaks_verification (c c' : Chain) (d d' : directory) now e :
  rtc step start (c, d) → time_ok now → (nextBatchID c + 1 < 2 ^ 64)%Z →
  current c ≠ [] → batchFiles d ≠ [] →
  finaliseLocked now None (λ _, true) (with_cap (Z.of_nat (length (batchFiles d))) c) d = (c', d', e) →
  e = None ∧ (Verify d' = (0, Some (ErrPrevHash 1)) ∨ ∃ x, sha256 x = zero_hash).
Proof.
  intros Hr Hnow Hsm Hcur Hne Hf. destruct (reachable_good _ Hr) as [bs Hg]. simpl in Hg.
  pose proof (finalise_appends bs c d now Hg Hnow Hsm) as Hg1.
  assert (d = dirOf bs) as Hd by apply Hg.
  assert (length (batchFiles d) = length bs) as Hlen.
  { rewrite Hd, (batchFiles_dirOf 0 bs) by (destruct Hg; done || lia). by rewrite length_fmap. }
  destruct bs as [|b0 bs]; [by destruct (batchFiles d)|]. clear Hne.
  unfold finaliseLocked, with_cap in Hf. cbn [current] in Hf.
  destruct (current c) eqn:Hc; [done|]. rewrite <-Hc in *. clear Hcur.
  destruct Hg1 as [Hd1 Hids Hnx Hlt Hbs Hlk _ _ _ _ _]. cbn [MaxBatches] in Hf.
  rewrite (proj2 (Z.ltb_lt _ _)) in Hf by (rewrite Hlen; simpl; lia).
  simplify_eq. split; [done|]. set (c1 := after_write _ _ _).
  change (makeHeader _ now) with (makeHeader c now).
  change (BatchID (makeHeader c now)) with (nextBatchID c). rewrite Hd1, <-app_comm_cons.
  rewrite <-app_comm_cons in Hids, Hbs, Hlk.
  change (nextBatchID (after_write _ _ _)) with (u64 (nextBatchID c + 1)) in Hnx.
  assert (nextBatchID c = Z.of_nat (length (b0 :: bs))) as Hnc by apply Hg.
  rewrite length_app in Hnx. rewrite (rotate_drops_first c1 b0 (bs ++ [newBatch c now]) Hids);
    [|simpl in *; rewrite ?length_app in *; simpl in *; lia|
      simpl; rewrite Hlen, length_app; simpl; lia].
  destruct (decide (linkHash b0.1 b0.2 = zero_hash)) as [Hz|Hz]; [right; by eexists|left].
  destruct (consecutive_cons 0 b0 _ Hids) as [_ Hids1].
  destruct b0 as [h0 y0]. apply Forall_cons in Hbs as [_ Hbs]. destruct Hlk as (_ & _ & _ & Hlk).
  assert (Z.of_nat (length (bs ++ [newBatch c now])) < 2 ^ 64)%Z as Hsz
    by (rewrite length_app; simpl in *; lia).
  destruct (bs ++ [newBatch c now]) as [|[h1 y1] bs1] eqn:Hbs1; [by destruct bs|].
  apply Forall_cons in Hbs as [Hb1 _]. apply (Verify_wrong_head 1); [lia|lia|done|done|].
  destruct Hlk as [Hp _]. cbn [fst]. by rewrite Hp.
Qed.

End chain.

(** ** Witnesses *)

Module Demo.

(** a stand-in hash, signature and encoder with the promised sizes *)
Definition sha (x : bytes) : bytes := to_array 32 (le_enc 8 (foldl (λ a b, a * 31 + b + 1)%Z 1%Z x)).
Definition sign (m : bytes) : bytes := m.
Definition verify_sig (m s : bytes) : bool := bool_decide (s = to_array 64 m).
Definition marshal (ev : Event) : option bytes := Some (le_enc 4 (ev_PID ev)).
Definition keyID : bytes := replicate 16 7%Z.

Definition ev1 : Event := NewEvent 1 1000 "demo" SeverityInfo.

Definition add (s : Chain * directory) : Chain * directory :=
  (Add sha sign marshal keyID ev1 2000 None (λ _, true) s.1 s.2).1.
Definition tick (s : Chain * directory) : Chain * directory :=
  (Tick sha sign marshal keyID 3000 None (λ _, true) s.1 s.2).1.

Definition s1 : Chain * directory := tick (add start).
Definition s2 : Chain * directory := add s1.

Lemma sha_len (x : bytes) : length (sha x) = 32.
Proof. apply to_array_length. Qed.

Lemma sig_ok (m : bytes) : verify_sig m (to_array 64 (sign m)) = true.
Proof. by apply bool_decide_eq_true_2. Qed.

Lemma body1_fits : body_fits (encodeBody marshal [ev1]).
Proof. vm_compute. done. Qed.

Lemma reach_s1 : rtc (step sha sign marshal keyID) start s1.
Proof.
  eapply rtc_l; [|eapply rtc_l; [|apply rtc_refl]].
  - eapply (step_add _ _ _ _ ev1 2000 None (λ _, true)); [vm_compute; done|left; vm_compute; done|
      apply body1_fits|vm_compute; done|vm_compute; reflexivity].
  - eapply (step_tick _ _ _ _ 3000 None (λ _, true)); [vm_compute; done|vm_compute; done|].
    vm_compute; reflexivity.
Qed.

Lemma reach_s2 : rtc (step sha sign marshal keyID) start s2.
Proof.
  eapply rtc_r; [apply reach_s1|].
  eapply (step_add _ _ _ _ ev1 2000 None (λ _, true)); [vm_compute; done|left; vm_compute; done|
    |vm_compute; done|vm_compute; reflexivity].
  vm_compute; done.
Qed.

End Demo.

Lemma tamper_evident_witness :
  let d := Demo.s2.2 in let d' := <["README":=[42%Z]]> d in
  decoded d = decoded d' ∨
  ∃ bs bs', decoded d = Some <$> bs ∧ decoded d' = Some <$> bs' ∧
            link_collision Demo.sha bs bs'.
Proof.
  intros d d'. apply (tamper_evident Demo.sha Demo.verify_sig d d' 1); try (vm_compute; reflexivity).
  - apply map_Forall_to_list. vm_compute. repeat constructor; done.
  - apply map_Forall_to_list. vm_compute. repeat constructor; done.
Defined.

Lemma chain_always_verifies_witness :
  Verify Demo.sha Demo.verify_sig Demo.s1.2 = (1, None).
Proof.
  apply (chain_always_verifies Demo.sha Demo.sign Demo.verify_sig Demo.marshal Demo.keyID
    Demo.sha_len eq_refl Demo.sig_ok Demo.s1.1 Demo.s1.2 Demo.reach_s1).
Defined.

Lemma restart_resumes_chain_witness :
  ∃ c', New Demo.sha true 0 Demo.s1.2 = Ok c' ∧ nextBatchID c' = 1%Z ∧
    prevHash c' = prevHash Demo.s1.1 ∧ current c' = [].
Proof.
  apply (restart_resumes_chain Demo.sha Demo.sign Demo.verify_sig Demo.marshal Demo.keyID
    Demo.sha_len eq_refl Demo.sig_ok Demo.s1.1 Demo.s1.2 Demo.reach_s1).
Defined.

Lemma rotation_breaks_verification_witness :
  let r := finaliseLocked Demo.sha Demo.sign Demo.marshal Demo.keyID 4000 None (λ _, true)
             (with_cap 1 Demo.s2.1) Demo.s2.2 in
  r.2 = None ∧ (Verify Demo.sha Demo.verify_sig r.1.2 = (0, Some (ErrPrevHash 1)) ∨
                ∃ x, Demo.sha x = zero_hash).
Proof.
  intros r. apply (rotation_breaks_verification Demo.sha Demo.sign Demo.verify_sig Demo.marshal
    Demo.keyID Demo.sha_len eq_refl Demo.sig_ok Demo.s2.1 r.1.1 Demo.s2.2 r.1.2 4000 r.2 Demo.reach_s2).
  - vm_compute; done.
  - vm_compute; done.
  - vm_compute; done.
  - vm_compute; done.
  - vm_compute; reflexivity.
Defined.
