(* ===== verification/AlertBus.v ===== *)
(** * The alert bus and its sinks (src/pkg/alert)

    Every alert of the daemon goes through one bounded queue.  [Send] asks the
    router (or the gate) and enqueues without blocking, [Run] hands the queue's
    head to every sink.  The sinks are used through the interface [Sink]; the
    ring that feeds the terminal is an instance, the rotating file is modelled
    with the file system it works on, the webhook by the text it renders.

    The router is a function with a state of its own.  The JSON encoder and the
    answers of the file system are arguments.  [Send] runs the router and the
    enqueue as one step: the daemon's router lets one alert of the two through at
    most, so no other sender can come between two enqueues of a send. *)

From S2P Require Import Prelude GoStd Model.

(** ** The bus (bus.go) *)

(** [model.Sink]; [None] is a nil error *)
Class Sink (S : Type) := {
  sk_Name : S → string;
  sk_Send : Alert → S → S * option string
}.

Section bus.
Context {W R S : Type} `{Sink S}.

(** A router reads the world [W] it is called in and keeps a state [R]. *)
Record Bus := {
  sinks : list S;
  queue : list Alert;
  b_cap : nat;
  dropped : Z;
  suppressed : Z;
  gate : option (Alert → bool);
  router : option (W → Alert → R → (bool * option Alert) * R);
  rstate : R
}.

Definition NewBus (ss : list S) (capacity : Z) (r0 : R) : Bus := {|
  sinks := ss; queue := []; b_cap := Z.to_nat (if (capacity <=? 0)%Z then 4096 else capacity);
  dropped := 0; suppressed := 0; gate := None; router := None; rstate := r0 |}.

Definition SetGate (g : option (Alert → bool)) (b : Bus) : Bus := {|
  sinks := sinks b; queue := queue b; b_cap := b_cap b; dropped := dropped b;
  suppressed := suppressed b; gate := g; router := router b; rstate := rstate b |}.

Definition SetRouter (r : option (W → Alert → R → (bool * option Alert) * R)) (b : Bus) : Bus := {|
  sinks := sinks b; queue := queue b; b_cap := b_cap b; dropped := dropped b;
  suppressed := suppressed b; gate := gate b; router := r; rstate := rstate b |}.

Definition with_queue (q : list Alert) (d : Z) (b : Bus) : Bus := {|
  sinks := sinks b; queue := q; b_cap := b_cap b; dropped := d;
  suppressed := suppressed b; gate := gate b; router := router b; rstate := rstate b |}.

Definition with_rstate (r : R) (b : Bus) : Bus := {|
  sinks := sinks b; queue := queue b; b_cap := b_cap b; dropped := dropped b;
  suppressed := suppressed b; gate := gate b; router := router b; rstate := r |}.

Definition count_suppressed (b : Bus) : Bus := {|
  sinks := sinks b; queue := queue b; b_cap := b_cap b; dropped := dropped b;
  suppressed := u64 (suppressed b + 1); gate := gate b; router := router b; rstate := rstate b |}.

Definition with_sinks (ss : list S) (b : Bus) : Bus := {|
  sinks := ss; queue := queue b; b_cap := b_cap b; dropped := dropped b;
  suppressed := suppressed b; gate := gate b; router := router b; rstate := rstate b |}.

(** The copy of the tags is the value itself. *)
Definition enqueue (a : Alert) (b : Bus) : bool * Bus :=
  if (length (queue b) <? b_cap b)%nat then (true, with_queue (queue b ++ [a]) (dropped b) b)
  else (false, with_queue (queue b) (u64 (dropped b + 1)) b).

Definition bus_Send (w : W) (a : Alert) (b : Bus) : bool * Bus :=
  match router b with
  | Some r =>
      let '((emit, synth), st) := r w a (rstate b) in
      let b := with_rstate st b in
      let b := match synth with Some s => (enqueue s b).2 | None => b end in
      if negb emit then (false, count_suppressed b) else enqueue a b
  | None =>
      if match gate b with Some g => negb (g a) | None => false end then (false, count_suppressed b)
      else enqueue a b
  end.

(** the queue's head goes to every sink; their errors are logged *)
Definition deliver (a : Alert) (ss : list S) : list S := (λ s, (sk_Send a s).1) <$> ss.

(** one turn of [Run]; an empty queue blocks *)
Definition pump (b : Bus) : Bus :=
  match queue b with
  | [] => b
  | a :: q => with_sinks (deliver a (sinks b)) (with_queue q (dropped b) b)
  end.

(** ** Runs *)

Inductive bus_op := BSend (w : W) (a : Alert) | BPump.

Definition bus_exec (b : Bus) (o : bus_op) : Bus :=
  match o with BSend w a => (bus_Send w a b).2 | BPump => pump b end.

Definition bus_run (b : Bus) (ops : list bus_op) : Bus := foldl bus_exec b ops.

(** what the router lets through for one alert: the synthesised alert first *)
Definition passes (r : option (W → Alert → R → (bool * option Alert) * R)) (g : option (Alert → bool))
    (w : W) (a : Alert) (st : R) : list Alert * R :=
  match r with
  | Some f => let '((emit, synth), st') := f w a st in (option_list synth ++ (if emit : bool then [a] else []), st')
  | None => (match g with Some g => if g a then [a] else [] | None => [a] end, st)
  end.

(** everything offered to the queue by a run *)
Fixpoint offered (r : option (W → Alert → R → (bool * option Alert) * R)) (g : option (Alert → bool))
    (st : R) (ops : list bus_op) : list Alert :=
  match ops with
  | [] => []
  | BSend w a :: ops => let '(l, st') := passes r g w a st in l ++ offered r g st' ops
  | BPump :: ops => offered r g st ops
  end.

(** how many sends found their own alert suppressed *)
Fixpoint refusals (r : option (W → Alert → R → (bool * option Alert) * R)) (g : option (Alert → bool))
    (st : R) (ops : list bus_op) : Z :=
  match ops with
  | [] => 0
  | BSend w a :: ops =>
      match r with
      | Some f => let '((emit, _), st') := f w a st in (if emit : bool then 0 else 1) + refusals r g st' ops
      | None => (match g with Some g => if g a then 0 else 1 | None => 0 end) + refusals r g st ops
      end
  | BPump :: ops => refusals r g st ops
  end%Z.

End bus.
Arguments Bus : clear implicits.
Arguments bus_op : clear implicits.

(** ** The ring (ring.go) *)

Record RingSink := { rg_buf : list Alert; rg_cap : nat }.

Definition NewRingSink (capacity : Z) : RingSink :=
  {| rg_buf := []; rg_cap := Z.to_nat (if (capacity <=? 0)%Z then 1024 else capacity) |}.

Definition ring_Send (a : Alert) (r : RingSink) : RingSink * option string :=
  ({| rg_buf := if (length (rg_buf r) <? rg_cap r)%nat then rg_buf r ++ [a] else tail (rg_buf r) ++ [a];
      rg_cap := rg_cap r |}, None).

Definition ring_Snapshot (r : RingSink) : list Alert := rg_buf r.
Definition ring_Count (r : RingSink) : nat := length (rg_buf r).

#[export] Instance ring_sink : Sink RingSink := { sk_Name := λ _, "ring"; sk_Send := ring_Send }.

(** ** The rotating file (sinks.go) *)

(** The files by path, and what each call of the operating system answers. *)
Notation fsys := (gmap string string).

Record os_io := {
  stat_ok : string → bool;                     (* no error besides "not there" *)
  rename_ok : string → string → bool;
  remove_ok : string → bool;
  open_ok : string → bool;
  mkdir_ok : string → bool;
  wrote : option nat                           (* [Some n]: an error after n bytes *)
}.

Definition fs_remove (io : os_io) (p : string) (fs : fsys) : fsys := if remove_ok io p then delete p fs else fs.

Definition fs_rename (src dst : string) (fs : fsys) : fsys :=
  match fs !! src with Some c => <[dst := c]> (delete src fs) | None => fs end.

(** opening for append creates the file *)
Definition fs_create (p : string) (fs : fsys) : fsys :=
  match fs !! p with Some _ => fs | None => <[p := ""]> fs end.

Definition fs_append (p line : string) (fs : fsys) : fsys := <[p := default "" (fs !! p) +:+ line]> fs.

(** [fk_open] is whether [s.w] is non-nil *)
Record FileSink := { fk_open : bool; fk_path : string; fk_max : Z; fk_keep : Z; fk_written : Z }.

Inductive sink_error := MkdirError | OpenError | RotateError | ReopenError | MarshalError | WriteError.

Record FileSinkOptions := { MaxSizeBytes : Z; Keep : Z }.

Definition slen (s : string) : Z := Z.of_nat (Str.len s).

Definition NewFileSinkWithOptions (io : os_io) (path dir : string) (o : FileSinkOptions) (fs : fsys) :
    result sink_error FileSink * fsys :=
  if negb (mkdir_ok io dir) then (Err MkdirError, fs)
  else if negb (open_ok io path) then (Err OpenError, fs)
  else
    let fs := fs_create path fs in
    let keep := if (0 <? MaxSizeBytes o)%Z && (Keep o <? 1)%Z then 7%Z else Keep o in
    (Ok {| fk_open := true; fk_path := path; fk_max := MaxSizeBytes o; fk_keep := keep;
           fk_written := if stat_ok io path then slen (default "" (fs !! path)) else 0 |}, fs).

Definition with_file (open : bool) (n : Z) (s : FileSink) : FileSink := {|
  fk_open := open; fk_path := fk_path s; fk_max := fk_max s; fk_keep := fk_keep s; fk_written := n |}.

Definition gen (path : string) (i : nat) : string := path +:+ ("." +:+ Str.itoa (Z.of_nat i)).

(** the loop over the generations, from the highest down *)
Fixpoint shift (io : os_io) (path : string) (keep : Z) (i : nat) (fs : fsys) : fsys * option sink_error :=
  match i with
  | O => (fs, None)
  | S j =>
      let src := gen path i in
      let dst := gen path (S i) in
      if (Z.of_nat i =? keep)%Z then shift io path keep j (fs_remove io src fs)
      else if negb (stat_ok io src && has_key src fs) then shift io path keep j fs
      else if rename_ok io src dst then shift io path keep j (fs_rename src dst fs)
      else (fs, Some RotateError)
  end.

Definition rotateLocked (io : os_io) (s : FileSink) (fs : fsys) : FileSink * fsys * option sink_error :=
  let s := with_file false (fk_written s) s in
  let '(fs, e) := shift io (fk_path s) (fk_keep s) (Z.to_nat (fk_keep s)) fs in
  match e with
  | Some e => (s, fs, Some e)
  | None =>
      let p := fk_path s in
      if stat_ok io p && has_key p fs && negb (rename_ok io p (gen p 1)) then (s, fs, Some RotateError)
      else
        let fs := if stat_ok io p && has_key p fs then fs_rename p (gen p 1) fs else fs in
        if negb (open_ok io p) then (s, fs, Some ReopenError)
        else (with_file true 0 s, fs_create p fs, None)
  end.

(** [Panicked]: a method call on a nil writer *)
Inductive outcome := Sent | Failed (e : sink_error) | Panicked.

Section file_sink.
Context (marshal : Alert → option string).

Definition line_of (body : string) : string := body +:+ String "010" "".

Definition file_Send (io : os_io) (a : Alert) (s : FileSink) (fs : fsys) : FileSink * fsys * outcome :=
  match marshal a with
  | None => (s, fs, Failed MarshalError)
  | Some body =>
      let line := line_of body in
      let '(s, fs) :=
        if (0 <? fk_max s)%Z && (fk_max s <? fk_written s + slen line)%Z
        then (rotateLocked io s fs).1 else (s, fs) in
      if negb (fk_open s) then (s, fs, Panicked)
      else match wrote io with
           | Some n => (s, fs_append (fk_path s) (Str.upto n line) fs, Failed WriteError)
           | None => (with_file true (fk_written s + slen line) s, fs_append (fk_path s) line fs, Sent)
           end
  end.

Definition file_Close (s : FileSink) : FileSink := with_file false (fk_written s) s.
End file_sink.

(** ** The text of the webhook (webhook.go) *)

Definition nz (s : string) : string := if Str.empty s then "-" else s.

Definition or_q (s : string) : string := if Str.empty s then "?" else s.

Definition cut_to (n : nat) (s : string) : string := if (n <? Str.len s)%nat then Str.upto n s +:+ "…" else s.

Definition chain_line (first : bool) (n : ProcNode) : string :=
  let argv := match pn_Argv n with
              | [] => ""
              | l => "  argv=[" +:+ (cut_to 120 (Str.Join l " ") +:+ "]")
              end in
  (if first then "* " else "└─") +:+ (" pid=" +:+ (Str.itoa (pn_PID n) +:+ (" uid=" +:+ (Str.itoa (pn_UID n) +:+
    (" comm=" +:+ (nz (pn_Comm n) +:+ (" image=" +:+ (or_q (nz (pn_Image n)) +:+ (argv +:+ String "010" ""))))))))).

Definition renderCausalChain (tree : list ProcNode) : string :=
  match tree with
  | [] => ""
  | n :: ns => chain_line true n +:+ foldr (λ n t, chain_line false n +:+ t) "" ns
  end.

(** [%-22s] *)
Definition pad_right (w : nat) (s : string) : string := s +:+ foldr (λ _ t, " " +:+ t) "" (replicate (w - Str.len s) tt).

Definition tag_line (k v : string) : string :=
  pad_right 22 k +:+ (" = " +:+ (cut_to 160 v +:+ String "010" "")).

Definition truncated : string := "… (truncated)" +:+ String "010" "".

Fixpoint tag_lines (total : Z) (l : list (string * string)) : string :=
  match l with
  | [] => ""
  | (k, v) :: l =>
      let line := tag_line k v in
      if (6000 <? total + slen line)%Z then truncated
      else line +:+ tag_lines (total + slen line)%Z l
  end.

(** the insertion sort of [sortStrings] orders the keys *)
Definition fullTags (tags : gmap string string) : string :=
  if bool_decide (tags = ∅) then "(none)"
  else tag_lines 0 ((λ k, (k, default "" (tags !! k))) <$> sort_str (map_to_list tags).*1).

Definition severityColor (s : Severity) : string :=
  match s with
  | SeverityCritical => "#ff0000" | SeverityHigh => "#ff8800" | SeverityWarn => "#ffd000"
  | SeverityNotice => "#0099ff" | SeverityInfo => "#888888"
  end.

(** ** The queue *)

Section queue.
Context {W R S : Type} `{Sink S}.
Implicit Types (b : Bus W R S) (ops : list (bus_op W)).

(** what a run has kept so far of what was offered *)
Definition accounts (ss : list S) (off : list Alert) (ref : Z) b : Prop :=
  ∃ taken : list Alert, let accepted := taken ++ queue b in
    sinks b = foldl (λ ss a, deliver a ss) ss taken ∧ accepted `sublist_of` off ∧
    length (queue b) ≤ b_cap b ∧ dropped b = u64 (Z.of_nat (length off) - Z.of_nat (length accepted)) ∧
    suppressed b = u64 ref.

Lemma u64_plus (x y : Z) : u64 (u64 x + y) = u64 (x + y).
Proof. unfold u64. by rewrite Zplus_mod_idemp_l. Qed.

Lemma enqueue_accounts (ss : list S) (off : list Alert) (ref : Z) (a : Alert) b :
  accounts ss off ref b → accounts ss (off ++ [a]) ref (enqueue a b).2.
Proof.
  intros (taken & Hs & Hsub & Hq & Hd & Hr). exists taken. unfold enqueue.
  destruct (length (queue b) <? b_cap b)%nat eqn:Hlt; cbn; bool_to_prop.
  - repeat split; try done; [by rewrite app_assoc; apply sublist_app| |].
    + rewrite length_app. cbn. lia.
    + rewrite Hd. f_equal. rewrite !length_app. cbn. lia.
  - repeat split; try done; [by apply sublist_inserts_r|].
    rewrite Hd, u64_plus. f_equal. rewrite !length_app. cbn. lia.
Qed.

Lemma suppressed_accounts (ss : list S) (off : list Alert) (ref : Z) b :
  accounts ss off ref b → accounts ss off (ref + 1) (count_suppressed b).
Proof.
  intros (taken & Hs & Hsub & Hq & Hd & Hr). exists taken. cbn. repeat split; try done.
  by rewrite Hr, u64_plus.
Qed.

Lemma enqueue_config (a : Alert) b :
  router (enqueue a b).2 = router b ∧ gate (enqueue a b).2 = gate b ∧ rstate (enqueue a b).2 = rstate b ∧
  b_cap (enqueue a b).2 = b_cap b.
Proof. unfold enqueue. by destruct (_ <? _)%nat. Qed.

Lemma Send_config (w : W) (a : Alert) b :
  router (bus_Send w a b).2 = router b ∧ gate (bus_Send w a b).2 = gate b ∧ b_cap (bus_Send w a b).2 = b_cap b ∧
  rstate (bus_Send w a b).2 = (passes (router b) (gate b) w a (rstate b)).2.
Proof.
  unfold bus_Send, passes. destruct (router b) as [r|] eqn:Hr.
  - destruct (r w a (rstate b)) as [[emit synth] st]. cbn. destruct synth as [s|], emit; cbn;
      repeat match goal with
        | |- context [enqueue ?x ?y] => let E := fresh in pose proof (enqueue_config x y) as E;
             destruct (enqueue x y) as [? ?]; cbn in E |- *; destruct E as (-> & -> & -> & ->); cbn
        end; by rewrite ?Hr.
  - destruct (gate b) as [g|] eqn:Hg; [destruct (g a)|]; cbn; try (by rewrite ?Hr, ?Hg);
      destruct (enqueue_config a b) as (-> & -> & -> & ->); by rewrite ?Hr, ?Hg.
Qed.

Lemma Send_accounts (ss : list S) (off : list Alert) (ref : Z) (w : W) (a : Alert) b :
  accounts ss off ref b →
  accounts ss (off ++ (passes (router b) (gate b) w a (rstate b)).1)
    (ref + refusals (router b) (gate b) (rstate b) [BSend w a]) (bus_Send w a b).2.
Proof.
  intros Hb. unfold bus_Send, passes, refusals.
  destruct (router b) as [r|].
  - destruct (r w a (rstate b)) as [[emit synth] st]. cbn.
    assert (accounts ss off ref (with_rstate st b)) as Hb' by apply Hb.
    assert (accounts ss (off ++ option_list synth) ref
              (match synth with Some s => (enqueue s (with_rstate st b)).2 | None => with_rstate st b end)) as Hs.
    { destruct synth; [by apply enqueue_accounts|]. cbn. by rewrite app_nil_r. }
    rewrite app_assoc. destruct emit; cbn.
    + rewrite Z.add_0_r. by apply enqueue_accounts.
    + rewrite app_nil_r. by apply suppressed_accounts.
  - destruct (gate b) as [g|]; [destruct (g a)|]; cbn; rewrite ?app_nil_r, ?Z.add_0_r;
      by first [apply enqueue_accounts | apply suppressed_accounts].
Qed.

Lemma pump_accounts (ss : list S) (off : list Alert) (ref : Z) b :
  accounts ss off ref b → accounts ss off ref (pump b).
Proof.
  intros (taken & Hs & Hsub & Hq & Hd & Hr). unfold pump. destruct (queue b) as [|a q] eqn:E.
  - exists taken. by rewrite E.
  - exists (taken ++ [a]). cbn. rewrite <- app_assoc. cbn in *.
    repeat split; try done; [by rewrite foldl_snoc, Hs|lia].
Qed.

Lemma pump_config b :
  router (pump b) = router b ∧ gate (pump b) = gate b ∧ rstate (pump b) = rstate b ∧ b_cap (pump b) = b_cap b.
Proof. unfold pump. by destruct (queue b). Qed.

Lemma refusals_cons r g st (w : W) (a : Alert) ops :
  refusals (R:=R) r g st (BSend w a :: ops) =
  (refusals r g st [BSend w a] + refusals r g (passes r g w a st).2 ops)%Z.
Proof.
  unfold passes. cbn. destruct r as [f|]; [|destruct g as [g|]; cbn; [destruct (g a)|]; cbn; lia].
  destruct (f w a st) as [[[|] synth] st']; cbn; lia.
Qed.

Lemma run_accounts (ss : list S) ops : ∀ (off : list Alert) (ref : Z) b,
  accounts ss off ref b →
  accounts ss (off ++ offered (router b) (gate b) (rstate b) ops)
    (ref + refusals (router b) (gate b) (rstate b) ops) (bus_run b ops).
Proof.
  induction ops as [|[w a|] ops IH]; intros off ref b Hb.
  - cbn. by rewrite app_nil_r, Z.add_0_r.
  - rewrite refusals_cons. change (bus_run b (BSend w a :: ops)) with (bus_run (bus_Send w a b).2 ops).
    pose proof (IH _ _ _ (Send_accounts _ _ _ w a _ Hb)) as IH'.
    destruct (Send_config w a b) as (Er & Eg & _ & Es). rewrite Er, Eg, Es in IH'.
    cbn [offered]. destruct (passes (router b) (gate b) w a (rstate b)) as [l st'] eqn:Ep. cbn [fst snd] in *.
    by rewrite <- app_assoc, <- Z.add_assoc in IH'.
  - change (bus_run b (BPump :: ops)) with (bus_run (pump b) ops).
    pose proof (IH _ _ _ (pump_accounts _ _ _ _ Hb)) as IH'.
    by destruct (pump_config b) as (Er & Eg & Es & _); rewrite Er, Eg, Es in IH'.
Qed.

Lemma new_accounts (ss : list S) (capacity : Z) (r0 : R) r g :
  accounts ss [] 0 (SetRouter r (SetGate g (NewBus (W:=W) ss capacity r0))).
Proof. exists []. cbn. repeat split; try done; lia. Qed.

(** nothing is queued that the router did not let through *)
Lemma queued_was_offered (ss : list S) (capacity : Z) (r0 : R) r ops (a : Alert) :
  a ∈ queue (bus_run (SetRouter r (NewBus ss capacity r0)) ops) → a ∈ offered r None r0 ops.
Proof.
  intros Ha. destruct (run_accounts ss ops _ _ _ (new_accounts ss capacity r0 r None)) as (taken & _ & Hsub & _).
  eapply elem_of_submseteq; [|by apply sublist_submseteq]. set_solver.
Qed.

(** A run of sends and deliveries in any order hands the sinks, first in first
    out, a part of what the router let through, never holds more than its
    capacity, and its two counters are exact modulo 2^64: what was let through is
    delivered, queued or counted as dropped, and every send whose own alert was
    held back is counted as suppressed. *)
Theorem bus_delivers_in_order (ss : list S) (capacity : Z) (r0 : R) r g ops :
  let b := bus_run (SetRouter r (SetGate g (NewBus ss capacity r0))) ops in
  let off := offered r g r0 ops in
  ∃ taken : list Alert,
    sinks b = foldl (λ ss a, deliver a ss) ss taken ∧ taken ++ queue b `sublist_of` off ∧
    (Z.of_nat (length (queue b)) ≤ if (capacity <=? 0)%Z then 4096 else capacity)%Z ∧
    dropped b = u64 (Z.of_nat (length off) - Z.of_nat (length (taken ++ queue b))) ∧
    suppressed b = u64 (refusals r g r0 ops).
Proof.
  intros b off.
  pose proof (new_accounts ss capacity r0 r g) as Hb.
  assert (Hcap : b_cap b = Z.to_nat (if (capacity <=? 0)%Z then 4096 else capacity)).
  { subst b. clear. change (Z.to_nat _) with (b_cap (SetRouter r (SetGate g (NewBus (W:=W) ss capacity r0)))).
    generalize (SetRouter r (SetGate g (NewBus ss capacity r0))). induction ops as [|o ops IH]; intros b; [done|].
    cbn. etransitivity; [apply IH|]. destruct o; cbn; [by destruct (Send_config w a b) as (_ & _ & -> & _)|].
    by destruct (pump_config b) as (_ & _ & _ & ->). }
  destruct (run_accounts _ ops _ _ _ Hb) as (taken & Hs & Hsub & Hq & Hd & Hr). exists taken.
  repeat split; try done. fold b in Hq. rewrite Hcap in Hq. destruct (Z.leb_spec capacity 0); lia.
Qed.
End queue.

(** ** The ring keeps the newest *)

Lemma ring_step (a : Alert) (r : RingSink) (l : list Alert) :
  0 < rg_cap r → rg_buf r = last_n (rg_cap r) l → rg_buf (ring_Send a r).1 = last_n (rg_cap r) (l ++ [a]).
Proof.
  intros Hc Hb. unfold ring_Send. cbn [fst rg_buf]. rewrite Hb, last_n_length.
  destruct (Nat.ltb_spec (min (rg_cap r) (length l)) (rg_cap r)) as [Hlt|Hge].
  - rewrite !last_n_all; [done|rewrite length_app; cbn; lia|lia].
  - apply last_n_snoc; lia.
Qed.

(** After any alerts the ring holds exactly the newest ones, oldest first, as
    many as its capacity allows, whatever capacity it was asked for. *)
Theorem ring_keeps_newest (capacity : Z) (l : list Alert) :
  let r := foldl (λ r a, (ring_Send a r).1) (NewRingSink capacity) l in
  ring_Snapshot r = last_n (rg_cap (NewRingSink capacity)) l ∧ ring_Count r = min (rg_cap (NewRingSink capacity)) (length l) ∧
  0 < rg_cap (NewRingSink capacity).
Proof.
  set (r0 := NewRingSink capacity). assert (Hc : 0 < rg_cap r0) by (cbn; destruct (Z.leb_spec capacity 0); lia).
  assert (∀ l, let r := foldl (λ r a, (ring_Send a r).1) r0 l in
            rg_cap r = rg_cap r0 ∧ rg_buf r = last_n (rg_cap r0) l) as Hl.
  { intros k. induction k as [|a k [IHc IHb]] using rev_ind; [done|]. rewrite foldl_snoc. split; [done|].
    rewrite <- IHc. apply ring_step; by rewrite IHc. }
  intros r. destruct (Hl l) as [_ Hb]. unfold ring_Snapshot, ring_Count. fold r in Hb. by rewrite Hb, last_n_length.
Qed.

(** ** Generations of the rotating file *)

(** the active file is generation 0 *)
Definition file_of (path : string) (i : nat) : string := match i with O => path | S _ => gen path i end.

Lemma file_of_inj (path : string) : Inj (=) (=) (file_of path).
Proof.
  assert (∀ i, path ≠ gen path i) as Hne.
  { intros i Heq. apply (f_equal Str.len) in Heq. unfold gen in Heq. rewrite !Str.len_app in Heq. cbn in Heq. lia. }
  intros [|i] [|j]; cbn; intros Heq; [done|by apply Hne in Heq|by symmetry in Heq; apply Hne in Heq|].
  unfold gen in Heq. apply Str.app_inj_l, (Str.app_inj_l ".") in Heq. apply Str.itoa_inj in Heq. lia.
Qed.

Lemma gen_file_of (path : string) (i : nat) : gen path (S i) = file_of path (S i).
Proof. done. Qed.

(** calls that all succeed *)
Definition healthy (io : os_io) : Prop :=
  (∀ p, stat_ok io p = true) ∧ (∀ p q, rename_ok io p q = true) ∧ (∀ p, remove_ok io p = true) ∧
  (∀ p, open_ok io p = true) ∧ wrote io = None.

(** every generation of [fs'] from 1 to [i+1] was one lower in [fs], and nothing else moved *)
Definition moved (path : string) (i : nat) (fs fs' : fsys) : Prop :=
  (∀ j, 1 ≤ j ≤ i → fs' !! file_of path (S j) = fs !! file_of path j) ∧
  fs' !! file_of path 1 = None ∧
  (∀ q, (∀ j, 1 ≤ j ≤ S i → q ≠ file_of path j) → fs' !! q = fs !! q).

Lemma rename_lookup (src dst : string) (fs : fsys) (q : string) :
  src ≠ dst → fs !! dst = None →
  fs_rename src dst fs !! q = if decide (q = dst) then fs !! src else if decide (q = src) then None else fs !! q.
Proof.
  intros Hne Hd. unfold fs_rename. destruct (fs !! src) as [c|] eqn:Hs; repeat case_decide; subst; try done; try congruence.
  - by rewrite lookup_insert_eq.
  - by rewrite lookup_insert_ne, lookup_delete_eq.
  - by rewrite lookup_insert_ne, lookup_delete_ne.
Qed.

Lemma shift_moves (io : os_io) (path : string) (keep : Z) (i : nat) : ∀ fs,
  healthy io → (Z.of_nat i < keep)%Z → fs !! file_of path (S i) = None →
  ∃ fs', shift io path keep i fs = (fs', None) ∧ moved path i fs fs'.
Proof.
  induction i as [|i IH]; intros fs Hio Hi Hd.
  { exists fs. split; [done|]. split; [lia|]. split; [done|]. done. }
  pose proof Hio as (Hst & Hrn & _).
  assert (Hstep : shift io path keep (S i) fs = shift io path keep i (fs_rename (file_of path (S i)) (file_of path (S (S i))) fs)).
  { cbn [shift]. rewrite (proj2 (Z.eqb_neq _ _)) by lia. rewrite Hst, Hrn, !gen_file_of. cbn [andb].
    destruct (has_key _ fs) eqn:E; cbn [negb]; [done|]. apply has_key_false in E. by unfold fs_rename; rewrite E. }
  assert (Hne : file_of path (S i) ≠ file_of path (S (S i))) by (intros E; apply file_of_inj in E; lia).
  destruct (IH (fs_rename (file_of path (S i)) (file_of path (S (S i))) fs) Hio) as (fs' & Hs & Hm1 & Hm2 & Hm3); [lia| |].
  { rewrite rename_lookup by done. by rewrite decide_False, decide_True. }
  exists fs'. rewrite Hstep. split; [done|]. split; [|split; [done|]].
  - intros j Hj. destruct (decide (j = S i)) as [->|Hjne].
    + rewrite Hm3; [rewrite rename_lookup by done; by rewrite decide_True|].
      intros k Hk E. apply file_of_inj in E. lia.
    + rewrite Hm1 by lia. rewrite rename_lookup by done.
      rewrite !decide_False; [done| |]; intros E; apply file_of_inj in E; lia.
  - intros q Hq. rewrite Hm3 by (intros; apply Hq; lia). rewrite rename_lookup by done.
    by rewrite !decide_False by (apply Hq; lia).
Qed.

Lemma rotate_moves (io : os_io) (s : FileSink) (fs : fsys) (c : string) :
  healthy io → (1 ≤ fk_keep s)%Z → fs !! fk_path s = Some c →
  ∃ fs', rotateLocked io s fs = (with_file true 0 s, fs', None) ∧ fs' !! fk_path s = Some "" ∧
    (∀ j, j < Z.to_nat (fk_keep s) → fs' !! file_of (fk_path s) (S j) = fs !! file_of (fk_path s) j) ∧
    (∀ q, (∀ j, j ≤ Z.to_nat (fk_keep s) → q ≠ file_of (fk_path s) j) → fs' !! q = fs !! q).
Proof.
  intros Hio Hk Hc. pose proof Hio as (Hst & Hrn & Hrm & Hop & _). unfold rotateLocked. cbn [fk_path fk_keep with_file fk_written fk_max].
  set (p := fk_path s) in *. destruct (Z.to_nat (fk_keep s)) as [|k] eqn:Ek; [lia|].
  set (fs1 := fs_remove io (file_of p (S k)) fs).
  assert (Hfs1 : ∀ q, fs1 !! q = if decide (q = file_of p (S k)) then None else fs !! q).
  { intros q. subst fs1. unfold fs_remove. rewrite Hrm. case_decide; by simplify_map_eq. }
  destruct (shift_moves io p (fk_keep s) k fs1 Hio) as (fs2 & Hs2 & Hm1 & Hm2 & Hm3); [lia| |].
  { by rewrite Hfs1, decide_True. }
  assert (Hsh : shift io p (fk_keep s) (S k) fs = (fs2, None)).
  { rewrite <- Hs2. cbn [shift]. rewrite (proj2 (Z.eqb_eq _ _)) by lia. by rewrite gen_file_of. }
  assert (Hp : fs2 !! file_of p 0 = Some c).
  { rewrite Hm3; [rewrite Hfs1, decide_False; [done|]|]; [|intros j Hj]; intros E; apply file_of_inj in E; lia. }
  rewrite Hsh, Hst, Hrn, Hop, gen_file_of. cbn [andb]. change (fs2 !! p = Some c) in Hp.
  rewrite (proj2 (has_key_true p fs2)) by eauto. cbn [negb andb].
  assert (Hren : ∀ q, fs_rename p (file_of p 1) fs2 !! q =
            if decide (q = file_of p 1) then fs2 !! p else if decide (q = p) then None else fs2 !! q).
  { intros q. apply rename_lookup; [|done]. change p with (file_of p 0) at 1. intros E. apply file_of_inj in E. lia. }
  unfold fs_create. rewrite Hren, decide_False, decide_True by
    (change p with (file_of p 0) at 1; try intros E; try apply file_of_inj in E; first [done|lia]).
  eexists. split; [done|]. split; [by simplify_map_eq|]. split.
  - intros j Hj. rewrite lookup_insert_ne by (change p with (file_of p 0) at 1; intros E; apply file_of_inj in E; lia).
    rewrite Hren. destruct j as [|j].
    + rewrite decide_True by done. by rewrite Hp, <- Hc.
    + rewrite !decide_False by (try change p with (file_of p 0) at 2; intros E; first [apply file_of_inj in E | change (file_of p (S (S j)) = file_of p 0) in E; apply file_of_inj in E]; lia).
      rewrite Hm1 by lia. rewrite Hfs1, decide_False; [done|]. intros E. apply file_of_inj in E. lia.
  - intros q Hq. rewrite lookup_insert_ne by (intros E; by apply (Hq 0); [lia|]).
    rewrite Hren, decide_False by (apply Hq; lia). rewrite decide_False by (apply (Hq 0); lia).
    rewrite Hm3 by (intros j Hj; apply Hq; lia). rewrite Hfs1, decide_False; [done|]. apply Hq. lia.
Qed.

(** ** The rotating file as a list of segments *)

(** The log: the active segment and the generations, newest first; a generation may
    be missing on the disk. *)
Notation log := (string * list (option string))%type.

Definition seg_send (max : Z) (keep : nat) (line : string) (segs : log) : log :=
  if (0 <? max)%Z && (max <? slen segs.1 + slen line)%Z then (line, take keep (Some segs.1 :: segs.2))
  else (segs.1 +:+ line, segs.2).

Definition seg_run (max : Z) (keep : nat) (segs : log) (lines : list string) : log :=
  foldl (λ segs line, seg_send max keep line segs) segs lines.

(** the file of a number *)
Definition seg_at (segs : log) (j : nat) : option string :=
  match j with O => Some segs.1 | S i => mjoin (segs.2 !! i) end.

(** what the segments say, oldest first *)
Definition old_text (old : list (option string)) : string := foldr (λ s acc, acc +:+ default "" s) "" old.
Definition seg_text (segs : log) : string := old_text segs.2 +:+ segs.1.

Definition text_of_lines (lines : list string) : string := foldr (λ l acc, l +:+ acc) "" lines.

(** what is found on the disk when the log is opened *)
Definition found (path : string) (keep : nat) (fs : fsys) : log :=
  (default "" (fs !! path), (λ j, fs !! gen path j) <$> seq 1 keep).

Definition holds (s : FileSink) (fs : fsys) (segs : log) : Prop :=
  fk_open s = true ∧ fk_written s = slen segs.1 ∧ length segs.2 = Z.to_nat (fk_keep s) ∧
  ((0 < fk_max s)%Z → (1 ≤ fk_keep s)%Z) ∧
  ∀ j, j ≤ Z.to_nat (fk_keep s) → fs !! file_of (fk_path s) j = seg_at segs j.

Definition elsewhere (path : string) (keep : nat) (q : string) : Prop := ∀ j, j ≤ keep → q ≠ file_of path j.

Lemma slen_app (a b : string) : slen (a +:+ b) = (slen a + slen b)%Z.
Proof. unfold slen. rewrite Str.len_app. lia. Qed.

Lemma append_lookup (path line : string) (fs : fsys) (c : string) (q : string) :
  fs !! path = Some c → fs_append path line fs !! q = if decide (q = path) then Some (c +:+ line) else fs !! q.
Proof.
  intros Hc. unfold fs_append. rewrite Hc. case_decide; subst; [by rewrite lookup_insert_eq|by rewrite lookup_insert_ne].
Qed.

Section segments.
Context (marshal : Alert → option string).

Definition file_run (io : os_io) (l : list Alert) (st : FileSink * fsys) : FileSink * fsys :=
  foldl (λ st a, (file_Send marshal io a st.1 st.2).1) st l.

Definition lines_of (l : list Alert) : list string := omap (λ a, line_of <$> marshal a) l.

Lemma write_holds (io : os_io) (s : FileSink) (fs : fsys) (cur line : string) (old : list (option string)) :
  healthy io → holds s fs (cur, old) →
  holds (with_file true (fk_written s + slen line) s) (fs_append (fk_path s) line fs) (cur +:+ line, old) ∧
  (∀ q, elsewhere (fk_path s) (Z.to_nat (fk_keep s)) q → fs_append (fk_path s) line fs !! q = fs !! q).
Proof.
  intros Hio (Ho & Hw & Hl & Hk & Hf). assert (Hp : fs !! fk_path s = Some cur) by (apply (Hf 0); lia).
  split; [|intros q Hq; rewrite (append_lookup _ _ _ _ _ Hp), decide_False; [done|apply (Hq 0); lia]].
  split; [done|]. split; [cbn; rewrite slen_app, Hw; done|]. split; [done|]. split; [done|].
  cbn [fk_keep fk_path with_file]. intros j Hj. rewrite (append_lookup _ _ _ _ _ Hp). destruct j as [|j].
  - by rewrite decide_True.
  - rewrite decide_False; [by apply (Hf (S j))|]. change (file_of (fk_path s) (S j) ≠ file_of (fk_path s) 0).
    intros E. apply file_of_inj in E. lia.
Qed.

Lemma Send_holds (io : os_io) (a : Alert) (body : string) (s : FileSink) (fs : fsys) (segs : log) :
  healthy io → holds s fs segs → marshal a = Some body →
  ∃ s' fs', file_Send marshal io a s fs = (s', fs', Sent) ∧
    holds s' fs' (seg_send (fk_max s) (Z.to_nat (fk_keep s)) (line_of body) segs) ∧
    fk_path s' = fk_path s ∧ fk_keep s' = fk_keep s ∧ fk_max s' = fk_max s ∧
    (∀ q, elsewhere (fk_path s) (Z.to_nat (fk_keep s)) q → fs' !! q = fs !! q).
Proof.
  intros Hio Hh Hm. pose proof Hh as (Ho & Hw & Hl & Hk & Hf). pose proof Hio as (_ & _ & _ & _ & Hwr).
  destruct segs as [cur old]. cbn [fst snd] in *. unfold file_Send, seg_send. rewrite Hm, Hw. cbn [fst snd]. set (line := line_of body).
  destruct ((0 <? fk_max s)%Z && (fk_max s <? slen cur + slen line)%Z) eqn:Hrot.
  - apply andb_true_iff in Hrot as [Hmax _]. bool_to_prop. specialize (Hk Hmax).
    destruct (rotate_moves io s fs cur Hio Hk) as (fs1 & -> & Hp & Hj & Hq); [apply (Hf 0); lia|].
    cbn [fst fk_open with_file negb]. rewrite Hwr. cbn [fk_path with_file fk_written fk_max fk_keep].
    set (s1 := with_file true 0 s).
    destruct (write_holds io s1 fs1 "" line (take (Z.to_nat (fk_keep s)) (Some cur :: old)) Hio) as [Hh' Hq'].
    { split; [done|]. split; [done|]. split; [cbn [snd]; rewrite length_take; cbn; lia|].
      split; [done|]. cbn [fk_path fk_keep with_file s1]. intros [|j] Hj'; [done|]. rewrite Hj by lia.
      cbn [seg_at snd]. rewrite lookup_take_lt by lia. rewrite Hf by lia. by destruct j. }
    eexists _, _. split; [done|]. split; [done|]. repeat split. intros q He. rewrite Hq' by done. by apply Hq.
  - rewrite Ho, Hwr. cbn [negb]. destruct (write_holds io s fs cur line old Hio Hh) as [Hh' Hq'].
    eexists _, _. split; [done|]. split; [exact Hh'|]. do 3 (split; [done|]). exact Hq'.
Qed.

Lemma run_holds (io : os_io) (l : list Alert) : ∀ (s : FileSink) (fs : fsys) (segs : log),
  healthy io → holds s fs segs →
  let r := file_run io l (s, fs) in
  holds r.1 r.2 (seg_run (fk_max s) (Z.to_nat (fk_keep s)) segs (lines_of l)) ∧ fk_path r.1 = fk_path s ∧
  fk_keep r.1 = fk_keep s ∧ fk_max r.1 = fk_max s ∧
  (∀ q, elsewhere (fk_path s) (Z.to_nat (fk_keep s)) q → r.2 !! q = fs !! q).
Proof.
  induction l as [|a l IH]; intros s fs segs Hio Hh; [by repeat split; cbn; try done; apply Hh|].
  change (file_run io (a :: l) (s, fs)) with (file_run io l (file_Send marshal io a s fs).1).
  unfold lines_of. cbn [omap list_omap]. destruct (marshal a) as [body|] eqn:Hm.
  - destruct (Send_holds io a body s fs segs Hio Hh Hm) as (s' & fs' & -> & Hh' & Hp & Hk & Hx & Hq).
    destruct (IH s' fs' _ Hio Hh') as (Hr & Hp' & Hk' & Hx' & Hq'). cbn [fst].
    rewrite Hp, Hk, Hx in *. cbn [fmap option_fmap option_map]. split; [exact Hr|]. repeat split; try done.
    intros q He. rewrite Hq' by done. by apply Hq.
  - unfold file_Send. rewrite Hm. cbn [fst fmap option_fmap option_map]. by apply IH.
Qed.

Lemma open_holds (io : os_io) (path dir : string) (o : FileSinkOptions) (fs fs0 : fsys) (s : FileSink) :
  healthy io → NewFileSinkWithOptions io path dir o fs = (Ok s, fs0) →
  holds s fs0 (found path (Z.to_nat (fk_keep s)) fs) ∧ fk_path s = path ∧ fk_max s = MaxSizeBytes o.
Proof.
  intros (Hst & _ & _ & Hop & _). unfold NewFileSinkWithOptions. rewrite Hop, Hst.
  destruct (mkdir_ok io dir); [|done]. cbn [negb]. intros [= <- <-].
  assert (Hc : fs_create path fs !! path = Some (default "" (fs !! path))).
  { unfold fs_create. destruct (fs !! path) as [c|] eqn:E; [done|]. by rewrite lookup_insert_eq. }
  split; [|done]. split; [done|]. split; [cbn; by rewrite Hc|]. split; [cbn [found snd]; by rewrite length_fmap, length_seq|]. split.
  - cbn. intros Hm. rewrite (proj2 (Z.ltb_lt _ _)) by done. destruct (Z.ltb_spec (Keep o) 1); cbn; lia.
  - cbn [fk_keep fk_path]. intros [|j] Hj; [done|].
    assert (Hne : fs_create path fs !! file_of path (S j) = fs !! file_of path (S j)).
    { unfold fs_create. destruct (fs !! path); [done|]. rewrite lookup_insert_ne; [done|].
      change (file_of path 0 ≠ file_of path (S j)). intros E. apply file_of_inj in E. lia. }
    rewrite Hne. cbn [found seg_at snd]. by rewrite list_lookup_fmap, lookup_seq_lt by lia.
Qed.
End segments.

(** ** What the segments keep *)

Lemma old_text_app (a b : list (option string)) : old_text (a ++ b) = old_text b +:+ old_text a.
Proof.
  unfold old_text. induction a as [|x a IH]; cbn; [by rewrite Str.app_nil_r|]. by rewrite IH, Str.app_assoc.
Qed.

Lemma text_of_lines_snoc (ls : list string) (l : string) : text_of_lines (ls ++ [l]) = text_of_lines ls +:+ l.
Proof.
  unfold text_of_lines. induction ls as [|x ls IH]; cbn; [by rewrite Str.app_nil_r|]. by rewrite IH, Str.app_assoc.
Qed.

(** a suffix of everything ever written is kept *)
Lemma seg_run_suffix (max : Z) (keep : nat) (segs : log) (lines : list string) :
  ∃ lost, seg_text segs +:+ text_of_lines lines = lost +:+ seg_text (seg_run max keep segs lines).
Proof.
  induction lines as [|line lines [lost IH]] using rev_ind; [exists ""; cbn; by rewrite Str.app_nil_r|].
  unfold seg_run in *. rewrite foldl_snoc, text_of_lines_snoc, Str.app_assoc, IH.
  destruct (foldl _ _ _) as [cur old]. unfold seg_send, seg_text. cbn [fst snd]. destruct (_ && _); cbn [fst snd].
  - exists (lost +:+ old_text (drop keep (Some cur :: old))). rewrite <- !Str.app_assoc. f_equal.
    rewrite (Str.app_assoc (old_text (drop _ _))), <- old_text_app, take_drop. cbn. by rewrite Str.app_assoc.
  - exists lost. by rewrite <- !Str.app_assoc.
Qed.

(** no segment outgrows the limit, but for one long line or what was there before *)
Lemma seg_run_bounded (max : Z) (keep : nat) (segs : log) (lines : list string) :
  (0 < max)%Z →
  let ok s := ∀ c, s = Some c → (slen c ≤ max)%Z ∨ s ∈ Some segs.1 :: segs.2 ∨ c ∈ lines in
  let out := seg_run max keep segs lines in
  Forall ok (Some out.1 :: out.2).
Proof.
  intros Hmax. induction lines as [|line lines IH] using rev_ind; cbv zeta in *; unfold seg_run in *.
  { cbn [foldl]. apply Forall_forall. intros s Hs c _. by right; left. }
  rewrite foldl_snoc. destruct (foldl _ _ _) as [cur old]. cbn [fst snd] in IH.
  assert (Hout : Forall (λ s, ∀ c, s = Some c → (slen c ≤ max)%Z ∨ s ∈ Some segs.1 :: segs.2 ∨ c ∈ lines ++ [line]) (Some cur :: old)).
  { eapply Forall_impl; [exact IH|]. cbn beta. intros s Hs c Hc. destruct (Hs c Hc) as [?|[?|?]];
      [by left|by right; left|right; right; by apply elem_of_app; left]. }
  unfold seg_send. cbn [fst snd]. rewrite (proj2 (Z.ltb_lt _ _)) by done. cbn [andb].
  destruct (Z.ltb_spec max (slen cur + slen line)); cbn [fst snd].
  - constructor; [intros c [= <-]; right; right; set_solver|by apply Forall_take].
  - apply Forall_cons in Hout as [_ Hold]. constructor; [|done]. intros c [= <-]. left. rewrite slen_app. lia.
Qed.

(** ** The log on disk *)

Section log.
Context (marshal : Alert → option string) (io : os_io) (path dir : string) (o : FileSinkOptions).
Context (fs fs0 : fsys) (s : FileSink).

Lemma open_elsewhere (q : string) :
  NewFileSinkWithOptions io path dir o fs = (Ok s, fs0) → q ≠ path → fs0 !! q = fs !! q.
Proof.
  unfold NewFileSinkWithOptions. destruct (mkdir_ok io dir), (open_ok io path); cbn [negb]; try done.
  intros [= _ <-] Hq. unfold fs_create. destruct (fs !! path); [done|]. by rewrite lookup_insert_ne.
Qed.

(** C26: As long as the file system does not fail, the active file and its rotated
    generations are the segments of one log, the newest first, whatever generations
    were found when it was opened: a line that would outgrow the limit starts a
    new segment, every generation moves up by one and the last goes.  No other
    file is touched, and what is kept is, with nothing missing or reordered, the end
    of what was found and everything written since. *)
Theorem rotated_log_refines_segments (l : list Alert) :
  healthy io → NewFileSinkWithOptions io path dir o fs = (Ok s, fs0) →
  let keep := Z.to_nat (fk_keep s) in
  let segs := seg_run (fk_max s) keep (found path keep fs) (lines_of marshal l) in
  let files := (file_run marshal io l (s, fs0)).2 in
  (∀ j, j ≤ keep → files !! file_of path j = seg_at segs j) ∧
  (∀ q, elsewhere path keep q → files !! q = fs !! q) ∧
  ∃ lost, seg_text (found path keep fs) +:+ text_of_lines (lines_of marshal l) = lost +:+ seg_text segs.
Proof.
  intros Hio Hn keep segs files. destruct (open_holds io path dir o fs fs0 s Hio Hn) as (Hh & Hp & _).
  destruct (run_holds marshal io l s fs0 _ Hio Hh) as ((_ & _ & _ & _ & Hf) & Hp' & Hk' & _ & Hq).
  rewrite Hp', Hp, Hk' in Hf. rewrite Hp in Hq. split; [exact Hf|]. split; [|apply seg_run_suffix].
  intros q Hq'. unfold files. rewrite Hq by done. apply open_elsewhere; [done|]. apply (Hq' 0). lia.
Qed.

(** C27: With a size limit set and as long as the file system does not fail, whatever
    was on the disk when the log was opened: no file of the log is larger than the
    limit, unless it is one line longer than that or one of the files found, and
    the run makes no generation above the configured number.  One found above it,
    as a log with a larger number leaves them, stays as it is for ever. *)
Theorem rotated_log_bounded (l : list Alert) (j : nat) :
  healthy io → (0 < MaxSizeBytes o)%Z → NewFileSinkWithOptions io path dir o fs = (Ok s, fs0) →
  let file := (file_run marshal io l (s, fs0)).2 !! file_of path j in
  let keep := Z.to_nat (fk_keep s) in
  if decide (j ≤ keep) then
    ∀ c, file = Some c →
      (slen c ≤ MaxSizeBytes o)%Z ∨ (∃ i, i ≤ keep ∧ fs !! file_of path i = Some c) ∨ c ∈ lines_of marshal l
  else file = fs !! file_of path j.
Proof.
  intros Hio Hmax Hn file keep. destruct (open_holds io path dir o fs fs0 s Hio Hn) as (Hh & Hp & Hm).
  destruct (run_holds marshal io l s fs0 _ Hio Hh) as ((_ & _ & _ & _ & Hf) & Hp' & Hk' & _ & Hq).
  rewrite Hp', Hp, Hk' in Hf. rewrite Hp in Hq. unfold file. case_decide as Hj.
  - intros c Hc. rewrite Hf in Hc by done. rewrite Hm in Hc.
    pose proof (seg_run_bounded (MaxSizeBytes o) keep (found path keep fs) (lines_of marshal l) Hmax) as Hb.
    fold keep in Hc. destruct (seg_run _ keep _ _) as [cur old]. cbn [fst snd] in Hb. rewrite Forall_forall in Hb.
    assert (Hin : Some c ∈ Some cur :: old).
    { destruct j as [|j]; cbn in Hc; [injection Hc as ->; left|right].
      destruct (old !! j) as [x|] eqn:Hx; [|done]. cbn in Hc. subst x. by eapply list_elem_of_lookup_2. }
    destruct (Hb _ Hin c eq_refl) as [?|[Hs|?]]; [by left| |by right; right].
    apply elem_of_cons in Hs as [Hs|Hs].
    + injection Hs as Hs. destruct (fs !! path) as [x|] eqn:Hx; cbn in Hs; subst c; [|left; change (slen "") with 0%Z; lia].
      right; left. exists 0. split; [lia|exact Hx].
    + apply list_elem_of_fmap in Hs as (i & Hi & Hin'). apply elem_of_seq in Hin'. right; left. exists i. split; [lia|].
      by destruct i; [lia|].
  - rewrite Hq by (intros i Hi E; apply file_of_inj in E; lia). apply open_elsewhere; [done|].
    change path with (file_of path 0) at 2. intros E. apply file_of_inj in E. lia.
Qed.
End log.

(** C25: When a rotation fails, whichever call of the file system it was, the alert
    that caused it brings the process down: the file was closed first and is not
    opened again, so the write that was to continue with the old file goes to a
    nil writer.  Nothing of the alert reaches the disk. *)
Theorem failed_rotation_panics (marshal : Alert → option string) (io : os_io) (a : Alert) (body : string)
    (s : FileSink) (fs : fsys) :
  marshal a = Some body → (0 < fk_max s < fk_written s + slen (line_of body))%Z →
  (rotateLocked io s fs).2 ≠ None →
  (file_Send marshal io a s fs).2 = Panicked ∧ (file_Send marshal io a s fs).1.2 = (rotateLocked io s fs).1.2.
Proof.
  intros Hm [H0 Hw] He. unfold file_Send. rewrite Hm, (proj2 (Z.ltb_lt _ _) H0), (proj2 (Z.ltb_lt _ _) Hw). cbn [andb].
  assert (Hopen : fk_open (rotateLocked io s fs).1.1 = false).
  { revert He. unfold rotateLocked. destruct (shift _ _ _ _ _) as [fs' [e|]]; [done|].
    destruct (_ && _ && _); [done|]. destruct (negb _); done. }
  destruct (rotateLocked io s fs) as [[s' fs'] e]. cbn in *. by rewrite Hopen.
Qed.

(** the text of the tags stays near its soft limit *)
Lemma tag_lines_bounded (l : list (string * string)) : ∀ total,
  (total ≤ 6000 → total + slen (tag_lines total l) ≤ 6016)%Z.
Proof.
  induction l as [|[k v] l IH]; intros total Ht; cbn [tag_lines]; [change (slen "") with 0%Z; lia|].
  destruct (Z.ltb_spec 6000 (total + slen (tag_line k v))) as [Hlt|Hle]; [change (slen truncated) with 16%Z; lia|].
  rewrite slen_app. specialize (IH _ Hle). lia.
Qed.

Lemma fullTags_bounded (tags : gmap string string) : (slen (fullTags tags) ≤ 6016)%Z.
Proof.
  unfold fullTags. case_bool_decide; [by vm_compute|]. apply (tag_lines_bounded _ 0). lia.
Qed.

(** ** Witnesses *)

Module BusDemo.

Definition marshal (a : Alert) : option string := Some (al_RuleID a).

Definition alert (rule : string) : Alert := {|
  al_Event := blank_event; al_RuleID := rule; al_Reason := ""; al_EvidenceIDs := []; al_Mode := ModeDetect;
  al_Action := ""; al_Class := 0 |}.

Definition io : os_io := {|
  stat_ok := λ _, true; rename_ok := λ _ _, true; remove_ok := λ _, true; open_ok := λ _, true;
  mkdir_ok := λ _, true; wrote := None |}.

(** the log cannot be opened again *)
Definition full : os_io := {|
  stat_ok := λ _, true; rename_ok := λ _ _, true; remove_ok := λ _, true; open_ok := λ _, false;
  mkdir_ok := λ _, true; wrote := None |}.

Definition opts : FileSinkOptions := {| MaxSizeBytes := 12; Keep := 2 |}.
Definition sink : FileSink := {| fk_open := true; fk_path := "log"; fk_max := 12; fk_keep := 2; fk_written := 0 |}.
(** a generation is missing, one is left of a log with more of them *)
Definition before : fsys := <["log.2" := "old"]> (<["log.3" := "older"]> {["other" := "x"]}).
Definition after : fsys := <["log" := ""]> before.
Definition alerts : list Alert := alert <$> ["aaaaa"; "bbbbb"; "ccccc"; "ddddddddddddddddd"; "eeeee"; "fffff"].

Lemma healthy_io : healthy io.
Proof. by repeat split. Qed.

Lemma rotated_log_refines_segments_witness :
  NewFileSinkWithOptions io "log" "." opts before = (Ok sink, after) ∧
  (file_run marshal io alerts (sink, after)).2 !! "log" = Some (line_of "eeeee" +:+ line_of "fffff") ∧
  (∀ j, j ≤ 2 → (file_run marshal io alerts (sink, after)).2 !! file_of "log" j =
     seg_at (seg_run 12 2 ("", [None; Some "old"]) (lines_of marshal alerts)) j).
Proof.
  assert (Hn : NewFileSinkWithOptions io "log" "." opts before = (Ok sink, after)) by (vm_compute; reflexivity).
  split; [exact Hn|]. split; [vm_compute; reflexivity|].
  exact (proj1 (rotated_log_refines_segments marshal io "log" "." opts before after sink alerts healthy_io Hn)).
Defined.

(** a long line makes a long file; a third generation of an earlier run stays *)
Lemma rotated_log_bounded_witness :
  (file_run marshal io alerts (sink, after)).2 !! file_of "log" 1 = Some (line_of "ddddddddddddddddd") ∧
  ((slen (line_of "ddddddddddddddddd") ≤ 12)%Z ∨
   (∃ i, i ≤ 2 ∧ before !! file_of "log" i = Some (line_of "ddddddddddddddddd")) ∨
   line_of "ddddddddddddddddd" ∈ lines_of marshal alerts) ∧
  (file_run marshal io alerts (sink, after)).2 !! file_of "log" 3 = Some "older".
Proof.
  assert (Hn : NewFileSinkWithOptions io "log" "." opts before = (Ok sink, after)) by (vm_compute; reflexivity).
  assert (Hc : (file_run marshal io alerts (sink, after)).2 !! file_of "log" 1 = Some (line_of "ddddddddddddddddd"))
    by (vm_compute; reflexivity).
  split; [exact Hc|]. split.
  - exact (rotated_log_bounded marshal io "log" "." opts before after sink alerts 1 healthy_io eq_refl Hn _ Hc).
  - etransitivity; [exact (rotated_log_bounded marshal io "log" "." opts before after sink alerts 3 healthy_io eq_refl Hn)|].
    vm_compute. reflexivity.
Defined.

Lemma failed_rotation_panics_witness :
  (file_Send marshal full (alert "ccccc") {| fk_open := true; fk_path := "log"; fk_max := 12; fk_keep := 2; fk_written := 12 |}
     {["log" := line_of "aaaaa" +:+ line_of "bbbbb"]}).2 = Panicked.
Proof.
  refine (proj1 (failed_rotation_panics marshal full (alert "ccccc") "ccccc" _ _ eq_refl _ _)); [vm_compute; done|].
  vm_compute. discriminate.
Defined.

End BusDemo.
