(* ===== verification/Correlator.v ===== *)
(** * The correlation engine (src/pkg/correlator)

    Sequence rules over the event stream: sessions keyed by rule and group,
    advanced, opened and expired by [Ingest] (engine.go), and rule compilation
    (rule.go).  Expressions belong to the CEL library: a program, its
    compilation and its evaluation are variables of the section.  A range over
    the session map takes its order from [ord]. *)

From S2P Require Import Prelude GoStd Model.

(** ** Rules *)

Record Step := { Select : string; Within : Time.duration }.

Record Rule := {
  ID : string;
  Desc : string;
  SeverityRaw : string;
  rule_Severity : Severity;
  Mitre : list string;
  Window : Time.duration;
  GroupBy : list string;
  Steps : list Step;
  Remediation : string;
  Narrative : string
}.

Definition set_rule_severity (s : Severity) (r : Rule) : Rule :=
  {| ID := ID r; Desc := Desc r; SeverityRaw := SeverityRaw r; rule_Severity := s;
     Mitre := Mitre r; Window := Window r; GroupBy := GroupBy r; Steps := Steps r;
     Remediation := Remediation r; Narrative := Narrative r |}.

Inductive rule_error : Type :=
  | ErrSeverity (id raw : string) | ErrStep (i : nat).

(** [Normalize] *)
Definition Normalize (r : Rule) : result rule_error Rule :=
  let '(s, ok) := ParseSeverity (SeverityRaw r) in
  if ok : bool then Ok (set_rule_severity s r)
  else if negb (Str.empty (SeverityRaw r)) then Err (ErrSeverity (ID r) (SeverityRaw r))
  else Ok r.

(** the activation an expression is evaluated in *)
Record Vars := {
  v_sensor : string; v_severity : string; v_host : string; v_pid : Z; v_comm : string;
  v_image : string; v_tags : gmap string string; v_group : gmap string string
}.

Definition buildVars (ev : Event) (group : gmap string string) : Vars :=
  {| v_sensor := ev_Sensor ev; v_severity := Severity_String (ev_Severity ev);
     v_host := ev_Host ev; v_pid := ev_PID ev; v_comm := ev_Comm ev; v_image := ev_Image ev;
     v_tags := ev_Tags ev; v_group := group |}.

(** a CEL result as [asBool] sees it *)
Inductive cel_val : Type := VNil | VBool (b : bool) | VOther.

Definition asBool (v : cel_val) : bool := match v with VBool b => b | _ => false end.

(** ** Groups *)

Definition extractGroup (ev : Event) (fields : list string) : gmap string string :=
  list_to_map ((λ f, (f, tag ev f)) <$> fields).

Definition sorted_keys (m : gmap string string) : list string :=
  merge_sort String.le (some_order m).

Definition groupKeyString (m : gmap string string) : string :=
  foldr (λ k s, k +:+ ("=" +:+ (default "" (m !! k) +:+ (";" +:+ s)))) "" (sorted_keys m).

(** the key string of two fields *)
Lemma group_key_two (ev : Event) (f1 f2 : string) :
  String.le f1 f2 → f1 ≠ f2 →
  groupKeyString (extractGroup ev [f1; f2]) =
    f1 +:+ ("=" +:+ (tag ev f1 +:+ (";" +:+ (f2 +:+ ("=" +:+ (tag ev f2 +:+ ";")))))).
Proof.
  intros Hle Hne. unfold groupKeyString.
  set (m := extractGroup ev [f1; f2]).
  assert (m !! f1 = Some (tag ev f1) ∧ m !! f2 = Some (tag ev f2)) as [H1 H2].
  { subst m. unfold extractGroup. cbn. split; [by rewrite lookup_insert_eq|].
    by rewrite lookup_insert_ne, lookup_insert_eq. }
  assert (sorted_keys m = [f1; f2]) as ->.
  { unfold sorted_keys. apply (StronglySorted_unique String.le).
    - apply Sorted_StronglySorted; [apply _|]. apply (Sorted_merge_sort _).
    - repeat constructor. done.
    - rewrite merge_sort_Permutation. apply NoDup_Permutation; [apply some_order_ok| |].
      + constructor; [by rewrite list_elem_of_singleton|apply NoDup_singleton].
      + intros k. rewrite (proj2 (some_order_ok m) k). unfold m, extractGroup. cbn.
        rewrite !lookup_insert_is_Some, lookup_empty, !elem_of_cons, elem_of_nil.
        split; [|naive_solver]. intros [?|[_ [?|[_ []]]]]; [by left|by right; left|done]. }
  cbn [foldr]. by rewrite H1, H2.
Qed.

Section engine.
Context {program : Type}.
Context (compile_cel : string → option program).
(** [None] is an evaluation error *)
Context (Eval_ : program → Vars → option cel_val).

Record compiledRule := { c_Rule : Rule; c_Compiled : list program }.

Fixpoint compile_steps (i : nat) (l : list Step) : result rule_error (list program) :=
  match l with
  | [] => Ok []
  | s :: l' =>
      match compile_cel (Select s) with
      | None => Err (ErrStep i)
      | Some p => match compile_steps (S i) l' with Ok ps => Ok (p :: ps) | Err e => Err e end
      end
  end.

Definition compile (r : Rule) : result rule_error compiledRule :=
  match Normalize r with
  | Err e => Err e
  | Ok r' => match compile_steps 0 (Steps r') with
             | Err e => Err e
             | Ok ps => Ok {| c_Rule := r'; c_Compiled := ps |}
             end
  end.

Abbreviation sessionKey := (string * string)%type (only parsing).

Record Session := {
  s_Rule : compiledRule;
  s_GroupKey : gmap string string;
  s_StepIndex : nat;
  s_StartedAt : Time.time;
  s_LastFired : Time.time;
  s_Events : list Event
}.

(** [emit] says that an incident function is installed *)
Record Engine := { rules : list compiledRule; sessions : gmap sessionKey Session; emit : bool }.

Definition New (has_emit : bool) : Engine := {| rules := []; sessions := ∅; emit := has_emit |}.

Definition with_sessions (m : gmap sessionKey Session) (e : Engine) : Engine :=
  {| rules := rules e; sessions := m; emit := emit e |}.

Fixpoint compile_all (rs : list Rule) : result (string * rule_error) (list compiledRule) :=
  match rs with
  | [] => Ok []
  | r :: rs' =>
      match compile r with
      | Err x => Err (ID r, x)
      | Ok c => match compile_all rs' with Ok cs => Ok (c :: cs) | Err x => Err x end
      end
  end.

(** the sessions are kept when the rules are replaced *)
Definition Load (rs : list Rule) (e : Engine) : Engine * option (string * rule_error) :=
  match compile_all rs with
  | Err x => (e, Some x)
  | Ok cs => ({| rules := cs; sessions := sessions e; emit := emit e |}, None)
  end.

Definition SessionCount (e : Engine) : nat := size (sessions e).

(** ** Firing *)

Definition incident (c : compiledRule) (s : Session) : Alert := {|
  al_Event := set_severity (rule_Severity (c_Rule c)) (List.last (s_Events s) blank_event);
  al_RuleID := ID (c_Rule c);
  al_Reason := Desc (c_Rule c);
  al_EvidenceIDs := ev_ID <$> s_Events s;
  al_Mode := ModeDetect; al_Action := ""; al_Class := 0 |}.

Definition fire (has_emit : bool) (c : compiledRule) (s : Session) : list Alert :=
  if has_emit then [incident c s] else [].

(** ** Advancing *)

(** the event's own group, when it carries every group field *)
Definition eventGroup (c : compiledRule) (ev : Event) : option string :=
  let fs := GroupBy (c_Rule c) in
  if bool_decide (fs = []) then None
  else if existsb (λ f, Str.empty (tag ev f)) fs then None
  else Some (groupKeyString (extractGroup ev fs)).

Definition truth (p : program) (ev : Event) (g : gmap string string) : bool :=
  match Eval_ p (buildVars ev g) with Some v => asBool v | None => false end.

Definition matches_step (c : compiledRule) (i : nat) (ev : Event) (g : gmap string string) : bool :=
  match c_Compiled c !! i with Some p => truth p ev g | None => false end.

Definition step_within (c : compiledRule) (i : nat) : Time.duration :=
  match Steps (c_Rule c) !! i with Some st => Within st | None => 0%Z end.

Definition in_scope (c : compiledRule) (ev : Event) (k : sessionKey) : bool :=
  bool_decide (k.1 = ID (c_Rule c)) &&
  match eventGroup c ev with Some g => bool_decide (k.2 = g) | None => true end.

Definition advanced (ev : Event) (now : Time.time) (s : Session) : Session :=
  {| s_Rule := s_Rule s; s_GroupKey := s_GroupKey s; s_StepIndex := S (s_StepIndex s);
     s_StartedAt := s_StartedAt s; s_LastFired := now; s_Events := s_Events s ++ [ev] |}.

(** what one turn of the loop does to one session: the session that remains
    under its key, if any, and the alerts *)
Definition advance1 (has_emit : bool) (c : compiledRule) (ev : Event) (now : Time.time)
    (k : sessionKey) (s : Session) : option Session * list Alert :=
  if negb (in_scope c ev k) then (Some s, [])
  else if (length (c_Compiled c) <=? s_StepIndex s)%nat then (Some s, [])
  else if negb (matches_step c (s_StepIndex s) ev (s_GroupKey s)) then (Some s, [])
  else
    let w := step_within c (s_StepIndex s) in
    if (0 <? w)%Z && (w <? Time.Sub now (s_LastFired s))%Z then (None, [])
    else
      let s' := advanced ev now s in
      if (length (Steps (c_Rule c)) <=? s_StepIndex s')%nat then (None, fire has_emit c s')
      else (Some s', []).

Fixpoint advance_loop (has_emit : bool) (c : compiledRule) (ev : Event) (now : Time.time)
    (ks : list sessionKey) (m : gmap sessionKey Session) : gmap sessionKey Session * list Alert :=
  match ks with
  | [] => (m, [])
  | k :: ks' =>
      match m !! k with
      | None => advance_loop has_emit c ev now ks' m
      | Some s =>
          let '(os, al) := advance1 has_emit c ev now k s in
          let '(m', al') := advance_loop has_emit c ev now ks'
                              (match os with Some s' => <[k := s']> m | None => delete k m end) in
          (m', al ++ al')
      end
  end.

Definition advanceSessions (ord : gmap sessionKey Session → list sessionKey)
    (c : compiledRule) (ev : Event) (now : Time.time) (e : Engine) : Engine * list Alert :=
  let '(m, al) := advance_loop (emit e) c ev now (ord (sessions e)) (sessions e) in
  (with_sessions m e, al).

(** ** Opening and expiring *)

Definition bumped (ev : Event) (now : Time.time) (s : Session) : Session :=
  {| s_Rule := s_Rule s; s_GroupKey := s_GroupKey s; s_StepIndex := s_StepIndex s;
     s_StartedAt := s_StartedAt s; s_LastFired := now; s_Events := s_Events s ++ [ev] |}.

Definition opened (c : compiledRule) (ev : Event) (now : Time.time) : Session :=
  {| s_Rule := c; s_GroupKey := extractGroup ev (GroupBy (c_Rule c)); s_StepIndex := 1;
     s_StartedAt := now; s_LastFired := now; s_Events := [ev] |}.

Definition open_key (c : compiledRule) (ev : Event) : sessionKey :=
  (ID (c_Rule c), groupKeyString (extractGroup ev (GroupBy (c_Rule c)))).

Definition tryOpen (c : compiledRule) (ev : Event) (now : Time.time) (e : Engine) :
    Engine * list Alert :=
  if negb (matches_step c 0 ev (extractGroup ev (GroupBy (c_Rule c)))) then (e, [])
  else
    match sessions e !! open_key c ev with
    | Some existing => (with_sessions (<[open_key c ev := bumped ev now existing]> (sessions e)) e, [])
    | None =>
        if (length (Steps (c_Rule c)) =? 1)%nat then (e, fire (emit e) c (opened c ev now))
        else (with_sessions (<[open_key c ev := opened c ev now]> (sessions e)) e, [])
    end.

Definition expired (now : Time.time) (s : Session) : bool :=
  let w := Window (c_Rule (s_Rule s)) in
  (0 <? w)%Z && (w <? Time.Sub now (s_StartedAt s))%Z.

(** which sessions go does not depend on the order of the walk *)
Definition expire (now : Time.time) (e : Engine) : Engine :=
  with_sessions (filter (λ p, expired now p.2 = false) (sessions e)) e.

(** the loop of [Ingest] over the rules *)
Fixpoint ingest_rules (ord : gmap sessionKey Session → list sessionKey) (ev : Event)
    (now : Time.time) (cs : list compiledRule) (e : Engine) : Engine * list Alert :=
  match cs with
  | [] => (e, [])
  | c :: cs' =>
      let '(e1, a1) := advanceSessions ord c ev now e in
      let '(e2, a2) := tryOpen c ev now e1 in
      let '(e3, a3) := ingest_rules ord ev now cs' e2 in
      (e3, a1 ++ a2 ++ a3)
  end.

(** [clock] is the reading of [time.Now()] for an event without a time *)
Definition Ingest (ord : gmap sessionKey Session → list sessionKey) (clock : Time.time) (ev : Event)
    (e : Engine) : Engine * list Alert :=
  let now := if Time.IsZero (ev_Time ev) then clock else ev_Time ev in
  let '(e', al) := ingest_rules ord ev now (rules e) e in
  (expire now e', al).

Fixpoint replay (ord : gmap sessionKey Session → list sessionKey) (evs : list (Time.time * Event))
    (e : Engine) : Engine * list Alert :=
  match evs with
  | [] => (e, [])
  | (clock, ev) :: evs' =>
      let '(e1, a1) := Ingest ord clock ev e in
      let '(e2, a2) := replay ord evs' e1 in
      (e2, a1 ++ a2)
  end.

(** the incidents of a replay, event by event *)
Fixpoint chunks (ord : gmap sessionKey Session → list sessionKey) (evs : list (Time.time * Event))
    (e : Engine) : list (list Alert) :=
  match evs with
  | [] => []
  | (clock, ev) :: evs' =>
      (Ingest ord clock ev e).2 :: chunks ord evs' (Ingest ord clock ev e).1
  end.

Lemma replay_chunks (ord : gmap sessionKey Session → list sessionKey)
    (evs : list (Time.time * Event)) : ∀ e, (replay ord evs e).2 = concat (chunks ord evs e).
Proof.
  induction evs as [|[clock ev] evs IH]; intros e; [done|]. simpl.
  destruct (Ingest ord clock ev e) as [e1 a1]. cbn [fst snd]. rewrite <-IH.
  by destruct (replay ord evs e1).
Qed.

(** ** The loop acts on each session by itself *)

Lemma advance_loop_spec (has_emit : bool) (c : compiledRule) (ev : Event) (now : Time.time)
    (ks : list sessionKey) : ∀ m, NoDup ks →
  (∀ k, (advance_loop has_emit c ev now ks m).1 !! k =
     if decide (k ∈ ks) then m !! k ≫= λ s, (advance1 has_emit c ev now k s).1 else m !! k) ∧
  (advance_loop has_emit c ev now ks m).2 =
    ks ≫= λ k, default [] ((λ s, (advance1 has_emit c ev now k s).2) <$> m !! k).
Proof.
  induction ks as [|k0 ks IH]; intros m Hnd; [done|].
  inversion Hnd as [|? ? Hk0 Hnd']; simplify_eq. cbn [advance_loop].
  destruct (m !! k0) as [s|] eqn:Hm.
  2:{ destruct (IH m Hnd') as [Hl Ha]. split.
      - intros k. rewrite Hl. destruct (decide (k = k0)) as [->|Hne].
        + rewrite decide_False, decide_True by (by left || done). by rewrite Hm.
        + do 2 case_decide; set_solver.
      - rewrite bind_cons, Hm. exact Ha. }
  destruct (advance1 has_emit c ev now k0 s) as [os al] eqn:H1.
  set (m1 := match os with Some s' => <[k0 := s']> m | None => delete k0 m end).
  assert (m1 !! k0 = os ∧ ∀ k, k ≠ k0 → m1 !! k = m !! k) as [Hm1 Hm1'].
  { subst m1. destruct os; split; intros; simplify_map_eq; done. }
  destruct (IH m1 Hnd') as [Hl Ha]. destruct (advance_loop has_emit c ev now ks m1) as [m' al'].
  cbn [fst snd] in *. split.
  - intros k. rewrite Hl. destruct (decide (k = k0)) as [->|Hne].
    + rewrite decide_False, decide_True by (by left || done). rewrite Hm, Hm1. cbn. by rewrite H1.
    + rewrite Hm1' by done. do 2 case_decide; set_solver.
  - rewrite bind_cons, Hm. cbn. rewrite H1. cbn. f_equal. rewrite Ha. clear Hl Ha IH.
    induction ks as [|k ks IH]; [done|]. rewrite !bind_cons.
    rewrite not_elem_of_cons in Hk0. destruct Hk0 as [Hne Hk0].
    inversion Hnd'; simplify_eq. rewrite Hm1' by done. f_equal. apply IH; [|done..].
    by constructor.
Qed.

(** two orders of the same map *)
Lemma advanceSessions_perm (ord ord' : gmap sessionKey Session → list sessionKey)
    (c : compiledRule) (ev : Event) (now : Time.time) (e : Engine) :
  range_order (sessions e) (ord (sessions e)) → range_order (sessions e) (ord' (sessions e)) →
  (advanceSessions ord c ev now e).1 = (advanceSessions ord' c ev now e).1 ∧
  (advanceSessions ord c ev now e).2 ≡ₚ (advanceSessions ord' c ev now e).2.
Proof.
  intros Ho Ho'. unfold advanceSessions.
  destruct (advance_loop_spec (emit e) c ev now (ord (sessions e)) (sessions e)) as [Hl Ha];
    [apply Ho|].
  destruct (advance_loop_spec (emit e) c ev now (ord' (sessions e)) (sessions e)) as [Hl' Ha'];
    [apply Ho'|].
  pose proof (range_order_perm _ _ _ Ho Ho') as Hp.
  destruct (advance_loop _ _ _ _ (ord _) _) as [m a], (advance_loop _ _ _ _ (ord' _) _) as [m' a'].
  cbn [fst snd] in *. split.
  - f_equal. apply map_eq. intros k. rewrite Hl, Hl'. do 2 case_decide; [done|..|done].
    + destruct Ho, Ho'. set_solver.
    + destruct Ho, Ho'. set_solver.
  - rewrite Ha, Ha'. by apply bind_Permutation.
Qed.

Section orders.
Context (ord ord' : gmap sessionKey Session → list sessionKey).
Context (Hord : ∀ m, range_order m (ord m)) (Hord' : ∀ m, range_order m (ord' m)).

Lemma ingest_rules_perm (ev : Event) (now : Time.time) (cs : list compiledRule) : ∀ e,
  (ingest_rules ord ev now cs e).1 = (ingest_rules ord' ev now cs e).1 ∧
  (ingest_rules ord ev now cs e).2 ≡ₚ (ingest_rules ord' ev now cs e).2.
Proof.
  induction cs as [|c cs IH]; intros e; [done|]. simpl.
  destruct (advanceSessions_perm ord ord' c ev now e (Hord _) (Hord' _)) as [He Ha].
  destruct (advanceSessions ord c ev now e) as [e1 a1], (advanceSessions ord' c ev now e) as [e1' a1'].
  cbn [fst snd] in *. subst e1'. destruct (tryOpen c ev now e1) as [e2 a2].
  destruct (IH e2) as [He' Ha'].
  destruct (ingest_rules ord ev now cs e2), (ingest_rules ord' ev now cs e2). cbn [fst snd] in *.
  split; [done|]. by rewrite Ha, Ha'.
Qed.

Lemma replay_perm (evs : list (Time.time * Event)) : ∀ e,
  (replay ord evs e).1 = (replay ord' evs e).1 ∧
  Forall2 Permutation (chunks ord evs e) (chunks ord' evs e).
Proof.
  induction evs as [|[clock ev] evs IH]; intros e; [done|]. simpl. unfold Ingest.
  set (now := if Time.IsZero (ev_Time ev) then clock else ev_Time ev).
  destruct (ingest_rules_perm ev now (rules e) e) as [He Ha].
  destruct (ingest_rules ord ev now (rules e) e) as [e1 a1], (ingest_rules ord' ev now (rules e) e) as [e1' a1'].
  cbn [fst snd] in *. subst e1'. destruct (IH (expire now e1)) as [He' Hc].
  destruct (replay ord evs (expire now e1)), (replay ord' evs (expire now e1)). cbn [fst snd] in *.
  split; [done|]. by constructor.
Qed.

End orders.

(** ** Incidents are backed by the stream *)

(** compiled rules have one program per step *)
Definition compiled_ok (c : compiledRule) : Prop := length (c_Compiled c) = length (Steps (c_Rule c)).

Lemma compile_steps_length (l : list Step) : ∀ i ps, compile_steps i l = Ok ps → length ps = length l.
Proof.
  induction l as [|s l IH]; intros i ps Hc; simpl in *; [by simplify_eq|].
  repeat (case_match; simplify_eq). simpl. f_equal. by eapply IH.
Qed.

Lemma compile_ok (r : Rule) (c : compiledRule) : compile r = Ok c → compiled_ok c.
Proof.
  unfold compile. intros Hc. repeat (case_match; simplify_eq). by eapply compile_steps_length.
Qed.

Lemma compile_all_ok (rs : list Rule) : ∀ cs, compile_all rs = Ok cs →
  Forall compiled_ok cs ∧ (λ c, ID (c_Rule c)) <$> cs = ID <$> rs.
Proof.
  induction rs as [|r rs IH]; intros cs Hc; simpl in *; [by simplify_eq|].
  destruct (compile r) as [c|] eqn:Hr; [|done].
  destruct (compile_all rs) as [cs'|]; [|done]. simplify_eq.
  destruct (IH cs' eq_refl) as [Hf Hid]. split; [constructor; [by eapply compile_ok|done]|].
  csimpl. f_equal; [|done]. unfold compile, Normalize in Hr.
  destruct (ParseSeverity _) as [s []]; repeat (case_match; simplify_eq); done.
Qed.

(** the events of [es] pass the first steps of [c] one after the other, all
    with the group of the first one, and an event that carries a group of its
    own belongs to that group *)
Definition passes (c : compiledRule) (es : list Event) : Prop :=
  ∃ e0 rest, es = e0 :: rest ∧
  let g := extractGroup e0 (GroupBy (c_Rule c)) in
  (∀ i ev, es !! i = Some ev → matches_step c i ev g = true) ∧
  Forall (λ ev, eventGroup c ev = None ∨ eventGroup c ev = Some (groupKeyString g)) es.

Lemma passes_snoc (c : compiledRule) (es : list Event) (e0 ev : Event) :
  passes c es → head es = Some e0 →
  matches_step c (length es) ev (extractGroup e0 (GroupBy (c_Rule c))) = true →
  eventGroup c ev = None ∨
    eventGroup c ev = Some (groupKeyString (extractGroup e0 (GroupBy (c_Rule c)))) →
  passes c (es ++ [ev]).
Proof.
  intros (e0' & rest & -> & Hm & Hg) [= ->] Hn Hgn. exists e0, (rest ++ [ev]).
  split; [done|]. split.
  - change (e0 :: rest ++ [ev]) with ((e0 :: rest) ++ [ev]).
    intros i e Hi. destruct (decide (i < length (e0 :: rest))).
    + apply Hm. by rewrite lookup_app_l in Hi.
    + rewrite lookup_app_r in Hi by lia. apply list_lookup_singleton_Some in Hi as [Hi ->].
      by replace i with (length (e0 :: rest)) by lia.
  - change (e0 :: rest ++ [ev]) with ((e0 :: rest) ++ [ev]). apply Forall_app. split; [done|].
    by constructor.
Qed.

Lemma eventGroup_own (c : compiledRule) (ev : Event) :
  eventGroup c ev = None ∨
  eventGroup c ev = Some (groupKeyString (extractGroup ev (GroupBy (c_Rule c)))).
Proof. unfold eventGroup. repeat case_match; auto. Qed.

Lemma passes_one (c : compiledRule) (ev : Event) :
  matches_step c 0 ev (extractGroup ev (GroupBy (c_Rule c))) = true → passes c [ev].
Proof.
  intros Hm. exists ev, []. split; [done|]. split.
  - intros i e [-> ->]%list_lookup_singleton_Some. done.
  - constructor; [apply eventGroup_own|constructor].
Qed.

(** what the engine knows about a stored session after the events [h] *)
Definition session_ok (cs : list compiledRule) (h : list Event) (k : sessionKey) (s : Session) : Prop :=
  ∃ es e0, s_Rule s ∈ cs ∧ k = (ID (c_Rule (s_Rule s)), groupKeyString (s_GroupKey s)) ∧
  es `sublist_of` h ∧ es `sublist_of` s_Events s ∧ length es = s_StepIndex s ∧
  passes (s_Rule s) es ∧ head es = Some e0 ∧
  s_GroupKey s = extractGroup e0 (GroupBy (c_Rule (s_Rule s))) ∧
  s_StepIndex s < length (Steps (c_Rule (s_Rule s))).

(** what an incident promises *)
Definition backed (cs : list compiledRule) (h : list Event) (a : Alert) : Prop :=
  ∃ c es e, c ∈ cs ∧ al_RuleID a = ID (c_Rule c) ∧ es `sublist_of` h ∧
  length es = length (Steps (c_Rule c)) ∧ passes c es ∧ last es = Some e ∧
  al_Event a = set_severity (rule_Severity (c_Rule c)) e ∧
  (ev_ID <$> es) `sublist_of` al_EvidenceIDs a.

Definition engine_ok (cs : list compiledRule) (h : list Event) (m : gmap sessionKey Session) : Prop :=
  map_Forall (session_ok cs h) m.

Lemma session_ok_grow (cs : list compiledRule) (h h' : list Event) (k : sessionKey) (s : Session) :
  h `sublist_of` h' → session_ok cs h k s → session_ok cs h' k s.
Proof.
  intros Hh (es & e0 & H1 & H2 & H3 & H). exists es, e0. split_and!; [done|done| |naive_solver..].
  by etrans.
Qed.

Lemma backed_fire (cs : list compiledRule) (h es : list Event) (has_emit : bool) (c : compiledRule)
    (s : Session) (ev : Event) (a : Alert) :
  a ∈ fire has_emit c s → c ∈ cs → es ++ [ev] `sublist_of` h →
  length (es ++ [ev]) = length (Steps (c_Rule c)) → passes c (es ++ [ev]) →
  ∀ evs, s_Events s = evs ++ [ev] → es `sublist_of` evs → backed cs h a.
Proof.
  unfold fire. destruct has_emit; [|by intros ?%elem_of_nil].
  intros ->%list_elem_of_singleton Hc Hsub Hlen Hp evs Hs Hes.
  exists c, (es ++ [ev]), ev. split_and!; [done|done|done|done|done| | |].
  - by rewrite last_snoc.
  - unfold incident. cbn [al_Event]. by rewrite Hs, List.last_last.
  - unfold incident. cbn [al_EvidenceIDs]. rewrite Hs, !fmap_app.
    apply sublist_app; [|done]. by apply sublist_fmap.
Qed.

Section soundness.
Context (cs : list compiledRule).
Context (Hok : Forall compiled_ok cs).
Context (Hids : NoDup ((λ c, ID (c_Rule c)) <$> cs)).

Lemma advance1_ok (has_emit : bool) (c : compiledRule) (h : list Event) (ev : Event)
    (now : Time.time) (k : sessionKey) (s : Session) :
  c ∈ cs → session_ok cs h k s →
  let r := advance1 has_emit c ev now k s in
  (∀ s', r.1 = Some s' → session_ok cs (h ++ [ev]) k s') ∧ Forall (backed cs (h ++ [ev])) r.2.
Proof.
  intros Hc Hs.
  assert (session_ok cs (h ++ [ev]) k s) as Hgrow
    by (eapply session_ok_grow; [apply sublist_inserts_r|]; done).
  unfold advance1. destruct (in_scope c ev k) eqn:Hscope; simpl.
  2:{ split; [by intros s' [= <-]|constructor]. }
  case_match; simpl; [split; [by intros s' [= <-]|constructor]|].
  destruct (matches_step c (s_StepIndex s) ev (s_GroupKey s)) eqn:Hm; simpl.
  2:{ split; [by intros s' [= <-]|constructor]. }
  case_match; simpl; [by split; [|constructor]|].
  destruct Hs as (es & e0 & Hr & Hk & Hsub & Hev & Hlen & Hp & Hhd & Hg & Hidx).
  unfold in_scope in Hscope. apply andb_true_iff in Hscope as [Hid Hgrp].
  apply bool_decide_eq_true in Hid. rewrite Hk in Hid, Hgrp. cbn [fst snd] in Hid, Hgrp.
  assert (s_Rule s = c) as Hrule by (by eapply (NoDup_fmap_inj (λ c, ID (c_Rule c)))).
  rewrite Hrule in *. rewrite Hg in Hm. rewrite <-Hlen in Hm.
  assert (eventGroup c ev = None ∨ eventGroup c ev =
            Some (groupKeyString (extractGroup e0 (GroupBy (c_Rule c))))) as Heg.
  { destruct (eventGroup c ev); [right|by left]. apply bool_decide_eq_true in Hgrp. by rewrite <-Hgrp, Hg. }
  pose proof (passes_snoc c es e0 ev Hp Hhd Hm Heg) as Hp'.
  assert (es ++ [ev] `sublist_of` h ++ [ev]) as Hsub' by (by apply sublist_app).
  cbn [s_StepIndex advanced]. clear Hgrp.
  destruct (length (Steps (c_Rule c)) <=? S (s_StepIndex s))%nat eqn:Hfin; simpl; bool_to_prop.
  - split; [done|]. apply Forall_forall. intros a Ha.
    eapply backed_fire; [exact Ha|done|exact Hsub'| |exact Hp'|reflexivity|exact Hev].
    rewrite length_app. simpl. lia.
  - split; [|constructor]. intros s' [= <-]. exists (es ++ [ev]), e0. cbn.
    rewrite Hrule, length_app. simpl. split_and!; try done.
    + by apply sublist_app.
    + lia.
    + by destruct es; simpl in *; simplify_eq.
Qed.

(** sessions of the rules still to come have not seen the event [ev] *)
Definition midway (h : list Event) (ev : Event) (todo : list compiledRule)
    (m : gmap sessionKey Session) : Prop :=
  ∀ k s, m !! k = Some s → session_ok cs (h ++ [ev]) k s ∧
    (k.1 ∈ (λ c, ID (c_Rule c)) <$> todo → session_ok cs h k s).

Lemma tryOpen_ok (c : compiledRule) (h : list Event) (ev : Event) (now : Time.time)
    (todo : list compiledRule) (e : Engine) :
  c ∈ cs → ID (c_Rule c) ∉ (λ c, ID (c_Rule c)) <$> todo → midway h ev todo (sessions e) →
  midway h ev todo (sessions (tryOpen c ev now e).1) ∧
  Forall (backed cs (h ++ [ev])) (tryOpen c ev now e).2.
Proof.
  intros Hc Hn Hm. unfold tryOpen. case_match; simpl; [done|]. bool_to_prop.
  pose proof (passes_one c ev ltac:(done)) as Hp.
  assert ([ev] `sublist_of` h ++ [ev]) as Hsub by (by apply sublist_inserts_l).
  assert (compiled_ok c) as Hcc by (by rewrite Forall_forall in Hok; apply Hok).
  assert (1 ≤ length (Steps (c_Rule c))) as Hlen.
  { rewrite <-Hcc. unfold matches_step in *. destruct (c_Compiled c); [done|simpl; lia]. }
  destruct (sessions e !! open_key c ev) as [s|] eqn:Hs.
  - split; [|constructor]. simpl. intros k s' Hk. apply lookup_insert_Some in Hk as [[<- <-]|[Hne Hk]].
    + split; [|done]. destruct (Hm _ _ Hs) as [(es & e0 & H1 & H2 & H3 & H4 & H5) _].
      exists es, e0. split_and!; try naive_solver. by apply sublist_inserts_r.
    + by apply Hm.
  - case_match; bool_to_prop; simpl.
    + split; [done|]. apply Forall_forall. intros a Ha.
      eapply (backed_fire cs (h ++ [ev]) []); [exact Ha|done|exact Hsub|by simpl|exact Hp| |].
      * by instantiate (1 := []).
      * done.
    + split; [|constructor]. intros k s' Hk. apply lookup_insert_Some in Hk as [[<- <-]|[Hne Hk]].
      * split; [|done]. exists [ev], ev. cbn. split_and!; try done. lia.
      * by apply Hm.
Qed.

(** one rule's loop keeps the sessions of the other rules untouched *)
Lemma advance_ok (ord : gmap sessionKey Session → list sessionKey)
    (Hord : ∀ m, range_order m (ord m)) (c : compiledRule) (h : list Event) (ev : Event)
    (now : Time.time) (todo : list compiledRule) (e : Engine) :
  c ∈ cs → ID (c_Rule c) ∉ (λ c, ID (c_Rule c)) <$> todo → midway h ev (c :: todo) (sessions e) →
  midway h ev todo (sessions (advanceSessions ord c ev now e).1) ∧
  Forall (backed cs (h ++ [ev])) (advanceSessions ord c ev now e).2.
Proof.
  intros Hc Hni Hm. unfold advanceSessions.
  destruct (advance_loop_spec (emit e) c ev now (ord (sessions e)) (sessions e)) as [Hl Ha];
    [apply Hord|].
  destruct (advance_loop _ _ _ _ _ _) as [m a]. cbn [fst snd sessions with_sessions] in *.
  assert (∀ k s, sessions e !! k = Some s → k.1 ≠ ID (c_Rule c) →
            advance1 (emit e) c ev now k s = (Some s, [])) as Hout.
  { intros k s _ Hk. unfold advance1, in_scope. by rewrite bool_decide_eq_false_2. }
  split.
  - intros k s' Hk. rewrite Hl in Hk. destruct (decide (k ∈ _)) as [Hin|Hnin].
    2:{ destruct (Hm k s' Hk) as [H1 H2]. split; [done|]. intros Ht. apply H2. by right. }
    destruct (sessions e !! k) as [s|] eqn:Hs; [|done]. cbn in Hk.
    destruct (Hm k s Hs) as [H1 H2]. destruct (decide (k.1 = ID (c_Rule c))) as [Hid|Hid].
    + split; [|intros Ht; by rewrite Hid in Ht].
      apply (advance1_ok (emit e) c h ev now k s); [done|apply H2; rewrite Hid; by left|done].
    + rewrite (Hout k s Hs Hid) in Hk. cbn in Hk. simplify_eq. split; [done|].
      intros Ht. apply H2. by right.
  - rewrite Ha. apply Forall_forall. intros al Hal. apply list_elem_of_bind in Hal as (k & Hal & _).
    destruct (sessions e !! k) as [s|] eqn:Hs; cbn in Hal; [|by apply elem_of_nil in Hal].
    destruct (decide (k.1 = ID (c_Rule c))) as [Hid|Hid].
    + destruct (Hm k s Hs) as [_ H2].
      destruct (advance1_ok (emit e) c h ev now k s Hc) as [_ Hf];
        [apply H2; rewrite Hid; by left|]. rewrite Forall_forall in Hf. by apply Hf.
    + rewrite (Hout k s Hs Hid) in Hal. by apply elem_of_nil in Hal.
Qed.

Lemma ingest_rules_ok (ord : gmap sessionKey Session → list sessionKey)
    (Hord : ∀ m, range_order m (ord m)) (h : list Event) (ev : Event) (now : Time.time)
    (todo : list compiledRule) : ∀ e,
  Forall (λ c, c ∈ cs) todo → NoDup ((λ c, ID (c_Rule c)) <$> todo) → midway h ev todo (sessions e) →
  engine_ok cs (h ++ [ev]) (sessions (ingest_rules ord ev now todo e).1) ∧
  Forall (backed cs (h ++ [ev])) (ingest_rules ord ev now todo e).2.
Proof.
  induction todo as [|c todo IH]; intros e Hin Hnd Hm; simpl.
  { split; [|constructor]. intros k s Hk. by apply Hm. }
  inversion Hin as [|? ? Hc Hin']; inversion Hnd as [|? ? Hni Hnd']; simplify_eq.
  assert (midway h ev todo (sessions (advanceSessions ord c ev now e).1) ∧
          Forall (backed cs (h ++ [ev])) (advanceSessions ord c ev now e).2) as [Hm1 Ha1].
  { by apply advance_ok. }
  destruct (advanceSessions ord c ev now e) as [e1 a1]. cbn [fst snd] in *.
  destruct (tryOpen_ok c h ev now todo e1 Hc Hni Hm1) as [Hm2 Ha2].
  destruct (tryOpen c ev now e1) as [e2 a2]. cbn [fst snd] in *.
  destruct (IH e2 Hin' Hnd' Hm2) as [Hm3 Ha3].
  destruct (ingest_rules ord ev now todo e2) as [e3 a3]. cbn [fst snd] in *.
  split; [done|]. by rewrite !Forall_app.
Qed.

End soundness.

Lemma ingest_rules_rules (ord : gmap sessionKey Session → list sessionKey) (ev : Event)
    (now : Time.time) (todo : list compiledRule) : ∀ e,
  rules (ingest_rules ord ev now todo e).1 = rules e.
Proof.
  induction todo as [|c todo IH]; intros e; [done|]. simpl.
  assert (rules (advanceSessions ord c ev now e).1 = rules e) as H1
    by (unfold advanceSessions; by destruct (advance_loop _ _ _ _ _ _)).
  destruct (advanceSessions ord c ev now e) as [e1 a1].
  assert (rules (tryOpen c ev now e1).1 = rules e1) as H2
    by (unfold tryOpen; by repeat case_match).
  destruct (tryOpen c ev now e1) as [e2 a2]. specialize (IH e2).
  destruct (ingest_rules ord ev now todo e2) as [e3 a3]. simpl in *. congruence.
Qed.

Lemma backed_grow (cs : list compiledRule) (h h' : list Event) (a : Alert) :
  h `sublist_of` h' → backed cs h a → backed cs h' a.
Proof.
  intros Hh (c & es & e & H1 & H2 & H3 & H). exists c, es, e. split_and!; [done|done| |naive_solver..].
  by etrans.
Qed.

Lemma replay_ok (cs : list compiledRule) (ord : gmap sessionKey Session → list sessionKey)
    (evs : list (Time.time * Event)) : ∀ h e,
  Forall compiled_ok cs → NoDup ((λ c, ID (c_Rule c)) <$> cs) → (∀ m, range_order m (ord m)) →
  rules e = cs → engine_ok cs h (sessions e) →
  Forall (backed cs (h ++ (snd <$> evs))) (replay ord evs e).2.
Proof.
  induction evs as [|[clock ev] evs IH]; intros h e Hok Hids Hord Hr Hm; [constructor|].
  simpl. unfold Ingest. set (now := if Time.IsZero (ev_Time ev) then clock else ev_Time ev).
  destruct (ingest_rules_ok cs Hok Hids ord Hord h ev now (rules e) e) as [Hm' Ha'].
  - rewrite Hr. by apply Forall_forall.
  - by rewrite Hr.
  - intros k s Hk. specialize (Hm k s Hk). split; [|done].
    eapply session_ok_grow; [by apply sublist_inserts_r|done].
  - pose proof (ingest_rules_rules ord ev now (rules e) e) as Hrr.
    destruct (ingest_rules ord ev now (rules e) e) as [e1 a1]. cbn [fst snd] in *.
    destruct (replay ord evs (expire now e1)) as [e2 a2] eqn:Hrep. cbn [fst snd].
    apply Forall_app. split.
    + eapply Forall_impl; [exact Ha'|]. intros a. apply backed_grow.
      change (h ++ [ev] `sublist_of` h ++ ([ev] ++ (snd <$> evs))). rewrite app_assoc.
      by apply sublist_inserts_r.
    + specialize (IH (h ++ [ev]) (expire now e1) Hok Hids Hord). rewrite Hrep in IH.
      rewrite <-app_assoc in IH. apply IH; [by rewrite <-Hr|].
      intros k s Hk. apply map_lookup_filter_Some in Hk as [Hk _]. by apply Hm'.
Qed.

(** ** Incidents are delivered *)

Definition rule_step (ord : gmap sessionKey Session → list sessionKey) (c : compiledRule)
    (ev : Event) (now : Time.time) (e : Engine) : Engine * list Alert :=
  let '(e1, a1) := advanceSessions ord c ev now e in
  let '(e2, a2) := tryOpen c ev now e1 in (e2, a1 ++ a2).

Section delivery.
Context (ord : gmap sessionKey Session → list sessionKey) (Hord : ∀ m, range_order m (ord m)).

(** what one rule does to a key *)
Lemma advance_at (c : compiledRule) (ev : Event) (now : Time.time) (e : Engine) (k : sessionKey) :
  sessions (advanceSessions ord c ev now e).1 !! k =
    (sessions e !! k ≫= λ s, (advance1 (emit e) c ev now k s).1) ∧
  ∀ s a, sessions e !! k = Some s → a ∈ (advance1 (emit e) c ev now k s).2 →
    a ∈ (advanceSessions ord c ev now e).2.
Proof.
  unfold advanceSessions.
  destruct (advance_loop_spec (emit e) c ev now (ord (sessions e)) (sessions e)) as [Hl Ha];
    [apply Hord|].
  destruct (advance_loop _ _ _ _ _ _) as [m al]. cbn [fst snd sessions with_sessions] in *.
  split.
  - rewrite Hl. destruct (decide _) as [|Hn]; [done|].
    destruct (sessions e !! k) eqn:Hk; [|done]. exfalso. apply Hn, Hord. eauto.
  - intros s a Hk Hin. rewrite Ha. apply list_elem_of_bind. exists k.
    rewrite Hk. split; [done|]. apply Hord. eauto.
Qed.

Lemma rule_step_other (c : compiledRule) (ev : Event) (now : Time.time) (e : Engine) (k : sessionKey) :
  k.1 ≠ ID (c_Rule c) →
  sessions (rule_step ord c ev now e).1 !! k = sessions e !! k ∧
  emit (rule_step ord c ev now e).1 = emit e.
Proof.
  intros Hk. unfold rule_step. destruct (advance_at c ev now e k) as [Hl _].
  assert (emit (advanceSessions ord c ev now e).1 = emit e) as He
    by (unfold advanceSessions; by destruct (advance_loop _ _ _ _ _ _)).
  destruct (advanceSessions ord c ev now e) as [e1 a1]. cbn [fst] in Hl, He.
  assert (sessions e1 !! k = sessions e !! k) as Hl1.
  { rewrite Hl. destruct (sessions e !! k); [|done]. cbn. unfold advance1, in_scope.
    by rewrite bool_decide_eq_false_2. }
  unfold tryOpen. destruct (negb _); [done|].
  assert (open_key c ev ≠ k) as Hne by (intros <-; done).
  destruct (sessions e1 !! open_key c ev); [|destruct (length _ =? 1)%nat]; simpl;
    by rewrite ?lookup_insert_ne.
Qed.

Lemma ingest_rules_cons (c : compiledRule) (cs : list compiledRule) (ev : Event) (now : Time.time)
    (e : Engine) :
  ingest_rules ord ev now (c :: cs) e =
    ((ingest_rules ord ev now cs (rule_step ord c ev now e).1).1,
     (rule_step ord c ev now e).2 ++ (ingest_rules ord ev now cs (rule_step ord c ev now e).1).2).
Proof.
  simpl. unfold rule_step. destruct (advanceSessions ord c ev now e) as [e1 a1].
  destruct (tryOpen c ev now e1) as [e2 a2]. cbn [fst snd].
  destruct (ingest_rules ord ev now cs e2) as [e3 a3]. by rewrite app_assoc.
Qed.

Lemma ingest_rules_other (ev : Event) (now : Time.time) (k : sessionKey)
    (todo : list compiledRule) : ∀ e,
  k.1 ∉ (λ c, ID (c_Rule c)) <$> todo →
  sessions (ingest_rules ord ev now todo e).1 !! k = sessions e !! k.
Proof.
  induction todo as [|c todo IH]; intros e Hk; [done|].
  rewrite fmap_cons, not_elem_of_cons in Hk. destruct Hk as [Hne Hk].
  rewrite ingest_rules_cons. cbn [fst]. rewrite IH by done. by apply rule_step_other.
Qed.

(** with distinct rule ids, a key sees only its own rule *)
Lemma ingest_rules_at (c : compiledRule) (ev : Event) (now : Time.time) (k : sessionKey)
    (todo : list compiledRule) : ∀ e,
  k.1 = ID (c_Rule c) → NoDup ((λ c, ID (c_Rule c)) <$> todo) → c ∈ todo →
  ∃ e1, sessions e1 !! k = sessions e !! k ∧ emit e1 = emit e ∧
    sessions (ingest_rules ord ev now todo e).1 !! k = sessions (rule_step ord c ev now e1).1 !! k ∧
    ∀ a, a ∈ (rule_step ord c ev now e1).2 → a ∈ (ingest_rules ord ev now todo e).2.
Proof.
  induction todo as [|c0 todo IH]; intros e Hk Hnd Hin; [by apply elem_of_nil in Hin|].
  inversion Hnd as [|? ? Hni Hnd']; simplify_eq. rewrite ingest_rules_cons. cbn [fst snd].
  apply elem_of_cons in Hin as [->|Hin].
  - exists e. split_and!; [done|done| |].
    + apply ingest_rules_other. by rewrite Hk.
    + intros a Ha. apply elem_of_app. by left.
  - assert (k.1 ≠ ID (c_Rule c0)) as Hne.
    { rewrite Hk. intros Heq. apply Hni. rewrite <-Heq. apply list_elem_of_fmap. by exists c. }
    destruct (rule_step_other c0 ev now e k Hne) as [Hs He].
    destruct (IH (rule_step ord c0 ev now e).1 Hk Hnd' Hin) as (e1 & H1 & H2 & H3 & H4).
    exists e1. rewrite H1, H2, Hs, He, H3. split_and!; [done..|].
    intros a Ha. apply elem_of_app. right. by apply H4.
Qed.

(** the session of a match in progress: [i] steps done, opened at [t0], last
    advanced at [tp] *)
Definition at_step (c : compiledRule) (g : gmap string string) (t0 tp : Time.time) (i : nat)
    (s : Session) : Prop :=
  s_Rule s = c ∧ s_GroupKey s = g ∧ s_StepIndex s = i ∧ s_StartedAt s = t0 ∧ s_LastFired s = tp.

(** the event [ev] passes step [i] of the match inside the step's window *)
Definition continues (c : compiledRule) (g : gmap string string) (tp : Time.time) (i : nat)
    (ev : Event) : Prop :=
  Time.IsZero (ev_Time ev) = false ∧ matches_step c i ev g = true ∧
  (eventGroup c ev = None ∨ eventGroup c ev = Some (groupKeyString g)) ∧
  (step_within c i ≤ 0 ∨ Time.Sub (ev_Time ev) tp ≤ step_within c i)%Z.

Definition in_window (c : compiledRule) (t0 : Time.time) (ev : Event) : Prop :=
  (Window (c_Rule c) ≤ 0 ∨ Time.Sub (ev_Time ev) t0 ≤ Window (c_Rule c))%Z.

Fixpoint continued (c : compiledRule) (g : gmap string string) (t0 tp : Time.time) (i : nat)
    (es : list Event) : Prop :=
  match es with
  | [] => True
  | ev :: es' => continues c g tp i ev ∧ in_window c t0 ev ∧ continued c g t0 (ev_Time ev) (S i) es'
  end.

Definition delivered (c : compiledRule) (ev : Event) (al : list Alert) : Prop :=
  ∃ a, a ∈ al ∧ al_RuleID a = ID (c_Rule c) ∧
    al_Event a = set_severity (rule_Severity (c_Rule c)) ev.

Lemma advance1_progress (c : compiledRule) (g : gmap string string) (t0 tp : Time.time) (i : nat)
    (ev : Event) (s : Session) :
  compiled_ok c → at_step c g t0 tp i s → continues c g tp i ev →
  i < length (Steps (c_Rule c)) →
  advance1 true c ev (ev_Time ev) (ID (c_Rule c), groupKeyString g) s =
    if decide (S i = length (Steps (c_Rule c)))
    then (None, [incident c (advanced ev (ev_Time ev) s)])
    else (Some (advanced ev (ev_Time ev) s), []).
Proof.
  intros Hok (Hr & Hg & Hi & Hs & Hl) (Hz & Hm & Hgrp & Hw) Hlen. unfold advance1, in_scope.
  cbn [fst snd]. rewrite bool_decide_eq_true_2 by done.
  assert (match eventGroup c ev with Some g0 => bool_decide (groupKeyString g = g0) | None => true end
          = true) as ->.
  { destruct Hgrp as [->| ->]; [done|]. by apply bool_decide_eq_true_2. }
  cbn [andb negb]. unfold compiled_ok in Hok. rewrite Hi, Hg, Hm, Hok, Hl.
  rewrite (proj2 (Nat.leb_gt _ _)) by lia. cbn [negb].
  assert ((0 <? step_within c i)%Z && (step_within c i <? Time.Sub (ev_Time ev) tp)%Z = false) as ->.
  { apply andb_false_iff. destruct Hw; [left|right]; by apply Z.ltb_ge. }
  cbn [advanced s_StepIndex]. rewrite Hi. case_decide as Hd.
  - by rewrite (proj2 (Nat.leb_le _ _)) by lia.
  - by rewrite (proj2 (Nat.leb_gt _ _)) by lia.
Qed.

Lemma tryOpen_keeps_step (c : compiledRule) (g : gmap string string) (t0 now : Time.time) (i : nat)
    (ev : Event) (e : Engine) (k : sessionKey) (s : Session) :
  sessions e !! k = Some s → at_step c g t0 now i s →
  ∃ s', sessions (tryOpen c ev now e).1 !! k = Some s' ∧ at_step c g t0 now i s'.
Proof.
  intros Hk Hs. unfold tryOpen. destruct (negb _); [by exists s|].
  destruct (decide (open_key c ev = k)) as [<-|Hne].
  - rewrite Hk. exists (bumped ev now s). simpl. rewrite lookup_insert_eq. split; [done|].
    destruct Hs as (H1 & H2 & H3 & H4 & H5). by split_and!.
  - exists s. destruct (sessions e !! open_key c ev); [|destruct (length _ =? 1)%nat]; simpl;
      by rewrite ?lookup_insert_ne.
Qed.

Lemma Ingest_rules_emit (clock : Time.time) (ev : Event) (e : Engine) :
  rules (Ingest ord clock ev e).1 = rules e ∧ emit (Ingest ord clock ev e).1 = emit e.
Proof.
  unfold Ingest. set (now := if Time.IsZero (ev_Time ev) then clock else ev_Time ev).
  pose proof (ingest_rules_rules ord ev now (rules e) e) as Hr.
  assert (emit (ingest_rules ord ev now (rules e) e).1 = emit e) as He.
  { clear Hr. generalize (rules e). intros cs. revert e. induction cs as [|c cs IH]; intros e; [done|].
    rewrite ingest_rules_cons. cbn [fst]. rewrite IH. unfold rule_step.
    assert (emit (advanceSessions ord c ev now e).1 = emit e) as H1
      by (unfold advanceSessions; by destruct (advance_loop _ _ _ _ _ _)).
    destruct (advanceSessions ord c ev now e) as [e1 a1]. cbn [fst] in H1.
    assert (emit (tryOpen c ev now e1).1 = emit e1) as H2 by (unfold tryOpen; by repeat case_match).
    destruct (tryOpen c ev now e1). simpl in *. congruence. }
  destruct (ingest_rules ord ev now (rules e) e). done.
Qed.

Section one_rule.
Context (cs : list compiledRule) (c : compiledRule).
Context (Hids : NoDup ((λ c, ID (c_Rule c)) <$> cs)) (Hin : c ∈ cs) (Hok : compiled_ok c).

Lemma Ingest_progress (g : gmap string string) (t0 tp clock : Time.time) (i : nat) (ev : Event)
    (e : Engine) (s : Session) :
  rules e = cs → emit e = true → i < length (Steps (c_Rule c)) →
  sessions e !! (ID (c_Rule c), groupKeyString g) = Some s → at_step c g t0 tp i s →
  continues c g tp i ev → (S i ≠ length (Steps (c_Rule c)) → in_window c t0 ev) →
  if decide (S i = length (Steps (c_Rule c))) then delivered c ev (Ingest ord clock ev e).2
  else ∃ s', sessions (Ingest ord clock ev e).1 !! (ID (c_Rule c), groupKeyString g) = Some s' ∧
             at_step c g t0 (ev_Time ev) (S i) s'.
Proof.
  intros Hr He Hi Hk Hs Hc Hwin. set (k := (ID (c_Rule c), groupKeyString g)) in *.
  unfold Ingest. assert (Time.IsZero (ev_Time ev) = false) as -> by apply Hc. rewrite Hr.
  destruct (ingest_rules_at c ev (ev_Time ev) k cs e eq_refl Hids Hin) as (e1 & H1 & H2 & H3 & H4).
  destruct (ingest_rules ord ev (ev_Time ev) cs e) as [e2 a2]. cbn [fst snd] in *.
  rewrite Hk in H1. rewrite He in H2. unfold rule_step in H3, H4.
  destruct (advance_at c ev (ev_Time ev) e1 k) as [Ha1 Ha2]. rewrite H1, H2 in Ha1. rewrite H2 in Ha2.
  cbn in Ha1. pose proof (advance1_progress c g t0 tp i ev s Hok Hs Hc Hi) as Hadv. fold k in Hadv.
  specialize (Ha2 s). rewrite Hadv in Ha1, Ha2.
  destruct (advanceSessions ord c ev (ev_Time ev) e1) as [e3 a3]. cbn [fst snd] in *.
  destruct Hs as (Hs1 & Hs2 & Hs3 & Hs4 & Hs5). case_decide as Hd.
  - exists (incident c (advanced ev (ev_Time ev) s)). split_and!; [|done|].
    + apply H4. destruct (tryOpen c ev (ev_Time ev) e3). cbn. apply elem_of_app. left.
      apply Ha2; [done|]. by left.
    + cbn [al_Event incident advanced s_Events]. by rewrite List.last_last.
  - cbn in Ha1. destruct (tryOpen_keeps_step c g t0 (ev_Time ev) (S i) ev e3 k
      (advanced ev (ev_Time ev) s) Ha1) as (s' & Hs' & Hat); [by split_and!; simpl; congruence|].
    destruct (tryOpen c ev (ev_Time ev) e3) as [e4 a4]. cbn [fst snd] in *. exists s'. split; [|done].
    cbn [fst expire sessions with_sessions]. apply map_lookup_filter_Some. split; [by rewrite H3|].
    destruct Hat as (Hr' & _ & _ & Ht0 & _). unfold expired. cbn [snd]. rewrite Hr', Ht0.
    apply andb_false_iff. destruct (Hwin Hd) as [Hw|Hw]; [left|right]; by apply Z.ltb_ge.
Qed.

Lemma Ingest_opens (clock : Time.time) (ev : Event) (e : Engine) :
  let g := extractGroup ev (GroupBy (c_Rule c)) in
  rules e = cs → emit e = true → sessions e !! open_key c ev = None →
  Time.IsZero (ev_Time ev) = false → matches_step c 0 ev g = true →
  if decide (1 = length (Steps (c_Rule c))) then delivered c ev (Ingest ord clock ev e).2
  else ∃ s', sessions (Ingest ord clock ev e).1 !! open_key c ev = Some s' ∧
             at_step c g (ev_Time ev) (ev_Time ev) 1 s'.
Proof.
  intros g Hr He Hk Hz Hm. unfold Ingest. rewrite Hz, Hr.
  destruct (ingest_rules_at c ev (ev_Time ev) (open_key c ev) cs e eq_refl Hids Hin)
    as (e1 & H1 & H2 & H3 & H4).
  destruct (ingest_rules ord ev (ev_Time ev) cs e) as [e2 a2]. cbn [fst snd] in *.
  rewrite Hk in H1. rewrite He in H2. unfold rule_step in H3, H4.
  destruct (advance_at c ev (ev_Time ev) e1 (open_key c ev)) as [Ha1 _]. rewrite H1 in Ha1. cbn in Ha1.
  assert (emit (advanceSessions ord c ev (ev_Time ev) e1).1 = true) as Hem
    by (unfold advanceSessions; by destruct (advance_loop _ _ _ _ _ _)).
  destruct (advanceSessions ord c ev (ev_Time ev) e1) as [e3 a3]. cbn [fst snd] in *.
  unfold tryOpen in H3, H4. fold g in H3, H4. rewrite Hm, Ha1, Hem in H3, H4. cbn [negb] in H3, H4.
  case_decide as Hd.
  - rewrite <-Hd in H4. cbn in H4. exists (incident c (opened c ev (ev_Time ev))).
    split_and!; [|done|done]. apply H4, elem_of_app. right. by left.
  - rewrite (proj2 (Nat.eqb_neq _ _)) in H3 by done. cbn [fst sessions with_sessions] in H3.
    rewrite lookup_insert_eq in H3. exists (opened c ev (ev_Time ev)). split; [|by split_and!].
    cbn [fst expire sessions with_sessions]. apply map_lookup_filter_Some. split; [done|].
    unfold expired. cbn [snd opened s_Rule s_StartedAt]. apply andb_false_iff.
    destruct (Z.ltb_spec 0 (Window (c_Rule c))); [right|by left].
    apply Z.ltb_ge. rewrite Time.Sub_diag. lia.
Qed.

(** the last event of a continued match delivers the incident *)
Lemma replay_progress (g : gmap string string) (t0 : Time.time) (evs : list (Time.time * Event)) :
  ∀ i tp e s ev,
  rules e = cs → emit e = true → sessions e !! (ID (c_Rule c), groupKeyString g) = Some s →
  at_step c g t0 tp i s → continued c g t0 tp i (snd <$> evs) → evs ≠ [] →
  i + length evs = length (Steps (c_Rule c)) → last (snd <$> evs) = Some ev →
  delivered c ev (replay ord evs e).2.
Proof.
  induction evs as [|[clock ev0] evs IH]; intros i tp e s ev Hr He Hk Hs Hc Hne Hlen Hlast; [done|].
  rewrite fmap_cons in Hc, Hlast. destruct Hc as (Hc & Hwin & Hrest). cbn [snd length] in *.
  pose proof (Ingest_progress g t0 tp clock i ev0 e s Hr He ltac:(lia) Hk Hs Hc (λ _, Hwin)) as Hp.
  destruct (Ingest_rules_emit clock ev0 e) as [Hr1 He1]. cbn [replay].
  destruct (Ingest ord clock ev0 e) as [e1 a1]. cbn [fst snd] in *.
  destruct evs as [|ev1 evs].
  - rewrite decide_True in Hp by (simpl in Hlen; lia). simpl in Hlast. simplify_eq.
    destruct Hp as (a & Ha & Hrest'). exists a. split; [|done]. cbn. apply elem_of_app. by left.
  - rewrite decide_False in Hp by (simpl in Hlen; lia). destruct Hp as (s' & Hk' & Hs').
    destruct (IH (S i) (ev_Time ev0) e1 s' ev) as (a & Ha & Hrest');
      [congruence|congruence|done|done|exact Hrest|done|simpl in *; lia|by rewrite fmap_cons in *|].
    destruct (replay ord (ev1 :: evs) e1) as [e2 a2]. exists a. split; [|done].
    cbn in *. apply elem_of_app. by right.
Qed.

End one_rule.

End delivery.

(** ** Properties *)

(** C38: replaying a stream is independent of the order in which the session map
    is walked: for any two walk orders the engine ends in the same state and
    every event produces the same incidents, up to their order. *)
Theorem replay_order_independent (ord ord' : gmap sessionKey Session → list sessionKey)
    (evs : list (Time.time * Event)) (e : Engine) :
  (∀ m, range_order m (ord m)) → (∀ m, range_order m (ord' m)) →
  (replay ord evs e).1 = (replay ord' evs e).1 ∧
  Forall2 Permutation (chunks ord evs e) (chunks ord' evs e).
Proof. intros Hord Hord'. by apply replay_perm. Qed.

(** no incident without evidence: after loading rules with distinct ids,
    every incident a stream produces names a loaded rule and is backed by a
    subsequence of the stream with one event per step, each passing its step
    under the group of the first and none belonging to another group; the
    incident carries the last of them and lists the ids of all. *)
Theorem incidents_are_backed (ord : gmap sessionKey Session → list sessionKey)
    (rs : list Rule) (cs : list compiledRule) (has_emit : bool) (evs : list (Time.time * Event))
    (a : Alert) :
  (∀ m, range_order m (ord m)) → compile_all rs = Ok cs → NoDup (ID <$> rs) →
  a ∈ (replay ord evs (Load rs (New has_emit)).1).2 → backed cs (snd <$> evs) a.
Proof.
  intros Hord Hc Hnd Ha. destruct (compile_all_ok rs cs Hc) as [Hok Hids].
  unfold Load in Ha. rewrite Hc in Ha. rewrite <-Hids in Hnd.
  cbn [fst] in Ha. match type of Ha with _ ∈ (replay _ _ ?e0).2 => set (e := e0) in Ha end.
  pose proof (replay_ok cs ord evs [] e Hok Hnd Hord eq_refl (map_Forall_empty _)) as Hf.
  rewrite Forall_forall in Hf. by apply Hf.
Qed.

(** a completed sequence is reported: when an event opens a match of a
    loaded rule and the next events continue it step by step inside the step
    and rule windows, the last one delivers the rule's incident, whatever other
    rules are loaded and other sessions are open. *)
Theorem completed_sequence_delivers (ord : gmap sessionKey Session → list sessionKey)
    (cs : list compiledRule) (c : compiledRule) (e : Engine) (clock : Time.time) (e0 : Event)
    (evs : list (Time.time * Event)) (ev : Event) :
  let g := extractGroup e0 (GroupBy (c_Rule c)) in
  (∀ m, range_order m (ord m)) → rules e = cs → NoDup ((λ c, ID (c_Rule c)) <$> cs) → c ∈ cs →
  compiled_ok c → emit e = true → sessions e !! open_key c e0 = None →
  Time.IsZero (ev_Time e0) = false → matches_step c 0 e0 g = true →
  continued c g (ev_Time e0) (ev_Time e0) 1 (snd <$> evs) →
  S (length evs) = length (Steps (c_Rule c)) → last (e0 :: (snd <$> evs)) = Some ev →
  delivered c ev (replay ord ((clock, e0) :: evs) e).2.
Proof.
  intros g Hord Hr Hids Hin Hok He Hk Hz Hm Hc Hlen Hlast.
  pose proof (Ingest_opens ord Hord cs c Hids Hin clock e0 e Hr He Hk Hz Hm) as Hop.
  destruct (Ingest_rules_emit ord clock e0 e) as [Hr1 He1]. cbn [replay].
  destruct (Ingest ord clock e0 e) as [e1 a1]. cbn [fst snd] in *. destruct evs as [|x evs].
  - rewrite decide_True in Hop by done. simpl in Hlast. simplify_eq.
    destruct Hop as (a & Ha & Hrest). exists a. split; [|done]. cbn. apply elem_of_app. by left.
  - rewrite decide_False in Hop by (simpl in Hlen; lia). destruct Hop as (s & Hs & Hat).
    destruct (replay_progress ord Hord cs c Hids Hin Hok g (ev_Time e0) (x :: evs) 1 (ev_Time e0)
      e1 s ev) as (a & Ha & Hrest); [congruence|congruence|exact Hs|exact Hat|exact Hc|done|exact Hlen
      |by rewrite fmap_cons in *|].
    destruct (replay ord (x :: evs) e1) as [e2 a2]. exists a. split; [|done].
    cbn in *. apply elem_of_app. by right.
Qed.

(** the rule window does not bound a match: sessions are expired only after
    they have been advanced, so the second event of a two-step rule without a
    step window completes the match whatever the rule's window and however late it comes,
    when nothing was ingested in between. *)
Theorem window_not_enforced_on_completion (ord : gmap sessionKey Session → list sessionKey)
    (c : compiledRule) (clock clock' : Time.time) (e0 ev : Event) :
  let g := extractGroup e0 (GroupBy (c_Rule c)) in
  (∀ m, range_order m (ord m)) → compiled_ok c → length (Steps (c_Rule c)) = 2 →
  step_within c 1 = 0%Z → Time.IsZero (ev_Time e0) = false → Time.IsZero (ev_Time ev) = false →
  matches_step c 0 e0 g = true → matches_step c 1 ev g = true → eventGroup c ev = None →
  delivered c ev (replay ord [(clock, e0); (clock', ev)]
                    {| rules := [c]; sessions := ∅; emit := true |}).2.
Proof.
  intros g Hord Hok Hlen Hw Hz0 Hz Hm0 Hm1 Heg.
  assert (NoDup ((λ c, ID (c_Rule c)) <$> [c])) as Hids by apply NoDup_singleton.
  assert (c ∈ [c]) as Hin by by left.
  set (e := {| rules := [c]; sessions := ∅; emit := true |}).
  pose proof (Ingest_opens ord Hord [c] c Hids Hin clock e0 e eq_refl eq_refl
    (lookup_empty _) Hz0 Hm0) as Hop.
  destruct (Ingest_rules_emit ord clock e0 e) as [Hr1 He1]. cbn [replay].
  destruct (Ingest ord clock e0 e) as [e1 a1]. cbn [fst snd] in *.
  rewrite decide_False in Hop by lia. destruct Hop as (s & Hs & Hat).
  assert (continues c g (ev_Time e0) 1 ev) as Hc.
  { split_and!; [done|done|by left|]. left. by rewrite Hw. }
  pose proof (Ingest_progress ord Hord [c] c Hids Hin Hok g (ev_Time e0) (ev_Time e0) clock' 1 ev e1 s
    Hr1 He1 ltac:(lia) Hs Hat Hc ltac:(lia)) as Hp.
  rewrite decide_True in Hp by lia. destruct (Ingest ord clock' ev e1) as [e2 a2].
  destruct Hp as (a & Ha & Hrest). exists a. split; [|done]. cbn.
  rewrite !elem_of_app. right. by left.
Qed.

(** group keys are not injective: the key string joins "field=value;" with
    no escaping, so two events that differ in both group fields can name the
    same session; the second joins the first one's match instead of opening
    its own. *)
Theorem group_keys_collide (c : compiledRule)
    (f1 f2 x y z : string) (ev1 ev2 : Event) (now now' : Time.time) :
  GroupBy (c_Rule c) = [f1; f2] → String.le f1 f2 → f1 ≠ f2 →
  tag ev1 f1 = x +:+ (";" +:+ (f2 +:+ ("=" +:+ y))) → tag ev1 f2 = z →
  tag ev2 f1 = x → tag ev2 f2 = y +:+ (";" +:+ (f2 +:+ ("=" +:+ z))) →
  matches_step c 0 ev1 (extractGroup ev1 [f1; f2]) = true →
  matches_step c 0 ev2 (extractGroup ev2 [f1; f2]) = true →
  length (Steps (c_Rule c)) ≠ 1 →
  let e := {| rules := [c]; sessions := ∅; emit := true |} in
  let e' := (tryOpen c ev2 now' (tryOpen c ev1 now e).1).1 in
  extractGroup ev1 [f1; f2] ≠ extractGroup ev2 [f1; f2] ∧
  SessionCount e' = 1 ∧
  ∃ s, sessions e' !! open_key c ev2 = Some s ∧ s_Events s = [ev1; ev2] ∧
       s_GroupKey s = extractGroup ev1 [f1; f2].
Proof.
  intros Hg Hle Hne Hx1 Hz1 Hx2 Hz2 Hm1 Hm2 Hlen e e'.
  assert (open_key c ev2 = open_key c ev1) as Hk.
  { unfold open_key. rewrite Hg, !group_key_two by done. f_equal.
    rewrite Hx1, Hz1, Hx2, Hz2. by rewrite <-!Str.app_assoc. }
  assert (e' = with_sessions {[open_key c ev1 := bumped ev2 now' (opened c ev1 now)]} e) as ->.
  { subst e'. unfold tryOpen. rewrite Hg, Hm1, Hm2. cbn [negb sessions e].
    rewrite lookup_empty, (proj2 (Nat.eqb_neq _ _)) by done. cbn [fst sessions with_sessions].
    rewrite Hk, lookup_insert_eq. cbn [fst]. unfold with_sessions. cbn. f_equal.
    by rewrite insert_insert_eq. }
  split_and!.
  - intros Heq. assert (tag ev1 f1 = tag ev2 f1) as Ht.
    { apply (f_equal (λ m, default "" (m !! f1))) in Heq. unfold extractGroup in Heq. cbn in Heq.
      by rewrite !lookup_insert_eq in Heq. }
    rewrite Hx1, Hx2 in Ht. apply (f_equal Str.len) in Ht. rewrite !Str.len_app in Ht. cbn in Ht. lia.
  - unfold SessionCount. cbn [sessions with_sessions]. by rewrite map_size_singleton.
  - rewrite Hk. cbn [sessions with_sessions]. rewrite lookup_singleton_eq. eexists. split; [done|]. by rewrite <-Hg.
Qed.

End engine.

Module Demo.

(** a stand-in expression language: the text of a step is the sensor it selects *)
Definition compile_cel (s : string) : option string := Some s.
Definition eval (p : string) (v : Vars) : option cel_val := Some (VBool (bool_decide (v_sensor v = p))).

Definition rule (w within : Time.duration) (by_ : list string) : Rule :=
  {| ID := "ssh_then_curl"; Desc := "ssh login, then curl"; SeverityRaw := "high";
     rule_Severity := SeverityInfo; Mitre := []; Window := w; GroupBy := by_;
     Steps := [{| Select := "sshd"; Within := within |}; {| Select := "proc"; Within := within |}];
     Remediation := ""; Narrative := "" |}.

Definition compiled (r : Rule) : compiledRule :=
  {| c_Rule := set_rule_severity SeverityHigh r; c_Compiled := ["sshd"; "proc"] |}.

Definition ev (id sec : Z) (sensor : string) (tags : list (string * string)) : Event :=
  foldr (λ p e, set_tag p.1 p.2 e) (NewEvent id (sec * Time.Second) sensor SeverityInfo) tags.

Definition rev_order {A} (m : gmap (string * string) A) : list (string * string) := rev (some_order m).

Lemma rev_order_ok {A} (m : gmap (string * string) A) : range_order m (rev_order m).
Proof.
  destruct (some_order_ok m) as [Hn Hk]. unfold rev_order. split.
  - by apply NoDup_ListNoDup, List.NoDup_rev, NoDup_ListNoDup.
  - intros k. by rewrite <-Hk, !list_elem_of_In, <-in_rev.
Qed.

Definition stream : list (Time.time * Event) :=
  [(0%Z, ev 1 10 "sshd" [("src_ip", "192.0.2.1")]); (0%Z, ev 2 11 "sshd" [("src_ip", "192.0.2.2")]);
   (0%Z, ev 3 12 "proc" [])].

Definition engine : Engine :=
  (Load compile_cel [rule Time.Minute Time.Minute ["src_ip"]] (New true)).1.

End Demo.

Lemma replay_order_independent_witness :
  (replay Demo.eval some_order Demo.stream Demo.engine).1 =
    (replay Demo.eval Demo.rev_order Demo.stream Demo.engine).1 ∧
  Forall2 Permutation (chunks Demo.eval some_order Demo.stream Demo.engine)
    (chunks Demo.eval Demo.rev_order Demo.stream Demo.engine).
Proof.
  apply (replay_order_independent Demo.eval some_order Demo.rev_order Demo.stream Demo.engine).
  - exact some_order_ok.
  - exact Demo.rev_order_ok.
Defined.

Lemma incidents_are_backed_witness :
  let out := (replay Demo.eval some_order Demo.stream Demo.engine).2 in
  length out = 2 ∧
  Forall (backed Demo.eval [Demo.compiled (Demo.rule Time.Minute Time.Minute ["src_ip"])]
            (snd <$> Demo.stream)) out.
Proof.
  intros out. split; [vm_compute; reflexivity|]. apply Forall_forall. intros a.
  apply (incidents_are_backed Demo.compile_cel Demo.eval some_order
    [Demo.rule Time.Minute Time.Minute ["src_ip"]] _ true Demo.stream).
  - exact some_order_ok.
  - reflexivity.
  - apply NoDup_singleton.
Defined.

Lemma completed_sequence_delivers_witness :
  let c := Demo.compiled (Demo.rule Time.Minute Time.Minute ["src_ip"]) in
  let e1 := Demo.ev 3 12 "proc" [] in
  delivered c e1 (replay Demo.eval some_order
    [(0%Z, Demo.ev 1 10 "sshd" [("src_ip", "192.0.2.1")]); (0%Z, e1)] Demo.engine).2.
Proof.
  intros c e1.
  apply (completed_sequence_delivers Demo.eval some_order [c] c Demo.engine 0
    (Demo.ev 1 10 "sshd" [("src_ip", "192.0.2.1")]) [(0%Z, e1)] e1); try reflexivity.
  - exact some_order_ok.
  - apply NoDup_singleton.
  - left.
  - repeat split; try (vm_compute; reflexivity); [left; vm_compute; reflexivity|..];
      right; vm_compute; discriminate.
Defined.

Lemma window_not_enforced_on_completion_witness :
  let c := Demo.compiled (Demo.rule Time.Minute 0 []) in
  let e1 := Demo.ev 2 86400 "proc" [] in
  (Window (c_Rule c) < Time.Sub (ev_Time e1) (10 * Time.Second))%Z ∧
  delivered c e1 (replay Demo.eval some_order [(0%Z, Demo.ev 1 10 "sshd" []); (0%Z, e1)]
                    {| rules := [c]; sessions := ∅; emit := true |}).2.
Proof.
  intros c e1. split; [vm_compute; reflexivity|].
  apply (window_not_enforced_on_completion Demo.eval some_order c 0 0 (Demo.ev 1 10 "sshd" []) e1);
    try (vm_compute; reflexivity).
  exact some_order_ok.
Defined.

Lemma group_keys_collide_witness :
  let c := Demo.compiled (Demo.rule Time.Minute Time.Minute ["comm"; "user"]) in
  let ev1 := Demo.ev 1 10 "sshd" [("comm", "a;user=b"); ("user", "c")] in
  let ev2 := Demo.ev 2 11 "sshd" [("comm", "a"); ("user", "b;user=c")] in
  let e := {| rules := [c]; sessions := ∅; emit := true |} in
  let e' := (tryOpen Demo.eval c ev2 11 (tryOpen Demo.eval c ev1 10 e).1).1 in
  extractGroup ev1 ["comm"; "user"] ≠ extractGroup ev2 ["comm"; "user"] ∧
  SessionCount e' = 1 ∧
  ∃ s, sessions e' !! open_key c ev2 = Some s ∧ s_Events s = [ev1; ev2] ∧
       s_GroupKey s = extractGroup ev1 ["comm"; "user"].
Proof.
  intros c ev1 ev2.
  apply (group_keys_collide Demo.eval c "comm" "user" "a" "b" "c" ev1 ev2 10 11);
    try (vm_compute; reflexivity); discriminate.
Defined.
