(* ===== verification/EgressGuard.v ===== *)
(** * Egress guard (src/pkg/egressguard)

    The per-connection decision surface and its enforcement path: [Decide]
    (policy override, six-way rule chain), the bounded deny cache, backend
    selection and [ApplyDeny].  The nft binary is outside the program: whether
    it is installed and what its commands answer are the fields of [nft_env]. *)

From S2P Require Import Prelude GoStd NetIP.

Inductive Decision : Type := EgressAllow | EgressVerify | EgressDeny.

#[export] Instance Decision_eq_dec : EqDecision Decision.
Proof. solve_decision. Defined.

Definition Decision_String (d : Decision) : string :=
  match d with EgressAllow => "allow" | EgressVerify => "verify" | EgressDeny => "deny" end.

Inductive Mode : Type := ModeObserve | ModeShadow | ModeEnforce.

#[export] Instance Mode_eq_dec : EqDecision Mode.
Proof. solve_decision. Defined.

Definition Mode_String (m : Mode) : string :=
  match m with ModeObserve => "observe" | ModeShadow => "shadow" | ModeEnforce => "enforce" end.

Record PolicyContext := {
  EgressPolicyAction : string;
  TrustZoneAction : string;
  PolicyID : string;
  PolicyMatchedBy : string;
  ZoneLabel : string
}.

Record Request := {
  r_PID : Z;
  r_LineageID : Z;
  r_CGroupID : Z;
  r_AppName : string;
  r_AppRole : string;
  r_DestIP : string;
  r_DestPort : Z;
  r_SNI : string;
  r_DNSName : string;
  r_DestClass : string;
  r_AssetClass : string;
  r_SecretTaint : string;
  r_SourceID : Z;
  r_At : Time.time;
  r_PolicyCtx : PolicyContext
}.

(** ** Deny cache (cache.go) *)

Record denyCache := { dc_entries : gmap string Time.time; dc_maxEntries : Z }.

Definition newDenyCache : denyCache := {| dc_entries := ∅; dc_maxEntries := 4096 |}.

(** [string(rune(lineage)) + ":" + destKey]: the conversion keeps the low 32
    bits of the lineage and encodes them as one code point *)
Definition cacheKey (lineage : Z) (destKey : string) : string :=
  Str.rune_string (i32 lineage) +:+ (":" +:+ destKey).

Definition with_entries (c : denyCache) (m : gmap string Time.time) : denyCache :=
  {| dc_entries := m; dc_maxEntries := dc_maxEntries c |}.

Definition cache_has (lineage : Z) (destKey : string) (now : Time.time) (c : denyCache) :
    denyCache * bool :=
  if Str.empty destKey then (c, false) else
  match dc_entries c !! cacheKey lineage destKey with
  | None => (c, false)
  | Some exp =>
      if Time.After now exp
      then (with_entries c (delete (cacheKey lineage destKey) (dc_entries c)), false)
      else (c, true)
  end.

(** the low-water mark [c.maxEntries*9/10] *)
Definition low_water (c : denyCache) : Z := (dc_maxEntries c * 9 / 10)%Z.

(** first eviction loop: drop expired entries in iteration order [ks] until
    below the mark *)
Fixpoint evict_expired (lw : Z) (threshold : Time.time) (ks : list string)
    (m : gmap string Time.time) : gmap string Time.time :=
  match ks with
  | [] => m
  | k :: ks' =>
      let m' := match m !! k with
                | Some exp => if Time.Before exp threshold then delete k m else m
                | None => m
                end in
      if (Z.of_nat (size m') <? lw)%Z then m' else evict_expired lw threshold ks' m'
  end.

(** second loop: drop anything in iteration order [ks] until below the mark *)
Fixpoint evict_any (lw : Z) (ks : list string) (m : gmap string Time.time) :
    gmap string Time.time :=
  match ks with
  | [] => m
  | k :: ks' => if (Z.of_nat (size m) <? lw)%Z then m else evict_any lw ks' (delete k m)
  end.

(** [ord] gives the order in which a range statement walks a map *)
Definition cache_add (ord : gmap string Time.time → list string)
    (lineage : Z) (destKey : string) (ttl : Time.duration) (threshold now : Time.time)
    (c : denyCache) : denyCache :=
  if Str.empty destKey || (ttl <=? 0)%Z then c else
  let m :=
    if (dc_maxEntries c <=? Z.of_nat (size (dc_entries c)))%Z then
      let m1 := evict_expired (low_water c) threshold (ord (dc_entries c)) (dc_entries c) in
      evict_any (low_water c) (ord m1) m1
    else dc_entries c in
  with_entries c (<[cacheKey lineage destKey := Time.Add now ttl]> m).

Definition cache_Size (c : denyCache) : nat := size (dc_entries c).

(** ** Destination helpers (guard.go) *)

Definition isLoopbackOrPrivate (ipStr : string) : bool :=
  if Str.empty ipStr then false
  else if bool_decide (ipStr = "169.254.169.254") || Str.HasPrefix ipStr "fd00:ec2::" then false
  else match ParseIP ipStr with
       | None => false
       | Some ip => IsLoopback ip || IsPrivate ip || IsLinkLocalUnicast ip
       end.

Definition splitHostPort (decl : string) : string * string :=
  match Str.LastIndexByte decl ":" with
  | Some idx => if (Str.CountByte decl ":" =? 1)%nat
                then (Str.upto idx decl, Str.from (S idx) decl) else (decl, "")
  | None => (decl, "")
  end.

Definition hostMatch (declared observed : string) : bool :=
  bool_decide (declared = observed) ||
  (Str.HasPrefix declared "*." && Str.HasSuffix observed (Str.from 1 declared)).

Definition peerMatches (r : Request) (host port name : string) : bool :=
  negb (Str.empty name) && hostMatch host name &&
  (Str.empty port || bool_decide (port = "*") || bool_decide (port = Str.itoa (r_DestPort r))).

Definition matchesDeclaredPeer (declared : list string) (r : Request) : bool :=
  existsb (λ d,
    negb (Str.empty d) &&
    let '(host, port) := splitHostPort d in
    existsb (peerMatches r host port) [r_DestIP r; r_DNSName r; r_SNI r]) declared.

Definition with_port (h : string) (r : Request) : string := h +:+ (":" +:+ Str.itoa (r_DestPort r)).

Definition destKey (r : Request) : string :=
  if negb (Str.empty (r_SNI r)) then with_port (r_SNI r) r
  else if negb (Str.empty (r_DNSName r)) then with_port (r_DNSName r) r
  else if negb (Str.empty (r_DestIP r)) then with_port (r_DestIP r) r
  else "".

Definition destKeyToIP (key : string) : string :=
  match Str.LastIndexByte key ":" with Some idx => Str.upto idx key | None => key end.

(** ** Backends (backend.go, nft.go) *)

Inductive backend_kind : Type := observeBackend | ebpfBackend | nftBackend.

#[export] Instance backend_kind_eq_dec : EqDecision backend_kind.
Proof. solve_decision. Defined.

(** The environment's answers: is nft on PATH, does provisioning the table
    fail (with which message), does adding an element fail. *)
Record nft_env := {
  nft_on_path : bool;
  nft_provision : option string;
  nft_add_element : list Z → Time.duration → option string;
  nft_del_element : list Z → option string
}.

(** [bk_ensured] is the sync.Once of [ensureNFTTable] with the error it left;
    [bk_kernel] is the list of deny elements nft accepted. *)
Record backend := {
  bk_kind : backend_kind;
  bk_mode : Mode;
  bk_ensured : option (option string);
  bk_kernel : list (list Z * Time.duration)
}.

Definition newBackend (k : backend_kind) (m : Mode) : backend :=
  {| bk_kind := k; bk_mode := m; bk_ensured := None; bk_kernel := [] |}.

Definition backend_Name (b : backend) : string :=
  match bk_kind b with
  | observeBackend => "observe" | ebpfBackend => "ebpf-cgroup-connect" | nftBackend => "nftables"
  end.

Definition ErrEBPFNotImplemented : string := "egressguard: eBPF backend not yet implemented (cilium/ebpf cgroup_connect loader pending; nftables fallback active)".

(** [None] is the nil error *)
Definition Available (env : nft_env) (k : backend_kind) : option string :=
  match k with
  | observeBackend => None
  | ebpfBackend => Some ErrEBPFNotImplemented
  | nftBackend => if nft_on_path env then None else Some "egressguard nftables: nft binary not on PATH"
  end.

Definition SelectBackend (env : nft_env) (m : Mode) : backend * string :=
  let pick := List.find (λ k, bool_decide (Available env k = None))
                [ebpfBackend; nftBackend; observeBackend] in
  let b := newBackend (default observeBackend pick) m in
  (b, backend_Name b).

Definition ensureNFTTable (env : nft_env) (b : backend) : backend * option string :=
  match bk_ensured b with
  | Some err => (b, err)
  | None =>
      let err := if nft_on_path env then nft_provision env else Some "nft binary not available" in
      ({| bk_kind := bk_kind b; bk_mode := bk_mode b; bk_ensured := Some err;
          bk_kernel := bk_kernel b |}, err)
  end.

(** the timeout passed to nft is [int(ttl.Seconds())], whole seconds *)
Definition nftAddDeny (env : nft_env) (dest : string) (ttl : Time.duration) (b : backend) :
    backend * option string :=
  match ParseIP dest with
  | None => (b, Some ("egressguard nft: dest " +:+ Str.Quote dest +:+ " is not an IP"))
  | Some ip =>
      match nft_add_element env ip (ttl `quot` Time.Second)%Z with
      | Some err => (b, Some ("nft add element: " +:+ err))
      | None => ({| bk_kind := bk_kind b; bk_mode := bk_mode b; bk_ensured := bk_ensured b;
                    bk_kernel := bk_kernel b ++ [(ip, (ttl `quot` Time.Second)%Z)] |}, None)
      end
  end.

(** deleting an element that is not there counts as success *)
Definition nftDelDeny (env : nft_env) (dest : string) (b : backend) : backend * option string :=
  match ParseIP dest with
  | None => (b, Some ("egressguard nft: dest " +:+ Str.Quote dest +:+ " is not an IP"))
  | Some ip =>
      match nft_del_element env ip with
      | Some out =>
          if Str.Contains out "No such file" || Str.Contains out "does not exist"
          then (b, None) else (b, Some ("nft del element: " +:+ out))
      | None => ({| bk_kind := bk_kind b; bk_mode := bk_mode b; bk_ensured := bk_ensured b;
                    bk_kernel := List.filter (λ p, negb (bool_decide (p.1 = ip))) (bk_kernel b) |}, None)
      end
  end.

Definition Remove (env : nft_env) (cgroup : Z) (dest : string) (b : backend) :
    backend * option string :=
  match bk_kind b with
  | observeBackend => (b, None)
  | ebpfBackend => (b, Some ErrEBPFNotImplemented)
  | nftBackend =>
      if bool_decide (bk_mode b = ModeObserve) || bool_decide (bk_mode b = ModeShadow)
      then (b, None) else nftDelDeny env dest b
  end.

Definition Push (env : nft_env) (cgroup : Z) (dest : string) (ttl : Time.duration) (b : backend) :
    backend * option string :=
  match bk_kind b with
  | observeBackend => (b, None)
  | ebpfBackend => (b, Some ErrEBPFNotImplemented)
  | nftBackend =>
      if bool_decide (bk_mode b = ModeObserve) || bool_decide (bk_mode b = ModeShadow)
      then (b, None)
      else let '(b', err) := ensureNFTTable env b in
           match err with
           | Some e => (b', Some ("egressguard nft ensure: " +:+ e))
           | None => nftAddDeny env dest ttl b'
           end
  end.

(** ** The guard *)

Record guard := {
  g_backend : backend;
  g_mode : Mode;
  g_cache : denyCache;
  g_profiles : option (string → list string);
  g_protectedRoles : gset string;
  g_safetynet : option (list Z → bool)
}.

Definition defaultProtectedRoles : gset string := list_to_set [
  "nginx-static"; "nginx-reverse-proxy"; "nginx-fastcgi"; "nginx-lua"; "nginx-njs";
  "nginx-grpc-proxy"; "apache-static"; "apache-reverse-proxy"; "apache-cgi"; "apache-fastcgi";
  "apache-wsgi"; "mysql-default"; "mysql-primary"; "mysql-replica"; "mysql-galera";
  "postgres-default"; "redis-default"; "sshd-permissive"; "sshd-strict"].

Definition set_backend_mode (m : Mode) (b : backend) : backend :=
  {| bk_kind := bk_kind b; bk_mode := m; bk_ensured := bk_ensured b; bk_kernel := bk_kernel b |}.

Definition NewGuard (b : option backend) (profiles : option (string → list string)) (m : Mode) :
    guard :=
  {| g_backend := set_backend_mode m (default (newBackend observeBackend m) b);
     g_mode := m;
     g_cache := newDenyCache;
     g_profiles := profiles;
     g_protectedRoles := defaultProtectedRoles;
     g_safetynet := None |}.

Definition SetSafetyNet (s : option (list Z → bool)) (g : guard) : guard :=
  {| g_backend := g_backend g; g_mode := g_mode g; g_cache := g_cache g;
     g_profiles := g_profiles g; g_protectedRoles := g_protectedRoles g; g_safetynet := s |}.

Definition SetProtectedRoles (roles : list string) (g : guard) : guard :=
  {| g_backend := g_backend g; g_mode := g_mode g; g_cache := g_cache g;
     g_profiles := g_profiles g; g_protectedRoles := list_to_set roles;
     g_safetynet := g_safetynet g |}.

(** the pre-computed policy and trust-zone answer, step (0) of [Decide] *)
Definition policyOverride (c : PolicyContext) : option (Decision * string) :=
  if decide (EgressPolicyAction c = "deny")
  then Some (EgressDeny, "egresspolicy: " +:+ PolicyMatchedBy c)
  else if decide (EgressPolicyAction c = "allow")
  then Some (EgressAllow, "egresspolicy: " +:+ PolicyID c)
  else if decide (EgressPolicyAction c = "verify")
  then Some (EgressVerify, "egresspolicy: " +:+ PolicyMatchedBy c)
  else if decide (TrustZoneAction c = "deny")
  then Some (EgressDeny, "trustzone " +:+ ZoneLabel c +:+ ": forbidden destination")
  else if decide (TrustZoneAction c = "tor_require")
  then Some (EgressDeny, "trustzone tor_only: non-tor destination")
  else if decide (TrustZoneAction c = "verify")
  then Some (EgressVerify, "trustzone " +:+ ZoneLabel c)
  else None.

(** the hosts declared for the request's role, when the guard has profiles *)
Definition declaredHosts (g : guard) (r : Request) : list string :=
  match g_profiles g with
  | Some upstream => if Str.empty (r_AppRole r) then [] else upstream (r_AppRole r)
  | None => []
  end.

Definition Decide (g : guard) (r : Request) : Decision * string :=
  match policyOverride (r_PolicyCtx r) with
  | Some d => d
  | None =>
      if isLoopbackOrPrivate (r_DestIP r) then (EgressAllow, "private/loopback")
      else if bool_decide (r_AppRole r ∈ g_protectedRoles g) && Str.empty (r_SNI r) &&
              Str.empty (r_DNSName r) && negb (Str.empty (r_DestIP r))
      then (EgressDeny, "protected role " +:+ Str.Quote (r_AppRole r) +:+
                        " egressing to raw IP " +:+ r_DestIP r)
      else if decide (r_SecretTaint r = "outbound_restricted" ∨
                      r_SecretTaint r = "containment_required")
      then (EgressDeny, "secret-tainted lineage (state=" +:+ r_SecretTaint r +:+
                        ") attempting outbound")
      else
        let declared := declaredHosts g r in
        if (0 <? length declared)%nat then
          if matchesDeclaredPeer declared r
          then (EgressAllow, "destination matches declared upstream")
          else (EgressVerify, "profiled role " +:+ Str.Quote (r_AppRole r) +:+
                              " egress to undeclared " +:+ destKey r)
        else (EgressAllow, "unprofiled or unrestricted role")
  end.

(** does the safety net veto denying this destination? *)
Definition vetoed (g : guard) (dest : string) : bool :=
  match g_safetynet g with
  | None => false
  | Some allowAlways =>
      let ipStr := destKeyToIP dest in
      if Str.empty ipStr then false
      else match ParseIP ipStr with None => false | Some ip => allowAlways ip end
  end.

Definition with_cache (c : denyCache) (g : guard) : guard :=
  {| g_backend := g_backend g; g_mode := g_mode g; g_cache := c; g_profiles := g_profiles g;
     g_protectedRoles := g_protectedRoles g; g_safetynet := g_safetynet g |}.

Definition with_backend (b : backend) (g : guard) : guard :=
  {| g_backend := b; g_mode := g_mode g; g_cache := g_cache g; g_profiles := g_profiles g;
     g_protectedRoles := g_protectedRoles g; g_safetynet := g_safetynet g |}.

(** [t1], [t2], [t3] are the clock readings of [cache.has], of the eviction
    threshold and of the expiry in [cache.add]; [None] is the nil error *)
Definition ApplyDeny (env : nft_env) (ord : gmap string Time.time → list string)
    (lineageID : Z) (dest : string) (ttl : Time.duration) (t1 t2 t3 : Time.time) (g : guard) :
    guard * option string :=
  if vetoed g dest then (g, None) else
  let '(c1, hit) := cache_has lineageID dest t1 (g_cache g) in
  if hit then (with_cache c1 g, None) else
  let g' := with_cache (cache_add ord lineageID dest ttl t2 t3 c1) g in
  if bool_decide (g_mode g ≠ ModeEnforce) then (g', None) else
  let ip := destKeyToIP dest in
  if Str.empty ip then (g', Some ("egressguard: dest " +:+ Str.Quote dest +:+ " is not an IP")) else
  let '(b', err) := Push env lineageID ip ttl (g_backend g) in
  (with_backend b' g', err).

(** ** Deny cache: bound and time-to-live *)

Lemma evict_any_size (lw : Z) (ks : list string) (m : gmap string Time.time) :
  (∀ k, is_Some (m !! k) → k ∈ ks) →
  (Z.of_nat (size (evict_any lw ks m)) < lw)%Z ∨ evict_any lw ks m = ∅.
Proof.
  revert m. induction ks as [|k ks IH]; intros m Hks; simpl.
  - right. apply map_empty. intros k. apply eq_None_not_Some. intros Hk.
    by apply Hks, elem_of_nil in Hk.
  - case_match; bool_to_prop; [by left|]. apply IH. intros k' Hk'.
    destruct (decide (k' = k)) as [->|Hne]; [by rewrite lookup_delete_eq in Hk'; destruct Hk'|].
    rewrite lookup_delete_ne in Hk' by done. apply Hks, elem_of_cons in Hk'. naive_solver.
Qed.

Definition cache_ok (c : denyCache) : Prop :=
  (1 ≤ dc_maxEntries c)%Z ∧ (Z.of_nat (size (dc_entries c)) ≤ dc_maxEntries c)%Z.

Lemma cache_has_ok (l : Z) (d : string) (t : Time.time) (c : denyCache) :
  cache_ok c → cache_ok (cache_has l d t c).1.
Proof.
  intros [? Hs]. unfold cache_has. repeat (case_match; simpl; try done).
  split; [done|]. simpl. etrans; [|exact Hs]. apply inj_le.
  rewrite <-!size_dom. apply subseteq_size. rewrite dom_delete_L. set_solver.
Qed.

Section cache.
Context (ord : gmap string Time.time → list string).
Context (Hord : ∀ m, range_order m (ord m)).

Lemma cache_add_ok (l : Z) (d : string) (ttl : Time.duration) (t2 t3 : Time.time) (c : denyCache) :
  cache_ok c → cache_ok (cache_add ord l d ttl t2 t3 c).
Proof.
  intros [Hmax Hs]. unfold cache_add. case_match; [done|].
  match goal with |- context [insert _ _ ?x] => set (m := x) end. split; [done|]. simpl.
  assert (Z.of_nat (size m) < dc_maxEntries c)%Z as Hm.
  { subst m. case_match; bool_to_prop; [|lia].
    set (m1 := evict_expired _ _ _ _).
    destruct (evict_any_size (low_water c) (ord m1) m1) as [Hlt|Hemp].
    - intros k Hk. by apply (Hord m1).
    - unfold low_water in *. pose proof (Z.div_lt_upper_bound (dc_maxEntries c * 9) 10 (dc_maxEntries c)). lia.
    - rewrite Hemp, map_size_empty. lia. }
  clearbody m. rewrite map_size_insert. destruct (m !! _); simpl; lia.
Qed.
End cache.

Inductive cache_op : Type :=
  | CHas (lineage : Z) (dest : string) (now : Time.time)
  | CAdd (lineage : Z) (dest : string) (ttl : Time.duration) (t2 t3 : Time.time).

Definition cache_exec (ord : gmap string Time.time → list string) (c : denyCache) (o : cache_op) :
    denyCache :=
  match o with
  | CHas l d t => (cache_has l d t c).1
  | CAdd l d ttl t2 t3 => cache_add ord l d ttl t2 t3 c
  end.

Lemma cache_run_ok (ord : gmap string Time.time → list string) (ops : list cache_op) (c : denyCache) :
  (∀ m, range_order m (ord m)) → cache_ok c → cache_ok (foldl (cache_exec ord) c ops).
Proof.
  intros Hord. revert c. induction ops as [|o ops IH]; intros c Hc; [done|]. simpl. apply IH.
  destruct o; simpl; [by apply cache_has_ok|by apply cache_add_ok].
Qed.

Lemma cache_add_max (ord : gmap string Time.time → list string) (l : Z) (d : string)
    (ttl : Time.duration) (t2 t3 : Time.time) (c : denyCache) :
  dc_maxEntries (cache_add ord l d ttl t2 t3 c) = dc_maxEntries c.
Proof. unfold cache_add. by case_match. Qed.

Lemma cache_exec_max (ord : gmap string Time.time → list string) (ops : list cache_op) (c : denyCache) :
  dc_maxEntries (foldl (cache_exec ord) c ops) = dc_maxEntries c.
Proof.
  revert c. induction ops as [|o ops IH]; intros c; [done|]. simpl. rewrite IH.
  destruct o; simpl; [|apply cache_add_max]. unfold cache_has. by repeat (case_match; simpl).
Qed.

Lemma empty_false (s : string) : s ≠ "" → Str.empty s = false.
Proof. intros. by apply bool_decide_eq_false. Qed.

(** a lookup after an insert under the same key answers by the clock alone *)
Lemma cache_has_add (ord : gmap string Time.time → list string) (l l' : Z) (d : string)
    (ttl : Time.duration) (t2 t3 t : Time.time) (c : denyCache) :
  d ≠ "" → (0 < ttl)%Z → cacheKey l' d = cacheKey l d →
  (cache_has l' d t (cache_add ord l d ttl t2 t3 c)).2 = (t <=? t3 + ttl)%Z.
Proof.
  intros Hd Httl Hk. unfold cache_has, cache_add. rewrite empty_false, Hk by done.
  rewrite (proj2 (Z.leb_gt ttl 0)) by done. simpl. rewrite lookup_insert_eq.
  unfold Time.After, Time.Add. destruct (Z.ltb_spec (t3 + ttl) t); simpl; symmetry;
    [by apply Z.leb_gt|by apply Z.leb_le].
Qed.

Lemma cache_has_hit (l : Z) (d : string) (t : Time.time) (c : denyCache) :
  (cache_has l d t c).2 = true → cache_has l d t c = (c, true).
Proof. unfold cache_has. by repeat (case_match; simpl). Qed.

(** ** Enforcement path *)

Lemma ensure_kernel (env : nft_env) (b : backend) :
  bk_kernel (ensureNFTTable env b).1 = bk_kernel b.
Proof. unfold ensureNFTTable. by case_match. Qed.

(** a push changes the kernel set by at most the one destination, and only
    reports success when it did what the backend can do *)
Lemma Push_kernel (env : nft_env) (cg : Z) (dest : string) (ttl : Time.duration) (b : backend) :
  let '(b', err) := Push env cg dest ttl b in
  bk_kernel b' = bk_kernel b ∨
  (∃ ip, ParseIP dest = Some ip ∧ err = None ∧
         bk_kernel b' = bk_kernel b ++ [(ip, (ttl `quot` Time.Second)%Z)]).
Proof.
  unfold Push. destruct (bk_kind b); [by left|by left|]. destruct (bool_decide _ || bool_decide _); [by left|].
  destruct (ensureNFTTable env b) as [b1 err] eqn:He.
  assert (bk_kernel b1 = bk_kernel b) as <- by (by rewrite <-(ensure_kernel env b), He).
  destruct err; [by left|]. unfold nftAddDeny.
  destruct (ParseIP dest) as [ip|]; [|by left].
  destruct (nft_add_element env ip _); [by left|]. right. by exists ip.
Qed.

Lemma not_vetoed (g : guard) (dest : string) (ip : list Z) (aa : list Z → bool) :
  vetoed g dest = false → ParseIP (destKeyToIP dest) = Some ip → g_safetynet g = Some aa →
  aa ip = false.
Proof.
  intros Hv Hp Ha. unfold vetoed in Hv. rewrite Ha in Hv.
  destruct (Str.empty (destKeyToIP dest)) eqn:He; [|by rewrite Hp in Hv].
  unfold Str.empty in He. bool_to_prop. by rewrite He in Hp.
Qed.

Lemma guard_eta (g : guard) : with_cache (g_cache g) g = g.
Proof. by destruct g. Qed.

(** ** Text of destinations *)

Lemma splitHostPort_single (host port : string) :
  Str.CountByte host ":" = 0 → Str.CountByte port ":" = 0 →
  splitHostPort (host +:+ (":" +:+ port)) = (host, port).
Proof.
  intros Hh Hp. change (":" +:+ port) with (String ":" port). unfold splitHostPort.
  rewrite Str.LastIndexByte_app by (by apply Str.LastIndexByte_None).
  assert (Str.CountByte (host +:+ String ":" port) ":" = 1) as ->.
  { rewrite Str.CountByte_app. simpl. lia. }
  by rewrite Str.upto_app, Str.from_S_app.
Qed.

Lemma destKeyToIP_with_port (h : string) (r : Request) :
  (0 ≤ r_DestPort r)%Z → destKeyToIP (with_port h r) = h.
Proof.
  intros Hp. unfold with_port, destKeyToIP. change (":" +:+ ?x) with (String ":" x).
  rewrite Str.LastIndexByte_app by (by apply Str.LastIndexByte_None, Str.itoa_no_colon).
  apply Str.upto_app.
Qed.

Lemma dotted_inj (a b c d a' b' c' d' : Z) :
  octet a → octet b → octet c → octet d → octet a' → octet b' → octet c' → octet d' →
  dotted a b c d = dotted a' b' c' d' → [a; b; c; d] = [a'; b'; c'; d'].
Proof.
  intros Ha Hb Hc Hd Ha' Hb' Hc' Hd' Heq.
  pose proof (ParseAddr_dotted a b c d Ha Hb Hc Hd) as H1.
  rewrite Heq, ParseAddr_dotted in H1 by done. congruence.
Qed.

Lemma dotted_not_fd (a b c d : Z) : octet a → Str.HasPrefix (dotted a b c d) "fd00:ec2::" = false.
Proof.
  intros Ha. unfold dotted. generalize ("." +:+ (Str.itoa b +:+ ("." +:+ (Str.itoa c +:+ ("." +:+ Str.itoa d))))).
  pattern a. apply octet_ind; [|exact Ha]. clear. vm_compute seqZ.
  repeat (apply Forall_cons_2; [intros s; reflexivity|]). apply Forall_nil_2.
Qed.

Lemma land_240 (b : Z) : octet b → (Z.land b 240 =? 16)%Z = bool_decide (16 ≤ b ≤ 31)%Z.
Proof.
  intros Hb. pattern b. apply octet_ind; [|exact Hb]. clear. vm_compute seqZ.
  repeat (apply Forall_cons_2; [vm_compute; reflexivity|]). apply Forall_nil_2.
Qed.

(** the request carries no pre-computed policy or trust-zone answer *)
Definition raw_ip_of_protected_role (g : guard) (r : Request) : Prop :=
  r_AppRole r ∈ g_protectedRoles g ∧ r_SNI r = "" ∧ r_DNSName r = "" ∧ r_DestIP r ≠ "".

Definition taint_promoted (r : Request) : Prop :=
  r_SecretTaint r = "outbound_restricted" ∨ r_SecretTaint r = "containment_required".

(** ** Properties *)

(** C5: with no policy or trust-zone answer attached, the guard denies exactly
    the non-internal destinations reached by raw IP from a protected role or
    by a lineage whose secret taint was promoted, sends to the verifier exactly
    the remaining connections of profiled roles to undeclared peers, and allows
    everything else. *)
Theorem decide_characterised (g : guard) (r : Request) :
  policyOverride (r_PolicyCtx r) = None →
  ((Decide g r).1 = EgressDeny ↔
     isLoopbackOrPrivate (r_DestIP r) = false ∧
     (raw_ip_of_protected_role g r ∨ taint_promoted r)) ∧
  ((Decide g r).1 = EgressVerify ↔
     isLoopbackOrPrivate (r_DestIP r) = false ∧
     ¬ raw_ip_of_protected_role g r ∧ ¬ taint_promoted r ∧
     declaredHosts g r ≠ [] ∧ matchesDeclaredPeer (declaredHosts g r) r = false).
Proof.
  intros Hov. unfold Decide. rewrite Hov. unfold raw_ip_of_protected_role, taint_promoted, Str.empty.
  destruct (isLoopbackOrPrivate (r_DestIP r)); [naive_solver|].
  destruct (bool_decide (r_AppRole r ∈ _) && _ && _ && _) eqn:Hraw; simpl.
  { bool_to_prop. naive_solver. }
  assert (¬ (r_AppRole r ∈ g_protectedRoles g ∧ r_SNI r = "" ∧ r_DNSName r = "" ∧ r_DestIP r ≠ "")) as Hn.
  { rewrite !andb_false_iff, negb_false_iff, !bool_decide_eq_false, bool_decide_eq_true in Hraw.
    naive_solver. }
  destruct (decide (r_SecretTaint r = "outbound_restricted" ∨ _)) as [Ht|Ht]; simpl;
    [intuition congruence|].
  destruct (matchesDeclaredPeer (declaredHosts g r) r), (declaredHosts g r) as [|h hs]; simpl;
    intuition congruence.
Qed.

Definition demo_ctx : PolicyContext :=
  {| EgressPolicyAction := ""; TrustZoneAction := "allow"; PolicyID := ""; PolicyMatchedBy := "";
     ZoneLabel := "" |}.

Definition demo_request (role ip sni taint : string) : Request :=
  {| r_PID := 1; r_LineageID := 5; r_CGroupID := 0; r_AppName := ""; r_AppRole := role;
     r_DestIP := ip; r_DestPort := 443; r_SNI := sni; r_DNSName := ""; r_DestClass := "";
     r_AssetClass := ""; r_SecretTaint := taint; r_SourceID := 0; r_At := 0;
     r_PolicyCtx := demo_ctx |}.

Lemma decide_characterised_witness :
  (Decide (NewGuard None None ModeShadow) (demo_request "nginx-static" "8.8.8.8" "" "")).1 = EgressDeny ∧
  (Decide (NewGuard None None ModeShadow) (demo_request "" "8.8.8.8" "dns.google" "outbound_restricted")).1
    = EgressDeny.
Proof.
  split; apply decide_characterised; try reflexivity; split; try reflexivity.
  - left. split; [|repeat split; try reflexivity; discriminate].
    vm_compute. reflexivity.
  - right. left. reflexivity.
Defined.

(** on an IPv4 address the internal-destination test accepts exactly
    loopback, the three private ranges and link-local, and never the cloud
    metadata address inside link-local. *)
Theorem internal_ipv4_exact (a b c d : Z) :
  octet a → octet b → octet c → octet d →
  isLoopbackOrPrivate (dotted a b c d) = true ↔
  (a = 127 ∨ a = 10 ∨ (a = 172 ∧ 16 ≤ b ≤ 31) ∨ (a = 192 ∧ b = 168) ∨
   (a = 169 ∧ b = 254 ∧ ¬ (c = 169 ∧ d = 254)))%Z.
Proof.
  intros Ha Hb Hc Hd. unfold isLoopbackOrPrivate.
  rewrite empty_false by (apply app_ne_l; by apply itoa_octet_ne).
  rewrite dotted_not_fd, orb_false_r, ParseIP_dotted by done.
  unfold IsLoopback, IsPrivate, IsLinkLocalUnicast, To4, byte_at. simpl.
  rewrite land_240 by done.
  destruct (decide ([a; b; c; d] = [169; 254; 169; 254]%Z)) as [Heq|Hne].
  - simplify_eq. rewrite bool_decide_eq_true_2 by reflexivity. split; [done|lia].
  - rewrite bool_decide_eq_false_2.
    2:{ intros Heq. apply Hne, dotted_inj; try done; unfold octet; lia. }
    rewrite !orb_true_iff, !andb_true_iff, bool_decide_eq_true, !Z.eqb_eq.
    split; [|naive_solver]. intros [[?|?]|[-> ->]]; [naive_solver..|].
    do 4 right. split_and!; [done..|]. intros [-> ->]. done.
Qed.

Lemma internal_ipv4_exact_witness :
  isLoopbackOrPrivate (dotted 172 20 0 9) = true ∧ isLoopbackOrPrivate (dotted 169 254 169 254) = false.
Proof.
  split; [apply internal_ipv4_exact; unfold octet; lia|].
  apply not_true_iff_false. rewrite internal_ipv4_exact by (unfold octet; lia). lia.
Defined.

(** the deny cache never holds more than its 4096 entries, whatever the
    sequence of lookups and inserts and whatever order the runtime walks the
    map in when it evicts. *)
Theorem deny_cache_bounded (ord : gmap string Time.time → list string) (ops : list cache_op) :
  (∀ m, range_order m (ord m)) →
  cache_Size (foldl (cache_exec ord) newDenyCache ops) ≤ 4096.
Proof.
  intros Hord. destruct (cache_run_ok ord ops newDenyCache Hord) as [_ Hs]; [by split|].
  rewrite cache_exec_max in Hs. unfold cache_Size. simpl in Hs. lia.
Qed.

Lemma deny_cache_bounded_witness :
  cache_Size (foldl (cache_exec some_order) newDenyCache
    [CAdd 1 "1.2.3.4:80" 60 0 0; CHas 1 "1.2.3.4:80" 90]) ≤ 4096.
Proof. apply deny_cache_bounded. intros m. apply some_order_ok. Defined.

(** a deny pushed with a positive time-to-live is remembered for exactly
    that time: a lookup of the same lineage and destination hits until the
    expiry instant and misses after it. *)
Theorem deny_cache_ttl (ord : gmap string Time.time → list string) (l : Z) (d : string)
    (ttl : Time.duration) (t2 t3 t : Time.time) (c : denyCache) :
  d ≠ "" → (0 < ttl)%Z →
  (cache_has l d t (cache_add ord l d ttl t2 t3 c)).2 = (t <=? t3 + ttl)%Z.
Proof. intros. by apply cache_has_add. Qed.

Lemma deny_cache_ttl_witness :
  (cache_has 7 "9.9.9.9:53" 160 (cache_add some_order 7 "9.9.9.9:53" 60 100 100 newDenyCache)).2 = true.
Proof. rewrite deny_cache_ttl; [reflexivity|discriminate|lia]. Defined.

(** the kernel deny set changes only through an enforcing guard, by at most
    the one address named in the destination key, and never by an address the
    safety net always allows. *)
Theorem apply_deny_safe (env : nft_env) (ord : gmap string Time.time → list string) (l : Z)
    (dest : string) (ttl : Time.duration) (t1 t2 t3 : Time.time) (g : guard) :
  let g' := (ApplyDeny env ord l dest ttl t1 t2 t3 g).1 in
  bk_kernel (g_backend g') = bk_kernel (g_backend g) ∨
  ∃ ip, ParseIP (destKeyToIP dest) = Some ip ∧ g_mode g = ModeEnforce ∧
        (∀ allowAlways, g_safetynet g = Some allowAlways → allowAlways ip = false) ∧
        bk_kernel (g_backend g') = bk_kernel (g_backend g) ++ [(ip, (ttl `quot` Time.Second)%Z)].
Proof.
  simpl. unfold ApplyDeny. destruct (vetoed g dest) eqn:Hv; [by left|].
  destruct (cache_has l dest t1 (g_cache g)) as [c1 []]; [by left|].
  case_bool_decide as Hm; [by left|]. case_match; [by left|].
  pose proof (Push_kernel env l (destKeyToIP dest) ttl (g_backend g)) as Hp.
  destruct (Push env l (destKeyToIP dest) ttl (g_backend g)) as [b' err]. simpl.
  destruct Hp as [Hk|(ip & Hip & _ & Hk)]; [by left|]. right. exists ip.
  split_and!; [done|by destruct (g_mode g)| |done]. intros aa Ha. by eapply not_vetoed.
Qed.

(** a push that failed is not retried: once [ApplyDeny] has returned an
    error, every further call for the same lineage and destination inside the
    time-to-live reports success without asking the backend, whatever the
    environment would now answer. *)
Theorem failed_push_not_retried (env env' : nft_env) (ord ord' : gmap string Time.time → list string)
    (l : Z) (dest : string) (ttl : Time.duration) (t1 t2 t3 u1 u2 u3 : Time.time)
    (g g' : guard) (e : string) :
  ApplyDeny env ord l dest ttl t1 t2 t3 g = (g', Some e) →
  dest ≠ "" → (0 < ttl)%Z → (u1 ≤ t3 + ttl)%Z →
  ApplyDeny env' ord' l dest ttl u1 u2 u3 g' = (g', None).
Proof.
  intros Ha Hd Httl Hu. unfold ApplyDeny in Ha. destruct (vetoed g dest) eqn:Hv; [done|].
  destruct (cache_has l dest t1 (g_cache g)) as [c1 hit] eqn:Hc. destruct hit; [done|].
  assert (g_cache g' = cache_add ord l dest ttl t2 t3 c1 ∧ vetoed g' dest = false) as [Hg' Hv'].
  { case_bool_decide; [done|]. case_match; simplify_eq; [by split|].
    destruct (Push _ _ _ _ _) as [b' err]. simplify_eq. by split. }
  unfold ApplyDeny. rewrite Hv', Hg'. rewrite (cache_has_hit l dest u1).
  - by rewrite <-Hg', guard_eta.
  - rewrite cache_has_add by done. by apply Z.leb_le.
Qed.

Definition demo_env (add : option string) : nft_env :=
  {| nft_on_path := true; nft_provision := None; nft_add_element := λ _ _, add;
     nft_del_element := λ _, None |}.

Definition enforcing_guard : guard := NewGuard (Some (newBackend nftBackend ModeEnforce)) None ModeEnforce.

Lemma failed_push_not_retried_witness :
  let fail := ApplyDeny (demo_env (Some "busy")) some_order 5 "8.8.8.8:53" 300 10 10 10 enforcing_guard in
  is_Some fail.2 ∧
  ApplyDeny (demo_env None) some_order 5 "8.8.8.8:53" 300 20 20 20 fail.1 = (fail.1, None).
Proof.
  split; [vm_compute; eauto|].
  eapply (failed_push_not_retried (demo_env (Some "busy")) (demo_env None) some_order some_order
            5 "8.8.8.8:53" 300 10 10 10 20 20 20 enforcing_guard);
    [vm_compute; reflexivity|discriminate|lia|lia].
Defined.

(** lineages above the Unicode range share one cache slot per destination:
    a deny recorded for one of them makes the cache report every other such
    lineage as already denied, so its own deny is not pushed. *)
Theorem large_lineages_collide (ord : gmap string Time.time → list string) (l l' : Z) (d : string)
    (ttl : Time.duration) (t2 t3 t : Time.time) (c : denyCache) :
  (0x10FFFF < l < 2 ^ 31)%Z → (0x10FFFF < l' < 2 ^ 31)%Z → d ≠ "" → (0 < ttl)%Z → (t ≤ t3 + ttl)%Z →
  (cache_has l' d t (cache_add ord l d ttl t2 t3 c)).2 = true.
Proof.
  intros Hl Hl' Hd Httl Ht. rewrite cache_has_add; [by apply Z.leb_le|done..|].
  assert (∀ n, (0x10FFFF < n < 2 ^ 31)%Z → Str.rune_string (i32 n) = Str.rune_string (-1)) as Hrune.
  { intros n Hn. unfold i32, signed. rewrite Z.mod_small by lia.
    rewrite (proj2 (Z.ltb_lt n (2 ^ (32 - 1)))) by lia. unfold Str.rune_string.
    rewrite (proj2 (Z.ltb_lt 0x10FFFF n)) by lia. by rewrite orb_true_r. }
  unfold cacheKey. by rewrite !Hrune.
Qed.

Lemma large_lineages_collide_witness :
  (cache_has 1200000 "9.9.9.9:53" 120 (cache_add some_order 1300000 "9.9.9.9:53" 60 100 100 newDenyCache)).2 = true.
Proof. apply large_lineages_collide; [lia|lia|discriminate|lia|lia]. Defined.

(** The key the pipeline passes to the deny path names its address: for
    any destination text (IPv6 included) and any port, stripping the port from
    the key gives the destination back, so the pushed address is the one
    decided on. *)
Theorem deny_key_roundtrip (h : string) (r : Request) :
  (0 ≤ r_DestPort r)%Z → destKeyToIP (with_port h r) = h.
Proof. apply destKeyToIP_with_port. Qed.

Lemma deny_key_roundtrip_witness :
  destKeyToIP (with_port "2001:db8::7" (demo_request "" "2001:db8::7" "" "")) = "2001:db8::7".
Proof. apply deny_key_roundtrip. vm_compute. discriminate. Defined.
