(* ===== verification/EgressPolicy.v ===== *)
(** * Signed egress policies (src/pkg/egresspolicy)

    Per-binary policies: validation, the canonical form that is signed
    (policy.go), the decision engine (engine.go), the directory of signed files
    (store.go) and the drafts proposed from observed flows (workflow.go).
    Ed25519, base64, the YAML library and the answers of the file system are
    variables; the periodic re-scan is a sequence of [Reload]s. *)

From S2P Require Import Prelude GoStd NetIP CIDR.

Definition SchemaVersion : Z := 1.
Definition AlgorithmEd25519 : string := "ed25519".

Definition ModeObserve : string := "observe".
Definition ModeAllowAny : string := "allow_any".
Definition ModeDenyDefault : string := "deny_default".
Definition ModeTorOnly : string := "tor_only".

Definition torLoopback4 : list Z := [127; 0; 0; 1]%Z.
Definition torLoopback6 : list Z := replicate 15 0%Z ++ [1%Z].
Definition torPort : Z := 9050.

Record Rule := {
  ru_DestCIDR : string;
  ru_DestClass : string;
  ru_Country : string;
  ru_ASN : string;
  ru_Ports : list Z;
  ru_Protocols : list string;
  ru_SNI : string;
  ru_DNSName : string;
  ru_Comment : string
}.

(** [p_Mode] is a string type in the code, so a file can hold any *)
Record Policy := {
  p_SchemaVersion : Z;
  p_Binary : string;
  p_Mode : string;
  p_SignedAt : Time.time;
  p_Signer : string;
  p_Comment : string;
  p_Allow : list Rule;
  p_Deny : list Rule;
  p_OnlyUIDs : list Z;
  p_OnlyCgroups : list string;
  p_ExceptUIDs : list Z;
  p_ExceptCgroups : list string
}.

Inductive Action : Type := ActionAllow | ActionObserve | ActionVerify | ActionDeny.

#[export] Instance Action_eq_dec : EqDecision Action.
Proof. solve_decision. Defined.

Definition Action_String (a : Action) : string :=
  match a with
  | ActionAllow => "allow"
  | ActionObserve => "observe"
  | ActionVerify => "verify"
  | ActionDeny => "deny"
  end.

Record PolicyDecision := {
  pd_Action : Action; pd_Mode : string; pd_PolicyID : string; pd_MatchedBy : string; pd_Reason : string
}.

(** [rq_DestIP] is a net.IP, [None] the nil address *)
Record PolicyRequest := {
  rq_Binary : string; rq_UID : Z; rq_Cgroup : string; rq_DestIP : option (list Z); rq_DestPort : Z;
  rq_Protocol : string; rq_SNI : string; rq_DNSName : string; rq_DestClass : string;
  rq_Country : string; rq_ASN : string
}.

Record SignedPolicy := {
  sp_Policy : Policy; sp_Signer : string; sp_Algorithm : string; sp_Signature : string
}.

(** ** Validation *)

Inductive policy_error : Type :=
  | ErrSchemaMissing | ErrSchemaNewer (v : Z) | ErrBinary | ErrMode (m : string) | ErrSigner
  | ErrCIDR (list_ : string) (i : nat) (cidr : string) | ErrProtocol (list_ : string) (i : nat) (p : string)
  | ErrPrivSize (n : nat) | ErrPubSize (n : nat) | ErrSignerArg | ErrValidate (e : policy_error)
  | ErrYaml | ErrAlgorithm (a : string) | ErrBase64 | ErrBadSignature
  | ErrDir | ErrReadDir | ErrFile (name : string) (e : policy_error) | ErrRead | ErrUnmarshal
  | ErrVerify (e : policy_error) | ErrMkdir | ErrWrite | ErrRemove.

(** [Rule.validate], with the list and index the caller adds to the error *)
Definition validate_rule (where_ : string) (i : nat) (r : Rule) : option policy_error :=
  if negb (Str.empty (ru_DestCIDR r)) && bool_decide (ParseCIDR (ru_DestCIDR r) = None)
  then Some (ErrCIDR where_ i (ru_DestCIDR r))
  else match List.find (λ p, negb (bool_decide (p ∈ ["tcp"; "udp"; "icmp"; ""]))) (ru_Protocols r) with
       | Some p => Some (ErrProtocol where_ i p)
       | None => None
       end.

Fixpoint validate_rules (where_ : string) (i : nat) (rs : list Rule) : option policy_error :=
  match rs with
  | [] => None
  | r :: rs' =>
      match validate_rule where_ i r with
      | Some e => Some e
      | None => validate_rules where_ (S i) rs'
      end
  end.

Definition known_modes : list string := [ModeObserve; ModeAllowAny; ModeDenyDefault; ModeTorOnly].

(** [None] is a nil error *)
Definition Validate (p : Policy) : option policy_error :=
  if (p_SchemaVersion p =? 0)%Z then Some ErrSchemaMissing
  else if (SchemaVersion <? p_SchemaVersion p)%Z then Some (ErrSchemaNewer (p_SchemaVersion p))
  else if Str.empty (p_Binary p) then Some ErrBinary
  else if negb (bool_decide (p_Mode p ∈ known_modes)) then Some (ErrMode (p_Mode p))
  else if Str.empty (p_Signer p) then Some ErrSigner
  else match validate_rules "allow" 0 (p_Allow p) with
       | Some e => Some e
       | None => validate_rules "deny" 0 (p_Deny p)
       end.

(** ** Matching *)

Definition containsUID (xs : list Z) (x : Z) : bool := existsb (λ v, (v =? x)%Z) xs.
Definition containsPort (xs : list Z) (x : Z) : bool := existsb (λ v, (v =? x)%Z) xs.
Definition containsStringCI (xs : list string) (x : string) : bool := existsb (λ v, Str.EqualFold v x) xs.

(** [len(xs) > 0] *)
Definition nonempty {A} (xs : list A) : bool := (0 <? length xs)%nat.

Definition subjectInScope (p : Policy) (req : PolicyRequest) : bool :=
  if nonempty (p_OnlyUIDs p) && negb (containsUID (p_OnlyUIDs p) (rq_UID req)) then false
  else if nonempty (p_OnlyCgroups p) && negb (containsStringCI (p_OnlyCgroups p) (rq_Cgroup req)) then false
  else if containsUID (p_ExceptUIDs p) (rq_UID req) then false
  else if containsStringCI (p_ExceptCgroups p) (rq_Cgroup req) then false
  else true.

Definition matchHostname (pattern host : string) : bool :=
  let pattern := Str.ToLower (Str.TrimSpace pattern) in
  let host := Str.ToLower (Str.TrimSpace host) in
  if Str.empty pattern || Str.empty host then false
  else if Str.HasPrefix pattern "*." then
    let suffix := Str.from 1 pattern in
    Str.HasSuffix host suffix || bool_decide (host = Str.from 1 suffix)
  else if Str.HasPrefix pattern "." then
    Str.HasSuffix host pattern || bool_decide (host = Str.from 1 pattern)
  else bool_decide (pattern = host).

(** the first test of [matchRule] *)
Definition cidr_admits (cidr : string) (ip : option (list Z)) : bool :=
  match ParseCIDR cidr, ip with
  | Some (_, ipnet), Some a => Contains ipnet (Some a)
  | _, _ => false
  end.

Definition matchRule (r : Rule) (req : PolicyRequest) : bool :=
  if negb (Str.empty (ru_DestCIDR r)) && negb (cidr_admits (ru_DestCIDR r) (rq_DestIP req)) then false
  else if negb (Str.empty (ru_DestClass r)) && negb (Str.EqualFold (ru_DestClass r) (rq_DestClass req)) then false
  else if negb (Str.empty (ru_Country r)) && negb (Str.EqualFold (ru_Country r) (rq_Country req)) then false
  else if negb (Str.empty (ru_ASN r)) && negb (Str.EqualFold (ru_ASN r) (rq_ASN req)) then false
  else if nonempty (ru_Ports r) && negb (containsPort (ru_Ports r) (rq_DestPort req)) then false
  else if nonempty (ru_Protocols r) && negb (containsStringCI (ru_Protocols r) (rq_Protocol req)) then false
  else if negb (Str.empty (ru_SNI r)) && negb (matchHostname (ru_SNI r) (rq_SNI req)) then false
  else if negb (Str.empty (ru_DNSName r)) && negb (matchHostname (ru_DNSName r) (rq_DNSName req)) then false
  else true.

Definition isTorEndpoint (req : PolicyRequest) : bool :=
  if negb (rq_DestPort req =? torPort)%Z then false
  else match rq_DestIP req with
       | None => false
       | Some ip =>
           match to4 ip with
           | Some b => bool_decide (b = torLoopback4)
           | None => bool_decide (ip = torLoopback6)
           end
       end.

(** [fmt.Sprintf("%v", xs)] of a slice *)
Definition show_list (xs : list string) : string := "[" +:+ (Str.Join xs " " +:+ "]").

Definition describeRule (r : Rule) : string :=
  if negb (Str.empty (ru_DestCIDR r)) then "dest_cidr=" +:+ ru_DestCIDR r
  else if negb (Str.empty (ru_SNI r)) then "sni=" +:+ ru_SNI r
  else if negb (Str.empty (ru_DNSName r)) then "dns_name=" +:+ ru_DNSName r
  else if negb (Str.empty (ru_DestClass r)) then "dest_class=" +:+ ru_DestClass r
  else if negb (Str.empty (ru_Country r)) then "country=" +:+ ru_Country r
  else if negb (Str.empty (ru_ASN r)) then "asn=" +:+ ru_ASN r
  else if nonempty (ru_Ports r) then "ports=" +:+ show_list (Str.itoa <$> ru_Ports r)
  else if nonempty (ru_Protocols r) then "protocols=" +:+ show_list (ru_Protocols r)
  else "*".

(** ** The decision *)

(** the first rule of a list that matches, with its index *)
Fixpoint first_match (i : nat) (rs : list Rule) (req : PolicyRequest) : option (nat * Rule) :=
  match rs with
  | [] => None
  | r :: rs' => if matchRule r req then Some (i, r) else first_match (S i) rs' req
  end.

Definition rule_decision (a : Action) (name : string) (p : Policy) (m : nat * Rule) : PolicyDecision := {|
  pd_Action := a; pd_Mode := ModeDenyDefault; pd_PolicyID := p_Binary p;
  pd_MatchedBy := name +:+ ("[" +:+ (Str.itoa (Z.of_nat m.1) +:+ ("]: " +:+ describeRule m.2)));
  pd_Reason := ru_Comment m.2 |}.

Definition deny_default (p : Policy) (req : PolicyRequest) : PolicyDecision :=
  match first_match 0 (p_Deny p) req with
  | Some m => rule_decision ActionDeny "deny" p m
  | None =>
      match first_match 0 (p_Allow p) req with
      | Some m => rule_decision ActionAllow "allow" p m
      | None => {| pd_Action := ActionDeny; pd_Mode := ModeDenyDefault; pd_PolicyID := p_Binary p;
                   pd_MatchedBy := ""; pd_Reason := "no allow rule matched (deny_default)" |}
      end
  end.

(** the part of [Decide] after the policy is found *)
Definition policy_decision (defaultMode : string) (p : Policy) (req : PolicyRequest) : PolicyDecision :=
  if negb (subjectInScope p req) then
    {| pd_Action := ActionObserve; pd_Mode := defaultMode; pd_PolicyID := p_Binary p;
       pd_MatchedBy := ""; pd_Reason := "subject out of policy scope" |}
  else if bool_decide (p_Mode p = ModeAllowAny) then
    {| pd_Action := ActionAllow; pd_Mode := ModeAllowAny; pd_PolicyID := p_Binary p;
       pd_MatchedBy := "allow_any"; pd_Reason := "mode=allow_any" |}
  else if bool_decide (p_Mode p = ModeObserve) then
    {| pd_Action := ActionObserve; pd_Mode := ModeObserve; pd_PolicyID := p_Binary p;
       pd_MatchedBy := ""; pd_Reason := "mode=observe" |}
  else if bool_decide (p_Mode p = ModeTorOnly) then
    if isTorEndpoint req then
      {| pd_Action := ActionAllow; pd_Mode := ModeTorOnly; pd_PolicyID := p_Binary p;
         pd_MatchedBy := "tor_loopback"; pd_Reason := "tor SOCKS endpoint" |}
    else
      {| pd_Action := ActionDeny; pd_Mode := ModeTorOnly; pd_PolicyID := p_Binary p;
         pd_MatchedBy := ""; pd_Reason := "mode=tor_only and dest is not 127.0.0.1:9050" |}
  else if bool_decide (p_Mode p = ModeDenyDefault) then deny_default p req
  else
    {| pd_Action := ActionObserve; pd_Mode := defaultMode; pd_PolicyID := p_Binary p; pd_MatchedBy := "";
       pd_Reason := "unknown mode " +:+ (Str.Quote (p_Mode p) +:+ " in signed policy") |}.

(** ** The canonical form *)

Definition sortRuleLists (r : Rule) : Rule := {|
  ru_DestCIDR := ru_DestCIDR r; ru_DestClass := ru_DestClass r; ru_Country := ru_Country r; ru_ASN := ru_ASN r;
  ru_Ports := sort_Z (ru_Ports r); ru_Protocols := sort_str (ru_Protocols r);
  ru_SNI := ru_SNI r; ru_DNSName := ru_DNSName r; ru_Comment := ru_Comment r |}.

(** [cp := p] copies the slice headers of Allow and Deny, not their elements:
    the loop sorts the caller's rules in place.  This is the caller's policy
    after the call. *)
Definition touched (p : Policy) : Policy := {|
  p_SchemaVersion := p_SchemaVersion p; p_Binary := p_Binary p; p_Mode := p_Mode p; p_SignedAt := p_SignedAt p;
  p_Signer := p_Signer p; p_Comment := p_Comment p;
  p_Allow := sortRuleLists <$> p_Allow p; p_Deny := sortRuleLists <$> p_Deny p;
  p_OnlyUIDs := p_OnlyUIDs p; p_OnlyCgroups := p_OnlyCgroups p;
  p_ExceptUIDs := p_ExceptUIDs p; p_ExceptCgroups := p_ExceptCgroups p |}.

(** the policy that is encoded *)
Definition canonical (p : Policy) : Policy := {|
  p_SchemaVersion := p_SchemaVersion p; p_Binary := p_Binary p; p_Mode := p_Mode p;
  p_SignedAt := Time.TruncateSecond (p_SignedAt p); p_Signer := p_Signer p; p_Comment := p_Comment p;
  p_Allow := sortRuleLists <$> p_Allow p; p_Deny := sortRuleLists <$> p_Deny p;
  p_OnlyUIDs := sort_Z (p_OnlyUIDs p); p_OnlyCgroups := sort_str (p_OnlyCgroups p);
  p_ExceptUIDs := sort_Z (p_ExceptUIDs p); p_ExceptCgroups := sort_str (p_ExceptCgroups p) |}.

Definition set_policy (p : Policy) (sp : SignedPolicy) : SignedPolicy := {|
  sp_Policy := p; sp_Signer := sp_Signer sp; sp_Algorithm := sp_Algorithm sp; sp_Signature := sp_Signature sp |}.

(** the fields [Sign] fills in when they are empty *)
Definition sign_defaults (signerID : string) (now : Time.time) (p : Policy) : Policy := {|
  p_SchemaVersion := if (p_SchemaVersion p =? 0)%Z then SchemaVersion else p_SchemaVersion p;
  p_Binary := p_Binary p; p_Mode := p_Mode p;
  p_SignedAt := if Time.IsZero (p_SignedAt p) then Time.TruncateSecond now else p_SignedAt p;
  p_Signer := if Str.empty (p_Signer p) then signerID else p_Signer p; p_Comment := p_Comment p;
  p_Allow := p_Allow p; p_Deny := p_Deny p; p_OnlyUIDs := p_OnlyUIDs p; p_OnlyCgroups := p_OnlyCgroups p;
  p_ExceptUIDs := p_ExceptUIDs p; p_ExceptCgroups := p_ExceptCgroups p |}.

(** ** The directory of policies *)

(** the store and its directory: [d_files] is [None] when it does not exist *)
Record Store := { s_pub : list Z; s_policies : gmap string SignedPolicy; d_files : option (gmap string string) }.

Definition NewStore (dir : string) (pub : list Z) (files : option (gmap string string)) : result policy_error Store :=
  if negb (length pub =? 32)%nat then Err (ErrPubSize (length pub))
  else if Str.empty dir then Err ErrDir
  else Ok {| s_pub := pub; s_policies := ∅; d_files := files |}.

Definition with_policies (m : gmap string SignedPolicy) (s : Store) : Store :=
  {| s_pub := s_pub s; s_policies := m; d_files := d_files s |}.
Definition with_files (f : option (gmap string string)) (s : Store) : Store :=
  {| s_pub := s_pub s; s_policies := s_policies s; d_files := f |}.

Definition sanitizeBinary (binary : string) : string :=
  let b := Str.TrimPrefix binary "/" in
  let b := Str.ReplaceAll b "/" "_" in
  let b := Str.ReplaceAll b "\" "_" in
  let b := Str.ReplaceAll b ".." "_" in
  let b := Str.ReplaceAll b " " "_" in
  if Str.empty b then "unnamed" else b.

Definition file_of (binary : string) : string := sanitizeBinary binary +:+ ".yaml".

(** full path first, then base name *)
Definition Get (binary : string) (s : Store) : option SignedPolicy :=
  match s_policies s !! binary with
  | Some sp => Some sp
  | None =>
      let base := Str.Base binary in
      if negb (bool_decide (base = binary)) then s_policies s !! base else None
  end.

(** the names [Reload] looks at *)
Definition policy_name (name : string) : bool :=
  Str.HasSuffix name ".yaml" && negb (bool_decide (name = "operator.pub") || bool_decide (name = "operator.pub.yaml")).

(** how a write ends: done, or failed with the file unchanged or left with
    some contents *)
Inductive write_answer : Type := WriteOk | MkdirFails | WriteFails (left_ : option string).

Definition Delete (rm_fails : bool) (binary : string) (s : Store) : Store * option policy_error :=
  if rm_fails then (s, Some ErrRemove)
  else (with_policies (delete binary (s_policies s)) (with_files (delete (file_of binary) <$> d_files s) s), None).

(** ** Sorting a rule's lists changes nothing *)

Lemma sort_Z_idem (l : list Z) : sort_Z (sort_Z l) = sort_Z l.
Proof. apply sort_Z_unique, sort_Z_perm. Qed.

Lemma sort_str_idem (l : list string) : sort_str (sort_str l) = sort_str l.
Proof. apply sort_str_unique, sort_str_perm. Qed.

Lemma sortRuleLists_idem (r : Rule) : sortRuleLists (sortRuleLists r) = sortRuleLists r.
Proof. unfold sortRuleLists. simpl. by rewrite sort_Z_idem, sort_str_idem. Qed.

Lemma sort_rules_idem (rs : list Rule) : sortRuleLists <$> (sortRuleLists <$> rs) = sortRuleLists <$> rs.
Proof. rewrite <-list_fmap_compose. apply list_fmap_ext. intros _ r _. apply sortRuleLists_idem. Qed.

Lemma touched_idem (p : Policy) : touched (touched p) = touched p.
Proof. unfold touched. simpl. by rewrite !sort_rules_idem. Qed.

Lemma canonical_touched (p : Policy) : canonical (touched p) = canonical p.
Proof. unfold canonical. simpl. by rewrite !sort_rules_idem. Qed.

Lemma existsb_perm {A} (f : A → bool) (l k : list A) : l ≡ₚ k → existsb f l = existsb f k.
Proof.
  induction 1; simpl; [done|by f_equal|by rewrite !orb_assoc, (orb_comm (f y))|congruence].
Qed.

Lemma find_None_existsb {A} (f : A → bool) (l : list A) : List.find f l = None ↔ existsb f l = false.
Proof. induction l as [|x l IH]; simpl; [done|]. destruct (f x); simpl; [done|exact IH]. Qed.

Lemma nonempty_perm {A} (l k : list A) : l ≡ₚ k → nonempty l = nonempty k.
Proof. unfold nonempty. by intros ->. Qed.

Lemma validate_rule_sorted (w : string) (i : nat) (r : Rule) :
  validate_rule w i (sortRuleLists r) = None ↔ validate_rule w i r = None.
Proof.
  unfold validate_rule. cbn [ru_DestCIDR ru_Protocols sortRuleLists].
  set (f := λ p : string, negb (bool_decide (p ∈ ["tcp"; "udp"; "icmp"; ""]))).
  destruct (_ && _); [done|].
  pose proof (find_None_existsb f (sort_str (ru_Protocols r))) as H1.
  pose proof (find_None_existsb f (ru_Protocols r)) as H2.
  rewrite (existsb_perm f _ _ (sort_str_perm (ru_Protocols r))) in H1.
  destruct (List.find f (sort_str _)), (List.find f (ru_Protocols r)); naive_solver.
Qed.

Lemma validate_rules_sorted (w : string) (i : nat) (rs : list Rule) :
  validate_rules w i (sortRuleLists <$> rs) = None ↔ validate_rules w i rs = None.
Proof.
  revert i. induction rs as [|r rs IH]; intros i; [done|]. cbn [validate_rules fmap list_fmap].
  pose proof (validate_rule_sorted w i r). specialize (IH (S i)).
  destruct (validate_rule w i (sortRuleLists r)), (validate_rule w i r); naive_solver.
Qed.

Lemma Validate_touched (p : Policy) : Validate (touched p) = None ↔ Validate p = None.
Proof.
  unfold Validate, touched; cbn. repeat (case_match; [done|]).
  pose proof (validate_rules_sorted "allow" 0 (p_Allow p)).
  pose proof (validate_rules_sorted "deny" 0 (p_Deny p)).
  destruct (validate_rules "allow" 0 _), (validate_rules "allow" 0 (p_Allow p)); naive_solver.
Qed.

Lemma matchRule_sorted (r : Rule) (req : PolicyRequest) : matchRule (sortRuleLists r) req = matchRule r req.
Proof.
  unfold matchRule, containsPort, containsStringCI.
  cbn [sortRuleLists ru_DestCIDR ru_DestClass ru_Country ru_ASN ru_Ports ru_Protocols ru_SNI ru_DNSName].
  rewrite (nonempty_perm _ _ (sort_Z_perm (ru_Ports r))), (nonempty_perm _ _ (sort_str_perm (ru_Protocols r))).
  by rewrite (existsb_perm _ _ _ (sort_Z_perm (ru_Ports r))), (existsb_perm _ _ _ (sort_str_perm (ru_Protocols r))).
Qed.

(** ** The action of a policy *)

Lemma first_match_existsb (i : nat) (rs : list Rule) (req : PolicyRequest) :
  first_match i rs req = None ↔ existsb (λ r, matchRule r req) rs = false.
Proof. revert i. induction rs as [|r rs IH]; intros i; simpl; [done|]. destruct (matchRule r req); simpl; [done|apply IH]. Qed.

Definition admits (rs : list Rule) (req : PolicyRequest) : bool := existsb (λ r, matchRule r req) rs.

Lemma deny_default_action (p : Policy) (req : PolicyRequest) :
  pd_Action (deny_default p req) =
  if negb (admits (p_Deny p) req) && admits (p_Allow p) req then ActionAllow else ActionDeny.
Proof.
  unfold deny_default, admits. pose proof (first_match_existsb 0 (p_Deny p) req).
  pose proof (first_match_existsb 0 (p_Allow p) req).
  destruct (first_match 0 (p_Deny p) req), (first_match 0 (p_Allow p) req), (existsb _ (p_Deny p)), (existsb _ (p_Allow p));
    naive_solver.
Qed.

Lemma admits_sorted (rs : list Rule) (req : PolicyRequest) : admits (sortRuleLists <$> rs) req = admits rs req.
Proof.
  unfold admits. induction rs as [|r rs IH]; [done|]. cbn [fmap list_fmap existsb].
  by rewrite matchRule_sorted, <-IH.
Qed.

Lemma touched_action (m : string) (p : Policy) (req : PolicyRequest) :
  pd_Action (policy_decision m (touched p) req) = pd_Action (policy_decision m p req).
Proof.
  unfold policy_decision. change (subjectInScope (touched p) req) with (subjectInScope p req).
  cbn [p_Mode touched]. repeat (case_match; [done|]). case_match; [|done].
  by rewrite !deny_default_action; cbn [p_Deny p_Allow touched]; rewrite !admits_sorted.
Qed.

(** when a policy denies, and when it allows, a request *)
Definition denies (p : Policy) (req : PolicyRequest) : Prop :=
  subjectInScope p req = true ∧
  (p_Mode p = ModeTorOnly ∧ isTorEndpoint req = false ∨
   p_Mode p = ModeDenyDefault ∧ (admits (p_Deny p) req = true ∨ admits (p_Allow p) req = false)).

Definition allows (p : Policy) (req : PolicyRequest) : Prop :=
  subjectInScope p req = true ∧
  (p_Mode p = ModeAllowAny ∨ p_Mode p = ModeTorOnly ∧ isTorEndpoint req = true ∨
   p_Mode p = ModeDenyDefault ∧ admits (p_Deny p) req = false ∧ admits (p_Allow p) req = true).

Lemma policy_action (m : string) (p : Policy) (req : PolicyRequest) :
  (pd_Action (policy_decision m p req) = ActionDeny ↔ denies p req) ∧
  (pd_Action (policy_decision m p req) = ActionAllow ↔ allows p req).
Proof.
  unfold policy_decision, denies, allows. destruct (subjectInScope p req); cbn [negb]; [|cbn; naive_solver].
  destruct (decide (p_Mode p = ModeAllowAny)) as [->|?]; [cbn; naive_solver|].
  destruct (decide (p_Mode p = ModeObserve)) as [->|?]; [cbn; naive_solver|].
  destruct (decide (p_Mode p = ModeTorOnly)) as [->|?]; [destruct (isTorEndpoint req); cbn; naive_solver|].
  rewrite !bool_decide_eq_false_2 by done.
  destruct (decide (p_Mode p = ModeDenyDefault)) as [He|?].
  - rewrite bool_decide_eq_true_2, deny_default_action by done.
    destruct (admits (p_Deny p) req), (admits (p_Allow p) req); cbn; naive_solver.
  - rewrite bool_decide_eq_false_2 by done. cbn. naive_solver.
Qed.

Section signing.
Context (EdSign : list Z → string → list Z) (EdVerify : list Z → string → list Z → bool).
Context (b64enc : list Z → string) (b64dec : string → option (list Z)).
Context (YamlPolicy : Policy → option string).
Context (Marshal : SignedPolicy → option string) (Unmarshal : string → option SignedPolicy).

(** the caller's policy after the call, and the bytes *)
Definition canonicalBytes (p : Policy) : Policy * option string := (touched p, YamlPolicy (canonical p)).

(** the caller's policy after the call, and the result *)
Definition Sign (p : Policy) (signerID : string) (priv : list Z) (now : Time.time) :
    Policy * result policy_error SignedPolicy :=
  if negb (length priv =? 64)%nat then (p, Err (ErrPrivSize (length priv)))
  else if Str.empty signerID then (p, Err ErrSignerArg)
  else
    let p' := sign_defaults signerID now p in
    match Validate p' with
    | Some e => (p, Err (ErrValidate e))
    | None =>
        let '(p'', bytes) := canonicalBytes p' in
        (touched p,
         match bytes with
         | None => Err ErrYaml
         | Some b => Ok {| sp_Policy := p''; sp_Signer := signerID; sp_Algorithm := AlgorithmEd25519;
                           sp_Signature := b64enc (EdSign priv b) |}
         end)
    end.

(** the signed policy after the call, and the error *)
Definition Verify (sp : SignedPolicy) (pub : list Z) : SignedPolicy * option policy_error :=
  if negb (length pub =? 32)%nat then (sp, Some (ErrPubSize (length pub)))
  else if negb (bool_decide (sp_Algorithm sp = AlgorithmEd25519)) then (sp, Some (ErrAlgorithm (sp_Algorithm sp)))
  else if Str.empty (sp_Signer sp) then (sp, Some ErrSigner)
  else match Validate (sp_Policy sp) with
       | Some e => (sp, Some (ErrValidate e))
       | None =>
           match b64dec (sp_Signature sp) with
           | None => (sp, Some ErrBase64)
           | Some sig =>
               let '(p', bytes) := canonicalBytes (sp_Policy sp) in
               (set_policy p' sp,
                match bytes with
                | None => Some ErrYaml
                | Some b => if EdVerify pub b sig then None else Some ErrBadSignature
                end)
           end
       end.

(** [loadSignedFile] and [Verify] on one file *)
Definition load_file (unreadable : string → bool) (pub : list Z) (name data : string) : result policy_error SignedPolicy :=
  if unreadable name then Err (ErrFile name ErrRead)
  else match Unmarshal data with
       | None => Err (ErrFile name ErrUnmarshal)
       | Some sp =>
           match Verify sp pub with
           | (sp', None) => Ok sp'
           | (_, Some e) => Err (ErrFile name (ErrVerify e))
           end
       end.

(** the loop of [Reload] over the entries *)
Fixpoint load_all (unreadable : string → bool) (pub : list Z) (files : gmap string string) (names : list string)
    (loaded : gmap string SignedPolicy) (firstErr : option policy_error) :
    gmap string SignedPolicy * option policy_error :=
  match names with
  | [] => (loaded, firstErr)
  | n :: ns =>
      match files !! n with
      | Some data =>
          if negb (policy_name n) then load_all unreadable pub files ns loaded firstErr
          else match load_file unreadable pub n data with
               | Ok sp => load_all unreadable pub files ns (<[p_Binary (sp_Policy sp) := sp]> loaded) firstErr
               | Err e => load_all unreadable pub files ns loaded (match firstErr with None => Some e | Some _ => firstErr end)
               end
      | None => load_all unreadable pub files ns loaded firstErr
      end
  end.

(** entries come sorted by name *)
Definition Reload (readdir_fails : bool) (unreadable : string → bool) (s : Store) :
    Store * (nat * option policy_error) :=
  match d_files s with
  | None => (with_policies ∅ s, (0, None))
  | Some files =>
      if readdir_fails then (s, (0, Some ErrReadDir))
      else
        let '(m, e) := load_all unreadable (s_pub s) files (sort_str (some_order files)) ∅ None in
        (with_policies m s, (size m, e))
  end.

Definition Save (io : write_answer) (sp : SignedPolicy) (s : Store) : Store * option policy_error :=
  if Str.empty (p_Binary (sp_Policy sp)) then (s, Some ErrBinary)
  else match io with
       | MkdirFails => (s, Some ErrMkdir)
       | _ =>
           let files := default ∅ (d_files s) in
           let name := file_of (p_Binary (sp_Policy sp)) in
           match Marshal sp with
           | None => (with_files (Some files) s, Some ErrYaml)
           | Some data =>
               match io with
               | WriteFails None => (with_files (Some files) s, Some ErrWrite)
               | WriteFails (Some c) => (with_files (Some (<[name := c]> files)) s, Some ErrWrite)
               | _ => (with_policies (<[p_Binary (sp_Policy sp) := sp]> (s_policies s))
                         (with_files (Some (<[name := data]> files)) s), None)
               end
           end
       end.

Definition VerifyAndSave (io : write_answer) (sp : SignedPolicy) (s : Store) : Store * option policy_error :=
  match Verify sp (s_pub s) with
  | (_, Some e) => (s, Some (ErrVerify e))
  | (sp', None) => Save io sp' s
  end.

(** ** The engine *)

Record Engine := { e_store : option Store; e_defaultMode : string }.

Definition NewEngine (store : option Store) (defaultMode : string) : Engine :=
  {| e_store := store; e_defaultMode := if Str.empty defaultMode then ModeObserve else defaultMode |}.

Definition Decide (e : option Engine) (req : PolicyRequest) : PolicyDecision :=
  match e with
  | None => {| pd_Action := ActionObserve; pd_Mode := ModeObserve; pd_PolicyID := ""; pd_MatchedBy := "";
               pd_Reason := "engine nil" |}
  | Some e =>
      match e_store e with
      | None => {| pd_Action := ActionObserve; pd_Mode := e_defaultMode e; pd_PolicyID := ""; pd_MatchedBy := "";
                   pd_Reason := "store nil" |}
      | Some s =>
          match Get (rq_Binary req) s with
          | None => {| pd_Action := ActionObserve; pd_Mode := e_defaultMode e; pd_PolicyID := ""; pd_MatchedBy := "";
                       pd_Reason := "no policy" |}
          | Some sp => policy_decision (e_defaultMode e) (sp_Policy sp) req
          end
      end
  end.

(** ** Drafts from observed flows *)

Record LedgerFlow := {
  f_Binary : string; f_DestCIDR : string; f_DestPort : Z; f_Protocol : string; f_SNI : string;
  f_DNSName : string; f_DestClass : string; f_BytesOut : Z; f_BytesIn : Z; f_Connects : Z;
  f_FirstSeen : Time.time; f_LastSeen : Time.time
}.

Record ProposalRule := {
  pr_DestCIDR : string; pr_DestPort : Z; pr_Protocol : string; pr_SNI : string; pr_DNSName : string;
  pr_DestClass : string; pr_Observations : Z; pr_BytesOut : Z; pr_LastSeen : Time.time;
  pr_Reason : string; pr_Confidence : Z
}.

Record Proposal := {
  po_Binary : string; po_ObservedDays : Z; po_TotalConnects : Z; po_TotalBytesOut : Z; po_UniqueDests : nat;
  po_UniqueClasses : list string; po_SuggestedMode : string; po_Allow : list ProposalRule; po_Notes : list string
}.

Definition maxAllowRules : nat := 30.

Definition wellKnownInfraClasses : list string :=
  ["cloudflare"; "google"; "aws"; "azure"; "akamai"; "fastly"; "cdn"].

(** the key of the aggregation: CIDR, port, protocol, SNI, DNS name *)
Definition ruleKey : Type := string * Z * string * string * string.

Definition key_of (f : LedgerFlow) : ruleKey :=
  (f_DestCIDR f, f_DestPort f, f_Protocol f, f_SNI f, f_DNSName f).

Record ruleAgg := {
  ag_destClass : string; ag_connects : Z; ag_bytesOut : Z; ag_firstSeen : Time.time; ag_lastSeen : Time.time;
  ag_days : gset string
}.

(** the first flow of a key *)
Definition new_agg (f : LedgerFlow) : ruleAgg := {|
  ag_destClass := f_DestClass f; ag_connects := 0; ag_bytesOut := 0; ag_firstSeen := f_FirstSeen f;
  ag_lastSeen := f_LastSeen f; ag_days := ∅ |}.

Definition add_flow (f : LedgerFlow) (a : ruleAgg) : ruleAgg := {|
  ag_destClass := if negb (Str.empty (f_DestClass f)) && Str.empty (ag_destClass a) then f_DestClass f
                  else ag_destClass a;
  ag_connects := u64 (ag_connects a + f_Connects f);
  ag_bytesOut := u64 (ag_bytesOut a + f_BytesOut f);
  ag_firstSeen := if negb (Time.IsZero (f_FirstSeen f)) &&
                     (Time.IsZero (ag_firstSeen a) || Time.Before (f_FirstSeen f) (ag_firstSeen a))
                  then f_FirstSeen f else ag_firstSeen a;
  ag_lastSeen := if Time.After (f_LastSeen f) (ag_lastSeen a) then f_LastSeen f else ag_lastSeen a;
  ag_days := (if Time.IsZero (f_FirstSeen f) then ∅ else {[Time.FormatDate (f_FirstSeen f)]}) ∪
             ((if Time.IsZero (f_LastSeen f) then ∅ else {[Time.FormatDate (f_LastSeen f)]}) ∪ ag_days a) |}.

Definition agg_step (m : gmap ruleKey ruleAgg) (f : LedgerFlow) : gmap ruleKey ruleAgg :=
  <[key_of f := add_flow f (default (new_agg f) (m !! key_of f))]> m.

Definition aggregate (flows : list LedgerFlow) : gmap ruleKey ruleAgg := foldl agg_step ∅ flows.

Definition base_confidence (obs : Z) (spanDays : nat) : Z :=
  if (100 <? obs)%Z && (3 <=? spanDays)%nat then 80%Z
  else if (10 <? obs)%Z && (1 <=? spanDays)%nat then 60%Z
  else if (1 <=? obs)%Z then 30%Z else 0%Z.

Definition attachConfidence (obs : Z) (class : string) (spanDays : nat) : Z :=
  let c := base_confidence obs spanDays in
  let c := if bool_decide (Str.ToLower class ∈ wellKnownInfraClasses) then (c + 10)%Z else c in
  let c := if Str.EqualFold class "raw" && (30 <? c)%Z then 30%Z else c in
  if (100 <? c)%Z then 100%Z else c.

Definition reason_of (connects : Z) (spanDays : nat) : string :=
  let c := Str.itoa connects in
  let d := Str.itoa (Z.of_nat spanDays) in
  if (100 <? connects)%Z && (3 <=? spanDays)%nat then "observed " +:+ (c +:+ (" connects across " +:+ (d +:+ " days")))
  else if (10 <? connects)%Z && (1 <=? spanDays)%nat
  then "observed " +:+ (c +:+ (" connects across " +:+ (d +:+ " day(s)")))
  else "sparse: " +:+ (c +:+ (" connect(s) in " +:+ (d +:+ " day(s) — review"))).

Definition proposal_rule (p : ruleKey * ruleAgg) : ProposalRule :=
  let '((cidr, port, proto, sni, dns), a) := p in
  let span := size (ag_days a) in
  {| pr_DestCIDR := cidr; pr_DestPort := port; pr_Protocol := proto; pr_SNI := sni; pr_DNSName := dns;
     pr_DestClass := ag_destClass a; pr_Observations := ag_connects a; pr_BytesOut := ag_bytesOut a;
     pr_LastSeen := ag_lastSeen a; pr_Reason := reason_of (ag_connects a) span;
     pr_Confidence := attachConfidence (ag_connects a) (ag_destClass a) span |}.

(** [sort.Slice]'s order on the rules; ties stay in an order left open *)
Definition rule_before (a b : ProposalRule) : bool :=
  if negb (pr_Confidence a =? pr_Confidence b)%Z then (pr_Confidence b <? pr_Confidence a)%Z
  else if negb (pr_Observations a =? pr_Observations b)%Z then (pr_Observations b <? pr_Observations a)%Z
  else Str.ltb (pr_DestCIDR a) (pr_DestCIDR b).

(** the earliest first and the latest last sighting of all keys *)
Definition min_first (aggs : list ruleAgg) : Time.time :=
  foldl (λ m a, if negb (Time.IsZero (ag_firstSeen a)) && (Time.IsZero m || Time.Before (ag_firstSeen a) m)
                then ag_firstSeen a else m) Time.zero aggs.
Definition max_last (aggs : list ruleAgg) : Time.time :=
  foldl (λ m a, if Time.After (ag_lastSeen a) m then ag_lastSeen a else m) Time.zero aggs.

Definition observed_days (aggs : list ruleAgg) : Z :=
  let first := min_first aggs in
  let last := max_last aggs in
  if negb (Time.IsZero first) && negb (Time.IsZero last)
  then (Z.quot (Time.Sub last first) (24 * Time.Hour) + 1)%Z else 0%Z.

Definition classes_of (flows : list LedgerFlow) : gset string :=
  list_to_set (filter (λ c, c ≠ "") (f_DestClass <$> flows)).

Definition total (g : LedgerFlow → Z) (flows : list LedgerFlow) : Z :=
  foldl (λ n f, u64 (n + g f)) 0%Z flows.

Definition mode_note (connects : Z) (n : nat) : string * string :=
  let c := Str.itoa (Z.of_nat n) in
  if (connects =? 0)%Z then (ModeObserve, "no connects observed — keep observing")
  else if (n <=? maxAllowRules)%nat
  then (ModeDenyDefault, c +:+ " distinct destinations — tight enough for deny_default")
  else (ModeObserve, c +:+ " distinct destinations — too noisy to lock down; keep observing").

(** [order] is what the sort of the rules answers *)
Definition proposeOne (order : list ProposalRule → list ProposalRule) (binary : string) (flows : list LedgerFlow)
    (start end_ : Time.time) : Proposal :=
  if bool_decide (flows = []) then
    {| po_Binary := binary; po_ObservedDays := 0; po_TotalConnects := 0; po_TotalBytesOut := 0; po_UniqueDests := 0;
       po_UniqueClasses := []; po_SuggestedMode := ModeObserve; po_Allow := [];
       po_Notes := ["no observed flows in window — suggest observe to collect baseline"] |}
  else
    let agg := aggregate flows in
    let rules := order (proposal_rule <$> map_to_list agg) in
    let connects := total f_Connects flows in
    let '(mode, note) := mode_note connects (length rules) in
    {| po_Binary := binary; po_ObservedDays := observed_days (snd <$> map_to_list agg);
       po_TotalConnects := connects; po_TotalBytesOut := total f_BytesOut flows;
       po_UniqueDests := length rules; po_UniqueClasses := sort_str (elements (classes_of flows));
       po_SuggestedMode := mode; po_Allow := rules;
       po_Notes := note :: (if negb (Time.IsZero start) && negb (Time.IsZero end_)
                            then ["window: " +:+ (Time.FormatRFC3339 start +:+ (" → " +:+ Time.FormatRFC3339 end_))]
                            else []) |}.

(** [QueryBinary] is the ledger; [done i] says whether the context is
    cancelled before the [i]-th binary *)
Fixpoint propose_loop (order : list ProposalRule → list ProposalRule) (query : string → Time.time → Time.time → list LedgerFlow)
    (done_ : nat → bool) (i : nat) (binaries : list string) (start end_ : Time.time) : list Proposal :=
  match binaries with
  | [] => []
  | b :: bs =>
      if done_ i then []
      else proposeOne order b (query b start end_) start end_ :: propose_loop order query done_ (S i) bs start end_
  end.

Definition ProposeFromLedger (order : list ProposalRule → list ProposalRule)
    (src : option (string → Time.time → Time.time → list LedgerFlow)) (done_ : nat → bool)
    (binaries : list string) (start end_ now : Time.time) : list Proposal :=
  match src with
  | None => []
  | Some query =>
      let start := if Time.IsZero start then Time.Add now (- (14 * 24 * Time.Hour)) else start in
      let end_ := if Time.IsZero end_ then now else end_ in
      propose_loop order query done_ 0 binaries start end_
  end.

Definition proposalComment (p : Proposal) : string :=
  Str.Join
    ((("auto-proposed from " +:+ (Str.itoa (po_TotalConnects p) +:+ " observed connect(s)")) ::
      (if (0 <? po_ObservedDays p)%Z then [Str.itoa (po_ObservedDays p) +:+ " day(s) of observation"] else [])) ++
      (if nonempty (po_UniqueClasses p) then ["classes: " +:+ Str.Join (po_UniqueClasses p) ","] else []))
    "; ".

Definition allow_rule (pr : ProposalRule) : Rule := {|
  ru_DestCIDR := pr_DestCIDR pr; ru_DestClass := pr_DestClass pr; ru_Country := ""; ru_ASN := "";
  ru_Ports := if (pr_DestPort pr =? 0)%Z then [] else [pr_DestPort pr];
  ru_Protocols := if Str.empty (pr_Protocol pr) then [] else [pr_Protocol pr];
  ru_SNI := pr_SNI pr; ru_DNSName := pr_DNSName pr; ru_Comment := pr_Reason pr |}.

(** not yet signed: the signer and the time are empty *)
Definition ToPolicy (p : Proposal) : Policy := {|
  p_SchemaVersion := SchemaVersion; p_Binary := po_Binary p;
  p_Mode := if Str.empty (po_SuggestedMode p) then ModeObserve else po_SuggestedMode p;
  p_SignedAt := Time.zero; p_Signer := ""; p_Comment := proposalComment p;
  p_Allow := allow_rule <$> po_Allow p; p_Deny := [];
  p_OnlyUIDs := []; p_OnlyCgroups := []; p_ExceptUIDs := []; p_ExceptCgroups := [] |}.

(** ** Operations on the store *)

(** what can happen to the store: a re-scan, a policy handed in, a deletion,
    and anyone changing the directory behind its back *)
Inductive store_op : Type :=
  | OReload (readdir_fails : bool) (unreadable : string → bool)
  | OImport (io : write_answer) (sp : SignedPolicy)
  | ODelete (rm_fails : bool) (binary : string)
  | ODisk (files : option (gmap string string)).

Definition store_exec (o : store_op) (s : Store) : Store :=
  match o with
  | OReload f u => (Reload f u s).1
  | OImport io sp => (VerifyAndSave io sp s).1
  | ODelete f b => (Delete f b s).1
  | ODisk files => with_files files s
  end.

Definition store_run (ops : list store_op) (s : Store) : Store := foldl (λ s o, store_exec o s) s ops.

(** the signature of [sp] under [pub] is one over the canonical bytes of its policy *)
Definition signed_by (pub : list Z) (sp : SignedPolicy) : Prop :=
  ∃ sig bytes, b64dec (sp_Signature sp) = Some sig ∧ YamlPolicy (canonical (sp_Policy sp)) = Some bytes ∧
               EdVerify pub bytes sig = true ∧ Validate (sp_Policy sp) = None.

(** ** Verification and the store *)

Lemma set_policy_binary (sp : SignedPolicy) :
  p_Binary (sp_Policy (set_policy (touched (sp_Policy sp)) sp)) = p_Binary (sp_Policy sp).
Proof. done. Qed.

Lemma Verify_spec (sp sp' : SignedPolicy) (pub : list Z) :
  Verify sp pub = (sp', None) →
  sp' = set_policy (touched (sp_Policy sp)) sp ∧ signed_by pub sp ∧
  length pub = 32 ∧ sp_Algorithm sp = AlgorithmEd25519 ∧ sp_Signer sp ≠ "".
Proof.
  unfold Verify, canonicalBytes. intros H.
  destruct (length pub =? 32)%nat eqn:Hl; [|by simplify_eq/=]. simpl in H.
  destruct (bool_decide (sp_Algorithm sp = _)) eqn:Ha; [|by simplify_eq/=]. simpl in H.
  destruct (Str.empty (sp_Signer sp)) eqn:Hs; [by simplify_eq/=|].
  destruct (Validate (sp_Policy sp)) eqn:Hv; [by simplify_eq/=|].
  destruct (b64dec (sp_Signature sp)) as [sig|] eqn:Hd; [|by simplify_eq/=].
  destruct (YamlPolicy _) as [b|] eqn:Hy; [|by simplify_eq/=].
  destruct (EdVerify pub b sig) eqn:He; [|by simplify_eq/=]. simplify_eq. bool_to_prop.
  unfold Str.empty in Hs. bool_to_prop. split_and!; [done| |done..]. by exists sig, b.
Qed.

Lemma Verify_intro (sp : SignedPolicy) (pub : list Z) :
  length pub = 32 → sp_Algorithm sp = AlgorithmEd25519 → sp_Signer sp ≠ "" → signed_by pub sp →
  Verify sp pub = (set_policy (touched (sp_Policy sp)) sp, None).
Proof.
  intros Hl Ha Hs (sig & b & Hd & Hy & He & Hv). unfold Verify, canonicalBytes, Str.empty.
  by rewrite (proj2 (Nat.eqb_eq _ _) Hl), bool_decide_eq_true_2, bool_decide_eq_false_2, Hv, Hd, Hy, He.
Qed.

Lemma signed_by_touched (pub : list Z) (sp : SignedPolicy) :
  signed_by pub sp → signed_by pub (set_policy (touched (sp_Policy sp)) sp).
Proof.
  intros (sig & b & Hd & Hy & He & Hv). exists sig, b. cbn [sp_Signature sp_Policy set_policy].
  rewrite canonical_touched. by rewrite Validate_touched.
Qed.

(** a verified policy verifies again and is left as it is *)
Lemma Verify_again (sp sp' : SignedPolicy) (pub : list Z) :
  Verify sp pub = (sp', None) → Verify sp' pub = (sp', None).
Proof.
  intros (-> & Hs & Hl & Ha & Hn)%Verify_spec. rewrite Verify_intro; [|done|done|done|by apply signed_by_touched].
  cbn [sp_Policy set_policy]. rewrite touched_idem. done.
Qed.

Definition store_ok (s : Store) : Prop :=
  map_Forall (λ b sp, p_Binary (sp_Policy sp) = b ∧ signed_by (s_pub s) sp) (s_policies s).

Lemma load_file_ok (u : string → bool) (pub : list Z) (n data : string) (sp : SignedPolicy) :
  load_file u pub n data = Ok sp →
  signed_by pub sp ∧ ∃ sp0, Unmarshal data = Some sp0 ∧ p_Binary (sp_Policy sp0) = p_Binary (sp_Policy sp).
Proof.
  unfold load_file. destruct (u n); [done|]. destruct (Unmarshal data) as [sp0|]; [|done].
  destruct (Verify sp0 pub) as [sp' [e|]] eqn:Hv; [done|]. intros [= <-].
  apply Verify_spec in Hv as (-> & Hs & _). split; [by apply signed_by_touched|]. by exists sp0.
Qed.

Lemma load_all_ok (u : string → bool) (pub : list Z) (files : gmap string string) (ns : list string)
    (m : gmap string SignedPolicy) (e : option policy_error) :
  map_Forall (λ b sp, p_Binary (sp_Policy sp) = b ∧ signed_by pub sp) m →
  map_Forall (λ b sp, p_Binary (sp_Policy sp) = b ∧ signed_by pub sp) (load_all u pub files ns m e).1.
Proof.
  revert m e. induction ns as [|n ns IH]; intros m e Hm; [done|]. cbn [load_all].
  destruct (files !! n) as [data|]; [|by apply IH]. destruct (policy_name n); [|by apply IH]. simpl.
  destruct (load_file u pub n data) as [sp|e'] eqn:Hl; [|by apply IH]. apply IH.
  apply load_file_ok in Hl as [Hs _]. by apply map_Forall_insert_2.
Qed.

Lemma store_exec_ok (o : store_op) (s : Store) :
  store_ok s → store_ok (store_exec o s) ∧ s_pub (store_exec o s) = s_pub s.
Proof.
  unfold store_ok. intros Hs. destruct o as [f u|io sp|f b|files]; cbn [store_exec].
  - unfold Reload. destruct (d_files s) as [fs|]; [|split; [apply map_Forall_empty|done]]. destruct f; [done|].
    pose proof (load_all_ok u (s_pub s) fs (sort_str (some_order fs)) ∅ None (map_Forall_empty _)) as H.
    by destruct (load_all _ _ _ _ _ _) as [m e].
  - unfold VerifyAndSave. destruct (Verify sp (s_pub s)) as [sp' [e|]] eqn:Hv; [done|]. unfold Save.
    destruct (Str.empty _); [done|]. apply Verify_spec in Hv as (-> & Hv & _). apply signed_by_touched in Hv.
    destruct (Marshal (set_policy (touched (sp_Policy sp)) sp)) as [data|], io as [| |[c|]]; try done.
    split; [|done]. by apply map_Forall_insert_2.
  - unfold Delete. destruct f; [done|]. split; [|done]. by apply map_Forall_delete.
  - done.
Qed.

Lemma store_run_ok (ops : list store_op) (s : Store) :
  store_ok s → store_ok (store_run ops s) ∧ s_pub (store_run ops s) = s_pub s.
Proof.
  revert s. induction ops as [|o ops IH]; intros s Hs; [done|].
  destruct (store_exec_ok o s Hs) as [H1 H2], (IH (store_exec o s) H1) as [H3 H4].
  split; [exact H3|]. exact (eq_trans H4 H2).
Qed.

Lemma NewPolicyStore_ok (dir : string) (pub : list Z) (files : option (gmap string string)) (s : Store) :
  NewStore dir pub files = Ok s → store_ok s ∧ s_pub s = pub ∧ length pub = 32.
Proof.
  unfold NewStore. destruct (length pub =? 32)%nat eqn:Hl; [|done]. destruct (Str.empty dir); [done|].
  simpl. intros [= <-]. bool_to_prop. split_and!; [apply map_Forall_empty|done|done].
Qed.

Lemma Get_some (binary : string) (s : Store) (sp : SignedPolicy) :
  store_ok s → Get binary s = Some sp →
  signed_by (s_pub s) sp ∧ (p_Binary (sp_Policy sp) = binary ∨ p_Binary (sp_Policy sp) = Str.Base binary).
Proof.
  intros Hs. unfold Get. destruct (s_policies s !! binary) as [sp'|] eqn:Hb.
  - intros [= <-]. destruct (Hs _ _ Hb). auto.
  - destruct (negb _); [|done]. intros Hb'. destruct (Hs _ _ Hb'). auto.
Qed.

(** what the loop leaves under a name that no file, or only one, loads under *)
Lemma load_all_other (u : string → bool) (pub : list Z) (files : gmap string string) (ns : list string)
    (m : gmap string SignedPolicy) (e : option policy_error) (b : string) :
  (∀ n data sp, n ∈ ns → policy_name n = true → files !! n = Some data → load_file u pub n data = Ok sp → p_Binary (sp_Policy sp) ≠ b) →
  (load_all u pub files ns m e).1 !! b = m !! b.
Proof.
  revert m e. induction ns as [|n ns IH]; intros m e H; [done|]. cbn [load_all].
  assert (∀ n' data sp, n' ∈ ns → policy_name n' = true → files !! n' = Some data →
          load_file u pub n' data = Ok sp → p_Binary (sp_Policy sp) ≠ b) as H'.
  { intros n' data sp Hn. apply H. by right. }
  destruct (files !! n) as [data|] eqn:Hd; [|by apply IH].
  destruct (policy_name n) eqn:Hp; [|by apply IH]. cbn [negb].
  destruct (load_file u pub n data) as [sp|e'] eqn:Hl; [|by apply IH].
  rewrite IH by done. apply lookup_insert_ne. apply (H n data); [by left|done..].
Qed.

Lemma load_all_one (u : string → bool) (pub : list Z) (files : gmap string string) (ns : list string)
    (m : gmap string SignedPolicy) (e : option policy_error) (b fname data : string) (sp : SignedPolicy) :
  NoDup ns → fname ∈ ns → policy_name fname = true → files !! fname = Some data →
  load_file u pub fname data = Ok sp → p_Binary (sp_Policy sp) = b →
  (∀ n data' sp', n ∈ ns → n ≠ fname → files !! n = Some data' → load_file u pub n data' = Ok sp' → p_Binary (sp_Policy sp') ≠ b) →
  (load_all u pub files ns m e).1 !! b = Some sp.
Proof.
  intros Hnd Hin Hp Hf Hl Hb Ho. revert m e. induction ns as [|n ns IH]; intros m e; [by apply elem_of_nil in Hin|].
  inversion Hnd as [|? ? Hn Hnd']; subst. cbn [load_all]. destruct (decide (n = fname)) as [->|Hne].
  - rewrite Hf, Hp. cbn [negb]. rewrite Hl. rewrite load_all_other; [by apply lookup_insert_eq|].
    intros n' data' sp' Hn' _. apply Ho; [by right|]. by intros ->.
  - apply elem_of_cons in Hin as [->|Hin]; [done|].
    assert (∀ n' data' sp', n' ∈ ns → n' ≠ fname → files !! n' = Some data' →
            load_file u pub n' data' = Ok sp' → p_Binary (sp_Policy sp') ≠ p_Binary (sp_Policy sp)) as Ho'.
    { intros n' data' sp' Hn'. apply Ho. by right. }
    specialize (IH Hnd' Hin Ho'). destruct (files !! n) as [data'|]; [|apply IH].
    destruct (policy_name n); [|apply IH]. cbn [negb]. destruct (load_file u pub n data'); apply IH.
Qed.

(** ** The properties *)

(** C8: Nobody without the signing key can make the engine allow or deny.
    Whatever happens to the store - re-scans, policies handed in, deletions, and
    arbitrary changes to the directory by others in between - the engine denies
    a connection exactly when the policy found for the binary (by full path,
    else by base name) carries a valid signature over its canonical bytes under
    the operator's key, applies to the subject, and is tor_only with another
    destination or deny_default with a matching deny rule or no matching allow
    rule; it allows only under such a signed policy; everything else is only
    observed. *)
Theorem unsigned_policy_is_inert (dir : string) (pub : list Z) (files : option (gmap string string)) (s0 : Store)
    (ops : list store_op) (mode : string) (req : PolicyRequest) (Hs0 : NewStore dir pub files = Ok s0) :
  let s := store_run ops s0 in
  let d := Decide (Some (NewEngine (Some s) mode)) req in
  let governs sp := Get (rq_Binary req) s = Some sp ∧ signed_by pub sp ∧
    (p_Binary (sp_Policy sp) = rq_Binary req ∨ p_Binary (sp_Policy sp) = Str.Base (rq_Binary req)) in
  (pd_Action d = ActionDeny ↔ ∃ sp, governs sp ∧ denies (sp_Policy sp) req) ∧
  (pd_Action d = ActionAllow ↔ ∃ sp, governs sp ∧ allows (sp_Policy sp) req) ∧
  (pd_Action d = ActionDeny ∨ pd_Action d = ActionAllow ∨ pd_Action d = ActionObserve).
Proof.
  clear EdSign b64enc. intros s d governs. destruct (NewPolicyStore_ok _ _ _ _ Hs0) as (Hok & Hpub & _).
  destruct (store_run_ok ops s0 Hok) as [Hs Hp]. fold s in Hs, Hp. rewrite Hpub in Hp.
  subst d. unfold Decide. cbn [NewEngine e_store e_defaultMode].
  set (m := if Str.empty mode then ModeObserve else mode). subst governs; cbv beta.
  destruct (Get (rq_Binary req) s) as [sp|] eqn:Hg; [|cbn; naive_solver].
  destruct (Get_some _ _ _ Hs Hg) as [Hsig Hb]. rewrite Hp in Hsig.
  destruct (policy_action m (sp_Policy sp) req) as [Hd Ha]. split_and!.
  - rewrite Hd. naive_solver.
  - rewrite Ha. naive_solver.
  - destruct (pd_Action (policy_decision m (sp_Policy sp) req)) eqn:He; [auto..| |auto].
    exfalso. revert He. unfold policy_decision. repeat case_match; try done.
    rewrite deny_default_action. by case_match.
Qed.

Section roundtrip.
Context (yaml_roundtrip : ∀ sp data, Marshal sp = Some data → Unmarshal data = Some sp).

Lemma reload_file (s : Store) (files : gmap string string) (sp sp' : SignedPolicy) (data : string) :
  d_files s = Some files → policy_name (file_of (p_Binary (sp_Policy sp))) = true →
  files !! file_of (p_Binary (sp_Policy sp)) = Some data → Marshal sp = Some data → Verify sp (s_pub s) = (sp', None) →
  (∀ n data' sp0, files !! n = Some data' → n ≠ file_of (p_Binary (sp_Policy sp)) → Unmarshal data' = Some sp0 →
     p_Binary (sp_Policy sp0) ≠ p_Binary (sp_Policy sp)) →
  s_policies (Reload false (λ _, false) s).1 !! p_Binary (sp_Policy sp) = Some sp'.
Proof.
  intros Hd Hn Hf Hm Hv Ho. unfold Reload. rewrite Hd.
  destruct (load_all _ _ _ _ _ _) as [m e] eqn:El. cbn [fst s_policies with_policies].
  change m with (m, e).1. rewrite <-El. apply (load_all_one _ _ _ _ _ _ _ (file_of (p_Binary (sp_Policy sp))) data); [| |done|done| | |].
  - rewrite sort_str_perm. apply some_order_ok.
  - rewrite sort_str_perm. apply some_order_ok. by exists data.
  - unfold load_file. by rewrite (yaml_roundtrip sp data Hm), Hv.
  - by apply Verify_spec in Hv as [-> _].
  - intros n data' sp0 _ Hne Hf' Hl. apply load_file_ok in Hl as (_ & sp1 & Hu & Hb). rewrite <-Hb. by eapply Ho.
Qed.

Lemma reload_lost (s : Store) (files : gmap string string) (b : string) :
  d_files s = Some files →
  (∀ n data' sp0, files !! n = Some data' → Unmarshal data' = Some sp0 → p_Binary (sp_Policy sp0) ≠ b) →
  s_policies (Reload false (λ _, false) s).1 !! b = None.
Proof.
  intros Hd Ho. unfold Reload. rewrite Hd.
  destruct (load_all _ _ _ _ _ _) as [m e] eqn:El. cbn [fst s_policies with_policies].
  change m with (m, e).1. rewrite <-El, load_all_other; [apply lookup_empty|].
  intros n data' sp0 _ _ Hf' Hl. apply load_file_ok in Hl as (_ & sp1 & Hu & Hb). rewrite <-Hb. by eapply Ho.
Qed.

(** what a successful signing says *)
Lemma Sign_spec (p : Policy) (signer : string) (priv : list Z) (now : Time.time) (sp : SignedPolicy) :
  (Sign p signer priv now).2 = Ok sp →
  length priv = 64 ∧ signer ≠ "" ∧ Validate (sign_defaults signer now p) = None ∧
  ∃ b, YamlPolicy (canonical (sign_defaults signer now p)) = Some b ∧
    sp = {| sp_Policy := touched (sign_defaults signer now p); sp_Signer := signer;
            sp_Algorithm := AlgorithmEd25519; sp_Signature := b64enc (EdSign priv b) |}.
Proof.
  unfold Sign, canonicalBytes. destruct (length priv =? 64)%nat eqn:Hl; [|done]. cbn [negb].
  destruct (Str.empty signer) eqn:Hs; [done|]. destruct (Validate _); [done|].
  destruct (YamlPolicy _) as [b|]; [|done]. intros [= <-]. unfold Str.empty in Hs. bool_to_prop.
  split_and!; [done..|]. by exists b.
Qed.

(** what a successful import does *)
Lemma import_spec (sp : SignedPolicy) (s s' : Store) :
  VerifyAndSave WriteOk sp s = (s', None) →
  ∃ sp' data, Verify sp (s_pub s) = (sp', None) ∧ Marshal sp' = Some data ∧
    s' = with_policies (<[p_Binary (sp_Policy sp) := sp']> (s_policies s))
           (with_files (Some (<[file_of (p_Binary (sp_Policy sp)) := data]> (default ∅ (d_files s)))) s).
Proof.
  unfold VerifyAndSave. destruct (Verify sp (s_pub s)) as [sp' [e|]] eqn:Hv; [done|]. unfold Save.
  pose proof (Verify_spec _ _ _ Hv) as (-> & _). cbn [sp_Policy set_policy p_Binary touched].
  destruct (Str.empty _); [done|]. destruct (Marshal _) as [data|] eqn:Hm; [|done]. intros [= <-].
  by exists (set_policy (touched (sp_Policy sp)) sp), data.
Qed.

(** What the operator signs is what the engine enforces, across a restart.
    A policy signed with the operator's private key is accepted by the store
    that holds the public key; after any re-scan that finds no other file for
    the same binary it is the policy of that binary, and the engine's action on
    every request is that of the policy as the operator wrote it: the fields
    that signing fills in, the lists sorted for the canonical form, the written
    file and the second verification change nothing. *)
Theorem signed_policy_takes_effect
    (ed_correct : ∀ priv m, length priv = 64 → EdVerify (drop 32 priv) m (EdSign priv m) = true)
    (b64_roundtrip : ∀ b, b64dec (b64enc b) = Some b)
    (p : Policy) (signer : string) (priv : list Z) (now : Time.time) (sp : SignedPolicy) (s : Store)
    (mode : string) (req : PolicyRequest)
    (Hsign : (Sign p signer priv now).2 = Ok sp) (Hpub : s_pub s = drop 32 priv) (Hyaml : is_Some (Marshal sp))
    (Hname : policy_name (file_of (p_Binary p)) = true)
    (Hothers : ∀ n data sp0, default ∅ (d_files s) !! n = Some data → n ≠ file_of (p_Binary p) →
       Unmarshal data = Some sp0 → p_Binary (sp_Policy sp0) ≠ p_Binary p)
    (Hreq : rq_Binary req = p_Binary p) :
  let '(s1, err) := VerifyAndSave WriteOk sp s in
  let s2 := (Reload false (λ _, false) s1).1 in
  err = None ∧
  s_policies s2 !! p_Binary p = Some sp ∧
  pd_Action (Decide (Some (NewEngine (Some s2) mode)) req) =
  pd_Action (policy_decision (if Str.empty mode then ModeObserve else mode) p req).
Proof.
  destruct (Sign_spec _ _ _ _ _ Hsign) as (Hl & Hs & Hv & b & Hy & Hsp).
  assert (Verify sp (s_pub s) = (sp, None)) as Hver.
  { assert (sp = set_policy (touched (sp_Policy sp)) sp) as Ht.
    { rewrite Hsp. unfold set_policy. cbn. by rewrite touched_idem. }
    rewrite Ht at 2. rewrite Hpub. apply Verify_intro; [by rewrite length_drop, Hl|by rewrite Hsp|by rewrite Hsp|].
    exists (EdSign priv b), b. rewrite Hsp. cbn. rewrite canonical_touched, Validate_touched.
    split_and!; [apply b64_roundtrip|done|by apply ed_correct|done]. }
  assert (p_Binary (sp_Policy sp) = p_Binary p) as Hb by by rewrite Hsp.
  assert (p_Binary p ≠ "") as Hne.
  { intros He. unfold Validate in Hv. cbn in Hv. rewrite He in Hv. by repeat case_match. }
  destruct Hyaml as [data Hm]. unfold VerifyAndSave. rewrite Hver. unfold Save. rewrite Hb, Hm.
  unfold Str.empty at 1. rewrite bool_decide_eq_false_2 by done.
  set (s1 := with_policies _ _). set (s2 := (Reload _ _ s1).1).
  assert (s_policies s2 !! p_Binary p = Some sp) as Hs2.
  { rewrite <-Hb. subst s2. eapply reload_file with (data := data); [done|by rewrite Hb| |done|exact Hver|].
    - rewrite Hb. apply lookup_insert_eq.
    - rewrite Hb. intros n data' sp0 Hf Hn. rewrite lookup_insert_ne in Hf by done. by apply (Hothers n data'). }
  split_and!; [done|done|].
  unfold Decide. cbn [NewEngine e_store e_defaultMode]. unfold Get. rewrite Hreq, Hs2, Hsp. cbn [sp_Policy].
  rewrite touched_action. reflexivity.
Qed.

(** Two binaries whose paths are sanitised to the same file name share it:
    importing the policy of the second overwrites the file of the first.  The
    first policy is still enforced from memory, and is lost at the next re-scan
    (within 30 s, or at a restart): a binary the operator has locked down is
    then only observed, and no error is reported for it. *)
Theorem colliding_policy_is_lost (spa spb : SignedPolicy) (s s1 s2 : Store) (mode : string) (req : PolicyRequest)
    (Hne : p_Binary (sp_Policy spa) ≠ p_Binary (sp_Policy spb))
    (Hfile : file_of (p_Binary (sp_Policy spa)) = file_of (p_Binary (sp_Policy spb)))
    (Ha : VerifyAndSave WriteOk spa s = (s1, None)) (Hb : VerifyAndSave WriteOk spb s1 = (s2, None))
    (Hothers : ∀ n data sp0, default ∅ (d_files s2) !! n = Some data → n ≠ file_of (p_Binary (sp_Policy spa)) →
       Unmarshal data = Some sp0 →
       p_Binary (sp_Policy sp0) ≠ p_Binary (sp_Policy spa) ∧ p_Binary (sp_Policy sp0) ≠ Str.Base (p_Binary (sp_Policy spa)))
    (Hbase : p_Binary (sp_Policy spb) ≠ Str.Base (p_Binary (sp_Policy spa)))
    (Hreq : rq_Binary req = p_Binary (sp_Policy spa)) :
  let m := if Str.empty mode then ModeObserve else mode in
  let s3 := (Reload false (λ _, false) s2).1 in
  pd_Action (Decide (Some (NewEngine (Some s2) mode)) req) = pd_Action (policy_decision m (sp_Policy spa) req) ∧
  s_policies s3 !! p_Binary (sp_Policy spa) = None ∧
  pd_Action (Decide (Some (NewEngine (Some s3) mode)) req) = ActionObserve.
Proof.
  intros m s3. destruct (import_spec _ _ _ Ha) as (spa' & da & Hva & Hma & ->).
  destruct (import_spec _ _ _ Hb) as (spb' & db & Hvb & Hmb & ->).
  assert (∀ b, b ≠ p_Binary (sp_Policy spb) →
    (∀ n data sp0, default ∅ (d_files (with_files (Some (<[file_of (p_Binary (sp_Policy spb)) := db]>
       (<[file_of (p_Binary (sp_Policy spa)) := da]> (default ∅ (d_files s))))) s)) !! n = Some data →
       n ≠ file_of (p_Binary (sp_Policy spa)) → Unmarshal data = Some sp0 → p_Binary (sp_Policy sp0) ≠ b) →
    s_policies s3 !! b = None) as Hlost.
  { intros b Hbb Ho. subst s3. eapply reload_lost; [done|]. intros n data sp0 Hf Hu.
    destruct (decide (n = file_of (p_Binary (sp_Policy spa)))) as [->|Hn]; [|by eapply Ho].
    rewrite Hfile, lookup_insert_eq in Hf. simplify_eq. rewrite (yaml_roundtrip _ _ Hmb) in Hu. simplify_eq.
    apply Verify_spec in Hvb as [-> _]. cbn. congruence. }
  assert (s_policies s3 !! p_Binary (sp_Policy spa) = None) as H3.
  { apply Hlost; [done|]. intros n data sp0 Hf Hn Hu. by destruct (Hothers n data sp0 Hf Hn Hu). }
  split_and!; [| exact H3 |].
  - unfold Decide. cbn [NewEngine e_store e_defaultMode]. unfold Get. rewrite Hreq. cbn [s_policies with_policies with_files].
    rewrite lookup_insert_ne, lookup_insert_eq by done. apply Verify_spec in Hva as [-> _].
    cbn [sp_Policy set_policy]. apply touched_action.
  - unfold Decide. cbn [NewEngine e_store e_defaultMode]. unfold Get. rewrite Hreq, H3.
    destruct (negb _) eqn:Hn; [|done]. rewrite Hlost; [done|by apply not_eq_sym|].
    intros n data sp0 Hf Hne' Hu. by destruct (Hothers n data sp0 Hf Hne' Hu).
Qed.

End roundtrip.
End signing.

(** ** What a proposed policy admits *)

(** the class the proposal gives to a key: the first one seen for it *)
Definition group_class (flows : list LedgerFlow) (k : ruleKey) : string :=
  default "" (head (filter (λ c, c ≠ "") (f_DestClass <$> filter (λ f, key_of f = k) flows))).

(** the request fits the key of [f] and the class [c] *)
Definition covers (f : LedgerFlow) (c : string) (req : PolicyRequest) : Prop :=
  (f_DestCIDR f = "" ∨ cidr_admits (f_DestCIDR f) (rq_DestIP req) = true) ∧
  (c = "" ∨ Str.EqualFold c (rq_DestClass req) = true) ∧
  (f_DestPort f = 0%Z ∨ f_DestPort f = rq_DestPort req) ∧
  (f_Protocol f = "" ∨ Str.EqualFold (f_Protocol f) (rq_Protocol req) = true) ∧
  (f_SNI f = "" ∨ matchHostname (f_SNI f) (rq_SNI req) = true) ∧
  (f_DNSName f = "" ∨ matchHostname (f_DNSName f) (rq_DNSName req) = true).

(** [req] is a connection of the flow [f] *)
Definition traffic (f : LedgerFlow) (req : PolicyRequest) : Prop :=
  (f_DestCIDR f = "" ∨ cidr_admits (f_DestCIDR f) (rq_DestIP req) = true) ∧
  rq_DestPort req = f_DestPort f ∧ rq_Protocol req = f_Protocol f ∧ rq_SNI req = f_SNI f ∧
  rq_DNSName req = f_DNSName f ∧ rq_DestClass req = f_DestClass f.

(** a name that is not only blanks *)
Definition named (s : string) : Prop := s = "" ∨ Str.TrimSpace s ≠ "".

Lemma group_class_snoc (flows : list LedgerFlow) (f : LedgerFlow) (k : ruleKey) :
  group_class (flows ++ [f]) k =
  if decide (key_of f = k)
  then (if Str.empty (group_class flows k) then f_DestClass f else group_class flows k)
  else group_class flows k.
Proof.
  unfold group_class. rewrite filter_app, fmap_app, filter_app.
  destruct (decide (key_of f = k)) as [Hk|Hk].
  - rewrite (filter_cons_True _ f []), filter_nil by done. change (f_DestClass <$> [f]) with [f_DestClass f].
    destruct (filter _ (f_DestClass <$> filter _ flows)) as [|c l] eqn:Hl.
    + rewrite app_nil_l, filter_cons. case_decide as Hc; [done|]. rewrite filter_nil. cbn. by destruct (f_DestClass f).
    + assert (c ∈ c :: l) as Hc by by left. rewrite <-Hl in Hc. apply list_elem_of_filter in Hc as [Hc _].
      cbn. unfold Str.empty. by rewrite bool_decide_eq_false_2.
  - rewrite (filter_cons_False _ f []), filter_nil by done. by rewrite app_nil_r.
Qed.

Lemma aggregate_spec (flows : list LedgerFlow) (k : ruleKey) :
  match aggregate flows !! k with
  | Some a => (∃ f, f ∈ flows ∧ key_of f = k) ∧ ag_destClass a = group_class flows k
  | None => ∀ f, f ∈ flows → key_of f ≠ k
  end.
Proof.
  unfold aggregate. induction flows as [|f flows IH] using rev_ind.
  { change (foldl agg_step ∅ [] !! k) with ((∅ : gmap ruleKey ruleAgg) !! k). rewrite lookup_empty. by intros f ?%elem_of_nil. }
  rewrite foldl_app. cbn [foldl]. set (m := foldl agg_step ∅ flows) in *. unfold agg_step.
  rewrite group_class_snoc. destruct (decide (key_of f = k)) as [<-|Hk].
  - rewrite lookup_insert_eq. split; [exists f; split; [set_solver|done]|].
    destruct (m !! key_of f) as [a|]; cbn.
    + destruct IH as [_ He]. rewrite He. unfold Str.empty.
      repeat case_bool_decide; cbn; congruence.
    + assert (group_class flows (key_of f) = "") as ->.
      { unfold group_class. rewrite (filter_none (λ g, key_of g = key_of f)); [done|]. by apply Forall_forall. }
      cbn. by case_match.
  - rewrite lookup_insert_ne by done. destruct (m !! k) as [a|].
    + destruct IH as [(g & Hg & Hgk) Hc]. split; [|done]. exists g. split; [set_solver|done].
    + intros g [Hg| ->%list_elem_of_singleton]%elem_of_app; [by apply IH|done].
Qed.

(** one test of [matchRule] *)
Lemma unless_true (a b c : bool) :
  (if a && negb b then false else c) = true ↔ (a = false ∨ b = true) ∧ c = true.
Proof. destruct a, b, c; naive_solver. Qed.

Lemma unset (s : string) : negb (Str.empty s) = false ↔ s = "".
Proof. unfold Str.empty. case_bool_decide; naive_solver. Qed.

Lemma port_field (p q : Z) :
  let ps := if (p =? 0)%Z then [] else [p] in
  (nonempty ps = false ∨ containsPort ps q = true) ↔ (p = 0 ∨ p = q)%Z.
Proof.
  simpl. destruct (Z.eqb_spec p 0) as [->|Hp]; cbn; [naive_solver|].
  rewrite orb_false_r, Z.eqb_eq. naive_solver.
Qed.

Lemma protocol_field (p q : string) :
  let ps := if Str.empty p then [] else [p] in
  (nonempty ps = false ∨ containsStringCI ps q = true) ↔ (p = "" ∨ Str.EqualFold p q = true).
Proof.
  simpl. unfold Str.empty. case_bool_decide; unfold nonempty, containsStringCI; cbn [length existsb Nat.ltb Nat.leb];
    [naive_solver|]. rewrite orb_false_r. naive_solver.
Qed.

Lemma match_allow_rule (f : LedgerFlow) (a : ruleAgg) (req : PolicyRequest) :
  matchRule (allow_rule (proposal_rule (key_of f, a))) req = true ↔ covers f (ag_destClass a) req.
Proof.
  unfold matchRule. rewrite !unless_true.
  cbn [allow_rule proposal_rule key_of pr_DestCIDR pr_DestPort pr_Protocol pr_SNI pr_DNSName pr_DestClass
    ru_DestCIDR ru_DestClass ru_Country ru_ASN ru_Ports ru_Protocols ru_SNI ru_DNSName].
  rewrite !unset, port_field, protocol_field. unfold covers. split.
  - intros (H1 & H2 & _ & _ & H3 & H4 & H5 & H6 & _). by split_and!.
  - intros (H1 & H2 & H3 & H4 & H5 & H6). split_and!; first [done|by left].
Qed.

(** the rules of a proposal, whatever the order of the sort *)
Lemma proposal_admits (order : list ProposalRule → list ProposalRule) (flows : list LedgerFlow) (req : PolicyRequest) :
  (∀ l, order l ≡ₚ l) →
  admits (allow_rule <$> order (proposal_rule <$> map_to_list (aggregate flows))) req = true ↔
  ∃ f, f ∈ flows ∧ covers f (group_class flows (key_of f)) req.
Proof.
  intros Ho. unfold admits. rewrite (existsb_perm _ _ (allow_rule <$> (proposal_rule <$> map_to_list (aggregate flows))))
    by (by rewrite Ho). rewrite existsb_exists. split.
  - intros (r & Hr & Hm). apply list_elem_of_In, list_elem_of_fmap in Hr as (pr & -> & Hr).
    apply list_elem_of_fmap in Hr as ([k a] & -> & Hka). apply elem_of_map_to_list in Hka.
    pose proof (aggregate_spec flows k) as Hs. rewrite Hka in Hs. destruct Hs as [(f & Hf & <-) Hc].
    exists f. split; [done|]. rewrite <-Hc. by apply match_allow_rule.
  - intros (f & Hf & Hc). pose proof (aggregate_spec flows (key_of f)) as Hs.
    destruct (aggregate flows !! key_of f) as [a|] eqn:Ha; [|by destruct (Hs f)]. destruct Hs as [_ Hs].
    exists (allow_rule (proposal_rule (key_of f, a))). split; [|by apply match_allow_rule; rewrite Hs].
    apply list_elem_of_In, list_elem_of_fmap_2, list_elem_of_fmap_2. by apply elem_of_map_to_list.
Qed.

Lemma ToLower_empty (s : string) : Str.ToLower s = "" → s = "".
Proof. by destruct s. Qed.

Lemma matchHostname_refl (s : string) : Str.TrimSpace s ≠ "" → matchHostname s s = true.
Proof.
  intros Hs. unfold matchHostname. set (p := Str.ToLower (Str.TrimSpace s)).
  assert (p ≠ "") as Hp by (intros He; by apply Hs, ToLower_empty).
  unfold Str.empty. rewrite bool_decide_eq_false_2 by done. cbn [orb].
  destruct (Str.HasPrefix p "*.") eqn:H1.
  - apply Str.HasPrefix_spec in H1 as [t Ht]. apply orb_true_iff. left. apply Str.HasSuffix_spec.
    exists "*". rewrite Ht. reflexivity.
  - destruct (Str.HasPrefix p "."); [|by apply bool_decide_eq_true_2].
    apply orb_true_iff. left. apply Str.HasSuffix_spec. by exists "".
Qed.

Lemma EqualFold_refl (s : string) : Str.EqualFold s s = true.
Proof. by apply bool_decide_eq_true_2. Qed.

Lemma traffic_covers (f : LedgerFlow) (c : string) (req : PolicyRequest) :
  traffic f req → named (f_SNI f) → named (f_DNSName f) → (c = "" ∨ Str.EqualFold c (f_DestClass f) = true) →
  covers f c req.
Proof.
  intros (Hci & Hp & Hq & Hs & Hd & Hc) Hns Hnd Hcl. unfold covers. rewrite Hp, Hq, Hs, Hd, Hc.
  split_and!; [done|done|by right|right; apply EqualFold_refl|..].
  - destruct Hns as [?|?]; [by left|right; by apply matchHostname_refl].
  - destruct Hnd as [?|?]; [by left|right; by apply matchHostname_refl].
Qed.

(** what a locked-down policy without scope lists decides *)
Lemma deny_default_everywhere (p : Policy) (m : string) (req : PolicyRequest) :
  p_Mode p = ModeDenyDefault →
  p_OnlyUIDs p = [] ∧ p_OnlyCgroups p = [] ∧ p_ExceptUIDs p = [] ∧ p_ExceptCgroups p = [] →
  pd_Action (policy_decision m p req) = if negb (admits (p_Deny p) req) && admits (p_Allow p) req then ActionAllow else ActionDeny.
Proof.
  intros Hm (H1 & H2 & H3 & H4). unfold policy_decision.
  assert (subjectInScope p req = true) as -> by (unfold subjectInScope; by rewrite H1, H2, H3, H4).
  cbn [negb]. rewrite Hm. change (bool_decide (ModeDenyDefault = ModeAllowAny)) with false.
  change (bool_decide (ModeDenyDefault = ModeObserve)) with false.
  change (bool_decide (ModeDenyDefault = ModeTorOnly)) with false.
  change (bool_decide (ModeDenyDefault = ModeDenyDefault)) with true. cbn [negb]. apply deny_default_action.
Qed.

(** without scope lists or deny rules a locked-down draft allows what its rules admit *)
Lemma draft_action (order : list ProposalRule → list ProposalRule) (binary : string) (flows : list LedgerFlow)
    (st en : Time.time) (m : string) (req : PolicyRequest) :
  (∀ l, order l ≡ₚ l) →
  p_Mode (ToPolicy (proposeOne order binary flows st en)) = ModeDenyDefault →
  let a := pd_Action (policy_decision m (ToPolicy (proposeOne order binary flows st en)) req) in
  (a = ActionAllow ↔ ∃ f, f ∈ flows ∧ covers f (group_class flows (key_of f)) req) ∧
  (a = ActionAllow ∨ a = ActionDeny).
Proof.
  intros Ho Hm a. subst a. rewrite deny_default_everywhere, <-(proposal_admits order flows req Ho); [|done|done].
  revert Hm. unfold proposeOne, ToPolicy. case_bool_decide as Hf; [done|]. destruct (mode_note _ _). intros _.
  cbn [p_Deny p_Allow po_Allow]. change (admits [] req) with false. cbn [negb andb].
  destruct (admits _ req); naive_solver.
Qed.

(** A proposed lock-down fits the traffic it was drawn from.  When the
    workflow suggests deny_default, the drafted policy allows a connection
    exactly when it fits the address, port, protocol and names of some observed
    flow and the destination class the draft gives to that key, whatever the
    order the rules end up in; in particular every connection of an observed
    flow is allowed, provided the flows of its key were not seen with another
    class and its names are not blank. *)
Theorem proposal_admits_what_was_seen (order : list ProposalRule → list ProposalRule) (binary : string)
    (flows : list LedgerFlow) (st en : Time.time) (mode : string) (Hsort : ∀ l, order l ≡ₚ l)
    (Hmode : p_Mode (ToPolicy (proposeOne order binary flows st en)) = ModeDenyDefault) :
  let action req := pd_Action (policy_decision mode (ToPolicy (proposeOne order binary flows st en)) req) in
  (∀ req, action req = ActionAllow ↔ ∃ f, f ∈ flows ∧ covers f (group_class flows (key_of f)) req) ∧
  (∀ f req, f ∈ flows → traffic f req → named (f_SNI f) → named (f_DNSName f) →
     (∀ g, g ∈ flows → key_of g = key_of f → f_DestClass g = "" ∨ f_DestClass g = f_DestClass f) →
     action req = ActionAllow).
Proof.
  intros action. split; [intros req; by apply draft_action|]. intros f req Hf Ht Hs Hd Hc.
  apply (draft_action order binary flows st en mode req Hsort Hmode). exists f. split; [done|].
  apply traffic_covers; [done..|]. unfold group_class.
  destruct (filter (λ c, c ≠ "") _) as [|c l] eqn:Hl; [by left|right]. cbn.
  assert (c ∈ c :: l) as Hin by by left. rewrite <-Hl in Hin. apply list_elem_of_filter in Hin as [Hne Hin].
  apply list_elem_of_fmap in Hin as (g & -> & Hg). apply list_elem_of_filter in Hg as [Hk Hg].
  destruct (Hc g Hg Hk) as [?| ->]; [done|apply EqualFold_refl].
Qed.

(** A flow seen under two destination classes is locked out by its own
    draft: the rule of its key keeps the first class, so when no other key
    covers it, a connection that was observed - under the later class - is
    denied by the policy proposed from that very observation. *)
Theorem reclassified_flow_locked_out (order : list ProposalRule → list ProposalRule) (binary : string)
    (flows : list LedgerFlow) (st en : Time.time) (mode : string) (f : LedgerFlow) (req : PolicyRequest)
    (Hsort : ∀ l, order l ≡ₚ l)
    (Hmode : p_Mode (ToPolicy (proposeOne order binary flows st en)) = ModeDenyDefault)
    (Hf : f ∈ flows) (Ht : traffic f req)
    (Hclass : group_class flows (key_of f) ≠ "" ∧ Str.EqualFold (group_class flows (key_of f)) (f_DestClass f) = false)
    (Hother : ∀ g, g ∈ flows → key_of g ≠ key_of f → ¬ covers g (group_class flows (key_of g)) req) :
  pd_Action (policy_decision mode (ToPolicy (proposeOne order binary flows st en)) req) = ActionDeny.
Proof.
  destruct (draft_action order binary flows st en mode req Hsort Hmode) as [Ha [He|He]]; [|done].
  apply Ha in He as (g & Hg & Hc). destruct (decide (key_of g = key_of f)) as [Hk|Hk]; [|by destruct (Hother g Hg Hk)].
  destruct Hc as (_ & [Hc|Hc] & _); rewrite Hk in Hc; destruct Hclass as [H1 H2]; [done|].
  destruct Ht as (_ & _ & _ & _ & _ & Hd). rewrite Hd in Hc. congruence.
Qed.

(** ** The theorems at work *)

Module Demo.

#[local] Instance Rule_eq_dec : EqDecision Rule.
Proof. solve_decision. Defined.
#[local] Instance Policy_eq_dec : EqDecision Policy.
Proof. solve_decision. Defined.
#[local] Instance SignedPolicy_eq_dec : EqDecision SignedPolicy.
Proof. solve_decision. Defined.
Definition sign (priv : list Z) (m : string) : list Z := drop 32 priv ++ [Z.of_nat (Str.len m)].
Definition verify (pub : list Z) (m : string) (sig : list Z) : bool := bool_decide (sig = pub ++ [Z.of_nat (Str.len m)]).
Definition enc64 (b : list Z) : string := text_of b.
Definition dec64 (s : string) : option (list Z) := of_text s.
Definition yaml (p : Policy) : option string := Some (p_Binary p +:+ ("|" +:+ (p_Mode p +:+ ("|" +:+ p_Comment p)))).

Definition pub : list Z := replicate 32 7%Z.
Definition priv : list Z := replicate 32 1%Z ++ pub.

Definition rule (cidr : string) (ports : list Z) : Rule := {|
  ru_DestCIDR := cidr; ru_DestClass := ""; ru_Country := ""; ru_ASN := ""; ru_Ports := ports;
  ru_Protocols := ["tcp"]; ru_SNI := ""; ru_DNSName := ""; ru_Comment := "" |}.

Definition policy (binary : string) : Policy := {|
  p_SchemaVersion := 0; p_Binary := binary; p_Mode := ModeDenyDefault; p_SignedAt := Time.zero; p_Signer := "";
  p_Comment := ""; p_Allow := [rule "10.0.0.0/8" [443; 80]%Z]; p_Deny := []; p_OnlyUIDs := []; p_OnlyCgroups := [];
  p_ExceptUIDs := []; p_ExceptCgroups := [] |}.

Definition signed (binary : string) : SignedPolicy :=
  match (Sign sign enc64 yaml (policy binary) "op" priv 5000000000).2 with
  | Ok sp => sp
  | Err _ => {| sp_Policy := policy binary; sp_Signer := ""; sp_Algorithm := ""; sp_Signature := "" |}
  end.

(** the same policy with every destination allowed, under the old signature *)
Definition forged (binary : string) : SignedPolicy :=
  set_policy {| p_SchemaVersion := 1; p_Binary := binary; p_Mode := ModeAllowAny; p_SignedAt := 5000000000; p_Signer := "op";
                p_Comment := "free"; p_Allow := []; p_Deny := []; p_OnlyUIDs := []; p_OnlyCgroups := [];
                p_ExceptUIDs := []; p_ExceptCgroups := [] |} (signed binary).

(** a file format for these policies: one letter each *)
Definition table : list (string * SignedPolicy) :=
  [("p", signed "/usr/bin/php"); ("a", signed "/opt/a_b"); ("b", signed "/opt/a/b"); ("f", forged "/usr/bin/php")].
Definition marshal (sp : SignedPolicy) : option string := fst <$> List.find (λ e, bool_decide (e.2 = sp)) table.
Definition unmarshal (s : string) : option SignedPolicy := snd <$> List.find (λ e, bool_decide (e.1 = s)) table.

Lemma yaml_ok (sp : SignedPolicy) (data : string) : marshal sp = Some data → unmarshal data = Some sp.
Proof.
  unfold marshal. destruct (List.find _ table) as [[d sp']|] eqn:Hf; [|done]. intros [= <-].
  apply List.find_some in Hf as [Hin Hsp]. bool_to_prop. cbn in Hsp. subst sp'.
  apply list_elem_of_In in Hin. unfold table in Hin. rewrite !elem_of_cons, elem_of_nil in Hin.
  destruct_or! Hin; simplify_eq; done.
Qed.

Definition store0 : Store := {| s_pub := pub; s_policies := ∅; d_files := Some ∅ |}.

Definition request (binary ip : string) : PolicyRequest := {|
  rq_Binary := binary; rq_UID := 33; rq_Cgroup := ""; rq_DestIP := ParseIP ip; rq_DestPort := 443; rq_Protocol := "TCP";
  rq_SNI := ""; rq_DNSName := ""; rq_DestClass := ""; rq_Country := ""; rq_ASN := "" |}.

Definition flow (class : string) (day : Z) : LedgerFlow := {|
  f_Binary := "curl"; f_DestCIDR := "10.1.0.0/16"; f_DestPort := 443; f_Protocol := "tcp"; f_SNI := "api.example.com";
  f_DNSName := ""; f_DestClass := class; f_BytesOut := 10; f_BytesIn := 20; f_Connects := 40;
  f_FirstSeen := day * 24 * Time.Hour; f_LastSeen := day * 24 * Time.Hour + 5 |}.

Definition seen (ip class : string) : PolicyRequest := {|
  rq_Binary := "curl"; rq_UID := 0; rq_Cgroup := ""; rq_DestIP := ParseIP ip; rq_DestPort := 443; rq_Protocol := "tcp";
  rq_SNI := "api.example.com"; rq_DNSName := ""; rq_DestClass := class; rq_Country := ""; rq_ASN := "" |}.

End Demo.

Lemma unsigned_policy_is_inert_witness :
  let ops := [OImport WriteOk (Demo.signed "/usr/bin/php");
              ODisk (Some (<["zz.yaml" := "f"]> (<[file_of "/usr/bin/php" := "p"]> ∅)));
              OReload false (λ _, false)] in
  let s := store_run Demo.verify Demo.dec64 Demo.yaml Demo.marshal Demo.unmarshal ops Demo.store0 in
  let d := Decide (Some (NewEngine (Some s) "")) (Demo.request "/usr/bin/php" "8.8.8.8") in
  pd_Action d = ActionDeny ∧
  (pd_Action d = ActionDeny ↔ ∃ sp, (Get "/usr/bin/php" s = Some sp ∧
     signed_by Demo.verify Demo.dec64 Demo.yaml Demo.pub sp ∧
     (p_Binary (sp_Policy sp) = "/usr/bin/php" ∨ p_Binary (sp_Policy sp) = Str.Base "/usr/bin/php")) ∧
     denies (sp_Policy sp) (Demo.request "/usr/bin/php" "8.8.8.8")).
Proof.
  intros ops s d. split; [vm_compute; reflexivity|].
  apply (unsigned_policy_is_inert Demo.verify Demo.dec64 Demo.yaml Demo.marshal Demo.unmarshal "/etc/xhelix/policies" Demo.pub (Some ∅) Demo.store0 ops ""
    (Demo.request "/usr/bin/php" "8.8.8.8") eq_refl).
Defined.

Lemma signed_policy_takes_effect_witness :
  let sp := Demo.signed "/usr/bin/php" in
  let req := Demo.request "/usr/bin/php" "10.9.9.9" in
  let '(s1, err) := VerifyAndSave Demo.verify Demo.dec64 Demo.yaml Demo.marshal WriteOk sp Demo.store0 in
  let s2 := (Reload Demo.verify Demo.dec64 Demo.yaml Demo.unmarshal false (λ _, false) s1).1 in
  err = None ∧ s_policies s2 !! p_Binary (Demo.policy "/usr/bin/php") = Some sp ∧
  pd_Action (Decide (Some (NewEngine (Some s2) "")) req) =
  pd_Action (policy_decision (if Str.empty "" then ModeObserve else "") (Demo.policy "/usr/bin/php") req).
Proof.
  refine (signed_policy_takes_effect Demo.sign Demo.verify Demo.enc64 Demo.dec64 Demo.yaml Demo.marshal Demo.unmarshal
    Demo.yaml_ok _ _ (Demo.policy "/usr/bin/php") "op" Demo.priv 5000000000 (Demo.signed "/usr/bin/php") Demo.store0 ""
    (Demo.request "/usr/bin/php" "10.9.9.9") _ _ _ _ _ _).
  - intros priv m Hl. by apply bool_decide_eq_true_2.
  - intros b. apply of_text_of.
  - reflexivity.
  - reflexivity.
  - by eexists.
  - reflexivity.
  - intros n data sp0 Hn. change (default ∅ (d_files Demo.store0)) with (∅ : gmap string string) in Hn.
    by rewrite lookup_empty in Hn.
  - reflexivity.
Defined.

Lemma colliding_policy_is_lost_witness :
  let a := Demo.signed "/opt/a_b" in
  let b := Demo.signed "/opt/a/b" in
  let req := Demo.request "/opt/a_b" "8.8.8.8" in
  let s1 := (VerifyAndSave Demo.verify Demo.dec64 Demo.yaml Demo.marshal WriteOk a Demo.store0).1 in
  let s2 := (VerifyAndSave Demo.verify Demo.dec64 Demo.yaml Demo.marshal WriteOk b s1).1 in
  let s3 := (Reload Demo.verify Demo.dec64 Demo.yaml Demo.unmarshal false (λ _, false) s2).1 in
  pd_Action (policy_decision (if Str.empty "" then ModeObserve else "") (sp_Policy a) req) = ActionDeny ∧
  (pd_Action (Decide (Some (NewEngine (Some s2) "")) req) =
   pd_Action (policy_decision (if Str.empty "" then ModeObserve else "") (sp_Policy a) req) ∧
   s_policies s3 !! p_Binary (sp_Policy a) = None ∧
   pd_Action (Decide (Some (NewEngine (Some s3) "")) req) = ActionObserve).
Proof.
  intros a b req s1 s2 s3. split; [reflexivity|].
  refine (colliding_policy_is_lost Demo.verify Demo.dec64 Demo.yaml Demo.marshal Demo.unmarshal
    Demo.yaml_ok a b Demo.store0 s1 s2 "" req _ _ _ _ _ _ _).
  - discriminate.
  - reflexivity.
  - reflexivity.
  - reflexivity.
  - intros n data sp0 Hn Hne Hu. exfalso. apply Hne.
    change (default ∅ (d_files s2)) with (<["opt_a_b.yaml" := "b"]> (<["opt_a_b.yaml" := "a"]> (∅ : gmap string string))) in Hn.
    destruct (decide (n = "opt_a_b.yaml")) as [->|Hn']; [reflexivity|].
    by rewrite !lookup_insert_ne, lookup_empty in Hn by (by apply not_eq_sym).
  - discriminate.
  - reflexivity.
Defined.

Lemma proposal_admits_what_was_seen_witness :
  let flows := [Demo.flow "cloudflare" 1; Demo.flow "" 2; Demo.flow "cloudflare" 9] in
  let p := proposeOne (λ l, l) "curl" flows 1 2 in
  (po_SuggestedMode p, po_TotalConnects p, po_ObservedDays p, pr_Confidence <$> po_Allow p) =
    (ModeDenyDefault, 120%Z, 9%Z, [90%Z]) ∧
  pd_Action (policy_decision "" (ToPolicy p) (Demo.seen "10.1.7.7" "cloudflare")) = ActionAllow.
Proof.
  intros flows p. split; [vm_compute; reflexivity|].
  refine (proj2 (proposal_admits_what_was_seen (λ l, l) "curl" flows 1 2 "" (λ l, reflexivity l) _)
    (Demo.flow "cloudflare" 1) (Demo.seen "10.1.7.7" "cloudflare") _ _ _ _ _).
  - vm_compute. reflexivity.
  - by left.
  - split_and!; [right|..]; reflexivity.
  - by right.
  - by left.
  - intros g Hg _. unfold flows in Hg. rewrite !elem_of_cons, elem_of_nil in Hg.
    destruct_or! Hg; [right|left|right]; by subst.
Defined.

Lemma reclassified_flow_locked_out_witness :
  let flows := [Demo.flow "raw" 1; Demo.flow "cloudflare" 9] in
  let p := proposeOne (λ l, l) "curl" flows 1 2 in
  po_SuggestedMode p = ModeDenyDefault ∧
  pd_Action (policy_decision "" (ToPolicy p) (Demo.seen "10.1.7.7" "cloudflare")) = ActionDeny.
Proof.
  intros flows p. split; [vm_compute; reflexivity|].
  refine (reclassified_flow_locked_out (λ l, l) "curl" flows 1 2 "" (Demo.flow "cloudflare" 9) (Demo.seen "10.1.7.7" "cloudflare")
    (λ l, reflexivity l) _ _ _ _ _).
  - vm_compute. reflexivity.
  - right. by left.
  - split_and!; [right|..]; reflexivity.
  - split; [discriminate|reflexivity].
  - intros g Hg Hk. exfalso. apply Hk. unfold flows in Hg. rewrite !elem_of_cons, elem_of_nil in Hg.
    destruct_or! Hg; by subst.
Defined.
