(* ===== verification/SafetyNet.v ===== *)
(** * The safety net and what consults it (src/pkg/safetynet, src/pkg/netban)

    The lists of addresses never to be blocked and of addresses to be dropped
    and logged, the ring of blocked attempts, and the banner, which asks the
    safety net before it bans.  The clock, the answers of the XDP table and of
    the nft command and the order of map ranges are arguments; what the banner
    does to the kernel is the list of its calls. *)

From S2P Require Import Prelude GoStd Bytes NetIP CIDR Prefix.

(** ** The safety net (safetynet.go) *)

Record Attempt := {
  at_Time : Time.time; at_SrcIP : string; at_DstIP : string; at_DstPort : Z; at_Proto : string; at_Bytes : Z }.

Definition no_attempt : Attempt := {|
  at_Time := Time.zero; at_SrcIP := ""; at_DstIP := ""; at_DstPort := 0; at_Proto := ""; at_Bytes := 0 |}.

Record ring := { r_buf : list Attempt; r_pos : nat; r_full : bool }.

Record SafetyNet := {
  sn_allow : list Prefix; sn_block : list Prefix; sn_attempts : ring;
  sn_allowChecks : Z; sn_allowHits : Z; sn_blockChecks : Z; sn_blockHits : Z }.

Definition parsePrefix (s : string) : option Prefix :=
  match ParsePrefix s with
  | Some p => Some p
  | None =>
      match ParseAddr s with
      | None => None
      | Some a => Some (PrefixFrom a (if Is6 a && negb (Is4In6 a) then 128 else 32))
      end
  end.

(** [[]] is the nil IP *)
Definition ipToAddr (ip : list Z) : option Addr :=
  match to4 ip with
  | Some b => Some (Addr4 b)
  | None => if (length ip =? 16)%nat then Some (Addr6 ip "") else None
  end.

Inductive sn_error : Type := BadAllow (c : string) | BadBlock (c : string) | BlockV6 (c : string) | BadCIDR (c : string)
  | Overlap (c : string) (allowed : Prefix).

Fixpoint load_allow (cidrs : list string) (acc : list Prefix) : result sn_error (list Prefix) :=
  match cidrs with
  | [] => Ok acc
  | c :: cs => match parsePrefix c with None => Err (BadAllow c) | Some p => load_allow cs (acc ++ [p]) end
  end.

Definition v4ish (p : Prefix) : bool := Is4 (pf_ip p) || Is4In6 (pf_ip p).

Fixpoint load_block (cidrs : list string) (acc : list Prefix) : result sn_error (list Prefix) :=
  match cidrs with
  | [] => Ok acc
  | c :: cs =>
      match parsePrefix c with
      | None => Err (BadBlock c)
      | Some p => if negb (v4ish p) then Err (BlockV6 c) else load_block cs (acc ++ [p])
      end
  end.

Definition New (allowCIDRs blockCIDRs : list string) (attemptHistory : Z) : result sn_error SafetyNet :=
  let n := if (attemptHistory <=? 0)%Z then 1000 else Z.to_nat attemptHistory in
  match load_allow allowCIDRs [] with
  | Err e => Err e
  | Ok allow =>
      match load_block blockCIDRs [] with
      | Err e => Err e
      | Ok block => Ok {|
          sn_allow := allow; sn_block := block; sn_attempts := {| r_buf := replicate n no_attempt; r_pos := 0; r_full := false |};
          sn_allowChecks := 0; sn_allowHits := 0; sn_blockChecks := 0; sn_blockHits := 0 |}
      end
  end.

(** does a list of prefixes hold the address? *)
Definition listed (ps : list Prefix) (ip : list Z) : bool :=
  match ipToAddr ip with Some a => existsb (λ p, pf_Contains p a) ps | None => false end.

Definition count_allow (hit : bool) (s : SafetyNet) : SafetyNet := {|
  sn_allow := sn_allow s; sn_block := sn_block s; sn_attempts := sn_attempts s; sn_allowChecks := u64 (sn_allowChecks s + 1);
  sn_allowHits := if hit then u64 (sn_allowHits s + 1) else sn_allowHits s; sn_blockChecks := sn_blockChecks s;
  sn_blockHits := sn_blockHits s |}.

Definition count_block (hit : bool) (s : SafetyNet) : SafetyNet := {|
  sn_allow := sn_allow s; sn_block := sn_block s; sn_attempts := sn_attempts s; sn_allowChecks := sn_allowChecks s;
  sn_allowHits := sn_allowHits s; sn_blockChecks := u64 (sn_blockChecks s + 1);
  sn_blockHits := if hit then u64 (sn_blockHits s + 1) else sn_blockHits s |}.

Definition AllowAlways (ip : list Z) (s : SafetyNet) : bool * SafetyNet :=
  let hit := listed (sn_allow s) ip in (hit, count_allow hit s).

Definition IsBlocked (ip : list Z) (s : SafetyNet) : bool * SafetyNet :=
  let hit := listed (sn_block s) ip in (hit, count_block hit s).

Definition with_lists (allow block : list Prefix) (s : SafetyNet) : SafetyNet := {|
  sn_allow := allow; sn_block := block; sn_attempts := sn_attempts s; sn_allowChecks := sn_allowChecks s;
  sn_allowHits := sn_allowHits s; sn_blockChecks := sn_blockChecks s; sn_blockHits := sn_blockHits s |}.

Definition AddAllow (cidr : string) (s : SafetyNet) : SafetyNet * option sn_error :=
  match parsePrefix cidr with
  | None => (s, Some (BadCIDR cidr))
  | Some p => (if bool_decide (p ∈ sn_allow s) then s else with_lists (sn_allow s ++ [p]) (sn_block s) s, None)
  end.

Definition RemoveAllow (cidr : string) (s : SafetyNet) : SafetyNet * option sn_error :=
  match parsePrefix cidr with
  | None => (s, Some (BadCIDR cidr))
  | Some p => (with_lists (filter (λ q, q ≠ p) (sn_allow s)) (sn_block s) s, None)
  end.

Definition AddBlock (cidr : string) (s : SafetyNet) : SafetyNet * option sn_error :=
  match parsePrefix cidr with
  | None => (s, Some (BadCIDR cidr))
  | Some p =>
      if negb (v4ish p) then (s, Some (BlockV6 cidr)) else
      match List.find (λ a, pf_Overlaps a p || pf_Overlaps p a) (sn_allow s) with
      | Some a => (s, Some (Overlap cidr a))
      | None => (if bool_decide (p ∈ sn_block s) then s else with_lists (sn_allow s) (sn_block s ++ [p]) s, None)
      end
  end.

Definition RemoveBlock (cidr : string) (s : SafetyNet) : SafetyNet * option sn_error :=
  match parsePrefix cidr with
  | None => (s, Some (BadCIDR cidr))
  | Some p => (with_lists (sn_allow s) (filter (λ q, q ≠ p) (sn_block s)) s, None)
  end.

(** [now] fills in a missing time *)
Definition RecordAttempt (now : Time.time) (a : Attempt) (s : SafetyNet) : SafetyNet :=
  let a := if Time.IsZero (at_Time a) then
             {| at_Time := now; at_SrcIP := at_SrcIP a; at_DstIP := at_DstIP a; at_DstPort := at_DstPort a; at_Proto := at_Proto a;
                at_Bytes := at_Bytes a |} else a in
  let r := sn_attempts s in
  if (length (r_buf r) =? 0)%nat then s else
  let wrap := (length (r_buf r) <=? S (r_pos r))%nat in {|
  sn_allow := sn_allow s; sn_block := sn_block s;
  sn_attempts := {| r_buf := <[r_pos r := a]> (r_buf r); r_pos := if wrap then 0 else S (r_pos r); r_full := r_full r || wrap |};
  sn_allowChecks := sn_allowChecks s; sn_allowHits := sn_allowHits s; sn_blockChecks := sn_blockChecks s;
  sn_blockHits := sn_blockHits s |}.

(** the walk back from the slot [idx], -1 standing for the end of the buffer *)
Fixpoint walk_back (buf : list Attempt) (n : nat) (idx : Z) : list Attempt :=
  match n with
  | O => []
  | S n' =>
      let idx := if (idx <? 0)%Z then (Z.of_nat (length buf) - 1)%Z else idx in
      default no_attempt (buf !! Z.to_nat idx) :: walk_back buf n' (idx - 1)
  end.

Definition RecentAttempts (n : Z) (s : SafetyNet) : list Attempt :=
  let r := sn_attempts s in
  if (n <=? 0)%Z || (length (r_buf r) =? 0)%nat then [] else
  let count := if r_full r then length (r_buf r) else r_pos r in
  walk_back (r_buf r) (Nat.min (Z.to_nat n) count) (Z.of_nat (r_pos r) - 1).

(** ** Lines of the kernel log (logreader.go) *)

(** one KEY=VALUE token; the flag says that a SRC was seen *)
Definition nft_token (st : Attempt * bool) (tok : string) : Attempt * bool :=
  let '(a, got) := st in
  match Str.IndexByte tok "=" with
  | None | Some O => st
  | Some eq =>
      let k := Str.upto eq tok in
      let v := Str.from (S eq) tok in
      let set src dst port proto n :=
        {| at_Time := at_Time a; at_SrcIP := src; at_DstIP := dst; at_DstPort := port; at_Proto := proto; at_Bytes := n |} in
      if bool_decide (k = "SRC") then (set v (at_DstIP a) (at_DstPort a) (at_Proto a) (at_Bytes a), true)
      else if bool_decide (k = "DST") then (set (at_SrcIP a) v (at_DstPort a) (at_Proto a) (at_Bytes a), got)
      else if bool_decide (k = "PROTO") then (set (at_SrcIP a) (at_DstIP a) (at_DstPort a) v (at_Bytes a), got)
      else if bool_decide (k = "DPT") then
        (set (at_SrcIP a) (at_DstIP a) (default (at_DstPort a) (Str.ParseUint 16 v)) (at_Proto a) (at_Bytes a), got)
      else if bool_decide (k = "LEN") then
        (set (at_SrcIP a) (at_DstIP a) (at_DstPort a) (at_Proto a) (default (at_Bytes a) (Str.ParseUint 64 v)), got)
      else st
  end.

(** the fields of the line; [None] when it names no source *)
Definition parseNftLine (fields : list string) : option Attempt :=
  let '(a, got) := foldl nft_token (no_attempt, false) fields in if (got : bool) then Some a else None.

(** ** The banner (netban.go) *)

(** what the banner needs from the safety net *)
Class SafetyVeto (S : Type) := veto : list Z → S → bool * S.

#[export] Instance SafetyNet_veto : SafetyVeto SafetyNet := AllowAlways.

Record ban_entry := { en_ip : list Z; en_reason : string; en_addedAt : Time.time; en_expires : Time.time }.

(** calls to the XDP table and of the nft command *)
Inductive ban_call : Type :=
  | XAdd (ip : list Z) | XRemove (ip : list Z)
  | NftAdd (set : string) (ip : list Z) (secs : Z) | NftDel (set : string) (ip : list Z).

(** the answers to those calls *)
Record ban_io := { io_xdp : ban_call → option string; io_nft : ban_call → option string }.

Record Banner := {
  bn_xdp : bool; bn_useNFT : bool; bn_entries : gmap string ban_entry; bn_safetynet : bool; bn_vetoedCount : Z }.

Definition NewBanner (xdp useNFT : bool) : Banner := {|
  bn_xdp := xdp; bn_useNFT := useNFT; bn_entries := ∅; bn_safetynet := false; bn_vetoedCount := 0 |}.

(** [bn_safetynet] says that one is wired *)
Definition bn_SetSafetyNet (wired : bool) (b : Banner) : Banner := {|
  bn_xdp := bn_xdp b; bn_useNFT := bn_useNFT b; bn_entries := bn_entries b; bn_safetynet := wired;
  bn_vetoedCount := bn_vetoedCount b |}.

Definition with_entries (m : gmap string ban_entry) (b : Banner) : Banner := {|
  bn_xdp := bn_xdp b; bn_useNFT := bn_useNFT b; bn_entries := m; bn_safetynet := bn_safetynet b;
  bn_vetoedCount := bn_vetoedCount b |}.

Definition nft_set (ip : list Z) : string := match to4 ip with Some _ => "bad_ips_v4" | None => "bad_ips_v6" end.

(** [fmt.Errorf("nft add: %w (%s)", …)] is what the command answered *)
Definition nftAdd (ip : list Z) (ttl : Time.duration) (x : ban_io) : list ban_call * option string :=
  let c := NftAdd (nft_set ip) ip (ttl `quot` Time.Second) in ([c], io_nft x c).

Definition nftDel (ip : list Z) (x : ban_io) : list ban_call * option string :=
  let c := NftDel (nft_set ip) ip in ([c], io_nft x c).

(** one call to each of the tables in use, and the first error *)
Definition both_tables (b : Banner) (xc : ban_call) (nft : list ban_call * option string) (x : ban_io) : list ban_call * option string :=
  let '(l1, e1) := if bn_xdp b then ([xc], io_xdp x xc) else ([], None) in
  let '(l2, e2) := if bn_useNFT b then nft else ([], None) in
  (l1 ++ l2, match e1 with Some e => Some e | None => e2 end).

Section banner.
Context {S : Type} `{SafetyVeto S}.

(** [now1] and [now2] are the two readings of the clock *)
Definition Ban (ip : list Z) (reason : string) (ttl : Time.duration) (now1 now2 : Time.time) (x : ban_io) (s : S) (b : Banner) :
    S * Banner * list ban_call * option string :=
  let ttl := if (ttl <=? 0)%Z then Time.Hour else ttl in
  let '(vetoed, s) := if bn_safetynet b then veto ip s else (false, s) in
  if (vetoed : bool) then
    (s, {| bn_xdp := bn_xdp b; bn_useNFT := bn_useNFT b; bn_entries := bn_entries b; bn_safetynet := bn_safetynet b;
           bn_vetoedCount := u64 (bn_vetoedCount b + 1) |}, [], None)
  else
    let e := {| en_ip := ip; en_reason := reason; en_addedAt := now1; en_expires := Time.Add now2 ttl |} in
    let '(calls, err) := both_tables b (XAdd ip) (nftAdd ip ttl x) x in
    (s, with_entries (<[IP_String ip := e]> (bn_entries b)) b, calls, err).
End banner.

Definition Unban (ip : list Z) (x : ban_io) (b : Banner) : Banner * list ban_call * option string :=
  let '(calls, err) := both_tables b (XRemove ip) (nftDel ip x) x in
  (with_entries (delete (IP_String ip) (bn_entries b)) b, calls, err).

Definition bn_List (ord : list string → list string) (b : Banner) : list string := ord (elements (dom (bn_entries b))).

(** [ord] is the order in which the map is ranged over *)
Definition bn_Sweep (ord : list (string * ban_entry) → list (string * ban_entry)) (now : Time.time) (x : ban_io) (b : Banner) :
    Banner * list ban_call :=
  let expired := filter (λ p, Time.After now (en_expires p.2) = true) (ord (map_to_list (bn_entries b))) in
  (with_entries (filter (λ p, Time.After now (en_expires p.2) = false) (bn_entries b)) b,
   expired ≫= λ p, (both_tables b (XRemove (en_ip p.2)) (nftDel (en_ip p.2) x) x).1).

(** ** The two together *)

Inductive net_op : Type :=
  | OBan (ip : list Z) (reason : string) (ttl : Time.duration) (now1 now2 : Time.time) (x : ban_io)
  | OUnban (ip : list Z) (x : ban_io)
  | OSweep (ord : list (string * ban_entry) → list (string * ban_entry)) (now : Time.time) (x : ban_io)
  | OAllow (cidr : string) | ODisallow (cidr : string) | OBlock (cidr : string) | OUnblock (cidr : string)
  | OIsBlocked (ip : list Z) | OAttempt (now : Time.time) (a : Attempt).

Definition net_step (st : SafetyNet * Banner * list ban_call) (op : net_op) : SafetyNet * Banner * list ban_call :=
  let '(s, b, log) := st in
  match op with
  | OBan ip reason ttl n1 n2 x => let '(s, b, calls, _) := Ban ip reason ttl n1 n2 x s b in (s, b, log ++ calls)
  | OUnban ip x => let '(b, calls, _) := Unban ip x b in (s, b, log ++ calls)
  | OSweep ord now x => let '(b, calls) := bn_Sweep ord now x b in (s, b, log ++ calls)
  | OAllow c => ((AddAllow c s).1, b, log)
  | ODisallow c => ((RemoveAllow c s).1, b, log)
  | OBlock c => ((AddBlock c s).1, b, log)
  | OUnblock c => ((RemoveBlock c s).1, b, log)
  | OIsBlocked ip => ((IsBlocked ip s).2, b, log)
  | OAttempt now a => (RecordAttempt now a s, b, log)
  end.

(** ** What parsing accepts *)

Lemma parsePrefix_wf (c : string) (p : Prefix) : parsePrefix c = Some p → pf_wf p.
Proof.
  unfold parsePrefix. destruct (ParsePrefix c) as [q|] eqn:Hq; [intros [= <-]; by eapply ParsePrefix_wf|].
  destruct (ParseAddr c) as [a|] eqn:Ha; [|done]. intros [= <-]. apply ParseAddr_ok in Ha as [Ho Hl].
  apply PrefixFrom_wf; [done..|]. destruct a as [|b z]; cbn; [lia|]. by case_bool_decide.
Qed.

Lemma parsePrefix_text (a b c d n : Z) :
  octet a → octet b → octet c → octet d → (0 ≤ n ≤ 32)%Z →
  parsePrefix (prefix_text a b c d n) = Some {| pf_ip := Addr4 [a; b; c; d]; pf_bits := n |}.
Proof. intros. unfold parsePrefix. by rewrite ParsePrefix_text. Qed.

(** an address of either length is taken for what it is, IPv4 first *)
Lemma ipToAddr_v4 (ip : list Z) (w x y z : Z) : ip = [w; x; y; z] ∨ ip = v4 w x y z → ipToAddr ip = Some (Addr4 [w; x; y; z]).
Proof. by intros [-> | ->]. Qed.

(** ** Vetoes *)

(** what an address is protected by, for as long as the prefix stays listed *)
Definition protects (p : Prefix) (ip : list Z) : Prop := ∃ a, ipToAddr ip = Some a ∧ pf_Contains p a = true.

Lemma protected_listed (p : Prefix) (ip : list Z) (ps : list Prefix) : p ∈ ps → protects p ip → listed ps ip = true.
Proof.
  intros Hp (a & Ha & Hc). unfold listed. rewrite Ha. apply existsb_exists. exists p. split; [by apply list_elem_of_In|done].
Qed.

(** a call that would block the address *)
Definition bans (ip : list Z) (c : ban_call) : Prop :=
  match c with XAdd ip' | NftAdd _ ip' _ => ip' = ip | XRemove _ | NftDel _ _ => False end.

Definition never_removes (p : Prefix) (op : net_op) : Prop :=
  match op with ODisallow c => parsePrefix c ≠ Some p | _ => True end.

(** no ban of the address is in force or was ever asked for *)
Record unbanned (p : Prefix) (ip : list Z) (st : SafetyNet * Banner * list ban_call) : Prop := {
  ub_wired : bn_safetynet st.1.2 = true;
  ub_allow : p ∈ sn_allow st.1.1;
  ub_entries k e : bn_entries st.1.2 !! k = Some e → en_ip e ≠ ip;
  ub_log : Forall (λ c, ¬ bans ip c) st.2 }.

Lemma AddAllow_keeps (p : Prefix) (c : string) (s : SafetyNet) : p ∈ sn_allow s → p ∈ sn_allow (AddAllow c s).1.
Proof. intros Hp. unfold AddAllow. repeat case_match; try done. cbn. apply elem_of_app. by left. Qed.

Lemma RemoveAllow_keeps (p : Prefix) (c : string) (s : SafetyNet) :
  parsePrefix c ≠ Some p → p ∈ sn_allow s → p ∈ sn_allow (RemoveAllow c s).1.
Proof. intros Hc Hp. unfold RemoveAllow. case_match; [|done]. cbn. apply list_elem_of_filter. split; [congruence|done]. Qed.

Lemma block_keeps_allow (c : string) (s : SafetyNet) :
  sn_allow (AddBlock c s).1 = sn_allow s ∧ sn_allow (RemoveBlock c s).1 = sn_allow s.
Proof. unfold AddBlock, RemoveBlock. split; repeat case_match; done. Qed.

Lemma both_tables_calls (P : ban_call → Prop) (b : Banner) (xc : ban_call) (nft : list ban_call * option string) (x : ban_io) :
  P xc → Forall P nft.1 → Forall P (both_tables b xc nft x).1.
Proof.
  intros Hx Hn. unfold both_tables. destruct nft as [l e]. destruct (bn_xdp b), (bn_useNFT b); cbn [fst app];
    by repeat (apply Forall_cons_2 || apply Forall_nil_2).
Qed.

Lemma step_unbanned (p : Prefix) (ip : list Z) (st : SafetyNet * Banner * list ban_call) (op : net_op) :
  protects p ip → never_removes p op → unbanned p ip st → unbanned p ip (net_step st op).
Proof.
  intros Hp Hop. destruct st as [[s b] log]. intros [Hw Ha He Hl]. cbn [fst snd] in *.
  destruct op as [ip' reason ttl n1 n2 x|ip' x|ord now x|c|c|c|c|ip'|now a]; cbn [net_step].
  - unfold Ban. rewrite Hw. unfold veto, SafetyNet_veto, AllowAlways. destruct (listed (sn_allow s) ip') eqn:Hv.
    + constructor; cbn [fst snd bn_safetynet bn_entries]; [done|done|done|]. by rewrite app_nil_r.
    + assert (ip' ≠ ip) as Hne by (intros ->; by rewrite (protected_listed p) in Hv).
      pose proof (both_tables_calls (λ c, ¬ bans ip c) b (XAdd ip') (nftAdd ip' (if (ttl <=? 0)%Z then Time.Hour else ttl) x) x) as Hc.
      destruct (both_tables b _ _ x) as [calls err]. constructor; cbn [fst snd bn_safetynet bn_entries with_entries]; [done|done| |].
      * intros k e [[_ <-]|[_ Hk]]%lookup_insert_Some; [done|by eapply He].
      * apply Forall_app_2; [done|]. apply Hc; [done|]. by apply Forall_singleton; try intros ?.
  - unfold Unban. pose proof (both_tables_calls (λ c, ¬ bans ip c) b (XRemove ip') (nftDel ip' x) x) as Hc.
    destruct (both_tables b _ _ x) as [calls err]. constructor; cbn [fst snd bn_safetynet bn_entries with_entries]; [done|done| |].
    + intros k e [_ Hk]%lookup_delete_Some. by eapply He.
    + apply Forall_app_2; [done|]. apply Hc; [by intros ?|]. by apply Forall_singleton; try intros ?.
  - constructor; cbn [fst snd bn_Sweep bn_safetynet bn_entries with_entries]; [done|done| |].
    + intros k e [Hk _]%map_lookup_filter_Some. by eapply He.
    + apply Forall_app_2; [done|]. apply Forall_bind, Forall_forall. intros [k e] _. apply both_tables_calls; [by intros ?|].
      by apply Forall_singleton; try intros ?.
  - constructor; cbn [fst snd]; try done. by apply AddAllow_keeps.
  - constructor; cbn [fst snd]; try done. by apply RemoveAllow_keeps.
  - constructor; cbn [fst snd]; try done. by rewrite (proj1 (block_keeps_allow _ _)).
  - constructor; cbn [fst snd]; try done. by rewrite (proj2 (block_keeps_allow _ _)).
  - by constructor.
  - constructor; cbn [fst snd]; try done. unfold RecordAttempt. by case_match.
Qed.

Lemma load_allow_elem (cs : list string) (acc ps : list Prefix) (p : Prefix) :
  load_allow cs acc = Ok ps → (p ∈ acc ∨ ∃ c, c ∈ cs ∧ parsePrefix c = Some p) → p ∈ ps.
Proof.
  revert acc. induction cs as [|c cs IH]; intros acc; cbn [load_allow].
  - intros [= <-] [?|(c & Hc & _)]; [done|]. by apply elem_of_nil in Hc.
  - destruct (parsePrefix c) as [q|] eqn:Hq; [|done]. intros Hl [Hp|(c' & Hc & Hp)].
    + apply (IH _ Hl). left. apply elem_of_app. by left.
    + apply elem_of_cons in Hc as [->|Hc]; apply (IH _ Hl); [left; apply elem_of_app; right; by simplify_eq/=; left|right; eauto].
Qed.

(** C28: the safety net keeps the banner off.  Whatever bans, sweeps and list
    changes follow, in any order, an IPv4 address that a configured allow entry
    a.b.c.d/n covers - in either of its byte forms - is never banned: the banner
    holds no entry for it and asks neither the XDP table nor nft to add it, as
    long as that entry itself is not removed. *)
Theorem allowed_address_never_banned (a b c d n w x y z : Z) (ip : list Z) (allow block : list string) (history : Z) (s : SafetyNet)
    (xdp useNFT : bool) (ops : list net_op)
    (Hoctets : Forall octet [a; b; c; d; w; x; y; z]) (Hbits : (0 ≤ n ≤ 32)%Z)
    (Hcovered : (v4num w x y z / 2 ^ (32 - n) = v4num a b c d / 2 ^ (32 - n))%Z)
    (Hip : ip = [w; x; y; z] ∨ ip = v4 w x y z)
    (Hentry : prefix_text a b c d n ∈ allow)
    (Hkept : ∀ t, ODisallow t ∈ ops → parsePrefix t ≠ parsePrefix (prefix_text a b c d n)) :
  New allow block history = Ok s →
  let '(_, banner, calls) := foldl net_step (s, bn_SetSafetyNet true (NewBanner xdp useNFT), []) ops in
  (∀ k e, bn_entries banner !! k = Some e → en_ip e ≠ ip) ∧ Forall (λ call, ¬ bans ip call) calls.
Proof.
  intros Hnew. repeat (apply Forall_cons in Hoctets as [? Hoctets]).
  rewrite parsePrefix_text in Hkept by done. set (p := {| pf_ip := Addr4 [a; b; c; d]; pf_bits := n |}) in *.
  assert (protects p ip) as Hp.
  { exists (Addr4 [w; x; y; z]). split; [by apply ipToAddr_v4|]. by apply prefix_text_contains. }
  assert (unbanned p ip (s, bn_SetSafetyNet true (NewBanner xdp useNFT), [])) as Hu.
  { constructor; cbn [fst snd]; [done| |done|constructor].
    unfold New in Hnew. destruct (load_allow allow []) as [ps|] eqn:Ha; [|done]. destruct (load_block block []); [|done].
    injection Hnew as <-. cbn. eapply load_allow_elem; [done|]. right. eexists. split; [exact Hentry|]. by apply parsePrefix_text. }
  assert (Forall (never_removes p) ops) as Hops.
  { apply Forall_forall. intros op Hop. destruct op; try done. by apply Hkept. }
  clear -Hu Hops Hp. revert Hu. generalize (s, bn_SetSafetyNet true (NewBanner xdp useNFT), @nil ban_call).
  induction Hops as [|op ops Hop _ IH]; intros st Hu; cbn [foldl].
  - destruct st as [[s' bn] log]. by destruct Hu.
  - apply IH. by apply step_unbanned.
Qed.

(** ** Entries that protect nobody *)

Lemma listed_app (ps : list Prefix) (p : Prefix) (ip : list Z) :
  (∀ a, ipToAddr ip = Some a → pf_Contains p a = false) → listed (ps ++ [p]) ip = listed ps ip.
Proof.
  intros Hp. unfold listed. destruct (ipToAddr ip) as [a|]; [|done]. rewrite existsb_app. cbn [existsb].
  by rewrite (Hp a eq_refl), !orb_false_r.
Qed.

Lemma AddAllow_listed (c : string) (p : Prefix) (s : SafetyNet) (ip : list Z) :
  parsePrefix c = Some p → (∀ a, ipToAddr ip = Some a → pf_Contains p a = false) →
  listed (sn_allow (AddAllow c s).1) ip = listed (sn_allow s) ip.
Proof. intros Hc Hp. unfold AddAllow. rewrite Hc. case_bool_decide; [done|]. by apply listed_app. Qed.

(** an address that is not IPv4 in disguise shares no 96 bits with one that is *)
Lemma mapped_apart (b ip : list Z) :
  Forall octet b → Forall octet ip → length b = 16 → length ip = 16 → take 12 b = v4InV6Prefix →
  agree 32 (addr_num (Addr6 ip "")) (addr_num (Addr6 b "")) → take 12 ip = v4InV6Prefix.
Proof.
  intros Hb Hip Hlb Hl Ht Ha. rewrite <-Ht. apply be_dec_inj; [by apply Forall_take..|by rewrite !length_take, Hl, Hlb|].
  unfold agree, addr_num in Ha. cbn [addr_bytes] in Ha. rewrite <-(take_drop 12 ip), <-(take_drop 12 b), !be_dec_app in Ha.
  rewrite !length_drop, Hl, Hlb, !Z.shiftr_div_pow2 in Ha by lia. change (256 ^ Z.of_nat (16 - 12))%Z with (2 ^ 32)%Z in Ha.
  assert (∀ l, Forall octet l → length l = 16 → (0 ≤ be_dec (drop 12 l) < 2 ^ 32)%Z) as Hd.
  { intros l Ho Hll. pose proof (le_dec_bound (rev (drop 12 l)) ltac:(by apply Forall_rev, Forall_drop)) as Hbd.
    rewrite length_rev, length_drop, Hll in Hbd. exact Hbd. }
  rewrite !Z.div_add_l in Ha by lia. rewrite !(Z.div_small (be_dec (drop 12 _))) in Ha by (by apply Hd). lia.
Qed.

(** allow entries in IPv4-mapped form protect nobody.  An entry such as
    ::ffff:a.b.c.d is accepted, but lookups turn every IPv4 address into its
    four-byte form first and prefixes of the other family never contain it: the
    entry changes no answer for any IPv4 address, and with 96 bits or more no
    answer at all.  Without a mask the text is given 32 bits, which covers the
    IPv6 addresses that start with four zero bytes, the loopback among them. *)
Theorem mapped_entry_protects_nobody (c : string) (p : Prefix) (s : SafetyNet) (w x y z : Z) (ip : list Z) :
  parsePrefix c = Some p → Is4In6 (pf_ip p) = true →
  (ip = [w; x; y; z] ∨ ip = v4 w x y z ∨ (96 ≤ pf_bits p)%Z ∧ Forall octet ip → 
   listed (sn_allow (AddAllow c s).1) ip = listed (sn_allow s) ip) ∧
  (ParsePrefix c = None → pf_bits p = 32%Z ∧ listed (sn_allow (AddAllow c s).1) (replicate 15 0%Z ++ [1%Z]) = true).
Proof.
  intros Hc Hm. pose proof (parsePrefix_wf c p Hc) as [(Ho & Hl & Hz) Hb]. destruct (pf_ip p) as [|b zn] eqn:Hpip; [done|].
  cbn [Is4In6 addr_bytes Is4 zone] in *. apply bool_decide_eq_true in Hm. subst zn. split.
  - intros Hip. apply (AddAllow_listed c p); [done|]. intros a Ha. destruct a as [b4|b6 zn].
    { unfold pf_Contains. rewrite Hpip. cbn [BitLen]. by rewrite andb_false_r. }
    apply not_true_iff_false. intros Hcon. destruct Hip as [->|[->|[H96 Hoct]]]; try discriminate Ha.
    unfold ipToAddr in Ha. destruct (to4 ip) as [|] eqn:H4; [done|]. destruct (length ip =? 16)%nat eqn:H16; [|done].
    injection Ha as <- <-. bool_to_prop. unfold to4 in H4. rewrite H16 in H4. cbn in H4. unfold To4 in H4.
    apply pf_Contains_spec in Hcon as [_ Hag]; [|split; rewrite Hpip; [by split|done]|by split_and!].
    rewrite Hpip in Hag. apply (agree_coarser _ 32) in Hag; [|cbn [BitLen] in *; lia].
    rewrite bool_decide_eq_true_2 in H4; [done|]. by apply (mapped_apart b).
  - intros Hn. unfold parsePrefix in Hc. rewrite Hn in Hc. destruct (ParseAddr c) as [a|] eqn:Ha; [|done]. injection Hc as <-.
    unfold PrefixFrom in Hpip. cbn [pf_ip] in Hpip. destruct a as [b4|b6 zn]; [done|]. injection Hpip as ->.
    assert (Is4In6 (Addr6 b zn) = true) as H46 by (by apply bool_decide_eq_true_2).
    assert (parsePrefix c = Some {| pf_ip := Addr6 b ""; pf_bits := 32 |}) as Hp.
    { unfold parsePrefix. rewrite Hn, Ha, H46. done. }
    rewrite H46. split; [done|]. unfold AddAllow. rewrite Hp.
    assert ({| pf_ip := Addr6 b ""; pf_bits := 32 |} ∈
      sn_allow (if bool_decide ({| pf_ip := Addr6 b ""; pf_bits := 32 |} ∈ sn_allow s) then s
                else with_lists (sn_allow s ++ [{| pf_ip := Addr6 b ""; pf_bits := 32 |}]) (sn_block s) s)) as Hin.
    { case_bool_decide; [done|]. cbn. apply elem_of_app. right. by left. }
    eapply protected_listed; [exact Hin|]. eexists. split; [reflexivity|]. apply pf_Contains_spec; [by split|split_and!; [octets|done..]|].
    split; [done|]. cbn [BitLen pf_bits pf_ip]. unfold agree, addr_num. cbn [addr_bytes].
    assert (b = [0; 0; 0; 0]%Z ++ drop 4 b) as ->.
    { rewrite <-(take_drop 4 b) at 1. f_equal. assert (take 4 b = take 4 (take 12 b)) as -> by (by rewrite take_take). by rewrite Hm. }
    rewrite (be_dec_app [0; 0; 0; 0]%Z). change (be_dec [0; 0; 0; 0]%Z) with 0%Z. rewrite Z.mul_0_l, Z.add_0_l.
    assert (0 ≤ be_dec (drop 4 b) < 2 ^ 96)%Z as Hbd.
    { pose proof (le_dec_bound (rev (drop 4 b)) ltac:(by apply Forall_rev, Forall_drop)) as Hbd.
      rewrite length_rev, length_drop, Hl in Hbd. exact Hbd. }
    rewrite !Z.shiftr_div_pow2, !Z.div_small; [done|exact Hbd| |done..]. by vm_compute.
Qed.

(** ** Blocking what is allowed *)

Definition lists_wf (s : SafetyNet) : Prop := Forall pf_wf (sn_allow s).

Lemma load_allow_wf (cs : list string) (acc ps : list Prefix) : Forall pf_wf acc → load_allow cs acc = Ok ps → Forall pf_wf ps.
Proof.
  revert acc. induction cs as [|c cs IH]; intros acc Ha; cbn [load_allow]; [by intros [= <-]|].
  destruct (parsePrefix c) as [p|] eqn:Hp; [|done]. apply IH. apply Forall_app_2; [done|].
  apply Forall_singleton. by eapply parsePrefix_wf.
Qed.

Lemma New_wf (allow block : list string) (h : Z) (s : SafetyNet) : New allow block h = Ok s → lists_wf s.
Proof.
  unfold New. destruct (load_allow allow []) as [ps|] eqn:Ha; [|done]. destruct (load_block block []); [|done]. intros [= <-].
  eapply load_allow_wf; [|exact Ha]. constructor.
Qed.

Lemma step_wf (st : SafetyNet * Banner * list ban_call) (op : net_op) : lists_wf st.1.1 → lists_wf (net_step st op).1.1.
Proof.
  destruct st as [[s b] log]. unfold lists_wf. cbn [fst].
  destruct op as [ip' reason ttl n1 n2 x|ip' x|ord now x|c|c|c|c|ip'|now a]; cbn [net_step fst]; intros Hs.
  - unfold Ban, veto, SafetyNet_veto, AllowAlways. destruct (bn_safetynet b); [destruct (listed _ _)|]; cbn; try done;
      by destruct (both_tables _ _ _ _).
  - unfold Unban. by destruct (both_tables _ _ _ _).
  - by destruct (bn_Sweep _ _ _ _).
  - unfold AddAllow. destruct (parsePrefix c) as [p|] eqn:Hp; [|done]. case_bool_decide; [done|]. cbn.
    apply Forall_app_2; [done|]. apply Forall_singleton. by eapply parsePrefix_wf.
  - unfold RemoveAllow. case_match; [|done]. cbn. by apply Forall_filter.
  - by rewrite (proj1 (block_keeps_allow _ _)).
  - by rewrite (proj2 (block_keeps_allow _ _)).
  - done.
  - unfold RecordAttempt. by case_match.
Qed.

(** a block added while running is refused exactly when it would take in an
    allowed address; the configured lists are not compared.  In every state the
    net can reach, adding a well-formed IPv4 block fails for overlap if and only
    if some address is in the new block and in an allow entry; but a daemon
    configured with the same entry in both lists starts, and then every address
    of the entry is both allowed and blocked. *)
Theorem block_overlap_is_exact (allow block : list string) (h : Z) (s0 : SafetyNet) (b : Banner) (ops : list net_op)
    (c : string) (p : Prefix) :
  New allow block h = Ok s0 → parsePrefix c = Some p → v4ish p = true →
  let s := (foldl net_step (s0, b, []) ops).1.1 in
  ((∃ q, (AddBlock c s).2 = Some (Overlap c q)) ↔
   ∃ q a, q ∈ sn_allow s ∧ addr_wf a ∧ pf_Contains q a = true ∧ pf_Contains p a = true) ∧
  (∃ s1, New [c] [c] h = Ok s1 ∧
     ∀ ip, protects p ip → (AllowAlways ip s1).1 = true ∧ (IsBlocked ip s1).1 = true).
Proof.
  intros Hn Hc Hv s. pose proof (parsePrefix_wf c p Hc) as Hp.
  assert (lists_wf s) as Hw.
  { subst s. apply New_wf in Hn. change s0 with (s0, b, @nil ban_call).1.1 in Hn. revert Hn. generalize (s0, b, @nil ban_call).
    induction ops as [|op ops IH]; intros st Hst; [done|]. cbn [foldl]. by apply IH, step_wf. }
  clearbody s. split.
  - unfold AddBlock. rewrite Hc, Hv. cbn [negb].
    destruct (List.find _ (sn_allow s)) as [q|] eqn:Hf; cbn [snd].
    + split; [intros _|by eauto]. apply find_some in Hf as [Hq Hover]. apply list_elem_of_In in Hq.
      assert (pf_wf q) as Hqw by (by eapply Forall_forall in Hw).
      apply orb_true_iff in Hover as [Ho|Ho]; apply Overlaps_spec in Ho as (a & ? & ? & ?); try done; by exists q, a.
    + split; [by intros (q & [=])|]. intros (q & a & Hq & Ha & H1 & H2). pose proof (find_none _ _ Hf q (proj1 (list_elem_of_In _ _) Hq)) as Hno. apply orb_false_iff in Hno as [Hno _].
      assert (pf_wf q) as Hqw by (by eapply Forall_forall in Hw).
      assert (pf_Overlaps q p = true) as Hyes by (apply Overlaps_spec; [done..|]; by exists a). congruence.
  - unfold New. cbn [load_allow load_block]. rewrite Hc, Hv. cbn [negb app]. eexists. split; [reflexivity|].
    intros ip Hip. split; cbn [AllowAlways IsBlocked fst sn_allow sn_block]; eapply protected_listed; (done || by left).
Qed.

(** ** The theorems at work *)

Module Demo.
Definition io : ban_io := {| io_xdp := λ _, None; io_nft := λ _, None |}.

Definition office : list string := ["192.168.7.0/24"; prefix_text 203 0 113 7 32].

Definition net : SafetyNet := match New office ["198.51.100.0/24"] 0 with Ok s => s | Err _ => with_lists [] [] {|
  sn_allow := []; sn_block := []; sn_attempts := {| r_buf := []; r_pos := 0; r_full := false |}; sn_allowChecks := 0;
  sn_allowHits := 0; sn_blockChecks := 0; sn_blockHits := 0 |} end.

Definition ops : list net_op :=
  [OBan (v4 203 0 113 7) "brute force" 0 10 10 io; OBan (v4 198 51 100 9) "scan" 0 20 20 io; ODisallow "192.168.7.0/24";
   OBlock "203.0.113.0/24"; OBan [203; 0; 113; 7]%Z "again" 60 30 30 io; OSweep (λ l, l) 10000000000000 io].
End Demo.

Lemma allowed_address_never_banned_witness :
  (foldl net_step (Demo.net, bn_SetSafetyNet true (NewBanner true true), []) Demo.ops).2 =
    [XAdd (v4 198 51 100 9); NftAdd "bad_ips_v4" (v4 198 51 100 9) 3600; XRemove (v4 198 51 100 9); NftDel "bad_ips_v4" (v4 198 51 100 9)] ∧
  let '(_, banner, calls) := foldl net_step (Demo.net, bn_SetSafetyNet true (NewBanner true true), []) Demo.ops in
  (∀ k e, bn_entries banner !! k = Some e → en_ip e ≠ v4 203 0 113 7) ∧ Forall (λ call, ¬ bans (v4 203 0 113 7) call) calls.
Proof.
  split; [vm_compute; reflexivity|].
  refine (allowed_address_never_banned 203 0 113 7 32 203 0 113 7 (v4 203 0 113 7) Demo.office ["198.51.100.0/24"] 0 Demo.net true true
    Demo.ops _ _ eq_refl (or_intror eq_refl) _ _ _).
  - octets.
  - split; vm_compute; discriminate.
  - right. left.
  - intros t Ht. vm_compute in Ht. repeat (apply elem_of_cons in Ht as [Ht|Ht]; [try discriminate Ht; injection Ht as ->; vm_compute; discriminate|]).
    by apply elem_of_nil in Ht.
  - vm_compute. reflexivity.
Defined.

Lemma mapped_entry_protects_nobody_witness :
  listed (sn_allow (AddAllow "::ffff:203.0.113.9" Demo.net).1) (v4 203 0 113 9) = false ∧
  listed (sn_allow (AddAllow "::ffff:203.0.113.9" Demo.net).1) (replicate 15 0%Z ++ [1%Z]) = true.
Proof.
  destruct (mapped_entry_protects_nobody "::ffff:203.0.113.9"
    {| pf_ip := Addr6 (v4 203 0 113 9) ""; pf_bits := 32 |} Demo.net 203 0 113 9 (v4 203 0 113 9) eq_refl eq_refl) as [H1 H2].
  split; [|refine (proj2 (H2 _)); vm_compute; reflexivity]. rewrite H1; [vm_compute; reflexivity|right; left; reflexivity].
Defined.

Lemma block_overlap_is_exact_witness :
  let s := (foldl net_step (Demo.net, NewBanner true true, []) [OAllow "10.1.0.0/16"]).1.1 in
  (∃ q, (AddBlock "10.1.2.0/24" s).2 = Some (Overlap "10.1.2.0/24" q)) ∧
  (∃ s1, New ["10.1.2.0/24"] ["10.1.2.0/24"] 0 = Ok s1 ∧
     ∀ ip, protects {| pf_ip := Addr4 [10; 1; 2; 0]%Z; pf_bits := 24 |} ip → (AllowAlways ip s1).1 = true ∧ (IsBlocked ip s1).1 = true).
Proof.
  intros s. destruct (block_overlap_is_exact Demo.office ["198.51.100.0/24"] 0 Demo.net (NewBanner true true) [OAllow "10.1.0.0/16"]
    "10.1.2.0/24" {| pf_ip := Addr4 [10; 1; 2; 0]%Z; pf_bits := 24 |} ltac:(vm_compute; reflexivity) eq_refl eq_refl) as [[_ H1] H2].
  split; [|exact H2]. apply H1. exists {| pf_ip := Addr4 [10; 1; 0; 0]%Z; pf_bits := 16 |}, (Addr4 [10; 1; 2; 3]%Z).
  split_and!; [right; right; left|apply v4_wf; unfold octet; lia|vm_compute; reflexivity|vm_compute; reflexivity].
Defined.
