(* ===== verification/DestClass.v ===== *)
(** * Destination classes (src/pkg/destclass)

    The classifier of outbound destinations: tables of SNI suffixes and address
    ranges, the order in which they are asked, and the refresh of the ranges from
    public feeds.  The threat-intelligence, fleet and organisation providers and
    what the feeds answer are arguments. *)

From S2P Require Import Prelude GoStd Bytes NetIP CIDR.

Definition ClassIntelBad : string := "intel_bad".
Definition ClassPrivate : string := "private".
Definition ClassDevRegistry : string := "dev_registry".
Definition ClassOSUpdate : string := "os_update".
Definition ClassCDN : string := "cdn".
Definition ClassCloudProvider : string := "cloud_provider".
Definition ClassFleetBaseline : string := "fleet_baseline".
Definition ClassUnknown : string := "unknown".

Definition Classes : list string :=
  [ClassIntelBad; ClassPrivate; ClassDevRegistry; ClassOSUpdate; ClassCDN; ClassCloudProvider; ClassFleetBaseline; ClassUnknown].

(** ** Tables (builtin.go) *)

Definition defaultRegistrySuffixes : list string := [
  "github.com"; "githubusercontent.com"; "githubassets.com"; "gitlab.com"; "bitbucket.org"; "gitea.io";
  "codeberg.org"; "sourcehut.org"; "npmjs.org"; "registry.npmjs.org"; "yarnpkg.com"; "pypi.org"; "pythonhosted.org";
  "files.pythonhosted.org"; "crates.io"; "static.crates.io"; "rubygems.org"; "rubygems.global.ssl.fastly.net";
  "packagist.org"; "repo.packagist.org"; "hex.pm"; "repo.hex.pm"; "nuget.org"; "api.nuget.org"; "clojars.org";
  "repo1.maven.org"; "maven.apache.org"; "golang.org"; "proxy.golang.org"; "sum.golang.org"; "hub.docker.com";
  "registry-1.docker.io"; "auth.docker.io"; "gcr.io"; "k8s.gcr.io"; "registry.k8s.io"; "ghcr.io"; "quay.io";
  "helm.sh"; "charts.helm.sh"; "marketplace.visualstudio.com"; "vscode-update.azurewebsites.net"; "vscode.dev";
  "chrome.google.com"; "clients2.google.com"; "addons.mozilla.org"].

Definition defaultOSUpdateSuffixes : list string := [
  "debian.org"; "deb.debian.org"; "security.debian.org"; "ubuntu.com"; "archive.ubuntu.com"; "security.ubuntu.com";
  "ports.ubuntu.com"; "esm.ubuntu.com"; "redhat.com"; "access.redhat.com"; "cdn.redhat.com"; "fedoraproject.org";
  "mirrors.fedoraproject.org"; "centos.org"; "vault.centos.org"; "mirror.centos.org"; "rockylinux.org";
  "almalinux.org"; "opensuse.org"; "download.opensuse.org"; "suse.com"; "scc.suse.com"; "microsoft.com";
  "windowsupdate.com"; "update.microsoft.com"; "download.microsoft.com"; "snapcraft.io"; "api.snapcraft.io";
  "flathub.org"; "dl.flathub.org"; "apple.com"; "swcdn.apple.com"; "swdist.apple.com"; "xhelix.io"].

Definition defaultCDNSuffixes : list string := [
  "cloudflare.com"; "cloudflare.net"; "cloudflareinsights.com"; "akamai.net"; "akamaized.net"; "akamaihd.net";
  "akamaitechnologies.com"; "fastly.net"; "fastlylb.net"; "cdn77.org"; "cdninstagram.com"; "jsdelivr.net";
  "cdn.jsdelivr.net"; "unpkg.com"; "bootstrapcdn.com"; "cloudfront.net"; "azureedge.net"; "gstatic.com"].

Definition defaultCloudSuffixes : list string := [
  "amazonaws.com"; "aws.amazon.com"; "googleapis.com"; "googleusercontent.com"; "cloud.google.com"; "appspot.com";
  "run.app"; "azure.com"; "azurewebsites.net"; "azure.net"; "blob.core.windows.net"; "core.windows.net";
  "digitaloceanspaces.com"; "digitalocean.com"; "hetzner.com"; "your-server.de"; "linode.com"; "linodeobjects.com"].

Definition defaultCloudCIDRs : list string := [
  "3.0.0.0/9"; "13.32.0.0/15"; "15.220.0.0/14"; "18.130.0.0/16"; "34.192.0.0/12"; "52.0.0.0/12"; "52.24.0.0/14";
  "54.144.0.0/12"; "2600:1f00::/24"; "2406:da00::/24"; "2a05:d000::/24"; "34.64.0.0/10"; "35.184.0.0/13";
  "35.190.0.0/17"; "2600:1900::/28"; "13.64.0.0/11"; "20.0.0.0/8"; "40.64.0.0/10"; "2603:1000::/24";
  "2a01:111:f100::/64"; "65.108.0.0/15"; "95.216.0.0/15"; "116.202.0.0/15"; "168.119.0.0/16"; "2a01:4f8::/29";
  "2a01:4f9::/32"; "104.131.0.0/16"; "138.197.0.0/16"; "159.65.0.0/16"; "165.227.0.0/16"; "167.99.0.0/16";
  "188.166.0.0/16"; "2604:a880::/32"].

Definition defaultCDNCIDRs : list string := [
  "103.21.244.0/22"; "103.22.200.0/22"; "104.16.0.0/13"; "104.24.0.0/14"; "108.162.192.0/18"; "131.0.72.0/22";
  "141.101.64.0/18"; "162.158.0.0/15"; "172.64.0.0/13"; "173.245.48.0/20"; "188.114.96.0/20"; "190.93.240.0/20";
  "197.234.240.0/22"; "198.41.128.0/17"; "2400:cb00::/32"; "2606:4700::/32"; "2803:f800::/32"; "2405:b500::/32";
  "2405:8100::/32"; "2a06:98c0::/29"; "2c0f:f248::/32"; "23.235.32.0/20"; "43.249.72.0/22"; "103.244.50.0/24";
  "103.245.222.0/23"; "103.245.224.0/24"; "104.156.80.0/20"; "146.75.0.0/17"; "151.101.0.0/16"; "157.52.64.0/18";
  "167.82.0.0/17"; "167.82.128.0/20"; "167.82.160.0/20"; "167.82.224.0/20"; "172.111.64.0/18"; "185.31.16.0/22";
  "199.27.72.0/21"; "199.232.0.0/16"; "2a04:4e40::/32"; "2a04:4e42::/32"; "23.32.0.0/11"; "23.192.0.0/11";
  "104.64.0.0/10"; "184.24.0.0/13"; "184.50.0.0/15"; "184.84.0.0/14"; "2600:1400::/24"; "2600:1406::/24";
  "2600:140a::/24"; "2600:1417::/24"; "2600:141b::/24"; "2600:141f::/24"; "54.182.0.0/16"; "54.192.0.0/16";
  "54.230.0.0/16"; "54.239.128.0/18"; "143.204.0.0/16"; "2600:9000::/28"; "2a00:1450::/29"; "2607:f8b0::/32";
  "2620:0:1000::/40"].

(** ** The classifier (destclass.go) *)

Record Decision := { dc_Class : string; dc_Reason : string; dc_Source : string }.

(** [cl_org] and [cl_fleet] answer for an address; [OrgOf] gives the
    organisation and its number *)
Record Classifier := {
  cl_intel : option (list Z → bool); cl_fleet : option (list Z → string → Z); cl_org : option (list Z → option (string * string));
  cl_minFleetSeen : Z; cl_registry : list string; cl_osUpdate : list string; cl_cdn : list string; cl_cloud : list string;
  cl_cloudCIDRs : list IPNet; cl_cdnCIDRs : list IPNet }.

(** entries that do not parse are skipped *)
Definition parseCIDRs (strs : list string) : list IPNet := omap (λ s, snd <$> ParseCIDR s) strs.

Definition noopIntel : list Z → bool := λ _, false.
Definition noopBaseline : list Z → string → Z := λ _ _, 0%Z.
Definition noopOrg : list Z → option (string * string) := λ _, None.

(** [New] without options *)
Definition base_classifier : Classifier := {|
  cl_intel := Some noopIntel; cl_fleet := Some noopBaseline; cl_org := Some noopOrg; cl_minFleetSeen := 3;
  cl_registry := defaultRegistrySuffixes; cl_osUpdate := defaultOSUpdateSuffixes; cl_cdn := defaultCDNSuffixes;
  cl_cloud := defaultCloudSuffixes; cl_cloudCIDRs := parseCIDRs defaultCloudCIDRs; cl_cdnCIDRs := parseCIDRs defaultCDNCIDRs |}.

Definition with_suffixes (registry osUpdate cdn cloud : list string) (c : Classifier) : Classifier := {|
  cl_intel := cl_intel c; cl_fleet := cl_fleet c; cl_org := cl_org c; cl_minFleetSeen := cl_minFleetSeen c;
  cl_registry := registry; cl_osUpdate := osUpdate; cl_cdn := cdn; cl_cloud := cloud;
  cl_cloudCIDRs := cl_cloudCIDRs c; cl_cdnCIDRs := cl_cdnCIDRs c |}.

Definition with_ranges (cloud cdn : list IPNet) (c : Classifier) : Classifier := {|
  cl_intel := cl_intel c; cl_fleet := cl_fleet c; cl_org := cl_org c; cl_minFleetSeen := cl_minFleetSeen c;
  cl_registry := cl_registry c; cl_osUpdate := cl_osUpdate c; cl_cdn := cl_cdn c; cl_cloud := cl_cloud c;
  cl_cloudCIDRs := cloud; cl_cdnCIDRs := cdn |}.

Definition with_providers (intel : option (list Z → bool)) (fleet : option (list Z → string → Z))
    (org : option (list Z → option (string * string))) (minSeen : Z) (c : Classifier) : Classifier := {|
  cl_intel := intel; cl_fleet := fleet; cl_org := org; cl_minFleetSeen := minSeen; cl_registry := cl_registry c;
  cl_osUpdate := cl_osUpdate c; cl_cdn := cl_cdn c; cl_cloud := cl_cloud c; cl_cloudCIDRs := cl_cloudCIDRs c;
  cl_cdnCIDRs := cl_cdnCIDRs c |}.

Inductive Option : Type :=
  | WithOrgProvider (p : option (list Z → option (string * string)))
  | WithIntel (i : option (list Z → bool))
  | WithFleet (f : option (list Z → string → Z)) (minHosts : Z)
  | WithExtraSuffixes (class : string) (suffixes : list string)
  | WithExtraCIDRs (class : string) (cidrs : list string).

Definition apply_option (c : Classifier) (o : Option) : Classifier :=
  match o with
  | WithOrgProvider None => c
  | WithOrgProvider (Some p) => with_providers (cl_intel c) (cl_fleet c) (Some p) (cl_minFleetSeen c) c
  | WithIntel i => with_providers i (cl_fleet c) (cl_org c) (cl_minFleetSeen c) c
  | WithFleet f n => with_providers (cl_intel c) f (cl_org c) n c
  | WithExtraSuffixes class ss =>
      if bool_decide (class = ClassDevRegistry) then with_suffixes (cl_registry c ++ ss) (cl_osUpdate c) (cl_cdn c) (cl_cloud c) c
      else if bool_decide (class = ClassOSUpdate) then with_suffixes (cl_registry c) (cl_osUpdate c ++ ss) (cl_cdn c) (cl_cloud c) c
      else if bool_decide (class = ClassCDN) then with_suffixes (cl_registry c) (cl_osUpdate c) (cl_cdn c ++ ss) (cl_cloud c) c
      else if bool_decide (class = ClassCloudProvider)
      then with_suffixes (cl_registry c) (cl_osUpdate c) (cl_cdn c) (cl_cloud c ++ ss) c
      else c
  | WithExtraCIDRs class cidrs =>
      if bool_decide (class = ClassCloudProvider) then with_ranges (cl_cloudCIDRs c ++ parseCIDRs cidrs) (cl_cdnCIDRs c) c
      else if bool_decide (class = ClassCDN) then with_ranges (cl_cloudCIDRs c) (cl_cdnCIDRs c ++ parseCIDRs cidrs) c
      else c
  end.

Definition New (opts : list Option) : Classifier := foldl apply_option base_classifier opts.

Definition SetCloudCIDRs (cidrs : list string) (c : Classifier) : Classifier := with_ranges (parseCIDRs cidrs) (cl_cdnCIDRs c) c.
Definition SetCDNCIDRs (cidrs : list string) (c : Classifier) : Classifier := with_ranges (cl_cloudCIDRs c) (parseCIDRs cidrs) c.
Definition SetOrgProvider (p : option (list Z → option (string * string))) (c : Classifier) : Classifier :=
  match p with None => c | Some _ => with_providers (cl_intel c) (cl_fleet c) p (cl_minFleetSeen c) c end.

(** [strings.TrimRight(s, ".")] *)
Fixpoint trim_dots (s : string) : string :=
  match s with
  | EmptyString => ""
  | String c s' => let t := trim_dots s' in if Str.empty t && bool_decide (c = "."%char) then "" else String c t
  end.

(** the suffix that matched *)
Definition matchSuffix (sni : string) (suffixes : list string) : string :=
  default "" (List.find (λ s, bool_decide (sni = s) || Str.HasSuffix sni ("." +:+ s)) suffixes).

Definition matchCIDRs (ip : list Z) (nets : list IPNet) : bool := existsb (λ n, Contains n (Some ip)) nets.

(** with the shared address space 100.64.0.0/10 *)
Definition isPrivate (ip : list Z) : bool :=
  IsLoopback ip || IsLinkLocalUnicast ip || IsPrivate ip || IsUnspecified ip || IsMulticast ip ||
  match to4 ip with Some b => (byte_at b 0 =? 100)%Z && (Z.land (byte_at b 1) 192 =? 64)%Z | None => false end.

Definition cdn_orgs : list string :=
  ["cloudflare"; "akamai"; "fastly"; "cloudfront"; "edgecast"; "edgio"; "stackpath"; "bunny"; "limelight"].
Definition cloud_orgs : list string :=
  ["amazon"; "aws"; "google"; "microsoft"; "azure"; "digitalocean"; "hetzner"; "ovh"; "linode"; "oracle"; "alibaba"; "tencent";
   "vultr"; "scaleway"; "leaseweb"].

Definition classByOrg (org : string) : string :=
  let o := Str.ToLower org in
  if existsb (Str.Contains o) cdn_orgs then ClassCDN
  else if existsb (Str.Contains o) cloud_orgs then ClassCloudProvider
  else "".

Definition by_suffix (class sni : string) (suffixes : list string) : option Decision :=
  let m := matchSuffix sni suffixes in
  if Str.empty m then None
  else Some {| dc_Class := class; dc_Reason := "SNI suffix " +:+ m; dc_Source := "suffix-list:" +:+ class |}.

(** step 3: the server name, lower case without trailing dots *)
Definition by_name (c : Classifier) (sni : string) : option Decision :=
  if Str.empty sni then None else
  match by_suffix ClassDevRegistry sni (cl_registry c) with
  | Some d => Some d
  | None =>
      match by_suffix ClassOSUpdate sni (cl_osUpdate c) with
      | Some d => Some d
      | None =>
          match by_suffix ClassCDN sni (cl_cdn c) with
          | Some d => Some d
          | None => by_suffix ClassCloudProvider sni (cl_cloud c)
          end
      end
  end.

(** step 4 *)
Definition by_range (c : Classifier) (ip : list Z) : option Decision :=
  if matchCIDRs ip (cl_cloudCIDRs c)
  then Some {| dc_Class := ClassCloudProvider; dc_Reason := "IP in cloud CIDR"; dc_Source := "cidr:cloud" |}
  else if matchCIDRs ip (cl_cdnCIDRs c)
  then Some {| dc_Class := ClassCDN; dc_Reason := "IP in CDN CIDR"; dc_Source := "cidr:cdn" |}
  else None.

(** step 5 *)
Definition by_org (c : Classifier) (ip : list Z) : option Decision :=
  match cl_org c with
  | None => None
  | Some orgOf =>
      match orgOf ip with
      | None => None
      | Some (org, asn) =>
          if Str.empty org then None else
          let cls := classByOrg org in
          if Str.empty cls then None
          else Some {| dc_Class := cls; dc_Reason := "ASN org " +:+ (org +:+ (" (" +:+ (asn +:+ ")"))); dc_Source := "asn-org" |}
      end
  end.

Definition by_fleet (c : Classifier) (ip : list Z) (sni : string) : option Decision :=
  match cl_fleet c with
  | None => None
  | Some seenCount =>
      if (0 <? cl_minFleetSeen c)%Z && (cl_minFleetSeen c <=? seenCount ip sni)%Z
      then Some {| dc_Class := ClassFleetBaseline; dc_Reason := "destination observed by ≥ minFleetSeen fleet hosts"; dc_Source := "fleet" |}
      else None
  end.

Definition first_decision (ds : list (option Decision)) (d : Decision) : Decision := default d (head (omap id ds)).

(** [None] is the nil address *)
Definition Classify (c : Classifier) (ip : option (list Z)) (sni : string) : Decision :=
  match ip with
  | None => {| dc_Class := ClassUnknown; dc_Reason := "nil destination IP"; dc_Source := "" |}
  | Some ip =>
      if match cl_intel c with Some isBad => isBad ip | None => false end
      then {| dc_Class := ClassIntelBad; dc_Reason := "threat-intel hit"; dc_Source := "intel" |}
      else if isPrivate ip
      then {| dc_Class := ClassPrivate; dc_Reason := "RFC1918 / loopback / link-local"; dc_Source := "ipnet" |}
      else
        let sni := Str.ToLower (trim_dots sni) in
        first_decision [by_name c sni; by_range c ip; by_org c ip; by_fleet c ip sni]
          {| dc_Class := ClassUnknown; dc_Reason := "no static or fleet match"; dc_Source := "default" |}
  end.

(** reverse-DNS suffixes and the operators behind them *)
Definition ptrSuffixes : list (string * string * string) := [
  ("1e100.net", ClassCloudProvider, "Google"); ("googleusercontent.com", ClassCloudProvider, "Google");
  ("cloudfront.net", ClassCDN, "Amazon CloudFront"); ("compute.amazonaws.com", ClassCloudProvider, "Amazon AWS");
  ("amazonaws.com", ClassCloudProvider, "Amazon AWS"); ("akamaitechnologies.com", ClassCDN, "Akamai");
  ("akamaiedge.net", ClassCDN, "Akamai"); ("akamai.net", ClassCDN, "Akamai"); ("fastly.net", ClassCDN, "Fastly");
  ("fastlylb.net", ClassCDN, "Fastly"); ("cloudflare.com", ClassCDN, "Cloudflare");
  ("cloudapp.azure.com", ClassCloudProvider, "Microsoft Azure"); ("cloudapp.net", ClassCloudProvider, "Microsoft Azure");
  ("your-server.de", ClassCloudProvider, "Hetzner"); ("clients.your-server.de", ClassCloudProvider, "Hetzner");
  ("digitalocean.com", ClassCloudProvider, "DigitalOcean"); ("linodeusercontent.com", ClassCloudProvider, "Linode");
  ("ovh.net", ClassCloudProvider, "OVH")].

Definition ClassFromPTR (ptr : string) : string * string :=
  let p := Str.ToLower (trim_dots ptr) in
  if Str.empty p then (ClassUnknown, "") else
  match List.find (λ '(s, _, _), bool_decide (p = s) || Str.HasSuffix p ("." +:+ s)) ptrSuffixes with
  | Some (_, class, org) => (class, org)
  | None => (ClassUnknown, "")
  end.

(** ** Feeds (feeds.go) *)

Record Feed := { fd_Name : string; fd_Class : string; fd_URL : string }.

Definition DefaultFeeds : list Feed := [
  {| fd_Name := "aws"; fd_Class := ClassCloudProvider; fd_URL := "https://ip-ranges.amazonaws.com/ip-ranges.json" |};
  {| fd_Name := "cloudflare-v4"; fd_Class := ClassCDN; fd_URL := "https://www.cloudflare.com/ips-v4" |};
  {| fd_Name := "cloudflare-v6"; fd_Class := ClassCDN; fd_URL := "https://www.cloudflare.com/ips-v6" |}].

(** on the lines of the body *)
Definition parseLineList (lines : list string) : list string :=
  filter (λ l, negb (Str.empty l) && negb (Str.HasPrefix l "#") = true) (Str.TrimSpace <$> lines).

(** the first of equal entries stays *)
Definition dedup (l : list string) : list string :=
  foldl (λ out s, if bool_decide (s ∈ out) then out else out ++ [s]) [] l.

(** [fetch] is what fetching and parsing a feed gives; the errors collected are
    the names of the feeds that failed *)
Definition sync_feed (fetch : Feed → result string (list string)) (st : list string * list string * list string) (f : Feed) :
    list string * list string * list string :=
  let '(cloud, cdn, errs) := st in
  match fetch f with
  | Err _ => (cloud, cdn, errs ++ [fd_Name f])
  | Ok cidrs =>
      if bool_decide (fd_Class f = ClassCloudProvider) then (cloud ++ cidrs, cdn, errs)
      else if bool_decide (fd_Class f = ClassCDN) then (cloud, cdn ++ cidrs, errs)
      else (cloud, cdn, errs)
  end.

Definition SyncOnce (fetch : Feed → result string (list string)) (feeds : list Feed) (c : Classifier) : Classifier * list string :=
  let '(cloud, cdn, errs) := foldl (sync_feed fetch) (defaultCloudCIDRs, defaultCDNCIDRs, []) feeds in
  (SetCDNCIDRs (dedup cdn) (SetCloudCIDRs (dedup cloud) c), errs).

(** ** What a decision can be *)

Lemma first_decision_in (ds : list (option Decision)) (d : Decision) :
  first_decision ds d = d ∨ Some (first_decision ds d) ∈ ds.
Proof.
  unfold first_decision. induction ds as [|[e|] ds IH]; [by left|right; by left|]. cbn [omap list_omap id].
  destruct IH as [H|H]; [by left|right; by right].
Qed.

Lemma by_suffix_class (class sni : string) (ss : list string) (d : Decision) : by_suffix class sni ss = Some d → dc_Class d = class.
Proof. unfold by_suffix. case_match; [done|]. by intros [= <-]. Qed.

Lemma by_name_class (c : Classifier) (sni : string) (d : Decision) :
  by_name c sni = Some d → dc_Class d ∈ [ClassDevRegistry; ClassOSUpdate; ClassCDN; ClassCloudProvider].
Proof.
  unfold by_name. destruct (Str.empty sni); [done|]. intros H.
  repeat (destruct (by_suffix _ sni _) as [e|] eqn:He in H; [simplify_eq; apply by_suffix_class in He; rewrite He|clear He]);
    try done; set_solver.
Qed.

Lemma by_range_class (c : Classifier) (ip : list Z) (d : Decision) : by_range c ip = Some d → dc_Class d ∈ [ClassCloudProvider; ClassCDN].
Proof. unfold by_range. repeat case_match; intros; simplify_eq; cbn; set_solver. Qed.

Lemma by_org_class (c : Classifier) (ip : list Z) (d : Decision) : by_org c ip = Some d → dc_Class d ∈ [ClassCDN; ClassCloudProvider].
Proof.
  unfold by_org. destruct (cl_org c) as [orgOf|]; [|done]. destruct (orgOf ip) as [[org asn]|]; [|done].
  case_match; [done|]. unfold classByOrg. destruct (existsb _ cdn_orgs); [|destruct (existsb _ cloud_orgs)]; cbn; intros; simplify_eq; cbn; set_solver.
Qed.

Lemma by_fleet_class (c : Classifier) (ip : list Z) (sni : string) (d : Decision) :
  by_fleet c ip sni = Some d → dc_Class d = ClassFleetBaseline.
Proof. unfold by_fleet. repeat case_match; intros; by simplify_eq. Qed.

(** the class of a public address the intelligence does not know *)
Lemma Classify_public (c : Classifier) (ip : list Z) (sni : string) :
  match cl_intel c with Some isBad => isBad ip | None => false end = false → isPrivate ip = false →
  dc_Class (Classify c (Some ip) sni) ∈
    [ClassDevRegistry; ClassOSUpdate; ClassCDN; ClassCloudProvider; ClassFleetBaseline; ClassUnknown].
Proof.
  intros Hi Hp. unfold Classify. rewrite Hi, Hp. cbv zeta. set (s := Str.ToLower _).
  destruct (first_decision_in [by_name c s; by_range c ip; by_org c ip; by_fleet c ip s]
              {| dc_Class := ClassUnknown; dc_Reason := "no static or fleet match"; dc_Source := "default" |}) as [->|Hin]; [cbn; set_solver|].
  rewrite !elem_of_cons in Hin. destruct Hin as [Hd|[Hd|[Hd|[Hd|Hd%elem_of_nil]]]]; [..|done]; symmetry in Hd.
  - apply by_name_class in Hd. set_solver.
  - apply by_range_class in Hd. set_solver.
  - apply by_org_class in Hd. set_solver.
  - apply by_fleet_class in Hd. rewrite Hd. set_solver.
Qed.

Lemma Classify_in (c : Classifier) (ip : option (list Z)) (sni : string) : dc_Class (Classify c ip sni) ∈ Classes.
Proof.
  destruct ip as [ip|]; [|unfold Classes; set_solver].
  destruct (match cl_intel c with Some isBad => isBad ip | None => false end) eqn:Hi.
  { unfold Classify. rewrite Hi. cbn. unfold Classes. set_solver. }
  destruct (isPrivate ip) eqn:Hp. { unfold Classify. rewrite Hi, Hp. cbn. unfold Classes. set_solver. }
  pose proof (Classify_public c ip sni Hi Hp). unfold Classes. set_solver.
Qed.

(** the classes an address alone can have *)
Definition address_classes : list string :=
  [ClassIntelBad; ClassPrivate; ClassCloudProvider; ClassCDN; ClassFleetBaseline; ClassUnknown].

Lemma Classify_nameless (c : Classifier) (ip : list Z) : dc_Class (Classify c (Some ip) "") ∈ address_classes.
Proof.
  destruct (match cl_intel c with Some isBad => isBad ip | None => false end) eqn:Hi.
  { unfold Classify. rewrite Hi. cbn. unfold address_classes. set_solver. }
  destruct (isPrivate ip) eqn:Hp. { unfold Classify. rewrite Hi, Hp. cbn. unfold address_classes. set_solver. }
  unfold Classify. rewrite Hi, Hp. cbv zeta. change (Str.ToLower (trim_dots "")) with "". change (by_name c "") with (@None Decision).
  destruct (first_decision_in [None; by_range c ip; by_org c ip; by_fleet c ip ""]
              {| dc_Class := ClassUnknown; dc_Reason := "no static or fleet match"; dc_Source := "default" |}) as [->|Hin];
    [cbn; unfold address_classes; set_solver|].
  rewrite !elem_of_cons in Hin. destruct Hin as [Hd|[Hd|[Hd|[Hd|Hd%elem_of_nil]]]]; [done|..|done]; symmetry in Hd.
  - apply by_range_class in Hd. unfold address_classes. set_solver.
  - apply by_org_class in Hd. unfold address_classes. set_solver.
  - apply by_fleet_class in Hd. rewrite Hd. unfold address_classes. set_solver.
Qed.

(** ** The name a client sends decides *)

Lemma first_decision_some (d d' : Decision) (ds : list (option Decision)) : first_decision (Some d :: ds) d' = d.
Proof. reflexivity. Qed.

(** the class of a public destination is the client's choice.  While the
    suffix tables are the built-in ones, whatever the address ranges, the
    organisation of the address and the fleet say, there is for each of the four
    benign classes a server name that gives it to every public address the
    intelligence does not know; no name moves an address the intelligence does
    know, or a private one. *)
Theorem client_chooses_class (c : Classifier) (class : string)
    (Htables : (cl_registry c, cl_osUpdate c, cl_cdn c, cl_cloud c) =
               (defaultRegistrySuffixes, defaultOSUpdateSuffixes, defaultCDNSuffixes, defaultCloudSuffixes))
    (Hclass : class ∈ [ClassDevRegistry; ClassOSUpdate; ClassCDN; ClassCloudProvider]) :
  let known ip := match cl_intel c with Some isBad => isBad ip | None => false end in
  (∃ sni, ∀ ip, known ip = false → isPrivate ip = false → dc_Class (Classify c (Some ip) sni) = class) ∧
  (∀ ip sni, known ip = true → dc_Class (Classify c (Some ip) sni) = ClassIntelBad) ∧
  (∀ ip sni, known ip = false → isPrivate ip = true → dc_Class (Classify c (Some ip) sni) = ClassPrivate).
Proof.
  intros known. split_and!.
  - assert (∃ sni d, by_name c (Str.ToLower (trim_dots sni)) = Some d ∧ dc_Class d = class) as (sni & d & Hn & <-).
    { injection Htables as H1 H2 H3 H4. unfold by_name. rewrite H1, H2, H3, H4.
      rewrite !elem_of_cons in Hclass. destruct Hclass as [->|[->|[->|[->|Hno%elem_of_nil]]]]; [..|done];
        [exists "github.com"|exists "debian.org"|exists "cloudflare.com"|exists "amazonaws.com"]; eexists; split; (vm_compute; reflexivity). }
    exists sni. intros ip Hk Hp. unfold Classify. fold (known ip). rewrite Hk, Hp. cbv zeta. by rewrite Hn, first_decision_some.
  - intros ip sni Hk. unfold Classify. fold (known ip). by rewrite Hk.
  - intros ip sni Hk Hp. unfold Classify. fold (known ip). by rewrite Hk, Hp.
Qed.

(** ** Threat intelligence *)

(** what can happen to a classifier once it is built *)
Inductive update : Type :=
  | UCloud (cidrs : list string) | UCDN (cidrs : list string) | UOrg (p : option (list Z → option (string * string)))
  | USync (fetch : Feed → result string (list string)) (feeds : list Feed).

Definition do_update (c : Classifier) (u : update) : Classifier :=
  match u with
  | UCloud l => SetCloudCIDRs l c
  | UCDN l => SetCDNCIDRs l c
  | UOrg p => SetOrgProvider p c
  | USync fetch feeds => (SyncOnce fetch feeds c).1
  end.

Definition gives_intel (o : Option) : Prop := match o with WithIntel _ => True | _ => False end.

Lemma update_intel (us : list update) (c : Classifier) : cl_intel (foldl do_update c us) = cl_intel c.
Proof.
  revert c. induction us as [|u us IH]; intros c; [done|]. cbn [foldl]. rewrite IH. destruct u as [l|l|p|fetch feeds]; cbn; try done.
  - by destruct p.
  - unfold SyncOnce. by destruct (foldl _ _ _) as [[? ?] ?].
Qed.

Lemma New_intel (opts : list Option) : Forall (λ o, ¬ gives_intel o) opts → cl_intel (New opts) = Some noopIntel.
Proof.
  unfold New. assert (cl_intel base_classifier = Some noopIntel) as H0 by done. revert H0. generalize base_classifier.
  induction opts as [|o opts IH]; intros c Hc Hf; [done|]. apply Forall_cons in Hf as [Ho Hf]. cbn [foldl]. apply IH; [|done].
  destruct o as [[p|]|i|f n|class ss|class cs]; cbn [apply_option]; try done; repeat case_match; exact Hc.
Qed.

(** a classifier built without threat intelligence, as the one behind the
    egress observer is, never answers intel_bad, for any address, name, later
    update or feed: the first-seen time and the counts of intel_bad connects
    that the observer keeps stay empty. *)
Theorem no_intel_no_intel_bad (opts : list Option) (us : list update) (ip : option (list Z)) (sni : string) :
  Forall (λ o, ¬ gives_intel o) opts → dc_Class (Classify (foldl do_update (New opts) us) ip sni) ≠ ClassIntelBad.
Proof.
  intros Ho. set (c := foldl _ _ us). assert (cl_intel c = Some noopIntel) as Hi by (unfold c; by rewrite update_intel, New_intel).
  destruct ip as [ip|]; [|by vm_compute]. destruct (isPrivate ip) eqn:Hp.
  { unfold Classify. rewrite Hi. cbn. rewrite Hp. by vm_compute. }
  pose proof (Classify_public c ip sni ltac:(by rewrite Hi) Hp) as Hc. intros He. rewrite He in Hc.
  rewrite !elem_of_cons in Hc. destruct Hc as [Hc|[Hc|[Hc|[Hc|[Hc|[Hc|Hc%elem_of_nil]]]]]]; done.
Qed.

(** ** What a refresh leaves *)

Lemma elem_of_dedup (l : list string) (s : string) : s ∈ dedup l ↔ s ∈ l.
Proof.
  unfold dedup. assert (∀ out, s ∈ foldl (λ out s, if bool_decide (s ∈ out) then out else out ++ [s]) out l ↔ s ∈ out ∨ s ∈ l) as H.
  { induction l as [|x l IH]; intros out; cbn [foldl]; [set_solver|]. rewrite IH. case_bool_decide; set_solver. }
  rewrite H. set_solver.
Qed.

Definition fetched (fetch : Feed → result string (list string)) (feeds : list Feed) (class s : string) : Prop :=
  ∃ f l, f ∈ feeds ∧ fd_Class f = class ∧ fetch f = Ok l ∧ s ∈ l.

Lemma sync_feeds (fetch : Feed → result string (list string)) (feeds : list Feed) (cloud cdn errs : list string) (s : string) :
  let st := foldl (sync_feed fetch) (cloud, cdn, errs) feeds in
  (s ∈ st.1.1 ↔ s ∈ cloud ∨ fetched fetch feeds ClassCloudProvider s) ∧ (s ∈ st.1.2 ↔ s ∈ cdn ∨ fetched fetch feeds ClassCDN s).
Proof.
  assert (∀ class, fetched fetch [] class s → False) as Hnil by (intros class (f & l & Hf%elem_of_nil & _); done).
  revert cloud cdn errs. induction feeds as [|f feeds IH]; intros cloud cdn errs; cbn [foldl fst snd].
  - split; (split; [by left|intros [?|Hf]; [done|by destruct (Hnil _ Hf)]]).
  - assert (∀ class, fetched fetch (f :: feeds) class s ↔
              (fd_Class f = class ∧ ∃ l, fetch f = Ok l ∧ s ∈ l) ∨ fetched fetch feeds class s) as Hcons.
    { intros class. unfold fetched. split.
      - intros (g & l & [->|Hg]%elem_of_cons & Hc & Hl & Hs); [left; eauto|right; eauto 10].
      - intros [[Hc (l & Hl & Hs)]|(g & l & Hg & Hc & Hl & Hs)]; [exists f, l|exists g, l]; split_and!; try done; [by left|by right]. }
    assert (∀ e : string, (∃ l : list string, Err (A:=list string) e = Ok l ∧ s ∈ l) ↔ False) as Herr by (intros e; split; [by intros (l & [=] & _)|done]).
    assert (∀ l : list string, (∃ l0 : list string, Ok (E:=string) l = Ok l0 ∧ s ∈ l0) ↔ s ∈ l) as Hok.
    { intros l. split; [by intros (? & [= <-] & ?)|eauto]. }
    rewrite !Hcons. change (sync_feed fetch (cloud, cdn, errs) f) with
      (match fetch f with
       | Err _ => (cloud, cdn, errs ++ [fd_Name f])
       | Ok cidrs => if bool_decide (fd_Class f = ClassCloudProvider) then (cloud ++ cidrs, cdn, errs)
                     else if bool_decide (fd_Class f = ClassCDN) then (cloud, cdn ++ cidrs, errs) else (cloud, cdn, errs)
       end).
    destruct (fetch f) as [l|e] eqn:Hf; rewrite ?Hok, ?Herr.
    2:{ destruct (IH cloud cdn (errs ++ [fd_Name f])) as [-> ->]. tauto. }
    case_bool_decide as H1; [|case_bool_decide as H2].
    + destruct (IH (cloud ++ l) cdn errs) as [-> ->]. rewrite H1, elem_of_app.
      assert (ClassCloudProvider = ClassCDN ↔ False) as -> by done. tauto.
    + destruct (IH cloud (cdn ++ l) errs) as [-> ->]. rewrite elem_of_app. tauto.
    + destruct (IH cloud cdn errs) as [-> ->]. tauto.
Qed.

Lemma match_ranges (ip : list Z) (strs : list string) :
  matchCIDRs ip (parseCIDRs strs) = true ↔ ∃ s a n, s ∈ strs ∧ ParseCIDR s = Some (a, n) ∧ Contains n (Some ip) = true.
Proof.
  unfold matchCIDRs, parseCIDRs. rewrite existsb_exists. split.
  - intros (n & Hn & Hc). apply list_elem_of_In, list_elem_of_omap in Hn as (s & Hs & Hp).
    destruct (ParseCIDR s) as [[a n']|] eqn:He; [|done]. cbn in Hp. simplify_eq. eauto 10.
  - intros (s & a & n & Hs & Hp & Hc). exists n. split; [|done]. apply list_elem_of_In, list_elem_of_omap. exists s. by rewrite Hp.
Qed.

(** a refresh of the ranges keeps the built-in ones and what the feeds
    answered, and nothing else: afterwards an address counts as cloud, or as CDN,
    exactly when a built-in entry or an entry of a feed of that class holds it.
    Ranges the operator added are gone. *)
Theorem refresh_forgets_operator_ranges (fetch : Feed → result string (list string)) (feeds : list Feed) (c : Classifier) (ip : list Z) :
  let c' := (SyncOnce fetch feeds c).1 in
  let holds s := ∃ a n, ParseCIDR s = Some (a, n) ∧ Contains n (Some ip) = true in
  (matchCIDRs ip (cl_cloudCIDRs c') = true ↔
     ∃ s, (s ∈ defaultCloudCIDRs ∨ fetched fetch feeds ClassCloudProvider s) ∧ holds s) ∧
  (matchCIDRs ip (cl_cdnCIDRs c') = true ↔ ∃ s, (s ∈ defaultCDNCIDRs ∨ fetched fetch feeds ClassCDN s) ∧ holds s).
Proof.
  intros c' holds. subst c' holds. unfold SyncOnce.
  pose proof (sync_feeds fetch feeds defaultCloudCIDRs defaultCDNCIDRs []) as Hs. cbv zeta in Hs.
  destruct (foldl (sync_feed fetch) (defaultCloudCIDRs, defaultCDNCIDRs, []) feeds) as [[cloud cdn] errs].
  cbn [fst snd SetCDNCIDRs SetCloudCIDRs with_ranges cl_cloudCIDRs cl_cdnCIDRs] in *. rewrite !match_ranges.
  setoid_rewrite elem_of_dedup. split; split.
  - intros (s & a & n & Hin & Hp & Hc). exists s. split; [by apply Hs|eauto].
  - intros (s & Hin & a & n & Hp & Hc). exists s, a, n. split; [by apply Hs|done].
  - intros (s & a & n & Hin & Hp & Hc). exists s. split; [by apply Hs|eauto].
  - intros (s & Hin & a & n & Hp & Hc). exists s, a, n. split; [by apply Hs|done].
Qed.

(** ** The theorems at work *)

Module Demo.
Definition operator : Classifier := New [WithExtraCIDRs ClassCDN ["203.0.113.0/24"]].
Definition quiet : Feed → result string (list string) := λ _, Err "timeout".
End Demo.

Example operator_range_before : dc_Class (Classify Demo.operator (Some (v4 203 0 113 9)) "") = ClassCDN.
Proof. vm_compute. reflexivity. Qed.
Example operator_range_after :
  dc_Class (Classify (SyncOnce Demo.quiet DefaultFeeds Demo.operator).1 (Some (v4 203 0 113 9)) "") = ClassUnknown.
Proof. vm_compute. reflexivity. Qed.
Example ptr_google : ClassFromPTR "fra16s56-in-f14.1E100.net." = (ClassCloudProvider, "Google").
Proof. vm_compute. reflexivity. Qed.

Lemma client_chooses_class_witness :
  dc_Class (Classify (New []) (Some (v4 203 0 113 9)) "") = ClassUnknown ∧
  ∃ sni, dc_Class (Classify (New []) (Some (v4 203 0 113 9)) sni) = ClassDevRegistry.
Proof.
  split; [vm_compute; reflexivity|]. destruct (client_chooses_class (New []) ClassDevRegistry eq_refl) as [[sni H] _]; [left|].
  exists sni. apply H; vm_compute; reflexivity.
Defined.

Lemma no_intel_no_intel_bad_witness :
  dc_Class (Classify (foldl do_update (New [WithExtraSuffixes ClassCDN ["edge.example"]]) [USync Demo.quiet DefaultFeeds])
              (Some (v4 198 51 100 7)) "c2.example") ≠ ClassIntelBad.
Proof. refine (no_intel_no_intel_bad _ _ _ _ _). constructor; [by intros []|constructor]. Defined.
