(* ===== verification/EgressMon.v ===== *)
(** * The egress observer (src/pkg/egressmon/observer.go)

    Counters of what each process lineage connects to, by destination class and
    by address, and a bounded sample of its connects.  The sixteen shards, which
    only split a lock, are one map; the clock is an argument, a nil address is
    the empty one, and connect counters are unbounded.  The sample is a
    slice: a snapshot filters it in place, so it is modelled with what that
    leaves in the array the observer still holds. *)

From S2P Require Import Prelude GoStd NetIP CIDR DestClass.

Record Observation := { ob_At : Time.time; ob_IP : list Z; ob_SNI : string; ob_Port : Z; ob_Class : string; ob_BytesOut : Z }.

Record PerLineageStats := {
  ps_LineageID : Z; ps_AppID : string; ps_AppKind : string; ps_TotalConnects : Z; ps_ByClass : gmap string Z;
  ps_BytesOutByClass : gmap string Z; ps_BytesOutByDest : gmap string Z; ps_TotalBytesOut : Z; ps_UniqueDests : Z;
  ps_UniqueUnknown : Z; ps_LastConnect : Time.time; ps_FirstUnknownAt : Time.time; ps_FirstIntelBadAt : Time.time;
  ps_RecentSample : list Observation }.

Record lineageState := {
  ls_stats : PerLineageStats; ls_uniques : gset string; ls_unknown : gset string; ls_destClass : gmap string string;
  ls_destSNI : gmap string string }.

Record Observer := { o_classifier : Classifier; o_ttl : Time.duration; o_byLid : gmap Z lineageState }.

Definition NewObserver (c : Classifier) (ttl : Time.duration) : Observer :=
  {| o_classifier := c; o_ttl := if (ttl <=? 0)%Z then (10 * Time.Minute)%Z else ttl; o_byLid := ∅ |}.

Definition new_lineage (lid : Z) : lineageState := {|
  ls_stats := {|
    ps_LineageID := lid; ps_AppID := ""; ps_AppKind := ""; ps_TotalConnects := 0; ps_ByClass := ∅; ps_BytesOutByClass := ∅;
    ps_BytesOutByDest := ∅; ps_TotalBytesOut := 0; ps_UniqueDests := 0; ps_UniqueUnknown := 0; ps_LastConnect := Time.zero;
    ps_FirstUnknownAt := Time.zero; ps_FirstIntelBadAt := Time.zero; ps_RecentSample := [] |};
  ls_uniques := ∅; ls_unknown := ∅; ls_destClass := ∅; ls_destSNI := ∅ |}.

Definition getOrCreateState (lid : Z) (o : Observer) : lineageState := default (new_lineage lid) (o_byLid o !! lid).

Definition put_state (lid : Z) (st : lineageState) (o : Observer) : Observer :=
  {| o_classifier := o_classifier o; o_ttl := o_ttl o; o_byLid := <[lid := st]> (o_byLid o) |}.

Definition keyFor (ip : list Z) : string := IP_String ip.

(** [m[k] += d] and [m[k]--] on a map of counters *)
Definition bump (k : string) (d : Z) (m : gmap string Z) : gmap string Z := <[k := (default 0 (m !! k) + d)%Z]> m.

Definition SetAppID (lid : Z) (appID kind : string) (o : Observer) : Observer :=
  if Str.empty appID || (lid =? 0)%Z then o else
  let st := getOrCreateState lid o in
  let s := ls_stats st in
  if Str.empty (ps_AppID s) then
    put_state lid {|
      ls_stats := {|
        ps_LineageID := ps_LineageID s; ps_AppID := appID; ps_AppKind := kind; ps_TotalConnects := ps_TotalConnects s;
        ps_ByClass := ps_ByClass s; ps_BytesOutByClass := ps_BytesOutByClass s; ps_BytesOutByDest := ps_BytesOutByDest s;
        ps_TotalBytesOut := ps_TotalBytesOut s; ps_UniqueDests := ps_UniqueDests s; ps_UniqueUnknown := ps_UniqueUnknown s;
        ps_LastConnect := ps_LastConnect s; ps_FirstUnknownAt := ps_FirstUnknownAt s; ps_FirstIntelBadAt := ps_FirstIntelBadAt s;
        ps_RecentSample := ps_RecentSample s |};
      ls_uniques := ls_uniques st; ls_unknown := ls_unknown st; ls_destClass := ls_destClass st; ls_destSNI := ls_destSNI st |} o
  else put_state lid st o.

Definition sampleMax : nat := 64.

(** the class kept for a destination: a known class is not forgotten for unknown *)
Definition chosen_class (prev : option string) (d : string) : string :=
  match prev with
  | Some p => if bool_decide (d = ClassUnknown) && negb (bool_decide (p = ClassUnknown)) then p else d
  | None => d
  end.

(** the set of unknown destinations after an observation, and whether its size
    is counted again *)
Definition unknown_after (key chosen : string) (prev : option string) (st : lineageState) : gset string * bool :=
  if bool_decide (key ∈ ls_uniques st) then
    match prev with
    | Some p => if bool_decide (p = ClassUnknown) && negb (bool_decide (chosen = ClassUnknown)) then (ls_unknown st ∖ {[key]}, true)
                else (ls_unknown st, false)
    | None => (ls_unknown st, false)
    end
  else if bool_decide (chosen = ClassUnknown) then (ls_unknown st ∪ {[key]}, true) else (ls_unknown st, false).

Definition observe_state (now : Time.time) (d : Decision) (ip : list Z) (sni : string) (port : Z) (st : lineageState) : lineageState :=
  let s := ls_stats st in
  let key := keyFor ip in
  let prev := ls_destClass st !! key in
  let chosen := chosen_class prev (dc_Class d) in
  let uniques := ls_uniques st ∪ {[key]} in
  let '(unknown, counted) := unknown_after key chosen prev st in
  {| ls_stats := {|
       ps_LineageID := ps_LineageID s; ps_AppID := ps_AppID s; ps_AppKind := ps_AppKind s;
       ps_TotalConnects := (ps_TotalConnects s + 1)%Z; ps_ByClass := bump chosen 1 (ps_ByClass s);
       ps_BytesOutByClass := ps_BytesOutByClass s; ps_BytesOutByDest := ps_BytesOutByDest s;
       ps_TotalBytesOut := ps_TotalBytesOut s;
       ps_UniqueDests := if bool_decide (key ∈ ls_uniques st) then ps_UniqueDests s else Z.of_nat (size uniques);
       ps_UniqueUnknown := if (counted : bool) then Z.of_nat (size unknown) else ps_UniqueUnknown s;
       ps_LastConnect := now;
       ps_FirstUnknownAt := if bool_decide (dc_Class d = ClassUnknown) && Time.IsZero (ps_FirstUnknownAt s) then now
                            else ps_FirstUnknownAt s;
       ps_FirstIntelBadAt := if bool_decide (dc_Class d = ClassIntelBad) && Time.IsZero (ps_FirstIntelBadAt s) then now
                             else ps_FirstIntelBadAt s;
       ps_RecentSample := last_n sampleMax (ps_RecentSample s ++
         [{| ob_At := now; ob_IP := ip; ob_SNI := sni; ob_Port := port; ob_Class := dc_Class d; ob_BytesOut := 0 |}]) |};
     ls_uniques := uniques; ls_unknown := unknown; ls_destClass := <[key := chosen]> (ls_destClass st);
     ls_destSNI := if Str.empty sni then ls_destSNI st else <[key := sni]> (ls_destSNI st) |}.

Definition obs_Observe (lid : Z) (ip : list Z) (sni : string) (port : Z) (now : Time.time) (o : Observer) : Observer * Decision :=
  let d := Classify (o_classifier o) (Some ip) sni in
  (put_state lid (observe_state now d ip sni port (getOrCreateState lid o)) o, d).

Definition set_sample (sample : list Observation) (s : PerLineageStats) : PerLineageStats := {|
  ps_LineageID := ps_LineageID s; ps_AppID := ps_AppID s; ps_AppKind := ps_AppKind s; ps_TotalConnects := ps_TotalConnects s;
  ps_ByClass := ps_ByClass s; ps_BytesOutByClass := ps_BytesOutByClass s; ps_BytesOutByDest := ps_BytesOutByDest s;
  ps_TotalBytesOut := ps_TotalBytesOut s; ps_UniqueDests := ps_UniqueDests s; ps_UniqueUnknown := ps_UniqueUnknown s;
  ps_LastConnect := ps_LastConnect s; ps_FirstUnknownAt := ps_FirstUnknownAt s; ps_FirstIntelBadAt := ps_FirstIntelBadAt s;
  ps_RecentSample := sample |}.

(** the copy handed out, and the state after it: [keep := sample[:0]] shares
    the array, so the samples kept are written over its front *)
Definition copyStats (cutoff : Time.time) (st : lineageState) : PerLineageStats * lineageState :=
  let sample := ps_RecentSample (ls_stats st) in
  let keep := filter (λ s, Time.After (ob_At s) cutoff = true) sample in
  (set_sample keep (ls_stats st),
   {| ls_stats := set_sample (keep ++ drop (length keep) sample) (ls_stats st); ls_uniques := ls_uniques st;
      ls_unknown := ls_unknown st; ls_destClass := ls_destClass st; ls_destSNI := ls_destSNI st |}).

Definition by_lineage (a b : PerLineageStats) : Prop := (ps_LineageID a ≤ ps_LineageID b)%Z.
#[export] Instance by_lineage_dec : RelDecision by_lineage.
Proof. intros a b. unfold by_lineage. apply _. Defined.

Definition Snapshot (lid : Z) (now : Time.time) (o : Observer) : list PerLineageStats * Observer :=
  let cutoff := Time.Add now (- o_ttl o) in
  if negb (lid =? 0)%Z then
    match o_byLid o !! lid with
    | None => ([], o)
    | Some st => let '(out, st') := copyStats cutoff st in ([out], put_state lid st' o)
    end
  else (merge_sort by_lineage ((λ p, (copyStats cutoff p.2).1) <$> map_to_list (o_byLid o)),
        {| o_classifier := o_classifier o; o_ttl := o_ttl o; o_byLid := (λ st, (copyStats cutoff st).2) <$> o_byLid o |}).

Definition reclassify_state (d sni key prev : string) (st : lineageState) : lineageState :=
  let s := ls_stats st in
  let less := if (0 <? default 0 (ps_ByClass s !! prev))%Z then bump prev (-1) (ps_ByClass s) else ps_ByClass s in
  let unknown := if bool_decide (prev = ClassUnknown) then ls_unknown st ∖ {[key]} else ls_unknown st in
  {| ls_stats := {|
       ps_LineageID := ps_LineageID s; ps_AppID := ps_AppID s; ps_AppKind := ps_AppKind s; ps_TotalConnects := ps_TotalConnects s;
       ps_ByClass := bump d 1 less; ps_BytesOutByClass := ps_BytesOutByClass s; ps_BytesOutByDest := ps_BytesOutByDest s;
       ps_TotalBytesOut := ps_TotalBytesOut s; ps_UniqueDests := ps_UniqueDests s;
       ps_UniqueUnknown := if bool_decide (prev = ClassUnknown) then Z.of_nat (size unknown) else ps_UniqueUnknown s;
       ps_LastConnect := ps_LastConnect s; ps_FirstUnknownAt := ps_FirstUnknownAt s; ps_FirstIntelBadAt := ps_FirstIntelBadAt s;
       ps_RecentSample := ps_RecentSample s |};
     ls_uniques := ls_uniques st; ls_unknown := unknown; ls_destClass := <[key := d]> (ls_destClass st);
     ls_destSNI := <[key := sni]> (ls_destSNI st) |}.

(** the subtraction of zero bytes, which touches a key only when it is there,
    changes nothing *)
Definition Reclassify (lid : Z) (ip : list Z) (sni : string) (port : Z) (o : Observer) : Observer :=
  if (length ip =? 0)%nat || (lid =? 0)%Z || Str.empty sni then o else
  match o_byLid o !! lid with
  | None => o
  | Some st =>
      match ls_destClass st !! keyFor ip with
      | None => o
      | Some prev =>
          let d := dc_Class (Classify (o_classifier o) (Some ip) sni) in
          if bool_decide (d = ClassUnknown) || bool_decide (d = prev) then o
          else put_state lid (reclassify_state d sni (keyFor ip) prev st) o
      end
  end.

Definition bytes_state (key : string) (n : Z) (st : lineageState) : lineageState :=
  let s := ls_stats st in
  let class := default ClassUnknown (ls_destClass st !! key) in
  let add (k : string) (m : gmap string Z) := <[k := u64 (default 0 (m !! k) + n)%Z]> m in
  {| ls_stats := {|
       ps_LineageID := ps_LineageID s; ps_AppID := ps_AppID s; ps_AppKind := ps_AppKind s; ps_TotalConnects := ps_TotalConnects s;
       ps_ByClass := ps_ByClass s; ps_BytesOutByClass := add class (ps_BytesOutByClass s);
       ps_BytesOutByDest := add key (ps_BytesOutByDest s); ps_TotalBytesOut := u64 (ps_TotalBytesOut s + n);
       ps_UniqueDests := ps_UniqueDests s; ps_UniqueUnknown := ps_UniqueUnknown s; ps_LastConnect := ps_LastConnect s;
       ps_FirstUnknownAt := ps_FirstUnknownAt s; ps_FirstIntelBadAt := ps_FirstIntelBadAt s; ps_RecentSample := ps_RecentSample s |};
     ls_uniques := ls_uniques st; ls_unknown := ls_unknown st; ls_destClass := <[key := class]> (ls_destClass st);
     ls_destSNI := ls_destSNI st |}.

Definition ObserveBytes (lid : Z) (ip : list Z) (sni : string) (port n : Z) (o : Observer) : Observer :=
  if (n =? 0)%Z || (length ip =? 0)%nat then o else put_state lid (bytes_state (keyFor ip) n (getOrCreateState lid o)) o.

Definition obs_Forget (lid : Z) (o : Observer) : Observer :=
  {| o_classifier := o_classifier o; o_ttl := o_ttl o; o_byLid := delete lid (o_byLid o) |}.

Definition CountClass (lid : Z) (class : string) (o : Observer) : Z :=
  match o_byLid o !! lid with Some st => default 0%Z (ps_ByClass (ls_stats st) !! class) | None => 0%Z end.

(** ** What happens to an observer *)

Inductive obs_op : Type :=
  | OpObserve (lid : Z) (ip : list Z) (sni : string) (port : Z) (now : Time.time)
  | OpBytes (lid : Z) (ip : list Z) (sni : string) (port n : Z)
  | OpReclassify (lid : Z) (ip : list Z) (sni : string) (port : Z)
  | OpSnapshot (lid : Z) (now : Time.time) | OpSetApp (lid : Z) (app kind : string) | OpForget (lid : Z).

Definition obs_step (o : Observer) (op : obs_op) : Observer :=
  match op with
  | OpObserve lid ip sni port now => (obs_Observe lid ip sni port now o).1
  | OpBytes lid ip sni port n => ObserveBytes lid ip sni port n o
  | OpReclassify lid ip sni port => Reclassify lid ip sni port o
  | OpSnapshot lid now => (Snapshot lid now o).2
  | OpSetApp lid app kind => SetAppID lid app kind o
  | OpForget lid => obs_Forget lid o
  end.

(** the destinations connected to whose class is unknown *)
Definition unknown_dests (st : lineageState) : gset string :=
  filter (λ k, ls_destClass st !! k = Some ClassUnknown) (ls_uniques st).

(** a sum of counters *)
Definition total (m : gmap string Z) : Z := msum (λ _ n, n) m.

Record counters_ok (st : lineageState) : Prop := {
  co_classed k : k ∈ ls_uniques st → is_Some (ls_destClass st !! k);
  co_unknown : ls_unknown st = unknown_dests st;
  co_dests : ps_UniqueDests (ls_stats st) = Z.of_nat (size (ls_uniques st));
  co_unknowns : ps_UniqueUnknown (ls_stats st) = Z.of_nat (size (ls_unknown st));
  co_byclass : ps_TotalBytesOut (ls_stats st) ≡64 total (ps_BytesOutByClass (ls_stats st));
  co_bydest : ps_TotalBytesOut (ls_stats st) ≡64 total (ps_BytesOutByDest (ls_stats st)) }.

Lemma total_add (k : string) (n : Z) (m : gmap string Z) : total (<[k := u64 (default 0 (m !! k) + n)%Z]> m) ≡64 (total m + n)%Z.
Proof. unfold total. rewrite msum_insert, u64_eq64. destruct (m !! k); cbn; eq64_lia. Qed.

Lemma total_bump (k : string) (d : Z) (m : gmap string Z) : total (bump k d m) = (total m + d)%Z.
Proof. unfold total, bump. rewrite msum_insert. destruct (m !! k); cbn; lia. Qed.

Lemma new_lineage_ok (lid : Z) : counters_ok (new_lineage lid).
Proof. constructor; cbn; try done; set_solver. Qed.

Lemma elem_unknown (k : string) (st : lineageState) :
  k ∈ unknown_dests st ↔ k ∈ ls_uniques st ∧ ls_destClass st !! k = Some ClassUnknown.
Proof. unfold unknown_dests. rewrite elem_of_filter. tauto. Qed.

(** what an observation makes of the set of unknown destinations *)
Lemma unknown_after_spec (key d : string) (st : lineageState) :
  counters_ok st →
  let prev := ls_destClass st !! key in
  let chosen := chosen_class prev d in
  let '(unknown, counted) := unknown_after key chosen prev st in
  (∀ k, k ∈ unknown ↔ k ∈ ls_uniques st ∪ {[key]} ∧ <[key := chosen]> (ls_destClass st) !! k = Some ClassUnknown) ∧
  (counted = false → unknown = ls_unknown st).
Proof.
  intros Hok prev chosen. unfold unknown_after.
  assert (∀ k, k ∈ ls_unknown st ↔ k ∈ ls_uniques st ∧ ls_destClass st !! k = Some ClassUnknown) as Hu.
  { intros k. rewrite (co_unknown st Hok). apply elem_unknown. }
  assert (∀ k, k ≠ key → (k ∈ ls_unknown st ↔ k ∈ ls_uniques st ∪ {[key]} ∧ <[key := chosen]> (ls_destClass st) !! k = Some ClassUnknown))
    as Hne by (intros k Hk; rewrite Hu, lookup_insert_ne, elem_of_union, elem_of_singleton by done; tauto).
  assert (∀ U : gset string, (∀ k, k ≠ key → (k ∈ U ↔ k ∈ ls_unknown st)) → (key ∈ U ↔ chosen = ClassUnknown) →
     ∀ k : string, k ∈ U ↔ k ∈ ls_uniques st ∪ {[key]} ∧ <[key := chosen]> (ls_destClass st) !! k = Some ClassUnknown) as Hset.
  { intros U HU Hkey k. destruct (decide (k = key)) as [->|Hk]; [|rewrite HU by done; by apply Hne].
    rewrite lookup_insert_eq, Hkey, elem_of_union, elem_of_singleton. split; [by intros ->; auto|by intros [_ [= ->]]]. }
  case_bool_decide as Hin.
  - destruct (co_classed st Hok key Hin) as [p Hp]. pose proof (Hu key) as Huk. rewrite Hp in Huk.
    assert (prev = Some p) as Hprev by exact Hp. rewrite Hprev. case_bool_decide as Hpu; cbn [andb].
    + case_bool_decide as Hd; cbn [negb]; (split; [apply Hset|done]).
      * done.
      * rewrite Huk, Hpu. tauto.
      * intros k Hk. rewrite elem_of_difference, elem_of_singleton. tauto.
      * rewrite elem_of_difference, elem_of_singleton. tauto.
    + split; [apply Hset|done]; [done|]. rewrite Huk. unfold chosen, chosen_class. rewrite Hprev.
      rewrite (bool_decide_eq_false_2 (p = ClassUnknown)) by done. cbn [negb]. rewrite andb_true_r. case_bool_decide; naive_solver.
  - assert (key ∉ ls_unknown st) as Hnk by (rewrite Hu; naive_solver).
    case_bool_decide as Hc; (split; [apply Hset|done]).
    + intros k Hk. rewrite elem_of_union, elem_of_singleton. tauto.
    + rewrite elem_of_union, elem_of_singleton. tauto.
    + done.
    + tauto.
Qed.

Lemma observe_ok (now : Time.time) (d : Decision) (ip : list Z) (sni : string) (port : Z) (st : lineageState) :
  counters_ok st → counters_ok (observe_state now d ip sni port st).
Proof.
  intros Hok. unfold observe_state. pose proof (unknown_after_spec (keyFor ip) (dc_Class d) st Hok) as Hu. cbv zeta in Hu.
  set (key := keyFor ip) in *. set (chosen := chosen_class _ _) in *. destruct (unknown_after key chosen _ st) as [unknown counted].
  destruct Hu as [Hu Hc]. destruct Hok. constructor; cbn; try done.
  - intros k [Hk| ->%elem_of_singleton]%elem_of_union; [|rewrite lookup_insert_eq; eauto].
    destruct (decide (k = key)) as [->|Hne]; [rewrite lookup_insert_eq; eauto|]. rewrite lookup_insert_ne by done. eauto.
  - apply set_eq. intros k. rewrite Hu, elem_unknown. done.
  - case_bool_decide as Hin; [|done]. rewrite co_dests0. by replace (ls_uniques st ∪ {[key]}) with (ls_uniques st) by set_solver.
  - destruct counted; [done|]. by rewrite Hc.
Qed.

Lemma reclassify_ok (d sni key prev : string) (st : lineageState) :
  ls_destClass st !! key = Some prev → d ≠ ClassUnknown → counters_ok st → counters_ok (reclassify_state d sni key prev st).
Proof.
  intros Hp Hd []. unfold reclassify_state. constructor; cbn; try done.
  - intros k Hk. destruct (decide (k = key)) as [->|Hne]; [rewrite lookup_insert_eq; eauto|]. rewrite lookup_insert_ne by done. eauto.
  - apply set_eq. intros k. rewrite elem_unknown. cbn. rewrite co_unknown0.
    destruct (decide (k = key)) as [->|Hne].
    + rewrite lookup_insert_eq. case_bool_decide as Hpu; [set_solver|]. rewrite elem_unknown, Hp. naive_solver.
    + rewrite lookup_insert_ne by done. case_bool_decide; rewrite ?elem_of_difference, elem_unknown; set_solver.
  - case_bool_decide; [done|]. exact co_unknowns0.
Qed.

Lemma bytes_ok (key : string) (n : Z) (st : lineageState) : counters_ok st → counters_ok (bytes_state key n st).
Proof.
  intros Hok. pose proof Hok as []. unfold bytes_state. constructor; cbn; try done.
  - intros k Hk. destruct (decide (k = key)) as [->|Hne]; [rewrite lookup_insert_eq; eauto|]. rewrite lookup_insert_ne by done. eauto.
  - rewrite co_unknown0. apply set_eq. intros k. rewrite !elem_unknown. cbn.
    destruct (decide (k = key)) as [->|Hne]; [|by rewrite lookup_insert_ne by done]. rewrite lookup_insert_eq.
    split; intros [Hk Hc]; (split; [done|]); [by rewrite Hc|]. destruct (co_classed0 key Hk) as [c Hcl]. by rewrite Hcl in *.
  - rewrite total_add, u64_eq64, co_byclass0. reflexivity.
  - rewrite total_add, u64_eq64, co_bydest0. reflexivity.
Qed.

Lemma set_sample_ok (sample : list Observation) (st : lineageState) :
  counters_ok st →
  counters_ok {| ls_stats := set_sample sample (ls_stats st); ls_uniques := ls_uniques st; ls_unknown := ls_unknown st;
                 ls_destClass := ls_destClass st; ls_destSNI := ls_destSNI st |}.
Proof. intros []. by constructor. Qed.

Definition observer_ok (o : Observer) : Prop := map_Forall (λ _ st, counters_ok st) (o_byLid o).

Lemma put_state_ok (lid : Z) (st : lineageState) (o : Observer) : observer_ok o → counters_ok st → observer_ok (put_state lid st o).
Proof. intros Ho Hs. by apply map_Forall_insert_2. Qed.

Lemma get_state_ok (lid : Z) (o : Observer) : observer_ok o → counters_ok (getOrCreateState lid o).
Proof. intros Ho. unfold getOrCreateState. destruct (o_byLid o !! lid) eqn:Hl; cbn; [by eapply Ho|apply new_lineage_ok]. Qed.

Lemma step_ok (o : Observer) (op : obs_op) : observer_ok o → observer_ok (obs_step o op).
Proof.
  intros Ho. destruct op as [lid ip sni port now|lid ip sni port n|lid ip sni port|lid now|lid app kind|lid]; cbn [obs_step].
  - cbn. apply put_state_ok; [done|]. by apply observe_ok, get_state_ok.
  - unfold ObserveBytes. case_match; [done|]. apply put_state_ok; [done|]. by apply bytes_ok, get_state_ok.
  - unfold Reclassify. destruct (_ || _ || _); [done|]. destruct (o_byLid o !! lid) as [st|] eqn:Hl; [|done].
    destruct (ls_destClass st !! keyFor ip) as [prev|] eqn:Hp; [|done].
    case_bool_decide as Hd; [done|]. destruct (bool_decide _); [done|]. apply put_state_ok; [done|].
    apply reclassify_ok; [done..|]. by eapply Ho.
  - unfold Snapshot. case_match.
    + destruct (o_byLid o !! lid) as [st|] eqn:Hl; [|done]. cbn. apply put_state_ok; [done|]. apply set_sample_ok. by eapply Ho.
    + intros l st Hl. cbn [snd o_byLid] in Hl. apply lookup_fmap_Some in Hl as (st0 & <- & Hl). apply set_sample_ok. by eapply Ho.
  - unfold SetAppID. destruct (_ || _); [done|]. pose proof (get_state_ok lid o Ho) as Hs.
    case_match; apply put_state_ok; try done. destruct Hs. by constructor.
  - intros l st Hl. cbn [o_byLid obs_Forget] in Hl. apply lookup_delete_Some in Hl as [_ Hl]. by eapply Ho.
Qed.

(** the counters of the observer are exact.  After any observations, byte
    counts, reclassifications, snapshots, application names and forgotten
    lineages, in any order, every lineage's number of unique destinations is the
    number of addresses it has connected to, its number of unknown ones is the
    number of those whose class is unknown, and its bytes add up, by class and by
    destination, to the total, modulo 2^64. *)
Theorem observer_counters_exact (c : Classifier) (ttl : Time.duration) (ops : list obs_op) (lid : Z) (st : lineageState) :
  o_byLid (foldl obs_step (NewObserver c ttl) ops) !! lid = Some st →
  ps_UniqueDests (ls_stats st) = Z.of_nat (size (ls_uniques st)) ∧
  ps_UniqueUnknown (ls_stats st) = Z.of_nat (size (unknown_dests st)) ∧
  ps_TotalBytesOut (ls_stats st) ≡64 total (ps_BytesOutByClass (ls_stats st)) ∧
  ps_TotalBytesOut (ls_stats st) ≡64 total (ps_BytesOutByDest (ls_stats st)).
Proof.
  assert (observer_ok (NewObserver c ttl)) as Ho by (intros l s Hl; done).
  revert Ho. generalize (NewObserver c ttl). induction ops as [|op ops IH]; intros o Ho; [|by apply IH, step_ok].
  intros Hl. destruct (Ho lid st Hl). split_and!; [done|by rewrite co_unknowns0, co_unknown0|done|done].
Qed.

(** reading the statistics spoils them.  A snapshot filters the sample of
    recent connects in the array the observer keeps; when at least as many of
    the samples have expired as are recent, the next snapshot at that time
    reports every recent connect twice. *)
Theorem snapshot_repeats_samples (lid : Z) (now : Time.time) (o : Observer) (st : lineageState) (old new : list Observation) :
  lid ≠ 0%Z → o_byLid o !! lid = Some st → ps_RecentSample (ls_stats st) = old ++ new →
  Forall (λ s, (ob_At s ≤ now - o_ttl o)%Z) old → Forall (λ s, (now - o_ttl o < ob_At s)%Z) new → length new ≤ length old →
  let '(first, o1) := Snapshot lid now o in
  let '(second, _) := Snapshot lid now o1 in
  ps_RecentSample <$> first = [new] ∧ ps_RecentSample <$> second = [new ++ new].
Proof.
  intros Hlid Hst Hs Hold Hnew Hlen. unfold Snapshot. rewrite (proj2 (Z.eqb_neq _ _)) by done. cbn [negb]. rewrite Hst.
  assert (∀ l, Forall (λ s, (ob_At s ≤ now - o_ttl o)%Z) l →
     filter (λ s, Time.After (ob_At s) (Time.Add now (- o_ttl o)) = true) l = []) as Hfo.
  { intros l Hl. apply filter_none. eapply Forall_impl; [exact Hl|]. cbn beta; intros s Hle. unfold Time.After, Time.Add. rewrite not_true_iff_false, Z.ltb_ge. lia. }
  assert (filter (λ s, Time.After (ob_At s) (Time.Add now (- o_ttl o)) = true) new = new) as Hfn.
  { apply filter_all. eapply Forall_impl; [exact Hnew|]. cbn beta; intros s Hlt. unfold Time.After, Time.Add. rewrite Z.ltb_lt. lia. }
  cbn [copyStats]. rewrite Hs, filter_app, Hfo, Hfn by done. cbn [app put_state o_byLid o_ttl]. rewrite lookup_insert_eq.
  cbn [copyStats set_sample ls_stats ps_RecentSample fmap list_fmap]. split; [done|]. f_equal.
  rewrite drop_app_le by done. rewrite !filter_app, Hfn. f_equal. rewrite Hfo by (by apply Forall_drop). done.
Qed.

(** ** The theorems at work *)

Module Demo.
Definition o0 : Observer := NewObserver (New []) 0.

(** two connects more than ten minutes ago, one now *)
Definition ops : list obs_op :=
  [OpObserve 7 (v4 203 0 113 9) "" 443 0; OpBytes 7 (v4 203 0 113 9) "" 443 1000; OpObserve 7 (v4 198 51 100 7) "" 443 (60 * Time.Second);
   OpReclassify 7 (v4 203 0 113 9) "pypi.org" 443; OpObserve 7 (v4 203 0 113 9) "" 443 (1200 * Time.Second)].

Definition busy : Observer := foldl obs_step o0 ops.

Definition state : lineageState := default (new_lineage 7) (o_byLid busy !! 7%Z).
Definition stale_sample : list Observation := take 2 (ps_RecentSample (ls_stats state)).
Definition fresh : list Observation := drop 2 (ps_RecentSample (ls_stats state)).
End Demo.

Lemma observer_counters_exact_witness :
  match o_byLid Demo.busy !! 7%Z with
  | Some st => ps_UniqueDests (ls_stats st) = 2%Z ∧ ps_UniqueUnknown (ls_stats st) = Z.of_nat (size (unknown_dests st))
  | None => False
  end.
Proof.
  destruct (o_byLid Demo.busy !! 7%Z) as [st|] eqn:Hst; [|by vm_compute in Hst].
  split; [vm_compute in Hst; injection Hst as <-; reflexivity|].
  exact (proj1 (proj2 (observer_counters_exact (New []) 0 Demo.ops 7 st Hst))).
Defined.

Lemma snapshot_repeats_samples_witness :
  ob_At <$> Demo.fresh = [(1200 * Time.Second)%Z] ∧
  let '(first, o1) := Snapshot 7 (1200 * Time.Second) Demo.busy in
  let '(second, _) := Snapshot 7 (1200 * Time.Second) o1 in
  ps_RecentSample <$> first = [Demo.fresh] ∧ ps_RecentSample <$> second = [Demo.fresh ++ Demo.fresh].
Proof.
  split; [vm_compute; reflexivity|].
  refine (snapshot_repeats_samples 7 (1200 * Time.Second) Demo.busy Demo.state Demo.stale_sample Demo.fresh _ _ _ _ _ _).
  - discriminate.
  - vm_compute. reflexivity.
  - vm_compute. reflexivity.
  - apply (bool_decide_unpack _). vm_compute. exact I.
  - apply (bool_decide_unpack _). vm_compute. exact I.
  - vm_compute. lia.
Defined.
