(* ===== verification/FlowLabels.v ===== *)
(** * Labels of a flow (src/pkg/servicerole, src/pkg/l7proto)

    The service role of a process and the application protocol of a flow, both
    read off tables. *)

From S2P Require Import Prelude GoStd Bytes.

(** ** Service role (servicerole.go) *)

Definition RoleWeb : string := "web".
Definition RoleDatabase : string := "database".
Definition RoleCache : string := "cache".
Definition RoleBroker : string := "broker".
Definition RoleProxy : string := "proxy".
Definition RoleMail : string := "mail".
Definition RoleDNS : string := "dns".
Definition RoleSSH : string := "ssh".
Definition RoleOther : string := "other".

Definition Roles : list string :=
  [RoleWeb; RoleDatabase; RoleCache; RoleBroker; RoleProxy; RoleMail; RoleDNS; RoleSSH; RoleOther].

Definition byBinary : list (string * string) := [
  ("nginx", RoleWeb); ("apache2", RoleWeb); ("httpd", RoleWeb); ("caddy", RoleWeb); ("lighttpd", RoleWeb); ("traefik", RoleWeb);
  ("node", RoleWeb); ("gunicorn", RoleWeb); ("uwsgi", RoleWeb); ("mysqld", RoleDatabase); ("mariadbd", RoleDatabase);
  ("postgres", RoleDatabase); ("mongod", RoleDatabase); ("clickhouse-serv", RoleDatabase); ("influxd", RoleDatabase);
  ("redis-server", RoleCache); ("memcached", RoleCache); ("beam.smp", RoleBroker); ("rabbitmq-server", RoleBroker);
  ("kafka", RoleBroker); ("nats-server", RoleBroker); ("haproxy", RoleProxy); ("envoy", RoleProxy); ("squid", RoleProxy);
  ("master", RoleMail); ("smtpd", RoleMail); ("dovecot", RoleMail); ("exim4", RoleMail); ("named", RoleDNS);
  ("unbound", RoleDNS); ("dnsmasq", RoleDNS); ("coredns", RoleDNS); ("sshd", RoleSSH)].

Definition byPort : list (Z * string) := [
  (80, RoleWeb); (443, RoleWeb); (8080, RoleWeb); (8443, RoleWeb); (3306, RoleDatabase); (5432, RoleDatabase);
  (27017, RoleDatabase); (6379, RoleCache); (11211, RoleCache); (5672, RoleBroker); (9092, RoleBroker); (25, RoleMail);
  (587, RoleMail); (993, RoleMail); (53, RoleDNS); (22, RoleSSH)]%Z.

(** a lookup in a table without duplicates *)
Definition in_table {A B} `{EqDecision A} (t : list (A * B)) (a : A) : option B :=
  snd <$> List.find (λ p, bool_decide (p.1 = a)) t.

Definition role_Classify (binaryPath comm appKind : string) (listenPort : Z) : string :=
  let base := if Str.empty binaryPath then comm else Str.Base binaryPath in
  match in_table byBinary base with
  | Some r => r
  | None =>
      match if Str.empty comm then None else in_table byBinary comm with
      | Some r => r
      | None =>
          if bool_decide (Str.ToLower appKind = "web") then RoleWeb
          else default RoleOther (if (listenPort =? 0)%Z then None else in_table byPort listenPort)
      end
  end.

(** ** Application protocol (l7proto.go) *)

Definition ProtoHTTPS : string := "https".
Definition ProtoHTTP : string := "http".
Definition ProtoHTTP2 : string := "http2".
Definition ProtoGRPC : string := "grpc".
Definition ProtoSSH : string := "ssh".
Definition ProtoDNS : string := "dns".
Definition ProtoQUIC : string := "quic".
Definition ProtoUDPOther : string := "udp-other".
Definition ProtoTLSOther : string := "tls-other".
Definition ProtoRaw : string := "raw".

Definition Protos : list string :=
  [ProtoHTTPS; ProtoHTTP; ProtoHTTP2; ProtoGRPC; ProtoSSH; ProtoDNS; ProtoQUIC; ProtoUDPOther; ProtoTLSOther; ProtoRaw].

Record Signals := {
  sg_L4 : string; sg_DstPort : Z; sg_SNI : string; sg_ALPN : string; sg_HTTPRequestLine : string; sg_PayloadPrefix : bytes;
  sg_QUICConfirmed : bool }.

Definition http2Preface : bytes := bytes_of "PRI * HTTP/2.0" ++ [13; 10; 13; 10]%Z ++ bytes_of "SM" ++ [13; 10; 13; 10]%Z.

(** the labels of a port when nothing else is known *)
Definition by_dst_port (port : Z) : option string :=
  if (port =? 22)%Z then Some ProtoSSH
  else if (port =? 53)%Z then Some ProtoDNS
  else if (port =? 80)%Z || (port =? 8080)%Z then Some ProtoHTTP
  else None.

Definition l7_Classify (s : Signals) : string :=
  if sg_QUICConfirmed s then ProtoQUIC
  else
    let alpn := Str.ToLower (sg_ALPN s) in
    if bool_decide (alpn = "grpc") then ProtoGRPC
    else if bool_decide (alpn = "h2") || bool_decide (alpn = "h2c") then ProtoHTTP2
    else if (length http2Preface <=? length (sg_PayloadPrefix s))%nat &&
            bool_decide (take (length http2Preface) (sg_PayloadPrefix s) = http2Preface) then ProtoHTTP2
    else if negb (Str.empty (sg_HTTPRequestLine s)) then
      (if (sg_DstPort s =? 443)%Z || negb (Str.empty (sg_SNI s)) then ProtoHTTPS else ProtoHTTP)
    else if bool_decide (sg_L4 s = "udp") then (if (sg_DstPort s =? 53)%Z then ProtoDNS else ProtoUDPOther)
    else
      match by_dst_port (sg_DstPort s) with
      | Some p => p
      | None =>
          if negb (Str.empty (sg_SNI s)) then ProtoHTTPS
          else if (sg_DstPort s =? 443)%Z || (sg_DstPort s =? 8443)%Z then ProtoTLSOther
          else ProtoRaw
      end.

(** ** What they can answer *)

Lemma in_table_in {A B} `{EqDecision A} (t : list (A * B)) (a : A) (b : B) : in_table t a = Some b → b ∈ t.*2.
Proof.
  unfold in_table. destruct (List.find _ t) as [p|] eqn:Hf; [|done]. intros [= <-].
  apply find_some in Hf as [Hp _]. by apply list_elem_of_fmap_2, list_elem_of_In.
Qed.

Lemma role_in (binaryPath comm appKind : string) (listenPort : Z) : role_Classify binaryPath comm appKind listenPort ∈ Roles.
Proof.
  assert (byBinary.*2 ⊆ Roles ∧ byPort.*2 ⊆ Roles) as [Hb Hp].
  { assert (Forall (λ r, r ∈ Roles) byBinary.*2) as H1 by (apply (bool_decide_unpack _); vm_compute; exact I).
    assert (Forall (λ r, r ∈ Roles) byPort.*2) as H2 by (apply (bool_decide_unpack _); vm_compute; exact I).
    rewrite Forall_forall in H1, H2. split; intros r Hr; auto. }
  assert (RoleWeb ∈ Roles) by (apply (bool_decide_unpack _); vm_compute; exact I).
  assert (RoleOther ∈ Roles) by (apply (bool_decide_unpack _); vm_compute; exact I).
  unfold role_Classify. destruct (in_table byBinary _) as [r|] eqn:Hr1; [by eapply Hb, in_table_in|].
  destruct (if Str.empty comm then None else in_table byBinary comm) as [r|] eqn:Hr2.
  { destruct (Str.empty comm); [done|]. by eapply Hb, in_table_in. }
  case_bool_decide; [done|]. destruct (listenPort =? 0)%Z; [done|].
  destruct (in_table byPort listenPort) as [r|] eqn:Hr3; [by eapply Hp, in_table_in|done].
Qed.

(** a constant of a table on every branch *)
Ltac by_branches :=
  repeat match goal with |- context [if ?b then _ else _] => destruct b end; apply (bool_decide_unpack _); vm_compute; exact I.

(** the labels left when neither a name nor a payload has been seen *)
Definition nameless : list string :=
  [ProtoQUIC; ProtoGRPC; ProtoHTTP2; ProtoSSH; ProtoDNS; ProtoHTTP; ProtoTLSOther; ProtoRaw].

Lemma l7_nameless (s : Signals) :
  sg_L4 s ≠ "udp" → sg_SNI s = "" → sg_HTTPRequestLine s = "" → l7_Classify s ∈ nameless.
Proof.
  intros Hl Hs Hh. unfold l7_Classify, by_dst_port. rewrite Hs, Hh, (bool_decide_eq_false_2 (sg_L4 s = "udp")) by done.
  change (Str.empty "") with true. cbn [negb]. by_branches.
Qed.

Lemma l7_in (s : Signals) : l7_Classify s ∈ Protos.
Proof.
  unfold l7_Classify, by_dst_port. by_branches.
Qed.
