(* ===== verification/EgressLedger.v ===== *)
(** * The egress ledger (src/pkg/egressledger) and its adapter to the policy
    workflow (src/cmd/xhelix/web_egress_adapters.go)

    Flow counters by key in three tiers: per-minute buckets in memory, rows of a
    key-value store, one file of rows per day.  A tick moves rows down the
    tiers; queries read the tiers that can hold the window asked for.

    Map iteration order, the key-value store's iterator and the result of every
    write are arguments.  The store is a map from its keys to the rows that were
    put, a day's file the list of its rows; both libraries keep what they are
    given.  Go map iteration is any permutation. *)

From S2P Require Import Prelude GoStd Bytes NetIP CIDR EgressPolicy.

(** ** Data (types.go) *)

Record FlowKey := {
  fk_Binary : string; fk_ExeSHA : string; fk_UID : Z; fk_CGroupID : Z; fk_DestCIDR : string; fk_DestPort : Z;
  fk_Protocol : string; fk_SNI : string; fk_DNSName : string; fk_DestClass : string; fk_Role : string }.

#[export] Instance FlowKey_eq_dec : EqDecision FlowKey.
Proof. solve_decision. Defined.

#[export] Instance FlowKey_countable : Countable FlowKey.
Proof.
  apply (inj_countable'
    (λ k, (fk_Binary k, fk_ExeSHA k, fk_UID k, fk_CGroupID k, fk_DestCIDR k, fk_DestPort k, fk_Protocol k, fk_SNI k,
           fk_DNSName k, fk_DestClass k, fk_Role k))
    (λ '(b, e, u, c, d, p, q, s, n, dc, r), Build_FlowKey b e u c d p q s n dc r)).
  by intros [].
Defined.

Record FlowMetrics := {
  fm_FirstSeen : Time.time; fm_LastSeen : Time.time; fm_Connects : Z; fm_BytesOut : Z; fm_BytesIn : Z; fm_DistinctDsts : Z;
  fm_DenyEvents : Z; fm_VerifyEvents : Z; fm_ServiceRole : string; fm_ParentComm : string; fm_L7Protocol : string;
  fm_App : string }.

Record FlowRecord := { fr_Key : FlowKey; fr_Metrics : FlowMetrics; fr_Bucket : Time.time }.

(** [le_DestIP] is [None] for the nil IP *)
Record LedgerEvent := {
  le_Time : Time.time; le_Binary : string; le_ExeSHA : string; le_UID : Z; le_CGroupID : Z; le_DestIP : option (list Z);
  le_DestPort : Z; le_Protocol : string; le_SNI : string; le_DNSName : string; le_BytesOut : Z; le_BytesIn : Z;
  le_Connect : bool; le_Deny : bool; le_Verify : bool; le_DestClass : string; le_Role : string; le_PID : Z; le_PPID : Z;
  le_Comm : string; le_ContainerID : string; le_ContainerClass : string; le_Unit : string; le_ServiceRole : string;
  le_ParentComm : string; le_L7Protocol : string; le_App : string; le_SrcPort : Z }.

Record FlowFilter := {
  ff_Binary : string; ff_UID : Z; ff_CGroupID : Z; ff_DestCIDR : string; ff_DestPort : Z; ff_SNI : string;
  ff_DestClass : string; ff_DenyOnly : bool; ff_ServiceRole : string; ff_L7Protocol : string; ff_App : string;
  ff_Visibility : string }.

Record Options := {
  o_RetentionDays : Z; o_HotWindow : Time.duration; o_HotBucket : Time.duration; o_WarmRetention : Time.duration;
  o_WarmBucket : Time.duration; o_ColdBucket : Time.duration; o_DestClassifier : option (option (list Z) → string → string);
  o_ExcludePrivate : bool; o_OwnIPs : gset string }.

Definition positive_or (d : Z) (z : Z) : Z := if (z <=? 0)%Z then d else z.

Definition opts_defaults (o : Options) : Options := {|
  o_RetentionDays := positive_or 14 (o_RetentionDays o); o_HotWindow := positive_or (60 * Time.Minute) (o_HotWindow o);
  o_HotBucket := positive_or Time.Minute (o_HotBucket o); o_WarmRetention := positive_or (48 * Time.Hour) (o_WarmRetention o);
  o_WarmBucket := positive_or (5 * Time.Minute) (o_WarmBucket o); o_ColdBucket := positive_or Time.Hour (o_ColdBucket o);
  o_DestClassifier := o_DestClassifier o; o_ExcludePrivate := o_ExcludePrivate o; o_OwnIPs := o_OwnIPs o |}.

(** ** Addresses (cidr.go) *)

Definition IsPublicDestClass (class : string) : bool := negb (bool_decide (class ∈ ["private"; "loopback"; "rfc1918"])).

Definition IsPublicCIDR (cidr : string) : bool :=
  let ip := match Str.IndexByte cidr "/" with Some i => Str.upto i cidr | None => cidr end in
  match ParseIP ip with
  | None => true
  | Some p => negb (IsPrivate p) && negb (IsLoopback p) && negb (IsLinkLocalUnicast p) && negb (IsUnspecified p)
  end.

Definition flowKeyForIP (ip : option (list Z)) (destClass : string) : string :=
  match ip with
  | None => ""
  | Some ip =>
      if IsUnspecified ip || IsMulticast ip || IsLinkLocalMulticast ip then ""
      else if (IsLoopback ip || IsLinkLocalUnicast ip) &&
              negb (bool_decide (destClass = "metadata")) && negb (bool_decide (destClass = "cloud_metadata")) then ""
      else IP_String ip
  end.

(** ** The role of a flow (recent.go) *)

Definition wellKnown (p : Z) : bool :=
  bool_decide (p ∈ [22; 25; 53; 80; 110; 143; 443; 465; 587; 993; 995; 3306; 5432; 6379; 9200; 27017; 8080; 8443; 8081; 8086;
                    9081]%Z).

(** [listening] is the cached set of local ports in LISTEN *)
Definition inferRole (listening : gset Z) (srcPort dstPort : Z) : string :=
  if (0 <? srcPort)%Z && bool_decide (srcPort ∈ listening) && negb (bool_decide (dstPort ∈ listening)) then "server"
  else if (0 <? srcPort)%Z && wellKnown srcPort && negb (wellKnown dstPort) then "server"
  else if (0 <? dstPort)%Z && wellKnown dstPort && negb (wellKnown srcPort) then "client"
  else "".

(** ** Memory (hot.go) *)

Abbreviation hot_rows := (gmap Z (gmap FlowKey FlowMetrics)) (only parsing).

Definition new_metrics (t : Time.time) : FlowMetrics := {|
  fm_FirstSeen := t; fm_LastSeen := t; fm_Connects := 0; fm_BytesOut := 0; fm_BytesIn := 0; fm_DistinctDsts := 0;
  fm_DenyEvents := 0; fm_VerifyEvents := 0; fm_ServiceRole := ""; fm_ParentComm := ""; fm_L7Protocol := ""; fm_App := "" |}.

(** the last value observed that is not empty *)
Definition last_some (old new : string) : string := if Str.empty new then old else new.

Definition bump_metrics (t : Time.time) (ev : LedgerEvent) (m : FlowMetrics) : FlowMetrics := {|
  fm_FirstSeen := if Time.Before t (fm_FirstSeen m) then t else fm_FirstSeen m;
  fm_LastSeen := if Time.After t (fm_LastSeen m) then t else fm_LastSeen m;
  fm_Connects := if le_Connect ev then u64 (fm_Connects m + 1) else fm_Connects m;
  fm_BytesOut := u64 (fm_BytesOut m + le_BytesOut ev); fm_BytesIn := u64 (fm_BytesIn m + le_BytesIn ev);
  fm_DistinctDsts := fm_DistinctDsts m;
  fm_DenyEvents := if le_Deny ev then u64 (fm_DenyEvents m + 1) else fm_DenyEvents m;
  fm_VerifyEvents := if le_Verify ev then u64 (fm_VerifyEvents m + 1) else fm_VerifyEvents m;
  fm_ServiceRole := last_some (fm_ServiceRole m) (le_ServiceRole ev); fm_ParentComm := last_some (fm_ParentComm m) (le_ParentComm ev);
  fm_L7Protocol := last_some (fm_L7Protocol m) (le_L7Protocol ev); fm_App := last_some (fm_App m) (le_App ev) |}.

Definition hot_observe (bucket : Time.duration) (t : Time.time) (key : FlowKey) (ev : LedgerEvent) (rows : hot_rows) : hot_rows :=
  let b := Time.Truncate t bucket in
  let bk := default ∅ (rows !! b) in
  <[b := <[key := bump_metrics t ev (default (new_metrics t) (bk !! key))]> bk]> rows.

(** the rows of one bucket, and of all *)
Definition bucket_rows (b : Time.time) (m : gmap FlowKey FlowMetrics) : list FlowRecord :=
  (λ p, {| fr_Key := p.1; fr_Metrics := p.2; fr_Bucket := b |}) <$> map_to_list m.

Definition rows_of (rows : hot_rows) : list FlowRecord := map_to_list rows ≫= λ p, bucket_rows p.1 p.2.

(** [rowsCount] *)
Definition hot_rowsCount (rows : hot_rows) : Z := msum (λ _ m, Z.of_nat (size m)) rows.

(** what the two drops share: the buckets before [cutoff], and the others *)
Definition before (cutoff : Time.time) (rows : hot_rows) : hot_rows := filter (λ p, (p.1 < cutoff)%Z) rows.
Definition not_before (cutoff : Time.time) (rows : hot_rows) : hot_rows := filter (λ p, ¬ (p.1 < cutoff)%Z) rows.

(** ** The key-value tier (warm.go) *)

Definition fnv8 (s : string) : bytes := be_enc 8 (fnv64a (bytes_of s)).

Definition encodeKey (bucket : Time.time) (k : FlowKey) : bytes :=
  be_enc 8 (u64 bucket) ++ fnv8 (fk_DestCIDR k +:+ ("|" +:+ (fk_Protocol k +:+ ("|" +:+ fk_DestClass k)))) ++
  be_enc 2 (fk_DestPort k) ++ be_enc 4 (fk_UID k) ++ fnv8 (fk_Binary k +:+ ("|" +:+ fk_ExeSHA k)) ++ fnv8 (fk_SNI k) ++
  fnv8 (fk_DNSName k).

Definition mergeRecord (a b : FlowRecord) : FlowRecord :=
  let m := fr_Metrics a in
  let n := fr_Metrics b in {|
  fr_Key := fr_Key a; fr_Bucket := fr_Bucket a;
  fr_Metrics := {|
    fm_FirstSeen := if Time.Before (fm_FirstSeen n) (fm_FirstSeen m) || Time.IsZero (fm_FirstSeen m) then fm_FirstSeen n
                    else fm_FirstSeen m;
    fm_LastSeen := if Time.After (fm_LastSeen n) (fm_LastSeen m) then fm_LastSeen n else fm_LastSeen m;
    fm_Connects := u64 (fm_Connects m + fm_Connects n); fm_BytesOut := u64 (fm_BytesOut m + fm_BytesOut n);
    fm_BytesIn := u64 (fm_BytesIn m + fm_BytesIn n); fm_DistinctDsts := Z.max (fm_DistinctDsts m) (fm_DistinctDsts n);
    fm_DenyEvents := u64 (fm_DenyEvents m + fm_DenyEvents n); fm_VerifyEvents := u64 (fm_VerifyEvents m + fm_VerifyEvents n);
    fm_ServiceRole := last_some (fm_ServiceRole m) (fm_ServiceRole n);
    fm_ParentComm := last_some (fm_ParentComm m) (fm_ParentComm n);
    fm_L7Protocol := last_some (fm_L7Protocol m) (fm_L7Protocol n); fm_App := fm_App m |} |}.

Definition set_bucket (b : Time.time) (r : FlowRecord) : FlowRecord :=
  {| fr_Key := fr_Key r; fr_Metrics := fr_Metrics r; fr_Bucket := b |}.

Abbreviation warm_rows := (gmap (list Z) FlowRecord) (only parsing).

Definition put_record (bucket : Time.duration) (w : warm_rows) (r : FlowRecord) : warm_rows :=
  let b := Time.Truncate (fr_Bucket r) bucket in
  let key := encodeKey b (fr_Key r) in
  <[key := set_bucket b (match w !! key with Some prev => mergeRecord prev r | None => r end)]> w.

(** one transaction: all or nothing *)
Definition putRecords (bucket : Time.duration) (recs : list FlowRecord) (w : warm_rows) : warm_rows :=
  foldl (put_record bucket) w recs.

(** the bucket time at the front of a key *)
Definition key_ts (key : bytes) : Z := be_dec (take 8 key).

(** the loop of [drainOlderThan] and [pruneOlderThan] over the iterator *)
Fixpoint older_than (cn : Z) (l : list (bytes * FlowRecord)) : list (bytes * FlowRecord) :=
  match l with
  | [] => []
  | (key, r) :: l' =>
      if (length key <? 8)%nat then older_than cn l'
      else if (cn <=? key_ts key)%Z then [] else (key, r) :: older_than cn l'
  end.

Definition delete_keys (l : list (bytes * FlowRecord)) (w : warm_rows) : warm_rows := foldl (λ w p, delete p.1 w) w l.

(** [Seek] to the first key at or after the start, then until past the end *)
Fixpoint seek (startNs : Z) (l : list (bytes * FlowRecord)) : list (bytes * FlowRecord) :=
  match l with
  | [] => []
  | (key, r) :: l' => if (key_ts key <? startNs)%Z then seek startNs l' else l
  end.

Fixpoint scan_until (endNs : Z) (l : list (bytes * FlowRecord)) : list FlowRecord :=
  match l with
  | [] => []
  | (key, r) :: l' =>
      if (length key <? 8)%nat then scan_until endNs l'
      else if (endNs <? key_ts key)%Z then [] else r :: scan_until endNs l'
  end.

(** ** The files (cold.go) *)

(** a stored row: times as nanoseconds; neither the role nor the app *)
Record parquetRow := {
  pr_BucketUnixNano : Z; pr_Binary : string; pr_ExeSHA : string; pr_UID : Z; pr_CGroupID : Z; pr_Cidr : string; pr_Port : Z;
  pr_Proto : string; pr_Sni : string; pr_Dns : string; pr_Class : string; pr_ServiceRole : string; pr_ParentComm : string;
  pr_L7Protocol : string; pr_FirstSeenNS : Z; pr_LastSeenNS : Z; pr_Connects : Z; pr_BytesOutTotal : Z; pr_BytesIn : Z;
  pr_DistinctDsts : Z; pr_DenyEvents : Z; pr_VerifyEvents : Z }.

Definition recordToRow (r : FlowRecord) : parquetRow :=
  let k := fr_Key r in
  let m := fr_Metrics r in {|
  pr_BucketUnixNano := fr_Bucket r; pr_Binary := fk_Binary k; pr_ExeSHA := fk_ExeSHA k; pr_UID := fk_UID k;
  pr_CGroupID := fk_CGroupID k; pr_Cidr := fk_DestCIDR k; pr_Port := u32 (fk_DestPort k); pr_Proto := fk_Protocol k;
  pr_Sni := fk_SNI k; pr_Dns := fk_DNSName k; pr_Class := fk_DestClass k; pr_ServiceRole := fm_ServiceRole m;
  pr_ParentComm := fm_ParentComm m; pr_L7Protocol := fm_L7Protocol m; pr_FirstSeenNS := fm_FirstSeen m;
  pr_LastSeenNS := fm_LastSeen m; pr_Connects := fm_Connects m; pr_BytesOutTotal := fm_BytesOut m; pr_BytesIn := fm_BytesIn m;
  pr_DistinctDsts := fm_DistinctDsts m; pr_DenyEvents := fm_DenyEvents m; pr_VerifyEvents := fm_VerifyEvents m |}.

Definition rowToRecord (p : parquetRow) : FlowRecord := {|
  fr_Key := {| fk_Binary := pr_Binary p; fk_ExeSHA := pr_ExeSHA p; fk_UID := pr_UID p; fk_CGroupID := pr_CGroupID p;
               fk_DestCIDR := pr_Cidr p; fk_DestPort := u16 (pr_Port p); fk_Protocol := pr_Proto p; fk_SNI := pr_Sni p;
               fk_DNSName := pr_Dns p; fk_DestClass := pr_Class p; fk_Role := "" |};
  fr_Metrics := {| fm_FirstSeen := pr_FirstSeenNS p; fm_LastSeen := pr_LastSeenNS p; fm_Connects := pr_Connects p;
                   fm_BytesOut := pr_BytesOutTotal p; fm_BytesIn := pr_BytesIn p; fm_DistinctDsts := pr_DistinctDsts p;
                   fm_DenyEvents := pr_DenyEvents p; fm_VerifyEvents := pr_VerifyEvents p; fm_ServiceRole := pr_ServiceRole p;
                   fm_ParentComm := pr_ParentComm p; fm_L7Protocol := pr_L7Protocol p; fm_App := "" |};
  fr_Bucket := pr_BucketUnixNano p |}.

(** a directory per UTC day, here under the number of the day *)
Definition day_of (t : Time.time) : Z := (t / (24 * Time.Hour))%Z.

Abbreviation cold_rows := (gmap Z (list parquetRow)) (only parsing).

(** [days] is the order of the grouped map; a day whose file cannot be read or
    written ends the loop *)
Fixpoint append_days (days : list Z) (fails : Z → bool) (recs : list FlowRecord) (c : cold_rows) : cold_rows * bool :=
  match days with
  | [] => (c, true)
  | d :: days' =>
      if fails d then (c, false)
      else append_days days' fails recs
             (<[d := default [] (c !! d) ++ (recordToRow <$> filter (λ r, day_of (fr_Bucket r) = d) recs)]> c)
  end.

Definition days_in (recs : list FlowRecord) : gset Z := list_to_set (day_of ∘ fr_Bucket <$> recs).

Definition cold_scan (start end_ : Time.time) (c : cold_rows) : list FlowRecord :=
  seqZ (day_of start) (day_of end_ - day_of start + 1) ≫= λ d,
    filter (λ r, (start ≤ fr_Bucket r)%Z ∧ (fr_Bucket r ≤ end_)%Z) (rowToRecord <$> default [] (c !! d)).

Definition cold_prune (cutoff : Time.time) (c : cold_rows) : cold_rows := filter (λ p, ¬ (p.1 < day_of cutoff)%Z) c.

(** ** The ledger (ledger.go) *)

Record Ledger := {
  l_opts : Options; l_hot : hot_rows; l_warm : warm_rows; l_cold : cold_rows; l_lastTickAt : Time.time;
  l_lastCompactAt : Time.time; l_lastWarmFlush : Time.time; l_lastColdRoll : Time.time; l_observeCount : Z; l_dropEmpty : Z; l_closed : bool }.

Definition NewLedger (o : Options) : Ledger := {|
  l_opts := opts_defaults o; l_hot := ∅; l_warm := ∅; l_cold := ∅; l_lastTickAt := Time.zero; l_lastCompactAt := Time.zero;
  l_lastWarmFlush := Time.zero; l_lastColdRoll := Time.zero; l_observeCount := 0; l_dropEmpty := 0; l_closed := false |}.

Definition with_tiers (hot : hot_rows) (warm : warm_rows) (cold : cold_rows) (l : Ledger) : Ledger := {|
  l_opts := l_opts l; l_hot := hot; l_warm := warm; l_cold := cold; l_lastTickAt := l_lastTickAt l;
  l_lastCompactAt := l_lastCompactAt l; l_lastWarmFlush := l_lastWarmFlush l; l_lastColdRoll := l_lastColdRoll l;
  l_observeCount := l_observeCount l; l_dropEmpty := l_dropEmpty l; l_closed := l_closed l |}.

Definition counted (dropped : bool) (l : Ledger) : Ledger := {|
  l_opts := l_opts l; l_hot := l_hot l; l_warm := l_warm l; l_cold := l_cold l; l_lastTickAt := l_lastTickAt l;
  l_lastCompactAt := l_lastCompactAt l; l_lastWarmFlush := l_lastWarmFlush l; l_lastColdRoll := l_lastColdRoll l;
  l_observeCount := u64 (l_observeCount l + 1); l_dropEmpty := if dropped then u64 (l_dropEmpty l + 1) else l_dropEmpty l;
  l_closed := l_closed l |}.

Definition class_of (o : Options) (ev : LedgerEvent) : string :=
  match o_DestClassifier o with
  | Some f => if Str.empty (le_DestClass ev) then f (le_DestIP ev) (le_SNI ev) else le_DestClass ev
  | None => le_DestClass ev
  end.

(** the drops of [Observe], in its order *)
Definition dropped (o : Options) (ev : LedgerEvent) : bool :=
  let class := class_of o ev in
  let cidr := flowKeyForIP (le_DestIP ev) class in
  match le_DestIP ev with Some ip => bool_decide (IP_String ip ∈ o_OwnIPs o) | None => false end ||
  Str.empty cidr && Str.empty (le_Binary ev) ||
  o_ExcludePrivate o && negb (IsPublicDestClass class) && (negb (Str.empty class) || negb (IsPublicCIDR cidr)).

Definition flow_key (o : Options) (listening : gset Z) (ev : LedgerEvent) : FlowKey :=
  let class := class_of o ev in {|
  fk_Binary := le_Binary ev; fk_ExeSHA := le_ExeSHA ev; fk_UID := le_UID ev; fk_CGroupID := le_CGroupID ev;
  fk_DestCIDR := flowKeyForIP (le_DestIP ev) class; fk_DestPort := le_DestPort ev; fk_Protocol := le_Protocol ev;
  fk_SNI := le_SNI ev; fk_DNSName := le_DNSName ev; fk_DestClass := class;
  fk_Role := if Str.empty (le_Role ev) then inferRole listening (le_SrcPort ev) (le_DestPort ev) else le_Role ev |}.

Definition event_time (now : Time.time) (ev : LedgerEvent) : Time.time := if Time.IsZero (le_Time ev) then now else le_Time ev.

Definition ledger_Observe (now : Time.time) (listening : gset Z) (ev : LedgerEvent) (l : Ledger) : Ledger :=
  if dropped (l_opts l) ev then counted true l
  else counted false
         (with_tiers (hot_observe (o_HotBucket (l_opts l)) (event_time now ev) (flow_key (l_opts l) listening ev) ev (l_hot l))
            (l_warm l) (l_cold l) l).

(** what the stores answer during a tick, and the orders of the two map ranges *)
Record tick_io := {
  io_put_evicted : bool; io_put_flushed : bool; io_drain : bool; io_day_fails : Z → bool; io_prune_cold : bool;
  io_prune_warm : bool; io_rows : list FlowRecord → list FlowRecord; io_days : gset Z → list Z }.

Inductive tick_error : Type := ErrPut | ErrDrain | ErrAppend | ErrPruneCold | ErrPruneWarm.

Section tick.
Context (iter : gmap (list Z) FlowRecord → list (list Z * FlowRecord)).

(** [slide] or [snapshotAndDropBefore], then the put when there are rows *)
Definition move_down (cutoff : Time.time) (ok : bool) (x : tick_io) (l : Ledger) : Ledger * bool :=
  let evicted := io_rows x (rows_of (before cutoff (l_hot l))) in
  let hot := not_before cutoff (l_hot l) in
  if (0 <? length evicted)%nat then
    (with_tiers hot (if ok then putRecords (o_WarmBucket (l_opts l)) evicted (l_warm l) else l_warm l) (l_cold l) l, ok)
  else (with_tiers hot (l_warm l) (l_cold l) l, true).

Definition slide_cutoff (now : Time.time) (o : Options) : Time.time :=
  Time.Truncate (Time.Add now (- o_HotWindow o)) (o_HotBucket o).

Definition stamp_tick (now : Time.time) (flush roll : bool) (l : Ledger) : Ledger := {|
  l_opts := l_opts l; l_hot := l_hot l; l_warm := l_warm l; l_cold := l_cold l; l_lastTickAt := now;
  l_lastCompactAt := l_lastCompactAt l; l_lastWarmFlush := if flush then now else l_lastWarmFlush l;
  l_lastColdRoll := if roll then now else l_lastColdRoll l; l_observeCount := l_observeCount l; l_dropEmpty := l_dropEmpty l; l_closed := l_closed l |}.

Definition compacted (now : Time.time) (l : Ledger) : Ledger := {|
  l_opts := l_opts l; l_hot := l_hot l; l_warm := l_warm l; l_cold := l_cold l; l_lastTickAt := l_lastTickAt l;
  l_lastCompactAt := now; l_lastWarmFlush := l_lastWarmFlush l; l_lastColdRoll := l_lastColdRoll l;
  l_observeCount := l_observeCount l; l_dropEmpty := l_dropEmpty l; l_closed := l_closed l |}.

(** rows of the store drained to the files; the drain is committed first *)
Definition drain (cutoff : Time.time) (x : tick_io) (l : Ledger) : Ledger * option tick_error :=
  if negb (io_drain x) then (l, Some ErrDrain) else
  let old := older_than (u64 cutoff) (iter (l_warm l)) in
  let warm := delete_keys old (l_warm l) in
  let recs := (λ p, set_bucket (Time.Truncate (fr_Bucket p.2) (o_ColdBucket (l_opts l))) p.2) <$> old in
  let '(cold, ok) := if (0 <? length recs)%nat then append_days (io_days x (days_in recs)) (io_day_fails x) recs (l_cold l)
                     else (l_cold l, true) in
  (with_tiers (l_hot l) warm cold l, if ok then None else Some ErrAppend).

Definition prunes (now : Time.time) (x : tick_io) (l : Ledger) : Ledger * option tick_error :=
  if negb (io_prune_cold x) then (l, Some ErrPruneCold) else
  let l := with_tiers (l_hot l) (l_warm l)
             (cold_prune (Time.Add now (- (o_RetentionDays (l_opts l) * (24 * Time.Hour)))) (l_cold l)) l in
  if negb (io_prune_warm x) then (l, Some ErrPruneWarm) else
  (with_tiers (l_hot l)
     (delete_keys (older_than (u64 (Time.Add now (- o_WarmRetention (l_opts l)))) (iter (l_warm l))) (l_warm l)) (l_cold l) l,
   None).

Definition roll_down (now : Time.time) (x : tick_io) (l : Ledger) : Ledger * option tick_error :=
  let '(l, err) := drain (Time.Add now (- Time.Hour)) x l in
  match err with
  | Some e => (l, Some e)
  | None => let '(l, err) := prunes now x l in
            match err with Some e => (l, Some e) | None => (compacted now l, None) end
  end.

(** the rows in memory are put into the store, whatever it answers; the files
    keep what they hold *)
Definition ledger_Close (ok : bool) (ord : list FlowRecord → list FlowRecord) (l : Ledger) : Ledger :=
  if l_closed l then l else
  let rem := ord (rows_of (l_hot l)) in {|
  l_opts := l_opts l; l_hot := l_hot l;
  l_warm := if (0 <? length rem)%nat && ok then putRecords (o_WarmBucket (l_opts l)) rem (l_warm l) else l_warm l;
  l_cold := l_cold l; l_lastTickAt := l_lastTickAt l; l_lastCompactAt := l_lastCompactAt l;
  l_lastWarmFlush := l_lastWarmFlush l; l_lastColdRoll := l_lastColdRoll l; l_observeCount := l_observeCount l;
  l_dropEmpty := l_dropEmpty l; l_closed := true |}.

(** [New] on the directory of a ledger that was closed, with the same options *)
Definition reopen (state_ok : bool) (l : Ledger) : Ledger := {|
  l_opts := opts_defaults (l_opts l); l_hot := ∅; l_warm := l_warm l; l_cold := l_cold l; l_lastTickAt := Time.zero;
  l_lastCompactAt := if state_ok then l_lastCompactAt l else Time.zero; l_lastWarmFlush := Time.zero;
  l_lastColdRoll := Time.zero; l_observeCount := 0; l_dropEmpty := 0; l_closed := false |}.

Definition ledger_Tick (now : Time.time) (x : tick_io) (l : Ledger) : Ledger * option tick_error :=
  let '(l, ok) := move_down (slide_cutoff now (l_opts l)) (io_put_evicted x) x l in
  if negb ok then (l, Some ErrPut) else
  let flush := (5 * Time.Minute <=? Time.Sub now (l_lastWarmFlush l))%Z in
  let roll := (Time.Hour <=? Time.Sub now (l_lastColdRoll l))%Z in
  let l := stamp_tick now flush roll l in
  let '(l, ok) := if flush then move_down (Time.Add now (- o_HotBucket (l_opts l))) (io_put_flushed x) x l else (l, true) in
  if negb ok then (l, Some ErrPut) else
  if roll then roll_down now x l else (l, None).

(** ** Queries (query.go) *)

Definition i32_any (f k : Z) (width : Z → Z) : bool := negb (0 <=? f)%Z || (width f =? k)%Z.

Definition matchFilter (r : FlowRecord) (f : FlowFilter) : bool :=
  let k := fr_Key r in
  let m := fr_Metrics r in
  let any_or (s : string) (b : bool) := Str.empty s || b in
  let public := if Str.empty (fk_DestClass k) then IsPublicCIDR (fk_DestCIDR k) else IsPublicDestClass (fk_DestClass k) in
  any_or (ff_Binary f) (Str.Contains (fk_Binary k) (ff_Binary f)) &&
  i32_any (ff_UID f) (fk_UID k) u32 && i32_any (ff_CGroupID f) (fk_CGroupID k) u64 &&
  any_or (ff_DestCIDR f) (bool_decide (ff_DestCIDR f = fk_DestCIDR k)) && i32_any (ff_DestPort f) (fk_DestPort k) u16 &&
  any_or (ff_SNI f) (Str.Contains (fk_SNI k) (ff_SNI f)) && any_or (ff_DestClass f) (bool_decide (ff_DestClass f = fk_DestClass k)) &&
  negb (ff_DenyOnly f && (fm_DenyEvents m =? 0)%Z) &&
  any_or (ff_ServiceRole f) (bool_decide (fm_ServiceRole m = ff_ServiceRole f)) &&
  any_or (ff_L7Protocol f) (bool_decide (fm_L7Protocol m = ff_L7Protocol f)) &&
  any_or (ff_App f) (Str.Contains (fm_App m) (ff_App f)) &&
  negb (bool_decide (ff_Visibility f = "public") && negb public) && negb (bool_decide (ff_Visibility f = "internal") && public).

Definition by_bucket (a b : FlowRecord) : Prop := (fr_Bucket a ≤ fr_Bucket b)%Z.
#[export] Instance by_bucket_dec : RelDecision by_bucket.
Proof. intros a b. unfold by_bucket. apply _. Defined.

(** [ord] is the order of the map ranges of a snapshot *)
Definition QueryLive (ord : list FlowRecord → list FlowRecord) (f : FlowFilter) (l : Ledger) : list FlowRecord :=
  merge_sort (flip by_bucket) (filter (λ r, matchFilter r f = true) (ord (rows_of (l_hot l)))).

Definition snapshotRange (ord : list FlowRecord → list FlowRecord) (start end_ : Time.time) (rows : hot_rows) : list FlowRecord :=
  ord (rows_of (filter (λ p, (start ≤ p.1)%Z ∧ (p.1 ≤ end_)%Z) rows)).

Definition warm_scan (start end_ : Time.time) (w : warm_rows) : list FlowRecord :=
  scan_until (u64 end_) (seek (u64 start) (iter w)).

Definition QueryTimeline (ord : list FlowRecord → list FlowRecord) (now start end_ : Time.time) (f : FlowFilter) (l : Ledger) :
    list FlowRecord :=
  if negb (Time.Before start end_) then [] else
  let hotStart := Time.Add now (- o_HotWindow (l_opts l)) in
  let rows := (if Time.After end_ hotStart then snapshotRange ord start end_ (l_hot l) else []) ++
              (if Time.Before start hotStart then warm_scan start end_ (l_warm l) ++ cold_scan start end_ (l_cold l) else []) in
  merge_sort by_bucket (filter (λ r, matchFilter r f = true) rows).

Definition any_flow : FlowFilter := {|
  ff_Binary := ""; ff_UID := -1; ff_CGroupID := -1; ff_DestCIDR := ""; ff_DestPort := -1; ff_SNI := ""; ff_DestClass := "";
  ff_DenyOnly := false; ff_ServiceRole := ""; ff_L7Protocol := ""; ff_App := ""; ff_Visibility := "" |}.

Definition binary_filter (binary : string) : FlowFilter := {|
  ff_Binary := binary; ff_UID := -1; ff_CGroupID := -1; ff_DestCIDR := ""; ff_DestPort := -1; ff_SNI := ""; ff_DestClass := "";
  ff_DenyOnly := false; ff_ServiceRole := ""; ff_L7Protocol := ""; ff_App := ""; ff_Visibility := "" |}.

Definition QueryBinary (ord : list FlowRecord → list FlowRecord) (now : Time.time) (binary : string) (start end_ : Time.time)
    (l : Ledger) : list FlowRecord := QueryTimeline ord now start end_ (binary_filter binary) l.

(** ** The adapter to the policy workflow *)

Definition QueryDestination (ord : list FlowRecord → list FlowRecord) (now : Time.time) (cidr : string) (port : Z)
    (start end_ : Time.time) (l : Ledger) : list FlowRecord :=
  QueryTimeline ord now start end_
    {| ff_Binary := ""; ff_UID := -1; ff_CGroupID := -1; ff_DestCIDR := cidr; ff_DestPort := port; ff_SNI := "";
       ff_DestClass := ""; ff_DenyOnly := false; ff_ServiceRole := ""; ff_L7Protocol := ""; ff_App := ""; ff_Visibility := "" |} l.

Definition ledger_flow (r : FlowRecord) : LedgerFlow := {|
  f_Binary := fk_Binary (fr_Key r); f_DestCIDR := fk_DestCIDR (fr_Key r); f_DestPort := fk_DestPort (fr_Key r);
  f_Protocol := fk_Protocol (fr_Key r); f_SNI := fk_SNI (fr_Key r); f_DNSName := fk_DNSName (fr_Key r);
  f_DestClass := fk_DestClass (fr_Key r); f_BytesOut := fm_BytesOut (fr_Metrics r); f_BytesIn := fm_BytesIn (fr_Metrics r);
  f_Connects := fm_Connects (fr_Metrics r); f_FirstSeen := fm_FirstSeen (fr_Metrics r);
  f_LastSeen := fm_LastSeen (fr_Metrics r) |}.

Definition workflow_flows (ord : list FlowRecord → list FlowRecord) (now : Time.time) (binary : string) (start end_ : Time.time)
    (l : Ledger) : list LedgerFlow := ledger_flow <$> QueryBinary ord now binary start end_ l.

End tick.

(** ** Counters *)

Inductive counter : Type := CConnects | CBytesOut | CBytesIn | CDeny | CVerify.

Definition get (c : counter) (m : FlowMetrics) : Z :=
  match c with
  | CConnects => fm_Connects m | CBytesOut => fm_BytesOut m | CBytesIn => fm_BytesIn m | CDeny => fm_DenyEvents m
  | CVerify => fm_VerifyEvents m
  end.

Arguments get : simpl never.

(** what one event adds *)
Definition amount (c : counter) (ev : LedgerEvent) : Z :=
  match c with
  | CConnects => if le_Connect ev then 1 else 0 | CBytesOut => le_BytesOut ev | CBytesIn => le_BytesIn ev
  | CDeny => if le_Deny ev then 1 else 0 | CVerify => if le_Verify ev then 1 else 0
  end.

Definition rec_get (c : counter) (r : FlowRecord) : Z := get c (fr_Metrics r).
Definition rec_sum (c : counter) (recs : list FlowRecord) : Z := sumZ (rec_get c <$> recs).

Definition hot_sum (c : counter) (rows : hot_rows) : Z := msum (λ _ m, msum (λ _ v, get c v) m) rows.
Definition warm_sum (c : counter) (w : warm_rows) : Z := msum (λ _ r, rec_get c r) w.
Definition cold_sum (c : counter) (f : cold_rows) : Z := msum (λ _ rows, rec_sum c (rowToRecord <$> rows)) f.

(** a counter over all tiers *)
Definition ledger_sum (c : counter) (l : Ledger) : Z :=
  (hot_sum c (l_hot l) + warm_sum c (l_warm l) + cold_sum c (l_cold l))%Z.

Lemma get_bump (c : counter) (t : Time.time) (ev : LedgerEvent) (m : FlowMetrics) :
  get c (bump_metrics t ev m) ≡64 (get c m + amount c ev)%Z.
Proof. unfold get. destruct c; cbn; try case_match; rewrite ?u64_eq64, ?Z.add_0_r; reflexivity. Qed.

Lemma get_new (c : counter) (t : Time.time) : get c (new_metrics t) = 0%Z.
Proof. by destruct c. Qed.

Lemma get_merge (c : counter) (a b : FlowRecord) : rec_get c (mergeRecord a b) ≡64 (rec_get c a + rec_get c b)%Z.
Proof. unfold rec_get, get. destruct c; cbn; apply u64_eq64. Qed.

Lemma rec_get_bucket (c : counter) (b : Time.time) (r : FlowRecord) : rec_get c (set_bucket b r) = rec_get c r.
Proof. done. Qed.

Lemma rec_get_row (c : counter) (r : FlowRecord) : rec_get c (rowToRecord (recordToRow r)) = rec_get c r.
Proof. unfold rec_get. by destruct c. Qed.

Lemma rec_sum_app (c : counter) (a b : list FlowRecord) : rec_sum c (a ++ b) = (rec_sum c a + rec_sum c b)%Z.
Proof. unfold rec_sum. by rewrite fmap_app, sumZ_app. Qed.

Lemma rec_sum_perm (c : counter) (a b : list FlowRecord) : a ≡ₚ b → rec_sum c a = rec_sum c b.
Proof. intros Hp. unfold rec_sum. apply sumZ_perm. by rewrite Hp. Qed.

Lemma rec_sum_bind {A} (c : counter) (f : A → list FlowRecord) (l : list A) :
  rec_sum c (l ≫= f) = sumZ ((rec_sum c ∘ f) <$> l).
Proof. induction l as [|x l IH]; [done|]. by rewrite bind_cons, rec_sum_app, IH. Qed.

Lemma rec_sum_rows (c : counter) (rows : hot_rows) : rec_sum c (rows_of rows) = hot_sum c rows.
Proof.
  unfold rows_of, hot_sum, msum. rewrite rec_sum_bind. f_equal. apply list_fmap_ext. intros i [b m] _. cbn.
  unfold rec_sum, bucket_rows. by rewrite <-list_fmap_compose.
Qed.

Lemma hot_observe_sum (c : counter) (B : Time.duration) (t : Time.time) (k : FlowKey) (ev : LedgerEvent) (rows : hot_rows) :
  hot_sum c (hot_observe B t k ev rows) ≡64 (hot_sum c rows + amount c ev)%Z.
Proof.
  unfold hot_sum, hot_observe. rewrite !msum_insert, get_bump.
  destruct (rows !! _) as [m|]; cbn; [destruct (m !! k) as [v|]; cbn|].
  - eq64_lia.
  - rewrite get_new. eq64_lia.
  - rewrite lookup_empty, msum_empty. cbn. rewrite get_new. eq64_lia.
Qed.

Lemma put_record_sum (c : counter) (B : Time.duration) (w : warm_rows) (r : FlowRecord) :
  warm_sum c (put_record B w r) ≡64 (warm_sum c w + rec_get c r)%Z.
Proof.
  unfold warm_sum, put_record. rewrite msum_insert, rec_get_bucket.
  destruct (w !! _) as [p|]; cbn; [rewrite get_merge|]; eq64_lia.
Qed.

Lemma putRecords_sum (c : counter) (B : Time.duration) (recs : list FlowRecord) (w : warm_rows) :
  warm_sum c (putRecords B recs w) ≡64 (warm_sum c w + rec_sum c recs)%Z.
Proof.
  unfold putRecords. revert w. induction recs as [|r recs IH]; intros w; [by rewrite Z.add_0_r|].
  cbn [foldl]. rewrite IH, put_record_sum. change (rec_sum c (r :: recs)) with (rec_get c r + rec_sum c recs)%Z. eq64_lia.
Qed.

(** *** Moving rows down *)

Section tiers.
Context (iter : gmap (list Z) FlowRecord → list (list Z * FlowRecord)).
(** the iterator visits every key once, in byte order, hence in the order of
    their first eight bytes *)
Context (iter_all : ∀ m, iter m ≡ₚ map_to_list m).
Context (iter_sorted : ∀ m, StronglySorted (λ p q, (key_ts p.1 ≤ key_ts q.1)%Z) (iter m)).

Lemma older_than_filter (cn : Z) (l : list (bytes * FlowRecord)) :
  StronglySorted (λ p q, (key_ts p.1 ≤ key_ts q.1)%Z) l → Forall (λ p, 8 ≤ length p.1) l →
  older_than cn l = filter (λ p, (key_ts p.1 < cn)%Z) l.
Proof.
  intros Hs. induction Hs as [|[k r] l Hs IH Hl]; intros Hk; [done|].
  apply Forall_cons in Hk as [H8 Hk]. cbn [older_than fst] in *. rewrite (proj2 (Nat.ltb_ge _ _)) by done.
  destruct (Z.leb_spec cn (key_ts k)).
  - rewrite filter_cons_False by (cbn [fst]; lia). symmetry. apply filter_none.
    eapply Forall_impl; [exact Hl|]. intros [k' r'] Hle. cbn [fst] in *. lia.
  - rewrite filter_cons_True by (cbn [fst]; lia). by rewrite IH.
Qed.

Lemma seek_filter (s : Z) (l : list (bytes * FlowRecord)) :
  StronglySorted (λ p q, (key_ts p.1 ≤ key_ts q.1)%Z) l → seek s l = filter (λ p, (s ≤ key_ts p.1)%Z) l.
Proof.
  intros Hs. induction Hs as [|[k r] l Hs IH Hl]; [done|]. cbn [seek]. destruct (Z.ltb_spec (key_ts k) s).
  - rewrite filter_cons_False by (cbn [fst]; lia). done.
  - rewrite filter_cons_True by (cbn [fst]; lia). f_equal. symmetry. apply filter_all.
    eapply Forall_impl; [exact Hl|]. intros [k' r'] Hle. cbn [fst] in *. lia.
Qed.

Lemma scan_until_filter (e : Z) (l : list (bytes * FlowRecord)) :
  StronglySorted (λ p q, (key_ts p.1 ≤ key_ts q.1)%Z) l → Forall (λ p, 8 ≤ length p.1) l →
  scan_until e l = (filter (λ p, (key_ts p.1 ≤ e)%Z) l).*2.
Proof.
  intros Hs. induction Hs as [|[k r] l Hs IH Hl]; intros Hk; [done|].
  apply Forall_cons in Hk as [H8 Hk]. cbn [scan_until fst] in *. rewrite (proj2 (Nat.ltb_ge _ _)) by done.
  destruct (Z.ltb_spec e (key_ts k)).
  - rewrite filter_cons_False by (cbn [fst]; lia). symmetry. rewrite filter_none; [done|].
    eapply Forall_impl; [exact Hl|]. intros [k' r'] Hle. cbn [fst] in *. lia.
  - rewrite filter_cons_True by (cbn [fst]; lia). cbn. by rewrite IH.
Qed.

Lemma delete_keys_lookup (l : list (bytes * FlowRecord)) (w : warm_rows) (k : bytes) :
  delete_keys l w !! k = if decide (k ∈ l.*1) then None else w !! k.
Proof.
  unfold delete_keys. revert w. induction l as [|[k' r] l IH]; intros w; [by rewrite decide_False by apply not_elem_of_nil|].
  cbn [foldl fst]. rewrite IH. cbn [fmap list_fmap]. destruct (decide (k ∈ l.*1)).
  - by rewrite decide_True by (apply elem_of_cons; by right).
  - destruct (decide (k = k')) as [->|Hn]; [by rewrite lookup_delete_eq, decide_True by (apply elem_of_cons; by left)|].
    rewrite lookup_delete_ne by congruence. rewrite decide_False; [done|]. intros [?|?]%elem_of_cons; [done|done].
Qed.

(** every key carries its row's bucket time *)
Definition warm_ok (w : warm_rows) : Prop := ∀ k r, w !! k = Some r → 8 ≤ length k ∧ key_ts k = fr_Bucket r.

Lemma iter_elem (w : warm_rows) (k : bytes) (r : FlowRecord) : (k, r) ∈ iter w ↔ w !! k = Some r.
Proof. by rewrite iter_all, elem_of_map_to_list. Qed.

Lemma iter_long (w : warm_rows) : warm_ok w → Forall (λ p, 8 ≤ length p.1) (iter w).
Proof. intros Hw. apply Forall_forall. intros [k r] Hk%iter_elem. by apply (Hw k r). Qed.

(** draining or pruning up to a time splits the store by bucket time *)
Lemma older_drained (cn : Z) (w : warm_rows) :
  warm_ok w →
  delete_keys (older_than cn (iter w)) w = filter (λ p, ¬ (fr_Bucket p.2 < cn)%Z) w ∧
  older_than cn (iter w) ≡ₚ map_to_list (filter (λ p, (fr_Bucket p.2 < cn)%Z) w).
Proof.
  intros Hw. rewrite older_than_filter by (done || by apply iter_long). split.
  - apply map_eq. intros k. rewrite delete_keys_lookup.
    assert (k ∈ (filter (λ p, (key_ts p.1 < cn)%Z) (iter w)).*1 ↔ ∃ r, w !! k = Some r ∧ (fr_Bucket r < cn)%Z) as Hk.
    { rewrite list_elem_of_fmap. split.
      - intros ([k' r] & -> & [Hlt Hin]%list_elem_of_filter). apply iter_elem in Hin. cbn [fst snd] in *.
        exists r. split; [done|]. destruct (Hw _ _ Hin) as [_ <-]. done.
      - intros (r & Hr & Hlt). exists (k, r). split; [done|]. apply list_elem_of_filter. cbn [fst].
        destruct (Hw _ _ Hr) as [_ ->]. split; [done|]. by apply iter_elem. }
    destruct (decide _) as [Hin|Hin].
    + apply Hk in Hin as (r & Hr & Hlt). symmetry. apply map_lookup_filter_None_2. right. intros r' Hr'. cbn [snd].
      rewrite Hr in Hr'. injection Hr' as <-. lia.
    + destruct (w !! k) as [r|] eqn:Hr; symmetry.
      * apply map_lookup_filter_Some_2; [done|]. cbn [snd]. intros Hlt. apply Hin, Hk. eauto.
      * apply map_lookup_filter_None_2. by left.
  - apply NoDup_Permutation.
    + apply NoDup_filter. rewrite iter_all. apply NoDup_map_to_list.
    + apply NoDup_map_to_list.
    + intros [k r]. rewrite list_elem_of_filter, elem_of_map_to_list, map_lookup_filter_Some, iter_elem. cbn [fst snd].
      split; intros [H1 H2]; split; try done; destruct (Hw k r ltac:(done)) as [_ He]; congruence.
Qed.

(** *** Sums are kept *)

Definition opts_ok (o : Options) : Prop :=
  (0 < o_HotBucket o)%Z ∧ (0 < o_WarmBucket o)%Z ∧ (0 < o_ColdBucket o)%Z ∧ (Time.Hour ≤ o_WarmRetention o)%Z.

(** every row lies in a span of bucket times; the tiers below have been
    truncated further *)
Record in_span (L H : Time.time) (l : Ledger) : Prop := {
  is_opts : opts_ok (l_opts l);
  is_ends : (0 ≤ L ∧ H < 2 ^ 63)%Z;
  is_hot b m : l_hot l !! b = Some m → (L + o_WarmBucket (l_opts l) + o_ColdBucket (l_opts l) ≤ b ≤ H)%Z;
  is_warm k r : l_warm l !! k = Some r →
    8 ≤ length k ∧ key_ts k = fr_Bucket r ∧ (L + o_ColdBucket (l_opts l) ≤ fr_Bucket r ≤ H)%Z;
  is_cold d rows : l_cold l !! d = Some rows →
    Forall (λ p, day_of (pr_BucketUnixNano p) = d ∧ (L ≤ pr_BucketUnixNano p ≤ H)%Z) rows }.

Lemma span_warm_ok (L H : Time.time) (l : Ledger) : in_span L H l → warm_ok (l_warm l).
Proof. intros Hs k r Hr. destruct (is_warm _ _ _ Hs k r Hr) as (? & ? & _). done. Qed.

Lemma encode_ts (b : Time.time) (k : FlowKey) :
  (0 ≤ b < 2 ^ 64)%Z → 8 ≤ length (encodeKey b k) ∧ key_ts (encodeKey b k) = b.
Proof.
  intros Hb. unfold encodeKey, key_ts. split; [rewrite length_app, be_enc_length; lia|].
  rewrite take_app_length' by (by rewrite be_enc_length). rewrite u64_small by done. by apply be_dec_enc.
Qed.

Lemma rows_of_elem (rows : hot_rows) (r : FlowRecord) :
  r ∈ rows_of rows ↔ ∃ m, rows !! fr_Bucket r = Some m ∧ m !! fr_Key r = Some (fr_Metrics r).
Proof.
  unfold rows_of. rewrite list_elem_of_bind. split.
  - intros ([b m] & Hr & Hb%elem_of_map_to_list). unfold bucket_rows in Hr. cbn [fst snd] in Hr.
    apply list_elem_of_fmap in Hr as ([k v] & -> & Hk%elem_of_map_to_list). by exists m.
  - intros (m & Hb & Hk). exists (fr_Bucket r, m). split; [|by apply elem_of_map_to_list].
    apply list_elem_of_fmap. exists (fr_Key r, fr_Metrics r). split; [by destruct r|by apply elem_of_map_to_list].
Qed.

Definition span_of (lo hi : Z) (r : FlowRecord) : Prop := (lo ≤ fr_Bucket r ≤ hi)%Z.

(** a put keeps the store in the span, one bucket below *)
Lemma putRecords_span (B lo hi : Z) (recs : list FlowRecord) (w : warm_rows) :
  (0 < B)%Z → (0 ≤ lo)%Z → (hi < 2 ^ 63)%Z → Forall (span_of (lo + B) hi) recs →
  (∀ k r, w !! k = Some r → 8 ≤ length k ∧ key_ts k = fr_Bucket r ∧ span_of lo hi r) →
  ∀ k r, putRecords B recs w !! k = Some r → 8 ≤ length k ∧ key_ts k = fr_Bucket r ∧ span_of lo hi r.
Proof.
  intros HB Hlo Hhi Hr. revert w. induction Hr as [|x recs Hx _ IH]; intros w Hw; [done|]. cbn. apply IH.
  intros k r Hk. unfold put_record in Hk. pose proof (Time.Truncate_bounds (fr_Bucket x) B HB) as Ht. unfold span_of in Hx.
  set (b := Time.Truncate (fr_Bucket x) B) in *. apply lookup_insert_Some in Hk as [[<- <-]|[_ Hk]]; [|by apply Hw].
  destruct (encode_ts b (fr_Key x)) as [H8 Hts]; [lia|]. split_and!; [done|done|]. unfold span_of. cbn [fr_Bucket set_bucket]. lia.
Qed.

Lemma move_down_spec (c : counter) (L H cutoff : Time.time) (ok : bool) (x : tick_io) (l l' : Ledger) :
  in_span L H l → (∀ rs, io_rows x rs ≡ₚ rs) → move_down cutoff ok x l = (l', true) →
  in_span L H l' ∧ ledger_sum c l' ≡64 ledger_sum c l ∧ l_opts l' = l_opts l.
Proof.
  intros Hs Hord Hm. unfold move_down in Hm.
  assert (∀ b m, not_before cutoff (l_hot l) !! b = Some m → l_hot l !! b = Some m) as Hnb.
  { intros b m [Hb _]%map_lookup_filter_Some. done. }
  assert (Forall (span_of (L + o_ColdBucket (l_opts l) + o_WarmBucket (l_opts l)) H)
            (io_rows x (rows_of (before cutoff (l_hot l))))) as Hspan.
  { apply Forall_forall. intros r Hr. rewrite Hord in Hr. apply rows_of_elem in Hr as (m & Hb & _).
    apply map_lookup_filter_Some in Hb as [Hb _]. pose proof (is_hot _ _ _ Hs _ _ Hb). unfold span_of. lia. }
  pose proof (rec_sum_perm c _ _ (Hord (rows_of (before cutoff (l_hot l))))) as Hsum. rewrite rec_sum_rows in Hsum.
  pose proof (msum_filter (λ _ m, msum (λ _ v, get c v) m) (λ p, (p.1 < cutoff)%Z) (l_hot l)) as Hsplit.
  destruct (is_opts _ _ _ Hs) as (_ & HW & HC & _). destruct (is_ends _ _ _ Hs) as [HL HH].
  destruct (0 <? length _)%nat eqn:Hn; injection Hm as <-; [subst ok|]; (split; [|split; [|done]]).
  - destruct Hs. constructor; cbn [l_opts l_hot l_warm l_cold with_tiers]; [done..| | |done].
    + intros b m Hb. eauto.
    + apply putRecords_span; [done|lia|lia|done|done].
  - unfold ledger_sum. cbn [l_hot l_warm l_cold with_tiers]. rewrite putRecords_sum, Hsum. unfold hot_sum, before, not_before in *.
    rewrite Hsplit. eq64_lia.
  - destruct Hs. constructor; cbn [l_opts l_hot l_warm l_cold with_tiers]; [done..| |done|done]. intros b m Hb. eauto.
  - unfold ledger_sum. cbn [l_hot l_warm l_cold with_tiers]. bool_to_prop.
    destruct (io_rows x _) as [|? ?] eqn:He in Hn; [|cbn in Hn; lia]. rewrite He in Hsum. unfold hot_sum, before, not_before in *.
    rewrite Hsplit, <-Hsum. cbn. eq64_lia.
Qed.

(** *** The files *)

Definition day_sum (c : counter) (d : Z) (recs : list FlowRecord) : Z :=
  rec_sum c (filter (λ r, day_of (fr_Bucket r) = d) recs).

Lemma rec_sum_filter (c : counter) (P : FlowRecord → Prop) `{∀ r, Decision (P r)} (recs : list FlowRecord) :
  rec_sum c recs = (rec_sum c (filter P recs) + rec_sum c (filter (λ r, ¬ P r) recs))%Z.
Proof.
  induction recs as [|r recs IH]; [done|]. change (rec_sum c (r :: recs)) with (rec_get c r + rec_sum c recs)%Z.
  destruct (decide (P r)).
  - rewrite filter_cons_True, (filter_cons_False (λ r, ¬ P r)) by (done || by intros ?).
    change (rec_sum c (r :: filter P recs)) with (rec_get c r + rec_sum c (filter P recs))%Z. lia.
  - rewrite filter_cons_False, (filter_cons_True (λ r, ¬ P r)) by done.
    change (rec_sum c (r :: filter ?Q recs)) with (rec_get c r + rec_sum c (filter Q recs))%Z. lia.
Qed.

(** grouping by day loses nothing *)
Lemma days_sum (c : counter) (days : list Z) (recs : list FlowRecord) :
  NoDup days → (∀ r, r ∈ recs → day_of (fr_Bucket r) ∈ days) → sumZ ((λ d, day_sum c d recs) <$> days) = rec_sum c recs.
Proof.
  intros Hnd. revert recs. induction Hnd as [|d days Hd Hnd IH]; intros recs Hr.
  - destruct recs as [|r recs]; [done|]. destruct (not_elem_of_nil (day_of (fr_Bucket r))). apply Hr. by left.
  - rewrite (rec_sum_filter c (λ r, day_of (fr_Bucket r) = d)).
    rewrite <-(IH (filter (λ r, day_of (fr_Bucket r) ≠ d) recs)).
    + cbn. f_equal. f_equal. apply list_fmap_ext. intros i d' Hi. unfold day_sum. f_equal.
      rewrite list_filter_filter. apply list_filter_iff. intros r. split; [|by intros [? ?]].
      intros <-. split; [done|]. intros He. apply Hd. rewrite <-He. by eapply list_elem_of_lookup_2.
    + intros r [Hn Hin]%list_elem_of_filter. apply Hr in Hin. apply elem_of_cons in Hin as [?|?]; done.
Qed.

Lemma append_days_sum (c : counter) (days : list Z) (fails : Z → bool) (recs : list FlowRecord) (f f' : cold_rows) :
  append_days days fails recs f = (f', true) → cold_sum c f' = (cold_sum c f + sumZ ((λ d, day_sum c d recs) <$> days))%Z.
Proof.
  revert f. induction days as [|d days IH]; intros f; cbn [append_days]; [intros [= <-]; cbn; lia|].
  destruct (fails d); [done|]. intros Ha. rewrite (IH _ Ha). unfold cold_sum. rewrite msum_insert.
  cbn [fmap list_fmap sumZ foldr]. fold (sumZ ((λ d, day_sum c d recs) <$> days)).
  rewrite fmap_app, rec_sum_app. rewrite <-(list_fmap_compose recordToRow rowToRecord).
  assert (rec_sum c ((rowToRecord ∘ recordToRow) <$> filter (λ r, day_of (fr_Bucket r) = d) recs) = day_sum c d recs) as ->.
  { unfold day_sum, rec_sum. by rewrite <-list_fmap_compose. }
  destruct (f !! d); cbn; [unfold rec_sum, sumZ|]; lia.
Qed.

Lemma append_days_span (L H : Time.time) (days : list Z) (fails : Z → bool) (recs : list FlowRecord) (f f' : cold_rows) (ok : bool) :
  append_days days fails recs f = (f', ok) → Forall (span_of L H) recs →
  (∀ d rows, f !! d = Some rows →
     Forall (λ p, day_of (pr_BucketUnixNano p) = d ∧ (L ≤ pr_BucketUnixNano p ≤ H)%Z) rows) →
  ∀ d rows, f' !! d = Some rows →
    Forall (λ p, day_of (pr_BucketUnixNano p) = d ∧ (L ≤ pr_BucketUnixNano p ≤ H)%Z) rows.
Proof.
  intros Ha Hr. revert f Ha. induction days as [|d days IH]; intros f; cbn [append_days]; [by intros [= <- _]|].
  destruct (fails d); [by intros [= <- _]|]. intros Ha Hf. apply (IH _ Ha). intros d' rows Hd'.
  apply lookup_insert_Some in Hd' as [[<- <-]|[_ Hd']]; [|by apply Hf]. apply Forall_app. split.
  - destruct (f !! d) as [rows|] eqn:Hd; [by apply Hf|constructor].
  - apply Forall_forall. intros p (r & -> & [Hday Hin]%list_elem_of_filter)%list_elem_of_fmap.
    split; [done|]. rewrite Forall_forall in Hr. exact (Hr r Hin).
Qed.

Definition days_order (x : tick_io) : Prop := ∀ s, NoDup (io_days x s) ∧ ∀ d, d ∈ io_days x s ↔ d ∈ s.

Lemma drain_spec (c : counter) (L H cutoff : Time.time) (x : tick_io) (l l' : Ledger) :
  in_span L H l → days_order x → (0 ≤ cutoff < 2 ^ 64)%Z → drain iter cutoff x l = (l', None) →
  in_span L H l' ∧ ledger_sum c l' ≡64 ledger_sum c l ∧ l_opts l' = l_opts l ∧
  ∀ k r, l_warm l' !! k = Some r → (cutoff ≤ fr_Bucket r)%Z.
Proof.
  intros Hs Hord Hcut. unfold drain. destruct (io_drain x); cbn [negb]; [|done]. rewrite u64_small by done.
  destruct (older_drained cutoff (l_warm l) (span_warm_ok _ _ _ Hs)) as [Hdel Hold]. rewrite Hdel.
  set (old := older_than cutoff (iter (l_warm l))) in *.
  set (recs := (λ p, set_bucket (Time.Truncate (fr_Bucket p.2) (o_ColdBucket (l_opts l))) p.2) <$> old).
  destruct (if (0 <? length recs)%nat then _ else _) as [f ok] eqn:Ha. intros [= <- Hok]. destruct ok; [clear Hok|done].
  destruct (is_opts _ _ _ Hs) as (_ & HW & HC & _).
  assert (rec_sum c recs = msum (λ _ r, rec_get c r) (filter (λ p, (fr_Bucket p.2 < cutoff)%Z) (l_warm l))) as Hsum.
  { unfold msum, rec_sum, recs. rewrite <-list_fmap_compose. apply sumZ_perm. rewrite Hold. done. }
  assert (Forall (span_of L H) recs) as Hspan.
  { apply Forall_forall. intros r (p & -> & Hp)%list_elem_of_fmap. rewrite Hold in Hp. destruct p as [k p].
    apply elem_of_map_to_list, map_lookup_filter_Some in Hp as [Hp _]. destruct (is_warm _ _ _ Hs _ _ Hp) as (_ & _ & Hb).
    pose proof (Time.Truncate_bounds (fr_Bucket p) _ HC). unfold span_of. cbn [fr_Bucket set_bucket snd]. lia. }
  assert (cold_sum c f = (cold_sum c (l_cold l) + rec_sum c recs)%Z ∧
          ∀ d rows, f !! d = Some rows → Forall (λ p, day_of (pr_BucketUnixNano p) = d ∧ (L ≤ pr_BucketUnixNano p ≤ H)%Z) rows)
    as [Hcold Hfs].
  { destruct (0 <? length recs)%nat eqn:Hn.
    - split; [|eapply append_days_span; [exact Ha|done|apply Hs]]. rewrite (append_days_sum c _ _ _ _ _ Ha). f_equal.
      destruct (Hord (days_in recs)) as [Hnd Hel]. apply days_sum; [done|]. intros r Hr. apply Hel. unfold days_in.
      apply elem_of_list_to_set. by apply (list_elem_of_fmap_2 (day_of ∘ fr_Bucket)).
    - injection Ha as <-. bool_to_prop. destruct recs; [|cbn in Hn; lia]. split; [cbn; lia|apply Hs]. }
  split; [|split; [|split; [done|]]].
  - constructor; cbn [l_opts l_hot l_warm l_cold with_tiers]; [apply Hs..| |done].
    intros k r [Hk _]%map_lookup_filter_Some. by apply (is_warm _ _ _ Hs).
  - unfold ledger_sum. cbn [l_hot l_warm l_cold with_tiers]. rewrite Hcold, Hsum. unfold warm_sum.
    rewrite (msum_filter (λ _ r, rec_get c r) (λ p, (fr_Bucket p.2 < cutoff)%Z) (l_warm l)). eq64_lia.
  - cbn [l_warm with_tiers]. intros k r [_ Hk]%map_lookup_filter_Some. cbn [snd] in Hk. lia.
Qed.

(** *** A tick that reports no error *)

(** what the clock must satisfy for nothing to be old enough to be deleted *)
Definition clock_ok (o : Options) (L now : Time.time) : Prop :=
  (now - o_RetentionDays o * (24 * Time.Hour) ≤ L)%Z ∧ (o_WarmRetention o ≤ now < 2 ^ 63)%Z.

Definition orders_ok (x : tick_io) : Prop := (∀ rs, io_rows x rs ≡ₚ rs) ∧ days_order x.

Lemma day_mono (t u : Time.time) : (t ≤ u)%Z → (day_of t ≤ day_of u)%Z.
Proof. intros Ht. unfold day_of. by apply Z.div_le_mono. Qed.

Lemma prunes_spec (c : counter) (L H now : Time.time) (x : tick_io) (l l' : Ledger) :
  in_span L H l → clock_ok (l_opts l) L now → (∀ k r, l_warm l !! k = Some r → (now - Time.Hour ≤ fr_Bucket r)%Z) →
  prunes iter now x l = (l', None) → in_span L H l' ∧ ledger_sum c l' = ledger_sum c l ∧ l_opts l' = l_opts l.
Proof.
  intros Hs [Hret Hnow] Hnew. destruct (is_opts _ _ _ Hs) as (_ & _ & _ & HR).
  unfold prunes. destruct (io_prune_cold x); cbn [negb]; [|done].
  destruct (io_prune_warm x); cbn [negb]; [|done]. intros [= <-].
  assert (cold_prune (Time.Add now (- (o_RetentionDays (l_opts l) * (24 * Time.Hour)))) (l_cold l) ⊆ l_cold l ∧
          cold_sum c (cold_prune (Time.Add now (- (o_RetentionDays (l_opts l) * (24 * Time.Hour)))) (l_cold l)) =
          cold_sum c (l_cold l)) as [Hsub Hcold].
  { unfold cold_prune. split; [apply map_filter_subseteq|]. unfold cold_sum.
    rewrite (msum_filter _ (λ p, (p.1 < day_of (Time.Add now (- (o_RetentionDays (l_opts l) * (24 * Time.Hour)))))%Z) (l_cold l)).
    rewrite (msum_zero _ (filter (λ p, _ < _)%Z _)); [done|]. intros d rows [Hd Hlt]%map_lookup_filter_Some. cbn [fst] in Hlt.
    destruct rows as [|p rows]; [done|]. pose proof (is_cold _ _ _ Hs _ _ Hd) as Hp. apply Forall_cons in Hp as [[Hday Hp] _].
    pose proof (day_mono (Time.Add now (- (o_RetentionDays (l_opts l) * (24 * Time.Hour)))) (pr_BucketUnixNano p)
                  ltac:(unfold Time.Add; lia)). lia. }
  assert (delete_keys (older_than (u64 (Time.Add now (- o_WarmRetention (l_opts l)))) (iter (l_warm l))) (l_warm l) = l_warm l) as Hwarm.
  { destruct (older_drained (u64 (Time.Add now (- o_WarmRetention (l_opts l)))) (l_warm l) (span_warm_ok _ _ _ Hs)) as [-> _].
    apply map_filter_id. intros k r Hr. cbn. specialize (Hnew _ _ Hr). assert (0 < Time.Hour)%Z by done. unfold Time.Add. rewrite u64_small by lia. lia. }
  cbn [l_opts l_hot l_warm l_cold with_tiers]. rewrite Hwarm. split; [|split; [|done]].
  - constructor; cbn [l_opts l_hot l_warm l_cold with_tiers]; [apply Hs..|]. intros d rows Hd.
    apply (is_cold _ _ _ Hs). by eapply lookup_weaken.
  - unfold ledger_sum. cbn [l_hot l_warm l_cold with_tiers]. by rewrite Hcold.
Qed.

Lemma stamp_span (L H now : Time.time) (f r : bool) (l : Ledger) : in_span L H l → in_span L H (stamp_tick now f r l).
Proof. by intros []. Qed.

Lemma compacted_span (L H now : Time.time) (l : Ledger) : in_span L H l → in_span L H (compacted now l).
Proof. by intros []. Qed.

Lemma roll_down_spec (c : counter) (L H now : Time.time) (x : tick_io) (l l' : Ledger) :
  in_span L H l → clock_ok (l_opts l) L now → orders_ok x → roll_down iter now x l = (l', None) →
  in_span L H l' ∧ ledger_sum c l' ≡64 ledger_sum c l ∧ l_opts l' = l_opts l.
Proof.
  intros Hs Hc [_ Hd]. unfold roll_down. destruct (drain iter _ x l) as [l1 [e|]] eqn:H1; [done|].
  destruct (is_opts _ _ _ Hs) as (_ & _ & _ & HR). destruct Hc as [Hret Hnow].
  destruct (drain_spec c _ _ (Time.Add now (- Time.Hour)) _ _ _ Hs Hd ltac:(assert (0 < Time.Hour)%Z by done; unfold Time.Add; lia) H1)
    as (Hs1 & Hsum1 & Ho1 & Hnew).
  destruct (prunes iter now x l1) as [l2 [e|]] eqn:H2; [done|]. intros [= <-].
  destruct (prunes_spec c _ _ _ _ _ _ Hs1 ltac:(unfold clock_ok; by rewrite Ho1) Hnew H2) as (Hs2 & Hsum2 & Ho2).
  split; [by apply compacted_span|]. split; [|cbn; congruence].
  change (ledger_sum c (compacted now l2)) with (ledger_sum c l2). by rewrite Hsum2.
Qed.

Lemma tick_spec (c : counter) (L H now : Time.time) (x : tick_io) (l l' : Ledger) :
  in_span L H l → clock_ok (l_opts l) L now → orders_ok x → ledger_Tick iter now x l = (l', None) →
  in_span L H l' ∧ ledger_sum c l' ≡64 ledger_sum c l ∧ l_opts l' = l_opts l.
Proof.
  intros Hs Hc Hx. unfold ledger_Tick. destruct (move_down _ _ x l) as [l1 ok1] eqn:H1. destruct ok1; cbn [negb]; [|done].
  destruct (move_down_spec c _ _ _ _ _ _ _ Hs (proj1 Hx) H1) as (Hs1 & Hsum1 & Ho1).
  set (fl := (5 * Time.Minute <=? _)%Z). set (rl := (Time.Hour <=? _)%Z).
  assert (in_span L H (stamp_tick now fl rl l1)) as Hs1' by (by apply stamp_span).
  destruct (if fl then _ else _) as [l2 ok2] eqn:H2. destruct ok2; cbn [negb]; [|done].
  assert (in_span L H l2 ∧ ledger_sum c l2 ≡64 ledger_sum c l ∧ l_opts l2 = l_opts l) as (Hs2 & Hsum2 & Ho2).
  { destruct fl; [|injection H2 as <-; split_and!; [done|exact Hsum1|exact Ho1]].
    destruct (move_down_spec c _ _ _ _ _ _ _ Hs1' (proj1 Hx) H2) as (? & Hsum & Ho). split_and!; [done| |].
    - rewrite Hsum. exact Hsum1.
    - rewrite Ho. exact Ho1. }
  destruct rl; [|intros [= <-]; done]. intros H3.
  destruct (roll_down_spec c _ _ _ _ _ _ Hs2 ltac:(by rewrite Ho2) Hx H3) as (? & Hsum & Ho). split_and!; [done| |congruence].
  by rewrite Hsum.
Qed.

Lemma observe_spec (c : counter) (L H now : Time.time) (ls : gset Z) (ev : LedgerEvent) (l : Ledger) :
  in_span L H l →
  (dropped (l_opts l) ev = false →
     L + o_HotBucket (l_opts l) + o_WarmBucket (l_opts l) + o_ColdBucket (l_opts l) ≤ event_time now ev ≤ H)%Z →
  let l' := ledger_Observe now ls ev l in
  in_span L H l' ∧ ledger_sum c l' ≡64 (ledger_sum c l + if dropped (l_opts l) ev then 0 else amount c ev)%Z ∧
  l_opts l' = l_opts l.
Proof.
  intros Hs Ht. unfold ledger_Observe. destruct (dropped (l_opts l) ev); cbv zeta.
  - split_and!; [|change (ledger_sum c (counted true l)) with (ledger_sum c l); eq64_lia|done].
    destruct Hs. constructor; [done..|]. exact is_cold0.
  - specialize (Ht eq_refl). destruct (is_opts _ _ _ Hs) as (HB & _).
    pose proof (Time.Truncate_bounds (event_time now ev) _ HB) as Hb. split_and!; [|unfold ledger_sum|done].
    + destruct Hs. constructor; cbn [l_opts l_hot l_warm l_cold with_tiers counted]; [done..| |done|done].
      intros b m Hbm. unfold hot_observe in Hbm. apply lookup_insert_Some in Hbm as [[<- _]|[_ Hbm]]; [lia|eauto].
    + cbn [l_hot l_warm l_cold with_tiers counted]. rewrite hot_observe_sum. eq64_lia.
Qed.

Lemma opts_defaults_twice (o : Options) : opts_defaults (opts_defaults o) = opts_defaults o.
Proof.
  assert (∀ d z, (0 < d)%Z → positive_or d (positive_or d z) = positive_or d z) as Hd.
  { intros d z Hpos. unfold positive_or. destruct (Z.leb_spec z 0) as [Hz|Hz]; rewrite (proj2 (Z.leb_gt _ _)); [done..|lia]. }
  unfold opts_defaults. cbn. by rewrite !Hd.
Qed.

(** only a shutdown closes the ledger *)
Lemma move_down_open (cutoff : Time.time) (ok : bool) (x : tick_io) (l : Ledger) : l_closed (move_down cutoff ok x l).1 = l_closed l.
Proof. unfold move_down. by case_match. Qed.

Lemma roll_down_open (now : Time.time) (x : tick_io) (l : Ledger) : l_closed (roll_down iter now x l).1 = l_closed l.
Proof. unfold roll_down, drain, prunes. repeat (case_match; simplify_eq/=; try done). Qed.

Lemma tick_open (now : Time.time) (x : tick_io) (l : Ledger) : l_closed (ledger_Tick iter now x l).1 = l_closed l.
Proof.
  unfold ledger_Tick. pose proof (move_down_open (slide_cutoff now (l_opts l)) (io_put_evicted x) x l) as H1.
  destruct (move_down _ _ x l) as [l1 [|]]; cbn [negb fst] in *; [|done].
  set (fl := (5 * Time.Minute <=? _)%Z). set (rl := (Time.Hour <=? _)%Z). set (l1' := stamp_tick now fl rl l1).
  assert (l_closed l1' = l_closed l) as H1' by done.
  pose proof (move_down_open (Time.Add now (- o_HotBucket (l_opts l1'))) (io_put_flushed x) x l1') as H2.
  destruct fl; [destruct (move_down _ _ x l1') as [l2 [|]]|]; cbn [negb fst] in *; [|congruence|];
    destruct rl; rewrite ?roll_down_open; cbn [fst]; congruence.
Qed.

(** a shutdown that can write keeps what is in memory *)
Lemma restart_spec (c : counter) (L H : Time.time) (st : bool) (ord : list FlowRecord → list FlowRecord) (l : Ledger) :
  in_span L H l → l_closed l = false → opts_defaults (l_opts l) = l_opts l → (∀ rs, ord rs ≡ₚ rs) →
  let l' := reopen st (ledger_Close true ord l) in
  in_span L H l' ∧ ledger_sum c l' ≡64 ledger_sum c l ∧ l_opts l' = l_opts l.
Proof.
  intros Hs Hcl Ho Hord l'. subst l'. unfold ledger_Close, reopen. rewrite Hcl. cbn [l_opts]. rewrite Ho, andb_true_r.
  destruct (is_opts _ _ _ Hs) as (_ & HW & HC & _). destruct (is_ends _ _ _ Hs) as [HL HH].
  assert (ord (rows_of (l_hot l)) = [] ∨ (0 <? length (ord (rows_of (l_hot l))))%nat = true) as Hrem
    by (destruct (ord _); [by left|by right]).
  assert ((if (0 <? length (ord (rows_of (l_hot l))))%nat then putRecords (o_WarmBucket (l_opts l)) (ord (rows_of (l_hot l))) (l_warm l)
           else l_warm l) = putRecords (o_WarmBucket (l_opts l)) (ord (rows_of (l_hot l))) (l_warm l)) as ->.
  { destruct Hrem as [->| ->]; done. }
  split; [|split; [|done]].
  - constructor; cbn [l_opts l_hot l_warm l_cold]; [apply Hs|apply Hs|done| |apply Hs].
    apply putRecords_span; [done|lia|lia| |apply Hs]. apply Forall_forall. intros r Hr. rewrite Hord in Hr.
    apply rows_of_elem in Hr as (m & Hb & _). pose proof (is_hot _ _ _ Hs _ _ Hb). unfold span_of. lia.
  - unfold ledger_sum. cbn [l_hot l_warm l_cold]. rewrite putRecords_sum, (rec_sum_perm c _ _ (Hord _)), rec_sum_rows.
    change (hot_sum c ∅) with 0%Z. eq64_lia.
Qed.

(** *** A run of the ledger *)

Inductive ledger_op : Type :=
  | LObserve (now : Time.time) (listening : gset Z) (ev : LedgerEvent)
  | LTick (now : Time.time) (x : tick_io)
  | LRestart (ok state_ok : bool) (ord : list FlowRecord → list FlowRecord).

(** [None] once a tick has reported an error *)
Fixpoint ledger_run (ops : list ledger_op) (l : Ledger) : option Ledger :=
  match ops with
  | [] => Some l
  | LObserve now ls ev :: ops' => ledger_run ops' (ledger_Observe now ls ev l)
  | LTick now x :: ops' => match ledger_Tick iter now x l with (l', None) => ledger_run ops' l' | (_, Some _) => None end
  | LRestart ok st ord :: ops' => ledger_run ops' (reopen st (ledger_Close ok ord l))
  end.

(** what the recorded events of a run add up to *)
Fixpoint recorded (c : counter) (o : Options) (ops : list ledger_op) : Z :=
  match ops with
  | [] => 0
  | LObserve _ _ ev :: ops' => (if dropped o ev then 0 else amount c ev) + recorded c o ops'
  | _ :: ops' => recorded c o ops'
  end.

(** every recorded event lies in the span, no tick is late enough to delete and
    a shutdown can write *)
Definition op_ok (o : Options) (L H : Time.time) (op : ledger_op) : Prop :=
  match op with
  | LObserve now _ ev =>
      dropped o ev = false → (L + o_HotBucket o + o_WarmBucket o + o_ColdBucket o ≤ event_time now ev ≤ H)%Z
  | LTick now x => clock_ok o L now ∧ orders_ok x
  | LRestart ok _ ord => ok = true ∧ ∀ rs, ord rs ≡ₚ rs
  end.

Lemma run_spec (c : counter) (L H : Time.time) (o : Options) (ops : list ledger_op) (l l' : Ledger) :
  l_opts l = o → opts_defaults o = o → l_closed l = false → in_span L H l → Forall (op_ok o L H) ops → ledger_run ops l = Some l' →
  in_span L H l' ∧ ledger_sum c l' ≡64 (ledger_sum c l + recorded c o ops)%Z ∧ l_opts l' = o.
Proof.
  intros Ho Hdef Hcl Hs Hops. revert l Ho Hcl Hs. induction Hops as [|op ops Hop _ IH]; intros l Ho Hcl Hs; cbn [ledger_run recorded].
  - intros [= <-]. split_and!; [done|eq64_lia|done].
  - destruct op as [now ls ev|now x|ok st ord]; cbn [op_ok] in Hop.
    + intros Hr. destruct (observe_spec c L H now ls ev l Hs) as (Hs1 & Hsum1 & Ho1); [by rewrite Ho|].
      destruct (IH (ledger_Observe now ls ev l) ltac:(congruence) ltac:(by unfold ledger_Observe; case_match) Hs1 Hr)
        as (Hs2 & Hsum2 & Ho2).
      split_and!; [done| |done]. rewrite Hsum2, Hsum1, Ho. eq64_lia.
    + pose proof (tick_open now x l) as Hop1. destruct (ledger_Tick iter now x l) as [l1 [e|]] eqn:Ht; [done|].
      intros Hr. destruct Hop as [Hc Hx].
      destruct (tick_spec c L H now x l l1 Hs ltac:(by rewrite Ho) Hx Ht) as (Hs1 & Hsum1 & Ho1).
      destruct (IH l1 ltac:(congruence) ltac:(cbn in Hop1; congruence) Hs1 Hr) as (Hs2 & Hsum2 & Ho2). split_and!; [done| |done].
      rewrite Hsum2, Hsum1. eq64_lia.
    + destruct Hop as [-> Hord]. intros Hr.
      destruct (restart_spec c L H st ord l Hs Hcl ltac:(congruence) Hord) as (Hs1 & Hsum1 & Ho1).
      destruct (IH (reopen st (ledger_Close true ord l)) ltac:(congruence) eq_refl Hs1 Hr) as (Hs2 & Hsum2 & Ho2). split_and!; [done| |done].
      rewrite Hsum2, Hsum1. eq64_lia.
Qed.

Lemma new_span (o : Options) (L H : Time.time) : opts_ok (opts_defaults o) → (0 ≤ L ∧ H < 2 ^ 63)%Z → in_span L H (NewLedger o).
Proof. intros Ho HL. by constructor; [| |intros ? ? ?|intros ? ? ?|intros ? ? ?]. Qed.

Lemma defaults_ok (o : Options) : (Time.Hour ≤ o_WarmRetention (opts_defaults o))%Z → opts_ok (opts_defaults o).
Proof.
  intros HW. unfold opts_ok. cbn [opts_defaults o_HotBucket o_WarmBucket o_ColdBucket]. unfold positive_or.
  split_and!; [..|exact HW]; case_match; bool_to_prop; (done || lia).
Qed.

(** *** A window that reaches all tiers *)

Lemma any_matches (r : FlowRecord) : matchFilter r any_flow = true.
Proof. by unfold matchFilter. Qed.

Lemma QueryTimeline_sum (c : counter) (ord : list FlowRecord → list FlowRecord) (L H now start end_ : Time.time) (l : Ledger) :
  in_span L H l → (∀ rs, ord rs ≡ₚ rs) → (0 ≤ start ≤ L)%Z → (start < end_)%Z → (H ≤ end_ < 2 ^ 63)%Z →
  (start < now - o_HotWindow (l_opts l) < end_)%Z →
  rec_sum c (QueryTimeline iter ord now start end_ any_flow l) = ledger_sum c l.
Proof.
  intros Hs Hord Hst Hse He Hw. unfold QueryTimeline, Time.Before, Time.After, Time.Add.
  rewrite !(proj2 (Z.ltb_lt _ _)) by lia. cbn [negb]. rewrite (filter_all (λ r, matchFilter r any_flow = true))
    by (apply Forall_forall; intros; apply any_matches).
  rewrite (rec_sum_perm c _ _ (merge_sort_Permutation _ _)), !rec_sum_app. unfold ledger_sum.
  assert (rec_sum c (snapshotRange ord start end_ (l_hot l)) = hot_sum c (l_hot l)) as ->.
  { unfold snapshotRange. rewrite (rec_sum_perm c _ _ (Hord _)), rec_sum_rows. rewrite map_filter_id; [done|].
    intros b m Hb. pose proof (is_hot _ _ _ Hs _ _ Hb). destruct (is_opts _ _ _ Hs) as (? & ? & ? & _). cbn. lia. }
  assert (rec_sum c (warm_scan iter start end_ (l_warm l)) = warm_sum c (l_warm l)) as ->.
  { unfold warm_scan. rewrite !u64_small by lia. rewrite seek_filter by done.
    assert (Forall (λ p, (start ≤ key_ts p.1 ≤ end_)%Z) (iter (l_warm l))) as Hr.
    { apply Forall_forall. intros [k r] Hk%iter_elem. destruct (is_warm _ _ _ Hs _ _ Hk) as (_ & Hts & Hb). cbn [fst].
      destruct (is_opts _ _ _ Hs) as (? & ? & ? & _). lia. }
    rewrite filter_all by (eapply Forall_impl; [exact Hr|]; cbn; lia).
    rewrite scan_until_filter by (done || apply iter_long, (span_warm_ok _ _ _ Hs)).
    rewrite filter_all by (eapply Forall_impl; [exact Hr|]; cbn; lia).
    unfold warm_sum, msum, rec_sum. rewrite <-list_fmap_compose. apply sumZ_perm. by rewrite iter_all. }
  assert (rec_sum c (cold_scan start end_ (l_cold l)) = cold_sum c (l_cold l)) as ->; [|lia].
  unfold cold_scan, cold_sum. rewrite rec_sum_bind.
  rewrite (msum_keys _ _ (seqZ (day_of start) (day_of end_ - day_of start + 1))).
  - f_equal. apply list_fmap_ext. intros i d _. cbn [compose]. destruct (l_cold l !! d) as [rows|] eqn:Hd; [|done].
    cbn [default from_option]. rewrite filter_all; [done|]. apply Forall_fmap. eapply Forall_impl; [by apply (is_cold _ _ _ Hs)|].
    intros p [_ Hp]. cbn. lia.
  - apply NoDup_seqZ.
  - intros d rows Hd Hn. destruct rows as [|p rows]; [done|]. pose proof (is_cold _ _ _ Hs _ _ Hd) as Hp.
    apply Forall_cons in Hp as [[Hday Hp] _]. destruct Hn. apply elem_of_seqZ.
    pose proof (day_mono start (pr_BucketUnixNano p) ltac:(lia)). pose proof (day_mono (pr_BucketUnixNano p) end_ ltac:(lia)). lia.
Qed.

(** no flow is lost and none is counted twice.  Run the ledger over any
    events, ticks - each of which may flush, roll rows down to the files and
    prune - and restarts, in any order of the map ranges: as long as no tick
    reports an error, no shutdown fails to write and no tick is late enough for
    the retention to delete, a timeline that starts before the memory window and
    covers the events adds up, for each counter, to exactly what the recorded
    events added, modulo 2^64. *)
Lemma timeline_counts_every_flow (c : counter) (o : Options) (ops : list ledger_op) (L H : Time.time) (l : Ledger)
    (ord : list FlowRecord → list FlowRecord) (now start end_ : Time.time) :
  (Time.Hour ≤ o_WarmRetention (opts_defaults o))%Z → (0 ≤ L)%Z →
  Forall (op_ok (opts_defaults o) L H) ops → ledger_run ops (NewLedger o) = Some l →
  (∀ rs, ord rs ≡ₚ rs) → (0 ≤ start ≤ L)%Z → (H ≤ end_ < 2 ^ 63)%Z →
  (start < now - o_HotWindow (opts_defaults o) < end_)%Z →
  rec_sum c (QueryTimeline iter ord now start end_ any_flow l) ≡64 recorded c (opts_defaults o) ops.
Proof.
  intros HW HL Hops Hrun Hord Hst He Hw.
  destruct (run_spec c L H (opts_defaults o) ops (NewLedger o) l eq_refl (opts_defaults_twice o) eq_refl) as (Hs & Hsum & Ho);
    [|done|done|].
  { apply new_span; [by apply defaults_ok|lia]. }
  rewrite (QueryTimeline_sum c ord L H now start end_ l) by (done || lia || (rewrite Ho; lia)).
  rewrite Hsum. reflexivity.
Qed.

(** ** What the tiers lose *)

Lemma move_down_parts (cutoff : Time.time) (ok : bool) (x : tick_io) (l : Ledger) :
  let l' := (move_down cutoff ok x l).1 in
  l_hot l' = not_before cutoff (l_hot l) ∧ l_cold l' = l_cold l ∧ l_opts l' = l_opts l ∧ l_lastWarmFlush l' = l_lastWarmFlush l.
Proof. unfold move_down. by case_match. Qed.

Lemma roll_down_hot (now : Time.time) (x : tick_io) (l : Ledger) : l_hot (roll_down iter now x l).1 = l_hot l.
Proof. unfold roll_down, drain, prunes. repeat (case_match; simplify_eq/=; try done). Qed.

(** a timeline of the recent past is cut short.  Once the five-minute flush
    of a tick has run, a timeline whose start lies within the memory window - an
    hour by default - holds no row older than the last bucket before that tick,
    although the rows of the rest of the window are in the store and a timeline
    that starts earlier returns them. *)
Theorem recent_timeline_is_cut (now : Time.time) (x : tick_io) (l l' : Ledger)
    (ord : list FlowRecord → list FlowRecord) (qnow start end_ : Time.time) (f : FlowFilter) :
  (∀ rs, ord rs ≡ₚ rs) → (5 * Time.Minute ≤ Time.Sub now (l_lastWarmFlush l))%Z →
  ledger_Tick iter now x l = (l', None) → (qnow - o_HotWindow (l_opts l') ≤ start)%Z →
  Forall (λ r, (now - o_HotBucket (l_opts l) ≤ fr_Bucket r)%Z) (QueryTimeline iter ord qnow start end_ f l').
Proof.
  intros Hord Hflush Ht Hq. apply Forall_forall. intros r Hr.
  unfold QueryTimeline, Time.Before, Time.After, Time.Add in Hr. destruct (negb _) in Hr; [by apply elem_of_nil in Hr|].
  rewrite (proj2 (Z.ltb_ge start _)) in Hr by lia. rewrite app_nil_r, merge_sort_Permutation in Hr.
  apply list_elem_of_filter in Hr as [_ Hr]. destruct (_ <? _)%Z in Hr; [|by apply elem_of_nil in Hr].
  unfold snapshotRange in Hr. rewrite Hord in Hr. apply rows_of_elem in Hr as (m & Hm & _).
  apply map_lookup_filter_Some in Hm as [Hm _].
  assert (∃ h, l_hot l' = not_before (Time.Add now (- o_HotBucket (l_opts l))) h) as [h Hh].
  { unfold ledger_Tick in Ht. pose proof (move_down_parts (slide_cutoff now (l_opts l)) (io_put_evicted x) x l) as (_ & _ & Ho & Hlw).
    destruct (move_down _ (io_put_evicted x) x l) as [l1 ok1]. cbn [fst] in *. destruct ok1; cbn [negb] in Ht; [|done].
    rewrite Hlw, (proj2 (Z.leb_le _ _)) in Ht by done. set (l1' := stamp_tick _ _ _ _) in Ht.
    pose proof (move_down_parts (Time.Add now (- o_HotBucket (l_opts l1'))) (io_put_flushed x) x l1') as (Hh2 & _).
    assert (l_opts l1' = l_opts l) as Ho' by done. rewrite Ho' in Ht, Hh2.
    destruct (move_down _ (io_put_flushed x) x l1') as [l2 ok2]. cbn [fst] in *. destruct ok2; cbn [negb] in Ht; [|done].
    exists (l_hot l1'). destruct (Time.Hour <=? _)%Z; [|injection Ht as <-; done].
    pose proof (roll_down_hot now x l2) as Hr2. rewrite Ht in Hr2. cbn [fst] in Hr2. congruence. }
  rewrite Hh in Hm. apply map_lookup_filter_Some in Hm as [_ Hm]. cbn [fst] in Hm. unfold Time.Add in Hm. lia.
Qed.

(** the store keeps a program's two roles in one row.  Two flows that differ
    only in cgroup and role have the same store key, so the second is added to
    the row of the first: the merged row names the first's role and cgroup and
    no row names the second's. *)
Theorem store_merges_roles (B : Time.duration) (r1 r2 : FlowRecord) :
  let k1 := fr_Key r1 in
  let k2 := fr_Key r2 in
  Time.Truncate (fr_Bucket r1) B = Time.Truncate (fr_Bucket r2) B →
  (fk_Binary k1, fk_ExeSHA k1, fk_UID k1, fk_DestCIDR k1, fk_DestPort k1, fk_Protocol k1, fk_SNI k1, fk_DNSName k1, fk_DestClass k1) =
  (fk_Binary k2, fk_ExeSHA k2, fk_UID k2, fk_DestCIDR k2, fk_DestPort k2, fk_Protocol k2, fk_SNI k2, fk_DNSName k2, fk_DestClass k2) →
  ∃ key row, putRecords B [r1; r2] ∅ = {[key := row]} ∧ fr_Key row = k1 ∧
    ∀ c, rec_get c row ≡64 (rec_get c r1 + rec_get c r2)%Z.
Proof.
  intros k1 k2 Hb Hk. unfold putRecords, put_record. cbn [foldl]. rewrite lookup_empty.
  assert (encodeKey (Time.Truncate (fr_Bucket r2) B) k2 = encodeKey (Time.Truncate (fr_Bucket r1) B) k1) as He.
  { rewrite Hb. unfold encodeKey. injection Hk. clear. intros. congruence. }
  subst k1 k2. rewrite He, lookup_insert_eq, insert_insert_eq.
  eexists _, _. split; [done|]. split; [done|]. intros c. rewrite rec_get_bucket, get_merge. reflexivity.
Qed.

(** a failed write to the files loses an hour.  The rows to roll down are
    deleted from the store before they are written; when no file can be written
    the tick reports it, the files are as they were, no row older than an hour is
    left in the store, and the counters are short of exactly those rows. *)
Theorem failed_roll_loses_rows (c : counter) (L H now : Time.time) (x : tick_io) (l l' : Ledger) :
  in_span L H l → (Time.Hour ≤ now < 2 ^ 63)%Z → (∀ d, io_day_fails x d = true) →
  roll_down iter now x l = (l', Some ErrAppend) →
  l_cold l' = l_cold l ∧ (∀ k r, l_warm l' !! k = Some r → (now - Time.Hour ≤ fr_Bucket r)%Z) ∧
  ledger_sum c l = (ledger_sum c l' +
    warm_sum c (filter (λ p, (fr_Bucket p.2 < now - Time.Hour)%Z) (l_warm l)))%Z.
Proof.
  intros Hs Hnow Hfail. unfold roll_down.
  destruct (drain iter _ x l) as [l1 err1] eqn:Hd. destruct err1 as [e|].
  2:{ unfold prunes. repeat (case_match; simplify_eq/=; try done). }
  intros [= -> ->]. unfold drain in Hd. destruct (io_drain x); cbn [negb] in Hd; [|done].
  assert (0 < Time.Hour)%Z as HH by done. unfold Time.Add in Hd. rewrite u64_small in Hd by lia.
  destruct (older_drained (now + - Time.Hour) (l_warm l) (span_warm_ok _ _ _ Hs)) as [Hdel _]. rewrite Hdel in Hd.
  destruct (if (0 <? _)%nat then _ else _) as [f ok] eqn:Ha in Hd. destruct ok; [done|]. injection Hd as <-.
  assert (f = l_cold l) as ->.
  { destruct (0 <? _)%nat in Ha; [|done]. destruct (io_days x _) as [|d ds] in Ha; cbn in Ha; [done|]. rewrite Hfail in Ha. congruence. }
  cbn [l_cold l_warm l_hot with_tiers]. split; [done|]. split.
  - intros k r [_ Hk]%map_lookup_filter_Some. cbn [snd] in Hk. lia.
  - unfold ledger_sum. cbn [l_hot l_warm l_cold with_tiers]. unfold warm_sum.
    rewrite (msum_filter (λ _ r, rec_get c r) (λ p, (fr_Bucket p.2 < now - Time.Hour)%Z) (l_warm l)).
    replace (now + - Time.Hour)%Z with (now - Time.Hour)%Z by lia. lia.
Qed.

(** ** What a draft is made of *)

Definition address_text (s : string) : Prop := s = "" ∨ ∃ ip, s = IP_String ip.

Definition addressed (r : FlowRecord) : Prop := address_text (fk_DestCIDR (fr_Key r)).

(** what the answers to one event depend on *)
Definition o_config (o : Options) := (o_DestClassifier o, o_ExcludePrivate o, o_OwnIPs o).

(** a property of rows that everything the ledger does to a row keeps *)
Class RowKept (Q : FlowRecord → Prop) : Prop := {
  rk_bucket b r : Q r → Q (set_bucket b r);
  rk_merge r r' : Q r → Q r' → Q (mergeRecord r r');
  rk_cold r : Q r → Q (rowToRecord (recordToRow r)) }.

(** an event that is counted makes rows of the kind, and keeps them so *)
Definition fits (Q : FlowRecord → Prop) (o : Options) (listening : gset Z) (ev : LedgerEvent) : Prop :=
  dropped o ev = false → ∀ t b m,
    let row m := {| fr_Key := flow_key o listening ev; fr_Metrics := m; fr_Bucket := b |} in
    m = new_metrics t ∨ Q (row m) → Q (row (bump_metrics t ev m)).

#[export] Instance addressed_kept : RowKept addressed.
Proof. by constructor. Qed.

Lemma flowKeyForIP_text (ip : option (list Z)) (class : string) : address_text (flowKeyForIP ip class).
Proof. unfold flowKeyForIP, address_text. repeat case_match; eauto. Qed.

Lemma addressed_fits (o : Options) (ls : gset Z) (ev : LedgerEvent) : fits addressed o ls ev.
Proof. intros _ t b m row _. apply flowKeyForIP_text. Qed.

Lemma config_fits (Q : FlowRecord → Prop) (o o' : Options) (ls : gset Z) (ev : LedgerEvent) :
  o_config o = o_config o' → fits Q o ls ev → fits Q o' ls ev.
Proof.
  intros [= Hc Hp Hi] Hf Hd. assert (∀ x, class_of o x = class_of o' x) as Hclass by (intros x; unfold class_of; by rewrite Hc).
  assert (flow_key o' ls ev = flow_key o ls ev) as -> by (unfold flow_key; by rewrite Hclass).
  apply Hf. revert Hd. unfold dropped. by rewrite Hp, Hi, Hclass.
Qed.

(** one operation, whatever a tick reports *)
Definition ledger_exec (l : Ledger) (op : ledger_op) : Ledger :=
  match op with
  | LObserve now ls ev => ledger_Observe now ls ev l
  | LTick now x => (ledger_Tick iter now x l).1
  | LRestart ok st ord => reopen st (ledger_Close ok ord l)
  end.

Lemma run_exec (ops : list ledger_op) (l l' : Ledger) : ledger_run ops l = Some l' → l' = foldl ledger_exec l ops.
Proof.
  revert l. induction ops as [|op ops IH]; intros l; [by intros [= <-]|]. cbn [ledger_run foldl].
  destruct op as [now ls ev|now x|ok st ord]; cbn [ledger_exec]; try apply IH.
  destruct (ledger_Tick iter now x l) as [l1 [e|]]; [done|]. apply IH.
Qed.

Definition rows_permuted (op : ledger_op) : Prop := 
  match op with
  | LObserve _ _ _ => True
  | LTick _ x => ∀ rs, io_rows x rs ≡ₚ rs
  | LRestart _ _ ord => ∀ rs, ord rs ≡ₚ rs
  end.

Section rows.
Context (Q : FlowRecord → Prop) `{!RowKept Q} (o0 : Options).

(** every row of every tier has it *)
Record rows_hold (l : Ledger) : Prop := {
  rh_config : o_config (l_opts l) = o_config o0;
  rh_hot : Forall Q (rows_of (l_hot l));
  rh_warm k r : l_warm l !! k = Some r → Q r;
  rh_cold d rows : l_cold l !! d = Some rows → Forall (λ p, Q (rowToRecord p)) rows }.

Lemma rows_of_sub (rows rows' : hot_rows) :
  rows' ⊆ rows → Forall Q (rows_of rows) → Forall Q (rows_of rows').
Proof.
  intros Hsub. rewrite !Forall_forall. intros Hr r (m & Hm & Hk)%rows_of_elem. apply Hr, rows_of_elem.
  exists m. split; [by eapply lookup_weaken|done].
Qed.

Lemma observe_rows (now : Time.time) (ls : gset Z) (ev : LedgerEvent) (l : Ledger) :
  fits Q o0 ls ev → rows_hold l → rows_hold (ledger_Observe now ls ev l).
Proof.
  intros Hfit []. apply (config_fits Q o0 (l_opts l)) in Hfit; [|done]. unfold ledger_Observe.
  destruct (dropped _ _) eqn:Hdrop; constructor; cbn [l_opts l_hot l_warm l_cold with_tiers counted]; try done.
  apply Forall_forall. intros r (m & Hm & Hk)%rows_of_elem. rewrite Forall_forall in rh_hot0.
  unfold hot_observe in Hm. apply lookup_insert_Some in Hm as [[Hb <-]|[_ Hm]].
  - apply lookup_insert_Some in Hk as [[Hk Hr]|[_ Hk]].
    + destruct r as [k m' b]. cbn [fr_Key fr_Metrics fr_Bucket] in *. subst k m'. apply (Hfit Hdrop).
      destruct (default ∅ (l_hot l !! _) !! _) as [m'|] eqn:Hm; cbn; [right|by left].
      destruct (l_hot l !! _) as [mb|] eqn:Hmb; cbn in Hm; [|by rewrite lookup_empty in Hm].
      apply rh_hot0, rows_of_elem. exists mb. split; [cbn; congruence|done].
    + destruct (l_hot l !! _) as [m|] eqn:Hm; cbn in Hk; [|by rewrite lookup_empty in Hk].
      apply rh_hot0, rows_of_elem. exists m. split; [congruence|done].
  - apply rh_hot0, rows_of_elem. eauto.
Qed.

Lemma put_rows (B : Time.duration) (recs : list FlowRecord) (w : warm_rows) :
  Forall Q recs → (∀ k r, w !! k = Some r → Q r) → ∀ k r, putRecords B recs w !! k = Some r → Q r.
Proof.
  intros Hr. revert w. induction Hr as [|x recs Hx _ IH]; intros w Hw; [done|]. cbn. apply IH.
  intros k r Hk. unfold put_record in Hk. apply lookup_insert_Some in Hk as [[_ <-]|[_ Hk]]; [|by eapply Hw].
  apply rk_bucket. destruct (w !! _) as [p|] eqn:Hp; [|exact Hx]. apply rk_merge; [exact (Hw _ _ Hp)|exact Hx].
Qed.

Lemma move_down_rows (cutoff : Time.time) (ok : bool) (x : tick_io) (l : Ledger) :
  (∀ rs, io_rows x rs ≡ₚ rs) → rows_hold l → rows_hold (move_down cutoff ok x l).1.
Proof.
  intros Hord []. unfold move_down.
  assert (Forall Q (rows_of (not_before cutoff (l_hot l)))) as Hn by (eapply rows_of_sub; [apply map_filter_subseteq|done]).
  destruct (0 <? _)%nat; constructor; cbn [fst l_opts l_hot l_warm l_cold with_tiers]; try done.
  destruct ok; [|done]. apply put_rows; [|done]. rewrite Forall_forall. intros r Hr. rewrite Hord in Hr.
  revert r Hr. apply Forall_forall. eapply rows_of_sub; [apply map_filter_subseteq|done].
Qed.

Lemma restart_rows (ok st : bool) (ord : list FlowRecord → list FlowRecord) (l : Ledger) :
  (∀ rs, ord rs ≡ₚ rs) → rows_hold l → rows_hold (reopen st (ledger_Close ok ord l)).
Proof.
  intros Hord []. unfold ledger_Close, reopen. destruct (l_closed l); constructor; cbn [l_opts l_hot l_warm l_cold]; try done.
  destruct (_ && _); [|done]. apply put_rows; [|done]. by rewrite Hord.
Qed.

Lemma delete_keys_sub (ks : list (bytes * FlowRecord)) (w : warm_rows) : delete_keys ks w ⊆ w.
Proof.
  apply map_subseteq_spec. intros k r. rewrite delete_keys_lookup. by destruct (decide _).
Qed.

Lemma append_rows (days : list Z) (fails : Z → bool) (recs : list FlowRecord) (f : cold_rows) :
  Forall Q recs → (∀ d rows, f !! d = Some rows → Forall (λ p, Q (rowToRecord p)) rows) →
  ∀ d rows, (append_days days fails recs f).1 !! d = Some rows → Forall (λ p, Q (rowToRecord p)) rows.
Proof.
  intros Hr. revert f. induction days as [|d days IH]; intros f Hf; cbn [append_days]; [done|].
  destruct (fails d); [done|]. apply IH. intros d' rows Hd'. apply lookup_insert_Some in Hd' as [[_ <-]|[_ Hd']]; [|by eapply Hf].
  apply Forall_app. split; [destruct (f !! d) eqn:Hd; [by eapply Hf|constructor]|].
  apply Forall_fmap, Forall_filter. eapply Forall_impl; [exact Hr|]. apply rk_cold.
Qed.

Lemma older_than_elem (cn : Z) (ls : list (bytes * FlowRecord)) (p : bytes * FlowRecord) : p ∈ older_than cn ls → p ∈ ls.
Proof.
  induction ls as [|[k r] ls IH]; cbn [older_than]; [done|].
  repeat case_match; rewrite ?elem_of_cons, ?elem_of_nil; naive_solver.
Qed.

Lemma seek_elem (s : Z) (ls : list (bytes * FlowRecord)) (p : bytes * FlowRecord) : p ∈ seek s ls → p ∈ ls.
Proof. induction ls as [|[k r] ls IH]; cbn [seek]; [done|]. case_match; [|done]. rewrite elem_of_cons. auto. Qed.

Lemma scan_elem (e : Z) (ls : list (bytes * FlowRecord)) (r : FlowRecord) : r ∈ scan_until e ls → ∃ k, (k, r) ∈ ls.
Proof.
  induction ls as [|[k r'] ls IH]; cbn [scan_until]; [by intros ?%elem_of_nil|].
  repeat case_match; [|by intros ?%elem_of_nil|].
  - intros [k' Hk']%IH. exists k'. by right.
  - intros [->|[k' Hk']%IH]%elem_of_cons; [exists k; by left|exists k'; by right].
Qed.

Lemma drain_rows (cutoff : Time.time) (x : tick_io) (l : Ledger) : rows_hold l → rows_hold (drain iter cutoff x l).1.
Proof.
  intros []. unfold drain. destruct (io_drain x); [|by constructor]. cbn [negb].
  set (old := older_than _ _). set (recs := _ <$> old).
  assert (Forall Q recs) as Hrecs.
  { apply Forall_fmap, Forall_forall. intros [k r] Hp. apply rk_bucket. cbn [snd].
    apply older_than_elem, iter_elem in Hp.
    by apply (rh_warm0 k r). }
  assert (∀ k r, delete_keys old (l_warm l) !! k = Some r → Q r) as Hw.
  { intros k r Hk. apply (rh_warm0 k). by eapply lookup_weaken; [|apply delete_keys_sub]. }
  destruct (if (0 <? length recs)%nat then _ else _) as [f ok] eqn:Ha. cbn [fst].
  constructor; cbn [l_opts l_hot l_warm l_cold with_tiers]; [done..|].
  assert (f = (if (0 <? length recs)%nat then append_days (io_days x (days_in recs)) (io_day_fails x) recs (l_cold l)
               else (l_cold l, true)).1) as -> by by rewrite Ha.
  destruct (0 <? _)%nat; [by apply append_rows|done].
Qed.

Lemma prunes_rows (now : Time.time) (x : tick_io) (l : Ledger) : rows_hold l → rows_hold (prunes iter now x l).1.
Proof.
  intros []. unfold prunes. destruct (io_prune_cold x); [|by constructor]. cbn [negb].
  assert (∀ d rows, cold_prune (Time.Add now (- (o_RetentionDays (l_opts l) * (24 * Time.Hour)))) (l_cold l) !! d = Some rows →
            Forall (λ p, Q (rowToRecord p)) rows) as Hc.
  { intros d rows [Hd _]%map_lookup_filter_Some. by eapply rh_cold0. }
  destruct (io_prune_warm x); cbn [negb]; constructor; cbn [fst l_hot l_warm l_cold l_opts with_tiers]; try done.
  intros k r Hk. apply (rh_warm0 k). by eapply lookup_weaken; [|apply delete_keys_sub].
Qed.

Lemma same_tiers_rows (l l' : Ledger) :
  l_opts l = l_opts l' → l_hot l = l_hot l' → l_warm l = l_warm l' → l_cold l = l_cold l' → rows_hold l → rows_hold l'.
Proof. intros Ho Hh Hw Hc []. constructor; rewrite <-?Ho, <-?Hh, <-?Hw, <-?Hc; done. Qed.

Lemma tick_rows (now : Time.time) (x : tick_io) (l : Ledger) :
  (∀ rs, io_rows x rs ≡ₚ rs) → rows_hold l → rows_hold (ledger_Tick iter now x l).1.
Proof.
  intros Hord Hl. unfold ledger_Tick.
  pose proof (move_down_rows (slide_cutoff now (l_opts l)) (io_put_evicted x) x l Hord Hl) as H1.
  destruct (move_down _ _ x l) as [l1 ok1]. cbn [fst] in H1. destruct ok1; cbn [negb]; [|done].
  set (fl := (5 * Time.Minute <=? _)%Z). set (rl := (Time.Hour <=? _)%Z).
  assert (rows_hold (stamp_tick now fl rl l1)) as H1' by (by eapply same_tiers_rows; [..|exact H1]).
  assert (rows_hold (if fl then move_down (Time.Add now (- o_HotBucket (l_opts (stamp_tick now fl rl l1)))) (io_put_flushed x) x
                              (stamp_tick now fl rl l1) else (stamp_tick now fl rl l1, true)).1) as H2.
  { destruct fl; [by apply move_down_rows|done]. }
  destruct (if fl then _ else _) as [l2 ok2]. cbn [fst] in H2. destruct ok2; cbn [negb]; [|done]. destruct rl; [|done].
  unfold roll_down. pose proof (drain_rows (Time.Add now (- Time.Hour)) x l2 H2) as H3.
  destruct (drain iter _ x l2) as [l3 [e|]]; [done|]. cbn [fst] in H3. pose proof (prunes_rows now x l3 H3) as H4.
  destruct (prunes iter now x l3) as [l4 [e|]]; cbn [fst] in *; [done|]. by eapply same_tiers_rows; [..|exact H4].
Qed.

Definition op_fits (op : ledger_op) : Prop := match op with LObserve _ ls ev => fits Q o0 ls ev | _ => True end.

Lemma exec_rows (ops : list ledger_op) :
  Forall rows_permuted ops → Forall op_fits ops → rows_hold (foldl ledger_exec (NewLedger o0) ops).
Proof.
  intros Hops. assert (rows_hold (NewLedger o0)) as Hl.
  { constructor; [done|constructor|intros ? ? ?|intros ? ? ?]; done. }
  revert Hl. generalize (NewLedger o0). induction Hops as [|op ops Hop _ IH]; intros l Hl Hfit; [done|].
  apply Forall_cons in Hfit as [Hf Hfit]. cbn. apply IH; [|done].
  destruct op; [by apply observe_rows|by apply tick_rows|by apply restart_rows].
Qed.

Lemma timeline_rows (ord : list FlowRecord → list FlowRecord) (now start end_ : Time.time) (f : FlowFilter) (l : Ledger) :
  (∀ rs, ord rs ≡ₚ rs) → rows_hold l → Forall Q (QueryTimeline iter ord now start end_ f l).
Proof.
  intros Hord []. unfold QueryTimeline. destruct (negb _); [constructor|]. rewrite merge_sort_Permutation.
  apply Forall_filter. apply Forall_app. split.
  - destruct (Time.After _ _); [|constructor]. unfold snapshotRange. rewrite Hord.
    eapply rows_of_sub; [apply map_filter_subseteq|done].
  - destruct (Time.Before _ _); [|constructor]. apply Forall_app. split.
    + unfold warm_scan. apply Forall_forall. intros r Hr.
      destruct (scan_elem _ _ _ Hr) as (k & Hk). apply seek_elem, iter_elem in Hk.
      by apply (rh_warm0 k).
    + unfold cold_scan. apply Forall_forall. intros r (d & Hr & _)%list_elem_of_bind. apply list_elem_of_filter in Hr as [_ Hr].
      destruct (l_cold l !! d) as [rows|] eqn:Hd; cbn in Hr; [|by apply elem_of_nil in Hr].
      apply list_elem_of_fmap in Hr as (p & -> & Hp). specialize (rh_cold0 _ _ Hd). rewrite Forall_forall in rh_cold0.
      exact (rh_cold0 p Hp).
Qed.

End rows.

Lemma validate_rules_addresses (w : string) (i : nat) (rs : list Rule) (r : Rule) :
  validate_rules w i rs = None → r ∈ rs → ru_DestCIDR r = "" ∨ ParseCIDR (ru_DestCIDR r) ≠ None.
Proof.
  revert i. induction rs as [|r' rs IH]; intros i; cbn [validate_rules]; [by intros _ ?%elem_of_nil|].
  destruct (validate_rule w i r') eqn:Hv; [done|]. intros Hn [->|Hr]%elem_of_cons; [|by apply (IH (S i))].
  unfold validate_rule in Hv. destruct (_ && _) eqn:Hb in Hv; [done|]. apply andb_false_iff in Hb as [Hb|Hb].
  - left. by apply unset.
  - right. by apply bool_decide_eq_false in Hb.
Qed.

(** a draft holds a rule for the address of every flow *)
Lemma draft_rule (order : list ProposalRule → list ProposalRule) (binary : string) (flows : list LedgerFlow) (st en : Time.time)
    (f : LedgerFlow) :
  (∀ l, order l ≡ₚ l) → f ∈ flows →
  ∃ r, r ∈ p_Allow (ToPolicy (proposeOne order binary flows st en)) ∧ ru_DestCIDR r = f_DestCIDR f.
Proof.
  intros Ho Hf. pose proof (aggregate_spec flows (key_of f)) as Hs.
  destruct (aggregate flows !! key_of f) as [a|] eqn:Ha; [|by destruct (Hs f Hf)].
  exists (allow_rule (proposal_rule (key_of f, a))). split; [|done].
  unfold proposeOne. rewrite bool_decide_eq_false_2 by (intros ->; by apply elem_of_nil in Hf).
  destruct (mode_note _ _). cbn [ToPolicy p_Allow po_Allow]. apply list_elem_of_fmap_2. rewrite Ho.
  apply list_elem_of_fmap_2. by apply elem_of_map_to_list.
Qed.

(** C32: no draft drawn from the ledger can be signed.  The ledger writes plain
    addresses into the field the policy reads as a prefix, so after any events
    and ticks, failed ones included, a proposal for any binary whose flows name
    an address at all is refused by the validation that signing starts with. *)
Theorem ledger_drafts_cannot_be_signed
    (EdSign : list Z → string → list Z) (b64enc : list Z → string) (YamlPolicy : Policy → option string)
    (o : Options) (ops : list ledger_op) (ord : list FlowRecord → list FlowRecord) (now start end_ : Time.time)
    (order : list ProposalRule → list ProposalRule) (binary signer : string) (priv : list Z) (t : Time.time) :
  Forall rows_permuted ops → (∀ rs, ord rs ≡ₚ rs) → (∀ rs, order rs ≡ₚ rs) → length priv = 64 → signer ≠ "" →
  let flows := workflow_flows iter ord now binary start end_ (foldl ledger_exec (NewLedger o) ops) in
  (∃ f, f ∈ flows ∧ f_DestCIDR f ≠ "") →
  ∃ e, (Sign EdSign b64enc YamlPolicy (ToPolicy (proposeOne order binary flows start end_)) signer priv t).2 = Err (ErrValidate e).
Proof.
  intros Hops Hord Ho Hp Hsig flows (f & Hf & Hne). set (draft := ToPolicy _). unfold Sign. rewrite Hp. cbn [Nat.eqb negb].
  unfold Str.empty at 1. rewrite bool_decide_eq_false_2 by done.
  destruct (Validate (sign_defaults signer t draft)) as [e|] eqn:Hv; [by exists e|exfalso].
  destruct (draft_rule order binary flows start end_ f Ho Hf) as (r & Hr & Hc). fold draft in Hr.
  assert (validate_rules "allow" 0 (p_Allow draft) = None) as Hrules.
  { unfold Validate in Hv. cbn [sign_defaults p_Allow] in Hv. by repeat case_match. }
  destruct (validate_rules_addresses _ _ _ _ Hrules Hr) as [He|He]; rewrite Hc in He; [done|].
  assert (Forall (op_fits addressed o) ops) as Hfit by (apply Forall_forall; intros [] _; [apply addressed_fits|done..]).
  pose proof (timeline_rows addressed o ord now start end_ (binary_filter binary) _ Hord (exec_rows addressed o ops Hops Hfit)) as Ha.
  unfold flows, workflow_flows in Hf. apply list_elem_of_fmap in Hf as (rec & -> & Hrec). rewrite Forall_forall in Ha.
  destruct (Ha rec Hrec) as [Ht|(ip & Ht)]; cbn [ledger_flow f_DestCIDR] in *; [done|]. rewrite Ht in He. apply He, ParseCIDR_address.
Qed.

End tiers.

(** ** The theorems at work *)

Module Demo.
Definition by_ts (p q : bytes * FlowRecord) : Prop := (key_ts p.1 ≤ key_ts q.1)%Z.
#[local] Instance by_ts_dec : RelDecision by_ts.
Proof. intros p q. unfold by_ts. apply _. Defined.
#[local] Instance by_ts_total : Total by_ts.
Proof. intros p q. unfold by_ts. lia. Qed.
#[local] Instance by_ts_trans : Transitive by_ts.
Proof. intros p q r. unfold by_ts. lia. Qed.

Definition iter (m : gmap (list Z) FlowRecord) : list (list Z * FlowRecord) := merge_sort by_ts (map_to_list m).

Lemma iter_all (m : gmap (list Z) FlowRecord) : iter m ≡ₚ map_to_list m.
Proof. apply merge_sort_Permutation. Qed.

Lemma iter_sorted (m : gmap (list Z) FlowRecord) : StronglySorted (λ p q, (key_ts p.1 ≤ key_ts q.1)%Z) (iter m).
Proof. apply (StronglySorted_merge_sort by_ts). Qed.

Definition opts : Options := {|
  o_RetentionDays := 0; o_HotWindow := 0; o_HotBucket := 0; o_WarmRetention := 0; o_WarmBucket := 0; o_ColdBucket := 0;
  o_DestClassifier := None; o_ExcludePrivate := false; o_OwnIPs := ∅ |}.

Definition base : Time.time := (1700000000 * Time.Second)%Z.

(** a connect of curl, at a second *)
Definition connect (s : Z) (cgroup : Z) (role : string) : LedgerEvent := {|
  le_Time := base + s * Time.Second; le_Binary := "curl"; le_ExeSHA := ""; le_UID := 33; le_CGroupID := cgroup;
  le_DestIP := Some (v4 93 184 216 34); le_DestPort := 443; le_Protocol := ""; le_SNI := ""; le_DNSName := ""; le_BytesOut := 0;
  le_BytesIn := 0; le_Connect := true; le_Deny := false; le_Verify := false; le_DestClass := "raw"; le_Role := role;
  le_PID := 4242; le_PPID := 1; le_Comm := "curl"; le_ContainerID := ""; le_ContainerClass := ""; le_Unit := "";
  le_ServiceRole := ""; le_ParentComm := ""; le_L7Protocol := ""; le_App := ""; le_SrcPort := 51000 |}.

Definition io : tick_io := {|
  io_put_evicted := true; io_put_flushed := true; io_drain := true; io_day_fails := λ _, false; io_prune_cold := true;
  io_prune_warm := true; io_rows := λ l, l; io_days := λ s, elements s |}.

Definition disk_full : tick_io := {|
  io_put_evicted := true; io_put_flushed := true; io_drain := true; io_day_fails := λ _, true; io_prune_cold := true;
  io_prune_warm := true; io_rows := λ l, l; io_days := λ s, elements s |}.

Definition tick (s : Z) : ledger_op := LTick (base + s * Time.Second) io.

Definition ops : list ledger_op :=
  [LObserve 0 ∅ (connect 0 7 "client"); LObserve 0 ∅ (connect 1 7 "client"); tick 120; LObserve 0 ∅ (connect 300 7 "server");
   tick 500; LObserve 0 ∅ (connect 7000 7 "client");
   LRestart true true (λ l, l); tick 7200].

Definition final : Ledger := default (NewLedger opts) (ledger_run iter ops (NewLedger opts)).
Definition flow (cgroup : Z) (role : string) : FlowRecord := {|
  fr_Key := flow_key (opts_defaults opts) ∅ (connect 0 cgroup role);
  fr_Metrics := bump_metrics base (connect 0 cgroup role) (new_metrics base); fr_Bucket := base |}.
End Demo.

Lemma Demo_orders : orders_ok Demo.io.
Proof.
  split; [done|]. intros s. split; [apply NoDup_elements|intros d; apply elem_of_elements].
Qed.

Lemma timeline_counts_every_flow_witness :
  (hot_rowsCount (l_hot Demo.final), Z.of_nat (size (l_warm Demo.final)), Z.of_nat (size (l_cold Demo.final))) = (0, 1, 1)%Z ∧
  u64 (rec_sum CConnects (QueryTimeline Demo.iter (λ l, l) (Demo.base + 7300 * Time.Second) (Demo.base - 8000 * Time.Second)
                            (Demo.base + 7300 * Time.Second) any_flow Demo.final)) = 4%Z.
Proof.
  split; [vm_compute; reflexivity|].
  refine (proj1 (eq64_u64 _ _) (timeline_counts_every_flow Demo.iter Demo.iter_all Demo.iter_sorted CConnects Demo.opts Demo.ops
    (Demo.base - 7000 * Time.Second) (Demo.base + 7200 * Time.Second) Demo.final (λ l, l) (Demo.base + 7300 * Time.Second)
    (Demo.base - 8000 * Time.Second) (Demo.base + 7300 * Time.Second) _ _ _ _ _ _ _ _)).
  - vm_compute. discriminate.
  - vm_compute. discriminate.
  - repeat (apply Forall_cons_2); [..|apply Forall_nil_2];
      first [intros _; split; vm_compute; discriminate
            |split; [split; [vm_compute; discriminate|split; [vm_compute; discriminate|vm_compute; reflexivity]]|exact Demo_orders]
            |split; reflexivity].
  - vm_compute. reflexivity.
  - reflexivity.
  - split; vm_compute; discriminate.
  - split; [vm_compute; discriminate|vm_compute; reflexivity].
  - split; vm_compute; reflexivity.
Defined.

(** two connects in memory, then the flush of a tick two minutes later *)
Lemma recent_timeline_is_cut_witness :
  let l := foldl (ledger_exec Demo.iter) (NewLedger Demo.opts) (take 2 Demo.ops) in
  let now := (Demo.base + 120 * Time.Second)%Z in
  let l' := (ledger_Tick Demo.iter now Demo.io l).1 in
  let start := (Demo.base - 600 * Time.Second)%Z in
  QueryTimeline Demo.iter (λ l, l) now start now any_flow l' = [] ∧
  Forall (λ r, (now - o_HotBucket (l_opts l) ≤ fr_Bucket r)%Z) (QueryTimeline Demo.iter (λ l, l) now start now any_flow l').
Proof.
  intros l now l' start. split; [vm_compute; reflexivity|].
  refine (recent_timeline_is_cut Demo.iter now Demo.io l l' (λ l, l) now start now any_flow (λ l, reflexivity l) _ _ _).
  - vm_compute. discriminate.
  - rewrite (surjective_pairing (ledger_Tick Demo.iter now Demo.io l)). apply pair_equal_spec. split; [reflexivity|vm_compute; reflexivity].
  - vm_compute. discriminate.
Defined.

Lemma store_merges_roles_witness :
  let r1 := Demo.flow 7 "client" in
  let r2 := Demo.flow 9 "server" in
  fr_Key r1 ≠ fr_Key r2 ∧
  ∃ key row, putRecords (5 * Time.Minute) [r1; r2] ∅ = {[key := row]} ∧ fr_Key row = fr_Key r1 ∧
    ∀ c, rec_get c row ≡64 (rec_get c r1 + rec_get c r2)%Z.
Proof.
  intros r1 r2. split; [discriminate|]. refine (store_merges_roles (5 * Time.Minute) r1 r2 _ _); reflexivity.
Defined.

Lemma failed_roll_loses_rows_witness :
  let l := default (NewLedger Demo.opts) (ledger_run Demo.iter (take 5 Demo.ops) (NewLedger Demo.opts)) in
  let now := (Demo.base + 7200 * Time.Second)%Z in
  let l' := (roll_down Demo.iter now Demo.disk_full l).1 in
  (ledger_sum CConnects l, ledger_sum CConnects l') = (3, 0)%Z ∧
  l_cold l' = l_cold l ∧ (∀ k r, l_warm l' !! k = Some r → (now - Time.Hour ≤ fr_Bucket r)%Z) ∧
  ledger_sum CConnects l = (ledger_sum CConnects l' +
    warm_sum CConnects (filter (λ p, (fr_Bucket p.2 < now - Time.Hour)%Z) (l_warm l)))%Z.
Proof.
  intros l now l'. split; [vm_compute; reflexivity|].
  assert (Forall (op_ok (opts_defaults Demo.opts) (Demo.base - 7000 * Time.Second) (Demo.base + 7200 * Time.Second)) (take 5 Demo.ops)) as Hops.
  { repeat (apply Forall_cons_2); [..|apply Forall_nil_2];
      first [intros _; split; vm_compute; discriminate
            |split; [split; [vm_compute; discriminate|split; [vm_compute; discriminate|vm_compute; reflexivity]]|exact Demo_orders]]. }
  destruct (run_spec Demo.iter Demo.iter_all Demo.iter_sorted CConnects (Demo.base - 7000 * Time.Second) (Demo.base + 7200 * Time.Second)
    (opts_defaults Demo.opts) (take 5 Demo.ops) (NewLedger Demo.opts) l eq_refl eq_refl eq_refl) as (Hs & _).
  - apply new_span; [apply defaults_ok; vm_compute; discriminate|split; [vm_compute; discriminate|vm_compute; reflexivity]].
  - exact Hops.
  - vm_compute. reflexivity.
  - refine (failed_roll_loses_rows Demo.iter Demo.iter_all Demo.iter_sorted CConnects (Demo.base - 7000 * Time.Second)
      (Demo.base + 7200 * Time.Second) now Demo.disk_full l l' Hs _ (λ _, eq_refl) _).
    + split; [vm_compute; discriminate|vm_compute; reflexivity].
    + rewrite (surjective_pairing (roll_down Demo.iter now Demo.disk_full l)). apply pair_equal_spec. split; [reflexivity|vm_compute; reflexivity].
Defined.

Lemma ledger_drafts_cannot_be_signed_witness :
  let l := foldl (ledger_exec Demo.iter) (NewLedger Demo.opts) Demo.ops in
  let start := (Demo.base - 8000 * Time.Second)%Z in
  let end_ := (Demo.base + 7300 * Time.Second)%Z in
  let flows := workflow_flows Demo.iter (λ l, l) end_ "curl" start end_ l in
  po_SuggestedMode (proposeOne (λ l, l) "curl" flows start end_) = ModeDenyDefault ∧
  ∃ e, (Sign EgressPolicy.Demo.sign EgressPolicy.Demo.enc64 EgressPolicy.Demo.yaml
          (ToPolicy (proposeOne (λ l, l) "curl" flows start end_)) "op" EgressPolicy.Demo.priv 5).2 = Err (ErrValidate e).
Proof.
  intros l start end_ flows. split; [vm_compute; reflexivity|].
  refine (ledger_drafts_cannot_be_signed Demo.iter Demo.iter_all EgressPolicy.Demo.sign EgressPolicy.Demo.enc64 EgressPolicy.Demo.yaml
    Demo.opts Demo.ops (λ l, l) end_ start end_ (λ l, l) "curl" "op" EgressPolicy.Demo.priv 5 _ (λ l, reflexivity l)
    (λ l, reflexivity l) eq_refl _ _).
  - repeat (apply Forall_cons_2; [first [exact I|intros rs; reflexivity]|]). apply Forall_nil_2.
  - discriminate.
  - exists {| f_Binary := "curl"; f_DestCIDR := "93.184.216.34"; f_DestPort := 443; f_Protocol := ""; f_SNI := ""; f_DNSName := "";
              f_DestClass := "raw"; f_BytesOut := 0; f_BytesIn := 0; f_Connects := 1;
              f_FirstSeen := Demo.base + 7000 * Time.Second; f_LastSeen := Demo.base + 7000 * Time.Second |}.
    split; [|discriminate]. vm_compute. repeat (first [left|right]).
Defined.
