(* ===== verification/RecentRing.v ===== *)
(** * The ring of recent process events (src/pkg/egressledger/recent.go)

    A bounded first-in first-out buffer of (process, destination) observations
    with its read-back and its file.  A gob decodes to what was encoded. *)

From S2P Require Import Prelude GoStd Bytes NetIP EgressLedger.

Record ProcEvent := {
  pe_Time : Time.time; pe_Binary : string; pe_Comm : string; pe_PID : Z; pe_PPID : Z; pe_UID : Z; pe_DestIP : string;
  pe_DestPort : Z; pe_SrcPort : Z; pe_Role : string; pe_BytesOut : Z; pe_BytesIn : Z; pe_SNI : string; pe_ContainerID : string;
  pe_ContainerClass : string; pe_Unit : string; pe_ServiceRole : string; pe_ParentComm : string; pe_L7Protocol : string }.

(** the zero value *)
Definition no_event : ProcEvent := {|
  pe_Time := Time.zero; pe_Binary := ""; pe_Comm := ""; pe_PID := 0; pe_PPID := 0; pe_UID := 0; pe_DestIP := ""; pe_DestPort := 0;
  pe_SrcPort := 0; pe_Role := ""; pe_BytesOut := 0; pe_BytesIn := 0; pe_SNI := ""; pe_ContainerID := ""; pe_ContainerClass := "";
  pe_Unit := ""; pe_ServiceRole := ""; pe_ParentComm := ""; pe_L7Protocol := "" |}.

Record recentRing := { rr_buf : list ProcEvent; rr_cap : nat; rr_head : nat; rr_n : nat }.

Definition newRecentRing (cap : Z) : recentRing :=
  let cap := if (cap <=? 0)%Z then 65536 else Z.to_nat cap in
  {| rr_buf := replicate cap no_event; rr_cap := cap; rr_head := 0; rr_n := 0 |}.

Definition ring_push (r : recentRing) (e : ProcEvent) : recentRing := {|
  rr_buf := <[rr_head r := e]> (rr_buf r); rr_cap := rr_cap r; rr_head := (rr_head r + 1) mod rr_cap r;
  rr_n := if (rr_n r <? rr_cap r)%nat then S (rr_n r) else rr_n r |}.

(** the place of the [i]-th newest event *)
Definition ring_at (r : recentRing) (i : nat) : ProcEvent :=
  default no_event (rr_buf r !! ((rr_head r + rr_cap r - 1 - i) mod rr_cap r)).

Definition wanted (since : Time.time) (dstSet : option (gset string)) (binary : string) (e : ProcEvent) : bool :=
  negb (Time.Before (pe_Time e) since) &&
  match dstSet with Some s => bool_decide (pe_DestIP e ∈ s) | None => true end &&
  (Str.empty binary || bool_decide (pe_Binary e = binary)).

(** the loop over the indices from [i], [out] collected so far *)
Fixpoint query_loop (r : recentRing) (want : ProcEvent → bool) (limit : Z) (is_ : list nat) (out : list ProcEvent) : list ProcEvent :=
  match is_ with
  | [] => out
  | i :: is' =>
      let e := ring_at r i in
      if want e then
        let out := out ++ [e] in
        if (0 <? limit)%Z && (limit <=? Z.of_nat (length out))%Z then out else query_loop r want limit is' out
      else query_loop r want limit is' out
  end.

Definition ring_query (since : Time.time) (dstSet : option (gset string)) (binary : string) (limit : Z) (r : recentRing) :
    list ProcEvent := query_loop r (wanted since dstSet binary) limit (seq 0 (rr_n r)) [].

Definition ring_snapshot (r : recentRing) : list ProcEvent := ring_at r <$> seq 0 (rr_n r).

Definition ring_restore (evs : list ProcEvent) (r : recentRing) : recentRing :=
  foldl ring_push {| rr_buf := replicate (rr_cap r) no_event; rr_cap := rr_cap r; rr_head := 0; rr_n := 0 |} evs.

Definition ipString (ip : option (list Z)) : string := match ip with Some a => IP_String a | None => "" end.

Definition proc_event (ev : LedgerEvent) (role : string) (t : Time.time) : ProcEvent := {|
  pe_Time := t; pe_Binary := le_Binary ev; pe_Comm := le_Comm ev; pe_PID := le_PID ev; pe_PPID := le_PPID ev; pe_UID := le_UID ev;
  pe_DestIP := ipString (le_DestIP ev); pe_DestPort := le_DestPort ev; pe_SrcPort := le_SrcPort ev; pe_Role := role;
  pe_BytesOut := le_BytesOut ev; pe_BytesIn := le_BytesIn ev; pe_SNI := le_SNI ev; pe_ContainerID := le_ContainerID ev;
  pe_ContainerClass := le_ContainerClass ev; pe_Unit := le_Unit ev; pe_ServiceRole := le_ServiceRole ev;
  pe_ParentComm := le_ParentComm ev; pe_L7Protocol := le_L7Protocol ev |}.

(** what [Observe] does to the ring beside the ledger *)
Definition observeRecent (o : Options) (now : Time.time) (listening : gset Z) (ev : LedgerEvent) (r : recentRing) : recentRing :=
  if dropped o ev || (le_PID ev =? 0)%Z then r
  else ring_push r (proc_event ev (fk_Role (flow_key o listening ev)) (event_time now ev)).

(** the file: oldest first *)
Definition flushRecent (r : recentRing) : list ProcEvent := reverse (ring_snapshot r).

Definition loadRecent (maxAge : Time.duration) (now : Time.time) (file : list ProcEvent) (r : recentRing) : recentRing :=
  let maxAge := if (maxAge <=? 0)%Z then (24 * Time.Hour)%Z else maxAge in
  ring_restore (filter (λ e, Time.After (pe_Time e) (Time.Add now (- maxAge)) = true) file) r.

(** ** What the ring holds *)

Record holds (r : recentRing) (es : list ProcEvent) : Prop := {
  h_cap : 0 < rr_cap r; h_len : length (rr_buf r) = rr_cap r; h_head : rr_head r < rr_cap r;
  h_n : rr_n r = min (rr_cap r) (length es);
  h_buf : unrolled (rr_head r) (rr_buf r) = last_n (rr_cap r) (replicate (rr_cap r) no_event ++ es) }.

Lemma holds_new (cap : nat) : 0 < cap → holds {| rr_buf := replicate cap no_event; rr_cap := cap; rr_head := 0; rr_n := 0 |} [].
Proof.
  intros Hc. constructor; cbn [rr_buf rr_cap rr_head rr_n]; [done|apply length_replicate|done|cbn; lia|].
  unfold unrolled. cbn [drop take]. rewrite !app_nil_r, last_n_all; [done|]. by rewrite length_replicate.
Qed.

Lemma holds_push (r : recentRing) (es : list ProcEvent) (e : ProcEvent) : holds r es → holds (ring_push r e) (es ++ [e]).
Proof.
  intros []. constructor; cbn [ring_push rr_buf rr_cap rr_head rr_n]; [done|by rewrite length_insert|by apply Nat.mod_upper_bound; lia|..].
  - rewrite length_app, h_n0. cbn [length]. case_match; bool_to_prop; lia.
  - rewrite (unrolled_write (rr_cap r)) by done. rewrite h_buf0, app_assoc. apply last_n_snoc; [done|].
    rewrite length_app, length_replicate. lia.
Qed.

Lemma holds_pushes (r : recentRing) (es es' : list ProcEvent) : holds r es → holds (foldl ring_push r es') (es ++ es').
Proof.
  revert r es. induction es' as [|e es' IH]; intros r es Hr; [by rewrite app_nil_r|]. cbn [foldl].
  replace (es ++ e :: es') with ((es ++ [e]) ++ es') by (by rewrite <-app_assoc). apply IH. by apply holds_push.
Qed.

Lemma unrolled_lookup {A} (n idx j : nat) (l : list A) :
  length l = n → idx < n → j < n → unrolled idx l !! j = l !! ((idx + j) mod n).
Proof.
  intros Hl Hi Hj. unfold unrolled. destruct (decide (idx + j < n)).
  - rewrite lookup_app_l by (rewrite length_drop; lia). by rewrite lookup_drop, Nat.mod_small by lia.
  - rewrite lookup_app_r by (rewrite length_drop; lia). rewrite length_drop, lookup_take_lt by lia.
    rewrite (Nat.mod_eq (idx + j)) by lia. replace ((idx + j) / n) with 1; [f_equal; lia|].
    apply (Nat.div_unique (idx + j) n 1 (idx + j - n)); lia.
Qed.

(** the events kept are the last ones pushed, newest first *)
Lemma ring_at_spec (r : recentRing) (es : list ProcEvent) (i : nat) :
  holds r es → i < rr_n r → reverse es !! i = Some (ring_at r i).
Proof.
  intros [] Hi. rewrite h_n0 in Hi. unfold ring_at.
  replace (rr_head r + rr_cap r - 1 - i) with (rr_head r + (rr_cap r - 1 - i)) by lia.
  rewrite <-(unrolled_lookup (rr_cap r)) by (done || lia). rewrite h_buf0. unfold last_n.
  rewrite lookup_drop, length_app, length_replicate, lookup_app_r by (rewrite length_replicate; lia).
  rewrite length_replicate, reverse_lookup by lia.
  replace (rr_cap r + length es - rr_cap r + (rr_cap r - 1 - i) - rr_cap r) with (length es - S i) by lia.
  destruct (lookup_lt_is_Some_2 es (length es - S i) ltac:(lia)) as [e He]. by rewrite He.
Qed.

Lemma snapshot_spec (r : recentRing) (es : list ProcEvent) : holds r es → ring_snapshot r = take (rr_cap r) (reverse es).
Proof.
  intros Hh. pose proof (h_n _ _ Hh) as Hn. apply list_eq. intros i. unfold ring_snapshot. rewrite list_lookup_fmap.
  destruct (decide (i < rr_n r)) as [Hi|Hi].
  - rewrite lookup_seq_lt by done. cbn. rewrite lookup_take_lt by lia. symmetry. by apply ring_at_spec.
  - rewrite (lookup_ge_None_2 (seq 0 (rr_n r))) by (rewrite length_seq; lia). cbn. symmetry. apply lookup_ge_None_2.
    rewrite length_take, length_reverse. lia.
Qed.

(** the query loop filters and cuts *)
Definition cut {A} (limit : Z) (l : list A) : list A := if (0 <? limit)%Z then take (Z.to_nat limit) l else l.

Lemma query_loop_spec (r : recentRing) (want : ProcEvent → bool) (limit : Z) (is_ : list nat) (out : list ProcEvent) :
  ((0 < limit)%Z → (Z.of_nat (length out) < limit)%Z) →
  query_loop r want limit is_ out = cut limit (out ++ filter (λ e, want e = true) (ring_at r <$> is_)).
Proof.
  revert out. induction is_ as [|i is_ IH]; intros out Hout; cbn [query_loop fmap list_fmap].
  - rewrite filter_nil, app_nil_r. unfold cut. destruct (Z.ltb_spec 0 limit); [|done]. rewrite take_ge; [done|]. specialize (Hout ltac:(done)). lia.
  - destruct (want (ring_at r i)) eqn:Hw.
    + rewrite filter_cons_True by done. destruct ((0 <? limit)%Z && _) eqn:Hl.
      * bool_to_prop. rewrite length_app in *. cbn [length] in *. specialize (Hout ltac:(done)). unfold cut.
        rewrite (proj2 (Z.ltb_lt _ _)) by done. rewrite (cons_middle _ out (filter _ _)), (app_assoc out [ring_at r i]).
        symmetry. apply take_app_length'. rewrite ?length_app in *. cbn [length] in *. lia.
      * rewrite IH; [by rewrite <-app_assoc|]. intros Hp. apply andb_false_iff in Hl as [Hl|Hl]; bool_to_prop; lia.
    + rewrite filter_cons_False by congruence. by apply IH.
Qed.

(** the ring answers as a list of every event ever pushed would.  After any
    pushes into a ring of any capacity, a query returns, newest first and up to
    the limit, the matching events among the last capacity many; written to its
    file and loaded by a daemon with another capacity, it holds the last of them
    that are young enough, and answers from those. *)
Theorem ring_refines_history (cap cap' : Z) (es : list ProcEvent) (since now : Time.time) (maxAge : Time.duration)
    (dstSet : option (gset string)) (binary : string) (limit : Z) :
  let size z := if (z <=? 0)%Z then 65536 else Z.to_nat z in
  let answer (k : nat) l := cut limit (filter (λ e, wanted since dstSet binary e = true) (take k (reverse l))) in
  let age := if (maxAge <=? 0)%Z then (24 * Time.Hour)%Z else maxAge in
  let r := foldl ring_push (newRecentRing cap) es in
  ring_query since dstSet binary limit r = answer (size cap) es ∧
  ring_query since dstSet binary limit (loadRecent maxAge now (flushRecent r) (newRecentRing cap')) =
    answer (size cap') (filter (λ e, (now - age < pe_Time e)%Z) (last_n (size cap) es)).
Proof.
  intros size answer age r.
  assert (∀ z, 0 < size z) as Hpos by (intros z; unfold size; destruct (z <=? 0)%Z eqn:Hz; bool_to_prop; [apply Nat.ltb_lt; by vm_compute|lia]).
  assert (∀ k r es, holds r es → rr_cap r = k → ring_query since dstSet binary limit r = answer k es) as Hq.
  { intros k r' es' Hh <-. unfold ring_query. rewrite query_loop_spec by (cbn; lia). cbn [app].
    pose proof (snapshot_spec r' es' Hh) as Hs. unfold ring_snapshot in Hs. by rewrite Hs. }
  assert (∀ l r0, rr_cap (foldl ring_push r0 l) = rr_cap r0) as Hcap.
  { intros l. induction l as [|e l IH]; intros r0; [done|]. cbn [foldl]. by rewrite IH. }
  assert (holds r es) as Hr by (apply (holds_pushes _ [] es), holds_new, Hpos).
  split; [by apply Hq; [|unfold r; rewrite Hcap]|].
  assert (flushRecent r = last_n (size cap) es) as ->.
  { unfold flushRecent. rewrite (snapshot_spec _ _ Hr). unfold r at 1. rewrite Hcap. unfold newRecentRing. cbn [rr_cap].
    fold (size cap). unfold last_n. by rewrite reverse_take, reverse_involutive, length_reverse. }
  unfold loadRecent. fold age. change (rr_cap (newRecentRing cap')) with (size cap').
  assert (filter (λ e, Time.After (pe_Time e) (Time.Add now (- age)) = true) (last_n (size cap) es) =
          filter (λ e, (now - age < pe_Time e)%Z) (last_n (size cap) es)) as ->.
  { apply list_filter_iff. intros e. unfold Time.After, Time.Add. rewrite Z.ltb_lt. lia. }
  apply Hq; [|by unfold ring_restore; rewrite Hcap]. apply (holds_pushes _ [] _), holds_new, Hpos.
Qed.
