(* ===== verification/TrustZone.v ===== *)
(** * Trust zones (src/pkg/trustzone)

    Operator-assigned labels for subjects (uid, unit, class, comm), the matrix
    that turns a label and a destination into an action (decision.go), and the
    manager that keeps the assignments in memory and in one YAML file (zone.go).
    The YAML library is outside the program: [Unmarshal] and [Marshal] are
    variables. *)

From S2P Require Import Prelude GoStd NetIP.

Inductive ZoneAction : Type := ZoneAllow | ZoneObserve | ZoneVerify | ZoneDeny | ZoneTorRequire.

#[export] Instance ZoneAction_eq_dec : EqDecision ZoneAction.
Proof. solve_decision. Defined.

Definition ZoneAction_String (a : ZoneAction) : string :=
  match a with
  | ZoneAllow => "allow"
  | ZoneObserve => "observe"
  | ZoneVerify => "verify"
  | ZoneDeny => "deny"
  | ZoneTorRequire => "tor_require"
  end.

Definition LabelTrusted : string := "trusted".
Definition LabelRestricted : string := "restricted".
Definition LabelUntrusted : string := "untrusted".
Definition LabelTorOnly : string := "tor_only".

Record Assignment := {
  a_UID : option Z;
  a_CGroupUnit : string;
  a_CGroupClass : string;
  a_Comm : string;
  a_Label : string;
  a_Comment : string
}.

Record Subject := { sb_UID : Z; sb_CGroupUnit : string; sb_CGroupClass : string; sb_Comm : string }.

(** [DestIP] is a net.IP: [None] is the nil address *)
Record DecisionInput := {
  di_Subject : Subject;
  di_DestIP : option (list Z);
  di_DestPort : Z;
  di_Protocol : string;
  di_SNI : string;
  di_DestClass : string;
  di_Country : string
}.

Record Config := { DefaultLabel : string; Assignments : list Assignment }.

Record Manager := { defaultLbl : string; assignments : list Assignment }.

(** ** Lookup *)

(** one selector: unset, or set and compared with the subject *)
Definition selector (set_ agrees : bool) : bool := negb set_ || agrees.

Definition assignmentMatches (a : Assignment) (s : Subject) : bool :=
  let uid := bool_decide (a_UID a ≠ None) in
  let unit_ := negb (Str.empty (a_CGroupUnit a)) in
  let class := negb (Str.empty (a_CGroupClass a)) in
  let comm := negb (Str.empty (a_Comm a)) in
  selector uid (bool_decide (a_UID a = Some (sb_UID s))) &&
  selector unit_ (bool_decide (a_CGroupUnit a = sb_CGroupUnit s)) &&
  selector class (bool_decide (a_CGroupClass a = sb_CGroupClass s)) &&
  selector comm (bool_decide (a_Comm a = sb_Comm s)) &&
  (uid || unit_ || class || comm).

Definition NewManager (defaultLabel : string) : Manager :=
  {| defaultLbl := if Str.empty defaultLabel then LabelTrusted else defaultLabel;
     assignments := [] |}.

Definition Default (m : option Manager) : string :=
  match m with None => LabelTrusted | Some m => defaultLbl m end.

(** the loop of [Lookup] over the assignments *)
Fixpoint lookupIn (l : list Assignment) (dflt : string) (s : Subject) : string :=
  match l with
  | [] => dflt
  | a :: l' => if assignmentMatches a s then a_Label a else lookupIn l' dflt s
  end.

Definition Lookup (m : option Manager) (s : Subject) : string :=
  match m with None => LabelTrusted | Some m => lookupIn (assignments m) (defaultLbl m) s end.

Definition All (m : option Manager) : list Assignment :=
  match m with None => [] | Some m => assignments m end.

(** ** The decision matrix *)

Definition defaultRestrictedAllow : list string :=
  ["cloudflare"; "google"; "aws"; "azure"; "akamai"; "fastly"; "cdn"; "private"; "os_update";
   "dev_registry"; "loopback"].

Definition torLocalPorts : list Z := [9050; 9051; 9150; 9151]%Z.

Definition isPrivateOrLoopback (ip : option (list Z)) : bool :=
  match ip with None => false | Some b => IsLoopback b || IsLinkLocalUnicast b || IsPrivate b end.

Definition isTorLocal (ip : option (list Z)) (port : Z) : bool :=
  match ip with None => false | Some b => IsLoopback b && bool_decide (port ∈ torLocalPorts) end.

Definition zone_Decide (m : option Manager) (i : DecisionInput) : ZoneAction * string * string :=
  match m with
  | None => (ZoneAllow, LabelTrusted, "trustzone disabled")
  | Some _ =>
      let lbl := Lookup m (di_Subject i) in
      if decide (lbl = LabelTrusted ∨ lbl = "") then (ZoneAllow, LabelTrusted, "trusted zone")
      else if decide (lbl = LabelRestricted) then
        if decide (di_DestClass i ∈ defaultRestrictedAllow)
        then (ZoneAllow, lbl, "restricted: dest_class=" +:+ di_DestClass i +:+ " allowed")
        else if isPrivateOrLoopback (di_DestIP i)
        then (ZoneAllow, lbl, "restricted: private/loopback")
        else (ZoneVerify, lbl, "restricted: dest_class=" +:+ di_DestClass i +:+ " not in allow-list")
      else if decide (lbl = LabelUntrusted) then
        if isPrivateOrLoopback (di_DestIP i)
        then (ZoneAllow, lbl, "untrusted: private/loopback")
        else if decide (di_DestClass i = "private" ∨ di_DestClass i = "loopback")
        then (ZoneAllow, lbl, "untrusted: private dest_class")
        else (ZoneDeny, lbl, "untrusted: external destination denied")
      else if decide (lbl = LabelTorOnly) then
        if isTorLocal (di_DestIP i) (di_DestPort i)
        then (ZoneAllow, lbl, "tor_only: loopback tor port")
        else (ZoneTorRequire, lbl, "tor_only: must route through Tor SOCKS")
      else (ZoneAllow, lbl, "unknown label " +:+ Str.Quote lbl +:+ ": fail-open")
  end.

(** ** The manager and its file *)

Inductive zone_error : Type := ErrNilManager | ErrNotExist | ErrRead | ErrParse | ErrLabel |
  ErrIndex | ErrMarshal | ErrMkdir | ErrWrite | ErrRename.

#[export] Instance zone_error_eq_dec : EqDecision zone_error.
Proof. solve_decision. Defined.

(** what the system calls of one operation answer: can the file be read, and
    which of the steps of [persist] fails first, if any *)
Record io := { io_read_fails : bool; io_persist : option zone_error }.

(** [w_file] is the content of the zone file, [None] when there is none;
    [w_mgr] is the manager, [None] the nil pointer *)
Record world := { w_mgr : option Manager; w_file : option string }.

Section file.
Context (Unmarshal : string → option Config) (Marshal : Config → string).

Definition config_of (m : Manager) : Config :=
  {| DefaultLabel := defaultLbl m; Assignments := assignments m |}.

(** reading an existing file into the manager *)
Definition parse (data : string) (m : Manager) : option Manager :=
  cfg ← (if Str.empty data then Some {| DefaultLabel := ""; Assignments := [] |} else Unmarshal data);
  Some {| defaultLbl := if Str.empty (DefaultLabel cfg) then defaultLbl m else DefaultLabel cfg;
          assignments := Assignments cfg |}.

Definition Reload (x : io) (w : world) : world * result zone_error nat :=
  match w_mgr w with
  | None => (w, Err ErrNilManager)
  | Some m =>
      if io_read_fails x then (w, Err ErrRead) else
      match w_file w with
      | None =>
          ({| w_mgr := Some {| defaultLbl := defaultLbl m; assignments := [] |}; w_file := None |},
           Err ErrNotExist)
      | Some data =>
          match parse data m with
          | None => (w, Err ErrParse)
          | Some m' => ({| w_mgr := Some m'; w_file := w_file w |}, Ok (length (assignments m')))
          end
      end
  end.

(** writing a temporary file and renaming it: the zone file changes only when
    every step succeeds *)
Definition persist (x : io) (m : Manager) (w : world) : world * result zone_error unit :=
  match io_persist x with
  | Some e => ({| w_mgr := Some m; w_file := w_file w |}, Err e)
  | None => ({| w_mgr := Some m; w_file := Some (Marshal (config_of m)) |}, Ok tt)
  end.

Definition Add (a : Assignment) (x : io) (w : world) : world * result zone_error unit :=
  match w_mgr w with
  | None => (w, Err ErrNilManager)
  | Some m =>
      if Str.empty (a_Label a) then (w, Err ErrLabel)
      else persist x {| defaultLbl := defaultLbl m; assignments := assignments m ++ [a] |} w
  end.

Definition Remove (index : Z) (x : io) (w : world) : world * result zone_error unit :=
  match w_mgr w with
  | None => (w, Err ErrNilManager)
  | Some m =>
      if (index <? 0)%Z || (Z.of_nat (length (assignments m)) <=? index)%Z then (w, Err ErrIndex)
      else persist x {| defaultLbl := defaultLbl m;
                        assignments := take (Z.to_nat index) (assignments m) ++
                                       drop (S (Z.to_nat index)) (assignments m) |} w
  end.

Definition SetDefault (l : string) (x : io) (w : world) : world * result zone_error unit :=
  match w_mgr w with
  | None => (w, Err ErrNilManager)
  | Some m =>
      if Str.empty l then (w, Err ErrLabel)
      else persist x {| defaultLbl := l; assignments := assignments m |} w
  end.

(** a call on the manager with the answers of its system calls *)
Inductive op : Type :=
  | OAdd (a : Assignment) (x : io)
  | ORemove (index : Z) (x : io)
  | OSetDefault (l : string) (x : io)
  | OReload (x : io).

Definition exec (o : op) (w : world) : world :=
  match o with
  | OAdd a x => (Add a x w).1
  | ORemove i x => (Remove i x w).1
  | OSetDefault l x => (SetDefault l x w).1
  | OReload x => (Reload x w).1
  end.

Definition run (ops : list op) (w : world) : world := foldl (λ w o, exec o w) w ops.

Definition io_of (o : op) : io :=
  match o with OAdd _ x | ORemove _ x | OSetDefault _ x | OReload x => x end.

(** no system call of the operation fails *)
Definition io_ok (o : op) : Prop := io_read_fails (io_of o) = false ∧ io_persist (io_of o) = None.

End file.

(** ** Lookup takes the first match *)

Lemma lookupIn_spec (l : list Assignment) (d : string) (s : Subject) :
  (∃ l1 a l2, l = l1 ++ a :: l2 ∧ Forall (λ b, assignmentMatches b s = false) l1 ∧
     assignmentMatches a s = true ∧ lookupIn l d s = a_Label a) ∨
  (Forall (λ b, assignmentMatches b s = false) l ∧ lookupIn l d s = d).
Proof.
  induction l as [|a l IH]; simpl; [by right|].
  destruct (assignmentMatches a s) eqn:Ha.
  { left. by exists [], a, l. }
  destruct IH as [(l1 & b & l2 & -> & Hl1 & Hb & Hl)|[Hl Hd]].
  - left. exists (a :: l1), b, l2. split_and!; [done|by constructor|done..].
  - right. split; [by constructor|done].
Qed.

(** an assignment without selectors never matches *)
Lemma blank_assignment_inert (a : Assignment) (s : Subject) :
  a_UID a = None → a_CGroupUnit a = "" → a_CGroupClass a = "" → a_Comm a = "" →
  assignmentMatches a s = false.
Proof. intros H1 H2 H3 H4. unfold assignmentMatches. rewrite H1, H2, H3, H4. done. Qed.

(** ** Memory and file agree while nothing fails *)

Section persisted.
Context (Unmarshal : string → option Config) (Marshal : Config → string).
Context (yaml_roundtrip : ∀ c, Unmarshal (Marshal c) = Some c).
Context (yaml_nonempty : ∀ c, Marshal c ≠ "").

(** the file, when there is one, decodes to the manager in memory *)
Definition in_step (w : world) : Prop :=
  ∃ m, w_mgr w = Some m ∧ defaultLbl m ≠ "" ∧
    ∀ data, w_file w = Some data → data ≠ "" ∧ Unmarshal data = Some (config_of m).

Lemma persist_in_step (x : io) (m : Manager) (w : world) :
  io_persist x = None → defaultLbl m ≠ "" → in_step (persist Marshal x m w).1.
Proof.
  intros Hx Hm. unfold persist. rewrite Hx. exists m. split_and!; [done..|].
  intros data [= <-]. by split.
Qed.

Lemma parse_in_step (data : string) (m m0 : Manager) :
  data ≠ "" → Unmarshal data = Some (config_of m) → defaultLbl m ≠ "" →
  parse Unmarshal data m0 = Some m.
Proof.
  intros Hd Hu Hm. unfold parse, Str.empty. rewrite bool_decide_eq_false_2 by done.
  rewrite Hu. simpl. rewrite bool_decide_eq_false_2 by done. by destruct m.
Qed.

#[local] Hint Resolve persist_in_step : xh.

Lemma exec_in_step (o : op) (w : world) :
  io_ok o → in_step w → in_step (exec Unmarshal Marshal o w).
Proof.
  intros [Hr Hp] Hw. destruct Hw as (m & Hm & Hd & Hf).
  assert (in_step w) as Hw by (by exists m).
  destruct o as [a x|i x|l x|x]; simpl in *.
  - unfold Add. rewrite Hm. case_match; [done|]. auto with xh.
  - unfold Remove. rewrite Hm. case_match; [done|]. auto with xh.
  - unfold SetDefault, Str.empty. rewrite Hm. case_match; [done|]. bool_to_prop. auto with xh.
  - unfold Reload. rewrite Hm, Hr. destruct (w_file w) as [data|] eqn:Hdata.
    + destruct (Hf data eq_refl) as [Hne Hu]. rewrite (parse_in_step data m m) by done.
      exists m. split_and!; [done..|]. by intros ? [= <-].
    + eexists. split_and!; [done|done|]. by intros.
Qed.

Lemma run_in_step (ops : list op) : ∀ w,
  Forall io_ok ops → in_step w → in_step (run Unmarshal Marshal ops w).
Proof.
  induction ops as [|o ops IH]; intros w Ho Hw; [done|].
  inversion Ho; simplify_eq. simpl. apply IH; [done|]. by apply exec_in_step.
Qed.

(** a daemon started on an empty directory *)
Definition start (d : string) : world := {| w_mgr := Some (NewManager d); w_file := None |}.

Lemma start_in_step (d : string) : in_step (start d).
Proof. eexists. split_and!; [done| |done]. simpl. unfold Str.empty. by case_bool_decide. Qed.

(** ** Properties *)

(** operator changes survive a restart: after any sequence of additions,
    removals, default changes and reloads in which no system call failed, a
    fresh manager that reads the file holds exactly the default label and the
    ordered assignments of the running one, so it labels every subject the
    same. *)
Theorem zone_changes_survive_restart (ops : list op) (d d' : string) (x : io) :
  Forall io_ok ops → io_read_fails x = false →
  let w := run Unmarshal Marshal ops (start d) in
  is_Some (w_file w) →
  let w' := (Reload Unmarshal x {| w_mgr := Some (NewManager d'); w_file := w_file w |}).1 in
  w' = w ∧ ∀ s, Lookup (w_mgr w') s = Lookup (w_mgr w) s.
Proof.
  intros Ho Hx w [data Hdata].
  destruct (run_in_step ops _ Ho (start_in_step d)) as (m & Hm & Hd & Hf). fold w in Hm, Hf.
  destruct (Hf data Hdata) as [Hne Hu]. simpl. rewrite Hdata. unfold Reload. simpl.
  rewrite Hx, (parse_in_step data m) by done. simpl. rewrite Hm. split; [|done].
  destruct w. simpl in *. by subst.
Qed.

End persisted.

(** the matrix, exactly: a connect is denied when the subject is untrusted
    and the destination neither internal nor of an internal class, sent through
    Tor when the subject is tor-only and the destination is no local Tor
    listener, verified when the subject is restricted and the destination is
    neither internal nor in the allowed classes, and allowed in every other
    case; it is never merely observed. *)
Theorem zone_decide_exact (m : Manager) (i : DecisionInput) :
  let a := (zone_Decide (Some m) i).1.1 in
  let lbl := Lookup (Some m) (di_Subject i) in
  (a = ZoneDeny ↔ lbl = LabelUntrusted ∧ isPrivateOrLoopback (di_DestIP i) = false ∧
                  di_DestClass i ≠ "private" ∧ di_DestClass i ≠ "loopback") ∧
  (a = ZoneTorRequire ↔ lbl = LabelTorOnly ∧ isTorLocal (di_DestIP i) (di_DestPort i) = false) ∧
  (a = ZoneVerify ↔ lbl = LabelRestricted ∧ isPrivateOrLoopback (di_DestIP i) = false ∧
                    di_DestClass i ∉ defaultRestrictedAllow) ∧
  a ≠ ZoneObserve.
Proof.
  unfold zone_Decide. generalize (Lookup (Some m) (di_Subject i)). intros lbl. simpl.
  destruct (decide (lbl = LabelTrusted ∨ lbl = "")) as [[->| ->]|H0]; [naive_solver..|].
  destruct (decide (lbl = LabelRestricted)) as [->|H1].
  { destruct (decide (di_DestClass i ∈ _)); [naive_solver|].
    destruct (isPrivateOrLoopback _); naive_solver. }
  destruct (decide (lbl = LabelUntrusted)) as [->|H2].
  { destruct (isPrivateOrLoopback _); [naive_solver|]. case_decide; naive_solver. }
  destruct (decide (lbl = LabelTorOnly)) as [->|H3]; [destruct (isTorLocal _ _); naive_solver|].
  naive_solver.
Qed.

(** a zone file that vanishes lifts every restriction: the next reload
    empties the assignments, so under the default label every subject may
    connect anywhere, although the comments promise that the manager keeps its
    state. *)
Theorem vanished_zone_file_fails_open (Unmarshal : string → option Config) (m : Manager) (x : io)
    (i : DecisionInput) :
  io_read_fails x = false → defaultLbl m = LabelTrusted →
  let r := Reload Unmarshal x {| w_mgr := Some m; w_file := None |} in
  r.2 = Err ErrNotExist ∧ All (w_mgr r.1) = [] ∧ (zone_Decide (w_mgr r.1) i).1.1 = ZoneAllow.
Proof.
  intros Hx Hm. unfold Reload. simpl. rewrite Hx. simpl. split_and!; [done..|].
  unfold zone_Decide. simpl. rewrite Hm. by rewrite decide_True by (by left).
Qed.

Module Demo.

Definition asg (uid : Z) (l : string) : Assignment :=
  {| a_UID := Some uid; a_CGroupUnit := ""; a_CGroupClass := ""; a_Comm := ""; a_Label := l;
     a_Comment := "" |}.

(** a stand-in for the YAML codec: the binary digits of a number that codes
    the configuration *)
#[local] Instance Assignment_eq_dec : EqDecision Assignment.
Proof. solve_decision. Defined.
#[local] Instance Assignment_countable : Countable Assignment.
Proof.
  refine (inj_countable'
    (λ a, (a_UID a, a_CGroupUnit a, a_CGroupClass a, a_Comm a, a_Label a, a_Comment a))
    (λ '(u, cu, cc, cm, l, c), {| a_UID := u; a_CGroupUnit := cu; a_CGroupClass := cc;
       a_Comm := cm; a_Label := l; a_Comment := c |}) _).
  by intros [].
Defined.

Definition marshal (c : Config) : string := text_of (DefaultLabel c, Assignments c).
Definition unmarshal (s : string) : option Config :=
  p ← of_text s; Some {| DefaultLabel := p.1; Assignments := p.2 |}.

Lemma marshal_roundtrip (c : Config) : unmarshal (marshal c) = Some c.
Proof. unfold unmarshal, marshal. rewrite of_text_of. by destruct c. Qed.

Lemma marshal_nonempty (c : Config) : marshal c ≠ "".
Proof. unfold marshal, text_of. by destruct (encode _). Qed.

Definition ok : io := {| io_read_fails := false; io_persist := None |}.
Definition mgr : Manager := {| defaultLbl := "trusted"; assignments := [asg 1001 LabelUntrusted] |}.

End Demo.

Lemma vanished_zone_file_fails_open_witness :
  let i := {| di_Subject := {| sb_UID := 1001; sb_CGroupUnit := ""; sb_CGroupClass := "";
                               sb_Comm := "curl" |};
              di_DestIP := ParseIP "8.8.8.8"; di_DestPort := 443; di_Protocol := "tcp";
              di_SNI := ""; di_DestClass := ""; di_Country := "" |} in
  (zone_Decide (Some Demo.mgr) i).1.1 = ZoneDeny ∧
  let r := Reload (λ _, None) Demo.ok {| w_mgr := Some Demo.mgr; w_file := None |} in
  r.2 = Err ErrNotExist ∧ All (w_mgr r.1) = [] ∧ (zone_Decide (w_mgr r.1) i).1.1 = ZoneAllow.
Proof.
  split; [vm_compute; reflexivity|].
  apply (vanished_zone_file_fails_open (λ _, None) Demo.mgr Demo.ok); reflexivity.
Defined.

Lemma zone_changes_survive_restart_witness :
  let w := run Demo.unmarshal Demo.marshal
             [OReload Demo.ok; OAdd (Demo.asg 1001 LabelUntrusted) Demo.ok;
              OAdd (Demo.asg 7 LabelTorOnly) Demo.ok; ORemove 1 Demo.ok] (start "trusted") in
  let w' := (Reload Demo.unmarshal Demo.ok
               {| w_mgr := Some (NewManager ""); w_file := w_file w |}).1 in
  w' = w ∧ ∀ s, Lookup (w_mgr w') s = Lookup (w_mgr w) s.
Proof.
  apply (zone_changes_survive_restart Demo.unmarshal Demo.marshal Demo.marshal_roundtrip
           Demo.marshal_nonempty).
  - repeat constructor.
  - reflexivity.
  - eexists. reflexivity.
Defined.
