(* ===== verification/AssetClass.v ===== *)
(** * Asset classes (src/pkg/assetclass)

    The taxonomy (assetclass.go), the static tables for paths, sockets and
    hosts (rules.go), the resolver that layers operator rules over them
    (resolver.go) and the loader that validates operator files (operator.go).
    Reading the directory is an argument, the YAML library a variable. *)

From S2P Require Import Prelude GoStd NetIP.

Abbreviation Class := string (only parsing).

Definition ClassUnknown : Class := "".
Definition AssetConfig : Class := "config".
Definition AssetLogSink : Class := "log_sink".
Definition AssetCache : Class := "cache".
Definition AssetTemp : Class := "temp".
Definition AssetSecretFile : Class := "secret_file".
Definition AssetCredentialStore : Class := "credential_store".
Definition AssetSessionStore : Class := "session_store".
Definition AssetWorkloadIdentity : Class := "workload_identity".
Definition AssetMetadataEndpoint : Class := "metadata_endpoint".
Definition AssetPackageState : Class := "package_state".
Definition AssetServiceControl : Class := "service_control".
Definition AssetPersistence : Class := "persistence_surface".
Definition AssetCodeRoot : Class := "code_root".
Definition AssetCustomerData : Class := "customer_data".
Definition AssetBackupData : Class := "backup_data".
Definition AssetInternalSocket : Class := "internal_socket".
Definition AssetDBEndpoint : Class := "db_endpoint".
Definition AssetBlobStorage : Class := "blob_storage".
Definition AssetWebhook : Class := "webhook".
Definition AssetGitHosting : Class := "git_hosting".
Definition AssetIdentityProvider : Class := "identity_provider".
Definition AssetTelemetry : Class := "telemetry".
Definition AssetMessagingPlatform : Class := "messaging_platform".
Definition AssetExternalAPI : Class := "external_api_peer".

Definition IsSensitive (c : Class) : bool :=
  bool_decide (c ∈ [AssetSecretFile; AssetCredentialStore; AssetSessionStore;
    AssetWorkloadIdentity; AssetMetadataEndpoint; AssetServiceControl; AssetPersistence;
    AssetCustomerData; AssetBackupData]).

(** ** Static tables *)

Definition prefixed (s : string) (ps : list string) : bool := existsb (Str.HasPrefix s) ps.
Definition containing (s : string) (ps : list string) : bool := existsb (Str.Contains s) ps.
Definition one_of (s : string) (ps : list string) : bool := bool_decide (s ∈ ps).

Definition staticPathClass (path : string) : Class :=
  if prefixed path ["/etc/shadow"] || one_of path ["/etc/passwd"] ||
     prefixed path ["/etc/sudoers"; "/etc/pam.d/"; "/etc/security/"; "/etc/ssh/ssh_host_"] ||
     one_of path ["/etc/ssh/sshd_config"] || prefixed path ["/etc/ssh/sshd_config.d/"]
  then AssetSecretFile
  else if prefixed path ["/root/.ssh/"] ||
          containing path ["/.ssh/id_"; "/.ssh/authorized_keys"; "/.aws/credentials";
            "/.aws/config"; "/.azure/credentials"; "/.gcp/credentials"; "/.docker/config.json";
            "/.npmrc"; "/.netrc"; "/.kube/config"]
  then AssetCredentialStore
  else if prefixed path ["/var/run/secrets/kubernetes.io/"; "/run/secrets/kubernetes.io/"]
  then AssetWorkloadIdentity
  else if prefixed path ["/var/lib/xhelix/credbroker/"; "/run/credentials/"]
  then AssetSessionStore
  else if prefixed path ["/etc/cron.d/"; "/etc/cron.daily/"; "/etc/cron.hourly/";
            "/etc/cron.weekly/"; "/etc/cron.monthly/"] || one_of path ["/etc/crontab"] ||
          prefixed path ["/var/spool/cron/"; "/etc/systemd/system/"; "/etc/systemd/network/";
            "/etc/init.d/"] || one_of path ["/etc/ld.so.preload"] ||
          prefixed path ["/etc/ld.so.conf.d/"]
  then AssetPersistence
  else if prefixed path ["/lib/systemd/system/"; "/usr/lib/systemd/system/"; "/run/systemd/"]
  then AssetServiceControl
  else if prefixed path ["/var/lib/mysql/"; "/var/lib/mariadb/"; "/var/lib/postgresql/";
            "/var/lib/mongodb/"; "/var/lib/redis/"]
  then AssetCustomerData
  else if prefixed path ["/var/lib/dpkg/"; "/var/lib/rpm/"; "/var/lib/apt/lists/";
            "/var/cache/apt/archives/"]
  then AssetPackageState
  else if prefixed path ["/var/backups/"; "/backup/"] then AssetBackupData
  else if prefixed path ["/etc/"] then AssetConfig
  else if prefixed path ["/var/log/"; "/var/lib/systemd/journal/"] then AssetLogSink
  else if prefixed path ["/var/cache/"] then AssetCache
  else if prefixed path ["/tmp/"; "/var/tmp/"; "/dev/shm/"] then AssetTemp
  else if prefixed path ["/var/www/"; "/srv/"; "/opt/"; "/usr/local/share/"] then AssetCodeRoot
  else ClassUnknown.

Definition is_backup_role (role : string) : bool :=
  Str.HasPrefix role "backup-" || one_of role ["borgbackup"; "restic"].

Definition roleAwarePathClass (path role : string) : Class :=
  if Str.empty role then ClassUnknown
  else if is_backup_role role && prefixed path ["/var/www/"; "/srv/"; "/opt/"; "/home/"]
  then AssetBackupData
  else ClassUnknown.

Definition staticSocketClass (socketPath : string) : Class :=
  if prefixed socketPath ["/var/run/mysqld/"; "/run/mysqld/"; "/var/run/postgresql/";
       "/run/postgresql/"; "/tmp/.s.PGSQL."; "/var/run/redis/"]
  then AssetDBEndpoint
  else if prefixed socketPath ["/run/php/"; "/var/run/php/"; "/run/uwsgi/"]
  then AssetInternalSocket
  else if prefixed socketPath ["/run/dbus/"; "/var/run/dbus/"; "/run/systemd/"]
  then AssetServiceControl
  else if one_of socketPath ["/var/run/docker.sock"; "/run/docker.sock"] ||
          prefixed socketPath ["/run/containerd/"]
  then AssetServiceControl
  else AssetInternalSocket.

Definition sniMatches (sni : string) (suffixes : list string) : bool :=
  if Str.empty sni then false
  else existsb (λ suf, Str.HasSuffix (Str.ToLower sni) (Str.ToLower suf) ||
                       Str.Contains (Str.ToLower sni) (Str.ToLower suf)) suffixes.

(** the [switch] on the server name *)
Definition sniClass (sni : string) : option Class :=
  if sniMatches sni ["amazonaws.com"; "s3."] || sniMatches sni ["googleapis.com"; "storage."] ||
     sniMatches sni ["blob.core.windows.net"]
  then Some AssetBlobStorage
  else if sniMatches sni ["github.com"; "gitlab.com"; "bitbucket.org"; "codeberg.org";
            "sourcehut.org"]
  then Some AssetGitHosting
  else if sniMatches sni ["auth0.com"; "okta.com"; "onelogin.com"; "login.microsoftonline.com";
            "accounts.google.com"; "oauth2.googleapis.com"]
  then Some AssetIdentityProvider
  else if sniMatches sni ["datadoghq.com"; "newrelic.com"; "splunk.com"; "sentry.io";
            "honeycomb.io"; "lightstep.com"]
  then Some AssetTelemetry
  else if sniMatches sni ["api.telegram.org"; "core.telegram.org"; "gateway.discord.gg";
            "discordapp.io"; "botpress.com"; "mattermost.io"; "api.groupme.com";
            "open.rocket.chat"; "api.signal.org"; "api.line.me"; "qq.com"; "api.whatsapp.com";
            "web.whatsapp.com"; "api.wechat.com"]
  then Some AssetMessagingPlatform
  else if sniMatches sni ["discord.com"; "slack.com"; "hooks.slack.com"; "webhook.site"]
  then Some AssetWebhook
  else None.

(** 149.154.0.0/16 and 91.108.0.0/16 *)
Definition isTelegram (ip : list Z) : bool :=
  match To4 ip with
  | None => false
  | Some b => ((byte_at b 0 =? 149)%Z && (byte_at b 1 =? 154)%Z) ||
              ((byte_at b 0 =? 91)%Z && (byte_at b 1 =? 108)%Z)
  end.

(** the [ip != ""] tests of the code are those of [ParseIP], which rejects the
    empty string *)
Definition staticHostClass (ip sni : string) (port : Z) : Class :=
  if bool_decide (ip = "169.254.169.254") || Str.HasPrefix ip "fd00:ec2::"
  then AssetMetadataEndpoint
  else match sniClass sni with
  | Some c => c
  | None =>
      let parsed := ParseIP ip in
      if match parsed with Some b => isTelegram b | None => false end
      then AssetMessagingPlatform
      else if match parsed with
              | Some b => IsLoopback b || IsPrivate b || IsLinkLocalUnicast b
              | None => false
              end
      then AssetInternalSocket
      else if bool_decide (port ∈ [3306; 5432; 6379; 27017; 11211]%Z) then AssetDBEndpoint
      else if negb (Str.empty ip) || negb (Str.empty sni) then AssetExternalAPI
      else ClassUnknown
  end.

(** ** The resolver *)

Record pathRule := { PathPrefix : string; rule_Class : Class; AppliesToRoles : list string }.

Record staticResolver := { overrides : list pathRule }.

Definition NewStaticResolver : staticResolver := {| overrides := [] |}.
Definition NewWithOverrides (rules : list pathRule) : staticResolver := {| overrides := rules |}.

Definition rule_applies (path role : string) (r : pathRule) : bool :=
  Str.HasPrefix path (PathPrefix r) &&
  (bool_decide (AppliesToRoles r = []) || bool_decide (role ∈ AppliesToRoles r)).

Definition matchOverride (s : staticResolver) (path role : string) : Class :=
  match List.find (rule_applies path role) (overrides s) with
  | Some r => rule_Class r
  | None => ClassUnknown
  end.

Definition ClassifyPath (s : staticResolver) (path role : string) : Class :=
  if Str.empty path then ClassUnknown else
  let c := staticPathClass path in
  let o := matchOverride s path role in
  if negb (bool_decide (c = ClassUnknown)) then
    if IsSensitive c then c
    else if negb (bool_decide (o = ClassUnknown)) then o else c
  else if negb (bool_decide (o = ClassUnknown)) then o
  else roleAwarePathClass path role.

Definition ClassifySocket (s : staticResolver) (socketPath : string) : Class :=
  if Str.empty socketPath then ClassUnknown else staticSocketClass socketPath.

Definition ClassifyHost (s : staticResolver) (ip sni : string) (port : Z) : Class :=
  staticHostClass ip sni port.

(** ** Operator files *)

Definition known : list Class :=
  [AssetConfig; AssetLogSink; AssetCache; AssetTemp; AssetSecretFile; AssetCredentialStore;
   AssetSessionStore; AssetWorkloadIdentity; AssetMetadataEndpoint; AssetPackageState;
   AssetServiceControl; AssetPersistence; AssetCodeRoot; AssetCustomerData; AssetBackupData;
   AssetInternalSocket; AssetDBEndpoint; AssetBlobStorage; AssetWebhook;
   AssetMessagingPlatform; AssetGitHosting; AssetIdentityProvider; AssetTelemetry;
   AssetExternalAPI].

Definition parseClass (s : string) : option Class := if decide (s ∈ known) then Some s else None.

Record operatorRule := { or_PathPrefix : string; or_Class : string; or_AppliesToRoles : list string }.

Inductive load_error : Type :=
  | LReadDir | LRead (file : string) | LYaml (file : string)
  | LPrefixRequired (file : string) (i : nat) | LNotAbsolute (file : string) (i : nat)
  | LUnknownClass (file : string) (i : nat) | LSensitive (file : string) (i : nat).

(** a directory entry: its name, whether it is a directory, and what reading
    it answers *)
Record dirent := { de_name : string; de_isdir : bool; de_data : option string }.

Inductive listing : Type := DirMissing | DirError | DirEntries (l : list dirent).

Section load.
Context (Unmarshal : string → option (list operatorRule)).

Definition check_rule (n : string) (i : nat) (r : operatorRule) : result load_error pathRule :=
  if Str.empty (or_PathPrefix r) then Err (LPrefixRequired n i)
  else if negb (Str.HasPrefix (or_PathPrefix r) "/") then Err (LNotAbsolute n i)
  else match parseClass (or_Class r) with
       | None => Err (LUnknownClass n i)
       | Some c =>
           if IsSensitive c then Err (LSensitive n i)
           else Ok {| PathPrefix := or_PathPrefix r; rule_Class := c;
                      AppliesToRoles := or_AppliesToRoles r |}
       end.

(** the loop over the rules of one file, from index [i] *)
Fixpoint check_rules (n : string) (i : nat) (rs : list operatorRule) :
    list pathRule * list load_error :=
  match rs with
  | [] => ([], [])
  | r :: rs' =>
      let '(good, bad) := check_rules n (S i) rs' in
      match check_rule n i r with
      | Ok p => (p :: good, bad)
      | Err e => (good, e :: bad)
      end
  end.

Definition load_file (e : dirent) : list pathRule * list load_error :=
  if de_isdir e then ([], [])
  else if negb (Str.HasSuffix (de_name e) ".yaml") && negb (Str.HasSuffix (de_name e) ".yml")
  then ([], [])
  else match de_data e with
       | None => ([], [LRead (de_name e)])
       | Some data =>
           match Unmarshal data with
           | None => ([], [LYaml (de_name e)])
           | Some rs => check_rules (de_name e) 0 rs
           end
       end.

Definition LoadOperatorRules (d : listing) : list pathRule * list load_error :=
  match d with
  | DirMissing => ([], [])
  | DirError => ([], [LReadDir])
  | DirEntries l => (concat (fst <$> (load_file <$> l)), concat (snd <$> (load_file <$> l)))
  end.

(** ** What validation guarantees *)

Definition rule_ok (r : pathRule) : Prop :=
  Str.HasPrefix (PathPrefix r) "/" = true ∧ rule_Class r ∈ known ∧ IsSensitive (rule_Class r) = false.

Lemma check_rule_ok (n : string) (i : nat) (r : operatorRule) (p : pathRule) :
  check_rule n i r = Ok p → rule_ok p.
Proof.
  unfold check_rule, parseClass. intros Hc.
  repeat (case_match; simplify_eq); bool_to_prop; split_and!; cbn [PathPrefix rule_Class]; auto.
Qed.

Lemma check_rules_ok (n : string) (rs : list operatorRule) : ∀ i,
  Forall rule_ok (check_rules n i rs).1 ∧
  length (check_rules n i rs).1 + length (check_rules n i rs).2 = length rs.
Proof.
  induction rs as [|r rs IH]; intros i; simpl; [by repeat constructor|].
  destruct (check_rules n (S i) rs) as [good bad] eqn:Hc.
  destruct (IH (S i)) as [Hg Hl]. rewrite Hc in Hg, Hl. simpl in *.
  destruct (check_rule n i r) as [p|e] eqn:Hr; simpl; (split; [|lia]); [|done].
  constructor; [by eapply check_rule_ok|done].
Qed.

Lemma load_ok (d : listing) : Forall rule_ok (LoadOperatorRules d).1.
Proof.
  destruct d as [| |l]; simpl; [constructor..|]. induction l as [|e l IH]; simpl; [constructor|].
  apply Forall_app. split; [|exact IH]. unfold load_file.
  repeat case_match; simpl; try constructor. apply check_rules_ok.
Qed.

Lemma matchOverride_ok (rules : list pathRule) (path role : string) :
  Forall rule_ok rules →
  matchOverride (NewWithOverrides rules) path role = ClassUnknown ∨
  (matchOverride (NewWithOverrides rules) path role ≠ ClassUnknown ∧
   IsSensitive (matchOverride (NewWithOverrides rules) path role) = false).
Proof.
  intros Hr. unfold matchOverride. simpl. destruct (List.find _ rules) as [r|] eqn:Hf; [|by left].
  right. apply List.find_some in Hf as [Hin _]. apply list_elem_of_In in Hin.
  rewrite Forall_forall in Hr. destruct (Hr r Hin) as (_ & Hk & Hs). split; [|done].
  intros Hc. rewrite Hc in Hk.
  assert (bool_decide (ClassUnknown ∈ known) = false) as Hn by reflexivity. by bool_to_prop.
Qed.

(** ** Properties *)

(** the protected floor holds: with the rules an operator can load, a path
    is sensitive exactly when the static table says so, or the table and the
    rules are silent and a backup role reads one of its sources; and a
    statically sensitive path keeps its class whatever the rules and the role
    say.  An operator can neither hide a sensitive path nor declare one. *)
Theorem operator_cannot_move_sensitivity (d : listing) (path role : string) :
  let s := NewWithOverrides (LoadOperatorRules d).1 in
  (IsSensitive (ClassifyPath s path role) = true ↔
     path ≠ "" ∧
     (IsSensitive (staticPathClass path) = true ∨
      staticPathClass path = ClassUnknown ∧ matchOverride s path role = ClassUnknown ∧
      roleAwarePathClass path role = AssetBackupData)) ∧
  (path ≠ "" → IsSensitive (staticPathClass path) = true →
   ClassifyPath s path role = staticPathClass path).
Proof.
  intros s. pose proof (matchOverride_ok _ path role (load_ok d)) as Ho. fold s in Ho.
  unfold ClassifyPath, Str.empty.
  destruct (bool_decide (path = "")) eqn:Hp; bool_to_prop; [naive_solver|].
  assert (roleAwarePathClass path role = AssetBackupData ∨ roleAwarePathClass path role = ClassUnknown)
    as Hrole by (unfold roleAwarePathClass; repeat case_match; auto).
  generalize dependent (staticPathClass path). generalize dependent (matchOverride s path role).
  generalize dependent (roleAwarePathClass path role). intros r Hr o Ho c.
  destruct (bool_decide (c = ClassUnknown)) eqn:Hc; bool_to_prop; simpl.
  - subst c. split; [|by vm_compute].
    destruct (bool_decide (o = ClassUnknown)) eqn:Ho'; bool_to_prop; simpl.
    + destruct Hr as [->| ->]; vm_compute; naive_solver.
    + destruct Ho as [?|[_ Hs]]; [done|]. rewrite Hs.
      split; [done|]. intros (_ & [Hx|(_ & ? & _)]); [by vm_compute in Hx|done].
  - destruct (IsSensitive c) eqn:Hs; [naive_solver|]. split; [|done].
    destruct (bool_decide (o = ClassUnknown)) eqn:Ho'; bool_to_prop; simpl; [naive_solver|].
    destruct Ho as [?|[_ Hs']]; [done|]. rewrite Hs'. naive_solver.
Qed.

End load.

(** the path alternatives the role-aware refinement lists *)
Lemma code_root_prefix (path : string) :
  prefixed path ["/var/www/"; "/srv/"; "/opt/"] = true → staticPathClass path ≠ ClassUnknown.
Proof.
  intros Hp. unfold staticPathClass. repeat (case_match; [done|]).
  unfold prefixed in *. cbn [existsb] in *.
  repeat match goal with H : (_ || _)%bool = false |- _ => apply orb_false_iff in H as [??] end.
  repeat match goal with H : Str.HasPrefix _ _ = false |- _ => rewrite H in Hp; clear H end. done.
Qed.

(** three of the four sources the role-aware refinement lists for backup
    roles are dead: paths under /var/www, /srv and /opt are code roots of the
    static table, which answers first, so a backup job reading them is never
    classified as touching backup data unless an operator rule says so. *)
Theorem role_refinement_dead (path role : string) :
  prefixed path ["/var/www/"; "/srv/"; "/opt/"] = true →
  ClassifyPath NewStaticResolver path role = staticPathClass path ∧
  (roleAwarePathClass path role = AssetBackupData ↔ role ≠ "" ∧ is_backup_role role = true).
Proof.
  intros Hp. split.
  - unfold ClassifyPath, Str.empty. rewrite bool_decide_eq_false_2 by (by intros ->).
    rewrite bool_decide_eq_false_2 by (by apply code_root_prefix). simpl. by destruct (IsSensitive _).
  - unfold roleAwarePathClass, Str.empty. case_bool_decide; [naive_solver|].
    assert (prefixed path ["/var/www/"; "/srv/"; "/opt/"; "/home/"] = true) as ->.
    { unfold prefixed in *. cbn [existsb] in *. rewrite !orb_true_iff in *. naive_solver. }
    rewrite andb_true_r. destruct (is_backup_role role); naive_solver.
Qed.

Lemma role_refinement_dead_witness :
  ClassifyPath NewStaticResolver "/srv/db/dump" "restic" = AssetCodeRoot ∧
  roleAwarePathClass "/srv/db/dump" "restic" = AssetBackupData.
Proof.
  destruct (role_refinement_dead "/srv/db/dump" "restic" eq_refl) as [H1 H2].
  split; [exact H1|]. apply H2. split; [discriminate|reflexivity].
Defined.

(** host classes can be chosen by the peer: whatever text surrounds a listed
    name, the server name is matched anywhere in it, so a client that sends
    "github.com.<anything>" to an external address is classified as talking to
    a code-hosting service, unless the text also names a storage provider. *)
Theorem sni_class_spoofable (pre post ip : string) (port : Z) (s : staticResolver) :
  let sni := pre +:+ "github.com" +:+ post in
  ip ≠ "169.254.169.254" → Str.HasPrefix ip "fd00:ec2::" = false →
  ClassifyHost s ip sni port = AssetGitHosting ∨ ClassifyHost s ip sni port = AssetBlobStorage.
Proof.
  intros sni Hip Hv6. unfold ClassifyHost, staticHostClass.
  rewrite bool_decide_eq_false_2, Hv6 by done. simpl.
  assert (sniMatches sni ["github.com"; "gitlab.com"; "bitbucket.org"; "codeberg.org"; "sourcehut.org"]
          = true) as Hg.
  { unfold sniMatches, Str.empty. rewrite bool_decide_eq_false_2; [|subst sni; by destruct pre].
    cbn [existsb]. apply orb_true_iff. left. apply orb_true_iff. right.
    apply Str.Contains_spec. exists (Str.ToLower pre), (Str.ToLower post).
    subst sni. by rewrite !Str.ToLower_app. }
  unfold sniClass. rewrite Hg. destruct (_ || _ || _); [by right|by left].
Qed.

Lemma sni_class_spoofable_witness :
  ClassifyHost NewStaticResolver "203.0.113.9" "x.github.com.evil.example" 443 = AssetGitHosting.
Proof.
  destruct (sni_class_spoofable "x." ".evil.example" "203.0.113.9" 443 NewStaticResolver) as [H|H];
    [discriminate|reflexivity|exact H|]. vm_compute in H. discriminate H.
Defined.
