(* ===== verification/Pipeline.v ===== *)
(** * The policy, taint and egress stages of the pipeline (src/pkg/pipeline)

    The stages of [Pipeline.Handle] that consult the signed egress policies,
    observe secret touches, stamp taint, classify the asset, ask the trust zones
    and enforce the egress decision, in its order; the stages between the first
    and the others read and write other things and are left out.  The pipeline holds its taint store and its egress guard behind Go
    interfaces; here they are the classes [TaintStore] and [Guard], whose laws
    are what the theorems use, and the in-memory store and the guard of the
    library are instances.  An alert carries the event as it is when the alert
    is emitted. *)

From S2P Require Import Prelude GoStd NetIP Model EgressPolicy SecretTaint EgressGuard TrustZone AssetClass.

(** ** Interfaces *)

(** the taint states the egress guard reacts to *)
Definition restricted (t : string) : Prop := t = "outbound_restricted" ∨ t = "containment_required".

#[export] Instance restricted_dec (t : string) : base.Decision (restricted t).
Proof. unfold restricted. apply _. Defined.

Class TaintStore (S : Type) := {
  st_ObserveTouch : Touch → S → S;
  st_State : S → Z → TaintState;
  (** lineage 0 is no lineage *)
  st_zero : ∀ s, st_State s 0 = TaintClean;
  (** a touch marks its own lineage and no other *)
  st_touch : ∀ t s l, st_State (st_ObserveTouch t s) l =
    if decide (l = touch_LineageID t ∧ l ≠ 0%Z ∧ st_State s l = TaintClean)
    then TaintSecretTouched else st_State s l
}.

Definition set_taint (t : string) (r : Request) : Request := {|
  r_PID := r_PID r; r_LineageID := r_LineageID r; r_CGroupID := r_CGroupID r;
  r_AppName := r_AppName r; r_AppRole := r_AppRole r; r_DestIP := r_DestIP r;
  r_DestPort := r_DestPort r; r_SNI := r_SNI r; r_DNSName := r_DNSName r;
  r_DestClass := r_DestClass r; r_AssetClass := r_AssetClass r; r_SecretTaint := t;
  r_SourceID := r_SourceID r; r_At := r_At r; r_PolicyCtx := r_PolicyCtx r |}.

(** [D] holds the answers one [ApplyDeny] call gets from its environment *)
Class Guard (G D : Type) := {
  gd_Decide : G → Request → Decision * string;
  gd_ApplyDeny : D → Z → string → Time.duration → G → G * option string;
  gd_Mode : G → Mode;
  gd_BackendName : G → string;
  (** of the taint states only the restricted ones matter *)
  gd_taint : ∀ g r t, ¬ restricted (r_SecretTaint r) → ¬ restricted t →
    gd_Decide g (set_taint t r) = gd_Decide g r;
  (** a pre-computed policy or trust-zone answer is final *)
  gd_override : ∀ g r d, policyOverride (r_PolicyCtx r) = Some d → gd_Decide g r = d;
  (** applying a deny changes no later decision and not the mode *)
  gd_stable : ∀ d l k ttl g r, gd_Decide (gd_ApplyDeny d l k ttl g).1 r = gd_Decide g r;
  gd_mode_stable : ∀ d l k ttl g, gd_Mode (gd_ApplyDeny d l k ttl g).1 = gd_Mode g
}.

(** ** The event's lineage *)

Definition lineageIDFromEvent (ev : Event) : Z :=
  let sa := tag ev "source_anchor_id" in
  let anchor := if negb (Str.empty sa) && negb (bool_decide (sa = "0"))
                then match Str.ParseUint 64 sa with
                     | Some n => if (n =? 0)%Z then None else Some n
                     | None => None
                     end
                else None in
  match anchor with
  | Some n => n
  | None => if negb (ev_CGroupID ev =? 0)%Z then ev_CGroupID ev else ev_PID ev
  end.

(** [strconv.ParseUint(tag, 10, 16)], 0 when the tag is absent or malformed *)
Definition port_tag (ev : Event) (k : string) : Z :=
  if Str.empty (tag ev k) then 0%Z else default 0%Z (Str.ParseUint 16 (tag ev k)).

Definition parseUint16 (s : string) : Z := if Str.empty s then 0%Z else Str.scan_uint 16 s.

Example parseUint16_ex : (parseUint16 " 443x", parseUint16 "70000", parseUint16 "-1", parseUint16 "x", parseUint16 "053") =
  (443, 0, 0, 0, 53)%Z.
Proof. reflexivity. Qed.

Definition firstNonEmpty (ss : list string) : string :=
  default "" (List.find (λ s, negb (Str.empty s)) ss).

Section stages.
Context {S G D : Type} `{TaintStore S} `{Guard G D}.

Record Pipeline := {
  p_EgressPolicy : option EgressPolicy.Engine;
  p_SecretTaint : option S;
  p_AssetResolver : option staticResolver;
  p_TrustZone : option Manager;
  p_EgressGuard : option G;
  p_Emit : bool
}.

Definition with_taint (s : option S) (p : Pipeline) : Pipeline :=
  {| p_EgressPolicy := p_EgressPolicy p; p_SecretTaint := s; p_AssetResolver := p_AssetResolver p; p_TrustZone := p_TrustZone p;
     p_EgressGuard := p_EgressGuard p; p_Emit := p_Emit p |}.

Definition with_guard (g : option G) (p : Pipeline) : Pipeline :=
  {| p_EgressPolicy := p_EgressPolicy p; p_SecretTaint := p_SecretTaint p; p_AssetResolver := p_AssetResolver p;
     p_TrustZone := p_TrustZone p; p_EgressGuard := g; p_Emit := p_Emit p |}.

(** ** Egress policy *)

Definition is_connect (ev : Event) : bool :=
  bool_decide (ev_Sensor ev = "ebpf.net") && bool_decide (tag ev "kind" = "net_connect").

Definition parseIPOrNil (s : string) : option (list Z) := if Str.empty s then None else ParseIP s.

Definition policy_request (ev : Event) : PolicyRequest := {|
  rq_Binary := firstNonEmpty [ev_Image ev; ev_Comm ev]; rq_UID := ev_UID ev; rq_Cgroup := tag ev "cgroup_class";
  rq_DestIP := parseIPOrNil (tag ev "dst_ip"); rq_DestPort := parseUint16 (tag ev "dst_port");
  rq_Protocol := tag ev "protocol"; rq_SNI := tag ev "sni"; rq_DNSName := tag ev "dns_name";
  rq_DestClass := tag ev "dest_class"; rq_Country := tag ev "dst_country"; rq_ASN := tag ev "dst_asn" |}.

(** a tag written only when it has a value *)
Definition set_some (k v : string) (ev : Event) : Event := if Str.empty v then ev else set_tag k v ev.

Definition policy_stage (ev : Event) (p : Pipeline) : Event :=
  match p_EgressPolicy p with
  | None => ev
  | Some e =>
      if is_connect ev then
        let d := EgressPolicy.Decide (Some e) (policy_request ev) in
        set_some "egress_policy_matched_by" (pd_MatchedBy d)
          (set_some "egress_policy_id" (pd_PolicyID d)
             (set_tag "egress_policy_mode" (pd_Mode d)
                (set_tag "egress_policy_action" (Action_String (pd_Action d)) ev)))
      else ev
  end.

(** ** Secret taint *)

Definition touch_of (ev : Event) (class : SecretClass) : Touch :=
  {| touch_PID := ev_PID ev; touch_LineageID := lineageIDFromEvent ev; touch_SourceID := 0;
     touch_SecretClass := class; touch_Path := tag ev "path"; touch_At := ev_Time ev |}.

Definition observe_touch (ev : Event) (s : S) : Event * S :=
  match ClassifyEvent ev with
  | None => (ev, s)
  | Some class =>
      if (lineageIDFromEvent ev =? 0)%Z then (ev, s)
      else (set_tag "secret_class" class ev, st_ObserveTouch (touch_of ev class) s)
  end.

Definition stamp_taint (ev : Event) (s : S) : Event :=
  let l := lineageIDFromEvent ev in
  if (l =? 0)%Z then ev
  else if decide (st_State s l = TaintClean) then ev
  else set_tag "secret_taint" (TaintState_String (st_State s l)) ev.

Definition taint_stage (ev : Event) (p : Pipeline) : Event * Pipeline :=
  match p_SecretTaint p with
  | None => (ev, p)
  | Some s => let '(ev1, s1) := observe_touch ev s in (stamp_taint ev1 s1, with_taint (Some s1) p)
  end.

(** ** Asset class *)

Definition stamp_class (c : string) (ev : Event) : Event :=
  if bool_decide (c = ClassUnknown) then ev else set_tag "asset_class" c ev.

Definition asset_stage (ev : Event) (p : Pipeline) : Event :=
  match p_AssetResolver p with
  | None => ev
  | Some r =>
      if negb (Str.empty (tag ev "path"))
      then stamp_class (ClassifyPath r (tag ev "path") (tag ev "app_role")) ev
      else if negb (Str.empty (tag ev "dst_socket"))
      then stamp_class (ClassifySocket r (tag ev "dst_socket")) ev
      else if negb (Str.empty (tag ev "dst_ip"))
      then stamp_class (ClassifyHost r (tag ev "dst_ip") (tag ev "sni") (port_tag ev "dst_port")) ev
      else ev
  end.

(** ** Trust zone *)

Definition zone_input (ev : Event) : DecisionInput := {|
  di_Subject := {| sb_UID := ev_UID ev; sb_CGroupUnit := tag ev "cgroup_unit";
                   sb_CGroupClass := tag ev "cgroup_class"; sb_Comm := ev_Comm ev |};
  di_DestIP := parseIPOrNil (tag ev "dst_ip");
  di_DestPort := port_tag ev "dst_port";
  di_Protocol := tag ev "protocol";
  di_SNI := tag ev "sni";
  di_DestClass := tag ev "dest_class";
  di_Country := tag ev "country" |}.

Definition zone_stage (ev : Event) (p : Pipeline) : Event :=
  match p_TrustZone p with
  | None => ev
  | Some m =>
      if is_connect ev && Str.empty (tag ev "egress_policy_id") then
        let '(za, lbl, why) := zone_Decide (Some m) (zone_input ev) in
        let ev1 := set_tag "trustzone_label" lbl
                     (set_tag "trustzone_action" (ZoneAction_String za) ev) in
        if Str.empty why then ev1 else set_tag "trustzone_reason" why ev1
      else ev
  end.

(** ** Egress guard *)

Definition egress_request (ev : Event) : Request := {|
  r_PID := ev_PID ev; r_LineageID := lineageIDFromEvent ev; r_CGroupID := ev_CGroupID ev;
  r_AppName := tag ev "app_name"; r_AppRole := tag ev "app_role"; r_DestIP := tag ev "dst_ip";
  r_DestPort := port_tag ev "dst_port"; r_SNI := tag ev "sni"; r_DNSName := tag ev "dst_dns";
  r_DestClass := tag ev "dest_class"; r_AssetClass := tag ev "asset_class";
  r_SecretTaint := tag ev "secret_taint"; r_SourceID := 0; r_At := ev_Time ev;
  r_PolicyCtx := {| EgressPolicyAction := tag ev "egress_policy_action";
                    TrustZoneAction := tag ev "trustzone_action";
                    PolicyID := tag ev "egress_policy_id";
                    PolicyMatchedBy := tag ev "egress_policy_matched_by";
                    ZoneLabel := tag ev "trustzone_label" |} |}.

Definition egress_alert (ev : Event) (g : G) (reason : string) : Alert := {|
  al_Event := ev;
  al_RuleID := if bool_decide (gd_Mode g = ModeEnforce) then "egressguard.deny"
               else "egressguard.shadow_deny";
  al_Reason := "egressguard deny: " +:+ reason +:+ " (mode=" +:+ Mode_String (gd_Mode g) +:+
               " backend=" +:+ gd_BackendName g +:+ ")";
  al_EvidenceIDs := []; al_Mode := ModeDetect; al_Action := ""; al_Class := 2 |}.

Definition egress_key (r : Request) : string := r_DestIP r +:+ (":" +:+ Str.itoa (r_DestPort r)).

Definition egress_stage (d : D) (ev : Event) (p : Pipeline) : Event * Pipeline * list Alert :=
  match p_EgressGuard p with
  | None => (ev, p, [])
  | Some g =>
      if negb (is_connect ev) then (ev, p, []) else
      let req := egress_request ev in
      let '(dec, reason) := gd_Decide g req in
      let ev1 := set_tag "egress_reason" reason (set_tag "egress_decision" (Decision_String dec) ev) in
      if bool_decide (dec = EgressDeny) then
        let g1 := (gd_ApplyDeny d (r_LineageID req) (egress_key req) (5 * Time.Minute) g).1 in
        (ev1, with_guard (Some g1) p, if p_Emit p then [egress_alert ev1 g1 reason] else [])
      else (ev1, p, [])
  end.

(** the stages in the order of [Handle] *)
Definition egress_path (d : D) (ev : Event) (p : Pipeline) : Event * Pipeline * list Alert :=
  let '(ev1, p1) := taint_stage (policy_stage ev p) p in
  egress_stage d (zone_stage (asset_stage ev1 p1) p1) p1.

(** a stream of events, each with the environment of its deny *)
Fixpoint stream (evs : list (D * Event)) (p : Pipeline) : Pipeline * list (Event * list Alert) :=
  match evs with
  | [] => (p, [])
  | (d, ev) :: evs' =>
      let '(ev', p', al) := egress_path d ev p in
      let '(p'', out) := stream evs' p' in
      (p'', (ev', al) :: out)
  end.

(** ** Events up to their taint tags *)

Definition taint_tags : list string := ["secret_class"; "secret_taint"].

Definition erase (ev : Event) : Event := del_tag "secret_taint" (del_tag "secret_class" ev).

Definition same (e1 e2 : Event) : Prop := erase e1 = erase e2.

Lemma same_fields (e1 e2 : Event) : same e1 e2 →
  ev_Sensor e1 = ev_Sensor e2 ∧ ev_PID e1 = ev_PID e2 ∧ ev_CGroupID e1 = ev_CGroupID e2 ∧
  ev_UID e1 = ev_UID e2 ∧ ev_Comm e1 = ev_Comm e2 ∧ ev_Time e1 = ev_Time e2.
Proof. unfold same, erase, del_tag. intros He. injection He. intros. by split_and!. Qed.

Lemma same_tag (e1 e2 : Event) (k : string) : same e1 e2 → k ∉ taint_tags → tag e1 k = tag e2 k.
Proof.
  intros He Hk. unfold taint_tags in Hk. rewrite !not_elem_of_cons in Hk.
  destruct Hk as (Hk1 & Hk2 & _).
  assert (∀ e, tag (erase e) k = tag e k) as Hx.
  { intros e. unfold erase. by rewrite !tag_del_ne by done. }
  by rewrite <-(Hx e1), <-(Hx e2), He.
Qed.

Lemma same_set (e1 e2 : Event) (k v : string) :
  same e1 e2 → k ∉ taint_tags → same (set_tag k v e1) (set_tag k v e2).
Proof.
  intros He Hk. unfold taint_tags in Hk. rewrite !not_elem_of_cons in Hk.
  destruct Hk as (Hk1 & Hk2 & _). unfold same, erase in *.
  rewrite !(del_set_ne _ k) by congruence. by rewrite He.
Qed.

Lemma same_taint_tag (e1 e2 : Event) (k v : string) :
  same e1 e2 → k ∈ taint_tags → same (set_tag k v e1) e2.
Proof.
  intros He Hk. unfold same, erase in *. rewrite <-He. unfold taint_tags in Hk.
  rewrite !elem_of_cons in Hk. destruct Hk as [->|[->|?%elem_of_nil]]; [|..|done].
  - by rewrite del_set_eq.
  - rewrite (del_set_ne "secret_class") by done. by rewrite del_set_eq.
Qed.

(** ** The stages read no taint tag but [secret_taint] *)

(** rewrites the fields and tags of one event into those of the other *)
Ltac same_rewrite He :=
  destruct (same_fields _ _ He) as (?Hsensor & ?Hpid & ?Hcg & ?Huid & ?Hcomm & ?Htime);
  repeat match goal with
  | |- context [tag ?e ?k] =>
      match type of He with same e ?e' =>
        rewrite (same_tag e e' k He) by (by apply (bool_decide_unpack (k ∉ taint_tags)))
      end
  end.

Lemma same_lineage (e1 e2 : Event) : same e1 e2 → lineageIDFromEvent e1 = lineageIDFromEvent e2.
Proof. intros He. unfold lineageIDFromEvent. same_rewrite He. by rewrite Hpid, Hcg. Qed.

Lemma same_port (e1 e2 : Event) (k : string) :
  same e1 e2 → k ∉ taint_tags → port_tag e1 k = port_tag e2 k.
Proof. intros He Hk. unfold port_tag. by rewrite (same_tag e1 e2 k). Qed.

Lemma same_connect (e1 e2 : Event) : same e1 e2 → is_connect e1 = is_connect e2.
Proof. intros He. unfold is_connect. same_rewrite He. by rewrite Hsensor. Qed.

Lemma same_stamp_class (c : string) (e1 e2 : Event) :
  same e1 e2 → same (stamp_class c e1) (stamp_class c e2).
Proof.
  intros He. unfold stamp_class. case_match; [done|]. apply same_set; [done|].
  by apply (bool_decide_unpack (_ ∉ taint_tags)).
Qed.

Lemma same_asset (e1 e2 : Event) (p : Pipeline) :
  same e1 e2 → same (asset_stage e1 p) (asset_stage e2 p).
Proof.
  intros He. unfold asset_stage. destruct (p_AssetResolver p); [|done]. same_rewrite He.
  rewrite (same_port e1 e2 "dst_port") by (done || by apply (bool_decide_unpack (_ ∉ taint_tags))).
  repeat case_match; by try apply same_stamp_class.
Qed.

Lemma same_zone (e1 e2 : Event) (p : Pipeline) :
  same e1 e2 → same (zone_stage e1 p) (zone_stage e2 p).
Proof.
  intros He. unfold zone_stage. destruct (p_TrustZone p); [|done].
  rewrite (same_connect e1 e2 He).
  assert (zone_input e1 = zone_input e2) as ->.
  { unfold zone_input. same_rewrite He.
    rewrite (same_port e1 e2 "dst_port") by (done || by apply (bool_decide_unpack (_ ∉ taint_tags))).
    by rewrite Huid, Hcomm. }
  same_rewrite He. destruct (is_connect e2 && _); [|done].
  destruct (zone_Decide _ _) as [[za lbl] why]. destruct (Str.empty why);
    repeat apply same_set; done || by apply (bool_decide_unpack (_ ∉ taint_tags)).
Qed.

Lemma same_request (e1 e2 : Event) : same e1 e2 →
  egress_request e1 = set_taint (tag e1 "secret_taint") (egress_request e2).
Proof.
  intros He. unfold egress_request, set_taint. cbn [r_PID r_LineageID r_CGroupID r_AppName r_AppRole
    r_DestIP r_DestPort r_SNI r_DNSName r_DestClass r_AssetClass r_SecretTaint r_SourceID r_At
    r_PolicyCtx].
  generalize (tag e1 "secret_taint"). intros x. same_rewrite He.
  rewrite (same_port e1 e2 "dst_port") by (done || by apply (bool_decide_unpack (_ ∉ taint_tags))).
  by rewrite (same_lineage e1 e2 He), Hpid, Hcg, Htime.
Qed.

(** ** What the taint stage does *)

Lemma taint_tag_in (k : string) : bool_decide (k ∈ taint_tags) = true → k ∈ taint_tags.
Proof. by intros ?%bool_decide_eq_true. Qed.

Lemma observe_same (ev : Event) (s : S) : same (observe_touch ev s).1 ev.
Proof.
  unfold observe_touch. destruct (ClassifyEvent ev); [|done]. case_match; [done|].
  by apply same_taint_tag; [|apply taint_tag_in].
Qed.

Lemma stamp_same (ev : Event) (s : S) : same (stamp_taint ev s) ev.
Proof.
  unfold stamp_taint. repeat case_match; try done.
  by apply same_taint_tag; [|apply taint_tag_in].
Qed.

Lemma same_trans (e1 e2 e3 : Event) : same e1 e2 → same e2 e3 → same e1 e3.
Proof. unfold same. congruence. Qed.

Lemma taint_stage_same (ev : Event) (p : Pipeline) : same (taint_stage ev p).1 ev.
Proof.
  unfold taint_stage. destruct (p_SecretTaint p) as [s|]; [|done].
  pose proof (observe_same ev s) as Ho. destruct (observe_touch ev s) as [ev1 s1]. simpl in *.
  by eapply same_trans; [apply stamp_same|].
Qed.

(** the store after an event: touched for the event's lineage, if it was a touch *)
Lemma observe_state (ev : Event) (s : S) (l : Z) :
  st_State (observe_touch ev s).2 l =
    if decide (is_Some (ClassifyEvent ev) ∧ l = lineageIDFromEvent ev ∧ l ≠ 0%Z ∧
               st_State s l = TaintClean)
    then TaintSecretTouched else st_State s l.
Proof.
  unfold observe_touch. destruct (ClassifyEvent ev) as [c|]; cbn [snd].
  - destruct (lineageIDFromEvent ev =? 0)%Z eqn:Hz; bool_to_prop; cbn [snd].
    + rewrite decide_False; [done|]. naive_solver.
    + rewrite st_touch. cbn [touch_LineageID touch_of]. repeat case_decide; naive_solver.
  - rewrite decide_False; [done|]. by intros [[] _].
Qed.

(** no lineage has been promoted *)
Definition low (s : S) : Prop := ∀ l, rank (st_State s l) ≤ 1.

Lemma low_observe (ev : Event) (s : S) : low s → low (observe_touch ev s).2.
Proof. intros Hs l. rewrite observe_state. case_decide; [simpl; lia|]. apply Hs. Qed.

Lemma low_tag (ev : Event) (s : S) :
  low s → ¬ restricted (tag ev "secret_taint") → ¬ restricted (tag (stamp_taint ev s) "secret_taint").
Proof.
  intros Hs Hev. unfold stamp_taint. case_match; [done|]. case_decide; [done|].
  rewrite tag_set_eq. specialize (Hs (lineageIDFromEvent ev)). unfold restricted.
  destruct (st_State s (lineageIDFromEvent ev)); simpl in *; [|naive_solver|lia|lia]. done.
Qed.

Lemma observe_tag (ev : Event) (s : S) (k : string) :
  k ≠ "secret_class" → tag (observe_touch ev s).1 k = tag ev k.
Proof.
  intros Hk. unfold observe_touch. destruct (ClassifyEvent ev); [|done].
  case_match; [done|]. by apply tag_set_ne.
Qed.

(** the policy stage writes four tags that the taint stages do not read *)
Definition policy_tags : list string :=
  ["egress_policy_action"; "egress_policy_mode"; "egress_policy_id"; "egress_policy_matched_by"].

Lemma set_some_tag (k v k' : string) (ev : Event) : k' ≠ k → tag (set_some k v ev) k' = tag ev k'.
Proof. intros Hk. unfold set_some. case_match; [done|]. by apply tag_set_ne. Qed.

Lemma set_some_fields (k v : string) (ev : Event) :
  ev_Sensor (set_some k v ev) = ev_Sensor ev ∧ ev_PID (set_some k v ev) = ev_PID ev ∧
  ev_CGroupID (set_some k v ev) = ev_CGroupID ev ∧ ev_UID (set_some k v ev) = ev_UID ev ∧
  ev_Comm (set_some k v ev) = ev_Comm ev.
Proof. unfold set_some. by case_match. Qed.

Lemma policy_tag (ev : Event) (p : Pipeline) (k : string) :
  k ∉ policy_tags → tag (policy_stage ev p) k = tag ev k.
Proof.
  unfold policy_tags. rewrite !not_elem_of_cons. intros (H1 & H2 & H3 & H4 & _). unfold policy_stage.
  repeat (case_match; [|done]). by rewrite !set_some_tag, !tag_set_ne.
Qed.

Lemma policy_fields (ev : Event) (p : Pipeline) :
  ev_Sensor (policy_stage ev p) = ev_Sensor ev ∧ ev_PID (policy_stage ev p) = ev_PID ev ∧
  ev_CGroupID (policy_stage ev p) = ev_CGroupID ev ∧ ev_UID (policy_stage ev p) = ev_UID ev ∧
  ev_Comm (policy_stage ev p) = ev_Comm ev.
Proof. unfold policy_stage, set_some. by repeat case_match. Qed.

Ltac policy_rewrite ev p :=
  destruct (policy_fields ev p) as (?Hs & ?Hp & ?Hc & ?Hu & ?Hm);
  rewrite ?(policy_tag ev p) by (by apply (bool_decide_unpack (_ ∉ policy_tags)));
  rewrite ?Hs, ?Hp, ?Hc, ?Hu, ?Hm.

Lemma policy_lineage (ev : Event) (p : Pipeline) :
  lineageIDFromEvent (policy_stage ev p) = lineageIDFromEvent ev ∧
  is_connect (policy_stage ev p) = is_connect ev.
Proof. unfold lineageIDFromEvent, is_connect. by policy_rewrite ev p. Qed.

Lemma policy_classify (ev : Event) (p : Pipeline) : ClassifyEvent (policy_stage ev p) = ClassifyEvent ev.
Proof.
  destruct (is_connect ev) eqn:Hcon.
  - unfold ClassifyEvent. policy_rewrite ev p. unfold is_connect in Hcon. bool_to_prop. rewrite H1.
    by rewrite !(bool_decide_eq_false_2 ("ebpf.net" = "ebpf.file")), !(bool_decide_eq_false_2 ("ebpf.net" = "fim")) by done.
  - unfold policy_stage. rewrite Hcon. by destruct (p_EgressPolicy p).
Qed.

(** later stages keep the taint tag *)
Lemma asset_keeps (ev : Event) (p : Pipeline) :
  tag (asset_stage ev p) "secret_taint" = tag ev "secret_taint".
Proof.
  unfold asset_stage, stamp_class. repeat (case_match; try done); by rewrite tag_set_ne.
Qed.

Lemma zone_keeps (ev : Event) (p : Pipeline) :
  tag (zone_stage ev p) "secret_taint" = tag ev "secret_taint".
Proof. unfold zone_stage. repeat (case_match; try done); by rewrite !tag_set_ne. Qed.

Lemma egress_keeps (d : D) (ev : Event) (p : Pipeline) :
  tag (egress_stage d ev p).1.1 "secret_taint" = tag ev "secret_taint".
Proof. unfold egress_stage. repeat (case_match; simpl; try done); by rewrite !tag_set_ne. Qed.

Lemma egress_keeps_store (d : D) (ev : Event) (p : Pipeline) :
  p_SecretTaint (egress_stage d ev p).1.2 = p_SecretTaint p.
Proof. unfold egress_stage. by repeat (case_match; simpl; try done). Qed.

Lemma stream_app (es fs : list (D * Event)) : ∀ p : Pipeline,
  (stream (es ++ fs) p).1 = (stream fs (stream es p).1).1.
Proof.
  induction es as [|[d e] es IH]; intros p; [done|]. simpl.
  destruct (egress_path d e p) as [[e1 p1] a1]. specialize (IH p1).
  destruct (stream (es ++ fs) p1), (stream es p1). exact IH.
Qed.

(** ** Two runs that differ only in taint *)

(** alerts equal up to the taint tags of their events *)
Definition same_alert (a b : Alert) : Prop :=
  same (al_Event a) (al_Event b) ∧ al_RuleID a = al_RuleID b ∧ al_Reason a = al_Reason b ∧
  al_EvidenceIDs a = al_EvidenceIDs b ∧ al_Mode a = al_Mode b ∧ al_Action a = al_Action b ∧
  al_Class a = al_Class b.

Definition same_out (a b : Event * list Alert) : Prop := same a.1 b.1 ∧ Forall2 same_alert a.2 b.2.

(** pipelines equal up to their taint stores *)
Definition same_pipe (p q : Pipeline) : Prop := with_taint None p = with_taint None q.

Lemma same_egress (d : D) (e1 e2 : Event) (p q : Pipeline) :
  same e1 e2 → ¬ restricted (tag e1 "secret_taint") → ¬ restricted (tag e2 "secret_taint") →
  same_pipe p q →
  let r1 := egress_stage d e1 p in let r2 := egress_stage d e2 q in
  same_out (r1.1.1, r1.2) (r2.1.1, r2.2) ∧ same_pipe r1.1.2 r2.1.2.
Proof.
  intros He Ht1 Ht2 Hp. unfold egress_stage.
  assert (p_EgressGuard p = p_EgressGuard q ∧ p_Emit p = p_Emit q) as [-> Hemit]
    by (unfold same_pipe, with_taint in Hp; by simplify_eq).
  destruct (p_EgressGuard q) as [g|]; [|by repeat split].
  rewrite (same_connect e1 e2 He). destruct (negb (is_connect e2)); [by repeat split|].
  rewrite (same_request e1 e2 He), gd_taint by done. unfold egress_key.
  cbn [r_LineageID r_DestIP r_DestPort set_taint].
  destruct (gd_Decide g (egress_request e2)) as [dec reason].
  set (k1 := set_tag "egress_reason" reason (set_tag "egress_decision" (Decision_String dec) e1)).
  set (k2 := set_tag "egress_reason" reason (set_tag "egress_decision" (Decision_String dec) e2)).
  assert (same k1 k2) as Hk
    by (repeat apply same_set; done || by apply (bool_decide_unpack (_ ∉ taint_tags))).
  destruct (bool_decide (dec = EgressDeny)); simpl; [|by repeat split].
  rewrite Hemit. unfold same_pipe, with_taint, with_guard in *. simpl.
  split; [|injection Hp; intros; congruence]. split; [done|]. simpl.
  destruct (p_Emit q); repeat constructor; done.
Qed.

Lemma same_zone_asset (e1 e2 : Event) (p q : Pipeline) :
  same e1 e2 → same_pipe p q →
  same (zone_stage (asset_stage e1 p) p) (zone_stage (asset_stage e2 q) q).
Proof.
  intros He Hp.
  assert (∀ e, asset_stage e p = asset_stage e q ∧ zone_stage e p = zone_stage e q) as Hpq.
  { intros e. unfold asset_stage, zone_stage, same_pipe, with_taint in *.
    injection Hp. intros _ _ -> -> _. done. }
  destruct (Hpq e1) as [-> _]. destruct (Hpq (asset_stage e1 q)) as [_ ->].
  by apply same_zone, same_asset.
Qed.

Lemma path_same (d : D) (ev : Event) (p q : Pipeline) (s : S) :
  p_SecretTaint p = Some s → low s → p_SecretTaint q = None → same_pipe p q →
  ¬ restricted (tag ev "secret_taint") →
  let r1 := egress_path d ev p in let r2 := egress_path d ev q in
  same_out (r1.1.1, r1.2) (r2.1.1, r2.2) ∧ same_pipe r1.1.2 r2.1.2 ∧
  p_SecretTaint r2.1.2 = None ∧ ∃ s', p_SecretTaint r1.1.2 = Some s' ∧ low s'.
Proof.
  intros Hs Hlow Hq Hp Ht0. unfold egress_path, taint_stage.
  assert (policy_stage ev p = policy_stage ev q) as ->.
  { unfold policy_stage. unfold same_pipe, with_taint in Hp. injection Hp. by intros _ _ _ _ ->. }
  assert (¬ restricted (tag (policy_stage ev q) "secret_taint")) as Ht.
  { by rewrite policy_tag by (by apply (bool_decide_unpack (_ ∉ policy_tags))). }
  clear Ht0. revert Ht. generalize (policy_stage ev q). clear ev. intros ev Ht. rewrite Hs, Hq.
  pose proof (observe_same ev s) as Ho. pose proof (low_observe ev s Hlow) as Hl.
  pose proof (observe_tag ev s "secret_taint" ltac:(done)) as Htag.
  destruct (observe_touch ev s) as [ev1 s1]. cbn [fst snd] in *.
  set (p1 := with_taint (Some s1) p).
  assert (same_pipe p1 q) as Hp1 by done.
  destruct (same_egress d (zone_stage (asset_stage (stamp_taint ev1 s1) p1) p1)
              (zone_stage (asset_stage ev q) q) p1 q) as [Hout Hpipe].
  - apply same_zone_asset; [|done]. by eapply same_trans; [apply stamp_same|].
  - rewrite zone_keeps, asset_keeps. apply low_tag; [done|]. by rewrite Htag.
  - by rewrite zone_keeps, asset_keeps.
  - done.
  - split_and!; [done..| |].
    + by rewrite egress_keeps_store.
    + exists s1. by rewrite egress_keeps_store.
Qed.

Lemma stream_same (evs : list (D * Event)) : ∀ (p q : Pipeline) (s : S),
  p_SecretTaint p = Some s → low s → p_SecretTaint q = None → same_pipe p q →
  Forall (λ x, ¬ restricted (tag x.2 "secret_taint")) evs →
  same_pipe (stream evs p).1 (stream evs q).1 ∧
  Forall2 same_out (stream evs p).2 (stream evs q).2.
Proof.
  induction evs as [|[d ev] evs IH]; intros p q s Hs Hlow Hq Hp Hevs; [done|].
  inversion Hevs as [|? ? Hev Hevs']; simplify_eq. simpl in Hev |- *.
  destruct (path_same d ev p q s Hs Hlow Hq Hp Hev) as (Hout & Hp' & Hq' & s' & Hs' & Hlow').
  destruct (egress_path d ev p) as [[e1 p1] a1]. destruct (egress_path d ev q) as [[e2 q1] a2].
  cbn [fst snd] in *. destruct (IH p1 q1 s' Hs' Hlow' Hq' Hp' Hevs') as [Hpipe Houts].
  destruct (stream evs p1) as [p2 o1]. destruct (stream evs q1) as [q2 o2].
  cbn [fst snd] in *. split; [done|]. by constructor.
Qed.

(** ** Taint is kept *)

Lemma path_store (d : D) (ev : Event) (p : Pipeline) (s : S) :
  p_SecretTaint p = Some s →
  let ev0 := policy_stage ev p in
  p_SecretTaint (egress_path d ev p).1.2 = Some (observe_touch ev0 s).2 ∧
  tag (egress_path d ev p).1.1 "secret_taint" =
    tag (stamp_taint (observe_touch ev0 s).1 (observe_touch ev0 s).2) "secret_taint".
Proof.
  intros Hs ev0. unfold egress_path, taint_stage. fold ev0. rewrite Hs.
  destruct (observe_touch ev0 s) as [ev1 s1]. cbn [fst snd].
  split; [by rewrite egress_keeps_store|]. by rewrite egress_keeps, zone_keeps, asset_keeps.
Qed.

Lemma stream_has_store (evs : list (D * Event)) : ∀ p : Pipeline,
  p_SecretTaint p ≠ None → p_SecretTaint (stream evs p).1 ≠ None.
Proof.
  induction evs as [|[d0 e0] evs IH]; intros q Hq; [done|]. simpl.
  destruct (p_SecretTaint q) as [sq|] eqn:Hsq; [|done].
  destruct (path_store d0 e0 q sq Hsq) as [Hn _].
  destruct (egress_path d0 e0 q) as [[e1 q1] a1]. simpl in Hn.
  specialize (IH q1). destruct (stream evs q1). apply IH. simpl. by rewrite Hn.
Qed.

Lemma stream_store (evs : list (D * Event)) (l : Z) : ∀ (p : Pipeline) (s : S),
  p_SecretTaint p = Some s → st_State s l ≠ TaintClean →
  ∃ s', p_SecretTaint (stream evs p).1 = Some s' ∧ st_State s' l ≠ TaintClean.
Proof.
  induction evs as [|[d ev] evs IH]; intros p s Hs Hl; [by exists s|]. simpl.
  destruct (path_store d ev p s Hs) as [Hs' _].
  assert (st_State (observe_touch (policy_stage ev p) s).2 l ≠ TaintClean) as Hl'.
  { rewrite observe_state. by case_decide. }
  destruct (egress_path d ev p) as [[e1 p1] a1]. cbn [fst snd] in *.
  destruct (IH p1 _ Hs' Hl') as (s2 & Hs2 & Hl2).
  destruct (stream evs p1) as [p2 out]. simpl in *. by exists s2.
Qed.

(** ** A denial of the trust zones *)

Lemma asset_tag (ev : Event) (p : Pipeline) (k : string) :
  k ≠ "asset_class" → tag (asset_stage ev p) k = tag ev k.
Proof.
  intros Hk. unfold asset_stage, stamp_class. repeat (case_match; try done); by rewrite tag_set_ne.
Qed.

Lemma asset_fields (ev : Event) (p : Pipeline) :
  ev_Sensor (asset_stage ev p) = ev_Sensor ev ∧ ev_PID (asset_stage ev p) = ev_PID ev ∧
  ev_CGroupID (asset_stage ev p) = ev_CGroupID ev ∧ ev_UID (asset_stage ev p) = ev_UID ev ∧
  ev_Comm (asset_stage ev p) = ev_Comm ev.
Proof. unfold asset_stage, stamp_class. by repeat (case_match; try done). Qed.

Lemma asset_zone_input (ev : Event) (p : Pipeline) :
  zone_input (asset_stage ev p) = zone_input ev ∧ is_connect (asset_stage ev p) = is_connect ev ∧
  lineageIDFromEvent (asset_stage ev p) = lineageIDFromEvent ev.
Proof.
  destruct (asset_fields ev p) as (Hs & Hpid & Hcg & Hu & Hco).
  unfold zone_input, is_connect, lineageIDFromEvent, port_tag.
  by rewrite !asset_tag, Hs, Hpid, Hcg, Hu, Hco.
Qed.

Lemma zone_tag (ev : Event) (p : Pipeline) (k : string) :
  k ∉ ["trustzone_action"; "trustzone_label"; "trustzone_reason"] →
  tag (zone_stage ev p) k = tag ev k.
Proof.
  rewrite !not_elem_of_cons. intros (H1 & H2 & H3 & _). unfold zone_stage.
  repeat (case_match; try done); by rewrite !tag_set_ne.
Qed.

Lemma zone_fields (ev : Event) (p : Pipeline) :
  ev_Sensor (zone_stage ev p) = ev_Sensor ev ∧ ev_PID (zone_stage ev p) = ev_PID ev ∧
  ev_CGroupID (zone_stage ev p) = ev_CGroupID ev.
Proof. unfold zone_stage. by repeat (case_match; try done). Qed.

Lemma zone_connect_lineage (ev : Event) (p : Pipeline) :
  is_connect (zone_stage ev p) = is_connect ev ∧
  lineageIDFromEvent (zone_stage ev p) = lineageIDFromEvent ev.
Proof.
  destruct (zone_fields ev p) as (Hs & Hpid & Hcg). unfold is_connect, lineageIDFromEvent.
  by rewrite !zone_tag, Hs, Hpid, Hcg by (by apply (bool_decide_unpack (_ ∉ _))).
Qed.

Lemma zone_action (ev : Event) (p : Pipeline) (m : Manager) :
  p_TrustZone p = Some m → is_connect ev = true → tag ev "egress_policy_id" = "" →
  tag (zone_stage ev p) "trustzone_action" =
    ZoneAction_String (zone_Decide (Some m) (zone_input ev)).1.1.
Proof.
  intros Hm Hc Hid. unfold zone_stage. rewrite Hm, Hc, Hid.
  destruct (zone_Decide (Some m) (zone_input ev)) as [[za lbl] why]. simpl.
  destruct (Str.empty why);
    by rewrite ?(tag_set_ne "trustzone_reason"), (tag_set_ne "trustzone_label"), tag_set_eq.
Qed.

(** what the taint, asset and zone stages leave alone *)
Definition stage_tags : list string :=
  ["secret_class"; "secret_taint"; "asset_class"; "trustzone_action"; "trustzone_label"; "trustzone_reason"].

Lemma stages_tag (ev ev1 : Event) (p : Pipeline) (k : string) :
  same ev1 ev → k ∉ stage_tags → tag (zone_stage (asset_stage ev1 p) p) k = tag ev k.
Proof.
  unfold stage_tags. rewrite !not_elem_of_cons. intros He (H1 & H2 & H3 & H4 & H5 & H6 & _).
  rewrite zone_tag, asset_tag by (rewrite ?not_elem_of_cons; split_and?; done || apply not_elem_of_nil).
  apply same_tag; [done|]. unfold taint_tags. rewrite !not_elem_of_cons. split_and!; [done..|apply not_elem_of_nil].
Qed.

(** the request the guard sees has the event's lineage and destination *)
Lemma stages_request (ev ev1 : Event) (p : Pipeline) :
  same ev1 ev → is_connect ev = true →
  let e2 := zone_stage (asset_stage ev1 p) p in
  is_connect e2 = true ∧ r_LineageID (egress_request e2) = lineageIDFromEvent ev ∧
  egress_key (egress_request e2) = tag ev "dst_ip" +:+ (":" +:+ Str.itoa (port_tag ev "dst_port")).
Proof.
  intros He Hc e2. unfold egress_key, port_tag. cbn [r_LineageID r_DestIP r_DestPort egress_request].
  pose proof (same_zone _ _ p (same_asset ev1 ev p He)) as Hs. fold e2 in Hs.
  destruct (asset_zone_input ev p) as (_ & Hco & Hli).
  destruct (zone_connect_lineage (asset_stage ev p) p) as [Hzc Hzl].
  rewrite (same_connect _ _ Hs), (same_lineage _ _ Hs), Hzc, Hzl, Hco, Hli. split_and!; [done..|].
  subst e2. unfold port_tag. by rewrite !(stages_tag ev ev1) by (done || by apply (bool_decide_unpack (_ ∉ stage_tags))).
Qed.

(** the pre-computed answer when the trust zone denies *)
Lemma zone_denial_override (ev ev1 : Event) (p : Pipeline) (m : Manager) :
  same ev1 ev → is_connect ev = true → tag ev "egress_policy_id" = "" →
  tag ev "egress_policy_action" ∉ ["deny"; "allow"; "verify"] → p_TrustZone p = Some m →
  (zone_Decide (Some m) (zone_input ev)).1.1 ∈ [ZoneDeny; ZoneTorRequire] →
  ∃ rsn, policyOverride (r_PolicyCtx (egress_request (zone_stage (asset_stage ev1 p) p))) = Some (EgressDeny, rsn) ∧
    Str.HasPrefix rsn "trustzone " = true.
Proof.
  intros He Hc Hid Hact Hm Hz. unfold policyOverride.
  cbn [r_PolicyCtx egress_request EgressPolicyAction TrustZoneAction PolicyID PolicyMatchedBy ZoneLabel].
  rewrite !(stages_tag ev ev1 p "egress_policy_action") by (done || by apply (bool_decide_unpack (_ ∉ stage_tags))).
  rewrite !not_elem_of_cons in Hact. destruct Hact as (H1 & H2 & H3 & _). rewrite !decide_False by done.
  destruct (asset_zone_input ev p) as (Hzi & Hco & _).
  rewrite (same_tag _ _ "trustzone_action" (same_zone _ _ p (same_asset ev1 ev p He)))
    by (by apply (bool_decide_unpack (_ ∉ taint_tags))).
  rewrite (zone_action _ p m), Hzi by (by rewrite ?Hco, ?asset_tag).
  rewrite !elem_of_cons in Hz. destruct Hz as [->|[->|?%elem_of_nil]]; [..|done]; simpl;
    eexists; (split; [done|done]).
Qed.

(** the taint stage touches nothing but the taint store *)
Lemma taint_stage_pipe (ev : Event) (p : Pipeline) : same_pipe (taint_stage ev p).2 p.
Proof.
  unfold taint_stage, same_pipe. destruct (p_SecretTaint p); [|done]. by destruct (observe_touch ev _).
Qed.

(** an event the guard gets a pre-computed answer for *)
Lemma egress_override (d : D) (ev : Event) (p : Pipeline) (g : G) (dec : Decision) (rsn : string) :
  p_EgressGuard p = Some g → is_connect ev = true →
  policyOverride (r_PolicyCtx (egress_request ev)) = Some (dec, rsn) →
  let r := egress_stage d ev p in
  let g' := (gd_ApplyDeny d (r_LineageID (egress_request ev)) (egress_key (egress_request ev)) (5 * Time.Minute) g).1 in
  tag r.1.1 "egress_decision" = Decision_String dec ∧
  (dec = EgressDeny → p_EgressGuard r.1.2 = Some g' ∧
     r.2 = if p_Emit p then [egress_alert r.1.1 g' rsn] else []) ∧
  (dec ≠ EgressDeny → p_EgressGuard r.1.2 = Some g ∧ r.2 = []).
Proof.
  intros Hg Hc Hov r g'. subst r. unfold egress_stage. rewrite Hg, Hc. cbn [negb].
  rewrite (gd_override g _ _ Hov). case_bool_decide; cbn [fst snd]; rewrite tag_set_ne, tag_set_eq by done;
    split_and!; naive_solver.
Qed.

(** ** Properties *)

(** C9: secret taint never changes an egress outcome: start the daemon with a
    store in which nothing has been promoted, feed it any stream of events that
    do not arrive already stamped as restricted, and every kernel push, every
    egress decision and every egress alert is the one the same pipeline makes
    without a taint store; the events differ in the two taint tags alone. *)
Theorem taint_never_changes_egress (evs : list (D * Event)) (p : Pipeline) (s : S) :
  p_SecretTaint p = Some s → (∀ l, rank (st_State s l) ≤ 1) →
  Forall (λ x, ¬ restricted (tag x.2 "secret_taint")) evs →
  let r := stream evs p in let r' := stream evs (with_taint None p) in
  p_EgressGuard r.1 = p_EgressGuard r'.1 ∧ Forall2 same_out r.2 r'.2.
Proof.
  intros Hs Hlow Hevs r r'.
  destruct (stream_same evs p (with_taint None p) s Hs Hlow eq_refl eq_refl Hevs) as [Hp Ho].
  split; [|exact Ho]. unfold same_pipe, with_taint in Hp. injection Hp. by intros.
Qed.

(** a lineage that touched a secret stays marked: once an event of a lineage
    is classified as a secret touch, every later event of that lineage leaves
    the stages stamped with a taint state that is not clean, whatever the
    stream carries in between. *)
Theorem touched_lineage_stays_stamped (pre mid : list (D * Event)) (d d' : D) (ev ev' : Event)
    (p : Pipeline) (s : S) (c : SecretClass) :
  p_SecretTaint p = Some s → ClassifyEvent ev = Some c →
  lineageIDFromEvent ev ≠ 0%Z → lineageIDFromEvent ev' = lineageIDFromEvent ev →
  let p1 := (stream (pre ++ (d, ev) :: mid) p).1 in
  ∃ t, t ≠ TaintClean ∧
    tag (egress_path d' ev' p1).1.1 "secret_taint" = TaintState_String t.
Proof.
  intros Hs Hc Hl Hl' p1.
  assert (∃ s1, p_SecretTaint p1 = Some s1 ∧ st_State s1 (lineageIDFromEvent ev) ≠ TaintClean)
    as (s1 & Hs1 & Hst).
  { subst p1. rewrite stream_app. pose proof (stream_has_store pre p ltac:(by rewrite Hs)) as Hp.
    destruct (p_SecretTaint (stream pre p).1) as [s0|] eqn:Hs0; [|done]. simpl.
    destruct (path_store d ev (stream pre p).1 s0 Hs0) as [Hn _].
    assert (st_State (observe_touch (policy_stage ev (stream pre p).1) s0).2 (lineageIDFromEvent ev) ≠ TaintClean) as Hn'.
    { rewrite observe_state. case_decide as Hd; [done|]. intros Hcl. apply Hd.
      rewrite policy_classify, Hc. destruct (policy_lineage ev (stream pre p).1) as [-> _]. naive_solver. }
    destruct (egress_path d ev (stream pre p).1) as [[e1 q1] a1]. simpl in Hn |- *.
    destruct (stream_store mid _ q1 _ Hn Hn') as (s2 & Hs2 & Hl2).
    destruct (stream mid q1) as [p2 o2]. simpl in *. by exists s2. }
  destruct (path_store d' ev' p1 s1 Hs1) as [_ ->].
  set (ev0 := policy_stage ev' p1).
  exists (st_State (observe_touch ev0 s1).2 (lineageIDFromEvent ev)).
  assert (st_State (observe_touch ev0 s1).2 (lineageIDFromEvent ev) ≠ TaintClean) as Hne.
  { rewrite observe_state. by case_decide. }
  split; [done|]. unfold stamp_taint.
  rewrite (same_lineage _ _ (observe_same ev0 s1)). destruct (policy_lineage ev' p1) as [Hlin _].
  fold ev0 in Hlin. rewrite Hlin, Hl'.
  rewrite (proj2 (Z.eqb_neq _ 0)) by done. by rewrite decide_False, tag_set_eq.
Qed.

(** no policy covers the event: the engine is absent, or finds none *)
Definition no_policy (ev : Event) (p : Pipeline) : Prop :=
  tag ev "egress_policy_id" = "" ∧ tag ev "egress_policy_action" ∉ ["deny"; "allow"; "verify"] ∧
  ∀ e, p_EgressPolicy p = Some e →
    let d := EgressPolicy.Decide (Some e) (policy_request ev) in pd_PolicyID d = "" ∧ pd_Action d = ActionObserve.

Lemma no_policy_stage (ev : Event) (p : Pipeline) : no_policy ev p →
  tag (policy_stage ev p) "egress_policy_id" = "" ∧
  tag (policy_stage ev p) "egress_policy_action" ∉ ["deny"; "allow"; "verify"].
Proof.
  intros (Hid & Hact & He). unfold policy_stage. destruct (p_EgressPolicy p) as [e|]; [|done].
  destruct (He e eq_refl) as [Hpid Hpa]. destruct (is_connect ev); [|done].
  rewrite !(set_some_tag "egress_policy_matched_by"), Hpid by done.
  assert (∀ x, set_some "egress_policy_id" "" x = x) as Hsome by done. rewrite Hsome.
  rewrite !(tag_set_ne "egress_policy_mode"), tag_set_eq, (tag_set_ne "egress_policy_action"), Hpa by done.
  split; [done|]. by apply (bool_decide_unpack (_ ∉ _)).
Qed.

Lemma policy_zone_input (ev : Event) (p : Pipeline) : zone_input (policy_stage ev p) = zone_input ev.
Proof. unfold zone_input, port_tag. by policy_rewrite ev p. Qed.

(** a trust-zone denial reaches the kernel path: a connect that no binary
    policy covers, from an untrusted subject to an external destination or from
    a tor-only subject past its local listeners, is stamped "deny", handed to
    the guard's deny path for exactly the key "ip:port" of the event's lineage,
    and reported by one alert naming the zone. *)
Theorem zone_denial_is_enforced (d : D) (ev : Event) (p : Pipeline) (m : Manager) (g : G) :
  is_connect ev = true → no_policy ev p →
  p_TrustZone p = Some m → p_EgressGuard p = Some g → p_Emit p = true →
  (zone_Decide (Some m) (zone_input ev)).1.1 ∈ [ZoneDeny; ZoneTorRequire] →
  let r := egress_path d ev p in
  tag r.1.1 "egress_decision" = "deny" ∧
  p_EgressGuard r.1.2 =
    Some (gd_ApplyDeny d (lineageIDFromEvent ev)
            (tag ev "dst_ip" +:+ (":" +:+ Str.itoa (port_tag ev "dst_port"))) (5 * Time.Minute) g).1 ∧
  ∃ a, r.2 = [a] ∧ al_RuleID a = (if bool_decide (gd_Mode g = ModeEnforce)
                                 then "egressguard.deny" else "egressguard.shadow_deny") ∧
    Str.HasPrefix (al_Reason a) "egressguard deny: trustzone " = true.
Proof.
  intros Hc Hno Hm Hg Hemit Hz. unfold egress_path.
  destruct (no_policy_stage ev p Hno) as [Hid Hact]. destruct (policy_lineage ev p) as [Hl0 Hc0].
  pose proof (policy_zone_input ev p) as Hz0. pose proof (taint_stage_same (policy_stage ev p) p) as He0.
  pose proof (taint_stage_pipe (policy_stage ev p) p) as Hp0.
  destruct (taint_stage (policy_stage ev p) p) as [ev1 p1]. cbn [fst snd] in *.
  unfold same_pipe, with_taint in Hp0. injection Hp0. intros Hemit1 Hg1 Hm1 _ _. clear Hp0.
  rewrite Hg in Hg1. rewrite Hm in Hm1. rewrite <-Hc0 in Hc. rewrite <-Hz0 in Hz.
  destruct (stages_request _ ev1 p1 He0 Hc) as (Hconn & Hlin & Hkey).
  destruct (zone_denial_override _ ev1 p1 m He0 Hc Hid Hact Hm1 Hz) as (rsn & Hov & Hrsn).
  destruct (egress_override d _ p1 g EgressDeny rsn Hg1 Hconn Hov) as (H1 & H2 & _).
  destruct (H2 eq_refl) as [-> ->]. rewrite Hemit1, Hemit, Hkey, Hlin, Hl0. split; [done|]. split.
  { unfold port_tag. by rewrite !(policy_tag ev p) by (by apply (bool_decide_unpack (_ ∉ policy_tags))). }
  eexists. split; [done|]. cbn [al_RuleID al_Reason egress_alert].
  rewrite gd_mode_stable. split; [done|]. apply Str.HasPrefix_spec.
  apply Str.HasPrefix_spec in Hrsn as [t ->]. eexists. by rewrite <-!Str.app_assoc.
Qed.

(** what reaches the guard when the policy engine has spoken *)
Lemma policy_reaches_guard (d : D) (ev : Event) (p : Pipeline) (e : EgressPolicy.Engine) (g : G) :
  is_connect ev = true → p_EgressPolicy p = Some e → p_EgressGuard p = Some g →
  ∃ e2 p1, egress_path d ev p = egress_stage d e2 p1 ∧ p_EgressGuard p1 = Some g ∧ p_Emit p1 = p_Emit p ∧
    is_connect e2 = true ∧ r_LineageID (egress_request e2) = lineageIDFromEvent ev ∧
    egress_key (egress_request e2) = tag ev "dst_ip" +:+ (":" +:+ Str.itoa (port_tag ev "dst_port")) ∧
    tag e2 "egress_policy_action" = Action_String (pd_Action (EgressPolicy.Decide (Some e) (policy_request ev))).
Proof.
  intros Hc He Hg. unfold egress_path. destruct (policy_lineage ev p) as [Hl0 Hc0].
  set (verdict := EgressPolicy.Decide (Some e) (policy_request ev)).
  assert (tag (policy_stage ev p) "egress_policy_action" = Action_String (pd_Action verdict)) as Hact.
  { unfold policy_stage. rewrite He, Hc, !set_some_tag, tag_set_ne, tag_set_eq by done. done. }
  pose proof (taint_stage_same (policy_stage ev p) p) as He0.
  pose proof (taint_stage_pipe (policy_stage ev p) p) as Hp0.
  destruct (taint_stage (policy_stage ev p) p) as [ev1 p1]. cbn [fst snd] in *.
  unfold same_pipe, with_taint in Hp0. injection Hp0. intros Hemit1 Hg1 _ _ _. clear Hp0.
  rewrite Hg in Hg1. rewrite <-Hc0 in Hc.
  destruct (stages_request _ ev1 p1 He0 Hc) as (Hconn & Hlin & Hkey).
  exists (zone_stage (asset_stage ev1 p1) p1), p1. split_and!; [done|done|done|done|by rewrite Hlin| |].
  - rewrite Hkey. unfold port_tag. by rewrite !(policy_tag ev p) by (by apply (bool_decide_unpack (_ ∉ policy_tags))).
  - by rewrite (stages_tag _ ev1 p1 _ He0) by (by apply (bool_decide_unpack (_ ∉ stage_tags))).
Qed.

Lemma policy_denies (d : D) (ev : Event) (p : Pipeline) (e : EgressPolicy.Engine) (g : G) :
  is_connect ev = true → p_EgressPolicy p = Some e → p_EgressGuard p = Some g → p_Emit p = true →
  pd_Action (EgressPolicy.Decide (Some e) (policy_request ev)) = ActionDeny →
  let r := egress_path d ev p in
  tag r.1.1 "egress_decision" = "deny" ∧
  p_EgressGuard r.1.2 =
    Some (gd_ApplyDeny d (lineageIDFromEvent ev)
            (tag ev "dst_ip" +:+ (":" +:+ Str.itoa (port_tag ev "dst_port"))) (5 * Time.Minute) g).1 ∧
  ∃ a, r.2 = [a] ∧ Str.HasPrefix (al_Reason a) "egressguard deny: egresspolicy: " = true.
Proof.
  intros Hc He Hg Hemit Hv. destruct (policy_reaches_guard d ev p e g Hc He Hg) as (e2 & p1 & -> & Hg1 & Hem & Hc2 & Hl & Hk & Ha).
  rewrite Hv in Ha. cbn in Ha. cbv zeta.
  destruct (egress_override d e2 p1 g EgressDeny ("egresspolicy: " +:+ tag e2 "egress_policy_matched_by") Hg1 Hc2)
    as (H1 & H2 & _); [unfold policyOverride; cbn; by rewrite Ha|].
  destruct (H2 eq_refl) as [-> ->]. rewrite Hem, Hemit, Hk, Hl. split_and!; [done..|].
  eexists. split; [done|]. cbn [al_Reason egress_alert]. apply Str.HasPrefix_spec. eexists. by rewrite <-!Str.app_assoc.
Qed.

(** C7: A binary policy has the last word.  When the egress policy engine allows
    or denies a connect, the guard's decision is that one, whatever the trust
    zone, the taint of the lineage and the guard's own rules say: a denial is
    handed to the deny path for the event's lineage and "ip:port" and reported
    by one alert naming the rule, an allowance pushes nothing and reports
    nothing. *)
Theorem policy_has_last_word (d : D) (ev : Event) (p : Pipeline) (e : EgressPolicy.Engine) (g : G) :
  is_connect ev = true → p_EgressPolicy p = Some e → p_EgressGuard p = Some g → p_Emit p = true →
  let verdict := EgressPolicy.Decide (Some e) (policy_request ev) in
  let r := egress_path d ev p in
  (pd_Action verdict = ActionDeny →
     tag r.1.1 "egress_decision" = "deny" ∧
     p_EgressGuard r.1.2 =
       Some (gd_ApplyDeny d (lineageIDFromEvent ev)
               (tag ev "dst_ip" +:+ (":" +:+ Str.itoa (port_tag ev "dst_port"))) (5 * Time.Minute) g).1 ∧
     ∃ a, r.2 = [a] ∧ Str.HasPrefix (al_Reason a) "egressguard deny: egresspolicy: " = true) ∧
  (pd_Action verdict = ActionAllow →
     tag r.1.1 "egress_decision" = "allow" ∧ p_EgressGuard r.1.2 = Some g ∧ r.2 = []).
Proof.
  intros Hc He Hg Hemit verdict. split; intros Hv; [by apply (policy_denies d ev p e g)|].
  destruct (policy_reaches_guard d ev p e g Hc He Hg) as (e2 & p1 & -> & Hg1 & _ & Hc2 & _ & _ & Ha).
  fold verdict in Ha. rewrite Hv in Ha. cbn in Ha.
  destruct (egress_override d e2 p1 g EgressAllow ("egresspolicy: " +:+ tag e2 "egress_policy_id") Hg1 Hc2)
    as (H1 & _ & H2); [unfold policyOverride; cbn; by rewrite Ha|].
  by destruct (H2 ltac:(done)) as [-> ->].
Qed.

End stages.

(** ** The library's store and guard are instances *)

Lemma memStore_touch (t : Touch) (s : memStore) (l : Z) :
  StateForLineage (ObserveTouch t s) l =
    if decide (l = touch_LineageID t ∧ l ≠ 0%Z ∧ StateForLineage s l = TaintClean)
    then TaintSecretTouched else StateForLineage s l.
Proof.
  unfold ObserveTouch, StateForLineage, getOrCreate, put.
  destruct (touch_LineageID t =? 0)%Z eqn:Ht; bool_to_prop.
  { rewrite decide_False; [done|]. intros (-> & Hl & _). done. }
  destruct (l =? 0)%Z eqn:Hl; bool_to_prop.
  { rewrite decide_False; [done|]. by intros (_ & ? & _). }
  cbn [entries]. destruct (decide (l = touch_LineageID t)) as [->|Hne].
  - rewrite lookup_insert_eq. destruct (entries s !! touch_LineageID t) as [e|]; cbn [default].
    + cbn [e_state]. repeat case_decide; naive_solver.
    + cbn. repeat case_decide; naive_solver.
  - rewrite lookup_insert_ne by done. rewrite decide_False; [done|]. by intros (? & _).
Qed.

#[export] Instance memStore_taint : TaintStore memStore := {
  st_ObserveTouch := ObserveTouch;
  st_State := StateForLineage;
  st_zero := λ s, eq_refl;
  st_touch := memStore_touch
}.

(** the environment of one [ApplyDeny]: nft, the walk order of the cache and the
    three clock readings *)
Record deny_env := {
  de_nft : nft_env;
  de_ord : gmap string Time.time → list string;
  de_t1 : Time.time;
  de_t2 : Time.time;
  de_t3 : Time.time
}.

Definition apply_deny (d : deny_env) (l : Z) (k : string) (ttl : Time.duration) (g : guard) :
    guard * option string :=
  ApplyDeny (de_nft d) (de_ord d) l k ttl (de_t1 d) (de_t2 d) (de_t3 d) g.

Lemma guard_taint (g : guard) (r : Request) (t : string) :
  ¬ restricted (r_SecretTaint r) → ¬ restricted t → Decide g (set_taint t r) = Decide g r.
Proof.
  unfold restricted. intros Hr Ht. unfold Decide. cbn [set_taint r_PolicyCtx r_SecretTaint].
  destruct (policyOverride _); [done|].
  cbn [r_DestIP r_AppRole r_SNI r_DNSName].
  by rewrite !(decide_False (P := _ ∨ _)) by done.
Qed.

Lemma guard_stable (d : deny_env) (l : Z) (k : string) (ttl : Time.duration) (g : guard) :
  let g' := (apply_deny d l k ttl g).1 in
  g_mode g' = g_mode g ∧ g_profiles g' = g_profiles g ∧ g_protectedRoles g' = g_protectedRoles g.
Proof.
  unfold apply_deny, ApplyDeny. destruct (vetoed g k); [done|].
  destruct (cache_has _ _ _ _) as [c1 []]; [done|]. case_match; [done|]. case_match; [done|].
  by destruct (Push _ _ _ _ _).
Qed.

#[export] Instance guard_guard : Guard guard deny_env.
Proof.
  refine {| gd_Decide := Decide; gd_ApplyDeny := apply_deny; gd_Mode := g_mode;
            gd_BackendName := λ g, backend_Name (g_backend g) |}.
  - exact guard_taint.
  - intros g r d Hd. unfold Decide. by rewrite Hd.
  - intros d l k ttl g r. destruct (guard_stable d l k ttl g) as (_ & Hp & Hr).
    unfold Decide, declaredHosts. by rewrite Hp, Hr.
  - intros d l k ttl g. apply guard_stable.
Defined.

Lemma low_new (age : Time.duration) : low (NewStore age).
Proof. intros l. simpl. unfold StateForLineage. simpl. rewrite lookup_empty. case_match; simpl; lia. Qed.

Lemma Decide_open (g : guard) (r : Request) :
  policyOverride (r_PolicyCtx r) = None → isLoopbackOrPrivate (r_DestIP r) = false →
  r_AppRole r ∉ g_protectedRoles g → ¬ restricted (r_SecretTaint r) → g_profiles g = None →
  Decide g r = (EgressAllow, "unprofiled or unrestricted role").
Proof.
  intros Ho Hip Hrole Ht Hprof. unfold Decide, declaredHosts. rewrite Ho, Hip, Hprof.
  rewrite bool_decide_eq_false_2 by done. cbn [andb]. by rewrite decide_False.
Qed.

Lemma zone_allows_metadata (m : Manager) (i : DecisionInput) :
  Lookup (Some m) (di_Subject i) = LabelUntrusted → di_DestIP i = ParseIP "169.254.169.254" →
  (zone_Decide (Some m) i).1.1 = ZoneAllow.
Proof. intros Hl Hip. unfold zone_Decide. by rewrite Hl, Hip. Qed.

(** the hard sandbox lets the cloud metadata service through: link-local
    addresses count as internal for the trust zones, so an untrusted subject's
    connect to 169.254.169.254 is allowed end to end, unless the guard protects
    its role or profiles it, although the guard itself refuses to treat that
    address as internal. *)
Theorem untrusted_reaches_metadata (d : deny_env) (ev : Event) (m : Manager) (g : guard) :
  is_connect ev = true → tag ev "dst_ip" = "169.254.169.254" →
  tag ev "egress_policy_id" = "" → tag ev "egress_policy_action" = "" →
  ¬ restricted (tag ev "secret_taint") →
  Lookup (Some m) (di_Subject (zone_input ev)) = LabelUntrusted →
  tag ev "app_role" ∉ g_protectedRoles g → g_profiles g = None →
  let p := {| p_EgressPolicy := None; p_SecretTaint := Some (NewStore 0); p_AssetResolver := Some NewStaticResolver;
              p_TrustZone := Some m; p_EgressGuard := Some g; p_Emit := true |} in
  let r := egress_path d ev p in
  isLoopbackOrPrivate (tag ev "dst_ip") = false ∧
  tag r.1.1 "egress_decision" = "allow" ∧ r.2 = [] ∧ p_EgressGuard r.1.2 = Some g.
Proof.
  intros Hc Hip Hid Hact Ht Hlbl Hrole Hprof p r. split; [by rewrite Hip|].
  set (s := NewStore 0) in *. subst r. unfold egress_path. change (policy_stage ev p) with ev.
  unfold taint_stage. cbn [p_SecretTaint p].
  pose proof (observe_same ev s) as Ho. pose proof (observe_tag ev s "secret_taint" ltac:(done)) as Hst.
  pose proof (low_observe ev s (low_new 0)) as Hlow.
  destruct (observe_touch ev s) as [ev1 s1]. cbn [fst snd] in *.
  set (p1 := with_taint (Some s1) p).
  set (e0 := stamp_taint ev1 s1). set (e := zone_stage (asset_stage e0 p1) p1).
  assert (same e0 ev) as He0 by (by eapply same_trans; [apply stamp_same|]).
  pose proof (same_zone _ _ p1 (same_asset e0 ev p1 He0)) as He. fold e in He.
  destruct (asset_zone_input ev p1) as (Hzi & Hco & _).
  destruct (zone_connect_lineage (asset_stage ev p1) p1) as [Hze _].
  unfold egress_stage. cbn [p_EgressGuard p1 with_taint p].
  rewrite (same_connect _ _ He), Hze, Hco, Hc. cbn [negb gd_Decide guard_guard].
  assert (∀ k, k ∉ ["trustzone_action"; "trustzone_label"; "trustzone_reason"; "asset_class"] →
    k ∉ taint_tags → tag e k = tag ev k) as Htag.
  { intros k Hk Hk'. rewrite !not_elem_of_cons in Hk. destruct Hk as (? & ? & ? & ? & _).
    rewrite (same_tag _ _ k He Hk'), zone_tag, asset_tag; [done..|].
    rewrite !not_elem_of_cons. split_and!; [done..|apply not_elem_of_nil]. }
  rewrite (Decide_open g (egress_request e)); [..|done]; cbn [egress_request r_PolicyCtx r_DestIP
    r_AppRole r_SecretTaint].
  - rewrite bool_decide_eq_false_2 by done. cbn [fst snd]. rewrite tag_set_ne, tag_set_eq by done. done.
  - unfold policyOverride. cbn [EgressPolicyAction TrustZoneAction].
    rewrite Htag, Hact by (by apply (bool_decide_unpack (_ ∉ _))).
    rewrite (same_tag _ _ "trustzone_action" He) by (by apply (bool_decide_unpack (_ ∉ _))).
    rewrite (zone_action _ p1 m), Hzi, zone_allows_metadata; [done|done| |done|by rewrite Hco|].
    + cbn [di_DestIP zone_input]. by rewrite Hip.
    + by rewrite asset_tag.
  - by rewrite Htag, Hip by (by apply (bool_decide_unpack (_ ∉ _))).
  - by rewrite Htag by (by apply (bool_decide_unpack (_ ∉ _))).
  - subst e. rewrite zone_keeps, asset_keeps. apply low_tag; [done|]. by rewrite Hst.
Qed.

Module Demo.

Definition ev (sensor : string) (tags : list (string * string)) : Event := {|
  ev_ID := 1; ev_Time := 100; ev_Sensor := sensor; ev_Severity := SeverityInfo;
  ev_Verdict := VerdictUnknown; ev_Host := ""; ev_PID := 42; ev_TID := 42; ev_Comm := "php";
  ev_UID := 1001; ev_GID := 0; ev_CGroupID := 9; ev_Container := ""; ev_Image := "";
  ev_ParentPID := 1; ev_ProcTree := []; ev_Rule := ""; ev_Tags := list_to_map tags |}.

Definition read_shadow : Event := ev "ebpf.file" [("kind", "file_open"); ("path", "/etc/shadow")].
Definition connect (ip : string) : Event :=
  ev "ebpf.net" [("kind", "net_connect"); ("dst_ip", ip); ("dst_port", "443")].

Definition mgr (l : string) : Manager :=
  {| defaultLbl := "trusted"; assignments := [TrustZone.Demo.asg 1001 l] |}.

Definition env : deny_env :=
  {| de_nft := demo_env None; de_ord := some_order; de_t1 := 100; de_t2 := 100; de_t3 := 100 |}.

Definition g0 : guard := enforcing_guard.

Definition pipe (l : string) : Pipeline (S:=memStore) (G:=guard) :=
  {| p_EgressPolicy := None; p_SecretTaint := Some (NewStore 0); p_AssetResolver := Some NewStaticResolver;
     p_TrustZone := Some (mgr l); p_EgressGuard := Some g0; p_Emit := true |}.

(** the same with an engine that holds a signed policy for php *)
Definition engine : EgressPolicy.Engine :=
  EgressPolicy.NewEngine (Some (with_policies {["php" := EgressPolicy.Demo.signed "php"]} EgressPolicy.Demo.store0)) "".

Definition policy_pipe (l : string) : Pipeline (S:=memStore) (G:=guard) :=
  {| p_EgressPolicy := Some engine; p_SecretTaint := Some (NewStore 0); p_AssetResolver := Some NewStaticResolver;
     p_TrustZone := Some (mgr l); p_EgressGuard := Some g0; p_Emit := true |}.

End Demo.

Lemma taint_never_changes_egress_witness :
  let evs := [(Demo.env, Demo.read_shadow); (Demo.env, Demo.connect "203.0.113.9")] in
  let r := stream evs (Demo.pipe "trusted") in
  let r' := stream evs (with_taint None (Demo.pipe "trusted")) in
  p_EgressGuard r.1 = p_EgressGuard r'.1 ∧ Forall2 same_out r.2 r'.2.
Proof.
  apply (taint_never_changes_egress _ (Demo.pipe "trusted") (NewStore 0)).
  - reflexivity.
  - exact (low_new 0).
  - constructor; [|constructor; [|constructor]];
      apply (bool_decide_unpack (¬ restricted _)); vm_compute; exact I.
Defined.

Lemma touched_lineage_stays_stamped_witness :
  let p1 := (stream [(Demo.env, Demo.read_shadow)] (Demo.pipe "trusted")).1 in
  ∃ t, t ≠ TaintClean ∧
    tag (egress_path Demo.env (Demo.connect "203.0.113.9") p1).1.1 "secret_taint" = TaintState_String t.
Proof.
  apply (touched_lineage_stays_stamped [] [] Demo.env Demo.env Demo.read_shadow
           (Demo.connect "203.0.113.9") (Demo.pipe "trusted") (NewStore 0) SecretSecretFile);
    vm_compute; try reflexivity. discriminate.
Defined.

Lemma zone_denial_is_enforced_witness :
  let r := egress_path Demo.env (Demo.connect "203.0.113.9") (Demo.pipe "untrusted") in
  tag r.1.1 "egress_decision" = "deny" ∧
  p_EgressGuard r.1.2 = Some (apply_deny Demo.env 9 "203.0.113.9:443" (5 * Time.Minute) Demo.g0).1 ∧
  ∃ a, r.2 = [a] ∧ al_RuleID a = "egressguard.deny" ∧
    Str.HasPrefix (al_Reason a) "egressguard deny: trustzone " = true.
Proof.
  assert (no_policy (Demo.connect "203.0.113.9") (Demo.pipe "untrusted")) as Hno.
  { split; [vm_compute; reflexivity|]. split; [by apply (bool_decide_unpack (_ ∉ _))|]. intros e He. discriminate He. }
  pose proof (zone_denial_is_enforced Demo.env (Demo.connect "203.0.113.9") (Demo.pipe "untrusted")
    (Demo.mgr "untrusted") Demo.g0 ltac:(vm_compute; reflexivity) Hno eq_refl eq_refl eq_refl) as Hz.
  destruct Hz as (Hd & Hg & Ha); [vm_compute; left|].
  split; [exact Hd|]. split; [|exact Ha]. rewrite Hg. vm_compute. reflexivity.
Defined.

Lemma untrusted_reaches_metadata_witness :
  let p := Demo.pipe "untrusted" in
  let r := egress_path Demo.env (Demo.connect "169.254.169.254") p in
  isLoopbackOrPrivate "169.254.169.254" = false ∧
  tag r.1.1 "egress_decision" = "allow" ∧ r.2 = [] ∧ p_EgressGuard r.1.2 = Some Demo.g0.
Proof.
  apply (untrusted_reaches_metadata Demo.env (Demo.connect "169.254.169.254")
           (Demo.mgr "untrusted") Demo.g0); try (vm_compute; reflexivity).
  - apply (bool_decide_unpack (¬ restricted _)). vm_compute. exact I.
  - apply (bool_decide_unpack (_ ∉ _)). vm_compute. exact I.
Defined.

Lemma policy_has_last_word_witness :
  let r := egress_path Demo.env (Demo.connect "203.0.113.9") (Demo.policy_pipe "trusted") in
  pd_Action (EgressPolicy.Decide (Some Demo.engine) (policy_request (Demo.connect "203.0.113.9"))) = ActionDeny ∧
  tag r.1.1 "egress_decision" = "deny" ∧
  p_EgressGuard r.1.2 = Some (apply_deny Demo.env 9 "203.0.113.9:443" (5 * Time.Minute) Demo.g0).1.
Proof.
  assert (pd_Action (EgressPolicy.Decide (Some Demo.engine) (policy_request (Demo.connect "203.0.113.9"))) = ActionDeny) as Hv
    by (vm_compute; reflexivity).
  pose proof (policy_has_last_word Demo.env (Demo.connect "203.0.113.9") (Demo.policy_pipe "trusted") Demo.engine Demo.g0
    ltac:(vm_compute; reflexivity) eq_refl eq_refl eq_refl) as Hw.
  cbv zeta in Hw. destruct Hw as [Hw _]. destruct (Hw Hv) as (Hd & Hg & _).
  split; [exact Hv|]. split; [exact Hd|]. rewrite Hg. vm_compute. reflexivity.
Defined.
