(* ===== verification/RateLimit.v ===== *)
(** * Per-rule rates (src/pkg/firerate)

    The limiter that caps how often a rule may fire (limiter.go) and the
    tracker that counts fires in a ring of time buckets (firerate.go).  Rate,
    Snapshot and Top divide the count by the window in floating point and sort;
    they are not modelled. *)

From S2P Require Import Prelude GoStd.

(** ** Limiter *)

Record Policy := { MaxFires : Z; pol_Window : Time.duration; Cooldown : Time.duration }.

Definition DefaultPolicy : Policy :=
  {| MaxFires := 30; pol_Window := Time.Minute; Cooldown := 0 |}.

Record Limiter := {
  l_policies : gmap string Policy;
  l_fires : gmap string (list Time.time);
  l_suppressed : gmap string Z;
  l_cooldownUntil : gmap string Time.time
}.

Definition NewLimiter (policies : gmap string Policy) : Limiter :=
  {| l_policies := policies; l_fires := ∅; l_suppressed := ∅; l_cooldownUntil := ∅ |}.

Definition policyFor (l : Limiter) (ruleID : string) : Policy :=
  default DefaultPolicy (l_policies l !! ruleID).

(** the loop that drops the fires before the cutoff from the front *)
Fixpoint prune (cutoff : Time.time) (fires : list Time.time) : list Time.time :=
  match fires with
  | [] => []
  | t :: rest => if Time.Before t cutoff then prune cutoff rest else fires
  end.

Definition suppress (ruleID : string) (l : Limiter) : Limiter :=
  {| l_policies := l_policies l; l_fires := l_fires l;
     l_suppressed := <[ruleID := (default 0 (l_suppressed l !! ruleID) + 1)%Z]> (l_suppressed l);
     l_cooldownUntil := l_cooldownUntil l |}.

Definition set_fires (ruleID : string) (fs : list Time.time) (l : Limiter) : Limiter :=
  {| l_policies := l_policies l; l_fires := <[ruleID := fs]> (l_fires l);
     l_suppressed := l_suppressed l; l_cooldownUntil := l_cooldownUntil l |}.

Definition cool (ruleID : string) (until : Time.time) (l : Limiter) : Limiter :=
  {| l_policies := l_policies l; l_fires := l_fires l; l_suppressed := l_suppressed l;
     l_cooldownUntil := <[ruleID := until]> (l_cooldownUntil l) |}.

Definition cooling (l : Limiter) (ruleID : string) (now : Time.time) : bool :=
  match l_cooldownUntil l !! ruleID with Some dl => Time.Before now dl | None => false end.

Definition limiter_Allow (ruleID : string) (now : Time.time) (l : Limiter) : Limiter * bool :=
  let pol := policyFor l ruleID in
  if (0 <? Cooldown pol)%Z && cooling l ruleID now then (suppress ruleID l, false)
  else
    let fires := prune (Time.Add now (- pol_Window pol)) (default [] (l_fires l !! ruleID)) in
    let capped := (0 <? MaxFires pol)%Z && (0 <? pol_Window pol)%Z in
    if capped && (MaxFires pol <=? Z.of_nat (length fires))%Z
    then (suppress ruleID (set_fires ruleID fires l), false)
    else
      let l1 := if capped then set_fires ruleID (fires ++ [now]) l else l in
      let l2 := if (0 <? Cooldown pol)%Z then cool ruleID (Time.Add now (Cooldown pol)) l1 else l1 in
      (l2, true).

(** the nil limiter allows everything *)
Definition Allow (ruleID : string) (now : Time.time) (l : option Limiter) : option Limiter * bool :=
  match l with
  | None => (None, true)
  | Some l => let '(l', ok) := limiter_Allow ruleID now l in (Some l', ok)
  end.

Definition SetPolicy (ruleID : string) (p : Policy) (l : Limiter) : Limiter :=
  {| l_policies := <[ruleID := p]> (l_policies l); l_fires := l_fires l;
     l_suppressed := l_suppressed l; l_cooldownUntil := l_cooldownUntil l |}.

Definition SuppressedStats (l : Limiter) : gmap string Z := l_suppressed l.

Definition ResetLimiter (l : Limiter) : Limiter :=
  {| l_policies := l_policies l; l_fires := ∅; l_suppressed := ∅; l_cooldownUntil := ∅ |}.

(** fires of several rules in the order they are offered *)
Fixpoint offer (evs : list (string * Time.time)) (l : Limiter) : Limiter * list bool :=
  match evs with
  | [] => (l, [])
  | (r, t) :: evs' =>
      let '(l1, ok) := limiter_Allow r t l in
      let '(l2, oks) := offer evs' l1 in (l2, ok :: oks)
  end.

(** the times at which rule [r] was allowed to fire *)
Fixpoint allowed (r : string) (evs : list (string * Time.time)) (l : Limiter) : list Time.time :=
  match evs with
  | [] => []
  | (r', t) :: evs' =>
      let '(l1, ok) := limiter_Allow r' t l in
      (if ok && bool_decide (r' = r) then [t] else []) ++ allowed r evs' l1
  end.

(** ** The fires kept are the recent ones *)

Lemma prune_spec (cutoff : Time.time) (fs : list Time.time) :
  ∃ k, prune cutoff fs = drop k fs ∧ k ≤ length fs ∧
       Forall (λ t, (t < cutoff)%Z) (take k fs) ∧
       (∀ t, head (prune cutoff fs) = Some t → (cutoff ≤ t)%Z).
Proof.
  induction fs as [|t fs (k & Hk & Hl & Hf & Hh)]; [by exists 0|]. simpl. unfold Time.Before.
  destruct (t <? cutoff)%Z eqn:Ht; bool_to_prop.
  - exists (S k). split_and!; [done|lia|by constructor|done].
  - exists 0. split_and!; [done|lia|constructor|]. by intros t' [= <-].
Qed.

Section rule.
Context (r : string) (pol : Policy).
Context (Hmax : (0 < MaxFires pol)%Z) (Hwin : (0 < pol_Window pol)%Z).

(** after offers up to time [now], of which [A] were the allowed ones of [r],
    the limiter keeps a suffix of [A] and has dropped only fires older than
    the window *)
Definition tracks (A : list Time.time) (now : Time.time) (l : Limiter) : Prop :=
  policyFor l r = pol ∧
  (∃ k, default [] (l_fires l !! r) = drop k A ∧ k ≤ length A ∧
        Forall (λ t, (t < now - pol_Window pol)%Z) (take k A)) ∧
  Forall (λ t, (t ≤ now)%Z) A ∧ StronglySorted Z.le A ∧
  ((0 < Cooldown pol)%Z → l_cooldownUntil l !! r = (λ t, (t + Cooldown pol)%Z) <$> last A).

Lemma tracks_new (policies : gmap string Policy) (now : Time.time) :
  default DefaultPolicy (policies !! r) = pol → tracks [] now (NewLimiter policies).
Proof.
  intros Hp. split; [done|]. split; [by exists 0|]. split_and!; by try constructor.
Qed.

Definition recent (now : Time.time) (A : list Time.time) : nat :=
  length (filter (λ t, (now - pol_Window pol ≤ t)%Z) A).

(** the decision in terms of the allowed fires *)
Definition may_fire (now : Time.time) (A : list Time.time) : Prop :=
  ((0 < Cooldown pol)%Z → ∀ t, last A = Some t → (t + Cooldown pol ≤ now)%Z) ∧
  (Z.of_nat (recent now A) < MaxFires pol)%Z.

Lemma pruned_recent (A : list Time.time) (now t0 : Time.time) (k : nat) :
  StronglySorted Z.le A → (t0 ≤ now)%Z → k ≤ length A →
  Forall (λ t, (t < t0 - pol_Window pol)%Z) (take k A) →
  ∃ k', prune (now - pol_Window pol)%Z (drop k A) = drop k' A ∧ k' ≤ length A ∧
        Forall (λ t, (t < now - pol_Window pol)%Z) (take k' A) ∧
        length (drop k' A) = recent now A.
Proof.
  intros Hs Ht Hlk Hk.
  destruct (prune_spec (now - pol_Window pol) (drop k A)) as (j & Hj & Hlj & Hjf & Hh).
  exists (k + j). rewrite Hj, drop_drop in *. rewrite length_drop in Hlj.
  assert (Forall (λ t, (t < now - pol_Window pol)%Z) (take (k + j) A)) as Hpre.
  { rewrite <-(take_take_drop A k j), Forall_app. split; [|done].
    eapply Forall_impl; [exact Hk|]. simpl. lia. }
  split_and!; [done|lia|done|]. unfold recent. rewrite <-(take_drop (k + j) A) at 2.
  rewrite filter_app, length_app, filter_none.
  2:{ eapply Forall_impl; [exact Hpre|]. simpl. lia. }
  simpl. rewrite filter_all; [done|].
  destruct (drop (k + j) A) as [|t rest] eqn:Hd; [constructor|].
  assert (StronglySorted Z.le (t :: rest)) as Hs'.
  { rewrite <-Hd. rewrite <-(take_drop (k + j) A) in Hs. by apply StronglySorted_app in Hs as (_ & _ & ?). }
  specialize (Hh t eq_refl). inversion Hs' as [|? ? _ Hall]; simplify_eq.
  constructor; [lia|]. eapply Forall_impl; [exact Hall|]. simpl. lia.
Qed.

Lemma tracks_later (A : list Time.time) (now now' : Time.time) (l : Limiter) :
  (now ≤ now')%Z → tracks A now l → tracks A now' l.
Proof.
  intros Hn (H1 & (k & H2 & Hk & H3) & H4 & H5). split; [done|]. split; [|split; [|done]].
  - exists k. split_and!; [done|done|]. eapply Forall_impl; [exact H3|]. simpl. lia.
  - eapply Forall_impl; [exact H4|]. simpl. lia.
Qed.

Lemma tracks_other (A : list Time.time) (now t : Time.time) (r' : string) (l : Limiter) :
  r' ≠ r → tracks A now l → tracks A now (limiter_Allow r' t l).1.
Proof.
  intros Hr (H1 & H2 & H3 & H4 & H5).
  assert (l_policies (limiter_Allow r' t l).1 = l_policies l ∧
          l_fires (limiter_Allow r' t l).1 !! r = l_fires l !! r ∧
          l_cooldownUntil (limiter_Allow r' t l).1 !! r = l_cooldownUntil l !! r) as (Ep & Ef & Ec).
  { unfold limiter_Allow. destruct (_ && cooling _ _ _); [done|].
    destruct (_ && (_ <=? _)%Z); [by simpl; rewrite lookup_insert_ne|].
    destruct (_ && _), (_ <? _)%Z; simpl; by rewrite ?lookup_insert_ne. }
  unfold tracks, policyFor in *. by rewrite Ep, Ef, Ec.
Qed.

Lemma Allow_own (A : list Time.time) (t0 now : Time.time) (l : Limiter) :
  (t0 ≤ now)%Z → tracks A t0 l →
  ((limiter_Allow r now l).2 = true ↔ may_fire now A) ∧
  tracks (if (limiter_Allow r now l).2 then A ++ [now] else A) now (limiter_Allow r now l).1.
Proof.
  intros Ht (Hp & (k & Hfs & Hkl & Hk) & Hle & Hs & Hcool).
  destruct (pruned_recent A now t0 k Hs Ht Hkl Hk) as (k' & Hpr & Hkl' & Hk' & Hlen).
  assert (Forall (λ t, (t ≤ now)%Z) A) as Hle' by (eapply Forall_impl; [exact Hle|]; simpl; lia).
  assert (StronglySorted Z.le (A ++ [now])) as Hs'.
  { apply StronglySorted_app. split_and!; [|done|repeat constructor].
    intros x y Hx ->%list_elem_of_singleton. rewrite Forall_forall in Hle'. by apply Hle'. }
  assert (Forall (λ t, (t ≤ now)%Z) (A ++ [now])) as Hle'' by (apply Forall_app; split; [done|by constructor]).
  unfold limiter_Allow. rewrite Hp, Hfs. unfold Time.Add.
  replace (now + - pol_Window pol)%Z with (now - pol_Window pol)%Z by lia. rewrite Hpr.
  rewrite (proj2 (Z.ltb_lt _ _) Hmax), (proj2 (Z.ltb_lt _ _) Hwin). cbn [andb].
  destruct ((0 <? Cooldown pol)%Z && cooling l r now) eqn:Hc.
  { cbn [fst snd]. bool_to_prop. unfold cooling in H0. rewrite (Hcool H) in H0.
    destruct (last A) as [t|] eqn:Hl; [|done]. cbn in H0. unfold Time.Before in H0. bool_to_prop. split.
    - split; [done|]. intros [Hx _]. specialize (Hx H t Hl). lia.
    - split_and!; try done.
      + exists k. split_and!; [done|done|]. eapply Forall_impl; [exact Hk|]. simpl. lia.
      + intros _. rewrite Hl. exact (Hcool H). }
  assert (∀ t, (0 < Cooldown pol)%Z → last A = Some t → (t + Cooldown pol ≤ now)%Z) as Hok.
  { intros t Hpos Hl. apply andb_false_iff in Hc as [Hc|Hc]; bool_to_prop; [lia|].
    unfold cooling in Hc. rewrite (Hcool Hpos), Hl in Hc. cbn in Hc. unfold Time.Before in Hc.
    bool_to_prop. lia. }
  destruct (MaxFires pol <=? Z.of_nat (length (drop k' A)))%Z eqn:Hm; bool_to_prop; cbn [fst snd].
  - split.
    + split; [done|]. intros [_ Hx]. lia.
    + unfold tracks, policyFor in *. cbn. rewrite lookup_insert_eq. split_and!; try done. by exists k'.
  - rewrite Hlen in Hm. split; [split; [|done]; intros _; split; [naive_solver|lia]|].
    assert (policyFor (set_fires r (drop k' A ++ [now]) l) r = pol) as Hp' by done.
    assert (∃ j, drop k' A ++ [now] = drop j (A ++ [now]) ∧ j ≤ length (A ++ [now]) ∧
              Forall (λ t, (t < now - pol_Window pol)%Z) (take j (A ++ [now]))) as Hj.
    { exists k'. rewrite drop_app_le, take_app_le, length_app by done. split_and!; [done|lia|done]. }
    destruct (Z.ltb_spec 0 (Cooldown pol)) as [Hpos|Hpos]; unfold tracks; cbn;
      rewrite lookup_insert_eq; split_and!; try done; [|lia].
    intros _. by rewrite lookup_insert_eq, last_snoc.
Qed.

(** every allowed fire was one the policy permits after those before it *)
Definition spaced (A : list Time.time) : Prop :=
  ∀ A0 t rest, A = A0 ++ t :: rest → may_fire t A0.

Lemma spaced_snoc (A : list Time.time) (t : Time.time) :
  spaced A → may_fire t A → spaced (A ++ [t]).
Proof.
  intros HA Ht A0 t' rest Heq. destruct rest as [|u rest' _] using rev_ind.
  - by apply app_inj_tail in Heq as [-> ->].
  - rewrite app_comm_cons, app_assoc in Heq. apply app_inj_tail in Heq as [-> ->]. by eapply HA.
Qed.

Lemma spaced_count (A : list Time.time) (s : Time.time) :
  spaced A →
  (Z.of_nat (length (filter (λ t, (s ≤ t ≤ s + pol_Window pol)%Z) A)) ≤ MaxFires pol)%Z.
Proof.
  induction A as [|t A IH] using rev_ind; intros HA; [cbn; lia|].
  destruct (HA A t [] eq_refl) as [_ Hm]. rewrite filter_app, length_app, filter_cons, filter_nil.
  case_decide as Ht; cbn [length].
  - enough (length (filter (λ t, (s ≤ t ≤ s + pol_Window pol)%Z) A) ≤ recent t A) by lia.
    apply length_filter_mono. lia.
  - rewrite Nat.add_0_r. apply IH. intros A0 t' rest ->. apply (HA A0 t' (rest ++ [t])).
    by rewrite <-app_assoc.
Qed.

(** every run from a fresh limiter keeps the invariant, its allowed fires being [A] *)
Lemma tracks_offer (evs : list (string * Time.time)) (A : list Time.time) (t0 : Time.time) (l : Limiter) :
  tracks A t0 l → spaced A → StronglySorted Z.le (t0 :: evs.*2) →
  spaced (A ++ allowed r evs l) ∧
  ∃ now, (t0 ≤ now)%Z ∧ Forall (λ t, (t ≤ now)%Z) (evs.*2) ∧ now ∈ t0 :: evs.*2 ∧
         tracks (A ++ allowed r evs l) now (offer evs l).1.
Proof.
  revert A t0 l. induction evs as [|[r' t] evs IH]; intros A t0 l HA Hsp Hs.
  { rewrite app_nil_r. split; [done|]. exists t0. split_and!; [done|constructor|set_solver|done]. }
  inversion Hs as [|? ? Hs' Hle]; subst. rewrite fmap_cons in *. cbn in Hs', Hle.
  assert (t0 ≤ t)%Z as Ht by by inversion Hle.
  assert (tracks (A ++ (if (limiter_Allow r' t l).2 && bool_decide (r' = r) then [t] else []))
                 t (limiter_Allow r' t l).1 ∧
          spaced (A ++ (if (limiter_Allow r' t l).2 && bool_decide (r' = r) then [t] else []))) as [HA1 Hsp1].
  { destruct (decide (r' = r)) as [->|Hne].
    - rewrite bool_decide_true, andb_true_r by done. destruct (Allow_own A t0 t l Ht HA) as [Hm H1].
      destruct (limiter_Allow r t l).2; rewrite ?app_nil_r; split; try done.
      by apply spaced_snoc; [|apply Hm].
    - rewrite bool_decide_false, andb_false_r, app_nil_r by done. split; [|done].
      apply tracks_other; [done|]. by apply tracks_later with t0. }
  destruct (IH _ _ _ HA1 Hsp1 Hs') as (Hsp2 & now & Hn & Hf & Hi & H).
  simpl. destruct (limiter_Allow r' t l) as [l1 ok], (offer evs l1) as [l2 oks] eqn:E.
  cbn in *. rewrite E in H. rewrite app_assoc. cbn in H. split; [done|]. exists now.
  split_and!; [lia|by constructor|set_solver|done].
Qed.

End rule.

(** The limiter lets a rule fire exactly when its policy allows it.  After
    any fires of any rules offered in time order, the next fire of a rule with
    a rate cap is let through if and only if the cooldown since the rule's last
    allowed fire has passed and fewer than MaxFires of its allowed fires lie in
    the window ending now; fires of other rules never matter, and refused fires
    do not count against the rule. *)
Theorem limiter_exact (policies : gmap string Policy) (r : string) (evs : list (string * Time.time)) (now : Time.time)
    (Hmax : (0 < MaxFires (default DefaultPolicy (policies !! r)))%Z)
    (Hwin : (0 < pol_Window (default DefaultPolicy (policies !! r)))%Z)
    (Hsorted : StronglySorted Z.le (evs.*2 ++ [now])) :
  let l := (offer evs (NewLimiter policies)).1 in
  (limiter_Allow r now l).2 = true ↔
  may_fire (default DefaultPolicy (policies !! r)) now (allowed r evs (NewLimiter policies)).
Proof.
  set (pol := default DefaultPolicy (policies !! r)) in *. intros l.
  apply StronglySorted_app in Hsorted as (Hle & Hs & _).
  set (t0 := default now (head (evs.*2))).
  assert (StronglySorted Z.le (t0 :: evs.*2)) as Hs0.
  { subst t0. constructor; [done|]. destruct (evs.*2) as [|t ts]; [constructor|].
    inversion Hs; subst. constructor; [simpl; lia|done]. }
  destruct (tracks_offer r pol Hmax Hwin evs [] t0 (NewLimiter policies)) as (_ & n & _ & _ & Hin & Htr);
    [by apply tracks_new|by intros [|? ?] ? ?|done|].
  apply (Allow_own r pol Hmax Hwin _ n now) in Htr as [H _]; [done|].
  apply elem_of_cons in Hin as [->|Hin]; [|by apply Hle; [|left]].
  subst t0. destruct (evs.*2) as [|t ts]; [done|]. apply Hle; by left.
Qed.

Lemma limiter_exact_witness :
  let policies := <["r" := {| MaxFires := 2; pol_Window := 10; Cooldown := 3 |}]> ∅ in
  let evs := [("r", 0%Z); ("r", 1%Z); ("q", 2%Z); ("r", 4%Z)] in
  allowed "r" evs (NewLimiter policies) = [0%Z; 4%Z] ∧
  ((limiter_Allow "r" 8 (offer evs (NewLimiter policies)).1).2 = false) ∧
  ((limiter_Allow "r" 11 (offer evs (NewLimiter policies)).1).2 = true ↔
   may_fire {| MaxFires := 2; pol_Window := 10; Cooldown := 3 |} 11 [0%Z; 4%Z]).
Proof.
  intros policies evs. split; [by vm_compute|split; [by vm_compute|]].
  apply (limiter_exact policies "r" evs 11); [done|done|].
  repeat (constructor; [|repeat constructor; done]). constructor.
Defined.

(** The rate cap holds.  However fires of all rules interleave, as long as
    they are offered in time order no closed interval of the window's length
    contains more than MaxFires allowed fires of the rule, and two consecutive
    allowed fires are at least the cooldown apart. *)
Theorem limiter_rate_bounded (policies : gmap string Policy) (r : string) (evs : list (string * Time.time))
    (Hmax : (0 < MaxFires (default DefaultPolicy (policies !! r)))%Z)
    (Hwin : (0 < pol_Window (default DefaultPolicy (policies !! r)))%Z)
    (Hsorted : StronglySorted Z.le (evs.*2)) :
  let pol := default DefaultPolicy (policies !! r) in
  let fired := allowed r evs (NewLimiter policies) in
  (∀ s, (Z.of_nat (length (filter (λ t, (s ≤ t ≤ s + pol_Window pol)%Z) fired)) ≤ MaxFires pol)%Z) ∧
  (∀ i t t', fired !! i = Some t → fired !! S i = Some t' → (t + Z.max 0 (Cooldown pol) ≤ t')%Z).
Proof.
  intros pol fired. set (t0 := default 0%Z (head (evs.*2))).
  assert (StronglySorted Z.le (t0 :: evs.*2)) as Hs0.
  { subst t0. constructor; [done|]. destruct (evs.*2) as [|t ts]; [constructor|].
    inversion Hsorted; subst. constructor; [simpl; lia|done]. }
  destruct (tracks_offer r pol Hmax Hwin evs [] t0 (NewLimiter policies)) as (Hsp & n & _ & _ & _ & Htr);
    [by apply tracks_new|by intros [|? ?] ? ?|done|].
  change ([] ++ _) with fired in *. split; [by intros s; apply spaced_count|].
  intros i t t' Hi Hi'. destruct Htr as (_ & _ & _ & Hs & _).
  pose proof (take_drop_middle fired (S i) t' Hi') as Hsplit.
  destruct (Hsp (take (S i) fired) t' (drop (S (S i)) fired) (eq_sym Hsplit)) as [Hc _].
  assert (last (take (S i) fired) = Some t) as Hl.
  { rewrite last_lookup, length_take. rewrite lookup_take_lt; [|apply lookup_lt_Some in Hi; lia].
    apply lookup_lt_Some in Hi'. by replace (pred (S i `min` length fired)) with i by lia. }
  assert (t ≤ t')%Z.
  { rewrite <-Hsplit in Hs. apply StronglySorted_app in Hs as (Hle & _). apply Hle; [|by left].
    apply list_elem_of_lookup. exists i. rewrite lookup_take_lt; [done|lia]. }
  destruct (decide (0 < Cooldown pol)%Z) as [Hp|]; [specialize (Hc Hp t Hl); lia|lia].
Qed.

Lemma limiter_rate_bounded_witness :
  let policies := <["r" := {| MaxFires := 2; pol_Window := 10; Cooldown := 3 |}]> ∅ in
  let evs := [("r", 0%Z); ("r", 1%Z); ("q", 2%Z); ("r", 4%Z); ("r", 9%Z); ("r", 11%Z)] in
  let fired := allowed "r" evs (NewLimiter policies) in
  fired = [0%Z; 4%Z; 11%Z] ∧
  (Z.of_nat (length (filter (λ t, (1 ≤ t ≤ 11)%Z) fired)) ≤ 2)%Z.
Proof.
  intros policies evs fired. split; [by vm_compute|].
  apply (proj1 (limiter_rate_bounded policies "r" evs eq_refl eq_refl
    ltac:(repeat (constructor; [|repeat constructor; done]); constructor)) 1%Z).
Defined.

(** ** Tracker *)


Record counter := { ring : list Z; lastIdx : Z; lastSlot : Z }.

Record Tracker := { window : Time.duration; buckets : Z; rules : gmap string counter }.

Definition New (window : Time.duration) (buckets : Z) : Tracker :=
  {| window := if (window <=? 0)%Z then (60 * Time.Second)%Z else window;
     buckets := if (buckets <=? 0)%Z then 60 else buckets;
     rules := ∅ |}.

(** the width of a bucket, and the slot an instant falls in *)
Definition bucketDur (window : Time.duration) (buckets : Z) : Z :=
  let d := Z.quot window buckets in if (d <=? 0)%Z then Time.Second else d.

Definition slotOf (t : Tracker) (now : Time.time) : Z :=
  Z.quot now (bucketDur (window t) (buckets t)).

Definition idxOf (B slot : Z) : Z :=
  let i := Z.rem slot B in if (i <? 0)%Z then (i + B)%Z else i.

(** the loop that zeroes the buckets passed over since [lastIdx] *)
Definition zero_passed (B lastIdx delta : Z) (ring : list Z) : list Z :=
  foldl (λ r i, <[Z.to_nat (Z.rem (lastIdx + i) B) := 0%Z]> r) ring (seqZ 1 delta).

Definition advance (B slot : Z) (c : counter) : counter :=
  if (lastSlot c =? 0)%Z then {| ring := ring c; lastIdx := idxOf B slot; lastSlot := slot |}
  else
    let delta := (slot - lastSlot c)%Z in
    if (delta <=? 0)%Z then c
    else if (B <=? delta)%Z then
      {| ring := (λ _, 0%Z) <$> ring c; lastIdx := idxOf B slot; lastSlot := slot |}
    else
      {| ring := zero_passed B (lastIdx c) delta (ring c); lastIdx := idxOf B slot; lastSlot := slot |}.

Definition advanceLocked (t : Tracker) (c : counter) (now : Time.time) : counter :=
  advance (buckets t) (slotOf t now) c.

Definition with_rules (f : gmap string counter → gmap string counter) (t : Tracker) : Tracker :=
  {| window := window t; buckets := buckets t; rules := f (rules t) |}.

Definition bump (c : counter) : counter :=
  {| ring := alter Z.succ (Z.to_nat (lastIdx c)) (ring c); lastIdx := lastIdx c; lastSlot := lastSlot c |}.

Definition Increment (ruleID : string) (now : Time.time) (t : Tracker) : Tracker :=
  let c := default {| ring := replicate (Z.to_nat (buckets t)) 0%Z; lastIdx := 0; lastSlot := 0 |}
                   (rules t !! ruleID) in
  with_rules <[ruleID := bump (advanceLocked t c now)]> t.

Definition sum_ring (ring : list Z) : Z := foldl Z.add 0%Z ring.

(** the count also moves the ring forward *)
Definition Count (ruleID : string) (now : Time.time) (t : Tracker) : Tracker * Z :=
  match rules t !! ruleID with
  | None => (t, 0%Z)
  | Some c =>
      let c' := advanceLocked t c now in
      (with_rules <[ruleID := c']> t, sum_ring (ring c'))
  end.

Definition Reset (t : Tracker) : Tracker := with_rules (λ _, ∅) t.

(** ** What a ring holds *)

(** the ring after the increments in slots [H], the last slot reached being
    [last]: bucket [i] counts the increments of the slots congruent to [i] that
    are less than one turn behind *)
Definition live (B last i s : Z) : Prop := (last - B < s)%Z ∧ (s mod B = i)%Z.

#[export] Instance live_dec B last i s : Decision (live B last i s).
Proof. unfold live. apply _. Defined.

Definition holds (B : Z) (H : list Z) (last : Z) : list Z :=
  (λ i, Z.of_nat (length (filter (live B last i) H))) <$> seqZ 0 B.

Lemma holds_lookup (B : Z) (H : list Z) (last : Z) (i : nat) :
  (Z.of_nat i < B)%Z → holds B H last !! i = Some (Z.of_nat (length (filter (live B last (Z.of_nat i)) H))).
Proof.
  intros Hi. unfold holds. rewrite list_lookup_fmap, lookup_seqZ_lt by lia. done.
Qed.

Lemma holds_length (B : Z) (H : list Z) (last : Z) : (0 < B)%Z → length (holds B H last) = Z.to_nat B.
Proof. intros. unfold holds. rewrite length_fmap, length_seqZ. lia. Qed.

Lemma sum_ring_cons (x : Z) (l : list Z) : sum_ring (x :: l) = (x + sum_ring l)%Z.
Proof.
  unfold sum_ring. simpl. rewrite (Z.add_comm x). generalize 0%Z as a.
  induction l as [|y l IH]; intros a; simpl; [lia|]. rewrite <-IH. f_equal. lia.
Qed.

Lemma sum_indicator (f : Z → Z) (n : nat) (a j : Z) :
  (a ≤ j < a + Z.of_nat n)%Z →
  sum_ring ((λ i, (f i + if decide (i = j) then 1 else 0)%Z) <$> seqZ a (Z.of_nat n)) =
  (sum_ring (f <$> seqZ a (Z.of_nat n)) + 1)%Z.
Proof.
  revert a. induction n as [|n IH]; intros a Hj; [lia|].
  rewrite seqZ_cons by lia. rewrite !fmap_cons, !sum_ring_cons.
  replace (Z.pred (Z.of_nat (S n))) with (Z.of_nat n) by lia.
  destruct (decide (a = j)) as [->|Hne].
  - assert ((λ i, (f i + (if decide (i = j) then 1 else 0))%Z) <$> seqZ (Z.succ j) (Z.of_nat n) =
            f <$> seqZ (Z.succ j) (Z.of_nat n)) as ->; [|lia].
    apply list_fmap_ext. intros k x Hk%lookup_seqZ. rewrite decide_False by lia. lia.
  - rewrite IH by lia. lia.
Qed.

Lemma sum_indicator_0 (f : Z → Z) (B j : Z) :
  (0 ≤ j < B)%Z →
  sum_ring ((λ i, (f i + if decide (i = j) then 1 else 0)%Z) <$> seqZ 0 B) = (sum_ring (f <$> seqZ 0 B) + 1)%Z.
Proof. intros Hj. rewrite <-(Z2Nat.id B) by lia. apply sum_indicator. lia. Qed.

(** the sum of the ring is the number of increments of the last turn *)
Lemma sum_holds (B : Z) (H : list Z) (last : Z) :
  (0 < B)%Z → sum_ring (holds B H last) = Z.of_nat (length (filter (λ s, (last - B < s)%Z) H)).
Proof.
  intros HB. unfold holds. induction H as [|s H IH].
  - change (λ i, Z.of_nat (length (filter (live B last i) []))) with (λ _ : Z, 0%Z).
    cbn [filter list_filter length]. generalize 0%Z at 2 as a.
    replace B with (Z.of_nat (Z.to_nat B)) by lia. generalize (Z.to_nat B) as n.
    induction n as [|n IH]; intros a; [done|]. rewrite seqZ_cons by lia.
    rewrite fmap_cons, sum_ring_cons. replace (Z.pred (Z.of_nat (S n))) with (Z.of_nat n) by lia.
    by rewrite IH.
  - rewrite filter_cons. case_decide as Hs.
    + cbn [length]. rewrite Nat2Z.inj_succ, <-IH. pose proof (Z.mod_pos_bound s B HB).
      rewrite <-Z.add_1_r.
      rewrite <-(sum_indicator_0 _ B (s mod B)) by lia. f_equal. apply list_fmap_ext. intros k i _.
      rewrite filter_cons. unfold live at 1. case_decide as Hl; case_decide; cbn [length]; naive_solver lia.
    + rewrite <-IH. f_equal. apply list_fmap_ext. intros k i _. rewrite filter_cons.
      by rewrite decide_False by (unfold live; tauto).
Qed.

(** *** Moving the ring forward *)

Lemma zero_passed_lookup (B last : Z) (n : nat) (r : list Z) (i : nat) :
  (0 < B)%Z → (0 ≤ last)%Z → length r = Z.to_nat B →
  zero_passed B (last mod B) (Z.of_nat n) r !! i =
  if decide (Z.of_nat i ∈ (λ j, ((last + j) mod B)%Z) <$> seqZ 1 (Z.of_nat n)) then (λ _, 0%Z) <$> r !! i else r !! i.
Proof.
  intros HB Hl Hr. revert i. induction n as [|n IH]; intros i; [done|].
  unfold zero_passed in *. rewrite Nat2Z.inj_succ, <-Z.add_1_r, seqZ_app by lia.
  change (seqZ (1 + Z.of_nat n) 1) with [(1 + Z.of_nat n)%Z]. rewrite foldl_app, fmap_app. cbn [foldl fmap list_fmap].
  rewrite Z.rem_mod_nonneg by (pose proof (Z.mod_pos_bound last B); lia).
  rewrite Z.add_mod_idemp_l by lia. pose proof (Z.mod_pos_bound (last + (1 + Z.of_nat n)) B HB).
  set (l1 := foldl _ r _) in *. assert (length l1 = length r) as Hlen.
  { subst l1. clear. generalize (seqZ 1 (Z.of_nat n)) as js. intros js. revert r.
    induction js as [|j js IHj]; intros r; [done|]. cbn. by rewrite IHj, length_insert. }
  destruct (decide (Z.to_nat ((last + (1 + Z.of_nat n)) mod B) = i)) as [<-|Hne].
  - rewrite decide_True by (rewrite Z2Nat.id by lia; set_solver).
    rewrite list_lookup_insert_eq by lia.
    destruct (lookup_lt_is_Some_2 r (Z.to_nat ((last + (1 + Z.of_nat n)) mod B))) as [x ->]; [lia|done].
  - rewrite list_lookup_insert_ne by done. rewrite IH. apply decide_ext. rewrite elem_of_app, list_elem_of_singleton.
    split; [by left|]. intros [?|Hi]; [done|]. destruct Hne. lia.
Qed.

Lemma idxOf_nonneg (B slot : Z) : (0 < B)%Z → (0 ≤ slot)%Z → idxOf B slot = (slot mod B)%Z.
Proof.
  intros HB Hs. unfold idxOf. rewrite Z.rem_mod_nonneg by done. pose proof (Z.mod_pos_bound slot B HB).
  by destruct (Z.ltb_spec (slot mod B) 0); [lia|].
Qed.

(** a ring that holds the increments [H] up to slot [last] *)
Definition counts (B : Z) (H : list Z) (c : counter) : Prop :=
  (0 < lastSlot c)%Z ∧ lastIdx c = (lastSlot c mod B)%Z ∧ Forall (λ s, (s ≤ lastSlot c)%Z) H ∧
  ring c = holds B H (lastSlot c).

Lemma mod_gap (B x y : Z) : (0 < B)%Z → (x mod B = y mod B)%Z → (x < y)%Z → (x + B ≤ y)%Z.
Proof.
  intros HB Heq Hlt. pose proof (Z.div_mod x B). pose proof (Z.div_mod y B).
  assert (x / B < y / B)%Z by nia. nia.
Qed.

Lemma advance_counts (B slot : Z) (H : list Z) (c : counter) :
  (0 < B)%Z → (lastSlot c ≤ slot)%Z → counts B H c → counts B H (advance B slot c) ∧ lastSlot (advance B slot c) = slot.
Proof.
  intros HB Hle (Hpos & Hidx & Hfa & Hring). unfold advance.
  destruct (Z.eqb_spec (lastSlot c) 0) as [|_]; [lia|]. cbn zeta.
  destruct (Z.leb_spec (slot - lastSlot c) 0) as [H0|H0].
  { split; [done|lia]. }
  assert (Forall (λ s, (s ≤ slot)%Z) H) as Hfa' by (eapply Forall_impl; [exact Hfa|]; simpl; lia).
  destruct (Z.leb_spec B (slot - lastSlot c)) as [Hd|Hd]; split; try done;
    (split; [simpl; lia|]; split; [apply idxOf_nonneg; cbn; lia|]; split; [done|]); cbn [ring lastSlot].
  - rewrite Hring. unfold holds. rewrite <-list_fmap_compose. apply list_fmap_ext. intros k i _. cbn.
    rewrite filter_none; [done|]. eapply Forall_impl; [exact Hfa|]. unfold live. simpl. lia.
  - apply list_eq. intros i. rewrite Hidx, Hring, <-(Z2Nat.id (slot - lastSlot c)) by lia.
    rewrite zero_passed_lookup by (rewrite ?holds_length; lia). rewrite Z2Nat.id by lia.
    destruct (decide (Z.of_nat i < B)%Z) as [Hi|Hi].
    2:{ rewrite !(lookup_ge_None_2 (holds _ _ _)) by (rewrite holds_length; lia). by case_decide. }
    rewrite !holds_lookup by done. rewrite Forall_forall in Hfa. case_decide as Hin.
    + apply list_elem_of_fmap in Hin as (j & Hj & Hin%elem_of_seqZ). cbn. f_equal.
      rewrite filter_none; [done|]. apply Forall_forall. intros s Hs [Hs1 Hs2]. specialize (Hfa s Hs).
      pose proof (mod_gap B s (lastSlot c + j) HB (eq_trans Hs2 Hj) ltac:(lia)). lia.
    + f_equal. f_equal. f_equal. apply filter_ext_in. intros s Hs. specialize (Hfa s Hs).
      split; intros [Hs1 Hs2]; (split; [|done]); [|lia].
      destruct (decide (slot - B < s)%Z); [done|]. destruct Hin. apply list_elem_of_fmap.
      exists (s + B - lastSlot c)%Z. split; [|apply elem_of_seqZ; lia].
      replace (lastSlot c + (s + B - lastSlot c))%Z with (s + 1 * B)%Z by lia. by rewrite Z.mod_add by lia.
Qed.

Lemma bump_counts (B : Z) (H : list Z) (c : counter) :
  (0 < B)%Z → counts B H c → counts B (H ++ [lastSlot c]) (bump c).
Proof.
  intros HB (Hpos & Hidx & Hfa & Hring). split; [done|]. split; [done|].
  split; [apply Forall_app; split; [done|by repeat constructor]|].
  cbn [bump ring lastSlot]. rewrite Hring, Hidx. pose proof (Z.mod_pos_bound (lastSlot c) B HB).
  apply list_eq. intros i. destruct (decide (Z.of_nat i < B)%Z) as [Hi|Hi].
  2:{ by rewrite !lookup_ge_None_2 by (rewrite ?length_alter, ?holds_length; lia). }
  rewrite holds_lookup, filter_app, length_app, filter_cons, filter_nil by done.
  destruct (decide (i = Z.to_nat (lastSlot c mod B))) as [->|Hne].
  - rewrite list_lookup_alter_eq, holds_lookup by done. rewrite decide_True by (unfold live; lia).
    cbn. f_equal. lia.
  - rewrite list_lookup_alter_ne, holds_lookup by done. rewrite decide_False by (unfold live; lia).
    cbn. f_equal. lia.
Qed.

(** ** Runs *)

Inductive tick := Inc (ruleID : string) | Cnt (ruleID : string).

Definition tick_step (t : Tracker) (o : tick * Time.time) : Tracker :=
  match o.1 with Inc r => Increment r o.2 t | Cnt r => (Count r o.2 t).1 end.

Definition run_ticks (t : Tracker) (ops : list (tick * Time.time)) : Tracker := foldl tick_step t ops.

(** the instants of the increments of [r] *)
Definition increments (r : string) (ops : list (tick * Time.time)) : list Time.time :=
  omap (λ o, match o.1 with Inc r' => if decide (r' = r) then Some o.2 else None | Cnt _ => None end) ops.

(** the reference: the increments whose bucket is less than a turn behind *)
Definition recent_increments (t : Tracker) (r : string) (now : Time.time) (ops : list (tick * Time.time)) : nat :=
  length (filter (λ u, (slotOf t now - buckets t < slotOf t u)%Z) (increments r ops)).

Definition rule_ok (t : Tracker) (r : string) (slot : Z) (H : list Z) : Prop :=
  match rules t !! r with
  | None => H = []
  | Some c => counts (buckets t) H c ∧ (lastSlot c ≤ slot)%Z
  end.

Lemma first_counts (B slot : Z) :
  (0 < B)%Z → (0 < slot)%Z →
  counts B [] (advance B slot {| ring := replicate (Z.to_nat B) 0%Z; lastIdx := 0; lastSlot := 0 |}) ∧
  lastSlot (advance B slot {| ring := replicate (Z.to_nat B) 0%Z; lastIdx := 0; lastSlot := 0 |}) = slot.
Proof.
  intros HB Hs. split; [|done]. split; [done|]. split; [apply idxOf_nonneg; cbn; lia|]. split; [constructor|].
  unfold holds. cbn. apply list_eq. intros i. rewrite list_lookup_fmap.
  destruct (decide (Z.of_nat i < B)%Z) as [Hi|Hi].
  - by rewrite lookup_seqZ_lt, lookup_replicate_2 by lia.
  - by rewrite lookup_seqZ_ge, lookup_ge_None_2 by (rewrite ?length_replicate; lia).
Qed.

Lemma tick_step_params (t : Tracker) (o : tick * Time.time) :
  window (tick_step t o) = window t ∧ buckets (tick_step t o) = buckets t.
Proof. destruct o as [[r|r] u]; [done|]. cbn. unfold Count. by destruct (rules t !! r). Qed.

Lemma tick_step_ok (t : Tracker) (o : tick * Time.time) (r : string) (slot0 : Z) (H : list Z) :
  (0 < buckets t)%Z → (slot0 ≤ slotOf t o.2)%Z → (0 < slotOf t o.2)%Z → rule_ok t r slot0 H →
  rule_ok (tick_step t o) r (slotOf t o.2) (H ++ (slotOf t <$> increments r [o])).
Proof.
  intros HB Hle Hpos Hok. unfold rule_ok in *. rewrite (proj2 (tick_step_params t o)).
  destruct o as [[r'|r'] u]; cbn in *.
  - destruct (decide (r' = r)) as [->|Hne]; cbn.
    + rewrite lookup_insert_eq. destruct (rules t !! r) as [c|]; cbn.
      * destruct Hok as [Hc Hls]. destruct (advance_counts (buckets t) (slotOf t u) H c) as [Hc' Hl']; [done|lia|done|].
        unfold advanceLocked. split; [rewrite <-Hl' at 1; by apply bump_counts|cbn; lia].
      * subst H. destruct (first_counts (buckets t) (slotOf t u)) as [Hc' Hl']; [done|done|].
        unfold advanceLocked. split; [rewrite <-Hl' at 1; by apply bump_counts|cbn [bump lastSlot]; lia].
    + rewrite lookup_insert_ne, app_nil_r by done. destruct (rules t !! r) as [c|]; [|done].
      split; [tauto|lia].
  - rewrite app_nil_r. unfold Count. destruct (decide (r' = r)) as [->|Hne].
    + destruct (rules t !! r) as [c|] eqn:Hr; cbn; [|by rewrite Hr]. rewrite lookup_insert_eq.
      destruct Hok as [Hc Hls]. destruct (advance_counts (buckets t) (slotOf t u) H c) as [Hc' Hl']; [done|lia|done|].
      unfold advanceLocked. split; [done|lia].
    + destruct (rules t !! r') as [c|]; cbn; rewrite ?lookup_insert_ne by done;
        (destruct (rules t !! r) as [c'|]; [|done]); (split; [tauto|lia]).
Qed.

Lemma run_ticks_ok (ops : list (tick * Time.time)) (t : Tracker) (r : string) (slot0 now : Z) (H : list Z) :
  (0 < buckets t)%Z → (slot0 ≤ slotOf t now)%Z →
  StronglySorted Z.le ((slotOf t <$> ops.*2) ++ [slotOf t now]) → Forall (λ s, (slot0 ≤ s ∧ 0 < s)%Z) (slotOf t <$> ops.*2) →
  rule_ok t r slot0 H →
  window (run_ticks t ops) = window t ∧ buckets (run_ticks t ops) = buckets t ∧
  rule_ok (run_ticks t ops) r (slotOf t now) (H ++ (slotOf t <$> increments r ops)).
Proof.
  revert t slot0 H. induction ops as [|o ops IH]; intros t slot0 H HB Hle Hs Hf Hok.
  { change (run_ticks t []) with t. split_and!; [done|done|]. rewrite app_nil_r. unfold rule_ok in *.
    destruct (rules t !! r); [|done]. split; [tauto|lia]. }
  rewrite !fmap_cons in Hs, Hf. inversion Hs as [|? ? Hs' Hhead]; subst.
  inversion Hf as [|? ? [Hf1 Hf2] Hf']; subst. change (run_ticks t (o :: ops)) with (run_ticks (tick_step t o) ops).
  destruct (tick_step_params t o) as [Hw Hb].
  assert (∀ x, slotOf (tick_step t o) x = slotOf t x) as Hslot by (intros x; unfold slotOf; by rewrite Hw, Hb).
  assert (slotOf (tick_step t o) <$> ops.*2 = slotOf t <$> ops.*2) as Heq by (by apply list_fmap_ext).
  apply Forall_app in Hhead as [Hh1 Hh2].
  destruct (IH (tick_step t o) (slotOf t o.2) (H ++ (slotOf t <$> increments r [o]))) as (Hw' & Hb' & Hok').
  - by rewrite Hb.
  - rewrite Hslot. by inversion Hh2.
  - by rewrite Heq, Hslot.
  - rewrite Heq, Forall_forall in *. intros s Hin. split; [by apply Hh1|]. by apply (proj2 (Hf' s Hin)).
  - by eapply tick_step_ok.
  - rewrite Hw', Hb', Hw, Hb. split_and!; [done|done|]. rewrite Hslot, <-app_assoc in Hok'.
    rewrite (list_fmap_ext (slotOf (tick_step t o)) (slotOf t) (increments r ops)) in Hok'
      by (intros; by rewrite Hslot).
    rewrite <-fmap_app in Hok'. unfold increments in *. by rewrite <-omap_app in Hok'.
Qed.

Lemma slotOf_mono (t : Tracker) (u v : Time.time) : (u ≤ v)%Z → (slotOf t u ≤ slotOf t v)%Z.
Proof.
  intros H. apply Z.quot_le_mono; [|done]. unfold bucketDur.
  destruct (Z.leb_spec (Z.quot (window t) (buckets t)) 0); [done|lia].
Qed.

Lemma New_params (w : Time.duration) (b : Z) : (0 < buckets (New w b))%Z ∧ (0 < bucketDur (window (New w b)) (buckets (New w b)))%Z.
Proof.
  split; [cbn; destruct (Z.leb_spec b 0); lia|]. unfold bucketDur.
  destruct (Z.leb_spec (Z.quot (window (New w b)) (buckets (New w b))) 0); [done|lia].
Qed.

(** The ring of buckets counts what the sliding window should.  For any
    increments and counts of any rules made with a clock that does not go back
    and has passed its first bucket, the count of a rule is the number of its
    increments whose bucket lies within the last turn of the ring, up to the
    current bucket: rotation, the zeroing of skipped buckets, full turns and
    counting itself lose and double nothing, whatever window and number of
    buckets were asked for. *)
Theorem tracker_counts_window (w : Time.duration) (b : Z) (ops : list (tick * Time.time)) (r : string) (now : Time.time)
    (Hclock : StronglySorted Z.le (ops.*2 ++ [now]))
    (Hstart : Forall (λ u, (bucketDur (window (New w b)) (buckets (New w b)) ≤ u)%Z) (ops.*2 ++ [now])) :
  (Count r now (run_ticks (New w b) ops)).2 = Z.of_nat (recent_increments (New w b) r now ops).
Proof.
  destruct (New_params w b) as [HB HD]. set (t := New w b) in *.
  apply Forall_app in Hstart as [Hstart Hnow]. assert (bucketDur (window t) (buckets t) ≤ now)%Z as Hnow' by by inversion Hnow.
  assert (∀ u, (bucketDur (window t) (buckets t) ≤ u)%Z → (0 < slotOf t u)%Z) as Hpos.
  { intros u Hu. apply Z.quot_str_pos. lia. }
  destruct (run_ticks_ok ops t r 0 now []) as (Hw & Hb & Hok).
  - done.
  - apply Z.lt_le_incl. by apply Hpos.
  - change [slotOf t now] with (slotOf t <$> [now]). rewrite <-fmap_app.
    eapply StronglySorted_fmap; [|exact Hclock]. intros u v. apply slotOf_mono.
  - apply Forall_fmap. eapply Forall_impl; [exact Hstart|]. intros u Hu. cbn. specialize (Hpos u Hu). lia.
  - done.
  - unfold rule_ok, Count, recent_increments in *. cbn [app] in Hok.
    destruct (rules (run_ticks t ops) !! r) as [c|]; cbn [snd].
    + rewrite Hb in Hok. destruct Hok as [Hc Hle].
      destruct (advance_counts (buckets t) (slotOf t now) _ c HB Hle Hc) as [(_ & _ & _ & Hr) Hl].
      unfold advanceLocked. replace (slotOf (run_ticks t ops) now) with (slotOf t now)
        by (unfold slotOf; by rewrite Hw, Hb). rewrite Hb, Hr, Hl, sum_holds by done. f_equal.
      apply length_filter_fmap.
    + apply fmap_nil_inv in Hok. by rewrite Hok.
Qed.

Lemma tracker_counts_window_witness :
  let ops := [(Inc "r", 10); (Inc "q", 11); (Inc "r", 12); (Cnt "r", 13); (Inc "r", 29); (Inc "r", 31)]%Z in
  (Count "r" 31 (run_ticks (New 20 4) ops)).2 = 2%Z ∧
  (Count "r" 31 (run_ticks (New 20 4) ops)).2 = Z.of_nat (recent_increments (New 20 4) "r" 31 ops).
Proof.
  intros ops. split; [by vm_compute|]. apply (tracker_counts_window 20 4 ops "r" 31).
  - repeat (constructor; [|repeat constructor; done]). constructor.
  - repeat constructor; done.
Defined.

