(* ===== verification/Burst.v ===== *)
(** * Burst detectors (src/pkg/burstdet, src/pkg/sshbrute)

    Per-process sliding windows of event times with a cool-down, and the ring of
    the last authentication failures of each source address.  Each is proved
    equal to a reference that keeps every event ever seen. *)

From S2P Require Import Prelude GoStd RateLimit.

(** ** burstdet.go *)

Record Threshold := { th_Window : Time.duration; th_Count : Z; th_CoolDown : Time.duration }.

Definition burst_Defaults : Threshold * Threshold :=
  ({| th_Window := 10 * Time.Second; th_Count := 80; th_CoolDown := 60 * Time.Second |},
   {| th_Window := 10 * Time.Second; th_Count := 20; th_CoolDown := 60 * Time.Second |}).

Record pidWindow := { w_timestamps : list Time.time; w_lastAlert : Time.time }.
Record Counter := { c_t : Threshold; c_events : gmap Z pidWindow }.

Definition NewCounter (t : Threshold) : Counter := {|
  c_t := {| th_Window := if (th_Window t <=? 0)%Z then 10 * Time.Second else th_Window t;
            th_Count := if (th_Count t <=? 0)%Z then 50 else th_Count t;
            th_CoolDown := if (th_CoolDown t <=? 0)%Z then 60 * Time.Second else th_CoolDown t |};
  c_events := ∅ |}.

Definition set_events (m : gmap Z pidWindow) (c : Counter) : Counter := {| c_t := c_t c; c_events := m |}.

(** the loop that skips times not after the cutoff *)
Fixpoint trim (cutoff : Time.time) (ts : list Time.time) : list Time.time :=
  match ts with
  | [] => []
  | t :: ts' => if Time.After t cutoff then ts else trim cutoff ts'
  end.

(** what the caller learns: crossed, count *)
Definition burst_Observe (pid : Z) (now : Time.time) (c : Counter) : Counter * (bool * Z) :=
  let w := default {| w_timestamps := []; w_lastAlert := Time.zero |} (c_events c !! pid) in
  let ts := trim (Time.Add now (- th_Window (c_t c))) (w_timestamps w) ++ [now] in
  let count := Z.of_nat (length ts) in
  let cross := (th_Count (c_t c) <=? count)%Z && (th_CoolDown (c_t c) <=? Time.Sub now (w_lastAlert w))%Z in
  (set_events (<[pid := {| w_timestamps := ts; w_lastAlert := if cross then now else w_lastAlert w |}]> (c_events c)) c,
   (cross, count)).

Definition burst_Forget (pid : Z) (c : Counter) : Counter := set_events (delete pid (c_events c)) c.

Definition stale (cutoff : Time.time) (ts : list Time.time) : bool :=
  match last ts with None => true | Some t => Time.Before t cutoff end.

Definition burst_Sweep (now : Time.time) (ageOut : Time.duration) (c : Counter) : Counter * Z :=
  let cutoff := Time.Add now (- ageOut) in
  let dropped := filter (λ p, stale cutoff (w_timestamps p.2) = true) (c_events c) in
  (set_events (filter (λ p, stale cutoff (w_timestamps p.2) = false) (c_events c)) c, Z.of_nat (size dropped)).

Definition burst_Size (c : Counter) : Z := Z.of_nat (size (c_events c)).

(** *** The reference: every event of a process since it was last forgotten *)

Record seen := { s_times : list Time.time; s_last : Time.time }.

Definition nothing_seen : seen := {| s_times := []; s_last := Time.zero |}.

Definition in_window (W : Time.duration) (now : Time.time) (ts : list Time.time) : Z :=
  Z.of_nat (length (filter (λ t, (now - W < t)%Z) ts)).

Definition ref_observe (th : Threshold) (pid : Z) (now : Time.time) (m : gmap Z seen) : gmap Z seen * (bool * Z) :=
  let h := default nothing_seen (m !! pid) in
  let ts := s_times h ++ [now] in
  let count := in_window (th_Window th) now ts in
  let cross := (th_Count th <=? count)%Z && (th_CoolDown th <=? Time.Sub now (s_last h))%Z in
  (<[pid := {| s_times := ts; s_last := if cross then now else s_last h |}]> m, (cross, count)).

Inductive burst_op : Type :=
  | BObserve (pid : Z) (now : Time.time)
  | BForget (pid : Z)
  | BSweep (now : Time.time) (ageOut : Time.duration).

Definition burst_exec (o : burst_op) (c : Counter) : Counter * list (bool * Z) :=
  match o with
  | BObserve pid now => let '(c', r) := burst_Observe pid now c in (c', [r])
  | BForget pid => (burst_Forget pid c, [])
  | BSweep now ageOut => ((burst_Sweep now ageOut c).1, [])
  end.

Definition ref_exec (th : Threshold) (o : burst_op) (m : gmap Z seen) : gmap Z seen * list (bool * Z) :=
  match o with
  | BObserve pid now => let '(m', r) := ref_observe th pid now m in (m', [r])
  | BForget pid => (delete pid m, [])
  | BSweep now ageOut => (filter (λ p, stale (Time.Add now (- ageOut)) (s_times p.2) = false) m, [])
  end.

(** what every observation of a sequence of operations answers *)
Fixpoint answers {S O R} (exec : O → S → S * list R) (ops : list O) (s : S) : list R :=
  match ops with
  | [] => []
  | o :: ops' => let '(s', r) := exec o s in r ++ answers exec ops' s'
  end.

Definition op_time (o : burst_op) : option Time.time :=
  match o with BObserve _ now => Some now | _ => None end.

Section window.
Context (th : Threshold) (Hth : c_t (NewCounter th) = th).

(** the window kept is the tail of the history after the events that had left
    the window by the time [now0] *)
Definition agree (now0 : Time.time) (w : pidWindow) (h : seen) : Prop :=
  w_lastAlert w = s_last h ∧ Forall (λ t, (t ≤ now0)%Z) (s_times h) ∧ StronglySorted Z.le (s_times h) ∧
  ∃ k, w_timestamps w = drop k (s_times h) ∧ k < length (s_times h) ∧
       Forall (λ t, (t ≤ now0 - th_Window th)%Z) (take k (s_times h)).

Definition agree_all (now0 : Time.time) (c : Counter) (m : gmap Z seen) : Prop :=
  c_t c = th ∧ ∀ pid, option_Forall2 (agree now0) (c_events c !! pid) (m !! pid).

Lemma trim_prune (cutoff : Time.time) (ts : list Time.time) : trim cutoff ts = prune (cutoff + 1) ts.
Proof.
  induction ts as [|t ts IH]; [done|]. cbn [trim prune]. unfold Time.After, Time.Before. rewrite IH.
  destruct (cutoff <? t)%Z eqn:H1, (t <? cutoff + 1)%Z eqn:H2; bool_to_prop; (done || lia).
Qed.

Lemma positive_window : (0 < th_Window th)%Z.
Proof.
  rewrite <-Hth. cbn. destruct (th_Window th <=? 0)%Z eqn:H; bool_to_prop; [done|lia].
Qed.

(** one trimmed history: a tail again, and it is the window *)
Lemma trim_window (now0 now : Time.time) (A : list Time.time) (k : nat) :
  StronglySorted Z.le A → (now0 ≤ now)%Z → k ≤ length A → Forall (λ t, (t ≤ now0 - th_Window th)%Z) (take k A) →
  ∃ k', trim (now - th_Window th) (drop k A) = drop k' A ∧ k' ≤ length A ∧
        Forall (λ t, (t ≤ now - th_Window th)%Z) (take k' A) ∧
        Z.of_nat (length (drop k' A)) = in_window (th_Window th) now A.
Proof.
  intros Hs Hn Hk Hf. set (pol := {| MaxFires := 1; pol_Window := th_Window th - 1; Cooldown := 0 |}%Z).
  destruct (pruned_recent pol A now now0 k Hs Hn Hk) as (k' & H1 & H2 & H3 & H4).
  { eapply Forall_impl; [exact Hf|]. cbn. lia. }
  exists k'. rewrite trim_prune. replace (now - th_Window th + 1)%Z with (now - pol_Window pol)%Z by (cbn; lia).
  split_and!; [done|done| |].
  - eapply Forall_impl; [exact H3|]. cbn. lia.
  - rewrite H4. unfold recent, in_window. do 2 f_equal. apply list_filter_iff. intros t. cbn. lia.
Qed.

Lemma agree_observe (now0 now pid : Z) (c : Counter) (m : gmap Z seen) :
  (now0 ≤ now)%Z → agree_all now0 c m →
  (burst_Observe pid now c).2 = (ref_observe th pid now m).2 ∧
  agree_all now (burst_Observe pid now c).1 (ref_observe th pid now m).1.
Proof.
  intros Hn [Ht Hall]. unfold burst_Observe, ref_observe. rewrite Ht. unfold Time.Add.
  set (w := default {| w_timestamps := []; w_lastAlert := Time.zero |} (c_events c !! pid)).
  set (h := default nothing_seen (m !! pid)).
  assert (∃ k, w_lastAlert w = s_last h ∧ Forall (λ t, (t ≤ now0)%Z) (s_times h) ∧ StronglySorted Z.le (s_times h) ∧
    w_timestamps w = drop k (s_times h) ∧ k ≤ length (s_times h) ∧
    Forall (λ t, (t ≤ now0 - th_Window th)%Z) (take k (s_times h))) as (k & Hl & Hle & Hs & Hk & Hkl & Hf).
  { unfold w, h. destruct (Hall pid) as [? ? (H1 & H2 & H3 & k & H4 & H5 & H6)|]; cbn.
    - exists k. split_and!; try done. lia.
    - exists 0. split_and!; try done; constructor. }
  rewrite Hk, Hl. destruct (trim_window now0 now (s_times h) k Hs Hn Hkl Hf) as (k' & Hd & Hk' & Hf' & Hc).
  replace (now + - th_Window th)%Z with (now - th_Window th)%Z by lia. rewrite Hd.
  assert (Z.of_nat (length (drop k' (s_times h) ++ [now])) = in_window (th_Window th) now (s_times h ++ [now])) as ->.
  { unfold in_window in *. rewrite filter_app, !length_app, !Nat2Z.inj_add, Hc. f_equal.
    rewrite filter_cons_True; [done|]. pose proof positive_window. lia. }
  split; [done|]. split; [done|]. intros p. cbn [c_events set_events fst].
  destruct (decide (p = pid)) as [->|Hp].
  - rewrite !lookup_insert_eq. constructor. split; [done|]. cbn [s_times w_timestamps]. split_and!.
    + apply Forall_app. split; [|by constructor]. eapply Forall_impl; [exact Hle|]. cbn. lia.
    + apply StronglySorted_app. split_and!; [|done|repeat constructor].
      intros x y Hx ->%list_elem_of_singleton. rewrite Forall_forall in Hle. specialize (Hle x Hx). lia.
    + exists k'. rewrite drop_app_le, take_app_le, length_app by lia. cbn. split_and!; [done|lia|done].
  - rewrite !lookup_insert_ne by done. destruct (Hall p) as [? ? (H1 & H2 & H3 & k0 & H4 & H5 & H6)|]; constructor.
    split_and!; try done.
    + eapply Forall_impl; [exact H2|]. cbn. lia.
    + exists k0. split_and!; try done. eapply Forall_impl; [exact H6|]. cbn. lia.
Qed.

Lemma agree_stale (now0 cutoff : Time.time) (w : pidWindow) (h : seen) :
  agree now0 w h → stale cutoff (w_timestamps w) = stale cutoff (s_times h).
Proof.
  intros (_ & _ & _ & k & Hk & Hl & _). unfold stale. rewrite Hk, !last_lookup, lookup_drop, length_drop.
  by replace (k + pred (length (s_times h) - k)) with (pred (length (s_times h))) by lia.
Qed.

Lemma agree_exec (now0 : Time.time) (o : burst_op) (c : Counter) (m : gmap Z seen) :
  (∀ t, op_time o = Some t → (now0 ≤ t)%Z) → agree_all now0 c m →
  (burst_exec o c).2 = (ref_exec th o m).2 ∧
  agree_all (default now0 (op_time o)) (burst_exec o c).1 (ref_exec th o m).1.
Proof.
  intros Ho H. destruct o as [pid now|pid|now age]; cbn [op_time default burst_exec ref_exec].
  - destruct (agree_observe now0 now pid c m (Ho now eq_refl) H) as [H1 H2].
    destruct (burst_Observe pid now c), (ref_observe th pid now m). cbn in *. by subst.
  - destruct H as [Ht Hall]. split; [done|]. split; [done|]. intros p. cbn.
    destruct (decide (p = pid)) as [->|Hp]; [rewrite !lookup_delete_eq; constructor|].
    rewrite !lookup_delete_ne by done. apply Hall.
  - destruct H as [Ht Hall]. split; [done|]. split; [done|]. intros p. cbn.
    rewrite !map_lookup_filter. destruct (Hall p) as [w h Hwh|]; [|constructor]. cbn [mbind option_bind].
    rewrite (agree_stale _ _ _ _ Hwh). cbn [fst snd]. case_guard; by constructor.
Qed.

End window.

Lemma normal_again (th : Threshold) : c_t (NewCounter (c_t (NewCounter th))) = c_t (NewCounter th).
Proof.
  destruct th as [W C D]. cbn. f_equal.
  - destruct (W <=? 0)%Z eqn:H; [done|]. by rewrite H.
  - destruct (C <=? 0)%Z eqn:H; [done|]. by rewrite H.
  - destruct (D <=? 0)%Z eqn:H; [done|]. by rewrite H.
Qed.

Lemma burst_answers (th : Threshold) (Hth : c_t (NewCounter th) = th) (ops : list burst_op) (now0 : Time.time) (c : Counter)
    (m : gmap Z seen) :
  StronglySorted Z.le (now0 :: omap op_time ops) → agree_all th now0 c m →
  answers burst_exec ops c = answers (ref_exec th) ops m.
Proof.
  revert now0 c m. induction ops as [|o ops IH]; intros now0 c m Hs H; [done|]. cbn [answers].
  destruct (agree_exec th Hth now0 o c m) as [Ha Hg]; [|done|].
  { intros t Ht. cbn [omap list_omap] in Hs. rewrite Ht in Hs. inversion Hs as [|? ? _ Hf]; subst. by inversion Hf. }
  destruct (burst_exec o c) as [c' r], (ref_exec th o m) as [m' r']. cbn [fst snd] in *. rewrite Ha. f_equal.
  apply (IH (default now0 (op_time o))); [|done]. cbn [omap list_omap] in Hs.
  destruct (op_time o); cbn [default]; [|done]. by inversion Hs.
Qed.

(** the sliding windows are exact.  Over any interleaving of observations of
    any processes, at times that do not go back, with processes forgotten and
    tables swept in between, the counter answers each observation as if it kept
    every event since the process was last forgotten: the count is the number of
    those events in the last window, the new one included, and it reports a
    crossing exactly when the count reaches the threshold and the last reported
    crossing is at least the cool-down old.  Trimming never costs an event. *)
Theorem burst_counts_window (th : Threshold) (ops : list burst_op) :
  StronglySorted Z.le (omap op_time ops) →
  answers burst_exec ops (NewCounter th) = answers (ref_exec (c_t (NewCounter th))) ops ∅.
Proof.
  intros Hs. set (start := List.hd 0%Z (omap op_time ops)).
  apply (burst_answers _ (normal_again th) ops start).
  - constructor; [done|]. unfold start. destruct (omap op_time ops) as [|t ts]; [constructor|]. cbn.
    inversion Hs; subst. constructor; [lia|done].
  - split; [done|]. intros pid. cbn. rewrite !lookup_empty. constructor.
Qed.

(** ** sshbrute.go *)

Record sourceState := { ss_stamps : list Time.time; ss_idx : nat; ss_count : nat; ss_cooldownEnd : Time.time;
                        ss_users : gmap string Z }.

Record Detector := { d_threshold : nat; d_window : Time.duration; d_cooldown : Time.duration;
                     d_bySource : gmap string sourceState }.

Definition ssh_Defaults : nat * Time.duration * Time.duration := (20, (60 * Time.Second)%Z, (5 * Time.Minute)%Z).

Definition NewDetector (threshold : nat) (window cooldown : Time.duration) : Detector :=
  {| d_threshold := threshold; d_window := window; d_cooldown := cooldown; d_bySource := ∅ |}.

Record Observation := { o_Fired : bool; o_SourceIP : string; o_Failures : Z; o_Window : Time.duration;
                        o_UserAttempts : gmap string Z }.

Definition no_alert : Observation := {| o_Fired := false; o_SourceIP := ""; o_Failures := 0; o_Window := 0; o_UserAttempts := ∅ |}.

Definition set_sources (m : gmap string sourceState) (d : Detector) : Detector := {|
  d_threshold := d_threshold d; d_window := d_window d; d_cooldown := d_cooldown d; d_bySource := m |}.

Definition new_source (n : nat) : sourceState := {|
  ss_stamps := replicate n Time.zero; ss_idx := 0; ss_count := 0; ss_cooldownEnd := Time.zero; ss_users := ∅ |}.

(** [m[user]++] *)
Definition incr (user : string) (m : gmap string Z) : gmap string Z := <[user := (default 0 (m !! user) + 1)%Z]> m.

(** the failure written into the ring *)
Definition record_failure (n : nat) (user : string) (ts : Time.time) (st : sourceState) : sourceState := {|
  ss_stamps := <[ss_idx st := ts]> (ss_stamps st);
  ss_idx := (ss_idx st + 1) mod n;
  ss_count := if (ss_count st <? n)%nat then S (ss_count st) else ss_count st;
  ss_cooldownEnd := ss_cooldownEnd st;
  ss_users := if Str.empty user then ss_users st else incr user (ss_users st) |}.

Definition failures_in (W : Time.duration) (ts : Time.time) (stamps : list Time.time) : nat :=
  length (filter (λ t, Time.IsZero t = false ∧ Time.Before t (Time.Add ts (- W)) = false) stamps).

(** [None] is a panic: the ring of a detector with threshold zero is empty *)
Definition ssh_Observe (sourceIP user : string) (ts : Time.time) (d : Detector) : option (Detector * Observation) :=
  if Str.empty sourceIP then Some (d, no_alert)
  else if (d_threshold d =? 0)%nat then None
  else
    let st := record_failure (d_threshold d) user ts (default (new_source (d_threshold d)) (d_bySource d !! sourceIP)) in
    let failures := failures_in (d_window d) ts (ss_stamps st) in
    if (failures <? d_threshold d)%nat || Time.Before ts (ss_cooldownEnd st)
    then Some (set_sources (<[sourceIP := st]> (d_bySource d)) d, no_alert)
    else
      let st' := {| ss_stamps := ss_stamps st; ss_idx := ss_idx st; ss_count := ss_count st;
                    ss_cooldownEnd := Time.Add ts (d_cooldown d); ss_users := ∅ |} in
      Some (set_sources (<[sourceIP := st']> (d_bySource d)) d,
            {| o_Fired := true; o_SourceIP := sourceIP; o_Failures := Z.of_nat failures; o_Window := d_window d;
               o_UserAttempts := ss_users st |}).

Definition newest_stamp (stamps : list Time.time) : Time.time :=
  foldl (λ n t, if Time.After t n then t else n) Time.zero stamps.

Definition source_expired (W : Time.duration) (now : Time.time) (st : sourceState) : bool :=
  Time.Before (newest_stamp (ss_stamps st)) (Time.Add now (-2 * W)) && Time.After now (ss_cooldownEnd st).

Definition ssh_Sweep (now : Time.time) (d : Detector) : Detector :=
  set_sources (filter (λ p, source_expired (d_window d) now p.2 = false) (d_bySource d)) d.

Definition ssh_Size (d : Detector) : Z := Z.of_nat (size (d_bySource d)).

Inductive ssh_op : Type := SObserve (sourceIP user : string) (ts : Time.time) | SSweep (now : Time.time).

Definition ssh_exec (o : ssh_op) (d : Detector) : Detector * list (option Observation) :=
  match o with
  | SObserve ip user ts => match ssh_Observe ip user ts d with Some (d', r) => (d', [Some r]) | None => (d, [None]) end
  | SSweep now => (ssh_Sweep now d, [])
  end.

(** *** The reference: every failure of a source, and the names tried since its
    last alert *)

Record attack := { a_times : list Time.time; a_users : list string; a_cooldownEnd : Time.time }.

Definition no_attack : attack := {| a_times := []; a_users := []; a_cooldownEnd := Time.zero |}.

Definition tally (users : list string) : gmap string Z := foldl (λ m u, if Str.empty u then m else incr u m) ∅ users.

(** the last [n] failures, all within the window that ends at [ts] *)
Definition under_attack (n : nat) (W : Time.duration) (ts : Time.time) (times : list Time.time) : bool :=
  (n <=? length times)%nat && forallb (λ t, (ts - W <=? t)%Z) (last_n n times).

Definition ref_ssh (n : nat) (W C : Time.duration) (ip user : string) (ts : Time.time) (m : gmap string attack) :
    gmap string attack * Observation :=
  if Str.empty ip then (m, no_alert)
  else
    let a := default no_attack (m !! ip) in
    let times := a_times a ++ [ts] in
    let users := a_users a ++ [user] in
    if under_attack n W ts times && (a_cooldownEnd a <=? ts)%Z
    then (<[ip := {| a_times := times; a_users := []; a_cooldownEnd := (ts + C)%Z |}]> m,
          {| o_Fired := true; o_SourceIP := ip; o_Failures := Z.of_nat n; o_Window := W; o_UserAttempts := tally users |})
    else (<[ip := {| a_times := times; a_users := users; a_cooldownEnd := a_cooldownEnd a |}]> m, no_alert).

(** a source is forgotten when its last [n] failures are older than two windows
    and its cool-down is over *)
Definition quiet (n : nat) (W : Time.duration) (now : Time.time) (a : attack) : bool :=
  forallb (λ t, (t <? now - 2 * W)%Z) (last_n n (a_times a)) && (a_cooldownEnd a <? now)%Z.

Definition ref_ssh_exec (n : nat) (W C : Time.duration) (o : ssh_op) (m : gmap string attack) :
    gmap string attack * list (option Observation) :=
  match o with
  | SObserve ip user ts => let '(m', r) := ref_ssh n W C ip user ts m in (m', [Some r])
  | SSweep now => (filter (λ p, quiet n W now p.2 = false) m, [])
  end.

Lemma last_n_app_r {A} (n : nat) (k l : list A) : n ≤ length l → last_n n (k ++ l) = last_n n l.
Proof. intros Hl. unfold last_n. rewrite length_app, drop_app_ge by lia. f_equal. lia. Qed.

Lemma filter_full {A} (P : A → Prop) `{!∀ x, Decision (P x)} (l : list A) : length l ≤ length (filter P l) → Forall P l.
Proof.
  induction l as [|x l IH]; intros Hl; [constructor|]. rewrite filter_cons in Hl.
  pose proof (length_filter P l). destruct (decide (P x)) as [Hx|Hx]; cbn [length] in Hl.
  - constructor; [done|]. apply IH. lia.
  - lia.
Qed.

Section ring.
Context (n : nat) (W C : Time.duration) (Hn : 0 < n).

Definition ring (times : list Time.time) : list Time.time := last_n n (replicate n Time.zero ++ times).

Record follows (st : sourceState) (a : attack) : Prop := {
  f_len : length (ss_stamps st) = n; f_idx : ss_idx st < n;
  f_ring : unrolled (ss_idx st) (ss_stamps st) = ring (a_times a);
  f_cool : ss_cooldownEnd st = a_cooldownEnd a; f_users : ss_users st = tally (a_users a);
  f_times : Forall (λ t, t ≠ Time.zero) (a_times a) }.

Definition follows_all (d : Detector) (m : gmap string attack) : Prop :=
  d_threshold d = n ∧ d_window d = W ∧ d_cooldown d = C ∧
  ∀ ip, option_Forall2 follows (d_bySource d !! ip) (m !! ip).

Lemma follows_new : follows (new_source n) no_attack.
Proof.
  constructor; cbn; try done; [by rewrite length_replicate|]. unfold unrolled, ring. rewrite drop_0, take_0, !app_nil_r.
  rewrite last_n_all; [done|]. by rewrite length_replicate.
Qed.

Lemma ring_long (times : list Time.time) : n ≤ length times → ring times = last_n n times.
Proof. apply last_n_app_r. Qed.

Lemma ring_short (times : list Time.time) : length times < n → Time.zero ∈ ring times.
Proof.
  intros Hl. unfold ring, last_n. rewrite length_app, length_replicate, drop_app_le by (rewrite length_replicate; lia).
  rewrite drop_replicate. apply elem_of_app. left. apply elem_of_replicate. split; [done|lia].
Qed.

Lemma ring_length (times : list Time.time) : length (ring times) = n.
Proof. unfold ring. rewrite last_n_length, length_app, length_replicate. lia. Qed.

Definition recent_failure (ts t : Time.time) : Prop := Time.IsZero t = false ∧ Time.Before t (Time.Add ts (- W)) = false.

Lemma under_attack_ring (ts : Time.time) (times : list Time.time) :
  Forall (λ t, t ≠ Time.zero) times → under_attack n W ts times = true ↔ Forall (recent_failure ts) (ring times).
Proof.
  intros Hz. unfold under_attack.
  assert (∀ t, recent_failure ts t ↔ t ≠ Time.zero ∧ (ts - W ≤ t)%Z) as HP.
  { intros t. unfold recent_failure, Time.IsZero, Time.Before, Time.Add. rewrite Z.eqb_neq, Z.ltb_ge.
    split; intros []; split; (done || lia). }
  destruct (n <=? length times)%nat eqn:Hle; bool_to_prop; cbn [andb].
  - rewrite (ring_long times Hle), forallb_spec, (Forall_iff _ _ _ HP), Forall_and. split; [|intros [_ H]].
    + intros H. split; [by apply Forall_drop|]. eapply Forall_impl; [exact H|]. cbn. intros; by apply Z.leb_le.
    + eapply Forall_impl; [exact H|]. cbn. intros; by apply Z.leb_le.
  - split; [done|]. rewrite Forall_forall. intros H. destruct (HP Time.zero) as [H0 _].
    destruct (H0 (H _ (ring_short times Hle))) as [? _]. done.
Qed.

(** the count reaches the threshold exactly when the whole ring is in the window *)
Lemma failures_spec (ts : Time.time) (stamps times : list Time.time) :
  stamps ≡ₚ ring times → Forall (λ t, t ≠ Time.zero) times →
  (failures_in W ts stamps <? n)%nat = negb (under_attack n W ts times) ∧
  (under_attack n W ts times = true → failures_in W ts stamps = n).
Proof.
  intros Hp Hz. pose proof (under_attack_ring ts times Hz) as Hu.
  assert (failures_in W ts stamps = length (filter (recent_failure ts) (ring times))) as ->.
  { unfold failures_in. change (filter _ stamps) with (filter (recent_failure ts) stamps). by rewrite Hp. }
  pose proof (ring_length times) as Hr. destruct (under_attack n W ts times); cbn [negb].
  - rewrite filter_all by (by apply Hu). rewrite Hr. split; [by apply Nat.ltb_irrefl|done].
  - split; [|done]. apply Nat.ltb_lt. pose proof (length_filter (recent_failure ts) (ring times)) as Hlf. rewrite Hr in Hlf.
    destruct (decide (length (filter (recent_failure ts) (ring times)) = n)) as [He|Hne]; [|lia].
    enough (false = true) by done. apply Hu, (filter_full (recent_failure ts)). by rewrite He, Hr.
Qed.

Lemma record_follows (user : string) (ts : Time.time) (st : sourceState) (a : attack) :
  ts ≠ Time.zero → follows st a →
  follows (record_failure n user ts st)
    {| a_times := a_times a ++ [ts]; a_users := a_users a ++ [user]; a_cooldownEnd := a_cooldownEnd a |}.
Proof.
  intros Hts []. constructor; cbn.
  - by rewrite length_insert.
  - apply Nat.mod_upper_bound. lia.
  - etrans; [by apply unrolled_write|]. rewrite f_ring0. unfold ring. rewrite app_assoc, last_n_snoc; [done|done|].
    rewrite length_app, length_replicate. lia.
  - done.
  - unfold tally. rewrite foldl_app. cbn. by rewrite f_users0.
  - apply Forall_app. by repeat constructor.
Qed.

Lemma follows_observe (ip user : string) (ts : Time.time) (d : Detector) (m : gmap string attack) :
  ts ≠ Time.zero → follows_all d m →
  ∃ d', ssh_Observe ip user ts d = Some (d', (ref_ssh n W C ip user ts m).2) ∧ follows_all d' (ref_ssh n W C ip user ts m).1.
Proof.
  intros Hts (Hdn & Hdw & Hdc & Hall). unfold ssh_Observe, ref_ssh.
  destruct (Str.empty ip); [by exists d|]. rewrite Hdn, Hdw, Hdc, (proj2 (Nat.eqb_neq _ _)) by lia.
  set (st := default (new_source n) (d_bySource d !! ip)). set (a := default no_attack (m !! ip)).
  assert (follows st a) as Hf.
  { unfold st, a. destruct (Hall ip) as [? ? H|]; [exact H|apply follows_new]. }
  pose proof (record_follows user ts st a Hts Hf) as Hr. set (st' := record_failure n user ts st) in *.
  destruct (failures_spec ts (ss_stamps st') (a_times a ++ [ts])) as [Hcmp Hfull].
  { pose proof (f_ring _ _ Hr) as Hring. cbn [a_times] in Hring. rewrite <-Hring. symmetry. apply unrolled_perm. }
  { exact (f_times _ _ Hr). }
  rewrite Hcmp, (f_cool _ _ Hr). cbn [a_cooldownEnd]. unfold Time.Before. rewrite Z.ltb_antisym.
  assert (∀ s b, follows s b → follows_all (set_sources (<[ip := s]> (d_bySource d)) d) (<[ip := b]> m)) as Hput.
  { intros s b Hs. split_and!; try done. intros i. cbn. destruct (decide (i = ip)) as [->|Hi].
    - rewrite !lookup_insert_eq. by constructor.
    - rewrite !lookup_insert_ne by done. apply Hall. }
  destruct (under_attack n W ts (a_times a ++ [ts])) eqn:Hu; cbn [negb andb orb].
  - destruct (a_cooldownEnd a <=? ts)%Z; cbn [negb].
    + eexists. split; [by rewrite (Hfull eq_refl), (f_users _ _ Hr)|]. apply Hput. destruct Hr. constructor; done.
    + eexists. split; [done|]. by apply Hput.
  - eexists. split; [done|]. by apply Hput.
Qed.

Lemma newest_lt (l : list Time.time) (c : Time.time) :
  (newest_stamp l <? c)%Z = (Time.zero <? c)%Z && forallb (λ t, (t <? c)%Z) l.
Proof.
  unfold newest_stamp. generalize Time.zero. induction l as [|t l IH]; intros z; cbn [foldl forallb]; [by rewrite andb_true_r|].
  rewrite IH. unfold Time.After. destruct (z <? t)%Z eqn:H, (z <? c)%Z eqn:H1, (t <? c)%Z eqn:H2; bool_to_prop; (done || lia).
Qed.

Lemma ring_forallb (f : Time.time → bool) (times : list Time.time) :
  f Time.zero = true → forallb f (ring times) = forallb f (last_n n times).
Proof.
  intros Hz. destruct (decide (n ≤ length times)) as [Hl|Hl]; [by rewrite ring_long|].
  rewrite (last_n_all n times) by lia. unfold ring, last_n. rewrite drop_app_le by (rewrite length_app, length_replicate; lia).
  rewrite drop_replicate, forallb_app, (proj2 (forallb_spec f (replicate _ _))); [done|].
  apply Forall_replicate. exact Hz.
Qed.

Lemma follows_quiet (now : Time.time) (st : sourceState) (a : attack) :
  (Time.zero < now - 2 * W)%Z → follows st a → source_expired W now st = quiet n W now a.
Proof.
  intros Hz Hf. unfold source_expired, quiet, Time.Before, Time.After, Time.Add. rewrite (f_cool _ _ Hf). f_equal.
  replace (now + -2 * W)%Z with (now - 2 * W)%Z by lia. rewrite newest_lt, (proj2 (Z.ltb_lt _ _) Hz). cbn [andb].
  rewrite <-ring_forallb by (by apply Z.ltb_lt). rewrite <-(f_ring _ _ Hf). apply eq_true_iff_eq.
  rewrite !forallb_spec. by rewrite unrolled_perm.
Qed.

(** times are past the year 1, the zero time of Go *)
Definition ssh_op_ok (o : ssh_op) : Prop :=
  match o with SObserve _ _ ts => ts ≠ Time.zero | SSweep now => (Time.zero < now - 2 * W)%Z end.

Lemma follows_exec (o : ssh_op) (d : Detector) (m : gmap string attack) :
  ssh_op_ok o → follows_all d m →
  (ssh_exec o d).2 = (ref_ssh_exec n W C o m).2 ∧ follows_all (ssh_exec o d).1 (ref_ssh_exec n W C o m).1.
Proof.
  intros Ho H. destruct o as [ip user ts|now]; cbn [ssh_exec ref_ssh_exec].
  - destruct (follows_observe ip user ts d m Ho H) as (d' & -> & Hd). by destruct (ref_ssh n W C ip user ts m).
  - split; [done|]. destruct H as (H1 & H2 & H3 & Hall). split_and!; try done. intros ip. cbn.
    rewrite !map_lookup_filter. destruct (Hall ip) as [st a Hf|]; [|constructor]. cbn [mbind option_bind fst snd].
    rewrite H2, (follows_quiet now st a Ho Hf). case_guard; by constructor.
Qed.

Lemma ssh_answers (ops : list ssh_op) (d : Detector) (m : gmap string attack) :
  Forall ssh_op_ok ops → follows_all d m → answers ssh_exec ops d = answers (ref_ssh_exec n W C) ops m.
Proof.
  intros Ho. revert d m. induction Ho as [|o ops Ho _ IH]; intros d m H; [done|]. cbn [answers].
  destruct (follows_exec o d m Ho H) as [H1 H2]. destruct (ssh_exec o d), (ref_ssh_exec n W C o m). cbn in *.
  subst. f_equal. by apply IH.
Qed.

End ring.

(** the ring of the last failures is enough.  For any sequence of failures
    from any sources, in any order of times, with sweeps in between, the detector
    answers as if it kept every failure: it alerts exactly when the last [n]
    failures of the source, [n] the threshold, are all within the window that
    ends at the newest and the source's cool-down is over, and the alert says
    [n].  It never panics for a positive threshold.  The names it reports are
    those of every failure since the source's previous alert, however old, and
    not those of the window. *)
Theorem ssh_ring_is_exact (n : nat) (W C : Time.duration) (ops : list ssh_op) :
  0 < n → Forall (ssh_op_ok W) ops →
  answers ssh_exec ops (NewDetector n W C) = answers (ref_ssh_exec n W C) ops ∅.
Proof.
  intros Hn Ho. apply (ssh_answers n W C Hn); [done|]. split_and!; try done. intros ip. cbn. rewrite !lookup_empty. constructor.
Qed.


(** a shell that spawns three children in a second, and a source that guesses *)
Module Demo.
Definition th : Threshold := {| th_Window := 10 * Time.Second; th_Count := 3; th_CoolDown := 60 * Time.Second |}.

Definition at_ (s : Z) : Time.time := (s * Time.Second)%Z.

Definition spawns : list burst_op :=
  [BObserve 7 (at_ 100); BObserve 8 (at_ 100); BObserve 7 (at_ 101); BObserve 7 (at_ 102); BObserve 7 (at_ 103); BForget 8;
   BSweep (at_ 104) (at_ 600); BObserve 7 (at_ 120)].

(** one wrong password of alice an hour before the attack *)
Definition failures : list ssh_op :=
  [SObserve "198.51.100.7" "alice" (at_ 1000); SObserve "198.51.100.7" "root" (at_ 4600);
   SObserve "198.51.100.7" "admin" (at_ 4601); SSweep (at_ 4602); SObserve "198.51.100.7" "root" (at_ 4603)].

Definition alert : Observation := {|
  o_Fired := true; o_SourceIP := "198.51.100.7"; o_Failures := 3; o_Window := at_ 60;
  o_UserAttempts := <["alice" := 1]> (<["root" := 2]> (<["admin" := 1]> ∅)) |}%Z.
End Demo.

Lemma burst_counts_window_witness :
  answers burst_exec Demo.spawns (NewCounter Demo.th) =
  [(false, 1); (false, 1); (false, 2); (true, 3); (false, 4); (false, 1)]%Z.
Proof.
  rewrite (burst_counts_window Demo.th Demo.spawns); [vm_compute; reflexivity|].
  vm_compute. repeat (constructor; [|repeat constructor; discriminate]). constructor.
Defined.

Lemma ssh_ring_is_exact_witness :
  answers ssh_exec Demo.failures (NewDetector 3 (Demo.at_ 60) (Demo.at_ 300)) =
  [Some no_alert; Some no_alert; Some no_alert; Some Demo.alert].
Proof.
  rewrite (ssh_ring_is_exact 3 (Demo.at_ 60) (Demo.at_ 300) Demo.failures ltac:(lia)); [vm_compute; reflexivity|].
  repeat (apply Forall_cons_2; [first [discriminate|reflexivity]|]). apply Forall_nil_2.
Defined.
