(* ===== verification/Spine.v ===== *)
(** * Source graph (src/pkg/source: anchor.go, store.go, graph.go, layout.go)

    The anchors of authenticated entry points, the events attributed to them,
    and the process spine the graph view walks and lays out.  The two SQL
    tables are lists; the text of each query is its definition here, and the
    order the engine leaves free among equal sort keys is a parameter
    ([order_by]).  Loops whose end is not evident take fuel and answer [None]
    when it runs out, so that "the loop ends" and "it never ends" are both
    statements about them. *)

From S2P Require Import Prelude GoStd.

(** ** Anchors *)

Inductive AnchorKind : Type := KindUnknown | KindSSH | KindPAM | KindSudo | KindCron | KindSystemd.

#[export] Instance AnchorKind_eq_dec : EqDecision AnchorKind.
Proof. solve_decision. Defined.

Definition AnchorKind_String (k : AnchorKind) : string :=
  match k with
  | KindSSH => "ssh"
  | KindPAM => "pam"
  | KindSudo => "sudo"
  | KindCron => "cron"
  | KindSystemd => "systemd"
  | KindUnknown => "unknown"
  end.

Record Anchor := {
  an_ID : Z;
  an_Kind : AnchorKind;
  an_ParentAnchorID : Z;
  an_CreatedAt : Time.time;
  an_Host : string;
  an_Actor : string;
  an_UID : Z;
  an_LoginUID : Z;
  an_SourceIP : string;
  an_SourcePort : Z;
  an_SSHKeyHash : string;
  an_Unit : string;
  an_Detail : string
}.

(** ** Events *)

Record GraphEvent := {
  ge_ID : Z;
  ge_SourceAnchorID : Z;
  ge_CausalSetHash : Z;
  ge_Time : Time.time;
  ge_PID : Z;
  ge_ParentPID : Z;
  ge_Kind : string;
  ge_TargetPath : string;
  ge_TargetHost : string;
  ge_TargetPort : Z;
  ge_TargetSocket : string;
  ge_TargetImage : string;
  ge_Comm : string;
  ge_UID : Z;
  ge_Severity : string;
  ge_Detail : string
}.

(** the two tables, and the last row id given out *)
Record Store := { anchors : gmap Z Anchor; events : list GraphEvent; last_id : Z }.

Definition OpenEmpty : Store := {| anchors := ∅; events := []; last_id := 0 |}.

Inductive source_error : Type :=
  | ErrPutZero | ErrAnchorZero | ErrKindEmpty | ErrNoRows | ErrRootPID (pid anchor : Z) | ErrDB.

Definition set_created (now : Time.time) (a : Anchor) : Anchor :=
  {| an_ID := an_ID a; an_Kind := an_Kind a; an_ParentAnchorID := an_ParentAnchorID a;
     an_CreatedAt := if Time.IsZero (an_CreatedAt a) then now else an_CreatedAt a;
     an_Host := an_Host a; an_Actor := an_Actor a; an_UID := an_UID a; an_LoginUID := an_LoginUID a;
     an_SourceIP := an_SourceIP a; an_SourcePort := an_SourcePort a;
     an_SSHKeyHash := an_SSHKeyHash a; an_Unit := an_Unit a; an_Detail := an_Detail a |}.

Definition Put (db_fails : bool) (now : Time.time) (a : Anchor) (s : Store) : Store * option source_error :=
  if (an_ID a =? 0)%Z then (s, Some ErrPutZero)
  else if db_fails then (s, Some ErrDB)
  else ({| anchors := <[an_ID a := set_created now a]> (anchors s); events := events s;
           last_id := last_id s |}, None).

Definition Get (id : Z) (s : Store) : result source_error Anchor :=
  match anchors s !! id with Some a => Ok a | None => Err ErrNoRows end.

Definition fill (id : Z) (now : Time.time) (ev : GraphEvent) : GraphEvent :=
  {| ge_ID := id; ge_SourceAnchorID := ge_SourceAnchorID ev; ge_CausalSetHash := ge_CausalSetHash ev;
     ge_Time := if Time.IsZero (ge_Time ev) then now else ge_Time ev;
     ge_PID := ge_PID ev; ge_ParentPID := ge_ParentPID ev; ge_Kind := ge_Kind ev;
     ge_TargetPath := ge_TargetPath ev; ge_TargetHost := ge_TargetHost ev;
     ge_TargetPort := ge_TargetPort ev; ge_TargetSocket := ge_TargetSocket ev;
     ge_TargetImage := ge_TargetImage ev; ge_Comm := ge_Comm ev; ge_UID := ge_UID ev;
     ge_Severity := if Str.empty (ge_Severity ev) then "info" else ge_Severity ev;
     ge_Detail := ge_Detail ev |}.

Definition RecordEvent (db_fails : bool) (now : Time.time) (ev : GraphEvent) (s : Store)
    : Store * result source_error Z :=
  if (ge_SourceAnchorID ev =? 0)%Z then (s, Err ErrAnchorZero)
  else if Str.empty (ge_Kind ev) then (s, Err ErrKindEmpty)
  else if db_fails then (s, Err ErrDB)
  else
    let id := (last_id s + 1)%Z in
    ({| anchors := anchors s; events := events s ++ [fill id now ev]; last_id := id |}, Ok id).

Definition SweepEventsOlderThan (cutoff : Time.time) (s : Store) : Store * Z :=
  let kept := filter (λ e, ¬ (ge_Time e < cutoff)%Z) (events s) in
  ({| anchors := anchors s; events := kept; last_id := last_id s |},
   (Z.of_nat (length (events s)) - Z.of_nat (length kept))%Z).

(** ** Queries *)

Record TimeWindow := { w_Start : Time.time; w_End : Time.time }.

Definition in_window (w : TimeWindow) (t : Time.time) : bool :=
  (Time.IsZero (w_Start w) || (w_Start w <=? t)%Z) && (Time.IsZero (w_End w) || (t <? w_End w)%Z).

Record SpineNode := {
  NodeKey : string;
  sn_Kind : string;
  Label : string;
  AnchorID : Z;
  sn_PID : Z;
  sn_ParentPID : Z;
  ParentNodeKey : string;
  sn_Comm : string;
  sn_UID : Z;
  FirstSeen : Time.time;
  LastSeen : Time.time
}.

#[export] Instance SpineNode_eq_dec : EqDecision SpineNode.
Proof. solve_decision. Defined.

(** a row of the spine query *)
Record spine_row := {
  r_pid : Z; r_ppid : Z; r_comm : string; r_uid : Z; r_first : Time.time; r_last : Time.time
}.

Definition max_of (l : list Z) : Z := match l with [] => 0%Z | x :: l' => foldl Z.max x l' end.
Definition min_of (l : list Z) : Z := match l with [] => 0%Z | x :: l' => foldl Z.min x l' end.
Definition max_str (l : list string) : string :=
  match l with [] => "" | x :: l' => foldl (λ a b, if Str.ltb a b then b else a) x l' end.

(** the row that GROUP BY pid makes of the selected events of [pid] *)
Definition group_row (sel : list GraphEvent) (pid : Z) : spine_row :=
  let g := filter (λ e, ge_PID e = pid) sel in
  {| r_pid := pid; r_ppid := max_of (ge_ParentPID <$> g); r_comm := max_str (ge_Comm <$> g);
     r_uid := max_of (ge_UID <$> g); r_first := min_of (ge_Time <$> g); r_last := max_of (ge_Time <$> g) |}.

Definition selected (s : Store) (anchorID : Z) (w : TimeWindow) : list GraphEvent :=
  filter (λ e, ge_SourceAnchorID e = anchorID ∧ ge_PID e ≠ 0%Z ∧ in_window w (ge_Time e) = true) (events s).

Definition group_rows (s : Store) (anchorID : Z) (w : TimeWindow) : list spine_row :=
  let sel := selected s anchorID w in group_row sel <$> remove_dups (ge_PID <$> sel).

Definition src_key (id : Z) : string := "src-" +:+ Str.itoa id.
Definition pid_key (pid : Z) : string := "p-" +:+ Str.itoa pid.

Definition source_node (a : Anchor) : SpineNode :=
  {| NodeKey := src_key (an_ID a); sn_Kind := "source";
     Label := "#" +:+ (Str.itoa (an_ID a) +:+ (" " +:+ (an_Actor a +:+ (" · " +:+ AnchorKind_String (an_Kind a)))));
     AnchorID := an_ID a; sn_PID := 0; sn_ParentPID := 0; ParentNodeKey := "";
     sn_Comm := AnchorKind_String (an_Kind a); sn_UID := an_UID a;
     FirstSeen := an_CreatedAt a; LastSeen := an_CreatedAt a |}.

Definition process_node (root : string) (r : spine_row) : SpineNode :=
  {| NodeKey := pid_key (r_pid r); sn_Kind := "process";
     Label := r_comm r +:+ (" (" +:+ (Str.itoa (r_pid r) +:+ ")"));
     AnchorID := 0; sn_PID := r_pid r; sn_ParentPID := r_ppid r;
     ParentNodeKey := if (r_ppid r =? 0)%Z then root else pid_key (r_ppid r);
     sn_Comm := r_comm r; sn_UID := r_uid r; FirstSeen := r_first r; LastSeen := r_last r |}.

(** a process whose parent is not in the spine hangs off the source *)
Definition reparent (root : string) (known : list Z) (n : SpineNode) : SpineNode :=
  if bool_decide (sn_ParentPID n ∈ known) then n
  else {| NodeKey := NodeKey n; sn_Kind := sn_Kind n; Label := Label n; AnchorID := AnchorID n;
          sn_PID := sn_PID n; sn_ParentPID := sn_ParentPID n; ParentNodeKey := root;
          sn_Comm := sn_Comm n; sn_UID := sn_UID n; FirstSeen := FirstSeen n; LastSeen := LastSeen n |}.

Section queries.
(** ORDER BY MIN(time_ns) ASC, free on ties *)
Context (order_by : list spine_row → list spine_row).

Definition SpineFor (anchorID : Z) (w : TimeWindow) (s : Store) : result source_error (list SpineNode) :=
  if (anchorID =? 0)%Z then Err ErrAnchorZero
  else
    anchor ← Get anchorID s;
    let root := source_node anchor in
    let procs := process_node (NodeKey root) <$> order_by (group_rows s anchorID w) in
    Ok (root :: (reparent (NodeKey root) (sn_PID <$> procs) <$> procs)).

(** the two maps of the walk: the last index of each key, the indexes of the
    nodes under each parent key *)
Definition indexByKey (all : list SpineNode) : gmap string nat :=
  foldl (λ m x, <[NodeKey x.2 := x.1]> m) ∅ (imap pair all).

Definition childrenByKey (all : list SpineNode) : gmap string (list nat) :=
  foldl (λ m x, <[ParentNodeKey x.2 := default [] (m !! ParentNodeKey x.2) ++ [x.1]]> m) ∅ (imap pair all).

(** one turn of the walk over the queue of (key, depth) *)
Definition bfs_turn (all : list SpineNode) (maxDepth : Z) (key : string) (depth : Z)
    : list SpineNode * list (string * Z) :=
  match indexByKey all !! key ≫= λ i, all !! i with
  | None => ([], [])
  | Some n =>
      ([n], if (0 <? maxDepth)%Z && (maxDepth <=? depth)%Z then []
            else (λ c, (NodeKey c, (depth + 1)%Z)) <$>
                 omap (λ i, all !! i) (default [] (childrenByKey all !! key)))
  end.

Fixpoint bfs (fuel : nat) (all : list SpineNode) (maxDepth : Z) (q : list (string * Z))
    (out : list SpineNode) : option (list SpineNode) :=
  match q with
  | [] => Some out
  | (key, depth) :: q' =>
      match fuel with
      | O => None
      | S fuel' =>
          let '(o, cs) := bfs_turn all maxDepth key depth in
          bfs fuel' all maxDepth (q' ++ cs) (out ++ o)
      end
  end.

(** [None]: no node has that pid *)
Definition start_key (all : list SpineNode) (rootPID : Z) : option string :=
  if (rootPID =? 0)%Z then Some (match all with n :: _ => NodeKey n | [] => "" end)
  else match List.find (λ n, (sn_PID n =? rootPID)%Z) all with
       | Some n => Some (NodeKey n)
       | None => None
       end.

(** the outer [option] is [None] when the walk has not ended within [fuel] turns *)
Definition SpineForDepth (fuel : nat) (anchorID : Z) (w : TimeWindow) (maxDepth rootPID : Z) (s : Store)
    : option (result source_error (list SpineNode)) :=
  match SpineFor anchorID w s with
  | Err e => Some (Err e)
  | Ok all =>
      if (maxDepth <=? 0)%Z && (rootPID =? 0)%Z then Some (Ok all)
      else match start_key all rootPID with
           | None => Some (Err (ErrRootPID rootPID anchorID))
           | Some k => Ok <$> bfs fuel all maxDepth [(k, 0%Z)] []
           end
  end.
End queries.

(** ** First pass of the layout: the widths *)

Definition LayoutSiblingGap : Z := 60.
Definition LayoutNodeWidth : Z := 110.

(** a node that no parent claims *)
Definition top (n : SpineNode) : bool :=
  Str.empty (ParentNodeKey n) || bool_decide (ParentNodeKey n = NodeKey n).

(** the node the recursion starts from, by its key; [None] for an empty spine *)
Definition layout_root (spine : list SpineNode) : option string :=
  let pick root n :=
    if top n then Some (NodeKey n)
    else if bool_decide (ParentNodeKey n ∈ NodeKey <$> spine) then root
    else match root with None => Some (NodeKey n) | _ => root end in
  match foldl pick None spine with
  | Some k => Some k
  | None => NodeKey <$> head spine
  end.

(** the children appended to the node of key [k], once per occurrence *)
Definition layout_children (spine : list SpineNode) (k : string) : list string :=
  NodeKey <$> filter (λ n, top n = false ∧ ParentNodeKey n = k) spine.

(** the recursive closure; [fuel] bounds the depth of the Go stack *)
Fixpoint widthOf (fuel : nat) (spine : list SpineNode) (k : string) : option Z :=
  match fuel with
  | O => None
  | S fuel' =>
      match layout_children spine k with
      | [] => Some LayoutNodeWidth
      | cs =>
          ws ← mapM (widthOf fuel' spine) cs;
          Some (Z.max LayoutNodeWidth
                 (foldr Z.add 0 ws + LayoutSiblingGap * (Z.of_nat (length cs) - 1)))%Z
      end
  end.

Definition layout_width (fuel : nat) (spine : list SpineNode) : option Z :=
  match layout_root spine with None => Some 0%Z | Some k => widthOf fuel spine k end.

(** ** What the maps of the walk hold *)

Lemma imap_snoc (l : list SpineNode) (x : SpineNode) :
  imap pair (l ++ [x]) = imap pair l ++ [(length l, x)].
Proof. rewrite imap_app. simpl. by rewrite Nat.add_0_r. Qed.

Lemma indexByKey_snoc (l : list SpineNode) (x : SpineNode) :
  indexByKey (l ++ [x]) = <[NodeKey x := length l]> (indexByKey l).
Proof. unfold indexByKey. by rewrite imap_snoc, foldl_app. Qed.

Lemma childrenByKey_snoc (l : list SpineNode) (x : SpineNode) :
  childrenByKey (l ++ [x]) =
  <[ParentNodeKey x := default [] (childrenByKey l !! ParentNodeKey x) ++ [length l]]> (childrenByKey l).
Proof. unfold childrenByKey. by rewrite imap_snoc, foldl_app. Qed.

Lemma indexByKey_Some (l : list SpineNode) (k : string) (i : nat) :
  indexByKey l !! k = Some i → ∃ n, l !! i = Some n ∧ NodeKey n = k.
Proof.
  induction l as [|x l IH] using rev_ind; [done|]. rewrite indexByKey_snoc.
  destruct (decide (NodeKey x = k)) as [<-|Hne].
  - rewrite lookup_insert_eq. intros [= <-]. exists x. by rewrite list_lookup_middle.
  - rewrite lookup_insert_ne by done. intros (n & Hn & Hk)%IH. exists n. split; [|done].
    by apply lookup_app_l_Some.
Qed.

Lemma indexByKey_in (l : list SpineNode) (n : SpineNode) :
  n ∈ l → is_Some (indexByKey l !! NodeKey n).
Proof.
  induction l as [|x l IH] using rev_ind; [by intros ?%elem_of_nil|]. rewrite indexByKey_snoc.
  intros [Hn| ->%list_elem_of_singleton]%elem_of_app; [|by rewrite lookup_insert_eq].
  destruct (decide (NodeKey x = NodeKey n)) as [->|Hne]; [by rewrite lookup_insert_eq|].
  rewrite lookup_insert_ne by done. by apply IH.
Qed.

(** the nodes under a parent key *)
Definition kids (all : list SpineNode) (k : string) : list SpineNode :=
  filter (λ n, ParentNodeKey n = k) all.

Lemma childrenByKey_bound (l : list SpineNode) (k : string) :
  Forall (λ i, i < length l) (default [] (childrenByKey l !! k)).
Proof.
  induction l as [|x l IH] using rev_ind; [constructor|]. rewrite childrenByKey_snoc, length_app. cbn.
  assert (Forall (λ i, i < length l + 1) (default [] (childrenByKey l !! k))) as IH'.
  { eapply Forall_impl; [exact IH|]. simpl. lia. }
  destruct (decide (ParentNodeKey x = k)) as [->|Hne].
  - rewrite lookup_insert_eq. cbn. apply Forall_app. split; [done|]. constructor; [lia|done].
  - by rewrite lookup_insert_ne.
Qed.

Lemma childrenByKey_kids (l : list SpineNode) (k : string) :
  omap (λ i, l !! i) (default [] (childrenByKey l !! k)) = kids l k.
Proof.
  unfold kids. induction l as [|x l IH] using rev_ind; [done|].
  rewrite childrenByKey_snoc, filter_app, <-IH.
  assert (omap (λ i, (l ++ [x]) !! i) (default [] (childrenByKey l !! k)) =
          omap (λ i, l !! i) (default [] (childrenByKey l !! k))) as Hext.
  { clear IH. pose proof (childrenByKey_bound l k) as Hb. induction Hb as [|i js Hi _ IHi]; [done|].
    cbn. rewrite lookup_app_l by done. destruct (l !! i); [f_equal|]; exact IHi. }
  destruct (decide (ParentNodeKey x = k)) as [<-|Hne].
  - rewrite lookup_insert_eq. unfold default at 1; cbn [from_option id]. rewrite omap_app, Hext. f_equal.
    rewrite filter_cons_True, filter_nil by done. cbn. by rewrite list_lookup_middle.
  - rewrite lookup_insert_ne, Hext, filter_cons_False, filter_nil, app_nil_r by done. done.
Qed.

(** ** The walk, level by level *)

Section walk.
Context (all : list SpineNode) (maxDepth : Z).
Context (Hkeys : NoDup (NodeKey <$> all)).

Lemma key_inj (n m : SpineNode) : n ∈ all → m ∈ all → NodeKey n = NodeKey m → n = m.
Proof.
  intros [i Hi]%list_elem_of_lookup [j Hj]%list_elem_of_lookup Hk.
  assert (i = j) as ->; [|congruence].
  apply (NoDup_lookup (NodeKey <$> all) i j (NodeKey n)); [done|..].
  - by rewrite list_lookup_fmap, Hi.
  - rewrite list_lookup_fmap, Hj. simpl. by rewrite Hk.
Qed.

Lemma all_NoDup : NoDup all.
Proof. by eapply NoDup_fmap_1. Qed.

Definition capped (d : Z) : bool := (0 <? maxDepth)%Z && (maxDepth <=? d)%Z.

Definition at_depth (d : Z) (l : list SpineNode) : list (string * Z) := (λ n, (NodeKey n, d)) <$> l.

Lemma bfs_turn_spec (n : SpineNode) (d : Z) :
  n ∈ all →
  bfs_turn all maxDepth (NodeKey n) d =
  ([n], if capped d then [] else at_depth (d + 1) (kids all (NodeKey n))).
Proof.
  intros Hn. unfold bfs_turn. destruct (indexByKey_in all n Hn) as [i Hi].
  destruct (indexByKey_Some all _ i Hi) as (m & Hm & Hk). rewrite Hi. simpl. rewrite Hm.
  rewrite (key_inj m n); [|by eapply list_elem_of_lookup_2|done|done]. by rewrite childrenByKey_kids.
Qed.

Definition children (l : list SpineNode) : list SpineNode := l ≫= λ n, kids all (NodeKey n).

Lemma kids_in (k : string) : kids all k ⊆ all.
Proof. intros n. unfold kids. by rewrite list_elem_of_filter; intros [_ ?]. Qed.

Lemma children_in (l : list SpineNode) : children l ⊆ all.
Proof. intros n [x [Hx _]]%list_elem_of_bind. by eapply kids_in. Qed.

Lemma bfs_mono (fuel x : nat) (q : list (string * Z)) (out r : list SpineNode) :
  bfs fuel all maxDepth q out = Some r → bfs (fuel + x) all maxDepth q out = Some r.
Proof.
  revert q out. induction fuel as [|fuel IH]; intros [|[k d] q] out; simpl; try done.
  - by destruct x.
  - destruct (bfs_turn all maxDepth k d) as [o cs]. apply IH.
Qed.

(** one level is emptied into the next *)
Lemma bfs_level (l nxt out : list SpineNode) (d : Z) (fuel : nat) :
  l ⊆ all → capped d = false →
  bfs (length l + fuel) all maxDepth (at_depth d l ++ at_depth (d + 1) nxt) out =
  bfs fuel all maxDepth (at_depth (d + 1) (nxt ++ children l)) (out ++ l).
Proof.
  revert nxt out. induction l as [|n l IH]; intros nxt out Hl Hc; simpl.
  { by rewrite !app_nil_r. }
  rewrite bfs_turn_spec, Hc by (apply Hl; by left). rewrite <-app_assoc.
  unfold at_depth at 2 3. rewrite <-fmap_app. fold (at_depth (d + 1) (nxt ++ kids all (NodeKey n))).
  rewrite IH; [|by intros x Hx; apply Hl; right|done]. by rewrite <-!app_assoc.
Qed.

(** the last level when the depth is capped *)
Lemma bfs_capped (l out : list SpineNode) (d : Z) (fuel : nat) :
  l ⊆ all → capped d = true →
  bfs (length l + fuel) all maxDepth (at_depth d l) out = Some (out ++ l).
Proof.
  revert out. induction l as [|n l IH]; intros out Hl Hc; simpl.
  { rewrite app_nil_r. by destruct fuel. }
  rewrite bfs_turn_spec, Hc, app_nil_r by (apply Hl; by left).
  rewrite IH; [|by intros x Hx; apply Hl; right|done]. by rewrite <-app_assoc.
Qed.

Context (root : SpineNode) (Hroot : root ∈ all).

Fixpoint level (j : nat) : list SpineNode :=
  match j with O => [root] | S j' => children (level j') end.

(** the nodes of the levels below [j] *)
Definition above (j : nat) : list SpineNode := seq 0 j ≫= level.

Lemma above_S (j : nat) : above (S j) = above j ++ level j.
Proof. unfold above. rewrite seq_S, bind_app. simpl. by rewrite app_nil_r. Qed.

Lemma level_in (j : nat) : level j ⊆ all.
Proof. destruct j; [by intros n ->%list_elem_of_singleton|apply children_in]. Qed.

Lemma bfs_levels (j fuel : nat) :
  (∀ i, i < j → capped (Z.of_nat i) = false) →
  bfs (length (above j) + fuel) all maxDepth [(NodeKey root, 0%Z)] [] =
  bfs fuel all maxDepth (at_depth (Z.of_nat j) (level j)) (above j).
Proof.
  induction j as [|j IH] in fuel |- *; intros Hc; [done|].
  rewrite above_S, length_app, <-Nat.add_assoc, IH by (intros i Hi; apply Hc; lia).
  rewrite <-(app_nil_r (at_depth (Z.of_nat j) (level j))).
  change [] with (at_depth (Z.of_nat j + 1) []) at 1.
  rewrite bfs_level; [|apply level_in|apply Hc; lia]. cbn [app level].
  by replace (Z.of_nat j + 1)%Z with (Z.of_nat (S j)) by lia.
Qed.

(** with a depth cap the walk ends and returns the levels up to the cap *)
Lemma bfs_bounded (fuel : nat) :
  (0 < maxDepth)%Z →
  bfs (length (above (S (Z.to_nat maxDepth))) + fuel) all maxDepth [(NodeKey root, 0%Z)] [] =
  Some (above (S (Z.to_nat maxDepth))).
Proof.
  intros Hm. rewrite above_S, length_app, <-Nat.add_assoc, bfs_levels.
  - apply bfs_capped; [apply level_in|]. unfold capped. apply andb_true_iff.
    split; [by apply Z.ltb_lt|apply Z.leb_le; lia].
  - intros i Hi. unfold capped. apply andb_false_iff. right. apply Z.leb_gt. lia.
Qed.

Lemma uncapped (d : Z) : (maxDepth ≤ 0)%Z → capped d = false.
Proof. intros Hm. unfold capped. apply andb_false_iff. left. by apply Z.ltb_ge. Qed.

(** without one it ends once a level is empty *)
Lemma bfs_unbounded (j fuel : nat) :
  (maxDepth ≤ 0)%Z → level j = [] →
  bfs (length (above j) + fuel) all maxDepth [(NodeKey root, 0%Z)] [] = Some (above j).
Proof.
  intros Hm Hj. rewrite bfs_levels by (intros i _; by apply uncapped). rewrite Hj. by destruct fuel.
Qed.

Lemma above_long (j : nat) : (∀ i, i < j → level i ≠ []) → j ≤ length (above j).
Proof.
  induction j as [|j IH]; intros Hne; [lia|]. rewrite above_S, length_app.
  specialize (IH ltac:(intros i Hi; apply Hne; lia)). specialize (Hne j ltac:(lia)).
  destruct (level j); [done|]. simpl. lia.
Qed.

(** and never when no level is *)
Lemma bfs_diverges (fuel : nat) :
  (maxDepth ≤ 0)%Z → (∀ j, level j ≠ []) →
  bfs fuel all maxDepth [(NodeKey root, 0%Z)] [] = None.
Proof.
  intros Hm Hne. destruct (bfs fuel all maxDepth _ []) as [r|] eqn:Hb; [|done].
  pose proof (above_long fuel (λ i _, Hne i)) as Hl.
  apply (bfs_mono fuel (length (above fuel) - fuel)) in Hb.
  replace (fuel + (length (above fuel) - fuel)) with (length (above fuel) + 0) in Hb by lia.
  rewrite bfs_levels in Hb by (intros i _; by apply uncapped).
  specialize (Hne fuel). by destruct (level fuel).
Qed.

(** *** Descent by parent links *)

Inductive descends (a : SpineNode) : nat → SpineNode → Prop :=
  | descends_0 : descends a 0 a
  | descends_S d p n :
      descends a d p → p ∈ all → n ∈ all → ParentNodeKey n = NodeKey p → descends a (S d) n.

Lemma level_descends (d : nat) (n : SpineNode) : n ∈ level d ↔ descends root d n.
Proof.
  revert n. induction d as [|d IH]; intros n; simpl.
  - rewrite list_elem_of_singleton. split; [intros ->; constructor|by inversion 1].
  - unfold children. rewrite list_elem_of_bind. split.
    + intros (p & Hn & Hp). unfold kids in Hn. apply list_elem_of_filter in Hn as [Hk Hin].
      apply (descends_S _ d p); [by apply IH|by eapply level_in|done|done].
    + inversion 1 as [|? p ? Hp Hpin Hn Hk]; subst. exists p. split; [|by apply IH].
      unfold kids. by apply list_elem_of_filter.
Qed.

Section acyclic.
Context (K : nat) (Hacyc : ∀ d, d < K → ¬ descends root (S d) root).

Lemma depth_unique (i j : nat) (n : SpineNode) : i ≤ K → j ≤ K → n ∈ level i → n ∈ level j → i = j.
Proof.
  rewrite !level_descends. revert j n. induction i as [|i IH]; intros [|j] n Hik Hjk Hi Hj; [done|..].
  - inversion Hi; subst. by destruct (Hacyc j).
  - inversion Hj; subst. by destruct (Hacyc i).
  - inversion Hi as [|? p ? Hp Hpin _ Hk]; subst. inversion Hj as [|? p' ? Hp' Hpin' _ Hk']; subst.
    rewrite (key_inj p' p) in Hp' by (done || congruence). f_equal. eapply IH; [lia|lia|done|done].
Qed.

Lemma level_NoDup (j : nat) : NoDup (level j).
Proof.
  induction j as [|j IH]; simpl; [apply NoDup_singleton|]. apply NoDup_bind; [|..|done].
  - intros p p' n Hp Hp' Hn Hn'. unfold kids in *. apply list_elem_of_filter in Hn as [Hk _], Hn' as [Hk' _].
    apply key_inj; [by eapply level_in|by eapply level_in|congruence].
  - intros p _. apply NoDup_filter, all_NoDup.
Qed.

Lemma above_NoDup (j : nat) : j ≤ S K → NoDup (above j).
Proof.
  intros Hj. apply NoDup_bind; [|by intros; apply level_NoDup|apply NoDup_seq].
  intros i i' n [_ Hi]%elem_of_seq [_ Hi']%elem_of_seq. apply depth_unique; lia.
Qed.

Lemma above_in (j : nat) : above j ⊆ all.
Proof. intros n (i & Hn & _)%list_elem_of_bind. by eapply level_in. Qed.

Lemma above_short (j : nat) : j ≤ S K → length (above j) ≤ length all.
Proof. intros Hj. apply submseteq_length, NoDup_submseteq; [by apply above_NoDup|apply above_in]. Qed.

Lemma some_level_empty : length all ≤ K → ∃ j, level j = [].
Proof.
  intros HK. destruct (decide (Forall (λ j, level j ≠ []) (seq 0 (S (length all))))) as [Hf|Hf].
  - pose proof (above_short (S (length all)) ltac:(lia)). rewrite Forall_forall in Hf.
    pose proof (above_long (S (length all)) ltac:(intros i Hi; apply Hf, elem_of_seq; lia)). lia.
  - apply not_Forall_Exists in Hf; [|apply _]. apply Exists_exists in Hf as (j & _ & Hj). exists j.
    by apply dec_stable.
Qed.
End acyclic.

(** either no short descent leads back to the root or one does *)
Lemma cycle_dec (K : nat) :
  (∀ d, d < K → ¬ descends root (S d) root) ∨ ∃ d, descends root (S d) root.
Proof.
  induction K as [|K [Hac|Hc]]; [left; lia| |by right].
  destruct (decide (root ∈ level (S K))) as [Hin|Hnin].
  - right. exists K. by apply level_descends.
  - left. intros d Hd. destruct (decide (d = K)) as [->|]; [|apply Hac; lia].
    by rewrite <-level_descends.
Qed.

Lemma level_empty_later (i j : nat) : i ≤ j → level i = [] → level j = [].
Proof. induction 1 as [|j _ IH]; [done|]. intros Hi. simpl. by rewrite (IH Hi). Qed.

Lemma descends_trans (a b c : SpineNode) (d e : nat) :
  descends a d b → descends b e c → descends a (d + e) c.
Proof.
  intros Hab. induction 1 as [|e p n _ IH]; [by rewrite Nat.add_0_r|].
  rewrite Nat.add_succ_r. by apply (descends_S _ _ p).
Qed.

Lemma cycle_no_level_empty (d : nat) : descends root (S d) root → ∀ j, level j ≠ [].
Proof.
  intros Hd j Hj.
  assert (∀ k, descends root (k * S d) root) as Hk.
  { induction k as [|k IH]; [constructor|]. rewrite Nat.mul_succ_l. by eapply descends_trans. }
  specialize (Hk j). apply level_descends in Hk.
  rewrite (level_empty_later j (j * S d)) in Hk by (done || lia). by apply elem_of_nil in Hk.
Qed.

End walk.

(** ** The spine of an anchor *)

Section spine.
Context (order_by : list spine_row → list spine_row).
Context (Hord : ∀ l, order_by l ≡ₚ l).

Lemma reparent_key (root : string) (known : list Z) (n : SpineNode) :
  NodeKey (reparent root known n) = NodeKey n ∧ sn_PID (reparent root known n) = sn_PID n.
Proof. unfold reparent. by case_bool_decide. Qed.

Lemma group_rows_pids (s : Store) (anchorID : Z) (w : TimeWindow) :
  r_pid <$> group_rows s anchorID w = remove_dups (ge_PID <$> selected s anchorID w).
Proof. unfold group_rows. rewrite <-list_fmap_compose. apply list_fmap_id. Qed.

Lemma SpineFor_shape (anchorID : Z) (w : TimeWindow) (s : Store) (all : list SpineNode) :
  SpineFor order_by anchorID w s = Ok all →
  ∃ a procs, anchors s !! anchorID = Some a ∧ all = source_node a :: procs ∧
    NodeKey <$> procs = pid_key <$> (r_pid <$> order_by (group_rows s anchorID w)) ∧
    NoDup (NodeKey <$> all) ∧ Forall (λ n, NodeKey n ≠ "") all.
Proof.
  unfold SpineFor, Get. destruct (anchorID =? 0)%Z; [done|].
  destruct (anchors s !! anchorID) as [a|]; [|done]. intros [= <-]. eexists a, _. split; [done|]. split; [done|].
  assert (∀ ns : list SpineNode, ∀ k kn, NodeKey <$> (reparent k kn <$> ns) = NodeKey <$> ns) as Hre.
  { intros ns k kn. rewrite <-list_fmap_compose. apply list_fmap_ext. intros i x _. apply reparent_key. }
  assert (NodeKey <$> (process_node (src_key (an_ID a)) <$> order_by (group_rows s anchorID w)) =
          pid_key <$> (r_pid <$> order_by (group_rows s anchorID w))) as Hpk.
  { by rewrite <-!list_fmap_compose. }
  rewrite Hre. split; [done|]. split.
  - rewrite fmap_cons, Hre, Hpk. constructor.
    + intros (p & Hp & _)%list_elem_of_fmap. unfold pid_key in Hp. cbn in Hp. unfold src_key in Hp. discriminate Hp.
    + apply NoDup_fmap_2.
      * intros x y Hxy. unfold pid_key in Hxy. apply Str.app_inj_l in Hxy. by apply Str.itoa_inj.
      * rewrite (Hord (group_rows s anchorID w)), group_rows_pids. apply NoDup_remove_dups.
  - constructor; [done|]. apply Forall_fmap, Forall_fmap, Forall_true. intros r. cbn.
    by rewrite (proj1 (reparent_key _ _ _)).
Qed.

(** the source has no parent, so it is on no cycle *)
Lemma source_acyclic (all : list SpineNode) (root : SpineNode) (d : nat) :
  ParentNodeKey root = "" → Forall (λ n, NodeKey n ≠ "") all → ¬ descends all root (S d) root.
Proof.
  intros Hp Hk. inversion 1 as [|? p ? _ Hpin _ Hpar]; subst. rewrite Forall_forall in Hk.
  apply (Hk p Hpin). congruence.
Qed.

(** the node the walk starts at *)
Definition start_node (all : list SpineNode) (rootPID : Z) (n : SpineNode) : Prop :=
  if decide (rootPID = 0%Z) then head all = Some n
  else List.find (λ n, (sn_PID n =? rootPID)%Z) all = Some n.

Lemma start_node_in (all : list SpineNode) (rootPID : Z) (n : SpineNode) :
  start_node all rootPID n → n ∈ all ∧ start_key all rootPID = Some (NodeKey n).
Proof.
  unfold start_node, start_key. case_decide as H0.
  - subst rootPID. destruct all as [|m all]; [done|]. intros [= ->]. split; [by left|done].
  - rewrite (proj2 (Z.eqb_neq _ _)) by done. intros Hf. rewrite Hf. split; [|done].
    apply List.find_some in Hf as [Hin _]. by apply list_elem_of_In.
Qed.
End spine.

(** *** Widths along descents *)

Lemma widthOf_None (spine : list SpineNode) (k c : string) (fuel : nat) :
  c ∈ layout_children spine k → widthOf fuel spine c = None → widthOf (S fuel) spine k = None.
Proof.
  intros Hc Hn. cbn [widthOf]. destruct (layout_children spine k) as [|c0 cs] eqn:Hk; [by apply elem_of_nil in Hc|].
  assert (mapM (widthOf fuel spine) (c0 :: cs) = None) as ->; [|done].
  apply mapM_None_2, Exists_exists. by exists c.
Qed.

Lemma layout_children_in (spine : list SpineNode) (p n : SpineNode) :
  n ∈ spine → ParentNodeKey n = NodeKey p → NodeKey p ≠ "" → ParentNodeKey n ≠ NodeKey n →
  NodeKey n ∈ layout_children spine (NodeKey p).
Proof.
  intros Hn Hp Hne Hself. apply list_elem_of_fmap. exists n. split; [done|]. apply list_elem_of_filter.
  split; [|done]. split; [|done]. unfold top, Str.empty. rewrite Hp in *. by rewrite !bool_decide_eq_false_2.
Qed.

Lemma descends_head (all : list SpineNode) (a c : SpineNode) (d : nat) :
  descends all a (S d) c → ∃ b, descends all a 1 b ∧ descends all b d c.
Proof.
  revert c. induction d as [|d IH]; intros c Hd.
  - exists c. split; [done|constructor].
  - inversion Hd as [|? p ? Hp Hpin Hc Hk]; subst. destruct (IH p Hp) as (b & Hb & Hbp).
    exists b. split; [done|]. by apply (descends_S _ _ _ p).
Qed.

(** the only parent of a self-parented node is itself *)
Lemma descends_self (all : list SpineNode) (a c : SpineNode) (d : nat) :
  NoDup (NodeKey <$> all) → c ∈ all → ParentNodeKey c = NodeKey c → descends all a d c → a = c.
Proof.
  intros Hnd Hc Hself. induction d as [|d IH]; intros Hd; [by inversion Hd|].
  inversion Hd as [|? p ? Hp Hpin _ Hk]; subst. apply IH.
  by rewrite <-(key_inj all Hnd p c) by (done || congruence).
Qed.

Section overflow.
Context (all out : list SpineNode) (n : SpineNode) (L M : nat).
Context (Hnd : NoDup (NodeKey <$> all)) (Hne : Forall (λ m, NodeKey m ≠ "") all) (Hin : n ∈ all).
Context (Hself : ParentNodeKey n ≠ NodeKey n) (HL : 0 < L ≤ M) (Hcyc : descends all n L n).
Context (Hout : ∀ m, m ∈ out ↔ ∃ d, d ≤ M ∧ descends all n d m).

Lemma desc_in (d : nat) (m : SpineNode) : descends all n d m → m ∈ all.
Proof. intros Hd. by inversion Hd; subst. Qed.

Lemma desc_not_self (d : nat) (m : SpineNode) : descends all n d m → ParentNodeKey m ≠ NodeKey m.
Proof.
  intros Hd Hs. apply Hself. by rewrite (descends_self all n m d Hnd (desc_in d m Hd) Hs Hd).
Qed.

(** every node on the cycle has a child on it, so no stack is deep enough *)
Lemma widthOf_cycle (fuel i : nat) (p : SpineNode) :
  i < L → descends all n i p → descends all p (L - i) n → widthOf fuel out (NodeKey p) = None.
Proof.
  revert i p. induction fuel as [|fuel IH]; intros i p Hi Hp Hpn; [done|].
  replace (L - i) with (S (L - S i)) in Hpn by lia.
  destruct (descends_head all p n _ Hpn) as (q & Hq & Hqn).
  inversion Hq as [|? p' ? Hp' Hpin Hqin Hk]; subst. inversion Hp'; subst.
  assert (descends all n (S i) q) as Hnq by (by apply (descends_S _ _ _ p')).
  apply (widthOf_None out _ (NodeKey q)).
  - apply layout_children_in; [apply Hout; exists (S i); split; [lia|done]|done| |by eapply desc_not_self].
    rewrite Forall_forall in Hne. by apply Hne.
  - destruct (decide (S i = L)) as [HSi|].
    + rewrite HSi, Nat.sub_diag in Hqn. inversion Hqn; subst q. apply (IH 0 n); [lia|constructor|].
      by rewrite Nat.sub_0_r.
    + apply (IH (S i) q); [lia|done..].
Qed.

(** and the recursion does start on the cycle *)
Lemma layout_root_cycle : head out = Some n → layout_root out = Some (NodeKey n).
Proof.
  intros Hh. unfold layout_root.
  assert (∀ l, l ⊆ out → foldl (λ root m, if top m then Some (NodeKey m)
      else if bool_decide (ParentNodeKey m ∈ NodeKey <$> out) then root
      else match root with None => Some (NodeKey m) | _ => root end) None l = None) as ->.
  2:{ by rewrite Hh. }
  2:{ done. }
  induction l as [|m l IH]; intros Hl; [done|]. cbn [foldl].
  assert (∃ d, descends all n (S d) m ∧ S d ≤ M) as (d & Hd & HdM).
  { assert (m ∈ out) as Hm by (apply Hl; by left). apply Hout in Hm as ([|d] & HdM & Hd); [|by exists d].
    inversion Hd; subst. destruct L as [|l']; [lia|]. exists l'. split; [done|lia]. }
  pose proof (desc_not_self _ _ Hd) as Hns. inversion Hd as [|? p ? Hp Hpin Hmin Hk]; subst.
  assert (top m = false) as ->.
  { unfold top, Str.empty. rewrite Forall_forall in Hne.
    rewrite !bool_decide_eq_false_2; [done..|rewrite Hk; by apply Hne]. }
  assert (p ∈ out) as Hpo by (apply Hout; exists d; split; [lia|done]).
  rewrite bool_decide_eq_true_2; [|rewrite Hk; by apply list_elem_of_fmap_2].
  apply IH. intros x Hx. apply Hl. by right.
Qed.

End overflow.

(** *** Widths when no descent is long *)

Lemma widthOf_Some (all out : list SpineNode) (fuel : nat) (p : SpineNode) :
  out ⊆ all → p ∈ all → NoDup (NodeKey <$> all) → (∀ q, ¬ descends all p fuel q) →
  is_Some (widthOf fuel out (NodeKey p)).
Proof.
  intros Hsub Hp Hnd. revert p Hp. induction fuel as [|fuel IH]; intros p Hp Hno.
  { destruct (Hno p). constructor. }
  cbn [widthOf]. destruct (layout_children out (NodeKey p)) as [|c0 cs] eqn:Hk; [done|].
  assert (is_Some (mapM (widthOf fuel out) (c0 :: cs))) as [ws ->]; [|done].
  apply mapM_is_Some_2, Forall_forall. intros k Hkin. rewrite <-Hk in Hkin.
  apply list_elem_of_fmap in Hkin as (m & -> & Hm). apply list_elem_of_filter in Hm as [[_ Hpar] Hm].
  apply Hsub in Hm. apply IH; [done|]. intros q Hq. apply (Hno q).
  change (S fuel) with (1 + fuel). apply (descends_trans all p m q 1 fuel); [|done].
  apply (descends_S _ _ 0 p); [constructor|done..].
Qed.

Lemma above_mem (all : list SpineNode) (n m : SpineNode) (M : nat) :
  NoDup (NodeKey <$> all) → n ∈ all →
  m ∈ above all n (S M) ↔ ∃ d, d ≤ M ∧ descends all n d m.
Proof.
  intros Hnd Hin. unfold above. rewrite list_elem_of_bind. setoid_rewrite elem_of_seq.
  setoid_rewrite level_descends; [|done..].
  split; intros (d & H1 & H2); exists d; split; (done || lia).
Qed.

Lemma layout_root_source (all : list SpineNode) (out : list SpineNode) (n : SpineNode) :
  NoDup (NodeKey <$> all) → head out = Some n → ParentNodeKey n = "" →
  (∀ m, m ∈ out → ∃ d, descends all n d m) → n ∈ all → Forall (λ m, NodeKey m ≠ "") all →
  layout_root out = Some (NodeKey n).
Proof.
  intros Hnd Hh Hp Hout Hin Hne. unfold layout_root. destruct out as [|n' out']; [done|]. cbn in Hh. simplify_eq.
  cbn [foldl]. assert (top n = true) as ->.
  { unfold top, Str.empty. by rewrite bool_decide_eq_true_2. }
  match goal with |- context [foldl ?f _ out'] => set (pick := f) end.
  assert (∀ l, l ⊆ out' → foldl pick (Some (NodeKey n)) l = Some (NodeKey n)) as ->; [|done|done].
  induction l as [|m l IH]; intros Hl; [done|]. cbn [foldl].
  assert (pick (Some (NodeKey n)) m = Some (NodeKey n)) as ->; [|apply IH; intros x Hx; apply Hl; by right].
  subst pick. cbn beta. destruct (Hout m) as [d Hd]; [right; apply Hl; by left|].
  destruct (top m) eqn:Ht; [|by case_bool_decide].
  assert (m ∈ all) as Hm by (by inversion Hd; subst).
  rewrite Forall_forall in Hne.
  unfold top, Str.empty in Ht. apply orb_true_iff in Ht as [Ht|Ht]; bool_to_prop.
  - destruct d as [|d]; inversion Hd as [|? p ? _ Hpin _ Hk]; subst; [done|].
    destruct (Hne p Hpin). congruence.
  - by rewrite (descends_self all n m d Hnd Hm Ht Hd).
Qed.

(** ** Properties *)

(** C11: Walking the spine with a depth cap, or from the source, always ends.
    For every store and window, whatever parent links the recorded events form:
    a capped walk from any start returns after finitely many turns; from the
    source it needs no more turns than the spine has nodes and returns exactly
    the nodes within the cap's number of hops, none twice. *)
Theorem spine_walk_terminates (order_by : list spine_row → list spine_row) (Hord : ∀ l, order_by l ≡ₚ l)
    (s : Store) (anchorID : Z) (w : TimeWindow) (maxDepth rootPID : Z) (all : list SpineNode) (n : SpineNode)
    (Hall : SpineFor order_by anchorID w s = Ok all) (Hn : start_node all rootPID n) (Hcap : (0 < maxDepth)%Z) :
  (∃ fuel out, SpineForDepth order_by fuel anchorID w maxDepth rootPID s = Some (Ok out)) ∧
  (rootPID = 0%Z →
   ∃ out, SpineForDepth order_by (length all) anchorID w maxDepth 0 s = Some (Ok out) ∧ NoDup out ∧
     ∀ m, m ∈ out ↔ ∃ d, (Z.of_nat d ≤ maxDepth)%Z ∧ descends all n d m).
Proof.
  destruct (SpineFor_shape order_by Hord anchorID w s all Hall) as (a & procs & _ & Heq & _ & Hnd & Hne).
  destruct (start_node_in all rootPID n Hn) as [Hin Hk].
  unfold SpineForDepth. rewrite Hall, (proj2 (Z.leb_gt _ _)) by done. cbn [andb]. rewrite Hk. split.
  - eexists (_ + 0), _. by rewrite (bfs_bounded all maxDepth Hnd n Hin 0 Hcap).
  - intros ->. rewrite Hk. unfold start_node in Hn. rewrite decide_True in Hn by done. rewrite Heq in Hn. cbn in Hn.
    simplify_eq. set (all := source_node a :: procs) in *. set (n := source_node a) in *.
    set (J := S (Z.to_nat maxDepth)).
    assert (∀ d, d < J → ¬ descends all n (S d) n) as Hac by (intros d _; by apply source_acyclic).
    exists (above all n J). split; [|split; [apply (above_NoDup all Hnd n Hin J Hac); lia|]].
    + pose proof (above_short all Hnd n Hin J Hac J ltac:(lia)) as Hs.
      replace (length all) with (length (above all n J) + (length all - length (above all n J))) by lia.
      by rewrite (bfs_bounded all maxDepth Hnd n Hin _ Hcap).
    + intros m. subst J. rewrite above_mem by done. split; intros (d & Hd & Hde); exists d; (split; [lia|done]).
Qed.

(** C12: Expanding a subtree without a depth cap ends exactly when the chosen
    process is not among its own descendants.  The parent links of a spine may
    form a cycle, since a row is made per pid and pids are reused; then the
    walk goes round it forever, for any number of turns. *)
Theorem subtree_walk_hangs_iff_cycle (order_by : list spine_row → list spine_row) (Hord : ∀ l, order_by l ≡ₚ l)
    (s : Store) (anchorID : Z) (w : TimeWindow) (maxDepth rootPID : Z) (all : list SpineNode) (n : SpineNode)
    (Hall : SpineFor order_by anchorID w s = Ok all) (Hpid : rootPID ≠ 0%Z) (Hn : start_node all rootPID n)
    (Hcap : (maxDepth ≤ 0)%Z) :
  (∀ fuel, SpineForDepth order_by fuel anchorID w maxDepth rootPID s = None) ↔
  ∃ d, descends all n (S d) n.
Proof.
  destruct (SpineFor_shape order_by Hord anchorID w s all Hall) as (a & procs & _ & _ & _ & Hnd & _).
  destruct (start_node_in all rootPID n Hn) as [Hin Hk].
  unfold SpineForDepth. rewrite Hall, (proj2 (Z.eqb_neq _ _)), andb_false_r, Hk by done. split.
  - intros Hnone. destruct (cycle_dec all n Hin (length all)) as [Hac|Hc]; [|done].
    destruct (some_level_empty all Hnd n Hin (length all) Hac ltac:(done)) as [j Hj]. specialize (Hnone (length (above all n j) + 0)).
    by rewrite (bfs_unbounded all maxDepth Hnd n Hin j 0 Hcap Hj) in Hnone.
  - intros [d Hd] fuel. rewrite (bfs_diverges all maxDepth Hnd n Hin fuel Hcap); [done|].
    by eapply cycle_no_level_empty.
Qed.


(** Laying out the view from the source always ends: with the stack depth of
    the spine's length plus one the recursion over children returns, for every
    store, window and depth cap. *)
Theorem source_view_layout_terminates (order_by : list spine_row → list spine_row) (Hord : ∀ l, order_by l ≡ₚ l)
    (s : Store) (anchorID : Z) (w : TimeWindow) (maxDepth : Z) (fuel : nat) (all out : list SpineNode)
    (Hall : SpineFor order_by anchorID w s = Ok all) (Hcap : (0 < maxDepth)%Z)
    (Hout : SpineForDepth order_by fuel anchorID w maxDepth 0 s = Some (Ok out)) :
  ∃ stack width, layout_width stack out = Some width.
Proof.
  destruct (SpineFor_shape order_by Hord anchorID w s all Hall) as (a & procs & _ & Heq & _ & Hnd & Hne).
  set (n := source_node a) in *. assert (n ∈ all) as Hin by (rewrite Heq; by left).
  assert (∀ d, ¬ descends all n (S d) n) as Hac by (intros d; by apply source_acyclic).
  unfold SpineForDepth in Hout. rewrite Hall, (proj2 (Z.leb_gt _ _)) in Hout by done.
  cbn [andb] in Hout. destruct (start_node_in all 0 n ltac:(by rewrite Heq)) as [_ Hk]. rewrite Hk in Hout.
  assert (out = above all n (S (Z.to_nat maxDepth))) as ->.
  { destruct (bfs fuel all maxDepth _ []) as [r|] eqn:Hb; [|done]. injection Hout as ->.
    pose proof (bfs_bounded all maxDepth Hnd n Hin fuel Hcap) as H1.
    apply (bfs_mono all maxDepth fuel (length (above all n (S (Z.to_nat maxDepth))))) in Hb.
    rewrite (Nat.add_comm fuel) in Hb. apply (inj Some). by rewrite <-Hb, <-H1. }
  destruct (some_level_empty all Hnd n Hin (length all) ltac:(auto) ltac:(done)) as [j Hj].
  unfold layout_width. rewrite (layout_root_source all _ n Hnd); [|done|done| |done|done].
  2:{ intros m (d & _ & Hd)%above_mem; [by exists d|done|done]. }
  destruct (widthOf_Some all (above all n (S (Z.to_nat maxDepth))) j n) as [width Hw]; [by apply above_in|done|done| |by exists j, width].
  intros q Hq. apply (level_descends all n Hin) in Hq. rewrite Hj in Hq. by apply elem_of_nil in Hq.
Qed.

(** A subtree view rooted on a cycle of two or more processes within the
    depth cap ends the daemon: the capped walk returns the nodes of the cycle,
    none of them is a root for the layout, so its recursion starts on the cycle
    and needs a stack deeper than any given one. *)
Theorem layout_overflows_on_cycle (order_by : list spine_row → list spine_row) (Hord : ∀ l, order_by l ≡ₚ l)
    (s : Store) (anchorID : Z) (w : TimeWindow) (maxDepth rootPID : Z) (all : list SpineNode) (n : SpineNode) (L : nat)
    (Hall : SpineFor order_by anchorID w s = Ok all) (Hpid : rootPID ≠ 0%Z) (Hn : start_node all rootPID n)
    (Hcyc : descends all n L n) (HL : (0 < Z.of_nat L ≤ maxDepth)%Z) (Hself : ParentNodeKey n ≠ NodeKey n) :
  ∃ fuel out, SpineForDepth order_by fuel anchorID w maxDepth rootPID s = Some (Ok out) ∧
    ∀ stack, layout_width stack out = None.
Proof.
  destruct (SpineFor_shape order_by Hord anchorID w s all Hall) as (a & procs & _ & _ & _ & Hnd & Hne).
  destruct (start_node_in all rootPID n Hn) as [Hin Hk].
  set (out := above all n (S (Z.to_nat maxDepth))).
  exists (length out + 0), out. split.
  { unfold SpineForDepth. rewrite Hall, (proj2 (Z.leb_gt _ _)), Hk by lia. cbn [andb].
    subst out. by rewrite (bfs_bounded all maxDepth Hnd n Hin 0) by lia. }
  assert (∀ m, m ∈ out ↔ ∃ d, d ≤ Z.to_nat maxDepth ∧ descends all n d m) as Hout by (intros; by apply above_mem).
  intros stack. unfold layout_width.
  rewrite (layout_root_cycle all out n L (Z.to_nat maxDepth)); [|done..|lia|done|done|done].
  apply (widthOf_cycle all out n L (Z.to_nat maxDepth)) with (i := 0); try done; try lia; [constructor|].
  by rewrite Nat.sub_0_r.
Qed.

(** ** Witnesses *)

Module Demo.

Definition earlier (a b : spine_row) : Prop := (r_first a ≤ r_first b)%Z.

#[export] Instance earlier_dec a b : Decision (earlier a b).
Proof. unfold earlier. apply _. Defined.

Definition by_first (l : list spine_row) : list spine_row := merge_sort earlier l.

Lemma by_first_perm (l : list spine_row) : by_first l ≡ₚ l.
Proof. apply merge_sort_Permutation. Qed.

Definition anchor : Anchor :=
  {| an_ID := 42; an_Kind := KindSSH; an_ParentAnchorID := 0; an_CreatedAt := 5; an_Host := "h";
     an_Actor := "alice"; an_UID := 1000; an_LoginUID := 1000; an_SourceIP := "10.0.0.9";
     an_SourcePort := 22; an_SSHKeyHash := ""; an_Unit := ""; an_Detail := "" |}.

Definition spawn (t pid ppid : Z) : GraphEvent :=
  {| ge_ID := 0; ge_SourceAnchorID := 42; ge_CausalSetHash := 0; ge_Time := t; ge_PID := pid;
     ge_ParentPID := ppid; ge_Kind := "spawn"; ge_TargetPath := ""; ge_TargetHost := "";
     ge_TargetPort := 0; ge_TargetSocket := ""; ge_TargetImage := ""; ge_Comm := "sh"; ge_UID := 1000;
     ge_Severity := ""; ge_Detail := "" |}.

Definition record (evs : list GraphEvent) : Store :=
  foldl (λ s e, (RecordEvent false 0 e s).1) (Put false 0 anchor OpenEmpty).1 evs.

(** pid 100 starts 200; after both exit, pid 100 is reused by a child of a new 200 *)
Definition reused : Store := record [spawn 10 100 1; spawn 11 200 100; spawn 90 100 200; spawn 91 300 100].

Definition w : TimeWindow := {| w_Start := Time.zero; w_End := Time.zero |}.

Definition all : list SpineNode :=
  match SpineFor by_first 42 w reused with Ok l => l | Err _ => [] end.

Definition n100 : SpineNode :=
  match List.find (λ n, (sn_PID n =? 100)%Z) all with Some n => n | None => source_node anchor end.
Definition n200 : SpineNode :=
  match List.find (λ n, (sn_PID n =? 200)%Z) all with Some n => n | None => source_node anchor end.

Lemma cycle : descends all n100 2 n100.
Proof.
  apply (descends_S all n100 1 n200).
  - apply (descends_S all n100 0 n100); [constructor|..];
      [by apply (bool_decide_unpack (_ ∈ _)); vm_compute..|by vm_compute].
  - by apply (bool_decide_unpack (_ ∈ _)); vm_compute.
  - by apply (bool_decide_unpack (_ ∈ _)); vm_compute.
  - by vm_compute.
Qed.

End Demo.

Lemma spine_walk_terminates_witness :
  NodeKey <$> Demo.all = ["src-42"; "p-100"; "p-200"; "p-300"] ∧
  ∃ out, SpineForDepth Demo.by_first (length Demo.all) 42 Demo.w 3 0 Demo.reused = Some (Ok out) ∧ NoDup out ∧
    ∀ m, m ∈ out ↔ ∃ d, (Z.of_nat d ≤ 3)%Z ∧ descends Demo.all (source_node Demo.anchor) d m.
Proof.
  split; [by vm_compute|].
  apply (spine_walk_terminates Demo.by_first Demo.by_first_perm Demo.reused 42 Demo.w 3 0 Demo.all (source_node Demo.anchor));
    by vm_compute.
Defined.

Lemma subtree_walk_hangs_iff_cycle_witness :
  (∀ fuel, SpineForDepth Demo.by_first fuel 42 Demo.w 0 100 Demo.reused = None) ↔
  ∃ d, descends Demo.all Demo.n100 (S d) Demo.n100.
Proof.
  apply (subtree_walk_hangs_iff_cycle Demo.by_first Demo.by_first_perm Demo.reused 42 Demo.w 0 100 Demo.all Demo.n100);
    by vm_compute.
Defined.

Lemma source_view_layout_terminates_witness :
  ∃ stack width, layout_width stack [source_node Demo.anchor] = Some width.
Proof.
  apply (source_view_layout_terminates Demo.by_first Demo.by_first_perm Demo.reused 42 Demo.w 3 10 Demo.all
           [source_node Demo.anchor]); by vm_compute.
Defined.

Lemma layout_overflows_on_cycle_witness :
  ∃ fuel out, SpineForDepth Demo.by_first fuel 42 Demo.w 3 100 Demo.reused = Some (Ok out) ∧
    ∀ stack, layout_width stack out = None.
Proof.
  apply (layout_overflows_on_cycle Demo.by_first Demo.by_first_perm Demo.reused 42 Demo.w 3 100 Demo.all Demo.n100 2);
    [by vm_compute|done|by vm_compute|exact Demo.cycle|done|by vm_compute].
Defined.
