(* ===== verification/Provenance.v ===== *)
(** * Provenance of processes and files

    The bounded set of anchors a process or file descends from
    (src/pkg/source/causalset.go), the per-path record of the last writer
    (src/pkg/source/filetaint.go), the process graph that carries the
    attribution from parent to child (src/pkg/proctree/graph.go), and the two
    pipeline stages that move it through files (src/pkg/pipeline/pipeline.go).
    Pointers to nodes of the graph are keys of its map; clock readings and the
    order in which leaves with equal times are sorted are arguments. *)

From S2P Require Import Prelude GoStd Bytes Model.

(** ** Causal sets *)

Definition CausalSetCap : nat := 16.

(** the ids in insertion order *)
Record CausalSet := { ids : list Z }.

#[export] Instance CausalSet_eq_dec : EqDecision CausalSet.
Proof. solve_decision. Defined.

Definition EmptySet : CausalSet := {| ids := [] |}.

Definition cs_Len (c : CausalSet) : nat := length (ids c).
Definition IsEmpty (c : CausalSet) : bool := (length (ids c) =? 0)%nat.
Definition cs_Contains (c : CausalSet) (id : Z) : bool := existsb (λ x, (x =? id)%Z) (ids c).

Definition cs_Add (id : Z) (c : CausalSet) : CausalSet * bool :=
  if (id =? 0)%Z then (c, false)
  else if cs_Contains c id then (c, false)
  else
    let kept := if (CausalSetCap <=? length (ids c))%nat then tail (ids c) else ids c in
    ({| ids := kept ++ [id] |}, true).

Definition Merge (other c : CausalSet) : CausalSet * bool :=
  foldl (λ st id, let '(c', ch) := cs_Add id st.1 in (c', st.2 || ch)) (c, false) (ids other).

Definition NewCausalSet (l : list Z) : CausalSet := foldl (λ c id, (cs_Add id c).1) EmptySet l.

Definition Slice (c : CausalSet) : list Z := ids c.
Definition SortedSlice (c : CausalSet) : list Z := sort_Z (ids c).

Definition Hash (c : CausalSet) : Z :=
  if IsEmpty c then 0%Z else fnv64a (SortedSlice c ≫= le_enc 8).

Definition Equal (c other : CausalSet) : bool :=
  (length (ids c) =? length (ids other))%nat && bool_decide (SortedSlice c = SortedSlice other).

Definition Ambiguous (c : CausalSet) : bool := (2 <=? length (ids c))%nat.

(** ** Provenance of files *)

Record FileProvenance := {
  LastWriterPrimary : Z;
  fp_Set : CausalSet;
  SetHash : Z;
  RecordedAt : Time.time
}.

Record FileTaint := {
  paths : gmap string FileProvenance;
  order : list string;
  ft_cap : nat;
  ft_ttl : Time.duration
}.

Definition NewFileTaint (cap : Z) (ttl : Time.duration) : FileTaint :=
  {| paths := ∅; order := [];
     ft_cap := if (cap <=? 0)%Z then Z.to_nat 4096 else Z.to_nat cap;
     ft_ttl := if (ttl <=? 0)%Z then (24 * Time.Hour)%Z else ttl |}.

(** the loop that drops the first paths while the tracker is full *)
Fixpoint evict_heads (cap : nat) (m : gmap string FileProvenance) (ord : list string)
    : gmap string FileProvenance * list string :=
  match ord with
  | [] => (m, [])
  | h :: ord' => if (cap <=? size m)%nat then evict_heads cap (delete h m) ord' else (m, ord)
  end.

Definition RecordWrite (path : string) (primary : Z) (set : CausalSet) (t now : Time.time) (f : FileTaint) : FileTaint :=
  if Str.empty path then f
  else if (primary =? 0)%Z && IsEmpty set then f
  else
    let rec := {| LastWriterPrimary := primary; fp_Set := NewCausalSet (Slice set); SetHash := Hash set;
                  RecordedAt := if Time.IsZero t then now else t |} in
    match paths f !! path with
    | Some _ => {| paths := <[path := rec]> (paths f); order := order f; ft_cap := ft_cap f; ft_ttl := ft_ttl f |}
    | None =>
        let '(m, ord) := evict_heads (ft_cap f) (paths f) (order f) in
        {| paths := <[path := rec]> m; order := ord ++ [path]; ft_cap := ft_cap f; ft_ttl := ft_ttl f |}
    end.

Definition ft_Lookup (path : string) (now : Time.time) (f : FileTaint) : option FileProvenance :=
  if Str.empty path then None
  else match paths f !! path with
       | None => None
       | Some r => if (ft_ttl f <? Time.Sub now (RecordedAt r))%Z then None else Some r
       end.

Definition ft_Size (f : FileTaint) : nat := size (paths f).

(** the paths kept, the map without the old ones, the number removed *)
Fixpoint sweep_paths (cutoff : Time.time) (ord : list string) (m : gmap string FileProvenance)
    : list string * gmap string FileProvenance * nat :=
  match ord with
  | [] => ([], m, 0)
  | p :: ord' =>
      match m !! p with
      | None => sweep_paths cutoff ord' m
      | Some r =>
          if Time.Before (RecordedAt r) cutoff
          then let '(kept, m', k) := sweep_paths cutoff ord' (delete p m) in (kept, m', S k)
          else let '(kept, m', k) := sweep_paths cutoff ord' m in (p :: kept, m', k)
      end
  end.

Definition ft_SweepOlderThan (cutoff : Time.time) (f : FileTaint) : FileTaint * nat :=
  let '(kept, m, k) := sweep_paths cutoff (order f) (paths f) in
  ({| paths := m; order := kept; ft_cap := ft_cap f; ft_ttl := ft_ttl f |}, k).

(** ** The process graph *)

Record Node := {
  n_PID : Z;
  n_PPID : Z;
  n_Comm : string;
  n_Image : string;
  n_UID : Z;
  n_StartNs : Z;
  n_Argv : list string;
  n_CGroupID : Z;
  n_Container : string;
  n_Children : gset Z;
  n_FirstSeen : Time.time;
  n_LastEvent : Time.time;
  n_PrimarySource : Z;
  n_CausalSet : CausalSet
}.

Definition with_links (ppid : Z) (ch : gset Z) (n : Node) : Node :=
  {| n_PID := n_PID n; n_PPID := ppid; n_Comm := n_Comm n; n_Image := n_Image n; n_UID := n_UID n;
     n_StartNs := n_StartNs n; n_Argv := n_Argv n; n_CGroupID := n_CGroupID n; n_Container := n_Container n;
     n_Children := ch; n_FirstSeen := n_FirstSeen n; n_LastEvent := n_LastEvent n;
     n_PrimarySource := n_PrimarySource n; n_CausalSet := n_CausalSet n |}.

Definition with_source (primary : Z) (cs : CausalSet) (n : Node) : Node :=
  {| n_PID := n_PID n; n_PPID := n_PPID n; n_Comm := n_Comm n; n_Image := n_Image n; n_UID := n_UID n;
     n_StartNs := n_StartNs n; n_Argv := n_Argv n; n_CGroupID := n_CGroupID n; n_Container := n_Container n;
     n_Children := n_Children n; n_FirstSeen := n_FirstSeen n; n_LastEvent := n_LastEvent n;
     n_PrimarySource := primary; n_CausalSet := cs |}.

Definition with_times (first last : Time.time) (n : Node) : Node :=
  {| n_PID := n_PID n; n_PPID := n_PPID n; n_Comm := n_Comm n; n_Image := n_Image n; n_UID := n_UID n;
     n_StartNs := n_StartNs n; n_Argv := n_Argv n; n_CGroupID := n_CGroupID n; n_Container := n_Container n;
     n_Children := n_Children n; n_FirstSeen := first; n_LastEvent := last;
     n_PrimarySource := n_PrimarySource n; n_CausalSet := n_CausalSet n |}.

Definition add_child (c : Z) (n : Node) : Node := with_links (n_PPID n) ({[c]} ∪ n_Children n) n.
Definition del_child (c : Z) (n : Node) : Node := with_links (n_PPID n) (n_Children n ∖ {[c]}) n.

Record Graph := { nodes : gmap Z Node; g_cap : Z }.

Definition set_nodes (m : gmap Z Node) (g : Graph) : Graph := {| nodes := m; g_cap := g_cap g |}.

Definition NewGraph (cap : Z) : Graph :=
  {| nodes := ∅; g_cap := if (cap <=? 0)%Z then 50000 else cap |}.

(** the leaf removed and the parent's link to it *)
Definition drop_leaf (pid : Z) (m : gmap Z Node) : gmap Z Node :=
  match m !! pid with
  | None => m
  | Some n => delete pid (alter (del_child pid) (n_PPID n) m)
  end.

(** the loop over the sorted leaves: stop once the target size is reached *)
Fixpoint evict_leaves (target : Z) (leaves : list Z) (m : gmap Z Node) : gmap Z Node :=
  match leaves with
  | [] => m
  | pid :: rest =>
      match m !! pid with
      | None => evict_leaves target rest m
      | Some _ =>
          let m' := drop_leaf pid m in
          if (Z.of_nat (size m') <=? target)%Z then m' else evict_leaves target rest m'
      end
  end.

Definition is_leaf (n : Node) : bool := bool_decide (n_Children n = ∅).

(** [ks] is the childless nodes in the order of their last event *)
Definition leaf_order (m : gmap Z Node) (ks : list Z) : Prop :=
  NoDup ks ∧ (∀ k, k ∈ ks ↔ ∃ n, m !! k = Some n ∧ is_leaf n = true) ∧
  StronglySorted (λ a b, ∀ na nb, m !! a = Some na → m !! b = Some nb → (n_LastEvent na ≤ n_LastEvent nb)%Z) ks.

Section graph.
Context (leaves : gmap Z Node → list Z).

Definition evictLocked (g : Graph) : Graph :=
  let target := (g_cap g - Z.quot (g_cap g) 10)%Z in
  if (Z.of_nat (size (nodes g)) <=? target)%Z then g
  else set_nodes (evict_leaves target (leaves (nodes g)) (nodes g)) g.

(** the attribution the new node takes over from its parent *)
Definition inherit (parent n : Node) : Node :=
  let primary := if (n_PrimarySource n =? 0)%Z && negb (n_PrimarySource parent =? 0)%Z
                 then n_PrimarySource parent else n_PrimarySource n in
  let cs := if IsEmpty (n_CausalSet n) && negb (IsEmpty (n_CausalSet parent))
            then (Merge (n_CausalSet parent) (n_CausalSet n)).1 else n_CausalSet n in
  with_source primary cs n.

Definition own_source (n : Node) : Node :=
  if (n_PrimarySource n =? 0)%Z then n
  else with_source (n_PrimarySource n) (cs_Add (n_PrimarySource n) (n_CausalSet n)).1 n.

Definition OnSpawn (n : Node) (now : Time.time) (g : Graph) : Graph :=
  let n1 := with_times (if Time.IsZero (n_FirstSeen n) then now else n_FirstSeen n) now n in
  let '(m, n2) := match nodes g !! n_PPID n with
                  | Some parent => (<[n_PPID n := add_child (n_PID n) parent]> (nodes g), inherit parent n1)
                  | None => (nodes g, n1)
                  end in
  let g' := set_nodes (<[n_PID n := own_source n2]> m) g in
  if (g_cap g <? Z.of_nat (size (nodes g')))%Z then evictLocked g' else g'.

Definition AttributeSource (pid id : Z) (now : Time.time) (g : Graph) : Graph :=
  if (id =? 0)%Z then g
  else match nodes g !! pid with
       | None => g
       | Some n =>
           set_nodes (<[pid := with_times (n_FirstSeen n) now (with_source id (cs_Add id (n_CausalSet n)).1 n)]> (nodes g)) g
       end.

Definition MergeCausalSet (pid : Z) (cs : CausalSet) (g : Graph) : Graph * bool :=
  if IsEmpty cs then (g, false)
  else match nodes g !! pid with
       | None => (g, false)
       | Some n =>
           let '(cs', changed) := Merge cs (n_CausalSet n) in
           (set_nodes (<[pid := with_source (n_PrimarySource n) cs' n]> (nodes g)) g, changed)
       end.

Definition SourceOf (pid : Z) (g : Graph) : Z * CausalSet :=
  match nodes g !! pid with
  | None => (0%Z, EmptySet)
  | Some n => (n_PrimarySource n, NewCausalSet (Slice (n_CausalSet n)))
  end.

(** one orphan moves under pid 1, which is in the graph *)
Definition reparent1 (m : gmap Z Node) (c : Z) : gmap Z Node :=
  match m !! c with
  | None => m
  | Some _ => alter (add_child c) 1%Z (alter (λ cn, with_links 1 (n_Children cn) cn) c m)
  end.

Definition OnExit (pid : Z) (g : Graph) : Graph :=
  match nodes g !! pid with
  | None => g
  | Some n =>
      let m := match nodes g !! 1%Z with
               | Some _ => foldl reparent1 (nodes g) (elements (n_Children n))
               | None => nodes g
               end in
      let ppid := match m !! pid with Some n' => n_PPID n' | None => n_PPID n end in
      set_nodes (alter (del_child pid) ppid (delete pid m)) g
  end.

Definition pt_Touch (pid : Z) (now : Time.time) (g : Graph) : Graph :=
  set_nodes (alter (λ n, with_times (n_FirstSeen n) now n) pid (nodes g)) g.

Definition proc_node (n : Node) : ProcNode :=
  {| pn_PID := n_PID n; pn_Comm := n_Comm n; pn_Argv := n_Argv n; pn_UID := n_UID n;
     pn_StartNs := n_StartNs n; pn_Image := n_Image n; pn_FirstAction := n_FirstSeen n |}.

Fixpoint climb (depth : nat) (m : gmap Z Node) (cur : Z) : list ProcNode :=
  match depth with
  | O => []
  | S d =>
      match m !! cur with
      | None => []
      | Some n => proc_node n :: if (n_PPID n =? 0)%Z || (n_PPID n =? cur)%Z then [] else climb d m (n_PPID n)
      end
  end.

Definition Ancestors (pid depth : Z) (g : Graph) : list ProcNode :=
  climb (Z.to_nat (if (depth <=? 0)%Z || (16 <? depth)%Z then 16 else depth)) (nodes g) pid.

Definition pt_Count (g : Graph) : nat := size (nodes g).

End graph.

(** ** The pipeline stages *)

(** a FIM write records the writer's attribution for the path *)
Definition file_write_stage (ev : Event) (now : Time.time) (st : Graph * FileTaint) : Graph * FileTaint :=
  let '(g, f) := st in
  if (bool_decide (ev_Sensor ev = "fim") || bool_decide (ev_Sensor ev = "fim.drift")) &&
     negb (ev_PID ev =? 0)%Z &&
     (bool_decide (tag ev "write" = "true") || bool_decide (tag ev "create" = "true")) &&
     negb (Str.empty (tag ev "path"))
  then
    let '(primary, cs) := SourceOf (ev_PID ev) g in
    if negb (primary =? 0)%Z || negb (IsEmpty cs)
    then (g, RecordWrite (tag ev "path") primary cs (ev_Time ev) now f)
    else (g, f)
  else (g, f).

(** an open of a tracked path hands it to the reader; the two hint tags are
    stamped on the event *)
Definition file_open_stage (hex : Z → string) (ev : Event) (now : Time.time) (st : Graph * FileTaint)
    : Event * (Graph * FileTaint) :=
  let '(g, f) := st in
  if bool_decide (ev_Sensor ev = "ebpf") && bool_decide (tag ev "kind" = "file_open") &&
     negb (ev_PID ev =? 0)%Z && negb (bool_decide (tag ev "jit_allowlisted" = "true")) &&
     negb (Str.empty (tag ev "path"))
  then match ft_Lookup (tag ev "path") now f with
       | None => (ev, st)
       | Some prov =>
           let g1 := (MergeCausalSet (ev_PID ev) (fp_Set prov) g).1 in
           let g2 := if (LastWriterPrimary prov =? 0)%Z then g1
                     else AttributeSource (ev_PID ev) (LastWriterPrimary prov) now g1 in
           (set_tag "file_writer_set_hash" (hex (SetHash prov))
              (set_tag "file_writer_primary" (Str.itoa (LastWriterPrimary prov)) ev), (g2, f))
       end
  else (ev, st).

(** ** Causal sets are bounded sets *)

Definition cs_ok (c : CausalSet) : Prop :=
  NoDup (ids c) ∧ length (ids c) ≤ CausalSetCap ∧ 0%Z ∉ ids c.

Definition adds (l : list Z) (c : CausalSet) : CausalSet := foldl (λ c id, (cs_Add id c).1) c l.

Lemma Merge_fst (other c : CausalSet) : (Merge other c).1 = adds (ids other) c.
Proof.
  unfold Merge, adds. generalize false as b. destruct other as [l]. cbn [ids].
  revert c. induction l as [|x l IH]; intros c b; [done|]. cbn [foldl fst].
  rewrite (surjective_pairing (cs_Add x c)) at 1. cbn [fst snd]. apply IH.
Qed.

Lemma cs_Contains_spec (c : CausalSet) (id : Z) : cs_Contains c id = true ↔ id ∈ ids c.
Proof.
  unfold cs_Contains. rewrite existsb_exists. setoid_rewrite <-list_elem_of_In. split.
  - intros (x & Hx & Heq%Z.eqb_eq). congruence.
  - intros H. exists id. split; [done|apply Z.eqb_refl].
Qed.

(** the three outcomes of an insertion *)
Lemma cs_Add_cases (id : Z) (c : CausalSet) :
  ((id = 0%Z ∨ id ∈ ids c) ∧ cs_Add id c = (c, false)) ∨
  (id ≠ 0%Z ∧ id ∉ ids c ∧ length (ids c) < CausalSetCap ∧ cs_Add id c = ({| ids := ids c ++ [id] |}, true)) ∨
  (id ≠ 0%Z ∧ id ∉ ids c ∧ CausalSetCap ≤ length (ids c) ∧ cs_Add id c = ({| ids := tail (ids c) ++ [id] |}, true)).
Proof.
  unfold cs_Add. destruct (Z.eqb_spec id 0) as [->|H0]; [left; split; [by left|done]|].
  destruct (cs_Contains c id) eqn:Hc.
  - left. split; [right; by apply cs_Contains_spec|done].
  - assert (id ∉ ids c) as Hn by (rewrite <-cs_Contains_spec; by destruct (cs_Contains c id)). right.
    destruct (Nat.leb_spec CausalSetCap (length (ids c))); [right|left]; done.
Qed.

Lemma tail_sub (l : list Z) : tail l ⊆ l.
Proof. destruct l; [done|]. set_solver. Qed.

Lemma cs_Add_ok (id : Z) (c : CausalSet) : cs_ok c → cs_ok (cs_Add id c).1.
Proof.
  intros (Hnd & Hl & H0). destruct (cs_Add_cases id c) as [(_ & ->)|[(Hid & Hn & Hlt & ->)|(Hid & Hn & Hge & ->)]]; [done|..];
    cbn [fst]; (split; [|split]); cbn [ids].
  - apply NoDup_app. split; [done|]. split; [set_solver|apply NoDup_singleton].
  - rewrite length_app. cbn. lia.
  - set_solver.
  - apply NoDup_app. pose proof (tail_sub (ids c)). split; [destruct (ids c); [done|by inversion Hnd]|].
    split; [set_solver|apply NoDup_singleton].
  - rewrite length_app, length_tl. cbn. unfold CausalSetCap in *. lia.
  - pose proof (tail_sub (ids c)). set_solver.
Qed.

Lemma cs_Add_in (id : Z) (c : CausalSet) : id ≠ 0%Z → id ∈ ids (cs_Add id c).1.
Proof.
  intros Hid. destruct (cs_Add_cases id c) as [([?|?] & ->)|[(_ & _ & _ & ->)|(_ & _ & _ & ->)]]; set_solver.
Qed.

Lemma adds_ok (l : list Z) (c : CausalSet) : cs_ok c → cs_ok (adds l c).
Proof. revert c. induction l as [|x l IH]; intros c Hc; [done|]. by apply IH, cs_Add_ok. Qed.

Lemma EmptySet_ok : cs_ok EmptySet.
Proof. split; [constructor|]. split; [simpl; lia|set_solver]. Qed.

Lemma NewCausalSet_ok (l : list Z) : cs_ok (NewCausalSet l).
Proof. apply (adds_ok l EmptySet), EmptySet_ok. Qed.

Lemma tail_drop (n : nat) (l : list Z) : tail (drop n l) = drop (S n) l.
Proof. revert l. induction n as [|n IH]; intros [|x l]; try done. apply IH. Qed.

(** fresh ids push the oldest out: the last sixteen stay *)
Lemma adds_fresh (l : list Z) (c : CausalSet) :
  NoDup l → (∀ x, x ∈ l → x ∉ ids c ∧ x ≠ 0%Z) → length (ids c) ≤ CausalSetCap →
  ids (adds l c) = drop (length (ids c) + length l - CausalSetCap) (ids c ++ l).
Proof.
  intros Hnd Hfr Hl. induction l as [|x l IH] using rev_ind.
  { rewrite app_nil_r. cbn. by replace (length (ids c) + 0 - CausalSetCap) with 0 by lia. }
  apply NoDup_app in Hnd as (Hnd & Hx & _). specialize (IH Hnd ltac:(set_solver)).
  unfold adds in *. rewrite foldl_app. cbn [foldl]. rewrite length_app, app_assoc. cbn [length].
  set (c' := foldl _ c l) in *.
  assert (x ∉ ids c') as Hnx.
  { rewrite IH. intros Hin. apply subseteq_drop in Hin.
    destruct (Hfr x ltac:(set_solver)) as [Hf _]. specialize (Hx x). set_solver. }
  assert (length (ids c') = min CausalSetCap (length (ids c) + length l)) as Hlen.
  { rewrite IH, length_drop, length_app. lia. }
  destruct (cs_Add_cases x c') as [([?|?] & _)|[(_ & _ & Hlt & ->)|(_ & _ & Hge & ->)]];
    [by destruct (Hfr x ltac:(set_solver))|done|..]; cbn [fst ids]; rewrite IH.
  - rewrite (drop_app_le (ids c ++ l) [x]) by (rewrite length_app; lia).
    by replace (length (ids c) + (length l + 1) - CausalSetCap) with (length (ids c) + length l - CausalSetCap) by lia.
  - rewrite (drop_app_le (ids c ++ l) [x]) by (rewrite length_app; unfold CausalSetCap in *; lia). f_equal.
    rewrite tail_drop. f_equal. unfold CausalSetCap in *. lia.
Qed.

(** nothing is pushed out while everything fits *)
Lemma adds_fit (l : list Z) (c : CausalSet) :
  cs_ok c → size (list_to_set (ids c ++ l) : gset Z) ≤ CausalSetCap →
  ids c ⊆ ids (adds l c) ∧ ∀ x, x ∈ l → x ≠ 0%Z → x ∈ ids (adds l c).
Proof.
  revert c. induction l as [|x l IH]; intros c Hok Hsz; [by split; [|set_solver]|].
  assert (ids c ⊆ ids (cs_Add x c).1) as Hsub.
  { destruct (cs_Add_cases x c) as [(_ & ->)|[(_ & _ & _ & ->)|(Hx0 & Hnx & Hge & ->)]]; [done|set_solver|].
    exfalso. destruct Hok as (Hnd & _). assert (length (ids c ++ [x]) ≤ size (list_to_set (ids c ++ x :: l) : gset Z)) as Hle.
    { rewrite <-(size_list_to_set (C := gset Z) (ids c ++ [x])).
      - apply subseteq_size. set_solver.
      - apply NoDup_app. split; [done|]. split; [set_solver|apply NoDup_singleton]. }
    rewrite length_app in Hle. cbn in Hle. unfold CausalSetCap in *. lia. }
  assert (list_to_set (ids (cs_Add x c).1 ++ l) ⊆ (list_to_set (ids c ++ x :: l) : gset Z)) as Hs.
  { pose proof (tail_sub (ids c)).
    destruct (cs_Add_cases x c) as [(_ & ->)|[(_ & _ & _ & ->)|(_ & _ & _ & ->)]]; set_solver. }
  destruct (IH (cs_Add x c).1) as [H1 H2]; [by apply cs_Add_ok|by etrans; [apply subseteq_size|]|].
  change (adds (x :: l) c) with (adds l (cs_Add x c).1). split; [set_solver|].
  intros y [->|Hy]%elem_of_cons Hy0; [|by apply H2]. by apply H1, cs_Add_in.
Qed.

Lemma SortedSlice_perm (c o : CausalSet) : SortedSlice c = SortedSlice o ↔ ids c ≡ₚ ids o.
Proof.
  unfold SortedSlice. split; [|apply sort_Z_unique].
  intros Heq. by rewrite <-(sort_Z_perm (ids c)), Heq, sort_Z_perm.
Qed.

(** ** The graph stays within its cap *)

Lemma drop_leaf_size (pid : Z) (m : gmap Z Node) :
  is_Some (m !! pid) → size (drop_leaf pid m) = size m - 1.
Proof.
  intros [n Hn]. unfold drop_leaf. rewrite Hn.
  assert (is_Some (alter (del_child pid) (n_PPID n) m !! pid)) as Hs by (rewrite lookup_alter_is_Some; by eexists).
  rewrite <-!size_dom, dom_delete_L, dom_alter_L, size_difference, size_singleton; [done|].
  intros x ->%elem_of_singleton. by apply elem_of_dom_2 in Hn.
Qed.

Lemma evict_leaves_le (target : Z) (ks : list Z) (m : gmap Z Node) :
  size (evict_leaves target ks m) ≤ size m.
Proof.
  revert m. induction ks as [|k ks IH]; intros m; [done|]. cbn [evict_leaves].
  destruct (m !! k) as [n|] eqn:Hn; [|apply IH]. pose proof (drop_leaf_size k m (mk_is_Some _ _ Hn)).
  case_match; [lia|]. specialize (IH (drop_leaf k m)). lia.
Qed.

Lemma evict_leaves_lt (target : Z) (ks : list Z) (m : gmap Z Node) (pid : Z) :
  pid ∈ ks → is_Some (m !! pid) → size (evict_leaves target ks m) < size m.
Proof.
  intros Hin Hs. induction ks as [|k ks IH]; [by apply elem_of_nil in Hin|]. cbn [evict_leaves].
  destruct (m !! k) as [n|] eqn:Hn.
  - pose proof (drop_leaf_size k m (mk_is_Some _ _ Hn)).
    assert (size m ≠ 0) by (intros Hz; apply map_size_empty_iff in Hz; subst; by rewrite lookup_empty in Hn).
    pose proof (evict_leaves_le target ks (drop_leaf k m)). case_match; lia.
  - apply IH. apply elem_of_cons in Hin as [->|Hin]; [|done]. by rewrite Hn in Hs; destruct Hs.
Qed.

Section bounded.
Context (leaves : gmap Z Node → list Z) (Hleaves : ∀ m, leaf_order m (leaves m)).

Definition within (g : Graph) : Prop := (1 ≤ g_cap g)%Z ∧ (Z.of_nat (size (nodes g)) ≤ g_cap g)%Z.

Lemma spawn_fresh_leaf (n : Node) (m : gmap Z Node) :
  n_Children n = ∅ → n_PID n ∈ leaves (<[n_PID n := n]> m).
Proof.
  intros Hc. destruct (Hleaves (<[n_PID n := n]> m)) as (_ & Hk & _). apply Hk. exists n.
  rewrite lookup_insert_eq. split; [done|]. unfold is_leaf. by rewrite Hc.
Qed.

Lemma own_source_same (n : Node) : n_Children (own_source n) = n_Children n ∧ n_PPID (own_source n) = n_PPID n ∧ n_PID (own_source n) = n_PID n.
Proof. unfold own_source. by case_match. Qed.

Lemma OnSpawn_within (n : Node) (now : Time.time) (g : Graph) :
  n_Children n = ∅ → within g → within (OnSpawn leaves n now g) ∧ g_cap (OnSpawn leaves n now g) = g_cap g.
Proof.
  intros Hch [Hc Hs]. unfold OnSpawn.
  destruct (match nodes g !! n_PPID n with Some _ => _ | None => _ end) as [m n2] eqn:Hm.
  assert (size m = size (nodes g) ∧ n_Children n2 = ∅ ∧ n_PID n2 = n_PID n) as (Hsz & Hch2 & Hpid).
  { destruct (nodes g !! n_PPID n) as [p|] eqn:Hp; simplify_eq; [|done]. split; [|done].
    rewrite map_size_insert_Some by done. done. }
  destruct (own_source_same n2) as (Ho & _ & Hop). rewrite <-Hpid, <-Hop.
  set (m' := <[n_PID (own_source n2) := own_source n2]> m).
  assert (size m' ≤ S (size m)) as Hsz'.
  { subst m'. destruct (m !! n_PID (own_source n2)) eqn:Hl;
      [rewrite map_size_insert_Some by done; apply Nat.le_succ_diag_r|by rewrite map_size_insert_None]. }
  cbn zeta. cbn [nodes set_nodes g_cap]. destruct (g_cap g <? Z.of_nat (size m'))%Z eqn:Hlt; [|apply Z.ltb_ge in Hlt; split; [split; [done|exact Hlt]|done]].
  unfold evictLocked. cbn [nodes set_nodes g_cap].
  destruct (Z.of_nat (size m') <=? g_cap g - Z.quot (g_cap g) 10)%Z eqn:Ht.
  - exfalso. apply Z.leb_le in Ht. apply Z.ltb_lt in Hlt. pose proof (Z.quot_pos (g_cap g) 10 ltac:(lia) ltac:(lia)). lia.
  - split; [|done]. split; [done|]. cbn [nodes set_nodes g_cap].
    pose proof (evict_leaves_lt (g_cap g - Z.quot (g_cap g) 10) (leaves m') m' (n_PID (own_source n2))) as He.
    rewrite <-Ho in Hch2. specialize (He (spawn_fresh_leaf (own_source n2) m Hch2)).
    specialize (He ltac:(subst m'; by rewrite lookup_insert_eq)). lia.
Qed.

End bounded.

(** ** Eviction takes no parent of a process that stays *)

(** every process is among its parent's children *)
Definition linked (m : gmap Z Node) : Prop :=
  ∀ p n pn, m !! p = Some n → n_PPID n ≠ p → m !! n_PPID n = Some pn → p ∈ n_Children pn.

(** the parents known before are known after *)
Definition keeps_parents (m m' : gmap Z Node) : Prop :=
  ∀ p n', m' !! p = Some n' →
    ∃ n, m !! p = Some n ∧ n_PPID n' = n_PPID n ∧ proc_node n' = proc_node n ∧
         (is_Some (m !! n_PPID n) → is_Some (m' !! n_PPID n)).

Lemma drop_leaf_lookup (pid p : Z) (m : gmap Z Node) (n' : Node) :
  drop_leaf pid m !! p = Some n' →
  (is_Some (m !! pid) → p ≠ pid) ∧
  ∃ n, m !! p = Some n ∧ n_PPID n' = n_PPID n ∧ n_Children n' ⊆ n_Children n ∧ proc_node n' = proc_node n ∧
       (∀ c, c ≠ pid → c ∈ n_Children n → c ∈ n_Children n').
Proof.
  unfold drop_leaf. destruct (m !! pid) as [x|] eqn:Hx.
  - intros [Hne Hl]%lookup_delete_Some. split; [congruence|]. rewrite lookup_alter in Hl.
    case_decide as Hp; [|by exists n']. rewrite Hp in Hl.
    destruct (m !! p) as [n|] eqn:Hn; [|done]. injection Hl as <-. exists n. split; [done|]. cbn. set_solver.
  - intros Hn. split; [by intros []|]. by exists n'.
Qed.

Lemma drop_leaf_keeps (pid : Z) (n0 : Node) (m : gmap Z Node) :
  linked m → m !! pid = Some n0 → n_Children n0 = ∅ →
  linked (drop_leaf pid m) ∧ keeps_parents m (drop_leaf pid m).
Proof.
  intros Hl Hpid Hch. split.
  - intros p n' pn' Hp Hne Hpn'.
    apply drop_leaf_lookup in Hp as (Hnp & n & Hn & Heq & _). specialize (Hnp ltac:(by eexists)).
    apply drop_leaf_lookup in Hpn' as (_ & pn & Hpn & _ & _ & _ & Hkeep). rewrite Heq in *.
    apply Hkeep; [done|]. by eapply Hl.
  - intros p n' Hp. apply drop_leaf_lookup in Hp as (Hnp & n & Hn & Heq & _ & Hpn0 & _). specialize (Hnp ltac:(by eexists)).
    exists n. split_and!; [done..|]. intros [pn Hpn]. unfold drop_leaf. rewrite Hpid.
    destruct (decide (n_PPID n = pid)) as [Hp0|Hp0].
    + exfalso. assert (p ∈ n_Children pn) as Hin by (eapply Hl; [done|congruence|done]).
      rewrite Hp0 in Hpn. simplify_eq. set_solver.
    + rewrite lookup_delete_ne, lookup_alter_is_Some by done. by eexists.
Qed.

Lemma keeps_refl (m : gmap Z Node) : keeps_parents m m.
Proof. intros p n Hn. exists n. done. Qed.

Lemma keeps_trans (m1 m2 m3 : gmap Z Node) :
  keeps_parents m1 m2 → keeps_parents m2 m3 → keeps_parents m1 m3.
Proof.
  intros H12 H23 p n3 Hn3. destruct (H23 p n3 Hn3) as (n2 & Hn2 & He2 & Hs2 & Hk2).
  destruct (H12 p n2 Hn2) as (n1 & Hn1 & He1 & Hs1 & Hk1). exists n1. split_and!; [done|congruence|congruence|].
  intros Hs. rewrite <-He1. apply Hk2. rewrite He1. by apply Hk1.
Qed.

Lemma evict_leaves_keeps (target : Z) (ks : list Z) (m : gmap Z Node) :
  linked m → (∀ k n, k ∈ ks → m !! k = Some n → n_Children n = ∅) →
  linked (evict_leaves target ks m) ∧ keeps_parents m (evict_leaves target ks m).
Proof.
  revert m. induction ks as [|k ks IH]; intros m Hl Hks; [split; [done|apply keeps_refl]|]. cbn [evict_leaves].
  destruct (m !! k) as [n|] eqn:Hn; [|apply IH; [done|]; intros; eapply Hks; [by right|done]].
  destruct (drop_leaf_keeps k n m Hl Hn ltac:(eapply Hks; [by left|done])) as [Hl' Hk'].
  case_match; [done|]. destruct (IH (drop_leaf k m) Hl') as [Hl2 Hk2].
  - intros k' n' Hin (_ & n1 & Hn1 & _ & Hsub & _)%drop_leaf_lookup.
    rewrite (Hks k' n1) in Hsub; [set_solver|by right|done].
  - split; [done|]. by eapply keeps_trans.
Qed.

Section keeps.
Context (leaves : gmap Z Node → list Z) (Hleaves : ∀ m, leaf_order m (leaves m)).

Lemma evictLocked_keeps (g : Graph) :
  linked (nodes g) → linked (nodes (evictLocked leaves g)) ∧ keeps_parents (nodes g) (nodes (evictLocked leaves g)).
Proof.
  intros Hl. unfold evictLocked. case_match; [split; [done|apply keeps_refl]|]. cbn [nodes set_nodes].
  apply evict_leaves_keeps; [done|]. intros k n Hk Hn. destruct (Hleaves (nodes g)) as (_ & Hks & _).
  apply Hks in Hk as (n' & Hn' & Hlf). simplify_eq. unfold is_leaf in Hlf. by bool_to_prop.
Qed.

(** ** Operations and their runs *)

Inductive pt_op : Type :=
  | PSpawn (n : Node) (now : Time.time)
  | PAttr (pid id : Z) (now : Time.time)
  | PMerge (pid : Z) (cs : CausalSet)
  | PExit (pid : Z)
  | PTouch (pid : Z) (now : Time.time).

Definition pt_exec (g : Graph) (o : pt_op) : Graph :=
  match o with
  | PSpawn n now => OnSpawn leaves n now g
  | PAttr pid id now => AttributeSource pid id now g
  | PMerge pid cs => (MergeCausalSet pid cs g).1
  | PExit pid => OnExit pid g
  | PTouch pid now => pt_Touch pid now g
  end.

(** a spawn as the kernel reports it: the pid is free, no known process names
    it as its parent, and no children come with it *)
Definition spawn_ok (g : Graph) (o : pt_op) : Prop :=
  match o with
  | PSpawn n _ => nodes g !! n_PID n = None ∧ n_Children n = ∅ ∧ ∀ p n', nodes g !! p = Some n' → n_PPID n' ≠ n_PID n
  | _ => True
  end.

Inductive reach (cap : Z) : Graph → Prop :=
  | reach_new : reach cap (NewGraph cap)
  | reach_step g o : reach cap g → spawn_ok g o → reach cap (pt_exec g o).

Lemma same_links_linked (m m' : gmap Z Node) (f : Z → Node → Node) :
  (∀ p, m' !! p = f p <$> m !! p) → (∀ p n, n_PPID (f p n) = n_PPID n ∧ n_Children (f p n) = n_Children n) →
  linked m → linked m'.
Proof.
  intros Hf Hs Hl p n' pn' Hp Hne Hpn'. rewrite Hf in Hp, Hpn'.
  destruct (m !! p) as [n|] eqn:Hn; [|done]. injection Hp as <-.
  destruct (Hs p n) as [Hpp _]. rewrite Hpp in *.
  destruct (m !! n_PPID n) as [pn|] eqn:Hpn; [|done]. injection Hpn' as <-.
  rewrite (proj2 (Hs _ _)). by eapply Hl.
Qed.

Lemma insert_as_map (m : gmap Z Node) (pid : Z) (n n' : Node) :
  m !! pid = Some n → ∀ p, <[pid := n']> m !! p = (λ x, if decide (p = pid) then n' else x) <$> m !! p.
Proof.
  intros Hn p. destruct (decide (p = pid)) as [->|Hne].
  - by rewrite lookup_insert_eq, Hn.
  - rewrite lookup_insert_ne by done. by destruct (m !! p).
Qed.

Lemma reinsert_linked (m : gmap Z Node) (pid : Z) (n n' : Node) :
  m !! pid = Some n → n_PPID n' = n_PPID n → n_Children n' = n_Children n → linked m → linked (<[pid := n']> m).
Proof.
  intros Hn Hp Hc Hl p x px Hx Hne Hpx.
  destruct (decide (p = pid)) as [->|Hnp].
  - rewrite lookup_insert_eq in Hx. injection Hx as <-. rewrite Hp in *. rewrite lookup_insert_ne in Hpx by done.
    by eapply Hl.
  - rewrite lookup_insert_ne in Hx by done. destruct (decide (n_PPID x = pid)) as [Heq|].
    + rewrite Heq, lookup_insert_eq in Hpx. injection Hpx as <-. rewrite Hc. eapply Hl; [done..|]. by rewrite Heq.
    + rewrite lookup_insert_ne in Hpx by done. by eapply Hl.
Qed.

Lemma spawn_links (n2 : Node) (m0 : gmap Z Node) :
  linked m0 → m0 !! n_PID n2 = None → (∀ p n', m0 !! p = Some n' → n_PPID n' ≠ n_PID n2) →
  linked (<[n_PID n2 := n2]>
            (match m0 !! n_PPID n2 with Some pn => <[n_PPID n2 := add_child (n_PID n2) pn]> m0 | None => m0 end)).
Proof.
  intros Hl Hfresh Hnopar p x px Hx Hne Hpx.
  assert (∀ q y, (match m0 !! n_PPID n2 with Some pn => <[n_PPID n2 := add_child (n_PID n2) pn]> m0 | None => m0 end) !! q
            = Some y → ∃ y0, m0 !! q = Some y0 ∧ n_PPID y = n_PPID y0 ∧ n_Children y0 ⊆ n_Children y ∧
               (q = n_PPID n2 → n_PID n2 ∈ n_Children y)) as Hm.
  { intros q y. destruct (m0 !! n_PPID n2) as [pn|] eqn:Hpn.
    - destruct (decide (q = n_PPID n2)) as [->|Hq].
      + rewrite lookup_insert_eq. intros [= <-]. exists pn. cbn. set_solver.
      + rewrite lookup_insert_ne by done. intros Hy. exists y. done.
    - intros Hy. exists y. split_and!; [done..|]. intros ->. congruence. }
  destruct (decide (p = n_PID n2)) as [->|Hp].
  - rewrite lookup_insert_eq in Hx. injection Hx as <-. rewrite lookup_insert_ne in Hpx by done.
    destruct (Hm _ _ Hpx) as (_ & _ & _ & _ & Hin). by apply Hin.
  - rewrite lookup_insert_ne in Hx by done. destruct (Hm _ _ Hx) as (x0 & Hx0 & Heq & _ & _). rewrite Heq in *.
    rewrite lookup_insert_ne in Hpx by (intros He; by apply (Hnopar p x0)).
    destruct (Hm _ _ Hpx) as (px0 & Hpx0 & _ & Hsub & _). apply Hsub. by eapply Hl.
Qed.

Lemma reparent1_lookup (m : gmap Z Node) (c p : Z) (n' : Node) :
  is_Some (m !! c) → reparent1 m c !! p = Some n' →
  ∃ n, m !! p = Some n ∧ n_PPID n' = (if decide (c = p) then 1%Z else n_PPID n) ∧
       n_Children n ⊆ n_Children n' ∧ (p = 1%Z → c ∈ n_Children n').
Proof.
  intros [y Hy]. unfold reparent1. rewrite Hy, !lookup_alter. intros Hl.
  destruct (m !! p) as [n|] eqn:Hn; destruct (decide (1%Z = p)) as [<-|H1];
    repeat case_decide; simplify_eq/=; rewrite ?Hy, ?Hn in *; simplify_eq/=;
    (eexists; split; [reflexivity|]); cbn; set_solver.
Qed.

Lemma reparent1_linked (m : gmap Z Node) (c : Z) : linked m → linked (reparent1 m c).
Proof.
  intros Hl. destruct (m !! c) as [y|] eqn:Hy; [|unfold reparent1; by rewrite Hy].
  intros p n' pn' Hp Hne Hpn'.
  apply reparent1_lookup in Hp as (n & Hn & Hpp & _ & _); [|by eexists].
  apply reparent1_lookup in Hpn' as (pn & Hpn & _ & Hsub & H1); [|by eexists].
  rewrite Hpp in *. case_decide as Hpc; [subst; by apply H1|]. apply Hsub. by eapply Hl.
Qed.

Lemma delete_linked (m : gmap Z Node) (pid q : Z) :
  linked m → linked (alter (del_child pid) q (delete pid m)).
Proof.
  intros Hl.
  assert (∀ p n', alter (del_child pid) q (delete pid m) !! p = Some n' →
    p ≠ pid ∧ ∃ n, m !! p = Some n ∧ n_PPID n' = n_PPID n ∧ ∀ c, c ≠ pid → c ∈ n_Children n → c ∈ n_Children n') as Hlk.
  { intros p n'. rewrite lookup_alter. case_decide as Hq.
    - subst p. destruct (delete pid m !! q) as [n|] eqn:Hd; [|done].
      apply lookup_delete_Some in Hd as [Hne Hn]. intros [= <-]. split; [done|]. exists n. cbn. set_solver.
    - intros [Hne Hn]%lookup_delete_Some. split; [done|]. by exists n'. }
  intros p n' pn' (Hpne & n & Hn & Hpp & _)%Hlk Hne (_ & pn & Hpn & _ & Hkeep)%Hlk.
  apply Hkeep; [done|]. rewrite Hpp in *. by eapply Hl.
Qed.

Lemma exit_linked (pid : Z) (g : Graph) : linked (nodes g) → linked (nodes (OnExit pid g)).
Proof.
  intros Hl. unfold OnExit. destruct (nodes g !! pid) as [n|]; [|done]. cbn [nodes set_nodes].
  apply delete_linked. destruct (nodes g !! 1%Z); [|done].
  revert Hl. generalize (nodes g) as m. induction (elements (n_Children n)) as [|c cs IH]; intros m Hl; [done|].
  apply IH. by apply reparent1_linked.
Qed.

Lemma spawn_linked (n : Node) (now : Time.time) (g : Graph) :
  spawn_ok g (PSpawn n now) → linked (nodes g) → linked (nodes (OnSpawn leaves n now g)).
Proof.
  intros (Hfresh & Hch & Hnp) Hl. unfold OnSpawn.
  destruct (match nodes g !! n_PPID n with Some _ => _ | None => _ end) as [m n2] eqn:Hm.
  assert (linked (<[n_PID n := own_source n2]> m)) as Hl'.
  { destruct (own_source_same n2) as (_ & Hpp & Hpid).
    assert (n_PID n2 = n_PID n ∧ n_PPID n2 = n_PPID n) as [Hpid2 Hpp2].
    { destruct (nodes g !! n_PPID n); by simplify_eq/=. }
    pose proof (spawn_links (own_source n2) (nodes g) Hl) as Hs. rewrite Hpid, Hpid2, Hpp, Hpp2 in Hs.
    specialize (Hs Hfresh Hnp). destruct (nodes g !! n_PPID n); by simplify_eq/=. }
  cbn zeta. destruct (g_cap g <? _)%Z; [|done]. by apply evictLocked_keeps.
Qed.

Lemma exec_linked (g : Graph) (o : pt_op) : spawn_ok g o → linked (nodes g) → linked (nodes (pt_exec g o)).
Proof.
  destruct o as [n now|pid id now|pid cs|pid|pid now]; cbn [pt_exec]; intros Hok Hl.
  - by apply spawn_linked.
  - unfold AttributeSource. destruct (id =? 0)%Z; [done|]. destruct (nodes g !! pid) as [n|] eqn:Hn; [|done].
    by eapply reinsert_linked.
  - unfold MergeCausalSet. destruct (IsEmpty cs); [done|]. destruct (nodes g !! pid) as [n|] eqn:Hn; [|done].
    destruct (Merge cs (n_CausalSet n)). by eapply reinsert_linked.
  - by apply exit_linked.
  - unfold pt_Touch. cbn [nodes set_nodes].
    eapply (same_links_linked _ _ (λ p n, if decide (pid = p) then with_times (n_FirstSeen n) now n else n)); [| |done].
    + intros p. rewrite lookup_alter. case_decide; [by subst|]. by destruct (nodes g !! p).
    + intros p n. by case_decide.
Qed.

Lemma reach_linked (cap : Z) (g : Graph) : reach cap g → linked (nodes g).
Proof. induction 1 as [|g o _ IH Hok]; [by intros p n pn Hp|by apply exec_linked]. Qed.

Lemma exec_within (g : Graph) (o : pt_op) :
  match o with PSpawn n _ => n_Children n = ∅ | _ => True end → within g → within (pt_exec g o).
Proof.
  intros Hch Hw. pose proof Hw as [Hc Hs]. destruct o as [n now|pid id now|pid cs|pid|pid now]; cbn [pt_exec].
  - by apply OnSpawn_within.
  - unfold AttributeSource. case_match; [done|]. case_match eqn:Hn; [|done].
    split; [done|]. cbn. by rewrite map_size_insert_Some.
  - unfold MergeCausalSet. case_match; [done|]. case_match eqn:Hn; [|done]. case_match.
    split; [done|]. cbn. by rewrite map_size_insert_Some.
  - unfold OnExit. destruct (nodes g !! pid) as [n|]; [|done]. split; [done|]. cbn [nodes set_nodes g_cap].
    rewrite <-size_dom, dom_alter_L, dom_delete_L.
    assert (dom (match nodes g !! 1%Z with Some _ => foldl reparent1 (nodes g) (elements (n_Children n)) | None => nodes g end)
            = dom (nodes g)) as ->.
    { destruct (nodes g !! 1%Z); [|done]. generalize (nodes g) as m.
      induction (elements (n_Children n)) as [|c cs IH]; intros m; [done|]. cbn [foldl]. rewrite IH.
      unfold reparent1. destruct (m !! c); [by rewrite !dom_alter_L|done]. }
    assert (size (dom (nodes g) ∖ {[pid]}) ≤ size (dom (nodes g))) as Hle by (apply subseteq_size; set_solver).
    rewrite size_dom in Hle. lia.
  - split; [done|]. cbn. by rewrite <-size_dom, dom_alter_L, size_dom.
Qed.

End keeps.

Lemma climb_keeps (m m' : gmap Z Node) (d : nat) (p : Z) :
  keeps_parents m m' → is_Some (m' !! p) → climb d m' p = climb d m p.
Proof.
  intros Hk. revert p. induction d as [|d IH]; intros p [n' Hn']; [done|]. cbn [climb]. rewrite Hn'.
  destruct (Hk p n' Hn') as (n & Hn & Hpp & Hpn & Hpar). rewrite Hn, Hpp, Hpn. f_equal.
  case_match; [done|]. destruct (m !! n_PPID n) as [pn|] eqn:Hm; [apply IH, Hpar; by eexists|].
  destruct d as [|d]; [done|]. cbn [climb]. rewrite Hm.
  destruct (m' !! n_PPID n) as [x|] eqn:Hx; [|done].
  destruct (Hk _ x Hx) as (y & Hy & _). congruence.
Qed.

(** ** The file tracker follows the last writes *)

Lemma NewCausalSet_id (c : CausalSet) : cs_ok c → NewCausalSet (Slice c) = c.
Proof.
  intros (Hnd & Hl & H0). unfold NewCausalSet, Slice.
  pose proof (adds_fresh (ids c) EmptySet Hnd) as Ha. unfold adds in Ha. cbn [ids EmptySet] in Ha.
  destruct (foldl _ EmptySet (ids c)) as [l]. destruct c as [l']. cbn [ids] in *. f_equal.
  rewrite Ha; [|set_solver|simpl; lia]. cbn. by replace (length l' - CausalSetCap) with 0 by lia.
Qed.

Inductive ft_op : Type :=
  | FWrite (path : string) (primary : Z) (set : CausalSet) (t now : Time.time)
  | FSweep (cutoff : Time.time).

Definition ft_exec (f : FileTaint) (o : ft_op) : FileTaint :=
  match o with
  | FWrite path primary set t now => RecordWrite path primary set t now f
  | FSweep cutoff => (ft_SweepOlderThan cutoff f).1
  end.

(** what a write leaves for a path *)
Definition written (path : string) (o : ft_op) : option FileProvenance :=
  match o with
  | FWrite p primary set t now =>
      if bool_decide (p = path) && negb (Str.empty p) && negb ((primary =? 0)%Z && IsEmpty set)
      then Some {| LastWriterPrimary := primary; fp_Set := NewCausalSet (Slice set); SetHash := Hash set;
                   RecordedAt := if Time.IsZero t then now else t |}
      else None
  | FSweep _ => None
  end.

Definition last_write (path : string) (ops : list ft_op) : option FileProvenance := last (omap (written path) ops).

Definition ft_ok (f : FileTaint) : Prop :=
  1 ≤ ft_cap f ∧ NoDup (order f) ∧ (∀ p, p ∈ order f ↔ is_Some (paths f !! p)) ∧ size (paths f) ≤ ft_cap f.

Lemma order_size (m : gmap string FileProvenance) (ord : list string) :
  NoDup ord → (∀ p, p ∈ ord ↔ is_Some (m !! p)) → size m = length ord.
Proof.
  intros Hnd Ho. rewrite <-size_dom. rewrite <-(size_list_to_set (C := gset string) ord Hnd).
  f_equal. apply set_eq. intros p. by rewrite elem_of_list_to_set, Ho, elem_of_dom.
Qed.

Lemma evict_heads_spec (cap : nat) (m m' : gmap string FileProvenance) (ord ord' : list string) :
  1 ≤ cap → NoDup ord → (∀ p, p ∈ ord ↔ is_Some (m !! p)) → evict_heads cap m ord = (m', ord') →
  m' ⊆ m ∧ NoDup ord' ∧ (∀ p, p ∈ ord' ↔ is_Some (m' !! p)) ∧ size m' < cap.
Proof.
  intros Hc. revert m. induction ord as [|h ord IH]; intros m Hnd Ho He; cbn [evict_heads] in He.
  - simplify_eq. split_and!; [done|done|done|]. by rewrite (order_size m' [] Hnd Ho).
  - destruct (Nat.leb_spec cap (size m)) as [Hle|Hlt]; simplify_eq; [|done].
    apply NoDup_cons in Hnd as [Hh Hnd]. destruct (IH (delete h m)) as (Hsub & H1 & H2 & H3); [done| |done|].
    + intros p. destruct (decide (p = h)) as [->|Hne].
      * rewrite lookup_delete_eq. split; [done|by intros []].
      * rewrite lookup_delete_ne by done. rewrite <-Ho. set_solver.
    + split_and!; [|done..]. etrans; [done|]. apply delete_subseteq.
Qed.

Lemma RecordWrite_spec (path : string) (primary : Z) (set : CausalSet) (t now : Time.time) (f : FileTaint) :
  ft_ok f →
  ft_ok (RecordWrite path primary set t now f) ∧
  ∀ p r, paths (RecordWrite path primary set t now f) !! p = Some r →
    match written p (FWrite path primary set t now) with Some r' => r = r' | None => paths f !! p = Some r end.
Proof.
  intros (Hc & Hnd & Ho & Hs). unfold RecordWrite, written.
  destruct (Str.empty path) eqn:Hp.
  { split; [done|]. intros p r Hr. cbn. by rewrite andb_false_r. }
  destruct ((primary =? 0)%Z && IsEmpty set) eqn:He.
  { split; [done|]. intros p r Hr. by rewrite andb_false_r. }
  cbn zeta. set (rec := Build_FileProvenance _ _ _ _).
  assert (∀ m' p r, m' ⊆ paths f → <[path := rec]> m' !! p = Some r →
    match (if bool_decide (path = p) && negb false && negb false then Some rec else None) with
    | Some r' => r = r' | None => paths f !! p = Some r end) as Hlk.
  { intros m' p r Hsub. case_bool_decide as Hpp; cbn.
    - subst p. by rewrite lookup_insert_eq; intros [= <-].
    - rewrite lookup_insert_ne by done. intros Hr. by eapply lookup_weaken. }
  destruct (paths f !! path) as [r0|] eqn:Hr0.
  - split; [|intros p r; by apply Hlk].
    split_and!; [done|done| |by cbn; rewrite map_size_insert_Some]. intros p. cbn. rewrite Ho, lookup_insert_is_Some.
    destruct (decide (path = p)) as [->|]; naive_solver.
  - destruct (evict_heads (ft_cap f) (paths f) (order f)) as [m ord] eqn:Hev.
    destruct (evict_heads_spec _ _ _ _ _ Hc Hnd Ho Hev) as (Hsub & Hnd' & Ho' & Hs').
    split; [|intros p r; by apply Hlk].
    assert (m !! path = None) as Hnone by (by eapply lookup_weaken_None).
    split_and!; cbn [ft_cap order paths]; [done| | |].
    + apply NoDup_app. split; [done|]. split; [|apply NoDup_singleton].
      intros x Hx ->%list_elem_of_singleton. apply Ho' in Hx as [? Hx]. congruence.
    + intros p. rewrite elem_of_app, list_elem_of_singleton, Ho', lookup_insert_is_Some.
      destruct (decide (path = p)); naive_solver.
    + rewrite map_size_insert_None by done. lia.
Qed.

Lemma sweep_paths_spec (cutoff : Time.time) (ord kept : list string) (m m' : gmap string FileProvenance) (k : nat) :
  NoDup ord → sweep_paths cutoff ord m = (kept, m', k) →
  m' ⊆ m ∧ NoDup kept ∧ kept ⊆ ord ∧
  (∀ p, p ∈ ord → (p ∈ kept ↔ is_Some (m' !! p))) ∧ (∀ p, p ∉ ord → m' !! p = m !! p).
Proof.
  revert m kept m' k. induction ord as [|q ord IH]; intros m kept m' k Hnd Hsw; cbn [sweep_paths] in Hsw.
  { simplify_eq. split_and!; [done|done|done|set_solver|done]. }
  apply NoDup_cons in Hnd as [Hq Hnd]. destruct (m !! q) as [r|] eqn:Hr.
  - destruct (Time.Before (RecordedAt r) cutoff).
    + destruct (sweep_paths cutoff ord (delete q m)) as [[kept1 m1] k1] eqn:H1. simplify_eq.
      destruct (IH _ _ _ _ Hnd H1) as (Hsub & Hk & Hks & Hi & Ho). split_and!.
      * etrans; [done|apply delete_subseteq].
      * done.
      * set_solver.
      * intros p [->|Hp]%elem_of_cons; [|by apply Hi]. rewrite (Ho q Hq), lookup_delete_eq.
        split; [set_solver|by intros []].
      * intros p Hp. rewrite Ho, lookup_delete_ne by set_solver. done.
    + destruct (sweep_paths cutoff ord m) as [[kept1 m1] k1] eqn:H1. simplify_eq.
      destruct (IH _ _ _ _ Hnd H1) as (Hsub & Hk & Hks & Hi & Ho). split_and!.
      * done.
      * apply NoDup_cons. split; [set_solver|done].
      * set_solver.
      * intros p [->|Hp]%elem_of_cons.
        -- rewrite (Ho q Hq), Hr. split; [done|]. intros _. by left.
        -- rewrite <-(Hi p Hp). set_solver.
      * intros p Hp. apply Ho. set_solver.
  - destruct (IH _ _ _ _ Hnd Hsw) as (Hsub & Hk & Hks & Hi & Ho). split_and!; [done|done|set_solver| |].
    + intros p [->|Hp]%elem_of_cons; [|by apply Hi]. rewrite (Ho q Hq), Hr.
      split; [set_solver|by intros []].
    + intros p Hp. apply Ho. set_solver.
Qed.

Lemma Sweep_spec (cutoff : Time.time) (f : FileTaint) :
  ft_ok f → ft_ok (ft_SweepOlderThan cutoff f).1 ∧ paths (ft_SweepOlderThan cutoff f).1 ⊆ paths f.
Proof.
  intros (Hc & Hnd & Ho & Hs). unfold ft_SweepOlderThan.
  destruct (sweep_paths cutoff (order f) (paths f)) as [[kept m] k] eqn:Hsw. cbn [fst paths].
  destruct (sweep_paths_spec _ _ _ _ _ _ Hnd Hsw) as (Hsub & Hk & Hks & Hi & Hout). split; [|done].
  split_and!; cbn [ft_cap order paths]; [done|done| |].
  - intros p. destruct (decide (p ∈ order f)) as [Hp|Hp]; [by apply Hi|].
    rewrite (Hout p Hp). rewrite <-Ho. set_solver.
  - pose proof (map_subseteq_size m (paths f) Hsub). lia.
Qed.

(** ** Properties *)

(** The causal set is a set.  Two sets built by any insertions compare equal
    exactly when they have the same members whatever the order of insertion,
    then they have the same fingerprint, and no set holds more than sixteen
    ids, a duplicate or the zero id. *)
Theorem causal_set_canonical (l k : list Z) :
  let c := NewCausalSet l in
  let o := NewCausalSet k in
  (Equal c o = true ↔ ∀ x, x ∈ ids c ↔ x ∈ ids o) ∧
  (Equal c o = true → Hash c = Hash o) ∧
  NoDup (ids c) ∧ length (ids c) ≤ CausalSetCap ∧ 0%Z ∉ ids c.
Proof.
  intros c o. pose proof (NewCausalSet_ok l) as Hc. pose proof (NewCausalSet_ok k) as Ho. fold c o in Hc, Ho.
  assert (Equal c o = true ↔ ids c ≡ₚ ids o) as He.
  { unfold Equal. rewrite andb_true_iff, Nat.eqb_eq, bool_decide_eq_true, SortedSlice_perm.
    split; [by intros []|]. intros Hp. split; [by rewrite Hp|done]. }
  rewrite He. destruct Hc as (Hnd & Hl & H0), Ho as (Hnd' & _). split; [|split; [|done]].
  - split; [intros Hp x; by rewrite Hp|by apply NoDup_Permutation].
  - intros Hp. unfold Hash, IsEmpty. rewrite Hp. apply SortedSlice_perm in Hp. by rewrite Hp.
Qed.

(** The process graph never outgrows its cap.  Whatever processes are
    recorded, with pids reused or parents unknown, and in whatever order equal
    times are sorted, a graph made with a positive cap holds at most that many
    processes after every operation. *)
Theorem graph_within_cap (leaves : gmap Z Node → list Z) (Hleaves : ∀ m, leaf_order m (leaves m))
    (cap : Z) (ops : list pt_op)
    (Hnew : Forall (λ o, match o with PSpawn n _ => n_Children n = ∅ | _ => True end) ops) :
  let g := foldl (pt_exec leaves) (NewGraph cap) ops in
  (Z.of_nat (pt_Count g) ≤ if (cap <=? 0)%Z then 50000 else cap)%Z.
Proof.
  intros g. assert (within (NewGraph cap)) as H0.
  { unfold within, NewGraph. cbn [nodes g_cap]. rewrite map_size_empty. destruct (Z.leb_spec cap 0); lia. }
  assert (within g ∧ g_cap g = g_cap (NewGraph cap)) as [[_ Hs] Hc].
  { subst g. revert H0. generalize (NewGraph cap) as g0. induction Hnew as [|o ops Ho _ IH]; intros g0 H0; [done|].
    cbn [foldl]. destruct (IH (pt_exec leaves g0 o)) as [H1 H2]; [by apply exec_within|].
    split; [done|]. rewrite H2. clear -Ho H0 Hleaves. destruct o as [n now|pid id now|pid cs|pid|pid now]; cbn [pt_exec].
    - by apply OnSpawn_within.
    - unfold AttributeSource. by repeat case_match.
    - unfold MergeCausalSet. by repeat case_match.
    - unfold OnExit. by case_match.
    - done. }
  unfold pt_Count. rewrite Hc in Hs. exact Hs.
Qed.

(** Eviction cuts no chain of ancestors.  In every graph reached by spawns
    of free pids, exits, attributions and merges, making room leaves each
    process that stays with exactly the ancestors it had: only processes
    without known children are dropped. *)
Theorem eviction_keeps_ancestors (leaves : gmap Z Node → list Z) (Hleaves : ∀ m, leaf_order m (leaves m))
    (cap : Z) (g : Graph) (pid depth : Z) (Hreach : reach leaves cap g)
    (Hstays : is_Some (nodes (evictLocked leaves g) !! pid)) :
  Ancestors pid depth (evictLocked leaves g) = Ancestors pid depth g.
Proof.
  unfold Ancestors. apply climb_keeps; [|done]. apply evictLocked_keeps; [done|]. by eapply reach_linked.
Qed.

(** The file tracker remembers last writes.  After any writes and sweeps it
    holds at most its cap of paths, and what it answers for a path is exactly
    what the last effective write of that path left: older records of the path
    never come back. *)
Theorem file_provenance_is_last_write (cap : Z) (ttl : Time.duration) (ops : list ft_op)
    (path : string) (now : Time.time) :
  let f := foldl ft_exec (NewFileTaint cap ttl) ops in
  (Z.of_nat (ft_Size f) ≤ if (cap <=? 0)%Z then 4096 else cap)%Z ∧
  (∀ r, ft_Lookup path now f = Some r → last_write path ops = Some r).
Proof.
  intros f.
  assert (ft_ok f ∧ ft_cap f = ft_cap (NewFileTaint cap ttl) ∧
          ∀ r, paths f !! path = Some r → last_write path ops = Some r) as ((_ & _ & _ & Hs) & Hc & Hl).
  { subst f. induction ops as [|o ops IH] using rev_ind.
    - split; [|done]. split_and!; cbn [foldl ft_cap order paths NewFileTaint].
      + destruct (Z.leb_spec cap 0); lia.
      + constructor.
      + intros p. rewrite lookup_empty. split; [by intros ?%elem_of_nil|by intros []].
      + rewrite map_size_empty. lia.
    - rewrite foldl_app. cbn [foldl]. destruct IH as (Hok & Hc & Hl). unfold last_write in *.
      rewrite omap_app. destruct o as [p primary set t n0|cutoff]; cbn [ft_exec].
      + destruct (RecordWrite_spec p primary set t n0 _ Hok) as [Hok' Hw]. split; [done|]. split.
        * rewrite <-Hc. unfold RecordWrite. repeat case_match; done.
        * intros r Hr. specialize (Hw path r Hr). cbn [omap list_omap].
          destruct (written path _) as [r'|]; [|rewrite app_nil_r; by apply Hl].
          by rewrite last_snoc, Hw.
      + destruct (Sweep_spec cutoff _ Hok) as [Hok' Hsub]. split; [done|]. split.
        * rewrite <-Hc. unfold ft_SweepOlderThan. by destruct (sweep_paths _ _ _) as [[??]?].
        * intros r Hr. cbn. rewrite app_nil_r. apply Hl. by eapply lookup_weaken. }
  split.
  - unfold ft_Size. rewrite Hc in Hs. unfold NewFileTaint in Hs. cbn [ft_cap] in Hs. destruct (Z.leb_spec cap 0); lia.
  - intros r. unfold ft_Lookup. case_match; [done|]. destruct (paths _ !! path) as [r0|]; [|done].
    case_match; [done|]. intros [= ->]. by apply Hl.
Qed.

(** ** Attribution through files *)

Definition is_fim_write (ev : Event) : Prop :=
  ev_Sensor ev ∈ ["fim"; "fim.drift"] ∧ ev_PID ev ≠ 0%Z ∧ tag ev "write" = "true" ∧ tag ev "path" ≠ "".

Definition is_tracked_open (ev : Event) : Prop :=
  ev_Sensor ev = "ebpf" ∧ tag ev "kind" = "file_open" ∧ ev_PID ev ≠ 0%Z ∧
  tag ev "jit_allowlisted" ≠ "true" ∧ tag ev "path" ≠ "".

Lemma write_stage_record (ev : Event) (now : Time.time) (g : Graph) (f : FileTaint) (n : Node) :
  is_fim_write ev → nodes g !! ev_PID ev = Some n → cs_ok (n_CausalSet n) → n_PrimarySource n ≠ 0%Z →
  ft_ok f →
  ∃ f', file_write_stage ev now (g, f) = (g, f') ∧ ft_ttl f' = ft_ttl f ∧
    paths f' !! tag ev "path" =
      Some {| LastWriterPrimary := n_PrimarySource n; fp_Set := n_CausalSet n; SetHash := Hash (n_CausalSet n);
              RecordedAt := if Time.IsZero (ev_Time ev) then now else ev_Time ev |}.
Proof.
  intros (Hs & Hpid & Hw & Hp) Hn Hcs Hpr Hf. unfold file_write_stage.
  assert (bool_decide (ev_Sensor ev = "fim") || bool_decide (ev_Sensor ev = "fim.drift") = true) as ->.
  { rewrite !elem_of_cons in Hs. destruct Hs as [->|[->|?%elem_of_nil]]; done. }
  rewrite (proj2 (Z.eqb_neq _ _) Hpid), Hw. unfold Str.empty. rewrite (bool_decide_eq_false_2 (tag ev "path" = "")) by done.
  cbn [negb andb orb bool_decide]. unfold SourceOf. rewrite Hn, NewCausalSet_id by done.
  rewrite (proj2 (Z.eqb_neq _ _) Hpr). cbn [negb andb orb].
  eexists. split; [done|]. unfold RecordWrite, Str.empty.
  rewrite (bool_decide_eq_false_2 (tag ev "path" = "")), (proj2 (Z.eqb_neq _ _) Hpr) by done. cbn [andb].
  rewrite NewCausalSet_id by done.
  destruct (paths f !! tag ev "path") as [r0|]; [cbn; by rewrite lookup_insert_eq|].
  destruct (evict_heads _ _ _). cbn. by rewrite lookup_insert_eq.
Qed.

Lemma open_stage_source (hex : Z → string) (ev : Event) (now : Time.time) (g : Graph) (f : FileTaint)
    (n : Node) (r : FileProvenance) :
  is_tracked_open ev → nodes g !! ev_PID ev = Some n → ft_Lookup (tag ev "path") now f = Some r →
  LastWriterPrimary r ≠ 0%Z →
  ∃ n', nodes (file_open_stage hex ev now (g, f)).2.1 !! ev_PID ev = Some n' ∧
    n_PrimarySource n' = LastWriterPrimary r ∧
    n_CausalSet n' = (cs_Add (LastWriterPrimary r) (adds (ids (fp_Set r)) (n_CausalSet n))).1.
Proof.
  intros (Hs & Hk & Hpid & Hj & Hp) Hn Hl Hpr. unfold file_open_stage, Str.empty.
  rewrite Hs, Hk, (proj2 (Z.eqb_neq _ _) Hpid).
  rewrite (bool_decide_eq_true_2 ("ebpf" = "ebpf")), (bool_decide_eq_true_2 ("file_open" = "file_open")) by done.
  rewrite (bool_decide_eq_false_2 (tag ev "jit_allowlisted" = "true")), (bool_decide_eq_false_2 (tag ev "path" = "")) by done.
  cbn [negb andb]. rewrite Hl, (proj2 (Z.eqb_neq _ _) Hpr). cbn [fst snd].
  unfold MergeCausalSet. destruct (IsEmpty (fp_Set r)) eqn:He; cbn [fst].
  - unfold AttributeSource. rewrite (proj2 (Z.eqb_neq _ _) Hpr), Hn. cbn [nodes set_nodes].
    rewrite lookup_insert_eq. eexists. split; [done|]. split; [done|]. cbn.
    unfold IsEmpty in He. apply Nat.eqb_eq, length_zero_iff_nil in He. by rewrite He.
  - rewrite Hn. destruct (Merge (fp_Set r) (n_CausalSet n)) as [cs ch] eqn:Hm. cbn [fst].
    unfold AttributeSource. rewrite (proj2 (Z.eqb_neq _ _) Hpr). cbn [nodes set_nodes].
    rewrite lookup_insert_eq. cbn [nodes set_nodes]. rewrite lookup_insert_eq.
    eexists. split; [done|]. split; [done|]. cbn. by rewrite <-Merge_fst, Hm.
Qed.

(** Provenance crosses files.  When an attributed process writes a tracked
    path and another process opens it within the tracker's lifetime, the
    reader ends up with every anchor of the writer besides its own, as long as
    together they fit the sixteen places of a causal set. *)
Theorem file_taint_reaches_reader (hex : Z → string) (evw evr : Event) (noww nowr : Time.time)
    (g : Graph) (f : FileTaint) (nw nr : Node)
    (Hw : is_fim_write evw) (Hr : is_tracked_open evr) (Hpath : tag evr "path" = tag evw "path")
    (Hnw : nodes g !! ev_PID evw = Some nw) (Hnr : nodes g !! ev_PID evr = Some nr)
    (Hsets : cs_ok (n_CausalSet nw) ∧ cs_ok (n_CausalSet nr)) (Hattr : n_PrimarySource nw ∈ ids (n_CausalSet nw))
    (Hf : ft_ok f) (Htime : Time.IsZero (ev_Time evw) = false)
    (Hlife : (Time.Sub nowr (ev_Time evw) ≤ ft_ttl f)%Z)
    (Hfit : size (list_to_set (ids (n_CausalSet nr) ++ ids (n_CausalSet nw)) : gset Z) ≤ CausalSetCap) :
  let st := (file_open_stage hex evr nowr (file_write_stage evw noww (g, f))).2 in
  ∃ n', nodes st.1 !! ev_PID evr = Some n' ∧
    ids (n_CausalSet nr) ⊆ ids (n_CausalSet n') ∧ ids (n_CausalSet nw) ⊆ ids (n_CausalSet n').
Proof.
  destruct Hsets as [Hcw Hcr]. assert (n_PrimarySource nw ≠ 0%Z) as Hpr.
  { intros H0. rewrite H0 in Hattr. by destruct Hcw as (_ & _ & ?). }
  destruct (write_stage_record evw noww g f nw Hw Hnw Hcw Hpr Hf) as (f' & -> & Httl & Hrec).
  assert (ft_Lookup (tag evr "path") nowr f' =
    Some {| LastWriterPrimary := n_PrimarySource nw; fp_Set := n_CausalSet nw; SetHash := Hash (n_CausalSet nw);
            RecordedAt := ev_Time evw |}) as Hl.
  { unfold ft_Lookup, Str.empty. destruct Hr as (_ & _ & _ & _ & Hp). rewrite bool_decide_eq_false_2 by done.
    rewrite Hpath, Hrec, Htime, Httl. cbn [RecordedAt].
    by rewrite (proj2 (Z.ltb_ge _ _) Hlife). }
  destruct (open_stage_source hex evr nowr g f' nr _ Hr Hnr Hl Hpr) as (n' & Hn' & _ & Hcs).
  exists n'. split; [done|]. cbn [fp_Set LastWriterPrimary] in Hcs. rewrite Hcs.
  destruct (adds_fit (ids (n_CausalSet nw)) (n_CausalSet nr) Hcr Hfit) as [H1 H2].
  assert (ids (n_CausalSet nw) ⊆ ids (adds (ids (n_CausalSet nw)) (n_CausalSet nr))) as H3.
  { intros x Hx. apply H2; [done|]. intros ->. by destruct Hcw as (_ & _ & ?). }
  destruct (cs_Add_cases (n_PrimarySource nw) (adds (ids (n_CausalSet nw)) (n_CausalSet nr)))
    as [(_ & ->)|[(_ & Hn & _)|(_ & Hn & _)]]; [done|by destruct Hn; apply H3..].
Qed.

(** Opening a file changes who a process belongs to.  Against the comment on
    the stage, which says that a reader keeps its primary source if it has one,
    a reader that opens a path another source wrote takes that writer's primary
    source in place of its own, whatever its own was. *)
Theorem reader_primary_overwritten (hex : Z → string) (evw evr : Event) (noww nowr : Time.time)
    (g : Graph) (f : FileTaint) (nw nr : Node)
    (Hw : is_fim_write evw) (Hr : is_tracked_open evr) (Hpath : tag evr "path" = tag evw "path")
    (Hnw : nodes g !! ev_PID evw = Some nw) (Hnr : nodes g !! ev_PID evr = Some nr)
    (Hcw : cs_ok (n_CausalSet nw)) (Hpw : n_PrimarySource nw ≠ 0%Z)
    (Hown : n_PrimarySource nr ≠ 0%Z ∧ n_PrimarySource nr ≠ n_PrimarySource nw)
    (Hf : ft_ok f) (Htime : Time.IsZero (ev_Time evw) = false)
    (Hlife : (Time.Sub nowr (ev_Time evw) ≤ ft_ttl f)%Z) :
  let st := (file_open_stage hex evr nowr (file_write_stage evw noww (g, f))).2 in
  (SourceOf (ev_PID evr) g).1 = n_PrimarySource nr ∧
  (SourceOf (ev_PID evr) st.1).1 = n_PrimarySource nw ∧ n_PrimarySource nw ≠ n_PrimarySource nr.
Proof.
  destruct (write_stage_record evw noww g f nw Hw Hnw Hcw Hpw Hf) as (f' & -> & Httl & Hrec).
  assert (ft_Lookup (tag evr "path") nowr f' =
    Some {| LastWriterPrimary := n_PrimarySource nw; fp_Set := n_CausalSet nw; SetHash := Hash (n_CausalSet nw);
            RecordedAt := ev_Time evw |}) as Hl.
  { unfold ft_Lookup, Str.empty. destruct Hr as (_ & _ & _ & _ & Hp). rewrite bool_decide_eq_false_2 by done.
    rewrite Hpath, Hrec, Htime, Httl. cbn [RecordedAt].
    by rewrite (proj2 (Z.ltb_ge _ _) Hlife). }
  destruct (open_stage_source hex evr nowr g f' nr _ Hr Hnr Hl Hpw) as (n' & Hn' & Hp' & _).
  intros st. unfold SourceOf. subst st. rewrite Hnr, Hn'. destruct Hown. cbn. done.
Qed.

(** ** Witnesses *)

Module Demo.

(** leaves by insertion sort on the last event *)
Definition proc (pid ppid primary : Z) : Node :=
  {| n_PID := pid; n_PPID := ppid; n_Comm := "sh"; n_Image := "/bin/sh"; n_UID := 0; n_StartNs := 0;
     n_Argv := []; n_CGroupID := 0; n_Container := ""; n_Children := ∅; n_FirstSeen := 1; n_LastEvent := 1;
     n_PrimarySource := primary; n_CausalSet := NewCausalSet [primary] |}.

(** leaves in the order of their last event *)
Definition last_of (m : gmap Z Node) (k : Z) : Time.time := from_option n_LastEvent 0%Z (m !! k).
Definition earlier (m : gmap Z Node) (a b : Z) : Prop := (last_of m a ≤ last_of m b)%Z.

#[export] Instance earlier_dec m : RelDecision (earlier m).
Proof. intros a b. unfold earlier. apply _. Defined.
#[export] Instance earlier_total m : Total (earlier m).
Proof. intros a b. unfold earlier. lia. Qed.
#[export] Instance earlier_trans m : Transitive (earlier m).
Proof. intros a b c. unfold earlier. lia. Qed.

Definition by_event (m : gmap Z Node) : list Z :=
  merge_sort (earlier m) (some_order (filter (λ x, is_leaf x.2 = true) m)).

Lemma by_event_ok (m : gmap Z Node) : leaf_order m (by_event m).
Proof.
  unfold by_event. destruct (some_order_ok (filter (λ x, is_leaf x.2 = true) m)) as [Hnd Hin]. split_and!.
  - by rewrite merge_sort_Permutation.
  - intros k. rewrite merge_sort_Permutation, Hin. split.
    + intros [n [Hn Hl]%map_lookup_filter_Some]. by exists n.
    + intros (n & Hn & Hl). exists n. by apply map_lookup_filter_Some.
  - rewrite <-(list_fmap_id (merge_sort _ _)). eapply StronglySorted_fmap; [|apply (StronglySorted_merge_sort (earlier m))].
    intros a b Hab na nb Ha Hb. cbn [id] in *. unfold earlier, last_of in Hab. by rewrite Ha, Hb in Hab.
Qed.

Definition ev (sensor : string) (pid : Z) (tags : list (string * string)) : Event :=
  {| ev_ID := 1; ev_Time := 100; ev_Sensor := sensor; ev_Severity := SeverityInfo;
     ev_Verdict := VerdictUnknown; ev_Host := ""; ev_PID := pid; ev_TID := 0; ev_Comm := "";
     ev_UID := 0; ev_GID := 0; ev_CGroupID := 0; ev_Container := ""; ev_Image := "";
     ev_ParentPID := 0; ev_ProcTree := []; ev_Rule := ""; ev_Tags := list_to_map tags |}.

Definition spawns : list pt_op := [PSpawn (proc 10 1 7) 1; PSpawn (proc 20 1 8) 2; PSpawn (proc 30 20 0) 3].
Definition g : Graph := foldl (pt_exec by_event) (NewGraph 2) [PSpawn (proc 10 1 7) 1; PSpawn (proc 20 1 8) 2].
Definition f : FileTaint := NewFileTaint 8 1000.
Definition w : Event := ev "fim" 10 [("write", "true"); ("path", "/etc/cron.d/job")].
Definition r : Event := ev "ebpf" 20 [("kind", "file_open"); ("path", "/etc/cron.d/job")].

Lemma f_ok : ft_ok f.
Proof.
  split; [by apply (bool_decide_unpack (1 ≤ ft_cap f)); vm_compute|]. split; [constructor|].
  split; [intros p; cbn; rewrite lookup_empty; split; [by intros ?%elem_of_nil|by intros []]|].
  by apply (bool_decide_unpack (size (paths f) ≤ ft_cap f)); vm_compute.
Qed.

End Demo.

Lemma graph_within_cap_witness :
  let g := foldl (pt_exec Demo.by_event) (NewGraph 2) Demo.spawns in
  pt_Count g = 2 ∧ (Z.of_nat (pt_Count g) ≤ 2)%Z.
Proof.
  split; [by vm_compute|].
  apply (graph_within_cap Demo.by_event Demo.by_event_ok 2 Demo.spawns). by repeat constructor.
Defined.

Lemma eviction_keeps_ancestors_witness :
  Ancestors 20 0 (evictLocked Demo.by_event Demo.g) = Ancestors 20 0 Demo.g.
Proof.
  apply (eviction_keeps_ancestors Demo.by_event Demo.by_event_ok 2 Demo.g 20 0).
  - apply (reach_step Demo.by_event 2 _ (PSpawn (Demo.proc 20 1 8) 2)).
    + apply (reach_step Demo.by_event 2 _ (PSpawn (Demo.proc 10 1 7) 1)); [constructor|]. split_and!; [done|done|].
      by intros p n' Hp.
    + split_and!; [by vm_compute|done|]. intros p n' Hp Hpp.
      assert (nodes (pt_exec Demo.by_event (NewGraph 2) (PSpawn (Demo.proc 10 1 7) 1)) =
              {[10%Z := own_source (with_times 1 1 (Demo.proc 10 1 7))]}) as He by by vm_compute.
      rewrite He in Hp. apply lookup_singleton_Some in Hp as [<- <-]. vm_compute in Hpp. discriminate Hpp.
  - vm_compute. eexists. reflexivity.
Defined.

Lemma file_taint_reaches_reader_witness :
  ∃ n', nodes (file_open_stage Str.itoa Demo.r 200 (file_write_stage Demo.w 150 (Demo.g, Demo.f))).2.1 !! 20%Z = Some n' ∧
    ids (n_CausalSet (own_source (with_times 1 2 (Demo.proc 20 1 8)))) ⊆ ids (n_CausalSet n') ∧
    ids (n_CausalSet (own_source (with_times 1 1 (Demo.proc 10 1 7)))) ⊆ ids (n_CausalSet n').
Proof.
  apply (file_taint_reaches_reader Str.itoa Demo.w Demo.r 150 200 Demo.g Demo.f
    (own_source (with_times 1 1 (Demo.proc 10 1 7))) (own_source (with_times 1 2 (Demo.proc 20 1 8)))).
  - split_and!; [by apply (bool_decide_unpack (_ ∈ _)); vm_compute|done|by vm_compute|done].
  - split_and!; [done|by vm_compute|done|by vm_compute|by vm_compute].
  - by vm_compute.
  - by vm_compute.
  - by vm_compute.
  - split; apply (NewCausalSet_ok [_]).
  - by apply (bool_decide_unpack (_ ∈ _)); vm_compute.
  - exact Demo.f_ok.
  - by vm_compute.
  - by vm_compute.
  - by apply (bool_decide_unpack (_ ≤ _)); vm_compute.
Defined.

Lemma reader_primary_overwritten_witness :
  let st := (file_open_stage Str.itoa Demo.r 200 (file_write_stage Demo.w 150 (Demo.g, Demo.f))).2 in
  (SourceOf 20 Demo.g).1 = 8%Z ∧ (SourceOf 20 st.1).1 = 7%Z ∧ 7%Z ≠ 8%Z.
Proof.
  apply (reader_primary_overwritten Str.itoa Demo.w Demo.r 150 200 Demo.g Demo.f
    (own_source (with_times 1 1 (Demo.proc 10 1 7))) (own_source (with_times 1 2 (Demo.proc 20 1 8)))).
  - split_and!; [by apply (bool_decide_unpack (_ ∈ _)); vm_compute|done|by vm_compute|done].
  - split_and!; [done|by vm_compute|done|by vm_compute|by vm_compute].
  - by vm_compute.
  - by vm_compute.
  - by vm_compute.
  - apply (NewCausalSet_ok [_]).
  - done.
  - done.
  - exact Demo.f_ok.
  - by vm_compute.
  - by vm_compute.
Defined.
