(* ===== verification/Process.v ===== *)
(** * Processes through the pipeline (src/pkg/pipeline, src/pkg/source/mint.go)

    What Handle does with the process graph, in its order: the burst counters,
    the open of a written file, the exit clean-up, the write of a file, the
    minting of an anchor, the graph itself, the target of a ptrace, the stamp of
    a connection.  The pipeline has all its parts.  Clock readings, the fresh
    anchor id and whether the anchor store took it are the environment of an
    event.  The live graph is in HotGraph; the package lifecycle and the stages
    that touch neither a process nor these tags are left out. *)

From S2P Require Import Prelude GoStd Bytes Model Decoder Burst Provenance.

(** ** Anchors minted from identity events (mint.go) *)

Inductive mint_kind : Type := MintSSH | MintPAM | MintSudo | MintCron | MintSystemd.

#[export] Instance mint_kind_eq_dec : EqDecision mint_kind.
Proof. solve_decision. Defined.

Definition kindFromEventTags (ev : Event) : option mint_kind :=
  let service := tag ev "service" in
  if bool_decide (service = "sshd") then
    if bool_decide (tag ev "outcome" = "success") then Some MintSSH else None
  else if bool_decide (service = "pam") then
    if bool_decide (tag ev "pam_type" = "session_open") then Some MintPAM else None
  else if bool_decide (service = "sudo") || bool_decide (service = "su") then
    if negb (Str.empty (tag ev "target_user")) then Some MintSudo else None
  else if bool_decide (service = "cron") then Some MintCron
  else if bool_decide (service = "systemd") then
    if bool_decide (tag ev "unit_action" = "start") then Some MintSystemd else None
  else None.

(** ** State and environment *)

Record procs := { ps_tree : Graph; ps_files : FileTaint; ps_spawn : Counter; ps_reads : Counter }.

Definition with_tree (g : Graph) (s : procs) : procs :=
  {| ps_tree := g; ps_files := ps_files s; ps_spawn := ps_spawn s; ps_reads := ps_reads s |}.
Definition with_ps_files (st : Graph * FileTaint) (s : procs) : procs :=
  {| ps_tree := st.1; ps_files := st.2; ps_spawn := ps_spawn s; ps_reads := ps_reads s |}.
Definition with_bursts (spawn reads : Counter) (s : procs) : procs :=
  {| ps_tree := ps_tree s; ps_files := ps_files s; ps_spawn := spawn; ps_reads := reads |}.

(** when the record was read and when the event is handled (one reading each),
    the fresh lineage id, whether its anchor was stored, the id of the alert's
    event *)
Record env := { e_read : Time.time; e_now : Time.time; e_anchor : Z; e_stored : bool; e_alert : Z }.

Section stages.
Context (leaves : gmap Z Node → list Z).

(** ** Stages *)

Definition emitBurst (x : env) (trigger : Event) (ruleID : string) (pid count : Z) (reason : string) (sev : Severity) : Alert :=
  let ev := {|
    ev_ID := e_alert x; ev_Time := e_now x; ev_Sensor := "burstdet"; ev_Severity := sev; ev_Verdict := VerdictUnknown;
    ev_Host := ev_Host trigger; ev_PID := pid; ev_TID := 0; ev_Comm := ev_Comm trigger; ev_UID := ev_UID trigger; ev_GID := 0;
    ev_CGroupID := 0; ev_Container := ""; ev_Image := ev_Image trigger; ev_ParentPID := 0; ev_ProcTree := ev_ProcTree trigger;
    ev_Rule := "";
    ev_Tags := <["kind" := ruleID]> (<["count" := Str.itoa count]> (<["reason" := reason]>
                 (<["trigger_sensor" := ev_Sensor trigger]> ∅))) |} in
  {| al_Event := ev; al_RuleID := ruleID; al_Reason := reason; al_EvidenceIDs := []; al_Mode := ModeDetect; al_Action := "";
     al_Class := 2 |}.

Definition spawn_burst (x : env) (ev : Event) (c : Counter) : Counter * list Alert :=
  if bool_decide (ev_Sensor ev = "ebpf.proc") && bool_decide (tag ev "kind" = "proc_spawn") && negb (ev_ParentPID ev =? 0)%Z
  then let '(c', (cross, count)) := burst_Observe (ev_ParentPID ev) (e_now x) c in
       (c', if cross then [emitBurst x ev "process_spawn_burst" (ev_ParentPID ev) count
                             "PID spawned >threshold children in window" SeverityWarn] else [])
  else (c, []).

Definition read_burst (x : env) (ev : Event) (c : Counter) : Counter * list Alert :=
  if bool_decide (ev_Sensor ev = "ebpf") && bool_decide (tag ev "kind" = "file_open")
  then let '(c', (cross, count)) := burst_Observe (ev_PID ev) (e_now x) c in
       (c', if cross then [emitBurst x ev "file_read_burst" (ev_PID ev) count
                             "PID opened >threshold files in window" SeverityHigh] else [])
  else (c, []).

Definition exit_cleanup (ev : Event) (s : procs) : procs :=
  if bool_decide (ev_Sensor ev = "ebpf.proc") && bool_decide (tag ev "kind" = "proc_exit")
  then with_bursts (burst_Forget (ev_PID ev) (ps_spawn s)) (burst_Forget (ev_PID ev) (ps_reads s)) s
  else s.

Definition burst_stage (x : env) (ev : Event) (s : procs) : Event * procs * list Alert :=
  if negb (ev_PID ev =? 0)%Z && negb (bool_decide (tag ev "jit_allowlisted" = "true")) then
    let '(spawn, al1) := spawn_burst x ev (ps_spawn s) in
    let '(reads, al2) := read_burst x ev (ps_reads s) in
    let s := with_bursts spawn reads s in
    let '(ev, st) := file_open_stage hex16 ev (e_now x) (ps_tree s, ps_files s) in
    (ev, exit_cleanup ev (with_ps_files st s), al1 ++ al2)
  else (ev, s, []).

Definition write_stage (x : env) (ev : Event) (s : procs) : procs :=
  with_ps_files (file_write_stage ev (e_now x) (ps_tree s, ps_files s)) s.

(** a minted anchor stamped on the event and given to its process *)
Definition mint_stage (x : env) (ev : Event) (s : procs) : Event * procs :=
  match kindFromEventTags ev with
  | None => (ev, s)
  | Some _ =>
      if e_stored x && negb (e_anchor x =? 0)%Z then
        (set_tag "source_anchor_id" (Str.itoa (e_anchor x)) ev,
         if negb (ev_PID ev =? 0)%Z then with_tree (AttributeSource (ev_PID ev) (e_anchor x) (e_now x) (ps_tree s)) s else s)
      else (ev, s)
  end.

(** the anchor a spawn event carries, 0 when it carries none *)
Definition explicit_source (ev : Event) : Z :=
  if Str.empty (tag ev "source_anchor_id") then 0%Z else default 0%Z (Str.ParseUint 64 (tag ev "source_anchor_id")).

Definition spawn_node (ev : Event) : Node := {|
  n_PID := ev_PID ev; n_PPID := ev_ParentPID ev; n_Comm := ev_Comm ev; n_Image := tag ev "image"; n_UID := ev_UID ev;
  n_StartNs := 0; n_Argv := []; n_CGroupID := ev_CGroupID ev; n_Container := ev_Container ev; n_Children := ∅;
  n_FirstSeen := Time.zero; n_LastEvent := Time.zero; n_PrimarySource := explicit_source ev; n_CausalSet := EmptySet |}.

Definition tree_stage (x : env) (ev : Event) (s : procs) : procs :=
  let g := ps_tree s in
  with_tree
    (if bool_decide (ev_Sensor ev = "ebpf.spawn") || bool_decide (ev_Sensor ev = "ebpf.proc")
     then OnSpawn leaves (spawn_node ev) (e_now x) g
     else if bool_decide (ev_Sensor ev = "ebpf.exit") then OnExit (ev_PID ev) g
     else pt_Touch (ev_PID ev) (e_now x) g) s.

Definition parseUint32 (s : string) : Z := if Str.empty s then 0%Z else Str.scan_uint 32 s.

(** the target of a ptrace takes over the attacker's source *)
Definition ptrace_stage (x : env) (ev : Event) (s : procs) : procs :=
  let target := parseUint32 (tag ev "ptrace_target_pid") in
  if bool_decide (tag ev "ptrace_attach" = "true") && negb (target =? 0)%Z then
    let '(primary, cs) := SourceOf (ev_PID ev) (ps_tree s) in
    let g := if negb (primary =? 0)%Z then AttributeSource target primary (e_now x) (ps_tree s) else ps_tree s in
    with_tree (if negb (IsEmpty cs) then (MergeCausalSet target cs g).1 else g) s
  else s.

(** a connection carries the source of its process *)
Definition connect_stage (ev : Event) (s : procs) : Event :=
  if bool_decide (ev_Sensor ev = "ebpf.net") && bool_decide (tag ev "kind" = "net_connect") && negb (ev_PID ev =? 0)%Z then
    let '(primary, cs) := SourceOf (ev_PID ev) (ps_tree s) in
    if negb (primary =? 0)%Z then
      let ev := set_tag "source_set_hash" (hex16 (Hash cs)) (set_tag "source_anchor_id" (Str.itoa primary) ev) in
      if Ambiguous cs then set_tag "source_ambiguous" "true" ev else ev
    else ev
  else ev.

(** one event through all of them *)
Definition process_path (x : env) (ev : Event) (s : procs) : Event * procs * list Alert :=
  let '(ev, s, al) := burst_stage x ev s in
  let s := write_stage x ev s in
  let '(ev, s) := mint_stage x ev s in
  let s := ptrace_stage x ev (tree_stage x ev s) in
  (connect_stage ev s, s, al).

(** ** Streams of kernel records *)

Context (fs : procfs).

(** the backend's loop: a record that does not decode is counted and dropped *)
Definition feed (s : procs) (r : env * Z * bytes) : procs :=
  let '(x, id, raw) := r in
  match Decode fs id (e_read x) raw with
  | None => s
  | Some ev => (process_path x ev s).1.2
  end.

Definition feed_all (rs : list (env * Z * bytes)) (s : procs) : procs := foldl feed s rs.

End stages.

(** ** What kernel records look like to the stages *)

(** the sensors the decoder knows *)
Definition kernel_sensors : list string :=
  ["ebpf.proc"; "ebpf.file"; "ebpf.net"; "ebpf.cap"; "ebpf.ns"; "ebpf.ssl"; "ebpf.module"; "ebpf.self"; "ebpf.memory";
   "ebpf.procscrape"; "ebpf"].

Lemma sensorForKind_in (k : Z) : sensorForKind k ∈ kernel_sensors.
Proof.
  apply (switch_cases (λ s, s ∈ kernel_sensors)); [repeat (apply Forall_cons_2; [by apply (bool_decide_unpack _)|]); apply Forall_nil_2|].
  by apply (bool_decide_unpack _).
Qed.

(** only a file open is named so, and its sensor is not plain ebpf *)
Lemma open_kind (k : Z) : EventKind_String k = "file_open" → sensorForKind k = "ebpf.file".
Proof.
  intros H. apply (switch_key _ _ _ [KindFileOpen]) in H; [|by apply (bool_decide_unpack _)|done].
  cbn in H. rewrite orb_false_r in H. apply Z.eqb_eq in H as ->. done.
Qed.

(** only an exit is named so, and its sensor is plain ebpf *)
Lemma exit_kind (k : Z) : EventKind_String k = "proc_exit" → sensorForKind k = "ebpf".
Proof.
  intros H. apply (switch_key _ _ _ [KindProcExit]) in H; [|by apply (bool_decide_unpack _)|done].
  cbn in H. rewrite orb_false_r in H. apply Z.eqb_eq in H as ->. done.
Qed.

(** an event of the kernel backend, as far as the stages can tell *)
Record kernel_event (ev : Event) : Prop := {
  ke_sensor : ev_Sensor ev ∈ kernel_sensors;
  ke_open : tag ev "kind" = "file_open" → ev_Sensor ev = "ebpf.file";
  ke_exit : tag ev "kind" = "proc_exit" → ev_Sensor ev = "ebpf";
  ke_service : tag ev "service" = ""; ke_anchor : tag ev "source_anchor_id" = "" }.

Lemma Decode_kernel (fs : procfs) (id : Z) (now : Time.time) (raw : bytes) (ev : Event) :
  Decode fs id now raw = Some ev → kernel_event ev.
Proof.
  intros (h & _ & _ & He & Hs & Hk)%Decode_some. constructor.
  - rewrite Hs. apply sensorForKind_in.
  - rewrite Hs, Hk. apply open_kind.
  - rewrite Hs, Hk. apply exit_kind.
  - apply (reserved_empty _ _ _ _ _ He); by apply (bool_decide_unpack _).
  - apply (reserved_empty _ _ _ _ _ He); by apply (bool_decide_unpack _).
Qed.

Lemma attribute_dom (pid id now : Z) (g : Graph) : dom (nodes (AttributeSource pid id now g)) = dom (nodes g).
Proof.
  unfold AttributeSource. destruct (id =? 0)%Z; [done|]. destruct (nodes g !! pid) eqn:Hn; [|done]. cbn.
  apply dom_insert_lookup_L. by eexists.
Qed.

Lemma merge_dom (pid : Z) (cs : CausalSet) (g : Graph) : dom (nodes (MergeCausalSet pid cs g).1) = dom (nodes g).
Proof.
  unfold MergeCausalSet. destruct (IsEmpty cs); [done|]. destruct (nodes g !! pid) as [n|] eqn:Hn; [|done].
  destruct (Merge cs (n_CausalSet n)). cbn. apply dom_insert_lookup_L. by eexists.
Qed.

Lemma attribute_cap (pid id now : Z) (g : Graph) : g_cap (AttributeSource pid id now g) = g_cap g.
Proof. unfold AttributeSource. destruct (id =? 0)%Z; [done|]. by destruct (nodes g !! pid). Qed.

Lemma merge_cap (pid : Z) (cs : CausalSet) (g : Graph) : g_cap (MergeCausalSet pid cs g).1 = g_cap g.
Proof.
  unfold MergeCausalSet. destruct (IsEmpty cs); [done|]. destruct (nodes g !! pid) as [n|]; [|done].
  by destruct (Merge cs (n_CausalSet n)).
Qed.

Section kernel.
Context (leaves : gmap Z Node → list Z).

Lemma kernel_not (ev : Event) (s : string) : kernel_event ev → s ∉ kernel_sensors → ev_Sensor ev ≠ s.
Proof. intros [Hin] Hs Heq. rewrite Heq in Hin. by apply Hs. Qed.

Ltac not_a_sensor := apply kernel_not; [assumption|by apply (bool_decide_unpack _)].

(** neither the read burst nor the file tracker ever sees one *)
Lemma kernel_open (hex : Z → string) (x : env) (ev : Event) (s : procs) :
  kernel_event ev → read_burst x ev (ps_reads s) = (ps_reads s, []) ∧
  file_open_stage hex ev (e_now x) (ps_tree s, ps_files s) = (ev, (ps_tree s, ps_files s)).
Proof.
  intros Hk. unfold read_burst, file_open_stage.
  destruct (bool_decide (ev_Sensor ev = "ebpf") && bool_decide (tag ev "kind" = "file_open")) eqn:Hc; [|done].
  apply andb_prop in Hc as [Hs Ho]. apply bool_decide_eq_true in Hs, Ho. apply (ke_open _ Hk) in Ho. congruence.
Qed.

Lemma kernel_cleanup (ev : Event) (s : procs) : kernel_event ev → exit_cleanup ev s = s.
Proof.
  intros Hk. unfold exit_cleanup.
  destruct (bool_decide (ev_Sensor ev = "ebpf.proc") && bool_decide (tag ev "kind" = "proc_exit")) eqn:Hc; [|done].
  apply andb_prop in Hc as [Hs Ho]. apply bool_decide_eq_true in Hs, Ho. apply (ke_exit _ Hk) in Ho. congruence.
Qed.

Lemma kernel_write (x : env) (ev : Event) (s : procs) : kernel_event ev → write_stage x ev s = s.
Proof.
  intros Hk. unfold write_stage, file_write_stage. rewrite !bool_decide_false by not_a_sensor. cbn. by destruct s.
Qed.

Lemma kernel_mint (x : env) (ev : Event) (s : procs) : kernel_event ev → mint_stage x ev s = (ev, s).
Proof. intros Hk. unfold mint_stage, kindFromEventTags. by rewrite (ke_service _ Hk). Qed.

(** what is left of the path for an event of the kernel *)
Lemma kernel_path (x : env) (ev : Event) (s : procs) :
  kernel_event ev →
  ∃ spawn, (process_path leaves x ev s).1.2 = ptrace_stage x ev (tree_stage leaves x ev (with_bursts spawn (ps_reads s) s)) ∧
    (spawn = ps_spawn s ∨ ∃ pid, spawn = (burst_Observe pid (e_now x) (ps_spawn s)).1).
Proof.
  intros Hk. unfold process_path, burst_stage.
  destruct (negb (ev_PID ev =? 0)%Z && negb (bool_decide (tag ev "jit_allowlisted" = "true"))).
  - destruct (spawn_burst x ev (ps_spawn s)) as [spawn al] eqn:Hb. destruct (kernel_open hex16 x ev s Hk) as [Hr _]. rewrite Hr.
    destruct (kernel_open hex16 x ev (with_bursts spawn (ps_reads s) s) Hk) as [_ Hf]. cbn [ps_tree ps_files with_bursts] in Hf.
    cbn [ps_tree ps_files with_bursts]. rewrite Hf. cbn [with_ps_files ps_spawn ps_reads fst snd].
    rewrite kernel_cleanup, kernel_write, kernel_mint by done. exists spawn. split; [done|].
    revert Hb. unfold spawn_burst. destruct (_ && _ && _); [|intros [= <- _]; by left].
    destruct (burst_Observe (ev_ParentPID ev) (e_now x) (ps_spawn s)) as [c [cross count]] eqn:Ho. intros [= <- _].
    right. exists (ev_ParentPID ev). by rewrite Ho.
  - rewrite kernel_write, kernel_mint by done. exists (ps_spawn s). split; [by destruct s|by left].
Qed.

Lemma ptrace_keeps (x : env) (ev : Event) (s : procs) :
  ps_spawn (ptrace_stage x ev s) = ps_spawn s ∧ ps_reads (ptrace_stage x ev s) = ps_reads s ∧
  ps_files (ptrace_stage x ev s) = ps_files s ∧
  dom (nodes (ps_tree (ptrace_stage x ev s))) = dom (nodes (ps_tree s)) ∧ g_cap (ps_tree (ptrace_stage x ev s)) = g_cap (ps_tree s).
Proof.
  unfold ptrace_stage. destruct (_ && _); [|done]. destruct (SourceOf _ _) as [primary cs]. cbn [with_tree ps_spawn ps_reads ps_files ps_tree].
  split_and!; [done..| |].
  - destruct (IsEmpty cs), (primary =? 0)%Z; cbn [negb]; by rewrite ?merge_dom, ?attribute_dom.
  - destruct (IsEmpty cs), (primary =? 0)%Z; cbn [negb]; by rewrite ?merge_cap, ?attribute_cap.
Qed.

Lemma spawn_dom (n : Node) (now : Time.time) (g : Graph) :
  (Z.of_nat (size (nodes g)) < g_cap g)%Z →
  dom (nodes g) ⊆ dom (nodes (OnSpawn leaves n now g)) ∧ size (nodes (OnSpawn leaves n now g)) ≤ S (size (nodes g)) ∧
  g_cap (OnSpawn leaves n now g) = g_cap g.
Proof.
  intros Hcap. unfold OnSpawn.
  set (n1 := with_times (if Time.IsZero (n_FirstSeen n) then now else n_FirstSeen n) now n).
  assert (∃ m n2, (match nodes g !! n_PPID n with
                   | Some parent => (<[n_PPID n:=add_child (n_PID n) parent]> (nodes g), inherit parent n1)
                   | None => (nodes g, n1)
                   end) = (m, n2) ∧ dom m = dom (nodes g) ∧ size m = size (nodes g)) as (m & n2 & -> & Hdom & Hsize).
  { destruct (nodes g !! n_PPID n) as [par|] eqn:Hp; eexists _, _; (split; [done|]); [|done].
    rewrite map_size_insert, Hp. split; [|done]. apply dom_insert_lookup_L. by eexists. }
  cbn [nodes set_nodes].
  assert (size (<[n_PID n:=own_source n2]> m) ≤ S (size (nodes g))) as Hs.
  { rewrite map_size_insert, Hsize. destruct (m !! n_PID n); unfold id; lia. }
  rewrite (proj2 (Z.ltb_ge _ _)) by lia. cbn [nodes set_nodes g_cap]. split_and!; [|done|done].
  rewrite dom_insert_L, Hdom. set_solver.
Qed.

Lemma tree_dom (x : env) (ev : Event) (s : procs) :
  kernel_event ev → (Z.of_nat (size (nodes (ps_tree s))) < g_cap (ps_tree s))%Z →
  let s' := tree_stage leaves x ev s in
  dom (nodes (ps_tree s)) ⊆ dom (nodes (ps_tree s')) ∧ size (nodes (ps_tree s')) ≤ S (size (nodes (ps_tree s))) ∧
  g_cap (ps_tree s') = g_cap (ps_tree s).
Proof.
  intros Hk Hcap. unfold tree_stage. cbn [with_tree ps_tree].
  rewrite (bool_decide_false (ev_Sensor ev = "ebpf.exit")) by not_a_sensor.
  destruct (_ || _); [by apply spawn_dom|]. unfold pt_Touch. cbn [nodes set_nodes g_cap].
  split_and!; [by rewrite dom_alter_L| |done]. rewrite <-!size_dom, dom_alter_L. lia.
Qed.

Context (fs : procfs).

Lemma feed_monotone (r : env * Z * bytes) (s : procs) :
  (Z.of_nat (size (nodes (ps_tree s))) < g_cap (ps_tree s))%Z →
  let s' := feed leaves fs s r in
  ps_reads s' = ps_reads s ∧ ps_files s' = ps_files s ∧
  dom (c_events (ps_spawn s)) ⊆ dom (c_events (ps_spawn s')) ∧ dom (nodes (ps_tree s)) ⊆ dom (nodes (ps_tree s')) ∧
  size (nodes (ps_tree s')) ≤ S (size (nodes (ps_tree s))) ∧ g_cap (ps_tree s') = g_cap (ps_tree s).
Proof.
  intros Hcap. destruct r as [[x id] raw]. unfold feed.
  destruct (Decode fs id (e_read x) raw) as [ev|] eqn:Hd; [|split_and!; (done || lia)].
  apply Decode_kernel in Hd. destruct (kernel_path x ev s Hd) as (spawn & -> & Hspawn).
  set (s1 := with_bursts spawn (ps_reads s) s).
  destruct (ptrace_keeps x ev (tree_stage leaves x ev s1)) as (-> & -> & -> & -> & ->).
  assert (∀ (g : Graph), size (nodes g) = size (dom (nodes g))) as Hsz by (intros; by rewrite size_dom).
  destruct (tree_dom x ev s1 Hd Hcap) as (H1 & H2 & H3).
  destruct (ptrace_keeps x ev (tree_stage leaves x ev s1)) as (_ & _ & _ & Hpd & _).
  split_and!; try done.
  - cbn. destruct Hspawn as [->|[pid ->]]; [done|]. cbn. rewrite dom_insert_L. set_solver.
  - rewrite Hsz, Hpd, <-Hsz. exact H2.
Qed.

(** the daemon never learns that a process ended.  Whatever records the
    kernel programs send, exits and file opens among them, the file-read burst
    counter and the provenance of files stay as they were; a process that the
    spawn counter tracks is never forgotten by an exit; and, as long as the
    graph has room, no process leaves it.  The decoder names an exit's sensor
    "ebpf" and a file open's "ebpf.file", and the stages wait for "ebpf.exit",
    "ebpf.proc" and "ebpf". *)
Theorem kernel_exits_go_unseen (rs : list (env * Z * bytes)) (s : procs) :
  (Z.of_nat (size (nodes (ps_tree s)) + length rs) ≤ g_cap (ps_tree s))%Z →
  let s' := feed_all leaves fs rs s in
  ps_reads s' = ps_reads s ∧ ps_files s' = ps_files s ∧
  dom (c_events (ps_spawn s)) ⊆ dom (c_events (ps_spawn s')) ∧ dom (nodes (ps_tree s)) ⊆ dom (nodes (ps_tree s')).
Proof.
  revert s. induction rs as [|r rs IH]; intros s Hcap; [done|]. cbn [length] in Hcap.
  destruct (feed_monotone r s ltac:(lia)) as (H1 & H2 & H3 & H4 & H5 & H6). cbn [feed_all foldl] in *.
  destruct (IH (feed leaves fs s r)) as (G1 & G2 & G3 & G4); [rewrite H6; lia|]. unfold feed_all in *.
  split_and!; [congruence|congruence|set_solver|set_solver].
Qed.

(** records of the sensor "ebpf.proc" that are not spawns and trace nobody *)
Definition credential_kinds : list Z := [KindProcCred; KindMount].

Lemma credential_payload (k : Z) (b : bytes) (ev : Event) :
  k ∈ credential_kinds → tag ev "ptrace_attach" = "false" →
  tag (decode_payload fs k b ev) "ptrace_attach" = "false".
Proof.
  intros Hk Ht. unfold credential_kinds in Hk. rewrite !elem_of_cons in Hk. destruct Hk as [->|[->|Hk%elem_of_nil]]; [| |done].
  - change (decode_payload fs KindProcCred b ev) with (decodeProcCred b ev). unfold decodeProcCred, tag_if, sev_if.
    destruct (_ <? _)%nat; [done|]. cbv zeta. destruct (_ && _); autorewrite with xh; exact Ht.
  - change (decode_payload fs KindMount b ev) with (set_tag "mount" "true" ev). by autorewrite with xh.
Qed.

Lemma inherited_set (cs : CausalSet) :
  cs_ok cs → (if IsEmpty EmptySet && negb (IsEmpty cs) then (Merge cs EmptySet).1 else EmptySet) = cs.
Proof.
  intros Hok. cbn [IsEmpty EmptySet ids length Nat.eqb andb]. destruct (IsEmpty cs) eqn:He; cbn [negb].
  - unfold IsEmpty in He. apply Nat.eqb_eq, length_zero_iff_nil in He. destruct cs. cbn in *. by subst.
  - rewrite Merge_fst. exact (NewCausalSet_id cs Hok).
Qed.

(** a node put in again takes over its parent's source and nothing else *)
Lemma respawn_source (ev : Event) (now : Time.time) (g : Graph) (par : Node) :
  ev_PID ev ≠ ev_ParentPID ev → explicit_source ev = 0%Z → is_Some (nodes g !! ev_PID ev) →
  nodes g !! ev_ParentPID ev = Some par → cs_ok (n_CausalSet par) →
  (n_PrimarySource par ≠ 0%Z → n_PrimarySource par ∈ ids (n_CausalSet par)) →
  (Z.of_nat (size (nodes g)) ≤ g_cap g)%Z →
  ∃ n, nodes (OnSpawn leaves (spawn_node ev) now g) !! ev_PID ev = Some n ∧ n_Children n = ∅ ∧
       n_PrimarySource n = n_PrimarySource par ∧ n_CausalSet n = n_CausalSet par.
Proof.
  intros Hne Hx Hin Hpar Hok Hprim Hcap. unfold OnSpawn. cbn [n_PPID spawn_node]. rewrite Hpar. cbn [n_PID n_FirstSeen].
  set (n2 := inherit par _).
  assert (n_PrimarySource n2 = n_PrimarySource par ∧ n_CausalSet n2 = n_CausalSet par ∧ n_Children n2 = ∅) as (H1 & H2 & H3).
  { unfold n2, inherit. cbn [n_PrimarySource n_CausalSet with_source with_times n_Children spawn_node]. rewrite Hx. cbn [Z.eqb andb].
    split_and!; [|by apply inherited_set|done].
    destruct (n_PrimarySource par =? 0)%Z eqn:Hz; bool_to_prop; done. }
  cbn [nodes set_nodes]. rewrite (proj2 (Z.ltb_ge _ _)).
  2:{ rewrite !map_size_insert_Some; [exact Hcap|by eexists|]. rewrite lookup_insert_ne by done. exact Hin. }
  cbn [nodes set_nodes]. rewrite lookup_insert_eq. eexists. split; [done|]. unfold own_source. rewrite H1, H2.
  destruct (n_PrimarySource par =? 0)%Z eqn:Hz; bool_to_prop; [done|].
  cbn [n_Children n_PrimarySource n_CausalSet with_source]. split_and!; [exact H3|done|]. unfold cs_Add.
  rewrite (proj2 (Z.eqb_neq _ _)) by done. by rewrite (proj2 (cs_Contains_spec _ _) (Hprim Hz)).
Qed.

(** C39: a credential change erases the attribution of a process.  Whatever source
    a process had been given - by the login that minted its anchor, a file it
    read, a tracer - one record of it changing its uid (or mounting) makes the
    graph take it for a new child: its children are lost, and its source is its
    parent's again.  The stages re-run the spawn on every event of the sensor
    "ebpf.proc". *)
Theorem credential_change_erases_source (h : xhEventHdr) (payload : bytes) (x : env) (id : Z) (s : procs) (par : Node) :
  hdr_ok h → h_Kind h ∈ credential_kinds → h_PID h ≠ h_PPID h →
  is_Some (nodes (ps_tree s) !! h_PID h) → nodes (ps_tree s) !! h_PPID h = Some par →
  cs_ok (n_CausalSet par) → (n_PrimarySource par ≠ 0%Z → n_PrimarySource par ∈ ids (n_CausalSet par)) →
  (Z.of_nat (size (nodes (ps_tree s))) ≤ g_cap (ps_tree s))%Z →
  let s' := feed leaves fs s (x, id, hdr_bytes h ++ payload) in
  SourceOf (h_PID h) (ps_tree s') = SourceOf (h_PPID h) (ps_tree s) ∧
  ∃ n, nodes (ps_tree s') !! h_PID h = Some n ∧ n_Children n = ∅.
Proof.
  intros Hh Hk Hne Hin Hpar Hok Hprim Hcap s'.
  destruct (proj1 (record_identity_survives fs id (e_read x) h payload Hh))
    as (ev & Hev & _ & Hpid & _ & Hppid & _ & _ & _ & _ & Hs & _).
  assert (ps_tree s' = OnSpawn leaves (spawn_node ev) (e_now x) (ps_tree s)) as Htree.
  { assert (ev = decode_payload fs (h_Kind h) payload (base_event id (e_read x) h)) as Heq
      by (rewrite Decode_hdr in Hev by done; congruence).
    assert (tag ev "ptrace_attach" = "false") as Hpt.
    { rewrite Heq. apply credential_payload; [done|]. apply base_bool. by apply (bool_decide_unpack _). }
    assert (ev_Sensor ev = "ebpf.proc") as Hproc.
    { rewrite Hs. unfold credential_kinds in Hk. rewrite !elem_of_cons in Hk. by destruct Hk as [->|[->|?%elem_of_nil]]. }
    unfold s', feed. rewrite Hev. destruct (kernel_path x ev s (Decode_kernel _ _ _ _ _ Hev)) as (spawn & -> & _).
    unfold ptrace_stage. rewrite Hpt. cbn [bool_decide andb]. unfold tree_stage. rewrite Hproc. done. }
  destruct (respawn_source ev (e_now x) (ps_tree s) par) as (n & Hn & Hch & Hp & Hc); rewrite ?Hpid, ?Hppid; try done.
  { unfold explicit_source. pose proof (Decode_kernel _ _ _ _ _ Hev) as Hke. by rewrite (ke_anchor _ Hke). }
  rewrite Hpid in Hn. rewrite Htree. split.
  - unfold SourceOf. by rewrite Hn, Hpar, Hp, Hc.
  - by exists n.
Qed.
End kernel.

(** sshd (pid 100, source 7) and the shell of a login (pid 4242, source 9) *)
Module Demo.
Definition no_leaves (_ : gmap Z Node) : list Z := [].

Definition node (pid ppid src : Z) (ch : gset Z) : Node := {|
  n_PID := pid; n_PPID := ppid; n_Comm := "bash"; n_Image := ""; n_UID := 1000; n_StartNs := 0; n_Argv := []; n_CGroupID := 0;
  n_Container := ""; n_Children := ch; n_FirstSeen := 1; n_LastEvent := 1; n_PrimarySource := src; n_CausalSet := {| ids := [src] |} |}.

Definition tree : Graph := set_nodes (<[100 := node 100 1 7 {[4242]}]> (<[4242 := node 4242 100 9 {[4300]}]> ∅))%Z (NewGraph 0).

Definition state : procs := {|
  ps_tree := tree; ps_files := NewFileTaint 0 0;
  ps_spawn := (burst_Observe 4242 5 (NewCounter burst_Defaults.2)).1; ps_reads := NewCounter burst_Defaults.1 |}.

Definition env0 : env := {| e_read := 10; e_now := 11; e_anchor := 50; e_stored := true; e_alert := 60 |}.

Definition hdr (kind : Z) : xhEventHdr := {|
  h_TsNs := 10; h_Kind := kind; h_PID := 4242; h_TID := 4242; h_PPID := 100; h_UID := 1000; h_GID := 1000; h_CGroupID := 0;
  h_Comm := to_array 16 (bytes_of "bash") |}.

(** setuid(0) *)
Definition setuid : bytes := le_enc 4 1000 ++ le_enc 4 0.

(** the shell opens its history, then exits *)
Definition records : list (env * Z * bytes) :=
  [(env0, 61%Z, hdr_bytes (hdr KindFileOpen) ++ to_array 260 (bytes_of "/home/u/.bash_history"));
   (env0, 62%Z, hdr_bytes (hdr KindProcExit))].
End Demo.

Lemma Demo_hdr_fits (k : Z) : (0 ≤ k < 2 ^ 32)%Z → hdr_ok (Demo.hdr k).
Proof. intros Hk. constructor; [split; done..| |done]. repeat (apply Forall_cons_2; [split; first [done|apply Hk]|]). apply Forall_nil_2. Qed.

Lemma kernel_exits_go_unseen_witness :
  let s' := feed_all Demo.no_leaves Decoder.Demo.fs Demo.records Demo.state in
  (∃ ev, Decode Decoder.Demo.fs 62 10 (hdr_bytes (Demo.hdr KindProcExit)) = Some ev ∧ tag ev "kind" = "proc_exit") ∧
  ps_reads s' = ps_reads Demo.state ∧ 4242%Z ∈ dom (c_events (ps_spawn s')) ∧ 4242%Z ∈ dom (nodes (ps_tree s')).
Proof.
  intros s'. split; [eexists; split; vm_compute; reflexivity|].
  destruct (kernel_exits_go_unseen Demo.no_leaves Decoder.Demo.fs Demo.records Demo.state) as (H1 & _ & H2 & H3);
    [vm_compute; discriminate|].
  split; [exact H1|]. split; [apply H2|apply H3]; apply (bool_decide_unpack _); vm_compute; exact I.
Defined.

Lemma credential_change_erases_source_witness :
  SourceOf 4242 (ps_tree Demo.state) = (9%Z, {| ids := [9%Z] |}) ∧
  SourceOf 4242 (ps_tree (feed Demo.no_leaves Decoder.Demo.fs Demo.state
                            (Demo.env0, 63%Z, hdr_bytes (Demo.hdr KindProcCred) ++ Demo.setuid))) = (7%Z, {| ids := [7%Z] |}).
Proof.
  split; [vm_compute; reflexivity|].
  destruct (credential_change_erases_source Demo.no_leaves Decoder.Demo.fs (Demo.hdr KindProcCred) Demo.setuid Demo.env0 63 Demo.state
              (Demo.node 100 1 7 {[4242%Z]}) (Demo_hdr_fits 3 ltac:(split; [discriminate|reflexivity]))) as [H _].
  - apply (bool_decide_unpack _); vm_compute; exact I.
  - discriminate.
  - eexists. vm_compute. reflexivity.
  - vm_compute. reflexivity.
  - split_and!; [apply (bool_decide_unpack _); vm_compute; exact I|apply (bool_decide_unpack _); vm_compute; exact I|].
    apply (bool_decide_unpack _); vm_compute; exact I.
  - intros _. apply (bool_decide_unpack _); vm_compute; exact I.
  - vm_compute. discriminate.
  - etrans; [exact H|]. vm_compute. reflexivity.
Defined.
