(* ===== verification/LineageStore.v ===== *)
(** * Lineages: chains, origins and data-class taint (src/pkg/lineage)

    A lineage id names the event that ultimately caused something; a chain lists
    the ids from the outermost in.  The store keeps where each lineage came from
    and which data classes it touched, as a 64-bit set; the registry assigns the
    bits.  The clock is an argument. *)

From S2P Require Import Prelude GoStd Bytes.

(** ** Root types and chains (lineage.go) *)

Definition RootType_String (r : Z) : string :=
  match nth_error ["unknown"; "ssh"; "pam"; "cron"; "systemd"; "container"; "sudo"; "web"; "local"; "kernel"] (Z.to_nat r) with
  | Some s => s
  | None => "unknown"
  end.

Definition chain := list Z.

Definition Extend (c : chain) (newID : Z) : chain := c ++ [newID].
Definition Innermost (c : chain) : Z := default 0%Z (last c).
Definition Outermost (c : chain) : Z := default 0%Z (head c).
Definition chain_Contains (c : chain) (id : Z) : bool := existsb (λ x, (x =? id)%Z) c.

Fixpoint chain_Equal (c other : chain) : bool :=
  match c, other with
  | [], [] => true
  | x :: c, y :: other => (x =? y)%Z && chain_Equal c other
  | _, _ => false
  end.

Definition chain_String (c : chain) : string :=
  match c with [] => "(none)" | _ => Str.Join (Str.itoa <$> c) ">" end.

(** the empty chain is the nil slice *)
Definition Marshal (c : chain) : bytes := concat (le_enc 8 <$> c).

Fixpoint read_ids (n : nat) (b : bytes) : chain :=
  match n with O => [] | S n => le_dec (take 8 b) :: read_ids n (drop 8 b) end.

(** [None] is the error of a length that is no multiple of 8 *)
Definition UnmarshalChain (b : bytes) : option chain :=
  if (length b mod 8 =? 0)%nat then Some (read_ids (length b / 8) b) else None.

(** ** Taint sets (taint.go) *)

Definition MaxTaintBits : nat := 64.

Section sets.
Local Open Scope Z_scope.

Definition bit (b : Z) : Z := u64 (Z.shiftl 1 b).
Definition Has (t b : Z) : bool := negb (Z.land t (bit b) =? 0).
Definition With (t b : Z) : Z := Z.lor t (bit b).
Definition Union (t o : Z) : Z := Z.lor t o.
Definition Intersects (t o : Z) : bool := negb (Z.land t o =? 0).
Definition ts_IsEmpty (t : Z) : bool := t =? 0.

Definition ts_Count (t : Z) : Z :=
  let x := t in
  let x := u64 (x - Z.land (Z.shiftr x 1) 0x5555555555555555) in
  let x := u64 (Z.land x 0x3333333333333333 + Z.land (Z.shiftr x 2) 0x3333333333333333) in
  let x := Z.land (u64 (x + Z.shiftr x 4)) 0x0f0f0f0f0f0f0f0f in
  Z.shiftr (u64 (x * 0x0101010101010101)) 56.

Definition Bits (t : Z) : list Z := filter (λ b, Has t b = true) (Z.of_nat <$> seq 0 MaxTaintBits).
End sets.

(** ** The class registry (taint.go) *)

Record ClassRegistry := { byName : gmap string Z; byBit : list string; next : nat }.

Definition NewClassRegistry : ClassRegistry := {| byName := ∅; byBit := replicate MaxTaintBits ""; next := 0 |}.

(** [None] is the error of a full registry *)
Definition Bit (name : string) (r : ClassRegistry) : option Z * ClassRegistry :=
  match byName r !! name with
  | Some b => (Some b, r)
  | None =>
      if (MaxTaintBits <=? next r)%nat then (None, r)
      else let b := Z.of_nat (next r) in
           (Some b, {| byName := <[name := b]> (byName r); byBit := <[next r := name]> (byBit r); next := S (next r) |})
  end.

Definition bit_name (b : Z) (r : ClassRegistry) : string :=
  if (Z.of_nat MaxTaintBits <=? b)%Z then "" else default "" (byBit r !! Z.to_nat b).

(** the set, and whether some name found no bit *)
Definition SetFromNames (names : list string) (r : ClassRegistry) : Z * bool * ClassRegistry :=
  foldl (λ acc n,
    let '(ts, failed, r) := acc in
    let '(b, r) := Bit n r in
    match b with Some b => (With ts b, failed, r) | None => (ts, true, r) end) (0%Z, false, r) names.

Definition reg_Names (r : ClassRegistry) : list string := (λ i, default "" (byBit r !! i)) <$> seq 0 (next r).

Definition NamesOf (t : Z) (r : ClassRegistry) : list string :=
  filter (λ n, n ≠ "") ((λ b, default "" (byBit r !! Z.to_nat b)) <$> Bits t).

Definition reg_Size (r : ClassRegistry) : nat := next r.

(** ** Origins and taints (lineage.go) *)

Record Origin := {
  o_ID : Z; o_Type : Z; o_CreatedAt : Time.time; o_UserName : string; o_UID : Z; o_LoginUID : Z;
  o_SourceIP : string; o_SourcePort : Z; o_SSHKeyHash : string; o_PAMSessionID : Z; o_CronEntry : string;
  o_SystemdUnit : string; o_ContainerID : string; o_PodID : string; o_HTTPRequestID : string;
  o_Method : string; o_Path : string; o_EscalatedFromUID : Z; o_EscalatedFromName : string
}.

Definition created_at (t : Time.time) (o : Origin) : Origin := {|
  o_ID := o_ID o; o_Type := o_Type o; o_CreatedAt := t; o_UserName := o_UserName o; o_UID := o_UID o;
  o_LoginUID := o_LoginUID o; o_SourceIP := o_SourceIP o; o_SourcePort := o_SourcePort o;
  o_SSHKeyHash := o_SSHKeyHash o; o_PAMSessionID := o_PAMSessionID o; o_CronEntry := o_CronEntry o;
  o_SystemdUnit := o_SystemdUnit o; o_ContainerID := o_ContainerID o; o_PodID := o_PodID o;
  o_HTTPRequestID := o_HTTPRequestID o; o_Method := o_Method o; o_Path := o_Path o;
  o_EscalatedFromUID := o_EscalatedFromUID o; o_EscalatedFromName := o_EscalatedFromName o |}.

(** [counter] is the last id given *)
Definition NewMinter (now : Time.time) : Z := u64 now.
Definition mint (counter : Z) : Z * Z := let c := u64 (counter + 1) in (c, c).

Record LineageStore := { origins : gmap Z Origin; taints : gmap Z Z }.

Definition NewStore : LineageStore := {| origins := ∅; taints := ∅ |}.

Definition Put (o : Origin) (now : Time.time) (s : LineageStore) : LineageStore :=
  if (o_ID o =? 0)%Z then s
  else
    let o := if Time.IsZero (o_CreatedAt o) then created_at now o else o in
    {| origins := <[o_ID o := o]> (origins s); taints := taints s |}.

Definition Get (id : Z) (s : LineageStore) : option Origin := origins s !! id.

Definition Resolve (c : chain) (s : LineageStore) : list Origin := omap (λ id, origins s !! id) c.

Definition expired (cutoff : Time.time) (o : Origin) : bool := Time.Before (o_CreatedAt o) cutoff.

(** the origins older than the cutoff go, their taints with them *)
Definition SweepOlderThan (cutoff : Time.time) (s : LineageStore) : LineageStore * nat :=
  let gone := filter (λ p, expired cutoff p.2 = true) (origins s) in
  ({| origins := filter (λ p, expired cutoff p.2 = false) (origins s);
      taints := filter (λ p, gone !! p.1 = None) (taints s) |}, size gone).

Definition ls_Size (s : LineageStore) : nat := size (origins s).

Definition Taint (id : Z) (s : LineageStore) : Z := default 0%Z (taints s !! id).

Definition AddTaint (id mask : Z) (s : LineageStore) : Z * LineageStore :=
  if (id =? 0)%Z || ts_IsEmpty mask then (Taint id s, s)
  else let merged := Z.lor (Taint id s) mask in
       (merged, {| origins := origins s; taints := <[id := merged]> (taints s) |}).

Definition TaintOfChain (c : chain) (s : LineageStore) : Z := foldl (λ out id, Z.lor out (Taint id s)) 0%Z c.

Definition TaintedCount (s : LineageStore) : nat := size (filter (λ p, ts_IsEmpty p.2 = false) (taints s)).

Fixpoint insert_entry (e : Z * Z) (l : list (Z * Z)) : list (Z * Z) :=
  match l with
  | [] => [e]
  | d :: l => if (e.1 <? d.1)%Z then e :: d :: l else d :: insert_entry e l
  end.

Definition sortTaintEntries (l : list (Z * Z)) : list (Z * Z) := foldl (λ acc e, insert_entry e acc) [] l.

(** [ord] is the order a range over the taints takes *)
Definition TaintsSnapshot (ord : gmap Z Z → list Z) (s : LineageStore) : list (Z * Z) :=
  sortTaintEntries (filter (λ e, ts_IsEmpty e.2 = false) ((λ id, (id, Taint id s)) <$> ord (taints s))).

(** ** Chains survive their encoding *)

Definition id_ok (z : Z) : Prop := (0 ≤ z < 2 ^ 64)%Z.

Lemma Marshal_length (c : chain) : length (Marshal c) = length c * 8.
Proof. unfold Marshal. induction c as [|x c IH]; [done|]. cbn [fmap list_fmap concat]. rewrite length_app, le_enc_length, IH. cbn. lia. Qed.

Lemma read_ids_app (c : chain) (b : bytes) : Forall id_ok c → read_ids (length c) (Marshal c ++ b) = c.
Proof.
  induction 1 as [|x c Hx _ IH]; [done|]. unfold Marshal. cbn [length read_ids fmap list_fmap concat]. rewrite <- app_assoc.
  rewrite take_app_length' by (by rewrite le_enc_length). rewrite drop_app_length' by (by rewrite le_enc_length).
  f_equal; [|exact IH]. apply le_dec_enc_small. unfold id_ok in Hx. lia.
Qed.

(** A chain of lineage ids is read back from its encoding unchanged, and no
    two chains share an encoding. *)
Theorem chain_round_trips (c : chain) : Forall id_ok c → UnmarshalChain (Marshal c) = Some c.
Proof.
  intros Hc. unfold UnmarshalChain. rewrite Marshal_length, Nat.Div0.mod_mul, Nat.div_mul by done. cbn [Nat.eqb].
  by rewrite <- (app_nil_r (Marshal c)), read_ids_app.
Qed.

(** ** Counting bits *)

Section count.
Local Open Scope Z_scope.

(** [m] in each of the low [n] bytes *)
Fixpoint rep (m : Z) (n : nat) : Z := match n with O => 0 | S n => m + 256 * rep m n end.

Definition byte (b : Z) : Prop := 0 ≤ b < 256.

Lemma land_byte (b m t u : Z) : byte b → byte m → Z.land (b + 256 * t) (m + 256 * u) = Z.land b m + 256 * Z.land t u.
Proof.
  intros Hb Hm. assert (Hl : byte (Z.land b m)).
  { unfold byte. split; [by apply Z.land_nonneg; left; apply Hb|].
    destruct (decide (Z.land b m = 0)) as [->|Hne]; [lia|].
    apply Z.log2_lt_cancel. change (Z.log2 256) with 8. eapply Z.le_lt_trans; [apply Z.log2_land; [apply Hb|apply Hm]|].
    apply Z.min_lt_iff. left. destruct (decide (b = 0)) as [->|]; [done|]. apply Z.log2_lt_pow2; unfold byte in *; lia. }
  apply Z.bits_inj'. intros i Hi.
  assert (Hbit : ∀ x y, byte x → Z.testbit (x + 256 * y) i = if (i <? 8) then Z.testbit x i else Z.testbit y (i - 8)).
  { intros x y Hx. change 256 with (2 ^ 8). rewrite Z.mul_comm. destruct (Z.ltb_spec i 8).
    - rewrite <- (Z.mod_pow2_bits_low (x + y * 2 ^ 8) 8 i) by lia. rewrite Z.mod_add by lia.
      by rewrite Z.mod_pow2_bits_low by lia.
    - rewrite <- (Z.sub_add 8 i) at 1. rewrite <- Z.div_pow2_bits by lia. rewrite Z.div_add by lia.
      rewrite (Z.div_small x) by (unfold byte in Hx; lia). by rewrite Z.add_0_l. }
  rewrite Z.land_spec, !Hbit by done. destruct (Z.ltb_spec i 8); by rewrite Z.land_spec.
Qed.

Lemma land_low (x m j : Z) : 0 ≤ j → 0 ≤ m < 2 ^ j → Z.land x m = Z.land (x mod 2 ^ j) m.
Proof.
  intros Hj Hm. rewrite <- Z.land_ones by done. rewrite <- Z.land_assoc. f_equal.
  rewrite Z.land_comm, Z.land_ones by done. by rewrite Z.mod_small.
Qed.

(** a shift under a mask stays within the bytes *)
Lemma shift_byte (b m t u k : Z) :
  byte b → 0 ≤ t → 0 ≤ k < 8 → 0 ≤ m < 2 ^ (8 - k) →
  Z.land (Z.shiftr (b + 256 * t) k) (m + 256 * u) = Z.land (Z.shiftr b k) m + 256 * Z.land (Z.shiftr t k) u.
Proof.
  intros Hb Ht Hk Hm. rewrite !Z.shiftr_div_pow2 by lia.
  assert (H2 : 2 ^ (8 - k) * 2 ^ k = 256) by (rewrite <- Z.pow_add_r by lia; by replace (8 - k + k) with 8 by lia).
  assert (Hpk : 0 < 2 ^ k) by (by apply Z.pow_pos_nonneg; lia).
  assert (Hp8 : 0 < 2 ^ (8 - k)) by (by apply Z.pow_pos_nonneg; lia).
  pose proof (Z.mod_pos_bound t (2 ^ k) Hpk) as Hmod. unfold byte in Hb.
  assert (Hb8 : 0 ≤ b / 2 ^ k < 2 ^ (8 - k)).
  { split; [apply Z.div_pos; lia|]. apply Z.div_lt_upper_bound; [done|]. rewrite Z.mul_comm, H2. lia. }
  assert (Hdiv : (b + 256 * t) / 2 ^ k = (b / 2 ^ k + 2 ^ (8 - k) * (t mod 2 ^ k)) + 256 * (t / 2 ^ k)).
  { replace (b + 256 * t) with (b + (2 ^ (8 - k) * t) * 2 ^ k) by (rewrite <- H2; ring). rewrite Z.div_add by lia.
    rewrite (Z.div_mod t (2 ^ k)) at 1 by lia. rewrite <- H2. ring. }
  rewrite Hdiv, land_byte.
  - f_equal. rewrite (land_low _ m (8 - k)) by lia. rewrite Z.mul_comm, Z.mod_add by lia. by rewrite Z.mod_small.
  - unfold byte. nia.
  - unfold byte. split; [lia|]. eapply Z.lt_le_trans; [apply Hm|]. change 256 with (2 ^ 8). apply Z.pow_le_mono_r; lia.
Qed.

(** the three steps on one byte *)
Definition step1 (b : Z) : Z := b - Z.land (Z.shiftr b 1) 0x55.
Definition step2 (b : Z) : Z := Z.land b 0x33 + Z.land (Z.shiftr b 2) 0x33.
Definition step3 (b : Z) : Z := Z.land (b + Z.shiftr b 4) 0x0f.

Definition all_bytes : list Z := Z.of_nat <$> seq 0 256.

Lemma byte_cases (P : Z → bool) : forallb P all_bytes = true → ∀ b, byte b → P b = true.
Proof.
  intros Hall b Hb. rewrite forallb_forall in Hall. apply Hall. apply list_elem_of_In, list_elem_of_fmap.
  exists (Z.to_nat b). unfold byte in Hb. split; [lia|]. apply elem_of_seq. lia.
Qed.

(** the number of bits of a byte *)
Definition ones8 (b : Z) : Z := Z.of_nat (length (filter (λ i, Z.testbit b i = true) (Z.of_nat <$> seq 0 8))).

Lemma bytes_steps (b : Z) : byte b →
  0 ≤ step1 b < 256 ∧ 0 ≤ step2 (step1 b) ≤ 0x44 ∧ step3 (step2 (step1 b)) = ones8 b ∧ 0 ≤ ones8 b ≤ 8 ∧
  Z.land (Z.shiftr b 1) 0x55 ≤ b ∧ Z.land (step2 (step1 b)) 0x0f + Z.land (Z.shiftr (step2 (step1 b)) 4) 0x0f = ones8 b.
Proof.
  intros Hb.
  assert (Hc : (let s1 := step1 b in let s2 := step2 s1 in
    (0 <=? s1) && (s1 <? 256) && (0 <=? s2) && (s2 <=? 0x44) && (step3 s2 =? ones8 b) && (0 <=? ones8 b) && (ones8 b <=? 8) &&
    (Z.land (Z.shiftr b 1) 0x55 <=? b) && (Z.land s2 0x0f + Z.land (Z.shiftr s2 4) 0x0f =? ones8 b)) = true).
  { apply (byte_cases (λ b, let s1 := step1 b in let s2 := step2 s1 in
    (0 <=? s1) && (s1 <? 256) && (0 <=? s2) && (s2 <=? 0x44) && (step3 s2 =? ones8 b) && (0 <=? ones8 b) && (ones8 b <=? 8) &&
    (Z.land (Z.shiftr b 1) 0x55 <=? b) && (Z.land s2 0x0f + Z.land (Z.shiftr s2 4) 0x0f =? ones8 b))); [by vm_compute|done]. }
  cbv zeta in Hc. repeat (apply andb_true_iff in Hc as [Hc ?]). bool_to_prop. lia.
Qed.

Lemma step1_bytes (bs : list Z) : Forall byte bs →
  le_dec bs - Z.land (Z.shiftr (le_dec bs) 1) (rep 0x55 (length bs)) = le_dec (step1 <$> bs).
Proof.
  induction 1 as [|b bs Hb Hbs IH]; [done|]. cbn [le_dec length rep fmap list_fmap].
  pose proof (le_dec_bound bs Hbs). rewrite shift_byte by (done || lia). rewrite <- IH. unfold step1. lia.
Qed.

Lemma step2_bytes (bs : list Z) : Forall byte bs →
  Z.land (le_dec bs) (rep 0x33 (length bs)) + Z.land (Z.shiftr (le_dec bs) 2) (rep 0x33 (length bs)) = le_dec (step2 <$> bs).
Proof.
  induction 1 as [|b bs Hb Hbs IH]; [done|]. cbn [le_dec length rep fmap list_fmap].
  pose proof (le_dec_bound bs Hbs). rewrite shift_byte by (done || lia). rewrite land_byte by done. rewrite <- IH. unfold step2. lia.
Qed.

(** both halves of the byte hold at most 4 *)
Definition nibbles (b : Z) : Prop := 0 ≤ b ≤ 0x44 ∧ b mod 16 ≤ 4.

Lemma step2_nibbles (b : Z) : byte b → nibbles (step2 (step1 b)).
Proof.
  intros Hb. assert (Hc : (let s := step2 (step1 b) in (0 <=? s) && (s <=? 0x44) && (s mod 16 <=? 4)) = true).
  { apply (byte_cases (λ b, let s := step2 (step1 b) in (0 <=? s) && (s <=? 0x44) && (s mod 16 <=? 4))); [by vm_compute|done]. }
  cbv zeta in Hc. repeat (apply andb_true_iff in Hc as [Hc ?]). bool_to_prop. split; lia.
Qed.

Lemma step3_bytes (bs : list Z) : Forall nibbles bs →
  Z.land (le_dec bs + Z.shiftr (le_dec bs) 4) (rep 0x0f (length bs)) = le_dec (step3 <$> bs).
Proof.
  induction 1 as [|b bs [Hb Hb16] Hbs IH]; [done|]. cbn [le_dec length rep fmap list_fmap]. rewrite <- IH.
  assert (Hnn : 0 ≤ le_dec bs) by (apply (le_dec_bound bs); eapply Forall_impl; [exact Hbs|]; intros x [? _]; unfold byte_ok; lia).
  assert (Hlow : le_dec bs mod 16 ≤ 4).
  { destruct Hbs as [|c cs [Hc Hc16] _]; [done|]. cbn [le_dec]. replace (c + 256 * le_dec cs) with (c + 16 * le_dec cs * 16) by ring.
    by rewrite Z.mod_add. }
  pose proof (Z.mod_pos_bound (le_dec bs) 16 ltac:(lia)) as Hlow0.
  assert (Hsh : Z.shiftr (b + 256 * le_dec bs) 4 = (b / 16 + 16 * (le_dec bs mod 16)) + 256 * (le_dec bs / 16)).
  { rewrite Z.shiftr_div_pow2 by lia. change (2 ^ 4) with 16. replace (b + 256 * le_dec bs) with (b + (16 * le_dec bs) * 16) by ring.
    rewrite Z.div_add by lia. rewrite (Z.div_mod (le_dec bs) 16) at 1 by lia. ring. }
  assert (Hq : 0 ≤ b / 16 ≤ 4) by (split; [apply Z.div_pos; lia|]; apply Z.lt_succ_r, Z.div_lt_upper_bound; lia).
  rewrite Hsh. replace (b + 256 * le_dec bs + (b / 16 + 16 * (le_dec bs mod 16) + 256 * (le_dec bs / 16)))
    with ((b + b / 16 + 16 * (le_dec bs mod 16)) + 256 * (le_dec bs + le_dec bs / 16)) by ring.
  rewrite land_byte by (unfold byte; lia). unfold step3. rewrite !Z.shiftr_div_pow2 by lia. change (2 ^ 4) with 16. f_equal.
  rewrite (land_low (b + b / 16 + _) 0x0f 4), (land_low (b + b / 16) 0x0f 4) by lia. f_equal. change (2 ^ 4) with 16.
  rewrite Z.mul_comm. by rewrite Z.mod_add.
Qed.

(** the product gathers the sum of the bytes in the top one *)
Lemma top_byte (c0 c1 c2 c3 c4 c5 c6 c7 : Z) :
  0 ≤ c0 ≤ 8 → 0 ≤ c1 ≤ 8 → 0 ≤ c2 ≤ 8 → 0 ≤ c3 ≤ 8 → 0 ≤ c4 ≤ 8 → 0 ≤ c5 ≤ 8 → 0 ≤ c6 ≤ 8 → 0 ≤ c7 ≤ 8 →
  Z.shiftr (u64 (le_dec [c0; c1; c2; c3; c4; c5; c6; c7] * 0x0101010101010101)) 56 = c0 + c1 + c2 + c3 + c4 + c5 + c6 + c7.
Proof.
  intros. rewrite Z.shiftr_div_pow2 by lia. cbn [le_dec].
  set (low := c0 + 256 * ((c0 + c1) + 256 * ((c0 + c1 + c2) + 256 * ((c0 + c1 + c2 + c3) + 256 * ((c0 + c1 + c2 + c3 + c4) +
    256 * ((c0 + c1 + c2 + c3 + c4 + c5) + 256 * (c0 + c1 + c2 + c3 + c4 + c5 + c6))))))).
  set (hi := (c1 + c2 + c3 + c4 + c5 + c6 + c7) + 256 * ((c2 + c3 + c4 + c5 + c6 + c7) + 256 * ((c3 + c4 + c5 + c6 + c7) +
    256 * ((c4 + c5 + c6 + c7) + 256 * ((c5 + c6 + c7) + 256 * ((c6 + c7) + 256 * c7)))))).
  set (sum := c0 + c1 + c2 + c3 + c4 + c5 + c6 + c7).
  assert (Hlow : 0 ≤ low < 2 ^ 56) by (subst low; lia).
  assert (Hsum : 0 ≤ sum ≤ 64) by (subst sum; lia).
  match goal with |- u64 ?x / _ = _ => assert (Hx : x = (low + sum * 2 ^ 56) + hi * 2 ^ 64) by (subst low hi sum; ring) end.
  rewrite Hx. unfold u64. rewrite Z.mod_add by done. rewrite Z.mod_small by lia.
  rewrite Z.div_add by done. rewrite Z.div_small by done. done.
Qed.

Lemma bits_of_bytes (bs : list Z) : Forall byte bs →
  Z.of_nat (length (filter (λ i, Z.testbit (le_dec bs) i = true) (Z.of_nat <$> seq 0 (8 * length bs)))) = sumZ (ones8 <$> bs).
Proof.
  induction 1 as [|b bs Hb Hbs IH]; [done|]. replace (8 * length (b :: bs))%nat with (8 + 8 * length bs)%nat by (cbn [length]; lia).
  rewrite seq_app, fmap_app, filter_app, length_app, Nat2Z.inj_add. cbn [fmap list_fmap sumZ foldr le_dec].
  assert (Hlow : ∀ i, 0 ≤ i < 8 → Z.testbit (b + 256 * le_dec bs) i = Z.testbit b i).
  { intros i Hi. change 256 with (2 ^ 8). rewrite Z.mul_comm. rewrite <- (Z.mod_pow2_bits_low _ 8 i) by lia. rewrite Z.mod_add by lia.
    by rewrite Z.mod_pow2_bits_low by lia. }
  assert (Hhigh : ∀ i, 0 ≤ i → Z.testbit (b + 256 * le_dec bs) (8 + i) = Z.testbit (le_dec bs) i).
  { intros i Hi. change 256 with (2 ^ 8). rewrite Z.mul_comm, (Z.add_comm 8 i). rewrite <- Z.div_pow2_bits by lia. rewrite Z.div_add by lia.
    rewrite (Z.div_small b) by (unfold byte in Hb; lia). by rewrite Z.add_0_l. }
  f_equal.
  - unfold ones8. f_equal. f_equal. apply filter_ext_in. intros i Hi. apply list_elem_of_fmap in Hi as (k & -> & Hk%elem_of_seq).
    by rewrite Hlow by lia.
  - unfold sumZ in IH. rewrite <- IH. f_equal. change (0 + 8)%nat with (8 + 0)%nat. rewrite <- (fmap_add_seq 8 0).
    rewrite !length_filter_fmap. f_equal. apply filter_ext_in. intros k _. cbn beta.
    replace (Z.of_nat (8 + k)) with (8 + Z.of_nat k) by lia. by rewrite Hhigh by lia.
Qed.
End count.

Lemma Has_testbit (t b : Z) : (0 ≤ b < 64)%Z → Has t b = Z.testbit t b.
Proof.
  intros Hb. unfold Has, bit.
  assert (Hp : u64 (Z.shiftl 1 b) = (2 ^ b)%Z).
  { rewrite Z.shiftl_1_l. apply u64_small. split; [lia|]. apply Z.pow_lt_mono_r; lia. }
  rewrite Hp. destruct (Z.testbit t b) eqn:Ht; [apply negb_true_iff, Z.eqb_neq|apply negb_false_iff, Z.eqb_eq].
  - intros H0. apply (f_equal (λ z, Z.testbit z b)) in H0. rewrite Z.land_spec, Ht, Z.pow2_bits_true, Z.bits_0 in H0 by lia. done.
  - apply Z.bits_inj'. intros i Hi. rewrite Z.land_spec, Z.bits_0, Z.pow2_bits_eqb by lia.
    destruct (Z.eqb_spec b i) as [<-|]; [by rewrite Ht|by rewrite andb_false_r].
Qed.

Lemma elem_of_Bits (t b : Z) : b ∈ Bits t ↔ (0 ≤ b < 64)%Z ∧ Z.testbit t b = true.
Proof.
  unfold Bits. rewrite list_elem_of_filter, list_elem_of_fmap. split.
  - intros [Hh (i & -> & Hi%elem_of_seq)]. unfold MaxTaintBits in Hi. rewrite Has_testbit in Hh by lia. split; [lia|done].
  - intros [Hb Ht]. rewrite Has_testbit by done. split; [done|]. exists (Z.to_nat b). split; [lia|].
    apply elem_of_seq. unfold MaxTaintBits. lia.
Qed.

Lemma le_enc_bytes (n : nat) (z : Z) : Forall byte (le_enc n z).
Proof.
  revert z. induction n as [|n IH]; intros z; cbn [le_enc]; constructor; [|done].
  unfold byte. pose proof (Z.mod_pos_bound z 256). lia.
Qed.

(** C19: The count of a taint set, computed with masks, shifts and one product that
    wraps around, is the number of bits that are set, for every 64-bit set. *)
Theorem count_is_exact (t : Z) : (0 ≤ t < 2 ^ 64)%Z → ts_Count t = Z.of_nat (length (Bits t)).
Proof.
  intros Ht. set (bs := le_enc 8 t).
  assert (Hbs : Forall byte bs) by apply le_enc_bytes.
  assert (Hlen : length bs = 8) by apply le_enc_length.
  assert (Hval : le_dec bs = t) by (apply le_dec_enc_small; exact Ht).
  assert (Hbits : Z.of_nat (length (Bits t)) = sumZ (ones8 <$> bs)).
  { rewrite <- bits_of_bytes, Hval, Hlen by done. do 2 f_equal. apply filter_ext_in.
    intros b Hb. apply list_elem_of_fmap in Hb as (i & -> & Hi%elem_of_seq). unfold MaxTaintBits in Hi. by rewrite Has_testbit by lia. }
  rewrite Hbits. unfold ts_Count. cbv zeta.
  pose proof (step1_bytes bs Hbs) as H1. rewrite Hlen, Hval in H1. change (rep 0x55 8) with 0x5555555555555555%Z in H1.
  set (b1 := step1 <$> bs) in *.
  assert (Hb1 : Forall byte b1).
  { apply Forall_fmap. eapply Forall_impl; [exact Hbs|]. intros b Hb. apply (bytes_steps b Hb). }
  assert (Hl1 : length b1 = 8) by (unfold b1; by rewrite length_fmap).
  pose proof (le_dec_bound b1 Hb1) as Hd1. rewrite Hl1 in Hd1. rewrite H1, (u64_small (le_dec b1)) by exact Hd1.
  pose proof (step2_bytes b1 Hb1) as H2. rewrite Hl1 in H2. change (rep 0x33 8) with 0x3333333333333333%Z in H2.
  rewrite H2. set (b2 := step2 <$> b1) in *.
  assert (Hn2 : Forall nibbles b2).
  { unfold b2, b1. rewrite <- list_fmap_compose. apply Forall_fmap. eapply Forall_impl; [exact Hbs|]. apply step2_nibbles. }
  assert (Hb2 : Forall byte b2) by (eapply Forall_impl; [exact Hn2|]; intros b [? _]; unfold byte; lia).
  assert (Hl2 : length b2 = 8) by (unfold b2; by rewrite length_fmap).
  pose proof (le_dec_bound b2 Hb2) as Hd2. rewrite Hl2 in Hd2. rewrite (u64_small (le_dec b2)) by exact Hd2.
  pose proof (step3_bytes b2 Hn2) as H3. rewrite Hl2 in H3. change (rep 0x0f 8) with 0x0f0f0f0f0f0f0f0f%Z in H3.
  assert (Hs3 : step3 <$> b2 = ones8 <$> bs).
  { unfold b2, b1. rewrite <- !list_fmap_compose. apply list_fmap_ext. intros i b Hb. cbn [compose].
    apply (bytes_steps b). rewrite Forall_lookup in Hbs. exact (Hbs i b Hb). }
  rewrite Hs3 in H3.
  assert (Hno : (0 ≤ le_dec b2 + Z.shiftr (le_dec b2) 4 < 2 ^ 64)%Z).
  { assert (Hm : (le_dec b2 ≤ 0x44 * 0x0101010101010101)%Z).
    { destruct b2 as [|x0 [|x1 [|x2 [|x3 [|x4 [|x5 [|x6 [|x7 [|]]]]]]]]]; try done.
      repeat match goal with H : Forall nibbles (_ :: _) |- _ => apply Forall_cons_1 in H as [[? _] ?] end. cbn [le_dec]. lia. }
    rewrite Z.shiftr_div_pow2 by lia. assert (le_dec b2 / 2 ^ 4 ≤ le_dec b2)%Z by (apply Z.div_le_upper_bound; lia).
    assert (0 ≤ le_dec b2 / 2 ^ 4)%Z by (apply Z.div_pos; lia). lia. }
  rewrite (u64_small _ Hno), H3.
  assert (Ho : Forall (λ c, 0 ≤ c ≤ 8)%Z (ones8 <$> bs)).
  { apply Forall_fmap. eapply Forall_impl; [exact Hbs|]. intros b Hb. apply (bytes_steps b Hb). }
  assert (Hlo : length (ones8 <$> bs) = 8) by by rewrite length_fmap.
  destruct (ones8 <$> bs) as [|c0 [|c1 [|c2 [|c3 [|c4 [|c5 [|c6 [|c7 [|]]]]]]]]]; try done.
  repeat match goal with H : Forall (λ c, (0 ≤ c ≤ 8)%Z) (_ :: _) |- _ => apply Forall_cons_1 in H as [? ?] end.
  rewrite top_byte by done. cbn. lia.
Qed.

(** ** The registry *)

(** the two tables agree and bits were given in order *)
Definition reg_ok (r : ClassRegistry) : Prop :=
  next r ≤ MaxTaintBits ∧ length (byBit r) = MaxTaintBits ∧
  (∀ n b, byName r !! n = Some b ↔ (0 ≤ b < Z.of_nat (next r))%Z ∧ byBit r !! Z.to_nat b = Some n) ∧
  (∀ i, next r ≤ i < MaxTaintBits → byBit r !! i = Some "").

Lemma new_reg_ok : reg_ok NewClassRegistry.
Proof.
  split; [cbn; lia|]. split; [done|]. split.
  - intros n b. cbn. rewrite lookup_empty. split; [done|]. intros [? _]. lia.
  - intros i [_ Hi]. cbn [byBit NewClassRegistry]. by apply lookup_replicate.
Qed.

(** what a lookup leaves of the assignments, and what it gives *)
Lemma Bit_spec (name : string) (r : ClassRegistry) :
  reg_ok r →
  reg_ok (Bit name r).2 ∧ byName r ⊆ byName (Bit name r).2 ∧ next r ≤ next (Bit name r).2 ∧
  (∀ n b, byName (Bit name r).2 !! n = Some b → n = name ∨ byName r !! n = Some b) ∧
  match (Bit name r).1 with
  | Some b => byName (Bit name r).2 !! name = Some b
  | None => (Bit name r).2 = r ∧ next r = MaxTaintBits ∧ byName r !! name = None
  end.
Proof.
  intros Hr. pose proof Hr as (Hn & Hl & Hb & He). unfold Bit. destruct (byName r !! name) as [b|] eqn:Hname; cbn [fst snd].
  { split; [done|]. split; [done|]. split; [done|]. split; [by right|done]. }
  destruct (Nat.leb_spec MaxTaintBits (next r)); cbn [fst snd].
  { split; [done|]. split; [done|]. split; [done|]. split; [by right|]. split; [done|]. split; [lia|done]. }
  cbn [byName next byBit]. split; [|split; [by apply insert_subseteq|split; [lia|split]]].
  - split; [cbn; lia|]. split; [cbn; by rewrite length_insert|]. cbn [byName next byBit]. split.
    + intros n b. destruct (decide (n = name)) as [->|Hne].
      * rewrite lookup_insert_eq. split.
        -- intros [= <-]. split; [lia|]. rewrite Nat2Z.id. apply list_lookup_insert_eq. lia.
        -- intros [Hbd Hbit]. destruct (decide (Z.to_nat b = next r)) as [Hbn|Hbn]; [f_equal; lia|].
           rewrite list_lookup_insert_ne in Hbit by done. exfalso.
           assert (byName r !! name = Some b) by (apply Hb; split; [lia|done]). congruence.
      * rewrite lookup_insert_ne by done. rewrite Hb. split.
        -- intros [Hbd Hbit]. split; [lia|]. by rewrite list_lookup_insert_ne by lia.
        -- intros [Hbd Hbit]. destruct (decide (Z.to_nat b = next r)) as [Hbn|Hbn].
           ++ rewrite Hbn, list_lookup_insert_eq in Hbit by lia. congruence.
           ++ rewrite list_lookup_insert_ne in Hbit by done. split; [lia|done].
    + intros i Hi. rewrite list_lookup_insert_ne by lia. apply He. lia.
  - intros n b Hnb. destruct (decide (n = name)) as [->|Hne]; [by left|right]. by rewrite lookup_insert_ne in Hnb.
  - by rewrite lookup_insert_eq.
Qed.

Lemma With_testbit (t b i : Z) : (0 ≤ b < 64)%Z → (0 ≤ i)%Z → Z.testbit (With t b) i = Z.testbit t i || (b =? i)%Z.
Proof.
  intros Hb Hi. unfold With, bit. rewrite Z.lor_spec. f_equal. rewrite Z.shiftl_1_l, u64_small.
  - apply Z.pow2_bits_eqb. lia.
  - split; [lia|]. apply Z.pow_lt_mono_r; lia.
Qed.

(** the names resolved so far are those whose bits are set *)
Definition resolved (names : list string) (t : Z) (r : ClassRegistry) : Prop :=
  reg_ok r ∧ ∀ b, (0 ≤ b)%Z → (Z.testbit t b = true ↔ ∃ n, n ∈ names ∧ byName r !! n = Some b).

Lemma reg_bound (r : ClassRegistry) (n : string) (b : Z) : reg_ok r → byName r !! n = Some b → (0 ≤ b < 64)%Z.
Proof. intros (Hn & _ & Hb & _) H. apply Hb in H as [H _]. unfold MaxTaintBits in Hn. lia. Qed.

Lemma SetFromNames_spec (names : list string) (r : ClassRegistry) :
  reg_ok r →
  let '(t, failed, r') := SetFromNames names r in
  resolved names t r' ∧ byName r ⊆ byName r' ∧
  (failed = false → ∀ n, n ∈ names → is_Some (byName r' !! n)).
Proof.
  intros Hr. unfold SetFromNames. induction names as [|x names IH] using rev_ind.
  { cbn. split; [|split; [done|by intros _ n ?%elem_of_nil]]. split; [done|]. intros b Hb. rewrite Z.bits_0.
    split; [done|]. by intros (n & ?%elem_of_nil & _). }
  rewrite foldl_snoc. destruct (foldl _ _ names) as [[t failed] r1] eqn:E. destruct IH as ([Hr1 Ht] & Hsub & Hf).
  destruct (Bit_spec x r1 Hr1) as (Hr2 & Hsub2 & _ & Hold & Hx). destruct (Bit x r1) as [[b|] r2]; cbn [fst snd] in *.
  - split; [|split; [by etransitivity|]].
    + split; [done|]. intros i Hi. pose proof (reg_bound r2 x b Hr2 Hx) as Hb. rewrite With_testbit by done.
      rewrite orb_true_iff, Z.eqb_eq, Ht by done. split.
      * intros [(n & Hn & Hni)| <-]; [|exists x; split; [set_solver|done]].
        exists n. split; [set_solver|]. by eapply lookup_weaken.
      * intros (n & Hn & Hni). apply elem_of_app in Hn as [Hn|Hn%list_elem_of_singleton].
        -- destruct (Hold n i Hni) as [->|Hni1]; [right; congruence|left; by exists n].
        -- subst. right. congruence.
    + intros Hff n Hn. apply elem_of_app in Hn as [Hn|Hn%list_elem_of_singleton].
      * destruct (Hf Hff n Hn) as [c Hc]. exists c. by eapply lookup_weaken.
      * subst. by exists b.
  - destruct Hx as (-> & _ & Hnone). split; [|split; [done|done]]. split; [done|]. intros i Hi. rewrite Ht by done. split.
    + intros (n & Hn & Hni). exists n. split; [set_solver|done].
    + intros (n & Hn & Hni). exists n. apply elem_of_app in Hn as [Hn|Hn%list_elem_of_singleton]; [done|].
      subst. congruence.
Qed.

Lemma bit_names (r : ClassRegistry) (n : string) (b : Z) :
  reg_ok r → n ≠ "" → (0 ≤ b)%Z → default "" (byBit r !! Z.to_nat b) = n ↔ byName r !! n = Some b.
Proof.
  intros (Hn & Hl & Hb & He) Hne Hb0. rewrite Hb. split.
  - intros Hd. destruct (byBit r !! Z.to_nat b) as [m|] eqn:Hm; cbn in Hd; [|by subst]. subst m. split; [|done].
    destruct (decide (Z.to_nat b < next r)); [lia|]. exfalso. apply lookup_lt_Some in Hm as Hlt.
    rewrite He in Hm by lia. congruence.
  - intros [_ ->]. done.
Qed.

Lemma elem_of_NamesOf (t : Z) (r : ClassRegistry) (n : string) :
  reg_ok r → n ∈ NamesOf t r ↔ n ≠ "" ∧ ∃ b, byName r !! n = Some b ∧ Z.testbit t b = true.
Proof.
  intros Hr. unfold NamesOf. rewrite list_elem_of_filter, list_elem_of_fmap. split.
  - intros [Hne (b & -> & Hb)]. split; [done|]. apply elem_of_Bits in Hb as [Hb Ht]. exists b. split; [|done].
    by apply (bit_names r _ b Hr Hne ltac:(lia)).
  - intros [Hne (b & Hb & Ht)]. pose proof (reg_bound r n b Hr Hb). split; [done|]. exists b. split.
    + symmetry. apply (bit_names r n b Hr Hne); [lia|done].
    + by apply elem_of_Bits.
Qed.

Definition register_all (names : list string) (r : ClassRegistry) : ClassRegistry := foldl (λ r n, (Bit n r).2) r names.

Lemma register_all_ok (names : list string) : ∀ r, reg_ok r →
  reg_ok (register_all names r) ∧ byName r ⊆ byName (register_all names r).
Proof.
  induction names as [|n names IH]; intros r Hr; [done|]. destruct (Bit_spec n r Hr) as (Hr' & Hsub & _).
  destruct (IH _ Hr') as [Ho Hs]. split; [exact Ho|]. cbn [register_all foldl]. by etransitivity.
Qed.

(** Class names survive the set: whatever was registered before, the names a set
    was built from are exactly the names read back from it, also after any further
    registrations, as long as the 64 bits sufficed.  The empty name alone is lost. *)
Theorem class_names_round_trip (prior names more : list string) :
  let r := register_all prior NewClassRegistry in
  (SetFromNames names r).1.2 = false →
  ∀ n, n ∈ NamesOf (SetFromNames names r).1.1 (register_all more (SetFromNames names r).2) ↔ n ≠ "" ∧ n ∈ names.
Proof.
  intros r Hf n. destruct (register_all_ok prior _ new_reg_ok) as [Hr _]. fold r in Hr.
  pose proof (SetFromNames_spec names r Hr) as Hs. destruct (SetFromNames names r) as [[t failed] r']. cbn [fst snd] in *.
  destruct Hs as ([Hr' Ht] & _ & Hall). destruct (register_all_ok more r' Hr') as [Hr2 Hsub]. rewrite elem_of_NamesOf by done.
  split; intros [Hne H]; (split; [done|]).
  - destruct H as (b & Hb & Hbit). pose proof (reg_bound _ n b Hr2 Hb). apply Ht in Hbit as (m & Hm & Hmb); [|lia].
    assert (byName (register_all more r') !! m = Some b) as Hm2 by by eapply lookup_weaken.
    assert (n = m) as ->; [|done].
    destruct Hr2 as (_ & _ & Hbb & _). apply Hbb in Hb as [_ Hb], Hm2 as [_ Hm2]. congruence.
  - destruct (Hall Hf n H) as [b Hb]. exists b. split; [by eapply lookup_weaken|].
    apply Ht; [apply (reg_bound r' n b Hr' Hb)|]. by exists n.
Qed.

(** ** Taint *)

Inductive lineage_op :=
  | LPut (o : Origin) (now : Time.time)
  | LTaint (id mask : Z)
  | LSweep (cutoff : Time.time).

Definition lineage_exec (s : LineageStore) (o : lineage_op) : LineageStore :=
  match o with
  | LPut o now => Put o now s
  | LTaint id mask => (AddTaint id mask s).2
  | LSweep cutoff => (SweepOlderThan cutoff s).1
  end.

Lemma Put_taint (o : Origin) (now : Time.time) (s : LineageStore) (id : Z) : Taint id (Put o now s) = Taint id s.
Proof. unfold Put. by destruct (_ =? _)%Z. Qed.

Lemma AddTaint_taint (id mask : Z) (s : LineageStore) (j b : Z) :
  (0 ≤ b)%Z → Z.testbit (Taint j (AddTaint id mask s).2) b = Z.testbit (Taint j s) b || (bool_decide (j = id ∧ id ≠ 0%Z) && Z.testbit mask b).
Proof.
  intros Hb. unfold AddTaint. destruct (Z.eqb_spec id 0) as [->|Hid]; cbn [orb].
  { rewrite bool_decide_eq_false_2 by (by intros [_ ?]). by rewrite orb_false_r. }
  unfold ts_IsEmpty. destruct (Z.eqb_spec mask 0) as [->|Hm]; cbn [snd].
  { by rewrite Z.bits_0, andb_false_r, orb_false_r. }
  unfold Taint at 1. cbn [taints]. destruct (decide (j = id)) as [->|Hne].
  - rewrite lookup_insert_eq, bool_decide_eq_true_2 by done. cbn -[Z.testbit Z.lor Taint]. by rewrite Z.lor_spec.
  - rewrite lookup_insert_ne by done. rewrite bool_decide_eq_false_2 by (by intros [? _]). by rewrite orb_false_r.
Qed.

Lemma Sweep_taint (cutoff : Time.time) (s : LineageStore) (id : Z) :
  Taint id (SweepOlderThan cutoff s).1 =
  match origins s !! id with Some o => if expired cutoff o then 0%Z else Taint id s | None => Taint id s end.
Proof.
  unfold Taint, SweepOlderThan. cbn [fst taints]. rewrite map_lookup_filter.
  assert (Hg : filter (λ p, expired cutoff p.2 = true) (origins s) !! id =
            o ← origins s !! id; if expired cutoff o then Some o else None).
  { rewrite map_lookup_filter. destruct (origins s !! id) as [o|]; [|done]. cbn. by destruct (expired cutoff o). }
  destruct (taints s !! id) as [t|] eqn:Et; cbn; [|by destruct (origins s !! id) as [o|]; [destruct (expired cutoff o)|]].
  rewrite Hg. destruct (origins s !! id) as [o|]; cbn; [|done]. by destruct (expired cutoff o).
Qed.

Lemma Sweep_origins (cutoff : Time.time) (s : LineageStore) (id : Z) :
  origins (SweepOlderThan cutoff s).1 !! id = o ← origins s !! id; guard (expired cutoff o = false);; Some o.
Proof. cbn. rewrite map_lookup_filter. by destruct (origins s !! id). Qed.

(** an operation that records an origin of the lineage *)
Definition puts (id : Z) (o : lineage_op) : Prop := match o with LPut o _ => o_ID o = id | _ => False end.

Lemma exec_origin (s : LineageStore) (o : lineage_op) (id : Z) :
  origins s !! id = None → ¬ puts id o → origins (lineage_exec s o) !! id = None.
Proof.
  intros Hn Hp. destruct o as [o now|j mask|cutoff]; cbn [lineage_exec].
  - cbn [puts] in Hp. unfold Put. destruct (_ =? _)%Z; [done|]. destruct (Time.IsZero _); cbn; by rewrite lookup_insert_ne.
  - unfold AddTaint. by destruct (_ || _).
  - rewrite Sweep_origins, Hn. done.
Qed.

(** A class a lineage touched stays in its taint whatever is called, until a
    sweep drops the lineage's origin.  A lineage whose origin was never recorded
    keeps its taint for ever: no sweep, however late, removes it. *)
Theorem taint_ends_only_with_origin (s : LineageStore) (id b : Z) :
  (0 ≤ b)%Z → Z.testbit (Taint id s) b = true →
  (∀ o, Z.testbit (Taint id (lineage_exec s o)) b = true ∨
        ∃ cutoff origin, o = LSweep cutoff ∧ origins s !! id = Some origin ∧ (o_CreatedAt origin < cutoff)%Z) ∧
  (origins s !! id = None → ∀ ops, Forall (λ o, ¬ puts id o) ops →
     Z.testbit (Taint id (foldl lineage_exec s ops)) b = true).
Proof.
  intros Hb Ht.
  assert (Hstep : ∀ s o, Z.testbit (Taint id s) b = true → Z.testbit (Taint id (lineage_exec s o)) b = true ∨
            ∃ cutoff origin, o = LSweep cutoff ∧ origins s !! id = Some origin ∧ (o_CreatedAt origin < cutoff)%Z).
  { clear s Ht. intros s [o now|j mask|cutoff] Ht; cbn [lineage_exec].
    - left. by rewrite Put_taint.
    - left. by rewrite AddTaint_taint, Ht.
    - rewrite Sweep_taint. destruct (origins s !! id) as [o|]; [|by left]. destruct (expired cutoff o) eqn:He; [|by left].
      right. exists cutoff, o. repeat split; try done. unfold expired, Time.Before in He. by apply Z.ltb_lt. }
  split; [intros o; by apply Hstep|]. intros Hn ops Hops. revert s Ht Hn.
  induction Hops as [|o ops Ho _ IH]; intros s Ht Hn; [done|]. cbn [foldl]. apply IH; [|by apply exec_origin].
  destruct (Hstep s o Ht) as [?|(cutoff & origin & _ & Hs & _)]; [done|congruence].
Qed.

(** The taint of a chain is the union of the taints of its lineages, however long
    the chain is and in whatever order. *)
Theorem chain_taint_is_union (c : chain) (s : LineageStore) (b : Z) :
  (0 ≤ b)%Z → Z.testbit (TaintOfChain c s) b = true ↔ ∃ id, id ∈ c ∧ Z.testbit (Taint id s) b = true.
Proof.
  intros Hb. unfold TaintOfChain. induction c as [|id c IH] using rev_ind.
  - cbn. rewrite Z.bits_0. split; [done|]. by intros (? & ?%elem_of_nil & _).
  - rewrite foldl_snoc, Z.lor_spec, orb_true_iff, IH. set_solver.
Qed.

(** ** Witnesses *)

Module LineageDemo.

Definition prior : list string := ["pii"].
Definition names : list string := ["credentials"; "pii"; "health"].

Lemma chain_round_trips_witness : UnmarshalChain (Marshal [1; 2 ^ 64 - 1; 0]%Z) = Some [1; 2 ^ 64 - 1; 0]%Z.
Proof. refine (chain_round_trips [1; 2 ^ 64 - 1; 0]%Z _). repeat constructor; vm_compute; done. Defined.

Lemma count_is_exact_witness : ts_Count (2 ^ 64 - 2) = Z.of_nat (length (Bits (2 ^ 64 - 2))).
Proof. refine (count_is_exact (2 ^ 64 - 2) _). vm_compute. done. Defined.

Lemma class_names_round_trip_witness :
  "health" ∈ NamesOf (SetFromNames names (register_all prior NewClassRegistry)).1.1
    (register_all ["later"] (SetFromNames names (register_all prior NewClassRegistry)).2).
Proof.
  refine (proj2 (class_names_round_trip prior names ["later"] _ "health") _); [vm_compute; reflexivity|].
  split; [discriminate|]. unfold names. set_solver.
Defined.

Definition touched : LineageStore := (AddTaint 7 5 NewStore).2.

Lemma taint_ends_only_with_origin_witness :
  Taint 7 touched = 5%Z ∧
  Z.testbit (Taint 7 (foldl lineage_exec touched [LSweep (2 ^ 62)%Z; LTaint 8 1; LSweep (2 ^ 63 - 1)%Z])) 2 = true.
Proof.
  split; [vm_compute; reflexivity|].
  refine (proj2 (taint_ends_only_with_origin touched 7 2 _ _) _ [LSweep (2 ^ 62)%Z; LTaint 8 1; LSweep (2 ^ 63 - 1)%Z] _);
    [lia|vm_compute; reflexivity..|]. repeat constructor; intros [].
Defined.

Lemma chain_taint_is_union_witness : Z.testbit (TaintOfChain [3; 7]%Z touched) 2 = true.
Proof.
  refine (proj2 (chain_taint_is_union [3; 7]%Z touched 2 _) _); [lia|]. exists 7%Z. split; [set_solver|vm_compute; reflexivity].
Defined.

End LineageDemo.
