(* ===== verification/EgressValve.v ===== *)
(** * The egress valve and its passports (src/pkg/egress, src/pkg/passport, the
    check handler of src/cmd/xhelix/foundation.go)

    A lineage that touched data classes may reach a destination only when each
    class has a rule for it, or a passport: a signed permission of at most a
    quarter of an hour that two people asked for.  The valve uses the passports
    through the interface [PassportSource]; the store of passports is an instance.

    Ed25519, the JSON encoding, base64, the YAML package, the file system, the
    clock and the order of map ranges are arguments.  The classes of one check
    are asked at one reading of the clock. *)

From S2P Require Import Prelude GoStd Bytes NetIP CIDR LineageStore.

(** ** Passports (passport.go) *)

Definition HardTTLMax : Time.duration := 15 * Time.Minute.
Definition MinTTL : Time.duration := 30 * Time.Second.

Record Passport := {
  pp_Version : Z; pp_ID : string; pp_IssuedAt : Time.time; pp_ExpiresAt : Time.time; pp_Actor : string;
  pp_Route : string; pp_DataClasses : list string; pp_MaxRows : Z; pp_MaxBytes : Z; pp_DestCIDRs : list string;
  pp_DestIPs : list string; pp_DestHostSfx : list string; pp_Reason : string; pp_ApprovedBy : string
}.

Record Signed := { sg_Passport : Passport; sg_KeyID : string; sg_Signature : string }.

Record IssueParams := {
  ip_Actor : string; ip_Route : string; ip_DataClasses : list string; ip_MaxRows : Z; ip_MaxBytes : Z;
  ip_DestCIDRs : list string; ip_DestIPs : list string; ip_DestHostSuffixes : list string; ip_Reason : string;
  ip_ApprovedBy : string; ip_TTL : Time.duration
}.

Inductive pp_error :=
  | BadPrivateKey | NoActor | NoReason | NoApprover | NoDataClass | NoDestination | BadDestCIDR (s : string)
  | BadDestIP (s : string) | NoRandom | BadJSON | NoKey
  | BadPublicKey | BadPassportVersion | BadEncoding | BadSignature | InFuture | Expired | TTLTooLong | Revoked.

Definition blank (s : string) : bool := Str.empty (Str.TrimSpace s).

(** what [Issue] checks before it draws an id *)
Definition refused (priv : bytes) (p : IssueParams) : option pp_error :=
  if negb (length priv =? 64)%nat then Some BadPrivateKey
  else if blank (ip_Actor p) then Some NoActor
  else if blank (ip_Reason p) then Some NoReason
  else if blank (ip_ApprovedBy p) then Some NoApprover
  else if (length (ip_DataClasses p) =? 0)%nat then Some NoDataClass
  else if (length (ip_DestCIDRs p) + length (ip_DestIPs p) + length (ip_DestHostSuffixes p) =? 0)%nat then Some NoDestination
  else match filter (λ c, ParseCIDR c = None) (ip_DestCIDRs p), filter (λ i, ParseIP i = None) (ip_DestIPs p) with
       | c :: _, _ => Some (BadDestCIDR c)
       | [], i :: _ => Some (BadDestIP i)
       | [], [] => None
       end.

Definition clampTTL (ttl : Time.duration) : Time.duration :=
  let ttl := if (ttl <? MinTTL)%Z then MinTTL else ttl in
  if (HardTTLMax <? ttl)%Z then HardTTLMax else ttl.

Definition passport_of (p : IssueParams) (id : string) (now : Time.time) : Passport :=
  let now := Time.TruncateSecond now in
  {| pp_Version := 1; pp_ID := id; pp_IssuedAt := now; pp_ExpiresAt := Time.Add now (clampTTL (ip_TTL p));
     pp_Actor := ip_Actor p; pp_Route := ip_Route p; pp_DataClasses := ip_DataClasses p; pp_MaxRows := ip_MaxRows p;
     pp_MaxBytes := ip_MaxBytes p; pp_DestCIDRs := ip_DestCIDRs p; pp_DestIPs := ip_DestIPs p;
     pp_DestHostSfx := ip_DestHostSuffixes p; pp_Reason := ip_Reason p; pp_ApprovedBy := ip_ApprovedBy p |}.

(** the second half of a private key is the public one *)
Definition Public (priv : bytes) : bytes := drop 32 priv.

Definition KeyIDOf (pub : bytes) : string :=
  if (length pub <? 8)%nat then "" else String.concat "" (hexd 2 <$> take 8 pub).

(** destinations: networks, host suffixes, the passport named in the verdict *)
Notation dests := (list IPNet * list string * string)%type.

Definition dotted_suffix (h : string) : string := Str.ToLower (if Str.HasPrefix h "." then h else "." +:+ h).

Definition net_of (c : string) : option IPNet := '(_, n) ← ParseCIDR c; Some n.

Definition net_of_ip (ip : string) : option IPNet :=
  a ← ParseIP ip;
  net_of (ip +:+ ("/" +:+ Str.itoa (match To4 a with Some _ => 32 | None => 128 end))).

Definition passport_nets (p : Passport) : list IPNet := omap net_of (pp_DestCIDRs p) ++ omap net_of_ip (pp_DestIPs p).

Definition outlived (now : Time.time) (s : Signed) : bool := Time.After now (pp_ExpiresAt (sg_Passport s)).

(** what the passports that are live and name the class add up to *)
Definition gather (class : string) (now : Time.time) (cands : list Signed) : dests :=
  foldl (λ acc s,
    let '(cidrs, sfx, id) := acc in
    let p := sg_Passport s in
    if outlived now s || negb (bool_decide (class ∈ pp_DataClasses p)) then acc
    else (cidrs ++ passport_nets p, sfx ++ (dotted_suffix <$> pp_DestHostSfx p), pp_ID p)) ([], [], "") cands.

Record PassportStore := {
  pt_priv : option bytes; pt_pub : bytes; pt_keyID : string; pt_byID : gmap string Signed; pt_revoked : gmap string Time.time
}.

Definition NewPassportStore (priv : option bytes) : PassportStore := {|
  pt_priv := priv; pt_pub := match priv with Some k => Public k | None => [] end;
  pt_keyID := match priv with Some k => KeyIDOf (Public k) | None => "" end; pt_byID := ∅; pt_revoked := ∅ |}.

Definition with_passports (m : gmap string Signed) (r : gmap string Time.time) (s : PassportStore) : PassportStore :=
  {| pt_priv := pt_priv s; pt_pub := pt_pub s; pt_keyID := pt_keyID s; pt_byID := m; pt_revoked := r |}.

Section passports.
Context (Sign : bytes → string → bytes) (VerifySig : bytes → string → bytes → bool).
Context (jsonPassport : Passport → option string) (b64 : bytes → string) (unb64 : string → option bytes).

(** [fresh] is the new id, if random bytes could be read *)
Definition Issue (priv : bytes) (p : IssueParams) (fresh : option string) (now : Time.time) : result pp_error Signed :=
  match refused priv p with
  | Some e => Err e
  | None =>
      match fresh with
      | None => Err NoRandom
      | Some id =>
          let pp := passport_of p id now in
          match jsonPassport pp with
          | None => Err BadJSON
          | Some body => Ok {| sg_Passport := pp; sg_KeyID := KeyIDOf (Public priv); sg_Signature := b64 (Sign priv body) |}
          end
      end
  end.

Definition Verify (pub : bytes) (s : Signed) (now : Time.time) : result pp_error Passport :=
  let p := sg_Passport s in
  if negb (length pub =? 32)%nat then Err BadPublicKey
  else if negb (pp_Version p =? 1)%Z then Err BadPassportVersion
  else match jsonPassport p with
       | None => Err BadJSON
       | Some body =>
           match unb64 (sg_Signature s) with
           | None => Err BadEncoding
           | Some sig =>
               if negb (VerifySig pub body sig) then Err BadSignature
               else if Time.Before now (Time.Add (pp_IssuedAt p) (- 30 * Time.Second)) then Err InFuture
               else if Time.After now (pp_ExpiresAt p) then Err Expired
               else if (HardTTLMax + 5 * Time.Second <? Time.Sub (pp_ExpiresAt p) (pp_IssuedAt p))%Z then Err TTLTooLong
               else Ok p
           end
       end.

Definition pt_Issue (p : IssueParams) (fresh : option string) (now : Time.time) (s : PassportStore) :
    result pp_error Signed * PassportStore :=
  match pt_priv s with
  | None => (Err NoKey, s)
  | Some priv =>
      match Issue priv p fresh now with
      | Err e => (Err e, s)
      | Ok signed => (Ok signed, with_passports (<[pp_ID (sg_Passport signed) := signed]> (pt_byID s)) (pt_revoked s) s)
      end
  end.

Definition pt_Revoke (id : string) (now : Time.time) (s : PassportStore) : PassportStore :=
  with_passports (delete id (pt_byID s)) (<[id := now]> (pt_revoked s)) s.

Definition VerifyActive (signed : Signed) (now : Time.time) (s : PassportStore) : result pp_error Passport :=
  if has_key (pp_ID (sg_Passport signed)) (pt_revoked s) then Err Revoked else Verify (pt_pub s) signed now.

Definition pt_Sweep (now : Time.time) (s : PassportStore) : nat * nat * PassportStore :=
  let live := filter (λ p, outlived now p.2 = false) (pt_byID s) in
  let kept := filter (λ p, Time.Before p.2 (Time.Add now (- 24 * Time.Hour)) = false) (pt_revoked s) in
  (size (pt_byID s) - size live, size (pt_revoked s) - size kept, with_passports live kept s).
End passports.

Definition pt_List (ord : gmap string Signed → list string) (now : Time.time) (s : PassportStore) : list Passport :=
  sg_Passport <$> filter (λ x, outlived now x = false) (omap (λ id, pt_byID s !! id) (ord (pt_byID s))).

Record PassportStats := { pst_Active : nat; pst_Revoked : nat; pst_KeyID : string }.

Definition pt_Stats (s : PassportStore) : PassportStats :=
  {| pst_Active := size (pt_byID s); pst_Revoked := size (pt_revoked s); pst_KeyID := pt_keyID s |}.

(** [ord] is the order a range over the passports takes *)
Definition pt_ActiveDestinations (ord : gmap string Signed → list string) (now : Time.time) (class : string) (s : PassportStore) :
    dests * PassportStore :=
  let cands := omap (λ id, pt_byID s !! id) (ord (pt_byID s)) in
  let gone := (λ x, pp_ID (sg_Passport x)) <$> filter (λ x, outlived now x = true) cands in
  (gather class now cands, with_passports (foldl (λ m id, delete id m) (pt_byID s) gone) (pt_revoked s) s).

(** ** The valve (egress/policy.go) *)

Inductive Decision := DecisionAllow | DecisionDeny.

#[export] Instance Decision_eq_dec : EqDecision Decision.
Proof. solve_decision. Defined.

Definition Decision_String (d : Decision) : string := match d with DecisionAllow => "allow" | DecisionDeny => "deny" end.

Record Verdict := {
  vd_Decision : Decision; vd_Reason : string; vd_TaintBits : Z; vd_Classes : list string; vd_DestIP : string;
  vd_DestPort : Z; vd_MatchedRule : string; vd_Passport : string
}.

Record classRule := {
  cr_Class : string; cr_Name : string; cr_CIDRs : list IPNet; cr_IPs : gset string; cr_HostSuffix : list string
}.

(** a rule of the file *)
Record rule_text := {
  rt_class : string; rt_name : string; rt_cidrs : list string; rt_ips : list string; rt_host_suffixes : list string
}.

Record fileSchema := { fs_version : Z; fs_rules : list rule_text }.

Inductive load_error := Unreadable | BadYAML | BadVersion (n : Z) | EmptyClass | BadCIDR (s : string) | BadIP (s : string) | NoSource.

Record Policy := { pl_rules : gmap string (list classRule); pl_source : string; pl_allowed : Z; pl_denied : Z; pl_checks : Z }.

Definition NewPolicy : Policy := {| pl_rules := ∅; pl_source := ""; pl_allowed := 0; pl_denied := 0; pl_checks := 0 |}.

Definition parse_rule (r : rule_text) : result load_error classRule :=
  if Str.empty (rt_class r) then Err EmptyClass
  else match filter (λ c, ParseCIDR c = None) (rt_cidrs r), filter (λ i, ParseIP i = None) (rt_ips r) with
       | c :: _, _ => Err (BadCIDR c)
       | [], i :: _ => Err (BadIP i)
       | [], [] =>
           Ok {| cr_Class := rt_class r; cr_Name := rt_name r; cr_CIDRs := omap net_of (rt_cidrs r);
                 cr_IPs := list_to_set (rt_ips r); cr_HostSuffix := dotted_suffix <$> rt_host_suffixes r |}
       end.

Fixpoint parse_rules (rs : list rule_text) (out : gmap string (list classRule)) : result load_error (gmap string (list classRule)) :=
  match rs with
  | [] => Ok out
  | r :: rs =>
      match parse_rule r with
      | Err e => Err e
      | Ok cr => parse_rules rs (<[rt_class r := default [] (out !! rt_class r) ++ [cr]]> out)
      end
  end.

Definition parse (Unmarshal : string → option fileSchema) (body : string) : result load_error (gmap string (list classRule)) :=
  match Unmarshal body with
  | None => Err BadYAML
  | Some f => if negb (fs_version f =? 1)%Z then Err (BadVersion (fs_version f)) else parse_rules (fs_rules f) ∅
  end.

Inductive file_read := FileMissing | FileUnreadable | FileBody (s : string).

Definition with_rules (rules : gmap string (list classRule)) (source : string) (p : Policy) : Policy :=
  {| pl_rules := rules; pl_source := source; pl_allowed := pl_allowed p; pl_denied := pl_denied p; pl_checks := pl_checks p |}.

Definition pl_Load (Unmarshal : string → option fileSchema) (read : string → file_read) (path : string) (p : Policy) :
    option load_error * Policy :=
  if Str.empty path then (None, p)
  else match read path with
       | FileMissing => (None, p)
       | FileUnreadable => (Some Unreadable, p)
       | FileBody body =>
           match parse Unmarshal body with
           | Err e => (Some e, p)
           | Ok rules => (None, with_rules rules path p)
           end
       end.

Definition pl_Reload (Unmarshal : string → option fileSchema) (read : string → file_read) (p : Policy) : option load_error * Policy :=
  if Str.empty (pl_source p) then (Some NoSource, p) else pl_Load Unmarshal read (pl_source p) p.

Definition matchesNet (nets : list IPNet) (ip : list Z) : bool := existsb (λ n, Contains n (Some ip)) nets.

Definition matchesHostSuffix (suffixes : list string) (host : string) : bool :=
  negb (Str.empty host) && existsb (λ s, Str.HasSuffix host s || Str.HasSuffix ("." +:+ host) s) suffixes.

Definition rule_matches (r : classRule) (ip : list Z) (host : string) : bool :=
  bool_decide (IP_String ip ∈ cr_IPs r) || matchesNet (cr_CIDRs r) ip ||
  (negb (Str.empty host) && matchesHostSuffix (cr_HostSuffix r) host).

Definition label (r : classRule) : string := if Str.empty (cr_Name r) then cr_Class r else cr_Name r.

(** the destination is one of those *)
Definition opens (d : dests) (ip : list Z) (host : string) : bool := matchesNet d.1.1 ip || matchesHostSuffix d.1.2 host.

(** What the valve relies on: in a source that is well formed, asking about one
    class does not change what another is told, and leaves it well formed. *)
Class PassportSource (S : Type) := {
  ActiveDestinations : string → S → dests * S;
  source_ok : S → Prop;
  asking_keeps_ok : ∀ c s, source_ok s → source_ok (ActiveDestinations c s).2;
  asking_is_stable : ∀ c c' s ip host, source_ok s →
    opens (ActiveDestinations c (ActiveDestinations c' s).2).1 ip host = opens (ActiveDestinations c s).1 ip host
}.

(** the verdict with a rule, or a passport *)
Definition by_rule (name : string) (v : Verdict) : Verdict := {|
  vd_Decision := vd_Decision v; vd_Reason := vd_Reason v; vd_TaintBits := vd_TaintBits v; vd_Classes := vd_Classes v;
  vd_DestIP := vd_DestIP v; vd_DestPort := vd_DestPort v; vd_MatchedRule := name; vd_Passport := vd_Passport v |}.

Definition by_passport (id : string) (v : Verdict) : Verdict := {|
  vd_Decision := vd_Decision v; vd_Reason := vd_Reason v; vd_TaintBits := vd_TaintBits v; vd_Classes := vd_Classes v;
  vd_DestIP := vd_DestIP v; vd_DestPort := vd_DestPort v; vd_MatchedRule := vd_MatchedRule v; vd_Passport := id |}.

Definition settled (d : Decision) (reason : string) (v : Verdict) : Verdict := {|
  vd_Decision := d; vd_Reason := reason; vd_TaintBits := vd_TaintBits v; vd_Classes := vd_Classes v;
  vd_DestIP := vd_DestIP v; vd_DestPort := vd_DestPort v; vd_MatchedRule := vd_MatchedRule v; vd_Passport := vd_Passport v |}.

Definition tallied (allow : bool) (p : Policy) : Policy := {|
  pl_rules := pl_rules p; pl_source := pl_source p; pl_allowed := if allow then u64 (pl_allowed p + 1) else pl_allowed p;
  pl_denied := if allow then pl_denied p else u64 (pl_denied p + 1); pl_checks := u64 (pl_checks p + 1) |}.

Section valve.
Context {S : Type} `{PassportSource S}.

Definition satisfiesClass (p : Policy) (class : string) (ip : list Z) (host : string) (v : Verdict) (src : option S) :
    bool * Verdict * option S :=
  match List.find (λ r, rule_matches r ip host) (default [] (pl_rules p !! class)) with
  | Some r => (true, by_rule (label r) v, src)
  | None =>
      match src with
      | None => (false, v, None)
      | Some s =>
          let '(d, s) := ActiveDestinations class s in
          if opens d ip host then (true, by_passport d.2 v, Some s) else (false, v, Some s)
      end
  end.

(** the first class nothing covers, if any *)
Fixpoint satisfy (p : Policy) (classes : list string) (ip : list Z) (host : string) (v : Verdict) (src : option S) :
    option string * Verdict * option S :=
  match classes with
  | [] => (None, v, src)
  | c :: classes =>
      let '(ok, v, src) := satisfiesClass p c ip host v src in
      if ok : bool then satisfy p classes ip host v src else (Some c, v, src)
  end.

(** [None] is the nil address *)
Definition Allow (reg : option ClassRegistry) (taint : Z) (destIP : option (list Z)) (destHost : string) (destPort : Z)
    (p : Policy) (src : option S) : Verdict * Policy * option S :=
  let v := {| vd_Decision := DecisionAllow; vd_Reason := ""; vd_TaintBits := taint; vd_Classes := [];
              vd_DestIP := match destIP with Some ip => IP_String ip | None => "<nil>" end; vd_DestPort := destPort;
              vd_MatchedRule := ""; vd_Passport := "" |} in
  if ts_IsEmpty taint then (settled DecisionAllow "untainted lineage — no DLCF policy applies" v, tallied true p, src)
  else
    let classes := match reg with Some r => NamesOf taint r | None => [] end in
    let v := {| vd_Decision := vd_Decision v; vd_Reason := ""; vd_TaintBits := taint; vd_Classes := classes;
                vd_DestIP := vd_DestIP v; vd_DestPort := destPort; vd_MatchedRule := ""; vd_Passport := "" |} in
    match destIP with
    | None => (settled DecisionDeny "destination IP is nil" v, tallied false p, src)
    | Some ip =>
        let '(missing, v, src) := satisfy p classes ip (Str.ToLower destHost) v src in
        match missing with
        | Some c =>
            (settled DecisionDeny ("class " +:+ (Str.Quote c +:+ (" has no rule or passport covering " +:+ IP_String ip))) v,
             tallied false p, src)
        | None => (settled DecisionAllow "all tainted classes have matching destination rule" v, tallied true p, src)
        end
    end.

(** the check handler: the classes come as names, and a name without a bit is left out *)
Definition egress_check (classes : list string) (destIP destHost : string) (destPort : Z)
    (st : ClassRegistry * Policy * option S) : option Verdict * (ClassRegistry * Policy * option S) :=
  let '(reg, p, src) := st in
  match ParseIP destIP with
  | None => (None, st)
  | Some ip =>
      let '(ts, _, reg) := SetFromNames classes reg in
      let '(v, p, src) := Allow (Some reg) ts (Some ip) destHost destPort p src in
      (Some v, (reg, p, src))
  end.
End valve.

Record PolicyStats := { pls_RuleCount : nat; pls_ClassCount : nat; pls_Checks : Z; pls_Allowed : Z; pls_Denied : Z; pls_Source : string }.

Definition pl_Stats (p : Policy) : PolicyStats := {|
  pls_RuleCount := sum_list (length <$> (map_to_list (pl_rules p)).*2); pls_ClassCount := size (pl_rules p);
  pls_Checks := pl_checks p; pls_Allowed := pl_allowed p; pls_Denied := pl_denied p; pls_Source := pl_source p |}.

(** ** The store of passports as a source *)

(** what one passport opens *)
Definition passport_opens (p : Passport) (ip : list Z) (host : string) : bool :=
  matchesNet (passport_nets p) ip || matchesHostSuffix (dotted_suffix <$> pp_DestHostSfx p) host.

(** a live passport of the class that covers the destination *)
Definition covering (class : string) (now : Time.time) (ip : list Z) (host : string) (s : Signed) : bool :=
  negb (outlived now s) && bool_decide (class ∈ pp_DataClasses (sg_Passport s)) && passport_opens (sg_Passport s) ip host.

Lemma gather_opens (class : string) (now : Time.time) (ip : list Z) (host : string) (cands : list Signed) :
  opens (gather class now cands) ip host = existsb (covering class now ip host) cands.
Proof.
  unfold gather. induction cands as [|s cands IH] using rev_ind.
  - unfold opens, matchesNet, matchesHostSuffix. cbn. by rewrite andb_false_r.
  - rewrite foldl_snoc, existsb_app. cbn [existsb]. rewrite orb_false_r, <- IH.
    destruct (foldl _ _ cands) as [[nets sfx] id]. unfold covering.
    destruct (outlived now s); cbn [orb negb andb]; [by rewrite orb_false_r|].
    destruct (bool_decide _); cbn [negb andb]; [|by rewrite orb_false_r].
    unfold opens, passport_opens, matchesNet, matchesHostSuffix. cbn [fst snd]. rewrite !existsb_app.
    destruct (existsb _ nets), (existsb _ (passport_nets _)), (Str.empty host), (existsb _ sfx), (existsb _ (dotted_suffix <$> _)); done.
Qed.

Lemma existsb_elem {A} (f : A → bool) (l : list A) : existsb f l = true ↔ ∃ x, x ∈ l ∧ f x = true.
Proof. rewrite existsb_exists. setoid_rewrite list_elem_of_In. naive_solver. Qed.

Lemma delete_keys (l : list string) : ∀ (m : gmap string Signed) (k : string),
  foldl (λ m id, delete id m) m l !! k = if decide (k ∈ l) then None else m !! k.
Proof.
  induction l as [|x l IH]; intros m k; cbn [foldl]; [by rewrite decide_False by set_solver|].
  rewrite IH. destruct (decide (k ∈ l)); [by rewrite decide_True by set_solver|].
  destruct (decide (k = x)) as [->|]; [by rewrite decide_True by set_solver; rewrite lookup_delete_eq|].
  rewrite decide_False by set_solver. by rewrite lookup_delete_ne.
Qed.

Section source.
Context (ord : gmap string Signed → list string) (now : Time.time).
Context (Hord : ∀ m, range_order m (ord m)).

Lemma in_range (m : gmap string Signed) (s : Signed) : s ∈ omap (λ id, m !! id) (ord m) ↔ ∃ id, m !! id = Some s.
Proof.
  rewrite list_elem_of_omap. split; [intros (id & _ & Hs); by exists id|]. intros [id Hs]. exists id. split; [|done].
  apply Hord. by eexists.
Qed.

(** the order does not matter for what is open *)
Lemma store_opens (class : string) (s : PassportStore) (ip : list Z) (host : string) :
  opens (pt_ActiveDestinations ord now class s).1 ip host = true ↔
  ∃ id x, pt_byID s !! id = Some x ∧ covering class now ip host x = true.
Proof.
  unfold pt_ActiveDestinations. cbn [fst]. rewrite gather_opens, existsb_elem. setoid_rewrite in_range. naive_solver.
Qed.

(** every passport is stored under its id *)
Definition keyed (m : gmap string Signed) : Prop := ∀ id x, m !! id = Some x → pp_ID (sg_Passport x) = id.

(** asking drops what is no longer live, and that alone *)
Lemma asked_byID (class : string) (s : PassportStore) (id : string) (x : Signed) : keyed (pt_byID s) →
  pt_byID (pt_ActiveDestinations ord now class s).2 !! id = Some x ↔ pt_byID s !! id = Some x ∧ outlived now x = false.
Proof.
  intros Hk. unfold pt_ActiveDestinations. cbn [snd pt_byID with_passports]. rewrite delete_keys.
  assert (Hin : id ∈ (λ x, pp_ID (sg_Passport x)) <$> filter (λ x, outlived now x = true) (omap (λ id, pt_byID s !! id) (ord (pt_byID s))) ↔
    ∃ y, pt_byID s !! id = Some y ∧ outlived now y = true).
  { rewrite list_elem_of_fmap. setoid_rewrite list_elem_of_filter. setoid_rewrite in_range. split.
    - intros (y & -> & Hy & i & Hi). exists y. by rewrite (Hk _ _ Hi).
    - intros (y & Hy & Ho). exists y. split; [by rewrite (Hk _ _ Hy)|]. split; [done|]. by exists id. }
  case_decide as Hd; rewrite Hin in Hd.
  - split; [done|]. destruct Hd as (y & Hy & Ho). intros [Hx Hf]. congruence.
  - split; [|by intros [? _]]. intros Hx. split; [done|]. destruct (outlived now x) eqn:Ho; [|done]. exfalso. apply Hd. by exists x.
Qed.

Lemma asked_keyed (class : string) (s : PassportStore) :
  keyed (pt_byID s) → keyed (pt_byID (pt_ActiveDestinations ord now class s).2).
Proof. intros Hk id x [Hx _]%asked_byID; [|done]. by apply Hk. Qed.

Lemma asked_stable (c c' : string) (s : PassportStore) (ip : list Z) (host : string) : keyed (pt_byID s) →
  opens (pt_ActiveDestinations ord now c (pt_ActiveDestinations ord now c' s).2).1 ip host =
  opens (pt_ActiveDestinations ord now c s).1 ip host.
Proof.
  intros Hk. apply eq_true_iff_eq. rewrite !store_opens. split.
  - intros (id & x & Hx & Hc). apply asked_byID in Hx as [Hx _]; [|done]. by exists id, x.
  - intros (id & x & Hx & Hc). exists id, x. rewrite asked_byID by done. split; [|done]. split; [done|].
    unfold covering in Hc. by destruct (outlived now x).
Qed.

Definition store_source : PassportSource PassportStore := {|
  ActiveDestinations := pt_ActiveDestinations ord now; source_ok s := keyed (pt_byID s);
  asking_keeps_ok := asked_keyed; asking_is_stable := asked_stable |}.
End source.

(** ** What the valve decides *)

Section decides.
Context {S : Type} `{PassportSource S}.

Definition src_ok (src : option S) : Prop := match src with Some s => source_ok s | None => True end.

(** a rule or a passport covers the destination for the class *)
Definition covered (p : Policy) (src : option S) (ip : list Z) (host class : string) : bool :=
  existsb (λ r, rule_matches r ip host) (default [] (pl_rules p !! class)) ||
  match src with Some s => opens (ActiveDestinations class s).1 ip host | None => false end.

Lemma find_existsb {A} (f : A → bool) (l : list A) :
  match List.find f l with Some _ => existsb f l = true | None => existsb f l = false end.
Proof. induction l as [|x l IH]; [done|]. cbn. by destruct (f x). Qed.

Lemma satisfiesClass_spec (p : Policy) (c : string) (ip : list Z) (host : string) (v : Verdict) (src : option S) :
  src_ok src →
  (satisfiesClass p c ip host v src).1.1 = covered p src ip host c ∧ src_ok (satisfiesClass p c ip host v src).2 ∧
  ∀ c', covered p (satisfiesClass p c ip host v src).2 ip host c' = covered p src ip host c'.
Proof.
  intros Hs. unfold satisfiesClass, covered. pose proof (find_existsb (λ r, rule_matches r ip host) (default [] (pl_rules p !! c))) as Hf.
  destruct (List.find _ _) as [r|]; rewrite Hf; [done|]. destruct src as [s|]; [|done]. cbn [orb].
  pose proof (asking_keeps_ok c s Hs) as Hk. pose proof (λ c', asking_is_stable c' c s ip host Hs) as Hst.
  destruct (ActiveDestinations c s) as [d s']. cbn [fst snd] in *.
  destruct (opens d ip host); cbn [fst snd]; (split; [done|]; split; [done|]; intros c'; by rewrite Hst).
Qed.

Lemma satisfy_spec (p : Policy) (classes : list string) (ip : list Z) (host : string) : ∀ v src,
  src_ok src → ((satisfy p classes ip host v src).1.1 = None ↔ Forall (λ c, covered p src ip host c = true) classes).
Proof.
  induction classes as [|c classes IH]; intros v src Hs; cbn [satisfy]; [done|].
  destruct (satisfiesClass_spec p c ip host v src Hs) as (H1 & H2 & H3).
  destruct (satisfiesClass p c ip host v src) as [[ok v'] src']. cbn [fst snd] in *. rewrite Forall_cons, <- H1.
  destruct ok; [|by split; [|intros [? _]]]. rewrite (IH v' src' H2).
  split; [intros Hf; split; [done|]|intros [_ Hf]]; (eapply Forall_impl; [exact Hf|]); cbn; intros c'; by rewrite H3.
Qed.

Definition named (reg : option ClassRegistry) (t : Z) : list string := match reg with Some r => NamesOf t r | None => [] end.

Lemma Allow_iff (reg : option ClassRegistry) (t : Z) (dst : option (list Z)) (host : string) (port : Z) (p : Policy) (src : option S) :
  src_ok src →
  vd_Decision (Allow reg t dst host port p src).1.1 = DecisionAllow ↔
    t = 0%Z ∨ ∃ ip, dst = Some ip ∧ Forall (λ c, covered p src ip (Str.ToLower host) c = true) (named reg t).
Proof.
  intros Hs. unfold Allow, ts_IsEmpty. destruct (Z.eqb_spec t 0) as [->|Ht]; [by split; [left|]|].
  destruct dst as [ip|]; [|by split; [|intros [?|(? & ? & _)]]]. fold (named reg t).
  match goal with |- context [satisfy p _ ip _ ?v0 src] =>
    pose proof (satisfy_spec p (named reg t) ip (Str.ToLower host) v0 src Hs) as Hsat;
    destruct (satisfy p (named reg t) ip (Str.ToLower host) v0 src) as [[missing v] src'] end.
  cbn [fst snd] in Hsat. destruct missing as [c|]; cbn [vd_Decision settled fst].
  - split; [done|]. intros [?|(ip' & [= <-] & Hall)]; [done|]. by apply Hsat in Hall.
  - split; [|done]. intros _. right. exists ip. split; [done|]. by apply Hsat.
Qed.

Lemma Allow_tallied (reg : option ClassRegistry) (t : Z) (dst : option (list Z)) (host : string) (port : Z) (p : Policy) (src : option S) :
  (Allow reg t dst host port p src).1.2 =
  tallied (bool_decide (vd_Decision (Allow reg t dst host port p src).1.1 = DecisionAllow)) p.
Proof.
  unfold Allow. destruct (ts_IsEmpty t); [done|]. destruct dst as [ip|]; [|done].
  by destruct (satisfy _ _ _ _ _ _) as [[[c|] v] src'].
Qed.

(** C24: The valve allows a connection exactly when the lineage is untainted, or the
    address is one and every named class of the taint has a rule or a passport in
    force for the destination; each check is counted once, as allowed or denied. *)
Theorem valve_decision (reg : option ClassRegistry) (t : Z) (dst : option (list Z)) (host : string) (port : Z) (p : Policy)
    (src : option S) :
  src_ok src →
  let '(v, p', _) := Allow reg t dst host port p src in
  (vd_Decision v = DecisionAllow ↔
     t = 0%Z ∨ ∃ ip, dst = Some ip ∧ ∀ c, c ∈ named reg t → covered p src ip (Str.ToLower host) c = true) ∧
  pl_checks p' = u64 (pl_checks p + 1) ∧ pl_rules p' = pl_rules p ∧
  (pl_allowed p', pl_denied p') =
    (if decide (vd_Decision v = DecisionAllow) then (u64 (pl_allowed p + 1), pl_denied p)
     else (pl_allowed p, u64 (pl_denied p + 1))).
Proof.
  intros Hs. pose proof (Allow_iff reg t dst host port p src Hs) as Hd. pose proof (Allow_tallied reg t dst host port p src) as Hp.
  destruct (Allow reg t dst host port p src) as [[v p'] src']. cbn [fst snd] in *. setoid_rewrite Forall_forall in Hd.
  split; [done|]. rewrite Hp. split; [done|]. split; [done|]. by destruct (vd_Decision v).
Qed.

Lemma NamesOf_union (t u : Z) (r : ClassRegistry) (n : string) : n ∈ NamesOf t r → n ∈ NamesOf (Union t u) r.
Proof.
  unfold NamesOf, Union. rewrite !list_elem_of_filter, !list_elem_of_fmap. intros [Hn (b & -> & Hb)]. split; [done|].
  exists b. split; [done|]. apply elem_of_Bits in Hb as [Hb Ht]. apply elem_of_Bits. split; [done|].
  by rewrite Z.lor_spec, Ht.
Qed.

(** More taint never opens the valve: a destination allowed to a lineage is allowed
    to it with any part of its taint. *)
Theorem taint_never_opens (reg : option ClassRegistry) (t u : Z) (dst : option (list Z)) (host : string) (port : Z)
    (p : Policy) (src : option S) :
  src_ok src →
  vd_Decision (Allow reg (Union t u) dst host port p src).1.1 = DecisionAllow →
  vd_Decision (Allow reg t dst host port p src).1.1 = DecisionAllow.
Proof.
  intros Hs. rewrite !Allow_iff by done. intros [Hz|(ip & Hd & Hall)].
  - left. by apply Z.lor_eq_0_iff in Hz as [? _].
  - right. exists ip. split; [done|]. rewrite Forall_forall in Hall |- *. intros c Hc. apply Hall.
    destruct reg as [r|]; [|done]. by apply NamesOf_union.
Qed.

(** ** A query registers the classes it names *)

Lemma reg_size (r : ClassRegistry) : reg_ok r → size (dom (byName r)) ≤ next r.
Proof.
  intros (Hn & Hl & Hb & _). transitivity (size (list_to_set (take (next r) (byBit r)) : gset string)).
  - apply subseteq_size. intros n [b Hnb]%elem_of_dom. apply Hb in Hnb as [Hlt Hbit]. apply elem_of_list_to_set.
    apply list_elem_of_lookup. exists (Z.to_nat b). by rewrite lookup_take_lt by lia.
  - rewrite <- (length_take_le (byBit r) (next r)) at 2 by lia. generalize (take (next r) (byBit r)). intros l.
    induction l as [|x l IH]; [done|]. cbn [list_to_set length].
    assert (Hu : size ({[x]} ∪ list_to_set l : gset string) ≤ 1 + size (list_to_set l : gset string)); [|lia].
    rewrite size_union_alt, size_singleton. apply Nat.add_le_mono_l, subseteq_size. set_solver.
Qed.

(** what a lookup of names leaves in the registry *)
Lemma SetFromNames_reg (names : list string) (r : ClassRegistry) : reg_ok r →
  let r' := (SetFromNames names r).2 in
  reg_ok r' ∧ next r ≤ next r' ∧ dom (byName r) ⊆ dom (byName r') ∧ dom (byName r') ⊆ dom (byName r) ∪ list_to_set names ∧
  ∀ n, n ∈ names → n ∈ dom (byName r') ∨ next r' = MaxTaintBits.
Proof.
  intros Hr. unfold SetFromNames. induction names as [|x names IH] using rev_ind; cbv zeta.
  { cbn. split; [done|]. split; [done|]. split; [done|]. split; set_solver. }
  rewrite foldl_snoc. destruct (foldl _ _ names) as [[t failed] r1]. cbv zeta in IH. cbn [snd] in IH.
  destruct IH as (H1 & H2 & H3 & H4 & H5). destruct (Bit_spec x r1 H1) as (B1 & B2 & B3 & B4 & B5).
  assert (Hd1 : dom (byName r1) ⊆ dom (byName (Bit x r1).2)) by by apply subseteq_dom.
  assert (Hd2 : dom (byName (Bit x r1).2) ⊆ dom (byName r1) ∪ {[x]}).
  { intros n [b Hb]%elem_of_dom. destruct (B4 n b Hb) as [->|Ho]; [set_solver|]. apply elem_of_union_l, elem_of_dom. by exists b. }
  assert (Hx : x ∈ dom (byName (Bit x r1).2) ∨ next (Bit x r1).2 = MaxTaintBits).
  { destruct (Bit x r1) as [[b|] r2]; cbn [fst snd] in *; [left; apply elem_of_dom; by exists b|right]. destruct B5 as (-> & ? & _). done. }
  assert (Hmax : next (Bit x r1).2 ≤ MaxTaintBits) by apply B1.
  assert (Hsnd : (let '(b, r) := Bit x r1 in match b with Some b => (With t b, failed, r) | None => (t, true, r) end).2 = (Bit x r1).2)
    by by destruct (Bit x r1) as [[b|] r2].
  cbv zeta. rewrite Hsnd. split; [done|]. split; [lia|]. split; [by etransitivity|]. split.
  - etransitivity; [exact Hd2|]. rewrite list_to_set_app_L. clear -H4. set_solver.
  - intros n [Hn|Hn%list_elem_of_singleton]%elem_of_app; [|by subst]. destruct (H5 n Hn) as [?|?]; [left; by apply Hd1|right; lia].
Qed.

Lemma register_all_dom (names : list string) : ∀ r, reg_ok r → dom (byName (register_all names r)) ⊆ dom (byName r) ∪ list_to_set names.
Proof.
  induction names as [|n names IH]; intros r Hr; [set_solver|]. destruct (Bit_spec n r Hr) as (Hr' & _ & _ & Hold & _).
  cbn [register_all foldl list_to_set]. etransitivity; [by apply IH|]. intros k. rewrite elem_of_union. intros [Hk|]; [|set_solver].
  apply elem_of_dom in Hk as [b Hb]. destruct (Hold k b Hb) as [->|Ho]; [set_solver|]. apply elem_of_union_l, elem_of_dom. by exists b.
Qed.

(** a query: classes, address, host, port *)
Notation query := (list string * string * string * Z)%type.

Definition ask (st : ClassRegistry * Policy * option S) (q : query) : ClassRegistry * Policy * option S :=
  let '(classes, ip, host, port) := q in (egress_check classes ip host port st).2.

Lemma ask_reg (q : query) (st : ClassRegistry * Policy * option S) :
  is_Some (ParseIP q.1.1.2) → (ask st q).1.1 = (SetFromNames q.1.1.1 st.1.1).2.
Proof.
  destruct q as [[[classes ip] host] port], st as [[r p] src]. cbn [fst snd]. intros [a Ha]. unfold ask, egress_check. rewrite Ha.
  destruct (SetFromNames classes r) as [[ts failed] r']. by destruct (Allow _ _ _ _ _ _ _) as [[v p'] src'].
Qed.

Lemma asks_reg (qs : list query) : ∀ st, reg_ok st.1.1 → Forall (λ q, is_Some (ParseIP q.1.1.2)) qs →
  let r := (foldl ask st qs).1.1 in
  reg_ok r ∧ next st.1.1 ≤ next r ∧ dom (byName st.1.1) ⊆ dom (byName r) ∧
  dom (byName r) ⊆ dom (byName st.1.1) ∪ list_to_set (concat ((λ q, q.1.1.1) <$> qs)) ∧
  ∀ n, n ∈ concat ((λ q, q.1.1.1) <$> qs) → n ∈ dom (byName r) ∨ next r = MaxTaintBits.
Proof.
  induction qs as [|q qs IH]; intros st Hr Hq; cbv zeta;
    [split; [done|]; split; [done|]; split; [done|]; split; [set_solver|by intros n ?%elem_of_nil]|].
  apply Forall_cons in Hq as [Hq Hqs]. cbn [foldl fmap list_fmap concat]. pose proof (ask_reg q st Hq) as Ha.
  destruct (SetFromNames_reg q.1.1.1 st.1.1 Hr) as (H1 & H2 & H3 & H4 & H5). rewrite <- Ha in H1, H2, H3, H4, H5.
  destruct (IH (ask st q) H1 Hqs) as (I1 & I2 & I3 & I4 & I5). assert (next (foldl ask (ask st q) qs).1.1 ≤ MaxTaintBits) by apply I1.
  split; [done|]. split; [lia|]. split; [by transitivity (dom (byName (ask st q).1.1))|]. split.
  - etransitivity; [exact I4|]. rewrite list_to_set_app_L. clear -H4. set_solver.
  - intros n [Hn|Hn]%elem_of_app; [|by apply I5]. destruct (H5 n Hn) as [?|?]; [left; by apply I3|right; lia].
Qed.

(** C23: The check handler registers every class name it is asked about, and the
    registry has 64 places: after checks that named 64 classes, whatever they were,
    a class the daemon had not registered before has no bit, and a lineage of that
    class counts as untainted and is allowed everywhere. *)
Theorem queries_exhaust_classes (prior : list string) (qs : list query) (class ip host : string) (port : Z) (p : Policy)
    (src : option S) :
  Forall (λ q, is_Some (ParseIP q.1.1.2)) qs →
  64 ≤ size (list_to_set (concat ((λ q, q.1.1.1) <$> qs)) : gset string) →
  class ∉ prior → class ∉ concat ((λ q, q.1.1.1) <$> qs) → is_Some (ParseIP ip) →
  ∃ v, (egress_check [class] ip host port (foldl ask (register_all prior NewClassRegistry, p, src) qs)).1 = Some v ∧
       vd_Decision v = DecisionAllow ∧ vd_TaintBits v = 0%Z.
Proof.
  intros Hq Hsz Hp Hc [a Ha]. destruct (register_all_ok prior _ new_reg_ok) as [Hr _].
  destruct (asks_reg qs (register_all prior NewClassRegistry, p, src) Hr Hq) as (H1 & H2 & H3 & H4 & H5).
  pose proof (register_all_dom prior _ new_reg_ok) as Hd.
  destruct (foldl ask _ qs) as [[r p'] src']. cbn [fst snd] in *.
  assert (Hfull : next r = MaxTaintBits).
  { destruct (decide (next r = MaxTaintBits)) as [|Hne]; [done|]. pose proof (reg_size r H1) as Hs. destruct H1 as [Hle _].
    assert (size (list_to_set (concat ((λ q, q.1.1.1) <$> qs)) : gset string) ≤ size (dom (byName r)) ).
    { apply subseteq_size. intros n Hn%elem_of_list_to_set. by destruct (H5 n Hn). }
    unfold MaxTaintBits in *. lia. }
  assert (Hnone : byName r !! class = None).
  { apply not_elem_of_dom. intros Hin%H4%elem_of_union. destruct Hin as [Hin%Hd|Hin]; [|set_solver].
    apply elem_of_union in Hin as [Hin|Hin]; [|set_solver]. apply elem_of_dom in Hin as [x Hx]. cbn in Hx. by rewrite lookup_empty in Hx. }
  unfold egress_check. rewrite Ha. unfold SetFromNames. cbn [foldl]. unfold Bit. rewrite Hnone, Hfull. cbn.
  eexists. split; [reflexivity|done].
Qed.
End decides.

(** ** Passports *)

Lemma clampTTL_bounds (ttl : Time.duration) : (MinTTL ≤ clampTTL ttl ≤ HardTTLMax)%Z.
Proof.
  unfold clampTTL, MinTTL, HardTTLMax, Time.Minute, Time.Second.
  repeat match goal with |- context [(?a <? ?b)%Z] => destruct (Z.ltb_spec a b) end; lia.
Qed.

Lemma TruncateSecond_bounds (t : Time.time) : (Time.TruncateSecond t ≤ t < Time.TruncateSecond t + Time.Second)%Z.
Proof.
  unfold Time.TruncateSecond. pose proof (Z.div_mod t Time.Second ltac:(done)). pose proof (Z.mod_pos_bound t Time.Second ltac:(done)). lia.
Qed.

(** what the checks of [Issue] leave *)
Lemma refused_none (priv : bytes) (p : IssueParams) : refused priv p = None →
  length priv = 64 ∧ blank (ip_Actor p) = false ∧ blank (ip_Reason p) = false ∧ blank (ip_ApprovedBy p) = false ∧ ip_DataClasses p ≠ [].
Proof.
  unfold refused. destruct (Nat.eqb_spec (length priv) 64); [|done]. cbn [negb].
  destruct (blank (ip_Actor p)), (blank (ip_Reason p)), (blank (ip_ApprovedBy p)), (ip_DataClasses p); done.
Qed.

Section passport_facts.
Context (Sign : bytes → string → bytes) (VerifySig : bytes → string → bytes → bool).
Context (jsonPassport : Passport → option string) (b64 : bytes → string) (unb64 : string → option bytes).
Context (ord : gmap string Signed → list string) (Hord : ∀ m, range_order m (ord m)).

Notation issue := (Issue Sign jsonPassport b64).

Lemma Issue_ok (priv : bytes) (p : IssueParams) (fresh : option string) (t : Time.time) (s : Signed) :
  issue priv p fresh t = Ok s → ∃ id body, fresh = Some id ∧ refused priv p = None ∧ sg_Passport s = passport_of p id t ∧
    jsonPassport (passport_of p id t) = Some body ∧ sg_Signature s = b64 (Sign priv body).
Proof.
  unfold Issue. destruct (refused priv p); [done|]. destruct fresh as [id|]; [|done].
  destruct (jsonPassport (passport_of p id t)) as [body|] eqn:Hj; [|done]. intros [= <-]. by exists id, body.
Qed.

(** A passport that was issued verifies with the issuer's key from then until it
    expires, and not after; it lives for the time asked for, but at least half a
    minute and at most a quarter of an hour, from the second it was issued in. *)
Theorem issued_passport_verifies (priv : bytes) (p : IssueParams) (id : string) (t later : Time.time) (s : Signed) :
  (∀ body, VerifySig (Public priv) body (Sign priv body) = true) → (∀ b, unb64 (b64 b) = Some b) →
  issue priv p (Some id) t = Ok s → (t ≤ later)%Z →
  let pp := sg_Passport s in
  Verify VerifySig jsonPassport unb64 (Public priv) s later =
    (if (later <=? pp_ExpiresAt pp)%Z then Ok pp else Err Expired) ∧
  (pp_IssuedAt pp ≤ t < pp_IssuedAt pp + Time.Second)%Z ∧
  pp_ExpiresAt pp = (pp_IssuedAt pp + clampTTL (ip_TTL p))%Z ∧ (MinTTL ≤ clampTTL (ip_TTL p) ≤ HardTTLMax)%Z.
Proof.
  intros Hsig Hb64 Hi Hle pp. apply Issue_ok in Hi as (id' & body & _ & Hr & Hp & Hj & Hs).
  apply refused_none in Hr as [Hlen _]. unfold pp. rewrite Hp. pose proof (TruncateSecond_bounds t). pose proof (clampTTL_bounds (ip_TTL p)).
  split; [|done]. unfold Verify. rewrite Hp, Hs, Hj, Hb64, Hsig. cbn [pp_Version passport_of negb].
  assert (length (Public priv) = 32) as -> by (unfold Public; rewrite length_drop; lia).
  cbn [Nat.eqb negb Z.eqb Pos.eqb]. unfold Time.Before, Time.After. cbn [pp_IssuedAt pp_ExpiresAt passport_of].
  unfold Time.Add, Time.Sub, MinTTL, HardTTLMax, Time.Minute, Time.Second, min_int64, max_int64 in *.
  repeat match goal with |- context [(?a <? ?b)%Z] => destruct (Z.ltb_spec a b) | |- context [(?a <=? ?b)%Z] => destruct (Z.leb_spec a b) end;
    try done; lia.
Qed.

(** ** Runs of the store *)

Inductive pt_op :=
  | OIssue (p : IssueParams) (fresh : option string) (t : Time.time)
  | ORevoke (id : string) (t : Time.time)
  | OSweep (t : Time.time)
  | OAsk (class : string) (t : Time.time).

Definition op_time (o : pt_op) : Time.time := match o with OIssue _ _ t | ORevoke _ t | OSweep t | OAsk _ t => t end.

Definition pt_exec (s : PassportStore) (o : pt_op) : PassportStore :=
  match o with
  | OIssue p fresh t => (pt_Issue Sign jsonPassport b64 p fresh t s).2
  | ORevoke id t => pt_Revoke id t s
  | OSweep t => (pt_Sweep t s).2
  | OAsk class t => (pt_ActiveDestinations ord t class s).2
  end.

Lemma exec_priv (s : PassportStore) (o : pt_op) : pt_priv (pt_exec s o) = pt_priv s.
Proof.
  destruct o; try done. cbn [pt_exec]. unfold pt_Issue. destruct (pt_priv s) as [k|] eqn:E; [|done].
  destruct (issue k p fresh t); cbn [snd pt_priv with_passports]; by rewrite E.
Qed.

(** an operation that is not an issue adds no passport *)
Lemma exec_shrinks (s : PassportStore) (o : pt_op) (id : string) (x : Signed) :
  match o with OIssue _ _ _ => False | _ => True end → pt_byID (pt_exec s o) !! id = Some x →
  pt_byID s !! id = Some x ∧ ∀ t, o ≠ ORevoke id t.
Proof.
  destruct o as [| j t|t|class t]; [done|..]; intros _; cbn.
  - intros [Hne Hx]%lookup_delete_Some. split; [done|]. by intros ? [= ->].
  - intros [Hx _]%map_lookup_filter_Some. by split.
  - rewrite delete_keys. destruct (decide _); [done|]. intros Hx. by split.
Qed.

(** where a stored passport comes from *)
Definition issued_in (priv : option bytes) (ops : list pt_op) (id : string) (x : Signed) : Prop :=
  ∃ k before p t after, priv = Some k ∧ ops = before ++ OIssue p (Some id) t :: after ∧
    (∀ r, ORevoke id r ∉ after) ∧ refused k p = None ∧ sg_Passport x = passport_of p id t.

Lemma stored_issued (priv : option bytes) (ops : list pt_op) : ∀ id x,
  pt_byID (foldl pt_exec (NewPassportStore priv) ops) !! id = Some x → issued_in priv ops id x.
Proof.
  assert (Hpriv : ∀ l, pt_priv (foldl pt_exec (NewPassportStore priv) l) = priv).
  { intros l. induction l as [|o l IH] using rev_ind; [done|]. by rewrite foldl_snoc, exec_priv. }
  assert (Hsnoc : ∀ l o id x, issued_in priv l id x → (∀ t, o ≠ ORevoke id t) → issued_in priv (l ++ [o]) id x).
  { intros l o id x (k & b & p & t & a & H1 & -> & H2 & H3 & H4) Ho. exists k, b, p, t, (a ++ [o]). split; [done|].
    split; [by rewrite <- app_assoc|]. split; [|done]. intros r [Hr|Hr%list_elem_of_singleton]%elem_of_app; [by eapply H2|by eapply Ho]. }
  induction ops as [|o ops IH] using rev_ind; intros id x; [cbn; by rewrite lookup_empty|]. rewrite foldl_snoc.
  set (s := foldl pt_exec (NewPassportStore priv) ops) in *.
  destruct o as [p fresh t|j t|t|class t]; try (intros [Hx Hne]%exec_shrinks; [|done]; by apply Hsnoc; [apply IH|]).
  cbn [pt_exec]. unfold pt_Issue. rewrite (Hpriv ops : pt_priv s = priv). destruct priv as [k|]; [|intros Hx; by apply Hsnoc; [apply IH|]].
  destruct (issue k p fresh t) as [sg|e] eqn:Hi; cbn [snd]; [|intros Hx; by apply Hsnoc; [apply IH|]].
  apply Issue_ok in Hi as (id' & body & -> & Hr & Hp & _ & _). cbn [pt_byID with_passports]. rewrite Hp. cbn [pp_ID passport_of].
  intros [[<- <-]|[Hne Hx]]%lookup_insert_Some; [|by apply Hsnoc; [apply IH|]].
  exists k, ops, p, t, []. split; [done|]. split; [done|]. split; [|done]. intros r. apply not_elem_of_nil.
Qed.

Lemma run_keyed (priv : option bytes) (ops : list pt_op) : keyed (pt_byID (foldl pt_exec (NewPassportStore priv) ops)).
Proof. by intros id x (k & b & p & t & a & _ & _ & _ & _ & ->)%stored_issued. Qed.

(** C21: Whatever was issued, revoked, swept and asked, a destination the passports open
    for a class is opened by one that this store issued, with an actor, a reason
    and an approver, for that class and destination, at most a quarter of an hour
    before, and that was not revoked since. *)
Theorem passport_destinations_authorised (priv : option bytes) (ops : list pt_op) (class : string) (now : Time.time)
    (ip : list Z) (host : string) :
  opens (pt_ActiveDestinations ord now class (foldl pt_exec (NewPassportStore priv) ops)).1 ip host = true →
  ∃ before p id t after,
    ops = before ++ OIssue p (Some id) t :: after ∧ (∀ r, ORevoke id r ∉ after) ∧
    blank (ip_Actor p) = false ∧ blank (ip_Reason p) = false ∧ blank (ip_ApprovedBy p) = false ∧
    class ∈ ip_DataClasses p ∧ (now ≤ t + HardTTLMax)%Z ∧ passport_opens (passport_of p id t) ip host = true.
Proof.
  intros (id & x & Hx & Hc)%store_opens; [|done]. apply stored_issued in Hx as (k & b & p & t & a & _ & -> & Hrev & Hr & Hp).
  apply refused_none in Hr as (_ & Ha & Hre & Hap & _). unfold covering in Hc. rewrite Hp in Hc.
  apply andb_prop in Hc as [Hc Ho]. apply andb_prop in Hc as [Hl Hcl]. apply bool_decide_eq_true in Hcl.
  exists b, p, id, t, a. repeat (split; [done|]). split; [|done].
  unfold outlived, Time.After in Hl. rewrite Hp in Hl. apply negb_true_iff, Z.ltb_ge in Hl. cbn [pp_ExpiresAt passport_of] in Hl.
  pose proof (TruncateSecond_bounds t). pose proof (clampTTL_bounds (ip_TTL p)). unfold Time.Add in Hl. lia.
Qed.

Lemma revoked_stays (id : string) (t now : Time.time) (ops : list pt_op) : ∀ s,
  Forall (λ o, t ≤ op_time o ≤ now)%Z ops → (∃ r, (t ≤ r)%Z ∧ pt_revoked s !! id = Some r) →
  (∃ r, (t ≤ r)%Z ∧ pt_revoked (foldl pt_exec s ops) !! id = Some r) ∨ (t + 24 * Time.Hour < now)%Z.
Proof.
  induction ops as [|o ops IH] using rev_ind; intros s Ho Hs; [by left|]. rewrite foldl_snoc.
  apply Forall_app in Ho as [Ho [Hlast _]%Forall_cons]. destruct (IH s Ho Hs) as [(r & Hr & Hx)|]; [|by right].
  set (s' := foldl pt_exec s ops) in *. destruct o as [p fresh u|j u|u|class u]; cbn [pt_exec op_time] in *.
  - left. exists r. split; [done|]. unfold pt_Issue. destruct (pt_priv s'); [|done]. by destruct (issue _ _ _ _).
  - left. cbn [pt_Revoke pt_revoked with_passports]. destruct (decide (j = id)) as [->|].
    + exists u. rewrite lookup_insert_eq. split; [apply Hlast|done].
    + exists r. by rewrite lookup_insert_ne.
  - cbn. destruct (Time.Before r (Time.Add u (- 24 * Time.Hour))) eqn:Hb.
    + right. unfold Time.Before, Time.Add in Hb. apply Z.ltb_lt in Hb. lia.
    + left. exists r. split; [done|]. by apply map_lookup_filter_Some.
  - left. by exists r.
Qed.

(** C22: A revoked passport never verifies again: the record of the revocation is swept
    only when the passport has long expired. *)
Theorem revocation_is_final (s : PassportStore) (signed : Signed) (t now : Time.time) (ops : list pt_op) :
  (pp_IssuedAt (sg_Passport signed) ≤ t)%Z → Forall (λ o, t ≤ op_time o ≤ now)%Z ops →
  is_ok (VerifyActive VerifySig jsonPassport unb64 signed now
           (foldl pt_exec (pt_Revoke (pp_ID (sg_Passport signed)) t s) ops)) = false.
Proof.
  intros Hi Ho. unfold VerifyActive. set (st := foldl pt_exec _ ops).
  destruct (revoked_stays (pp_ID (sg_Passport signed)) t now ops (pt_Revoke (pp_ID (sg_Passport signed)) t s) Ho) as [(r & _ & Hr)|Hlate].
  - exists t. cbn. by rewrite lookup_insert_eq.
  - unfold has_key. fold st in Hr. by rewrite Hr.
  - destruct (has_key _ _); [done|]. unfold Verify. destruct (negb _); [done|]. destruct (negb _); [done|].
    destruct (jsonPassport _); [|done]. destruct (unb64 _); [|done]. destruct (negb _); [done|]. destruct (Time.Before _ _); [done|].
    unfold Time.After. destruct (Z.ltb_spec (pp_ExpiresAt (sg_Passport signed)) now) as [|Hexp]; [done|].
    match goal with |- context [(?a <? ?b)%Z] => destruct (Z.ltb_spec a b) as [|Hsub] end; [done|exfalso].
    unfold Time.Sub, HardTTLMax, Time.Hour, Time.Minute, Time.Second, min_int64, max_int64 in *. lia.
Qed.
End passport_facts.

(** ** Witnesses *)

Module ValveDemo.

Definition sign (priv : bytes) (m : string) : bytes := Public priv ++ [Z.of_nat (Str.len m)].
Definition verify (pub : bytes) (m : string) (sig : bytes) : bool := bool_decide (sig = pub ++ [Z.of_nat (Str.len m)]).
Definition json (p : Passport) : option string := Some (pp_ID p +:+ ("|" +:+ pp_Actor p)).
Definition key : bytes := replicate 64 7%Z.
Definition b64 (b : bytes) : string := text_of b.
Definition unb64 (s : string) : option bytes := of_text s.

Definition asked : IssueParams := {|
  ip_Actor := "admin_user_91"; ip_Route := ""; ip_DataClasses := ["pii"]; ip_MaxRows := 10; ip_MaxBytes := 0;
  ip_DestCIDRs := ["203.0.113.0/24"]; ip_DestIPs := ["2001:db8::7"; "::ffff:198.51.100.7"]; ip_DestHostSuffixes := ["Example.com"];
  ip_Reason := "quarterly export"; ip_ApprovedBy := "second_user"; ip_TTL := 3600 * Time.Second |}.

Definition second (n : Z) : Time.time := n * Time.Second.
Definition issue : pt_op := OIssue asked (Some "0a") (second 1000).
Definition store (ops : list pt_op) : PassportStore := foldl (pt_exec sign json b64 some_order) (NewPassportStore (Some key)) ops.
Definition signed : Signed :=
  match Issue sign json b64 key asked (Some "0a") (second 1000) with
  | Ok s => s
  | Err _ => {| sg_Passport := passport_of asked "" 0; sg_KeyID := ""; sg_Signature := "" |}
  end.

#[local] Instance source : PassportSource PassportStore := store_source some_order (second 1200) (λ m, some_order_ok m).

Definition inside : list Z := v4 203 0 113 9.
Definition registry : ClassRegistry := register_all ["pii"; "backup"] NewClassRegistry.

Lemma store_ok : src_ok (Some (store [issue])).
Proof. apply run_keyed. Qed.

(** a lineage of class 0 (pii) reaches the address of the passport, one of class 1 does not *)
Lemma valve_decision_witness :
  vd_Decision (Allow (Some registry) 1 (Some inside) "" 443 NewPolicy (Some (store [issue]))).1.1 = DecisionAllow ∧
  vd_Decision (Allow (Some registry) 3 (Some inside) "" 443 NewPolicy (Some (store [issue]))).1.1 = DecisionDeny ∧
  pl_checks (Allow (Some registry) 3 (Some inside) "" 443 NewPolicy (Some (store [issue]))).1.2 = 1%Z.
Proof.
  split; [vm_compute; reflexivity|]. split; [vm_compute; reflexivity|].
  pose proof (valve_decision (Some registry) 3 (Some inside) "" 443 NewPolicy (Some (store [issue])) store_ok) as Hv.
  destruct (Allow (Some registry) 3 (Some inside) "" 443 NewPolicy (Some (store [issue]))) as [[v p] src]. apply Hv.
Defined.

Lemma taint_never_opens_witness :
  vd_Decision (Allow (Some registry) 0 (Some inside) "" 443 NewPolicy (Some (store [issue]))).1.1 = DecisionAllow.
Proof. refine (taint_never_opens (Some registry) 0 1 (Some inside) "" 443 NewPolicy (Some (store [issue])) store_ok _). vm_compute. reflexivity. Defined.

Definition names (n : nat) : list string := (λ i, "c" +:+ Str.itoa (Z.of_nat i)) <$> seq 0 n.

Lemma queries_exhaust_classes_witness :
  ∃ v, (egress_check ["credentials"] "198.51.100.1" "" 443
          (foldl ask (register_all ["pii"] NewClassRegistry, NewPolicy, Some (store [])) [(names 64, "192.0.2.1", "", 0%Z)])).1 = Some v ∧
       vd_Decision v = DecisionAllow ∧ vd_TaintBits v = 0%Z.
Proof.
  refine (queries_exhaust_classes ["pii"] [(names 64, "192.0.2.1", "", 0%Z)] "credentials" "198.51.100.1" "" 443 NewPolicy (Some (store [])) _ _ _ _ _).
  - constructor; [vm_compute; by eexists|constructor].
  - apply Nat.leb_le. vm_compute. reflexivity.
  - apply (bool_decide_unpack _). vm_compute. exact I.
  - apply (bool_decide_unpack _). vm_compute. exact I.
  - vm_compute. by eexists.
Defined.

Lemma issued_passport_verifies_witness :
  Verify verify json unb64 (Public key) signed (second 1900) = Ok (sg_Passport signed) ∧
  Verify verify json unb64 (Public key) signed (second 1901) = Err Expired.
Proof.
  split.
  - exact (proj1 (issued_passport_verifies sign verify json b64 unb64 key asked "0a" (second 1000) (second 1900) signed
      (λ body, bool_decide_eq_true_2 _ eq_refl) (λ b, of_text_of b) eq_refl ltac:(vm_compute; discriminate))).
  - exact (proj1 (issued_passport_verifies sign verify json b64 unb64 key asked "0a" (second 1000) (second 1901) signed
      (λ body, bool_decide_eq_true_2 _ eq_refl) (λ b, of_text_of b) eq_refl ltac:(vm_compute; discriminate))).
Defined.

Lemma passport_destinations_authorised_witness :
  ∃ before p id t after, [issue; OSweep (second 1060)] = before ++ OIssue p (Some id) t :: after ∧ blank (ip_ApprovedBy p) = false.
Proof.
  destruct (passport_destinations_authorised sign json b64 some_order (λ m, some_order_ok m) (Some key) [issue; OSweep (second 1060)] "pii" (second 1200)
    inside "") as (b & p & id & t & a & He & _ & _ & _ & Ha & _); [vm_compute; reflexivity|]. by exists b, p, id, t, a.
Defined.

Lemma revocation_is_final_witness :
  is_ok (VerifyActive verify json unb64 signed (second 200000)
           (foldl (pt_exec sign json b64 some_order) (pt_Revoke "0a" (second 1100) (store [issue])) [OSweep (second 150000)])) = false.
Proof.
  refine (revocation_is_final sign verify json b64 unb64 some_order (store [issue]) signed (second 1100) (second 200000) [OSweep (second 150000)] _ _);
    [vm_compute; discriminate|]. repeat constructor; vm_compute; discriminate.
Defined.

(** An IPv4 address written as an IPv6 one opens nothing at that address. *)
Example mapped_address_opens_elsewhere :
  (n ← net_of_ip "::ffff:198.51.100.7"; Some (Contains n (Some (v4 198 51 100 7)), Contains n (Some (replicate 15 0 ++ [1])%Z))) =
  Some (false, true).
Proof. vm_compute. reflexivity. Qed.

(** An address of a rule that is not written the way Go writes it covers nothing. *)
Example address_text_matters :
  match parse_rule {| rt_class := "pii"; rt_name := ""; rt_cidrs := []; rt_ips := ["2001:DB8::1"]; rt_host_suffixes := [] |}, ParseIP "2001:DB8::1" with
  | Ok r, Some ip => rule_matches r ip ""
  | _, _ => true
  end = false.
Proof. vm_compute. reflexivity. Qed.

End ValveDemo.
