(* ===== verification/AlertRouter.v ===== *)
(** * Alert routing (src/pkg/rulecat, src/pkg/lineagescore, src/pkg/fleetrarity,
    src/pkg/verdictcount, src/pkg/model/rule.go, the router of src/cmd/xhelix/run.go)

    Every alert has a category by its rule: facts are dropped, hard denials go
    out, and the rest is evidence that is added up per process lineage.  When the
    evidence of the last hour reaches 80 one synthesised alert goes out instead.

    The YAML reader, the order of a map range, the hub's answers and the clock are
    arguments.  Evidence goes through [Observe] under its lock, so a run is a
    sequence of calls. *)

From S2P Require Import Prelude GoStd NetIP Model AssetClass Correlator Provenance AlertBus.

(** ** Categories (model/rule.go) *)

Inductive Category : Type := CategoryWeakSignal | CategoryFact | CategoryIncident | CategoryHardDeny.

#[export] Instance Category_eq_dec : EqDecision Category.
Proof. solve_decision. Defined.

Definition Category_String (c : Category) : string :=
  match c with
  | CategoryFact => "fact" | CategoryWeakSignal => "weak_signal"
  | CategoryIncident => "incident" | CategoryHardDeny => "hard_deny"
  end.

Definition ParseCategory (raw : string) : Category * bool :=
  let s := Str.ToLower (Str.TrimSpace raw) in
  if decide (s = "" ∨ s = "weak_signal") then (CategoryWeakSignal, true)
  else if decide (s = "fact") then (CategoryFact, true)
  else if decide (s = "incident") then (CategoryIncident, true)
  else if decide (s = "hard_deny") then (CategoryHardDeny, true)
  else (CategoryWeakSignal, false).

Definition DefaultWeight (c : Category) : Z :=
  match c with CategoryFact => 0 | CategoryWeakSignal => 20 | CategoryIncident => 50 | CategoryHardDeny => 100 end.

Module Rules.

(** The fields of [model.Rule] that its methods here read. *)
Record Rule := {
  ID : string; Sev : Severity; SeverityRaw : string; Mode : RuleMode; ModeRaw : string;
  Class : Z; Cat : Category; CategoryRaw : string; Weight : Z
}.

Definition NormalizeClass (r : Rule) : Z := if (Class r <? 1)%Z || (3 <? Class r)%Z then 3 else Class r.

Definition with_fields (s : Severity) (m : RuleMode) (c : Category) (r : Rule) : Rule := {|
  ID := ID r; Sev := s; SeverityRaw := SeverityRaw r; Mode := m; ModeRaw := ModeRaw r;
  Class := Class r; Cat := c; CategoryRaw := CategoryRaw r; Weight := Weight r |}.

(** the field a value of which does not parse *)
Definition NormalizeCategory (r : Rule) : Rule * option string :=
  let '(c, ok) := ParseCategory (CategoryRaw r) in
  (with_fields (Sev r) (Mode r) c r, if ok : bool then None else Some "category").

Definition EffectiveWeight (r : Rule) : Z := if (Weight r =? 0)%Z then DefaultWeight (Cat r) else Weight r.

Definition parse_mode (raw : string) : option RuleMode :=
  if decide (raw = "" ∨ raw = "detect") then Some ModeDetect
  else if decide (raw = "quarantine") then Some ModeQuarantine
  else if decide (raw = "block") then Some ModeBlock
  else None.

Definition Normalize (r : Rule) : Rule * option string :=
  let '(s, ok) := ParseSeverity (SeverityRaw r) in
  if negb ok && negb (Str.empty (SeverityRaw r)) then (r, Some "severity")
  else
    let r := with_fields (if ok : bool then s else Sev r) (Mode r) (Cat r) r in
    match parse_mode (ModeRaw r) with
    | None => (r, Some "mode")
    | Some m => NormalizeCategory (with_fields (Sev r) m (Cat r) r)
    end.

End Rules.

(** ** The resolver (rulecat.go) *)

Record Resolver := { cats : gmap string Category; weights : gmap string Z }.

Definition NewResolver : Resolver := {| cats := ∅; weights := ∅ |}.

Definition classify (id : string) (c : Category) (w : Z) (r : Resolver) : Resolver :=
  {| cats := <[id := c]> (cats r); weights := <[id := w]> (weights r) |}.

Definition AddRules (rules : list Rules.Rule) (r : Resolver) : Resolver :=
  foldl (λ r rule,
    if Str.empty (Rules.ID rule) || Str.empty (Rules.CategoryRaw rule) then r
    else classify (Rules.ID rule) (Rules.Cat rule) (Rules.EffectiveWeight rule) r) r rules.

(** what reading the file gives: not there, an error, a text the YAML reader
    refuses, or the map, in the order a range visits it *)
Inductive runtime_file := FileMissing | FileUnreadable | FileMalformed | FileEntries (l : list (string * string)).

Inductive cat_error := ReadFailed | ParseFailed | InvalidCategory (id raw : string).

Fixpoint add_entries (l : list (string * string)) (r : Resolver) : Resolver * option cat_error :=
  match l with
  | [] => (r, None)
  | (id, raw) :: l =>
      let '(c, ok) := ParseCategory raw in
      if ok : bool then add_entries l (classify id c (DefaultWeight c) r)
      else (r, Some (InvalidCategory id raw))
  end.

Definition AddRuntimeFile (f : runtime_file) (r : Resolver) : Resolver * option cat_error :=
  match f with
  | FileMissing => (r, None)
  | FileUnreadable => (r, Some ReadFailed)
  | FileMalformed => (r, Some ParseFailed)
  | FileEntries l => add_entries l r
  end.

Definition CategoryOf (id : string) (r : Resolver) : Category := default CategoryWeakSignal (cats r !! id).
Definition WeightOf (id : string) (r : Resolver) : Z := default (DefaultWeight CategoryWeakSignal) (weights r !! id).
Definition Known (id : string) (r : Resolver) : bool := has_key id (cats r).
Definition res_Len (r : Resolver) : nat := size (cats r).

Definition ShouldEmit (c : Category) (mode : string) : bool :=
  if decide (mode = "detection") then true
  else bool_decide (c = CategoryHardDeny) || bool_decide (c = CategoryIncident).

Definition Gate (mode : string) (r : Resolver) (a : Alert) : bool := ShouldEmit (CategoryOf (al_RuleID a) r) mode.

(** ** Weights (lineagescore/weight.go) *)

Definition maxSignalWeight : Z := 200.

Definition isSensitiveClass (c : string) : bool :=
  bool_decide (c ∈ ["secret_file"; "credential_store"; "session_store"; "workload_identity"; "metadata_endpoint";
                    "service_control"; "persistence_surface"; "customer_data"; "backup_data"]).

Definition taint_factor (state : string) : Z :=
  if decide (state = "secret_touched" ∨ state = "outbound_restricted") then 2
  else if decide (state = "containment_required") then 3
  else 1.

Definition SensitivityBoost (base : Z) (tags : gmap string string) : Z :=
  let w := i64 (base * taint_factor (default "" (tags !! "secret_taint"))) in
  let w := if isSensitiveClass (default "" (tags !! "asset_class")) then i64 (w + 40) else w in
  if (maxSignalWeight <? w)%Z then maxSignalWeight else w.

Definition Tier (score : Z) : string :=
  if (120 <=? score)%Z then "critical" else if (80 <=? score)%Z then "high"
  else if (40 <=? score)%Z then "watch" else "none".

(** ** The scorer (lineagescore.go) *)

Record Signal := { sg_PID : Z; sg_RuleID : string; sg_Weight : Z; sg_At : Time.time; sg_Reason : string }.

Record Contributor := { ct_RuleID : string; ct_Weight : Z; ct_At : Time.time; ct_Reason : string }.

Record Verdict := {
  vd_Root : Z; vd_Score : Z; vd_Tier : string; vd_Contributors : list Contributor; vd_At : Time.time
}.

Record Opts := { Threshold : Z; Window : Time.duration; Cooldown : Time.duration }.

(** an [entry] has the fields of a contributor *)
Record lineageState := { ls_entries : list Contributor; firedAt : Time.time; firedTier : string; hasFired : bool }.

Definition tierRank (t : string) : Z :=
  if decide (t = "watch") then 1 else if decide (t = "high") then 2 else if decide (t = "critical") then 3 else 0.

Definition tierHigher (a b : string) : bool := (tierRank b <? tierRank a)%Z.

Record Engine := { opts : Opts; states : gmap Z lineageState }.

Definition NewEngine (o : Opts) : Engine :=
  let w := if (Window o <=? 0)%Z then Time.Hour else Window o in {|
  opts := {| Threshold := if (Threshold o <=? 0)%Z then 80 else Threshold o; Window := w;
             Cooldown := if (Cooldown o <=? 0)%Z then w else Cooldown o |};
  states := ∅ |}.

Definition total (l : list Contributor) : Z := sumZ (ct_Weight <$> l).

(** [sort.SliceStable] by time *)
Fixpoint insert_at (c : Contributor) (l : list Contributor) : list Contributor :=
  match l with
  | [] => [c]
  | d :: l => if Time.Before (ct_At c) (ct_At d) then c :: d :: l else d :: insert_at c l
  end.

Definition by_time (l : list Contributor) : list Contributor := foldl (λ acc c, insert_at c acc) [] l.

Definition contributor (s : Signal) : Contributor :=
  {| ct_RuleID := sg_RuleID s; ct_Weight := sg_Weight s; ct_At := sg_At s; ct_Reason := sg_Reason s |}.

Definition no_state : lineageState := {| ls_entries := []; firedAt := Time.zero; firedTier := ""; hasFired := false |}.

Definition recent (cutoff : Time.time) (c : Contributor) : Prop := Time.After (ct_At c) cutoff = true.

#[export] Instance recent_dec (cutoff : Time.time) (c : Contributor) : Decision (recent cutoff c).
Proof. unfold recent. apply _. Defined.

Definition put_state (root : Z) (st : lineageState) (e : Engine) : Engine :=
  {| opts := opts e; states := <[root := st]> (states e) |}.

(** [lineageOf] is the option's function in the state the process tree is in *)
Definition Observe (lineageOf : Z → Z) (s : Signal) (e : Engine) : option Verdict * Engine :=
  if (sg_Weight s <=? 0)%Z then (None, e)
  else
    let root := lineageOf (sg_PID s) in
    let st := default no_state (states e !! root) in
    let kept := filter (recent (Time.Add (sg_At s) (- Window (opts e)))) (ls_entries st) in
    let st := {| ls_entries := kept ++ [contributor s]; firedAt := firedAt st; firedTier := firedTier st; hasFired := hasFired st |} in
    let score := total (ls_entries st) in
    let e := put_state root st e in
    if (score <? Threshold (opts e))%Z then (None, e)
    else
      let newTier := Tier score in
      if hasFired st && (Time.Sub (sg_At s) (firedAt st) <? Cooldown (opts e))%Z && negb (tierHigher newTier (firedTier st))
      then (None, e)
      else (Some {| vd_Root := root; vd_Score := score; vd_Tier := newTier; vd_Contributors := by_time (ls_entries st); vd_At := sg_At s |},
            put_state root {| ls_entries := ls_entries st; firedAt := sg_At s; firedTier := newTier; hasFired := true |} e).

Definition Reset (e : Engine) : Engine := {| opts := opts e; states := ∅ |}.

(** ** Verdict counter (verdictcount.go) *)

Record Counter := { vc_critical : Z; vc_high : Z; vc_total : Z }.

Definition NewCounter : Counter := {| vc_critical := 0; vc_high := 0; vc_total := 0 |}.

Definition Record_ (tier : string) (c : Counter) : Counter := {|
  vc_critical := if decide (tier = "critical") then i64 (vc_critical c + 1) else vc_critical c;
  vc_high := if decide (tier = "high") then i64 (vc_high c + 1) else vc_high c;
  vc_total := i64 (vc_total c + 1) |}.

Definition Drain (c : Counter) : (Z * Z * Z) * Counter := ((vc_critical c, vc_high c, vc_total c), NewCounter).

(** ** Fleet rarity (fleetrarity.go, adjust.go, baseline/aggregator.go) *)

Record Rarity := { ra_Known : bool; ra_Rare : bool; ra_CohortSize : Z }.

Definition fleetRareBonus : Z := 40.

Definition FleetWeightAdjust (base : Z) (r : Rarity) : Z :=
  let w := if ra_Known r && ra_Rare r then i64 (base + fleetRareBonus) else base in
  if (maxSignalWeight <? w)%Z then maxSignalWeight else w.

(** the hub, its token, the certificate check and the timeout are the fetch's *)
Record fleet_config := { MinCohort : Z; CacheTTL : Time.duration }.

Record cacheEntry := { rareSet : gset string; cohortSize : Z; ce_at : Time.time; ce_ok : bool }.

Record Client := { cl_cfg : fleet_config; cl_cache : gmap string cacheEntry }.

Definition NewClient (cfg : fleet_config) : Client := {|
  cl_cfg := {| MinCohort := if (MinCohort cfg <=? 0)%Z then 5 else MinCohort cfg;
               CacheTTL := if (CacheTTL cfg <=? 0)%Z then 5 * Time.Minute else CacheTTL cfg |};
  cl_cache := ∅ |}.

(** what the hub answers for a binary: the hosts it knows and the rare
    endpoints; [None] is any of the errors *)
Definition hub_answer := option (Z * list string).

Definition fetch (hub : string → hub_answer) (now : Time.time) (binary : string) : cacheEntry :=
  match hub binary with
  | None => {| rareSet := ∅; cohortSize := 0; ce_at := now; ce_ok := false |}
  | Some (n, rare) => {| rareSet := list_to_set rare; cohortSize := n; ce_at := now; ce_ok := true |}
  end.

Definition rareSetFor (hub : string → hub_answer) (now later : Time.time) (binary : string) (cl : Client) : cacheEntry * Client :=
  let fresh := match cl_cache cl !! binary with
               | Some e => if (Time.Sub now (ce_at e) <? CacheTTL (cl_cfg cl))%Z then Some e else None
               | None => None
               end in
  match fresh with
  | Some e => (e, cl)
  | None => let e := fetch hub later binary in (e, {| cl_cfg := cl_cfg cl; cl_cache := <[binary := e]> (cl_cache cl) |})
  end.

Definition fleet_Lookup (hub : string → hub_answer) (now later : Time.time) (binary endpoint : string) (cl : Client) : Rarity * Client :=
  let '(e, cl) := rareSetFor hub now later binary cl in
  (if negb (ce_ok e) || (cohortSize e <? MinCohort (cl_cfg cl))%Z
   then {| ra_Known := false; ra_Rare := false; ra_CohortSize := cohortSize e |}
   else {| ra_Known := true; ra_Rare := bool_decide (endpoint ∈ rareSet e); ra_CohortSize := cohortSize e |}, cl).

(** [strconv.Atoi] *)
Definition Atoi (s : string) : option Z :=
  let '(neg, body) := match s with String "-" r => (true, r) | String "+" r => (false, r) | _ => (false, s) end in
  n ← Str.ParseUint 64 body;
  if neg : bool then if (n <=? 2 ^ 63)%Z then Some (- n)%Z else None
  else if (n <? 2 ^ 63)%Z then Some n else None.

Definition CIDR16 (s : string) : string :=
  match ParseIP s with
  | None => ""
  | Some ip =>
      if IsLoopback ip || IsLinkLocalUnicast ip || IsUnspecified ip then ""
      else match To4 ip with
           | Some v4 => dotted (byte_at v4 0) (byte_at v4 1) 0 0 +:+ "/16"
           | None => IP_String (take 6 ip ++ replicate 10 0%Z) +:+ "/48"
           end
  end.

Definition EndpointKey (dstIP dstPort : string) : string :=
  let cidr := CIDR16 dstIP in
  if Str.empty cidr then ""
  else
    let port := match Atoi dstPort with Some n => if (0 <? n)%Z && (n <? 65536)%Z then n else 0%Z | None => 0%Z end in
    cidr +:+ (":" +:+ Str.itoa port).

(** ** The router (run.go) *)

(** the lineage a process is scored under *)
Definition lineageOf (g : Graph) (pid : Z) : Z :=
  let id := (SourceOf pid g).1 in
  if negb (id =? 0)%Z then Z.lxor (u32 id) (u32 (Z.shiftr id 32))
  else match last (Ancestors pid 16 g) with
       | None => pid
       | Some n => pn_PID n
       end.

Definition binaryOfEvent (ev : Event) : string := if Str.empty (ev_Image ev) then ev_Comm ev else ev_Image ev.

Definition part (c : Contributor) : string := ct_RuleID c +:+ ("(+" +:+ (Str.itoa (ct_Weight c) +:+ ")")).

Definition verdict_reason (v : Verdict) : string :=
  "[" +:+ (vd_Tier v +:+ ("] lineage " +:+ (Str.itoa (vd_Root v) +:+ (" score " +:+ (Str.itoa (vd_Score v) +:+
    (": " +:+ Str.Join (part <$> vd_Contributors v) " -> ")))))).

Definition synthVerdictAlert (trigger : Alert) (v : Verdict) : Alert := {|
  al_Event := set_tag "verdict_score" (Str.itoa (vd_Score v)) (set_tag "verdict_tier" (vd_Tier v) (al_Event trigger));
  al_RuleID := "verdict.incident"; al_Reason := verdict_reason v; al_EvidenceIDs := []; al_Mode := ModeDetect;
  al_Action := ""; al_Class := 1 |}.

(** What the router finds when it is called, and what it keeps. *)
Record world := { w_tree : Graph; w_hub : string → hub_answer; w_now : Time.time; w_later : Time.time }.

Record routing := { rt_engine : Engine; rt_counter : Counter; rt_fleet : option Client }.

Definition signal_weight (w : world) (res : Resolver) (a : Alert) (fleet : option Client) : Z * option Client :=
  let ev := al_Event a in
  let base := SensitivityBoost (WeightOf (al_RuleID a) res) (ev_Tags ev) in
  match fleet with
  | None => (base, None)
  | Some cl =>
      let ep := EndpointKey (tag ev "dst_ip") (tag ev "dst_port") in
      if Str.empty ep then (base, Some cl)
      else let '(r, cl) := fleet_Lookup (w_hub w) (w_now w) (w_later w) (binaryOfEvent ev) ep cl in
           (FleetWeightAdjust base r, Some cl)
  end.

Definition signal (a : Alert) (weight : Z) : Signal := {|
  sg_PID := ev_PID (al_Event a); sg_RuleID := al_RuleID a; sg_Weight := weight; sg_At := ev_Time (al_Event a);
  sg_Reason := al_Reason a |}.

Definition route (mode : string) (res : Resolver) (w : world) (a : Alert) (st : routing) : (bool * option Alert) * routing :=
  if decide (mode = "detection") then ((true, None), st)
  else
    match CategoryOf (al_RuleID a) res with
    | CategoryHardDeny => ((true, None), st)
    | CategoryFact => ((false, None), st)
    | _ =>
        let '(weight, fleet) := signal_weight w res a (rt_fleet st) in
        let '(v, e) := Observe (lineageOf (w_tree w)) (signal a weight) (rt_engine st) in
        match v with
        | None => ((false, None), {| rt_engine := e; rt_counter := rt_counter st; rt_fleet := fleet |})
        | Some v =>
            ((false, Some (synthVerdictAlert a v)),
             {| rt_engine := e; rt_counter := Record_ (vd_Tier v) (rt_counter st); rt_fleet := fleet |})
        end
    end.

(** the engine and the state the daemon starts with *)
Definition daemon_opts : Opts := {| Threshold := 80; Window := Time.Hour; Cooldown := 0 |}.

Definition start (fleet : option Client) : routing :=
  {| rt_engine := NewEngine daemon_opts; rt_counter := NewCounter; rt_fleet := fleet |}.

(** ** Categories and weights *)

Lemma parse_category_string (c : Category) : ParseCategory (Category_String c) = (c, true).
Proof. by destruct c. Qed.

Lemma sensitive_classes_agree (c : string) : isSensitiveClass c = AssetClass.IsSensitive c.
Proof. done. Qed.

Lemma boost_le (base : Z) (tags : gmap string string) : (SensitivityBoost base tags ≤ 200)%Z.
Proof. unfold SensitivityBoost, maxSignalWeight. case_match; bool_to_prop; lia. Qed.

Lemma adjust_le (base : Z) (r : Rarity) : (base ≤ 200)%Z → (FleetWeightAdjust base r ≤ 200)%Z.
Proof. unfold FleetWeightAdjust, maxSignalWeight. intros. case_match; bool_to_prop; lia. Qed.

Lemma signal_weight_le (w : world) (res : Resolver) (a : Alert) (fleet : option Client) :
  ((signal_weight w res a fleet).1 ≤ 200)%Z.
Proof.
  unfold signal_weight. destruct fleet as [cl|]; [|apply boost_le].
  case_match; [apply boost_le|]. destruct (fleet_Lookup _ _ _ _ _ _) as [r cl']. cbn. apply adjust_le, boost_le.
Qed.

Lemma i64_small (z : Z) : (min_int64 ≤ z ≤ max_int64)%Z → i64 z = z.
Proof.
  unfold min_int64, max_int64, i64, signed. intros Hz. destruct (decide (0 ≤ z)%Z).
  - rewrite Z.mod_small by lia. by rewrite (proj2 (Z.ltb_lt _ _)) by lia.
  - rewrite <- (Z.mod_unique_pos z (2 ^ 64) (-1) (z + 2 ^ 64)) by lia.
    rewrite (proj2 (Z.ltb_ge _ _)) by lia. lia.
Qed.

(** without a sensitive asset a signal weighs one to three times its base *)
Lemma boost_unclassed (base : Z) (tags : gmap string string) :
  (0 ≤ base ≤ 60)%Z → isSensitiveClass (default "" (tags !! "asset_class")) = false →
  SensitivityBoost base tags = (base * taint_factor (default "" (tags !! "secret_taint")))%Z.
Proof.
  intros Hb Hs. unfold SensitivityBoost. rewrite Hs.
  assert (1 ≤ taint_factor (default "" (tags !! "secret_taint")) ≤ 3)%Z by (unfold taint_factor; repeat case_decide; lia).
  rewrite i64_small by (unfold min_int64, max_int64; nia). unfold maxSignalWeight.
  rewrite (proj2 (Z.ltb_ge _ _)) by nia. done.
Qed.

(** ** The order of contributors *)

Lemma insert_at_perm (c : Contributor) (l : list Contributor) : insert_at c l ≡ₚ c :: l.
Proof.
  induction l as [|d l IH]; cbn; [done|]. destruct (Time.Before _ _); [done|]. rewrite IH. apply perm_swap.
Qed.

Lemma by_time_perm (l : list Contributor) : by_time l ≡ₚ l.
Proof.
  unfold by_time. change l with ([] ++ l) at 2. generalize ([] : list Contributor) as acc.
  induction l as [|c l IH]; intros acc; cbn; [by rewrite app_nil_r|]. rewrite IH, insert_at_perm. apply Permutation_middle.
Qed.

Lemma total_perm (l k : list Contributor) : l ≡ₚ k → total l = total k.
Proof. intros Hp. unfold total. apply sumZ_perm. by rewrite Hp. Qed.

Lemma total_app (l k : list Contributor) : total (l ++ k) = (total l + total k)%Z.
Proof. unfold total. by rewrite fmap_app, sumZ_app. Qed.

Lemma insert_at_sorted (c : Contributor) (l : list Contributor) :
  StronglySorted (λ a b, (ct_At a ≤ ct_At b)%Z) l → StronglySorted (λ a b, (ct_At a ≤ ct_At b)%Z) (insert_at c l).
Proof.
  induction 1 as [|d l Hs IH Hd]; cbn; [by repeat constructor|]. unfold Time.Before.
  destruct (Z.ltb_spec (ct_At c) (ct_At d)).
  - constructor; [by constructor|]. constructor; [lia|]. eapply Forall_impl; [exact Hd|]. cbn. lia.
  - constructor; [done|]. rewrite insert_at_perm. by constructor.
Qed.

Lemma by_time_sorted (l : list Contributor) : StronglySorted (λ a b, (ct_At a ≤ ct_At b)%Z) (by_time l).
Proof.
  unfold by_time. assert (StronglySorted (λ a b, (ct_At a ≤ ct_At b)%Z) ([] : list Contributor)) as Hn by constructor.
  revert Hn. generalize ([] : list Contributor) as acc. induction l as [|c l IH]; intros acc Ha; cbn; [done|].
  by apply IH, insert_at_sorted.
Qed.

(** ** The scorer against the full history *)

(** One call: the lineage function at the time, and the signal. *)
Definition call : Type := (Z → Z) * Signal.
Definition key (p : call) : Z := p.1 (sg_PID p.2).

Fixpoint observe_all (e : Engine) (l : list call) : list (option Verdict) * Engine :=
  match l with
  | [] => ([], e)
  | p :: l =>
      let '(v, e) := Observe p.1 p.2 e in
      let '(vs, e) := observe_all e l in
      (v :: vs, e)
  end.

(** The specification forgets nothing: it keeps every piece of evidence with its
    lineage, and every verdict it gave. *)
Record audit := { au_seen : list (Z * Contributor); au_issued : list Verdict }.

Definition of_root (root : Z) (l : list (Z * Contributor)) : list Contributor := (filter (λ p, p.1 = root) l).*2.

Definition last_verdict (root : Z) (l : list Verdict) : option Verdict := last (filter (λ v, vd_Root v = root) l).

(** a verdict is due unless the last one of the lineage is younger than the
    cooldown and of no lower tier *)
Definition muted (o : Opts) (tier : string) (at_ : Time.time) (v : option Verdict) : bool :=
  match v with
  | Some v => (Time.Sub at_ (vd_At v) <? Cooldown o)%Z && negb (tierHigher tier (vd_Tier v))
  | None => false
  end.

Definition spec_observe (o : Opts) (p : call) (a : audit) : option Verdict * audit :=
  let s := p.2 in
  if (sg_Weight s <=? 0)%Z then (None, a)
  else
    let seen := au_seen a ++ [(key p, contributor s)] in
    let evidence := filter (recent (sg_At s - Window o)%Z) (of_root (key p) seen) in
    let score := total evidence in
    if (score <? Threshold o)%Z || muted o (Tier score) (sg_At s) (last_verdict (key p) (au_issued a))
    then (None, {| au_seen := seen; au_issued := au_issued a |})
    else
      let v := {| vd_Root := key p; vd_Score := score; vd_Tier := Tier score; vd_Contributors := by_time evidence; vd_At := sg_At s |} in
      (Some v, {| au_seen := seen; au_issued := au_issued a ++ [v] |}).

Fixpoint spec_all (o : Opts) (a : audit) (l : list call) : list (option Verdict) * audit :=
  match l with
  | [] => ([], a)
  | p :: l =>
      let '(v, a) := spec_observe o p a in
      let '(vs, a) := spec_all o a l in
      (v :: vs, a)
  end.

(** the signals of one lineage come in the order of their times *)
Definition in_order (l : list call) : Prop :=
  StronglySorted (λ p q, key p = key q → (sg_At p.2 ≤ sg_At q.2)%Z) l.

Definition state_of (root : Z) (e : Engine) : lineageState := default no_state (states e !! root).

(** what is kept of a lineage gives the same evidence from any later time on *)
Definition same_evidence (e : Engine) (a : audit) : Prop :=
  (∀ root t, (∀ c, c ∈ of_root root (au_seen a) → ct_At c ≤ t)%Z →
     filter (recent (t - Window (opts e))%Z) (ls_entries (state_of root e)) =
     filter (recent (t - Window (opts e))%Z) (of_root root (au_seen a))) ∧
  (∀ root, match last_verdict root (au_issued a) with
           | None => hasFired (state_of root e) = false
           | Some v => hasFired (state_of root e) = true ∧ firedAt (state_of root e) = vd_At v ∧
                       firedTier (state_of root e) = vd_Tier v
           end).

Lemma of_root_snoc (root r : Z) (c : Contributor) (l : list (Z * Contributor)) :
  of_root root (l ++ [(r, c)]) = of_root root l ++ (if decide (r = root) then [c] else []).
Proof. unfold of_root. rewrite filter_app, fmap_app. f_equal. rewrite filter_cons. cbn. by case_decide. Qed.

Lemma last_verdict_snoc (root : Z) (v : Verdict) (l : list Verdict) :
  last_verdict root (l ++ [v]) = if decide (vd_Root v = root) then Some v else last_verdict root l.
Proof.
  unfold last_verdict. rewrite filter_app, filter_cons. case_decide; cbn; [by rewrite last_snoc|by rewrite app_nil_r].
Qed.

Lemma filter_recent_later (c d : Time.time) (l : list Contributor) :
  (c ≤ d)%Z → filter (recent d) (filter (recent c) l) = filter (recent d) l.
Proof.
  intros Hcd. rewrite list_filter_filter. apply list_filter_iff. intros x. unfold recent, Time.After.
  split; [by intros [? ?]|]. intros Hx. split; [done|]. bool_to_prop. apply Z.ltb_lt. lia.
Qed.

Lemma state_of_put (root r : Z) (st : lineageState) (e : Engine) :
  state_of r (put_state root st e) = if decide (root = r) then st else state_of r e.
Proof. unfold state_of, put_state. cbn. case_decide; subst; [by rewrite lookup_insert_eq|by rewrite lookup_insert_ne]. Qed.

(** recording a signal *)
Definition noted (s : Signal) (o : Opts) (st : lineageState) : lineageState := {|
  ls_entries := filter (recent (sg_At s - Window o)%Z) (ls_entries st) ++ [contributor s];
  firedAt := firedAt st; firedTier := firedTier st; hasFired := hasFired st |}.

Definition fired (s : Signal) (st : lineageState) : lineageState := {|
  ls_entries := ls_entries st; firedAt := sg_At s; firedTier := Tier (total (ls_entries st)); hasFired := true |}.

Lemma put_put (root : Z) (a b : lineageState) (e : Engine) : put_state root a (put_state root b e) = put_state root a e.
Proof. unfold put_state. cbn. by rewrite insert_insert_eq. Qed.

(** [Observe] of a positive weight in terms of the two updates *)
Lemma Observe_eq (lin : Z → Z) (s : Signal) (e : Engine) :
  (0 < sg_Weight s)%Z →
  let root := lin (sg_PID s) in
  let st := noted s (opts e) (state_of root e) in
  let score := total (ls_entries st) in
  Observe lin s e =
    if (score <? Threshold (opts e))%Z ||
       (hasFired st && (Time.Sub (sg_At s) (firedAt st) <? Cooldown (opts e))%Z && negb (tierHigher (Tier score) (firedTier st)))
    then (None, put_state root st e)
    else (Some {| vd_Root := root; vd_Score := score; vd_Tier := Tier score; vd_Contributors := by_time (ls_entries st); vd_At := sg_At s |},
          put_state root (fired s st) e).
Proof.
  intros Hw root st score. unfold Observe. rewrite (proj2 (Z.leb_gt _ _) Hw).
  change (Time.Add (sg_At s) (- Window (opts e))) with (sg_At s + - Window (opts e))%Z. rewrite Z.add_opp_r.
  cbn zeta. change (default no_state (states e !! lin (sg_PID s))) with (state_of root e).
  change (lin (sg_PID s)) with root.
  change (filter (recent (sg_At s - Window (opts e))%Z) (ls_entries (state_of root e)) ++ [contributor s]) with (ls_entries st).
  cbn [ls_entries firedAt firedTier hasFired opts put_state]. fold score.
  destruct (score <? _)%Z; [done|]. cbn [orb]. change (firedAt st) with (firedAt (state_of root e)).
  change (hasFired st) with (hasFired (state_of root e)). change (firedTier st) with (firedTier (state_of root e)).
  destruct (hasFired (state_of root e) && _ && _); [done|]. by rewrite put_put.
Qed.

Lemma same_evidence_noted (e : Engine) (a : audit) (root : Z) (s : Signal) (st : lineageState) :
  same_evidence e a → (∀ c, c ∈ of_root root (au_seen a) → ct_At c ≤ sg_At s)%Z →
  ls_entries st = ls_entries (noted s (opts e) (state_of root e)) →
  ∀ r t, (∀ c, c ∈ of_root r (au_seen a ++ [(root, contributor s)]) → ct_At c ≤ t)%Z →
     filter (recent (t - Window (opts e))%Z) (ls_entries (state_of r (put_state root st e))) =
     filter (recent (t - Window (opts e))%Z) (of_root r (au_seen a ++ [(root, contributor s)])).
Proof.
  intros [Hev _] Hord Hst r t Ht. rewrite state_of_put. rewrite of_root_snoc in *. destruct (decide (root = r)) as [->|Hne].
  - rewrite Hst. cbn [noted ls_entries]. rewrite !filter_app.
    assert (Hs : (sg_At s ≤ t)%Z) by (apply (Ht (contributor s)); set_solver).
    f_equal. rewrite filter_recent_later by lia. rewrite Hev; [done|]. intros c Hc. apply Ht. set_solver.
  - rewrite app_nil_r in *. by apply Hev.
Qed.

Lemma opts_put (root : Z) (st : lineageState) (e : Engine) : opts (put_state root st e) = opts e.
Proof. done. Qed.

Lemma observe_step (e : Engine) (a : audit) (p : call) :
  (0 < Window (opts e))%Z → same_evidence e a →
  (∀ c, c ∈ of_root (key p) (au_seen a) → ct_At c ≤ sg_At p.2)%Z →
  (Observe p.1 p.2 e).1 = (spec_observe (opts e) p a).1 ∧
  opts (Observe p.1 p.2 e).2 = opts e ∧
  same_evidence (Observe p.1 p.2 e).2 (spec_observe (opts e) p a).2.
Proof.
  intros Hwin Hse Hord. destruct (Z.leb_spec (sg_Weight p.2) 0) as [Hw|Hw].
  { unfold Observe, spec_observe. rewrite (proj2 (Z.leb_le _ _) Hw). by repeat split; apply Hse. }
  rewrite Observe_eq by done. unfold spec_observe. rewrite (proj2 (Z.leb_gt _ _) Hw). fold (key p).
  set (st := noted p.2 (opts e) (state_of (key p) e)).
  assert (Hent : ls_entries st = filter (recent (sg_At p.2 - Window (opts e))%Z) (of_root (key p) (au_seen a ++ [(key p, contributor p.2)]))).
  { rewrite of_root_snoc, decide_True, filter_app by done. cbn [st noted ls_entries].
    rewrite (proj1 Hse) by done. f_equal. rewrite filter_cons, decide_True; [done|].
    unfold recent, Time.After. apply Z.ltb_lt. cbn. lia. }
  cbn zeta. rewrite <- Hent.
  assert (Hmute : muted (opts e) (Tier (total (ls_entries st))) (sg_At p.2) (last_verdict (key p) (au_issued a)) =
            hasFired st && (Time.Sub (sg_At p.2) (firedAt st) <? Cooldown (opts e))%Z && negb (tierHigher (Tier (total (ls_entries st))) (firedTier st))).
  { pose proof (proj2 Hse (key p)) as Hl. cbn [st noted hasFired firedAt firedTier]. unfold muted.
    destruct (last_verdict (key p) (au_issued a)) as [v|]; [by destruct Hl as (-> & -> & ->)|by rewrite Hl]. }
  rewrite Hmute. destruct (_ || _); cbn [fst snd]; rewrite ?opts_put; (split; [done|]); (split; [done|]); split; cbn [au_seen au_issued].
  - exact (same_evidence_noted e a (key p) p.2 st Hse Hord eq_refl).
  - intros r. rewrite state_of_put. pose proof (proj2 Hse r) as Hl. case_decide; subst; [|done]. exact Hl.
  - exact (same_evidence_noted e a (key p) p.2 (fired p.2 st) Hse Hord eq_refl).
  - intros r. rewrite state_of_put, last_verdict_snoc. cbn [vd_Root]. case_decide; subst; [done|]. apply Hse.
Qed.

Lemma spec_seen (o : Opts) (p : call) (a : audit) (r : Z) (c : Contributor) :
  c ∈ of_root r (au_seen (spec_observe o p a).2) → c ∈ of_root r (au_seen a) ∨ (key p = r ∧ ct_At c = sg_At p.2).
Proof.
  unfold spec_observe. destruct (_ <=? _)%Z; [by left|]. cbn zeta.
  assert (Hc : c ∈ of_root r (au_seen a ++ [(key p, contributor p.2)]) → c ∈ of_root r (au_seen a) ∨ (key p = r ∧ ct_At c = sg_At p.2)).
  { rewrite of_root_snoc, elem_of_app. case_decide; [|set_solver]. intros [?|Hin]; [by left|right].
    apply list_elem_of_singleton in Hin as ->. done. }
  destruct (_ || _); exact Hc.
Qed.

Lemma observe_all_refines (l : list call) : ∀ (e : Engine) (a : audit),
  (0 < Window (opts e))%Z → same_evidence e a → in_order l →
  (∀ p c, p ∈ l → c ∈ of_root (key p) (au_seen a) → ct_At c ≤ sg_At p.2)%Z →
  (observe_all e l).1 = (spec_all (opts e) a l).1.
Proof.
  induction l as [|p l IH]; intros e a Hwin Hse Hord Hpast; [done|]. cbn [observe_all spec_all].
  inversion_clear Hord as [|? ? Hord' Hp].
  destruct (observe_step e a p Hwin Hse) as (Hv & Ho & Hse'); [intros c; apply Hpast; set_solver|].
  destruct (Observe p.1 p.2 e) as [v e'] eqn:Ee. destruct (spec_observe (opts e) p a) as [v' a'] eqn:Ea. cbn [fst snd] in *.
  assert (Hrec : (observe_all e' l).1 = (spec_all (opts e') a' l).1).
  { apply IH; [by rewrite Ho|done|done|]. intros q c Hq Hc.
    pose proof (spec_seen (opts e) p a (key q) c) as Hs. rewrite Ea in Hs. destruct (Hs Hc) as [?|[Hk ->]].
    - apply Hpast; set_solver.
    - rewrite Forall_forall in Hp. by apply (Hp q Hq). }
  rewrite Ho in Hrec. destruct (observe_all e' l), (spec_all (opts e) a' l). cbn in *. by subst.
Qed.

(** C14: As long as the signals of a lineage come in the order of their times, the
    scorer, which keeps only what its window needs, gives exactly the verdicts of
    a scorer that forgets nothing: one when the positive weights the lineage
    showed within the window reach the threshold, with those signals and their
    sum, and none while the last verdict of that lineage is younger than the
    cooldown and of no lower tier. *)
Theorem engine_refines_window (o : Opts) (l : list call) :
  in_order l →
  (observe_all (NewEngine o) l).1 = (spec_all (opts (NewEngine o)) {| au_seen := []; au_issued := [] |} l).1.
Proof.
  intros Hord. apply observe_all_refines; [|by split|done|by intros p c _ ?%elem_of_nil].
  cbn. destruct (Z.leb_spec (Window o) 0); [vm_compute; done|done].
Qed.

(** ** A verdict and its evidence *)

Lemma daemon_window : Window (opts (NewEngine daemon_opts)) = Time.Hour.
Proof. by vm_compute. Qed.
Lemma daemon_threshold : Threshold (opts (NewEngine daemon_opts)) = 80%Z.
Proof. by vm_compute. Qed.
Lemma daemon_cooldown : Cooldown (opts (NewEngine daemon_opts)) = Time.Hour.
Proof. by vm_compute. Qed.
Lemma hour_pos : (0 < Time.Hour)%Z.
Proof. by vm_compute. Qed.

Section routed.
Context (mode : string) (res : Resolver).

Definition evidence_category (a : Alert) : Prop :=
  CategoryOf (al_RuleID a) res = CategoryIncident ∨ CategoryOf (al_RuleID a) res = CategoryWeakSignal.

(** the contributor comes from an alert of the run, of the lineage *)
Definition backed (ops : list (bus_op world)) (root : Z) (c : Contributor) : Prop :=
  (0 < ct_Weight c ≤ 200)%Z ∧
  ∃ w b, BSend w b ∈ ops ∧ evidence_category b ∧ lineageOf (w_tree w) (ev_PID (al_Event b)) = root ∧
    ct_RuleID c = al_RuleID b ∧ ct_At c = ev_Time (al_Event b) ∧ ct_Reason c = al_Reason b.

Definition engine_backed (ops : list (bus_op world)) (e : Engine) : Prop :=
  opts e = opts (NewEngine daemon_opts) ∧
  ∀ root, Forall (backed ops root) (ls_entries (state_of root e)).

(** an alert that may go out of a run *)
Definition justified (ops : list (bus_op world)) (al : Alert) : Prop :=
  (∃ w, BSend w al ∈ ops ∧ CategoryOf (al_RuleID al) res = CategoryHardDeny) ∨
  (∃ w a v, BSend w a ∈ ops ∧ al = synthVerdictAlert a v ∧
     vd_Root v = lineageOf (w_tree w) (ev_PID (al_Event a)) ∧ vd_Tier v = Tier (vd_Score v) ∧
     (80 ≤ vd_Score v)%Z ∧ vd_Score v = total (vd_Contributors v) ∧
     StronglySorted (λ c d, (ct_At c ≤ ct_At d)%Z) (vd_Contributors v) ∧
     Forall (λ c, (ev_Time (al_Event a) - Time.Hour < ct_At c)%Z ∧ backed ops (vd_Root v) c) (vd_Contributors v)).

Lemma evidence_grow (ops more : list (bus_op world)) (root : Z) (c : Contributor) :
  backed ops root c → backed (ops ++ more) root c.
Proof. intros [Hw (w & b & Hin & Hb)]. split; [done|]. exists w, b. split; [set_solver|done]. Qed.

Lemma engine_backed_grow (ops more : list (bus_op world)) (e : Engine) :
  engine_backed ops e → engine_backed (ops ++ more) e.
Proof.
  intros [Ho He]. split; [done|]. intros root. eapply Forall_impl; [apply He|]. intros c. apply evidence_grow.
Qed.

Lemma put_backed (ops : list (bus_op world)) (e : Engine) (root : Z) (st : lineageState) :
  engine_backed ops e → Forall (backed ops root) (ls_entries st) → engine_backed ops (put_state root st e).
Proof.
  intros [Ho He] Hst. split; [done|]. intros r. rewrite state_of_put. case_decide; subst; [done|apply He].
Qed.

Lemma Observe_backed (ops : list (bus_op world)) (e : Engine) (w : world) (a : Alert) (weight : Z) :
  engine_backed ops e → evidence_category a → (weight ≤ 200)%Z →
  let r := Observe (lineageOf (w_tree w)) (signal a weight) e in
  let ops' := ops ++ [BSend w a] in
  engine_backed ops' r.2 ∧ match r.1 with Some v => justified ops' (synthVerdictAlert a v) | None => True end.
Proof.
  intros He Hcat Hle r ops'. subst r.
  destruct (Z.leb_spec weight 0) as [Hw|Hw].
  { unfold Observe. cbn [signal sg_Weight]. rewrite (proj2 (Z.leb_le _ _) Hw). split; [|done]. by apply engine_backed_grow. }
  rewrite Observe_eq by done. cbn [signal sg_PID]. set (root := lineageOf (w_tree w) (ev_PID (al_Event a))).
  set (s := signal a weight). set (st := noted s (opts e) (state_of root e)).
  pose proof (engine_backed_grow ops [BSend w a] e He) as He'. fold ops' in He'.
  assert (Hst : Forall (backed ops' root) (ls_entries st)).
  { cbn [st noted ls_entries]. apply Forall_app. split; [apply Forall_filter, He'|]. constructor; [|done].
    split; [cbn; lia|]. exists w, a. repeat split; try done. set_solver. }
  assert (Hrec : Forall (λ c, (ev_Time (al_Event a) - Time.Hour < ct_At c)%Z) (ls_entries st)).
  { cbn [st noted ls_entries]. rewrite (proj1 He), daemon_window. apply Forall_app. split.
    - apply Forall_forall. intros c [Hc _]%list_elem_of_filter. unfold recent, Time.After in Hc. by apply Z.ltb_lt in Hc.
    - constructor; [|done]. pose proof hour_pos. cbn [contributor ct_At s signal sg_At]. lia. }
  destruct ((_ <? _)%Z || _) eqn:Hor; cbn [fst snd].
  { split; [|done]. by apply put_backed. }
  split; [by apply put_backed|]. right. exists w, a, {| vd_Root := root; vd_Score := total (ls_entries st);
    vd_Tier := Tier (total (ls_entries st)); vd_Contributors := by_time (ls_entries st); vd_At := sg_At s |}.
  apply orb_false_iff in Hor as [Hthr _]. bool_to_prop. rewrite (proj1 He), daemon_threshold in Hthr.
  cbn [vd_Root vd_Score vd_Tier vd_Contributors]. repeat split; try done.
  - set_solver.
  - symmetry. apply total_perm, by_time_perm.
  - apply by_time_sorted.
  - rewrite by_time_perm. by apply Forall_and.
Qed.

Lemma justified_grow (ops more : list (bus_op world)) (al : Alert) : justified ops al → justified (ops ++ more) al.
Proof.
  intros [(w & Hin & Hc)|(w & a & v & Hin & Hal & Hr & Ht & Hs & Hsum & Hsort & Hf)].
  - left. exists w. split; [set_solver|done].
  - right. exists w, a, v. repeat split; try done; [set_solver|]. eapply Forall_impl; [exact Hf|]. cbn.
    intros c [? ?]. split; [done|]. by apply evidence_grow.
Qed.

(** one alert through the router *)
Lemma route_backed (ops : list (bus_op world)) (w : world) (a : Alert) (st : routing) :
  mode ≠ "detection" → engine_backed ops (rt_engine st) →
  let p := passes (Some (route mode res)) None w a st in
  engine_backed (ops ++ [BSend w a]) (rt_engine p.2) ∧ Forall (justified (ops ++ [BSend w a])) p.1.
Proof.
  intros Hm He. cbn zeta. unfold passes, route. rewrite decide_False by done.
  pose proof (engine_backed_grow ops [BSend w a] _ He) as He'.
  assert (Hev : evidence_category a →
    let '(weight, fleet) := signal_weight w res a (rt_fleet st) in
    let '(v, e) := Observe (lineageOf (w_tree w)) (signal a weight) (rt_engine st) in
    engine_backed (ops ++ [BSend w a]) e ∧
    match v with Some v => justified (ops ++ [BSend w a]) (synthVerdictAlert a v) | None => True end).
  { intros Hcat. pose proof (signal_weight_le w res a (rt_fleet st)) as Hle. destruct (signal_weight _ _ _ _) as [weight fleet].
    pose proof (Observe_backed ops (rt_engine st) w a weight He Hcat Hle) as Ho.
    by destruct (Observe _ _ _) as [v e]. }
  destruct (CategoryOf (al_RuleID a) res) eqn:Ec.
  2: by split.
  3: { split; [done|]. cbn. constructor; [|done]. left. exists w. split; [set_solver|done]. }
  all: assert (Hcat : evidence_category a) by (unfold evidence_category; rewrite Ec; auto); specialize (Hev Hcat);
    destruct (signal_weight _ _ _ _) as [weight fleet]; destruct (Observe _ _ _) as [[v|] e];
    destruct Hev as [Hb Hj]; cbn; (split; [done|]); first [by apply Forall_nil | apply Forall_singleton; exact Hj].
Qed.

Lemma offered_justified (ops : list (bus_op world)) : ∀ (past : list (bus_op world)) (st : routing),
  mode ≠ "detection" → engine_backed past (rt_engine st) →
  Forall (justified (past ++ ops)) (offered (Some (route mode res)) None st ops).
Proof.
  induction ops as [|[w a|] ops IH]; intros past st Hm He; cbn [offered]; [done| |].
  - pose proof (route_backed past w a st Hm He) as [He' Hj]. destruct (passes _ _ _ _ _) as [l st'] eqn:Ep. cbn [fst snd] in *.
    specialize (IH (past ++ [BSend w a]) st' Hm He'). rewrite <- app_assoc in IH. apply Forall_app. split; [|exact IH].
    eapply Forall_impl; [exact Hj|]. intros al Hal. change (BSend w a :: ops) with ([BSend w a] ++ ops).
    rewrite app_assoc. by apply justified_grow.
  - pose proof (engine_backed_grow past [BPump] _ He) as He'. specialize (IH _ _ Hm He').
    by rewrite <- app_assoc in IH.
Qed.
Lemma start_backed (fleet : option Client) : engine_backed [] (rt_engine (start fleet)).
Proof. split; [done|]. intros root. by cbn. Qed.
End routed.

(** C15: Outside detection mode, whatever alerts are sent in whatever order, an alert
    in the queue is a hard denial as it was sent, or a synthesised one for an alert
    of the run whose contributors, in the order of their times, are evidence of
    alerts sent under the same lineage less than an hour before the trigger, each
    of weight 1 to 200, adding up to the score, which is 80 or more. *)
Theorem emitted_alert_is_backed {S} `{Sink S} (mode : string) (res : Resolver) (ss : list S) (capacity : Z)
    (fleet : option Client) (ops : list (bus_op world)) (al : Alert) :
  mode ≠ "detection" →
  al ∈ queue (bus_run (SetRouter (Some (route mode res)) (NewBus ss capacity (start fleet))) ops) →
  justified res ops al.
Proof.
  intros Hm Hal. apply queued_was_offered in Hal.
  pose proof (offered_justified mode res ops [] (start fleet) Hm (start_backed res fleet)) as Hf.
  rewrite Forall_forall in Hf. by apply Hf.
Qed.

(** ** After a verdict *)

Definition settled (root : Z) (t : Time.time) (e : Engine) : Prop :=
  hasFired (state_of root e) = true ∧ firedAt (state_of root e) = t ∧ firedTier (state_of root e) = "critical".

Lemma critical_is_top (t : string) : tierHigher t "critical" = false.
Proof. unfold tierHigher, tierRank. repeat case_decide; done. Qed.

Lemma Observe_settled (lin : Z → Z) (s : Signal) (e : Engine) (root : Z) (t : Time.time) :
  settled root t e → (lin (sg_PID s) = root → (Time.Sub (sg_At s) t < Cooldown (opts e))%Z) →
  settled root t (Observe lin s e).2 ∧ opts (Observe lin s e).2 = opts e ∧
  (lin (sg_PID s) = root → (Observe lin s e).1 = None).
Proof.
  intros (Hf & Ht & Hc) Hin. destruct (Z.leb_spec (sg_Weight s) 0) as [Hw|Hw].
  { unfold Observe. rewrite (proj2 (Z.leb_le _ _) Hw). by repeat split. }
  rewrite Observe_eq by done. cbn zeta. set (st := noted s (opts e) (state_of (lin (sg_PID s)) e)).
  destruct (decide (lin (sg_PID s) = root)) as [Hr|Hr].
  - assert (settled root t (put_state root st e)) as Hs.
    { unfold settled. rewrite state_of_put, decide_True by done. cbn [st noted hasFired firedAt firedTier]. by rewrite Hr. }
    assert (Hm : hasFired st && (Time.Sub (sg_At s) (firedAt st) <? Cooldown (opts e))%Z &&
                 negb (tierHigher (Tier (total (ls_entries st))) (firedTier st)) = true).
    { cbn [st noted hasFired firedAt firedTier]. rewrite Hr, Hf, Ht, Hc, critical_is_top.
      by rewrite (proj2 (Z.ltb_lt _ _) (Hin Hr)). }
    rewrite Hm, orb_true_r, Hr. cbn [fst snd]. by rewrite opts_put.
  - destruct (_ || _); cbn [fst snd]; rewrite opts_put; (split; [|done]); unfold settled;
      rewrite state_of_put, decide_False by done; done.
Qed.

(** the router's state after a run of sends *)
Definition routed (mode : string) (res : Resolver) (st : routing) (l : list (world * Alert)) : routing :=
  foldl (λ st p, (route mode res p.1 p.2 st).2) st l.

(** if an alert is of the lineage, it comes within the cooldown of the verdict *)
Definition within (o : Opts) (root : Z) (t : Time.time) (p : world * Alert) : Prop :=
  lineageOf (w_tree p.1) (ev_PID (al_Event p.2)) = root →
  (Time.Sub (ev_Time (al_Event p.2)) t < Cooldown o)%Z.

Lemma route_settled (mode : string) (res : Resolver) (p : world * Alert) (st : routing) (root : Z) (t : Time.time) :
  settled root t (rt_engine st) → within (opts (rt_engine st)) root t p →
  let r := route mode res p.1 p.2 st in
  settled root t (rt_engine r.2) ∧ opts (rt_engine r.2) = opts (rt_engine st) ∧
  (mode ≠ "detection" → evidence_category res p.2 → lineageOf (w_tree p.1) (ev_PID (al_Event p.2)) = root → r.1 = (false, None)).
Proof.
  intros Hs Hin. cbn zeta. unfold route. destruct (decide (mode = "detection")); [done|].
  destruct (CategoryOf (al_RuleID p.2) res) eqn:Ec; cbn [fst snd];
    try (split; [done|]; split; [done|]; unfold evidence_category; rewrite Ec; by intros _ [?|?]).
  all: destruct (signal_weight _ _ _ _) as [weight fleet];
    destruct (Observe_settled (lineageOf (w_tree p.1)) (signal p.2 weight) _ root t Hs Hin) as (Hs' & Ho & Hn);
    destruct (Observe _ _ _) as [[v|] e]; cbn in *; (split; [done|]); (split; [done|]); [|done];
    intros _ _ Hr; by specialize (Hn Hr).
Qed.

Lemma routed_settled (mode : string) (res : Resolver) (l : list (world * Alert)) : ∀ (st : routing) (root : Z) (t : Time.time),
  settled root t (rt_engine st) → Forall (within (opts (rt_engine st)) root t) l →
  settled root t (rt_engine (routed mode res st l)) ∧ opts (rt_engine (routed mode res st l)) = opts (rt_engine st).
Proof.
  induction l as [|p l IH]; intros st root t Hs Hl; [done|]. inversion_clear Hl as [|? ? Hp Hl'].
  destruct (route_settled mode res p st root t Hs Hp) as (Hs' & Ho & _).
  rewrite <- Ho in Hl' |- *. exact (IH _ _ _ Hs' Hl').
Qed.

Lemma synth_settles (mode : string) (res : Resolver) (w : world) (a syn : Alert) (st st' : routing) :
  route mode res w a st = ((false, Some syn), st') → tag (al_Event syn) "verdict_tier" = "critical" →
  mode ≠ "detection" ∧ opts (rt_engine st') = opts (rt_engine st) ∧
  settled (lineageOf (w_tree w) (ev_PID (al_Event a))) (ev_Time (al_Event a)) (rt_engine st').
Proof.
  unfold route. destruct (decide (mode = "detection")); [done|].
  destruct (CategoryOf (al_RuleID a) res); try done.
  all: destruct (signal_weight w res a (rt_fleet st)) as [weight fleet] eqn:Ew;
    destruct (Z.leb_spec weight 0) as [Hw|Hw];
    [unfold Observe; cbn [signal sg_Weight]; by rewrite (proj2 (Z.leb_le _ _) Hw)|];
    rewrite Observe_eq by done; cbn zeta; cbn [signal sg_PID sg_At]; destruct (_ || _); [done|];
    intros [= <- <-] Ht; cbn [rt_engine]; rewrite opts_put; (split; [done|]); (split; [done|]);
    unfold settled; rewrite state_of_put, decide_True by done; (split; [done|]); (split; [done|]);
    cbn [synthVerdictAlert al_Event vd_Tier vd_Score] in Ht;
    rewrite tag_set_ne, tag_set_eq in Ht by discriminate; exact Ht.
Qed.

(** C16: Once a lineage got a critical verdict, no alert of it that is not a hard
    denial has any effect outside for the whole cooldown, an hour: it is not sent
    and nothing is synthesised, whatever came in between, however heavy. *)
Theorem critical_verdict_silences_lineage (mode : string) (res : Resolver) (w w' : world) (a b syn : Alert)
    (st st' : routing) (l : list (world * Alert)) :
  route mode res w a st = ((false, Some syn), st') → tag (al_Event syn) "verdict_tier" = "critical" →
  let o := opts (rt_engine st) in
  let root := lineageOf (w_tree w) (ev_PID (al_Event a)) in
  Forall (within o root (ev_Time (al_Event a))) (l ++ [(w', b)]) →
  lineageOf (w_tree w') (ev_PID (al_Event b)) = root → evidence_category res b →
  (route mode res w' b (routed mode res st' l)).1 = (false, None).
Proof.
  intros Hr Ht o root Hl Hb Hcat. destruct (synth_settles mode res w a syn st st' Hr Ht) as (Hm & Ho & Hs).
  apply Forall_app in Hl as [Hl Hlast]. apply (proj1 (Forall_singleton _ _)) in Hlast. unfold o in Hl, Hlast. rewrite <- Ho in Hl, Hlast.
  destruct (routed_settled mode res l st' root _ Hs Hl) as [Hs' Ho'].
  rewrite <- Ho' in Hlast.
  exact (proj2 (proj2 (route_settled mode res (w', b) _ root _ Hs' Hlast)) Hm Hcat Hb).
Qed.

(** ** Lineages without an anchor *)

(** the parents of the process lead to pid 1 within [d] steps *)
Fixpoint under_init (d : nat) (m : gmap Z Node) (pid : Z) : bool :=
  (pid =? 1)%Z ||
  match d, m !! pid with
  | S d, Some n => negb (n_PPID n =? 0)%Z && negb (n_PPID n =? pid)%Z && under_init d m (n_PPID n)
  | _, _ => false
  end.

Lemma climb_step (m : gmap Z Node) (n : Node) (d : nat) (pid : Z) :
  m !! pid = Some n → n_PPID n ≠ 0%Z → n_PPID n ≠ pid → climb (S d) m pid = proc_node n :: climb d m (n_PPID n).
Proof. intros Hn H0 Hs. cbn [climb]. by rewrite Hn, (proj2 (Z.eqb_neq _ _) H0), (proj2 (Z.eqb_neq _ _) Hs). Qed.

Lemma climb_to_init (m : gmap Z Node) (init : Node) (d : nat) : ∀ pid,
  m !! 1%Z = Some init → n_PPID init = 0%Z → under_init d m pid = true →
  last (climb (S d) m pid) = Some (proc_node init).
Proof.
  assert (∀ d, m !! 1%Z = Some init → n_PPID init = 0%Z → climb (S d) m 1 = [proc_node init]) as H1.
  { intros e Hi Hp. cbn [climb]. by rewrite Hi, Hp. }
  induction d as [|d IH]; intros pid Hi Hp Hu; cbn [under_init] in Hu.
  - rewrite orb_false_r in Hu. apply Z.eqb_eq in Hu as ->. by rewrite H1.
  - destruct (Z.eqb_spec pid 1) as [->|Hne]; [by rewrite H1|]. cbn [orb] in Hu.
    destruct (m !! pid) as [n|] eqn:En; [|done]. apply andb_true_iff in Hu as [[H0 Hself]%andb_true_iff Hu].
    apply negb_true_iff, Z.eqb_neq in H0, Hself. rewrite (climb_step m n (S d) pid En H0 Hself).
    pose proof (IH _ Hi Hp Hu) as Hl. destruct (climb (S d) m (n_PPID n)) as [|x l]; [done|exact Hl].
Qed.

(** Every process that no source was attributed to, and whose parents lead to
    pid 1 in fewer than 16 steps, is scored under the one lineage 1: the weights
    of unrelated services add up, and a verdict for one mutes all. *)
Theorem unanchored_processes_are_one_lineage (g : Graph) (init : Node) (pid : Z) :
  nodes g !! 1%Z = Some init → n_PID init = 1%Z → n_PPID init = 0%Z →
  (SourceOf pid g).1 = 0%Z → under_init 15 (nodes g) pid = true →
  lineageOf g pid = 1%Z.
Proof.
  intros Hi Hid Hp Hsrc Hu. unfold lineageOf. rewrite Hsrc. cbn [Z.eqb negb].
  unfold Ancestors. change (Z.to_nat _) with 16. by rewrite (climb_to_init _ init 15 pid Hi Hp Hu).
Qed.

(** ** One alert alone *)

(** the evidence still counted for a process *)
Definition pending (w : world) (a : Alert) (e : Engine) : list Contributor :=
  filter (recent (ev_Time (al_Event a) - Window (opts e))%Z) (ls_entries (state_of (lineageOf (w_tree w) (ev_PID (al_Event a))) e)).

(** Every incident the correlator completes for a rule no category file names is
    held back, unless it touched a sensitive asset or its lineage already shows
    evidence worth 20 or more: nothing is enqueued and the sender learns it was
    not accepted. *)
Theorem uncategorised_incident_withheld {S} `{Sink S} {program : Type} (mode : string) (res : Resolver) (w : world)
    (c : compiledRule (program:=program)) (s : Session) (b : Bus world routing S) :
  mode ≠ "detection" → router b = Some (route mode res) → rt_fleet (rstate b) = None →
  let a := incident c s in
  cats res !! al_RuleID a = None → weights res !! al_RuleID a = None →
  isSensitiveClass (tag (al_Event a) "asset_class") = false →
  Threshold (opts (rt_engine (rstate b))) = 80%Z →
  (total (pending w a (rt_engine (rstate b))) < 20)%Z →
  (bus_Send w a b).1 = false ∧ queue (bus_Send w a b).2 = queue b ∧
  suppressed (bus_Send w a b).2 = u64 (suppressed b + 1).
Proof.
  intros Hm Hrt Hfl a Hcat Hwt Hcl Hthr Hpend. unfold bus_Send. rewrite Hrt. unfold route. rewrite decide_False by done.
  unfold CategoryOf. rewrite Hcat. cbn [default]. unfold signal_weight, WeightOf. rewrite Hfl, Hwt.
  change (default (DefaultWeight CategoryWeakSignal) None) with 20%Z.
  unfold tag in Hcl. rewrite boost_unclassed by (done || lia).
  set (k := taint_factor _). assert (Hk : (1 ≤ k ≤ 3)%Z) by (unfold k, taint_factor; repeat case_decide; lia).
  rewrite Observe_eq by (cbn [signal sg_Weight]; lia). cbn zeta.
  cbn [noted ls_entries signal sg_PID sg_At]. rewrite total_app.
  change (total (filter _ _)) with (total (pending w a (rt_engine (rstate b)))).
  change (total [contributor _]) with (20 * k + 0)%Z. rewrite Hthr, (proj2 (Z.ltb_lt _ _)) by lia. done.
Qed.

Lemma boost_tainted (tags : gmap string string) :
  default "" (tags !! "secret_taint") ∈ ["secret_touched"; "outbound_restricted"; "containment_required"] →
  (100 ≤ SensitivityBoost 50 tags)%Z.
Proof.
  intros Ht. unfold SensitivityBoost. assert (Hf : taint_factor (default "" (tags !! "secret_taint")) = 2%Z ∨
    taint_factor (default "" (tags !! "secret_taint")) = 3%Z).
  { repeat (apply elem_of_cons in Ht as [-> | Ht]; [by vm_compute; auto|]). by apply elem_of_nil in Ht. }
  destruct (isSensitiveClass _), Hf as [-> | ->]; by vm_compute.
Qed.

Lemma total_nonneg (l : list Contributor) : Forall (λ c, 0 < ct_Weight c)%Z l → (0 ≤ total l)%Z.
Proof.
  induction 1 as [|c l Hc _ IH]; [done|]. change (c :: l) with ([c] ++ l). rewrite total_app.
  change (total [c]) with (ct_Weight c + 0)%Z. lia.
Qed.

(** One incident of a lineage that holds a secret is enough: if the lineage had no
    verdict yet and the queue has room, the alert itself is held back, and a
    synthesised one for the same process is queued in its place. *)
Theorem tainted_incident_alerts {S} `{Sink S} (mode : string) (res : Resolver) (w : world) (a : Alert) (b : Bus world routing S) :
  mode ≠ "detection" → router b = Some (route mode res) → rt_fleet (rstate b) = None →
  CategoryOf (al_RuleID a) res = CategoryIncident → WeightOf (al_RuleID a) res = 50%Z →
  tag (al_Event a) "secret_taint" ∈ ["secret_touched"; "outbound_restricted"; "containment_required"] →
  Threshold (opts (rt_engine (rstate b))) = 80%Z →
  let st := state_of (lineageOf (w_tree w) (ev_PID (al_Event a))) (rt_engine (rstate b)) in
  hasFired st = false → Forall (λ c, 0 < ct_Weight c)%Z (ls_entries st) →
  length (queue b) < b_cap b →
  ∃ syn, (bus_Send w a b).1 = false ∧ queue (bus_Send w a b).2 = queue b ++ [syn] ∧
    al_RuleID syn = "verdict.incident" ∧ ev_PID (al_Event syn) = ev_PID (al_Event a).
Proof.
  intros Hm Hrt Hfl Hcat Hwt Ht Hthr st Hf Hpos Hq. unfold bus_Send. rewrite Hrt. unfold route. rewrite decide_False, Hcat by done.
  unfold signal_weight. rewrite Hfl, Hwt. unfold tag in Ht. pose proof (boost_tainted _ Ht) as Hb.
  rewrite Observe_eq by (cbn [signal sg_Weight]; lia). cbn zeta.
  assert (Hns : (total (ls_entries (noted (signal a (SensitivityBoost 50 (ev_Tags (al_Event a)))) (opts (rt_engine (rstate b))) st)) <? 80)%Z = false).
  { apply Z.ltb_ge. cbn [noted ls_entries]. rewrite total_app.
    change (total [contributor _]) with (SensitivityBoost 50 (ev_Tags (al_Event a)) + 0)%Z.
    pose proof (total_nonneg _ (Forall_filter _ (recent (sg_At (signal a (SensitivityBoost 50 (ev_Tags (al_Event a)))) - Window (opts (rt_engine (rstate b))))%Z) _ Hpos)).
    lia. }
  cbn [signal sg_PID] in *. fold st. rewrite Hthr, Hns. cbn [noted hasFired]. rewrite Hf. cbn [andb orb negb].
  unfold enqueue. cbn [queue with_rstate b_cap]. rewrite (proj2 (Nat.ltb_lt _ _) Hq). cbn. by eexists.
Qed.

(** ** Witnesses *)

Module RouterDemo.

(** a part of the runtime category file *)
Definition runtime_categories : list (string * string) :=
  [("cap.gained", "fact"); ("lolbin.suspicious", "weak_signal"); ("beacon.detected", "weak_signal");
   ("revshell.detected", "incident"); ("intel.bad_ip", "incident"); ("egressguard.deny", "hard_deny");
   ("dropped_binary_lifecycle", "incident"); ("verdict.incident", "hard_deny")].

Definition res : Resolver := (AddRuntimeFile (FileEntries runtime_categories) NewResolver).1.

(** pid 1 with two services, and a worker of the first *)
Definition tree : Graph := {|
  nodes := list_to_map ((λ n, (n_PID n, n)) <$>
    [Provenance.Demo.proc 1 0 0; Provenance.Demo.proc 10 1 0; Provenance.Demo.proc 11 10 0; Provenance.Demo.proc 20 1 0]);
  g_cap := 100 |}.

Definition w : world := {| w_tree := tree; w_hub := λ _, None; w_now := 0; w_later := 0 |}.

Definition alert (rule : string) (pid sec : Z) (tags : gmap string string) : Alert := {|
  al_Event := {| ev_ID := 0; ev_Time := sec * Time.Second; ev_Sensor := "ebpf"; ev_Severity := SeverityHigh;
    ev_Verdict := VerdictUnknown; ev_Host := ""; ev_PID := pid; ev_TID := 0; ev_Comm := "sh"; ev_UID := 0;
    ev_GID := 0; ev_CGroupID := 0; ev_Container := ""; ev_Image := ""; ev_ParentPID := 0; ev_ProcTree := [];
    ev_Rule := ""; ev_Tags := tags |};
  al_RuleID := rule; al_Reason := ""; al_EvidenceIDs := []; al_Mode := ModeDetect; al_Action := ""; al_Class := 0 |}.

Definition tainted : gmap string string := {["secret_taint" := "containment_required"]}.

Definition sig_ (pid weight at_ : Z) : Signal :=
  {| sg_PID := pid; sg_RuleID := "r"; sg_Weight := weight; sg_At := at_; sg_Reason := "" |}.

Definition opts10 : Opts := {| Threshold := 80; Window := 10; Cooldown := 5 |}.

(** a decayed signal, a verdict, one that is muted, an escalation, another lineage *)
Definition stream : list call :=
  (λ s, (λ p, p, s)) <$> [sig_ 7 50 1; sig_ 7 50 20; sig_ 7 40 22; sig_ 7 10 23; sig_ 8 90 3; sig_ 7 30 24].

Example stream_verdicts :
  (λ v, (vd_Root v, vd_Score v, vd_Tier v)) <$> omap id (observe_all (NewEngine opts10) stream).1 =
  [(7, 90, "high"); (8, 90, "high"); (7, 130, "critical")]%Z.
Proof. vm_compute. reflexivity. Qed.

Lemma engine_refines_window_witness :
  (observe_all (NewEngine opts10) stream).1 =
  (spec_all (opts (NewEngine opts10)) {| au_seen := []; au_issued := [] |} stream).1.
Proof.
  refine (engine_refines_window opts10 stream _).
  unfold in_order, stream. cbn [fmap list_fmap].
  repeat first [apply SSorted_nil | apply SSorted_cons | apply Forall_nil | apply Forall_cons; split];
    unfold key; cbn; intros; lia.
Defined.

Definition sends : list (bus_op world) :=
  [BSend w (alert "lolbin.suspicious" 11 5 ∅); BSend w (alert "egressguard.deny" 20 6 ∅); BPump;
   BSend w (alert "revshell.detected" 11 7 ∅); BSend w (alert "unknown.rule" 20 8 ∅)].

Example sends_queue :
  (λ a, (al_RuleID a, al_Reason a)) <$>
    queue (bus_run (SetRouter (Some (route "visibility" res)) (NewBus [NewRingSink 0] 10 (start None))) sends) =
  [("verdict.incident", "[high] lineage 1 score 90: lolbin.suspicious(+20) -> revshell.detected(+50) -> unknown.rule(+20)")].
Proof. vm_compute. reflexivity. Qed.

Lemma emitted_alert_is_backed_witness :
  let q := queue (bus_run (SetRouter (Some (route "visibility" res)) (NewBus [NewRingSink 0] 10 (start None))) sends) in
  ∃ al, q = [al] ∧ justified res sends al.
Proof.
  intros q. destruct q as [|al q'] eqn:E; [by vm_compute in E|]. exists al. split.
  - rewrite <- E. assert (q' = []) as -> by (vm_compute in E; congruence). exact E.
  - refine (emitted_alert_is_backed "visibility" res [NewRingSink 0] 10 None sends al _ _); [discriminate|].
    fold q. rewrite E. left.
Defined.

Definition heavy : Alert := alert "revshell.detected" 11 0 tainted.
Definition later : Alert := alert "intel.bad_ip" 20 3599 tainted.

Lemma critical_verdict_silences_lineage_witness :
  let r := route "visibility" res w heavy (start None) in
  (tag (al_Event (default heavy r.1.2)) "verdict_tier" = "critical") ∧
  (route "visibility" res w later (routed "visibility" res r.2 [(w, alert "revshell.detected" 20 60 tainted)])).1 = (false, None).
Proof.
  intros r. assert (Ht : tag (al_Event (default heavy r.1.2)) "verdict_tier" = "critical") by (vm_compute; reflexivity).
  split; [exact Ht|]. refine (critical_verdict_silences_lineage "visibility" res w w heavy later (default heavy r.1.2)
    (start None) r.2 [(w, alert "revshell.detected" 20 60 tainted)] _ Ht _ _ _).
  - assert (Hs : r.1 = (false, Some (default heavy r.1.2))) by (vm_compute; reflexivity). subst r.
    destruct (route _ _ _ _ _) as [x y]. cbn in *. by rewrite Hs.
  - repeat constructor; intros _; by vm_compute.
  - vm_compute. reflexivity.
  - left. vm_compute. reflexivity.
Defined.

Lemma unanchored_processes_are_one_lineage_witness : lineageOf tree 11 = 1%Z ∧ lineageOf tree 20 = 1%Z.
Proof.
  split; refine (unanchored_processes_are_one_lineage tree (Provenance.Demo.proc 1 0 0) _ _ _ _ _ _); vm_compute; reflexivity.
Defined.

(** a chain that read credentials and then left the host *)
Definition exfil : compiledRule (program:=string) :=
  {| c_Rule := {| ID := "cred_access_then_exfil"; Desc := ""; SeverityRaw := "critical"; rule_Severity := SeverityCritical;
       Mitre := []; Correlator.Window := Time.Minute; GroupBy := []; Steps := []; Remediation := ""; Narrative := "" |};
     c_Compiled := [] |}.

Definition session : Session (program:=string) :=
  {| s_Rule := exfil; s_GroupKey := ∅; s_StepIndex := 0; s_StartedAt := 0; s_LastFired := 0;
     s_Events := [al_Event (alert "" 11 0 ∅); al_Event (alert "" 11 1 tainted)] |}.

Definition bus0 : Bus world routing RingSink :=
  SetRouter (Some (route "visibility" res)) (NewBus [NewRingSink 0] 10 (start None)).

Lemma uncategorised_incident_withheld_witness :
  (bus_Send w (incident exfil session) bus0).1 = false ∧ queue (bus_Send w (incident exfil session) bus0).2 = queue bus0 ∧
  suppressed (bus_Send w (incident exfil session) bus0).2 = u64 (suppressed bus0 + 1).
Proof.
  refine (uncategorised_incident_withheld "visibility" res w exfil session bus0 _ eq_refl eq_refl _ _ _ _ _);
    [discriminate | vm_compute; reflexivity..].
Defined.

Lemma tainted_incident_alerts_witness :
  ∃ syn, (bus_Send w heavy bus0).1 = false ∧ queue (bus_Send w heavy bus0).2 = queue bus0 ++ [syn] ∧
    al_RuleID syn = "verdict.incident" ∧ ev_PID (al_Event syn) = ev_PID (al_Event heavy).
Proof.
  refine (tainted_incident_alerts "visibility" res w heavy bus0 _ eq_refl eq_refl _ _ _ _ _ _ _).
  - discriminate.
  - vm_compute. reflexivity.
  - vm_compute. reflexivity.
  - right. right. left.
  - vm_compute. reflexivity.
  - vm_compute. reflexivity.
  - vm_compute. constructor.
  - vm_compute. lia.
Defined.

End RouterDemo.
