(* ===== verification/HotGraph.v ===== *)
(** * The live process graph (src/pkg/hotgraph, src/pkg/canonical,
    src/pkg/causalengine, the stages of src/pkg/pipeline/pipeline.go that feed it)

    Processes are named by their number and start time, so that a reused number is
    a new process.  A cache keeps the names, the graph the processes with four
    indices and the edges to their parents, and the causal engine tells how a
    process came about.

    What /proc says, the clock, the order of map ranges, the order [sort.Slice]
    leaves equal elements in and the two water marks, which the code computes in
    floating point, are arguments. *)

From S2P Require Import Prelude GoStd Bytes Model Decoder Pipeline LineageStore Process.

(** ** Names of processes (canonical/proctype.go) *)

Record ProcKey := { PID : Z; StartTicks : Z }.

#[export] Instance ProcKey_eq_dec : EqDecision ProcKey.
Proof. solve_decision. Defined.
#[export] Instance ProcKey_countable : Countable ProcKey.
Proof. refine (inj_countable' (λ k, (PID k, StartTicks k)) (λ p, {| PID := p.1; StartTicks := p.2 |}) _). by intros []. Defined.

Definition ZeroKey : ProcKey := {| PID := 0; StartTicks := 0 |}.

Definition IsValid (k : ProcKey) : bool := negb (PID k =? 0)%Z && negb (StartTicks k =? 0)%Z.

Definition key_String (k : ProcKey) : string :=
  if negb (IsValid k) then "0@0" else Str.itoa (PID k) +:+ ("@" +:+ Str.itoa (StartTicks k)).

(** [strings.Fields]; [w] is the word being read *)
Fixpoint fields_from (w s : string) : list string :=
  match s with
  | "" => if Str.empty w then [] else [w]
  | String c s =>
      if Str.is_space c then (if Str.empty w then fields_from "" s else w :: fields_from "" s)
      else fields_from (w +:+ String c "") s
  end.
Definition Fields (s : string) : list string := fields_from "" s.

Inductive stat_error := PidZero | NotFound | ReadFailure | NoParen | TooFewFields (n : nat) | BadTicks | ZeroTicks.

Definition parseStartTime (line : string) : result stat_error Z :=
  match Str.LastIndexByte line ")" with
  | None => Err NoParen
  | Some paren =>
      let fields := Fields (Str.from (S paren) line) in
      match fields !! 19 with
      | None => Err (TooFewFields (length fields))
      | Some f =>
          match Str.ParseUint 64 f with
          | None => Err BadTicks
          | Some ticks => if (ticks =? 0)%Z then Err ZeroTicks else Ok ticks
          end
      end
  end.

(** what reading /proc/<pid>/stat gives *)
Inductive stat_read := StatMissing | StatUnreadable | StatLine (s : string).

Definition ReadProcKey (proc : Z → stat_read) (pid : Z) : result stat_error ProcKey :=
  if (pid =? 0)%Z then Err PidZero
  else match proc pid with
       | StatMissing => Err NotFound
       | StatUnreadable => Err ReadFailure
       | StatLine s => match parseStartTime s with Ok t => Ok {| PID := pid; StartTicks := t |} | Err e => Err e end
       end.

(** ** The cache of names (canonical/cache.go) *)

Record procKeyEntry := { pe_key : ProcKey; pe_at : Time.time }.

Record ProcKeyCache := {
  kc_entries : gmap Z procKeyEntry; kc_max : Z; kc_ttl : Time.duration;
  kc_hits : Z; kc_misses : Z; kc_evicts : Z
}.

Record CacheOptions := { co_MaxSize : Z; co_TTL : Time.duration }.

Definition NewProcKeyCache (o : CacheOptions) : ProcKeyCache := {|
  kc_entries := ∅; kc_max := if (co_MaxSize o <=? 0)%Z then 4096 else co_MaxSize o;
  kc_ttl := if (co_TTL o <=? 0)%Z then 60 * Time.Second else co_TTL o; kc_hits := 0; kc_misses := 0; kc_evicts := 0 |}.

Definition with_entries (m : gmap Z procKeyEntry) (evicted : nat) (c : ProcKeyCache) : ProcKeyCache := {|
  kc_entries := m; kc_max := kc_max c; kc_ttl := kc_ttl c; kc_hits := kc_hits c; kc_misses := kc_misses c;
  kc_evicts := u64 (kc_evicts c + Z.of_nat evicted) |}.

Definition counted (hit : bool) (c : ProcKeyCache) : ProcKeyCache := {|
  kc_entries := kc_entries c; kc_max := kc_max c; kc_ttl := kc_ttl c;
  kc_hits := if hit then u64 (kc_hits c + 1) else kc_hits c;
  kc_misses := if hit then kc_misses c else u64 (kc_misses c + 1); kc_evicts := kc_evicts c |}.

(** an entry older than the time to live *)
Definition stale (now : Time.time) (c : ProcKeyCache) (e : procKeyEntry) : bool := (kc_ttl c <? Time.Sub now (pe_at e))%Z.

Definition cache_Get (pid : Z) (now : Time.time) (c : ProcKeyCache) : option ProcKey * ProcKeyCache :=
  match kc_entries c !! pid with
  | None => (None, counted false c)
  | Some e => if stale now c e then (None, counted false c) else (Some (pe_key e), counted true c)
  end.

(** [ord] is the order a range over the entries takes *)
Definition cache_Put (ord : gmap Z procKeyEntry → list Z) (pk : ProcKey) (now : Time.time) (c : ProcKeyCache) : ProcKeyCache :=
  if (PID pk =? 0)%Z then c
  else
    let c :=
      if (kc_max c <=? Z.of_nat (size (kc_entries c)))%Z then
        let fresh := filter (λ p, stale now c p.2 = false) (kc_entries c) in
        let c := with_entries fresh (size (kc_entries c) - size fresh) c in
        if (kc_max c <=? Z.of_nat (size (kc_entries c)))%Z then
          match ord (kc_entries c) with
          | pid :: _ => with_entries (delete pid (kc_entries c)) 1 c
          | [] => c
          end
        else c
      else c in
    with_entries (<[PID pk := {| pe_key := pk; pe_at := now |}]> (kc_entries c)) 0 c.

Definition Invalidate (pid : Z) (c : ProcKeyCache) : ProcKeyCache :=
  if has_key pid (kc_entries c) then with_entries (delete pid (kc_entries c)) 1 c else c.

(** the readings of the clock at the lookup and at the store *)
Definition cache_Resolve (ord : gmap Z procKeyEntry → list Z) (proc : Z → stat_read) (pid : Z) (now later : Time.time)
    (c : ProcKeyCache) : result stat_error ProcKey * ProcKeyCache :=
  let '(k, c) := cache_Get pid now c in
  match k with
  | Some pk => (Ok pk, c)
  | None => match ReadProcKey proc pid with
            | Err e => (Err e, c)
            | Ok pk => (Ok pk, cache_Put ord pk later c)
            end
  end.

Definition cache_Size (c : ProcKeyCache) : nat := size (kc_entries c).

Record CacheStats := { cs_Size : Z; cs_MaxSize : Z; cs_TTLSecs : Z; cs_Hits : Z; cs_Misses : Z; cs_Evicts : Z }.

Definition cache_Stats (c : ProcKeyCache) : CacheStats := {|
  cs_Size := Z.of_nat (size (kc_entries c)); cs_MaxSize := kc_max c; cs_TTLSecs := Z.quot (kc_ttl c) Time.Second;
  cs_Hits := kc_hits c; cs_Misses := kc_misses c; cs_Evicts := kc_evicts c |}.

(** ** Nodes (hotgraph/graph.go) *)

Inductive State := StateLive | StateExited.

#[export] Instance State_eq_dec : EqDecision State.
Proof. solve_decision. Defined.

Definition State_String (s : State) : string := match s with StateLive => "live" | StateExited => "exited" end.

Record ProcessNode := {
  Key : ProcKey; Parent : ProcKey; p_UID : Z; p_GID : Z; p_LoginUID : Z; CgroupID : Z; Cgroup : string;
  Comm : string; ExePath : string; ExeSHA : string; Argv : string; LineageID : Z; OriginIP : string; TTY : string;
  ContainerID : string; SpawnedAt : Time.time; ExitedAt : Time.time; p_State : State; LastSeen : Time.time
}.

Inductive EvictReason := EvictExplicit | EvictLRU | EvictExitedTTL | EvictCapacity.

Definition EvictReason_String (r : EvictReason) : string :=
  match r with EvictExplicit => "explicit" | EvictLRU => "lru" | EvictExitedTTL => "exited_ttl" | EvictCapacity => "capacity" end.

Record tallies := {
  t_inserts : Z; t_updates : Z; t_exits : Z; t_evicts : Z; t_lru : Z; t_exit_ttl : Z; t_capacity : Z; t_sweeps : Z
}.

(** [hooked] is the calls the eviction hook got, oldest first *)
Record Graph := {
  g_nodes : gmap ProcKey ProcessNode;
  g_children : gmap ProcKey (list ProcKey);
  byCgroup : gmap Z (list ProcKey);
  byLineage : gmap Z (list ProcKey);
  byOriginIP : gmap string (list ProcKey);
  byTTY : gmap string (list ProcKey);
  maxNodes : Z; lruHigh : Z; lruLow : Z; exitedRetention : Time.duration;
  pins : gmap ProcKey Time.time;
  nonLiveCount : Z;
  tally : tallies;
  hooked : list (ProcKey * EvictReason)
}.

Definition no_tallies : tallies :=
  {| t_inserts := 0; t_updates := 0; t_exits := 0; t_evicts := 0; t_lru := 0; t_exit_ttl := 0; t_capacity := 0; t_sweeps := 0 |}.

(** [high] and [low] are the products of the size and the two fractions *)
Definition NewGraph (maxn high low : Z) (retention : Time.duration) : Graph := {|
  g_nodes := ∅; g_children := ∅; byCgroup := ∅; byLineage := ∅; byOriginIP := ∅; byTTY := ∅;
  maxNodes := if (maxn <=? 0)%Z then 65536 else maxn;
  lruHigh := if (high <? 1)%Z then 1 else high; lruLow := if (low <? 1)%Z then 1 else low;
  exitedRetention := if (retention <=? 0)%Z then 30 * Time.Minute else retention;
  pins := ∅; nonLiveCount := 0; tally := no_tallies; hooked := [] |}.

Definition with_nodes (m : gmap ProcKey ProcessNode) (g : Graph) : Graph := {|
  g_nodes := m; g_children := g_children g; byCgroup := byCgroup g; byLineage := byLineage g; byOriginIP := byOriginIP g;
  byTTY := byTTY g; maxNodes := maxNodes g; lruHigh := lruHigh g; lruLow := lruLow g; exitedRetention := exitedRetention g;
  pins := pins g; nonLiveCount := nonLiveCount g; tally := tally g; hooked := hooked g |}.

Definition with_children (m : gmap ProcKey (list ProcKey)) (g : Graph) : Graph := {|
  g_nodes := g_nodes g; g_children := m; byCgroup := byCgroup g; byLineage := byLineage g; byOriginIP := byOriginIP g;
  byTTY := byTTY g; maxNodes := maxNodes g; lruHigh := lruHigh g; lruLow := lruLow g; exitedRetention := exitedRetention g;
  pins := pins g; nonLiveCount := nonLiveCount g; tally := tally g; hooked := hooked g |}.

Definition with_indices (c l : gmap Z (list ProcKey)) (o t : gmap string (list ProcKey)) (g : Graph) : Graph := {|
  g_nodes := g_nodes g; g_children := g_children g; byCgroup := c; byLineage := l; byOriginIP := o;
  byTTY := t; maxNodes := maxNodes g; lruHigh := lruHigh g; lruLow := lruLow g; exitedRetention := exitedRetention g;
  pins := pins g; nonLiveCount := nonLiveCount g; tally := tally g; hooked := hooked g |}.

Definition with_pins (m : gmap ProcKey Time.time) (g : Graph) : Graph := {|
  g_nodes := g_nodes g; g_children := g_children g; byCgroup := byCgroup g; byLineage := byLineage g; byOriginIP := byOriginIP g;
  byTTY := byTTY g; maxNodes := maxNodes g; lruHigh := lruHigh g; lruLow := lruLow g; exitedRetention := exitedRetention g;
  pins := m; nonLiveCount := nonLiveCount g; tally := tally g; hooked := hooked g |}.

Definition with_counts (n : Z) (t : tallies) (h : list (ProcKey * EvictReason)) (g : Graph) : Graph := {|
  g_nodes := g_nodes g; g_children := g_children g; byCgroup := byCgroup g; byLineage := byLineage g; byOriginIP := byOriginIP g;
  byTTY := byTTY g; maxNodes := maxNodes g; lruHigh := lruHigh g; lruLow := lruLow g; exitedRetention := exitedRetention g;
  pins := pins g; nonLiveCount := n; tally := t; hooked := h |}.

(** ** Indices *)

Section index.
Context {K : Type} `{Countable K} (none : K).

Definition idx_add (v : K) (k : ProcKey) (m : gmap K (list ProcKey)) : gmap K (list ProcKey) :=
  if bool_decide (v = none) then m else <[v := default [] (m !! v) ++ [k]]> m.

(** the first occurrence goes *)
Fixpoint remove_key (k : ProcKey) (l : list ProcKey) : list ProcKey :=
  match l with [] => [] | x :: l => if bool_decide (x = k) then l else x :: remove_key k l end.

Definition idx_remove (v : K) (k : ProcKey) (m : gmap K (list ProcKey)) : gmap K (list ProcKey) :=
  if bool_decide (v = none) then m
  else match m !! v with
       | Some l => if bool_decide (k ∈ l) then <[v := remove_key k l]> m else m
       | None => m
       end.

Definition idx_move (old new : K) (k : ProcKey) (m : gmap K (list ProcKey)) : gmap K (list ProcKey) :=
  if bool_decide (old = new) then m else idx_add new k (idx_remove old k m).
End index.

Definition indexLocked (n : ProcessNode) (g : Graph) : Graph :=
  with_indices (idx_add 0%Z (CgroupID n) (Key n) (byCgroup g)) (idx_add 0%Z (LineageID n) (Key n) (byLineage g))
    (idx_add "" (OriginIP n) (Key n) (byOriginIP g)) (idx_add "" (TTY n) (Key n) (byTTY g)) g.

Definition reindexLocked (prev new : ProcessNode) (g : Graph) : Graph :=
  with_indices (idx_move 0%Z (CgroupID prev) (CgroupID new) (Key prev) (byCgroup g))
    (idx_move 0%Z (LineageID prev) (LineageID new) (Key prev) (byLineage g))
    (idx_move "" (OriginIP prev) (OriginIP new) (Key prev) (byOriginIP g))
    (idx_move "" (TTY prev) (TTY new) (Key prev) (byTTY g)) g.

Definition unindex (n : ProcessNode) (g : Graph) : Graph :=
  with_indices (idx_remove 0%Z (CgroupID n) (Key n) (byCgroup g)) (idx_remove 0%Z (LineageID n) (Key n) (byLineage g))
    (idx_remove "" (OriginIP n) (Key n) (byOriginIP g)) (idx_remove "" (TTY n) (Key n) (byTTY g)) g.

(** ** Operations of the graph *)

Definition is_live (n : ProcessNode) : bool := bool_decide (p_State n = StateLive).

Definition or_z (new old : Z) : Z := if (new =? 0)%Z then old else new.
Definition or_s (new old : string) : string := if Str.empty new then old else new.

(** identity stays, what the caller set is taken over *)
Definition merge (old n : ProcessNode) : ProcessNode := {|
  Key := Key old; Parent := if (PID (Parent n) =? 0)%Z then Parent old else Parent n;
  p_UID := p_UID old; p_GID := p_GID old; p_LoginUID := p_LoginUID old;
  CgroupID := or_z (CgroupID n) (CgroupID old); Cgroup := or_s (Cgroup n) (Cgroup old);
  Comm := or_s (Comm n) (Comm old); ExePath := or_s (ExePath n) (ExePath old); ExeSHA := or_s (ExeSHA n) (ExeSHA old);
  Argv := or_s (Argv n) (Argv old); LineageID := or_z (LineageID n) (LineageID old);
  OriginIP := or_s (OriginIP n) (OriginIP old); TTY := or_s (TTY n) (TTY old);
  ContainerID := or_s (ContainerID n) (ContainerID old); SpawnedAt := SpawnedAt old; ExitedAt := ExitedAt old;
  p_State := if is_live n then p_State old else p_State n; LastSeen := LastSeen n |}.

Definition with_times (spawned seen : Time.time) (n : ProcessNode) : ProcessNode := {|
  Key := Key n; Parent := Parent n; p_UID := p_UID n; p_GID := p_GID n; p_LoginUID := p_LoginUID n; CgroupID := CgroupID n;
  Cgroup := Cgroup n; Comm := Comm n; ExePath := ExePath n; ExeSHA := ExeSHA n; Argv := Argv n; LineageID := LineageID n;
  OriginIP := OriginIP n; TTY := TTY n; ContainerID := ContainerID n; SpawnedAt := spawned; ExitedAt := ExitedAt n;
  p_State := p_State n; LastSeen := seen |}.

Definition exited (at_ : Time.time) (n : ProcessNode) : ProcessNode := {|
  Key := Key n; Parent := Parent n; p_UID := p_UID n; p_GID := p_GID n; p_LoginUID := p_LoginUID n; CgroupID := CgroupID n;
  Cgroup := Cgroup n; Comm := Comm n; ExePath := ExePath n; ExeSHA := ExeSHA n; Argv := Argv n; LineageID := LineageID n;
  OriginIP := OriginIP n; TTY := TTY n; ContainerID := ContainerID n; SpawnedAt := SpawnedAt n; ExitedAt := at_;
  p_State := StateExited; LastSeen := at_ |}.

Definition bump_evict (r : EvictReason) (t : tallies) : tallies := {|
  t_inserts := t_inserts t; t_updates := t_updates t; t_exits := t_exits t; t_evicts := u64 (t_evicts t + 1);
  t_lru := match r with EvictLRU => u64 (t_lru t + 1) | _ => t_lru t end;
  t_exit_ttl := match r with EvictExitedTTL => u64 (t_exit_ttl t + 1) | _ => t_exit_ttl t end;
  t_capacity := match r with EvictCapacity => u64 (t_capacity t + 1) | _ => t_capacity t end; t_sweeps := t_sweeps t |}.

Definition bump (inserts updates exits capacity sweeps : Z) (t : tallies) : tallies := {|
  t_inserts := u64 (t_inserts t + inserts); t_updates := u64 (t_updates t + updates); t_exits := u64 (t_exits t + exits);
  t_evicts := t_evicts t; t_lru := t_lru t; t_exit_ttl := t_exit_ttl t; t_capacity := u64 (t_capacity t + capacity);
  t_sweeps := u64 (t_sweeps t + sweeps) |}.

Definition kids (k : ProcKey) (g : Graph) : list ProcKey := default [] (g_children g !! k).

(** the node's own edge in its parent's list *)
Definition drop_edge (n : ProcessNode) (m : gmap ProcKey (list ProcKey)) : gmap ProcKey (list ProcKey) :=
  if (PID (Parent n) =? 0)%Z then m
  else match m !! Parent n with
       | Some l => if bool_decide (Key n ∈ l) then <[Parent n := remove_key (Key n) l]> m else m
       | None => m
       end.

Definition removeLocked (key : ProcKey) (reason : EvictReason) (g : Graph) : Graph :=
  match g_nodes g !! key with
  | None => g
  | Some n =>
      let g := with_counts (if is_live n then nonLiveCount g else nonLiveCount g - 1)%Z (tally g) (hooked g) g in
      let g := with_pins (delete key (pins g)) (with_nodes (delete key (g_nodes g)) g) in
      let g := unindex n g in
      let g := with_children (drop_edge n (delete key (g_children g))) g in
      with_counts (nonLiveCount g) (bump_evict reason (tally g)) (hooked g ++ [(key, reason)]) g
  end.

Definition pinned (now : Time.time) (k : ProcKey) (g : Graph) : bool :=
  match pins g !! k with Some until => Time.Before now until | None => false end.

Section graph.
(** the order a range takes, and the one the sort by [LastSeen] leaves *)
Context (ord : gmap ProcKey ProcessNode → list ProcKey) (by_seen : gmap ProcKey ProcessNode → list ProcKey).

Fixpoint evict_down (cands : list ProcKey) (g : Graph) : Graph :=
  match cands with
  | [] => g
  | k :: cands =>
      if (Z.of_nat (size (g_nodes g)) <=? lruLow g)%Z then g else evict_down cands (removeLocked k EvictLRU g)
  end.

Definition evictLRULocked (now : Time.time) (g : Graph) : Graph :=
  if (Z.of_nat (size (g_nodes g)) <=? lruLow g)%Z then g
  else if (nonLiveCount g =? 0)%Z then g
  else evict_down (by_seen (filter (λ p, is_live p.2 = false ∧ pinned now p.1 g = false) (g_nodes g))) g.

Definition Insert (n : ProcessNode) (now : Time.time) (g : Graph) : bool * Graph :=
  if (PID (Key n) =? 0)%Z then (false, g)
  else
    let seen := if Time.IsZero (LastSeen n) then now else LastSeen n in
    let spawned := if Time.IsZero (SpawnedAt n) && is_live n then now else SpawnedAt n in
    let n := with_times spawned seen n in
    match g_nodes g !! Key n with
    | Some old =>
        let merged := merge old n in
        let count :=
          if is_live old && negb (is_live merged) then (nonLiveCount g + 1)%Z
          else if negb (is_live old) && is_live merged then (nonLiveCount g - 1)%Z else nonLiveCount g in
        let g := with_counts count (tally g) (hooked g) g in
        let g := reindexLocked old merged (with_nodes (<[Key n := merged]> (g_nodes g)) g) in
        (false, with_counts (nonLiveCount g) (bump 0 1 0 0 0 (tally g)) (hooked g) g)
    | None =>
        let g := if (lruHigh g <=? Z.of_nat (size (g_nodes g)))%Z then evictLRULocked now g else g in
        if (maxNodes g <=? Z.of_nat (size (g_nodes g)))%Z
        then (false, with_counts (nonLiveCount g) (bump 0 0 0 1 0 (tally g)) (hooked g) g)
        else
          let g := indexLocked n (with_nodes (<[Key n := n]> (g_nodes g)) g) in
          let g := if (PID (Parent n) =? 0)%Z then g
                   else with_children (<[Parent n := kids (Parent n) g ++ [Key n]]> (g_children g)) g in
          (true, with_counts (if is_live n then nonLiveCount g else nonLiveCount g + 1)%Z (bump 1 0 0 0 0 (tally g)) (hooked g) g)
    end.

Definition MarkExit (key : ProcKey) (at_ now : Time.time) (g : Graph) : bool * Graph :=
  match g_nodes g !! key with
  | None => (false, g)
  | Some n =>
      if negb (is_live n) then (false, g)
      else
        let at_ := if Time.IsZero at_ then now else at_ in
        (true, with_counts (nonLiveCount g + 1) (bump 0 0 1 0 0 (tally g)) (hooked g)
                 (with_nodes (<[key := exited at_ n]> (g_nodes g)) g))
  end.

Definition hg_Touch (key : ProcKey) (now : Time.time) (g : Graph) : bool * Graph :=
  match g_nodes g !! key with
  | None => (false, g)
  | Some n => (true, with_nodes (<[key := with_times (SpawnedAt n) now n]> (g_nodes g)) g)
  end.

Definition hg_Get (key : ProcKey) (g : Graph) : option ProcessNode := g_nodes g !! key.

Definition Pin (key : ProcKey) (until : Time.time) (g : Graph) : Graph :=
  if (PID key =? 0)%Z || Time.IsZero until then g
  else match pins g !! key with
       | Some old => if Time.After old until then g else with_pins (<[key := until]> (pins g)) g
       | None => with_pins (<[key := until]> (pins g)) g
       end.

Definition Unpin (key : ProcKey) (g : Graph) : Graph := with_pins (delete key (pins g)) g.

Definition IsPinned (key : ProcKey) (now : Time.time) (g : Graph) : bool := pinned now key g.

(** exited long enough ago and not pinned *)
Definition sweepable (now : Time.time) (g : Graph) (k : ProcKey) (n : ProcessNode) : bool :=
  negb (has_key k (pins g)) && negb (is_live n) && negb (Time.IsZero (ExitedAt n)) &&
  (exitedRetention g <? Time.Sub now (ExitedAt n))%Z.

Definition Sweep (at_ clock : Time.time) (g : Graph) : Graph * nat :=
  let g := with_counts (nonLiveCount g) (bump 0 0 0 0 1 (tally g)) (hooked g) g in
  let now := if Time.IsZero at_ then clock else at_ in
  let g := with_pins (filter (λ p, Time.Before now p.2 = true) (pins g)) g in
  let toEvict := filter (λ k, match g_nodes g !! k with Some n => sweepable now g k n | None => false end = true) (ord (g_nodes g)) in
  (foldl (λ g k, removeLocked k EvictExitedTTL g) g toEvict, length toEvict).

Definition Remove (key : ProcKey) (g : Graph) : bool * Graph :=
  if has_key key (g_nodes g) then (true, removeLocked key EvictExplicit g) else (false, g).
End graph.

(** ** Queries *)

(** [seen] is the keys already visited; the fuel is the turns of the loop *)
Fixpoint anc_loop (fuel : nat) (m : gmap ProcKey ProcessNode) (seen : list ProcKey) (cur : ProcKey) : list ProcessNode :=
  match fuel with
  | O => []
  | S fuel =>
      if bool_decide (cur ∈ seen) then []
      else match m !! cur with
           | None => []
           | Some n => n :: if (PID (Parent n) =? 0)%Z then [] else anc_loop fuel m (cur :: seen) (Parent n)
           end
  end.

(** without a limit the loop ends at the latest when every node was visited *)
Definition hg_Ancestors (key : ProcKey) (depth : Z) (g : Graph) : list ProcessNode :=
  anc_loop (if (depth <? 0)%Z then S (size (g_nodes g)) else S (Z.to_nat depth)) (g_nodes g) [] key.

(** the children of one key: those not seen join the output and the queue *)
Fixpoint visit (m : gmap ProcKey ProcessNode) (d : Z) (cs : list ProcKey) (seen : gset ProcKey) :
    gset ProcKey * list ProcessNode * list (ProcKey * Z) :=
  match cs with
  | [] => (seen, [], [])
  | c :: cs =>
      if bool_decide (c ∈ seen) then visit m d cs seen
      else let '(seen, out, q) := visit m d cs ({[c]} ∪ seen) in
           (seen, option_list (m !! c) ++ out, (c, (d + 1)%Z) :: q)
  end.

(** [None]: out of fuel *)
Fixpoint desc_loop (fuel : nat) (g : Graph) (depth : Z) (seen : gset ProcKey) (q : list (ProcKey * Z)) : option (list ProcessNode) :=
  match q with
  | [] => Some []
  | (k, d) :: q =>
      match fuel with
      | O => None
      | S fuel =>
          if (0 <=? depth)%Z && (depth <=? d)%Z then desc_loop fuel g depth seen q
          else
            let '(seen, out, more) := visit (g_nodes g) d (kids k g) seen in
            rest ← desc_loop fuel g depth seen (q ++ more);
            Some (out ++ rest)
      end
  end.

(** every key that is somebody's child *)
Definition all_children (g : Graph) : gset ProcKey := list_to_set (concat (map_to_list (g_children g)).*2).

Definition Descendants (key : ProcKey) (depth : Z) (g : Graph) : list ProcessNode :=
  default [] (desc_loop (S (size (all_children g))) g depth {[key]} [(key, 0%Z)]).

(** [srt] is what the sort by [SpawnedAt] leaves *)
Definition byIndex (srt : list ProcessNode → list ProcessNode) (keys : list ProcKey) (g : Graph) : list ProcessNode :=
  srt (omap (λ k, g_nodes g !! k) keys).

Definition ByLineage srt (id : Z) (g : Graph) : list ProcessNode := byIndex srt (default [] (byLineage g !! id)) g.
Definition ByCgroup srt (id : Z) (g : Graph) : list ProcessNode := byIndex srt (default [] (byCgroup g !! id)) g.
Definition ByOriginIP srt (ip : string) (g : Graph) : list ProcessNode := byIndex srt (default [] (byOriginIP g !! ip)) g.
Definition ByTTY srt (tty : string) (g : Graph) : list ProcessNode := byIndex srt (default [] (byTTY g !! tty)) g.

Record Stats := {
  st_Nodes : nat; st_MaxNodes : Z; st_LRUHighWater : Z; st_LRULowWater : Z; st_Pins : nat; st_IndexedCgroups : nat;
  st_IndexedLineages : nat; st_IndexedOrigins : nat; st_IndexedTTYs : nat; st_tally : tallies
}.

Definition hg_Stats (g : Graph) : Stats := {|
  st_Nodes := size (g_nodes g); st_MaxNodes := maxNodes g; st_LRUHighWater := lruHigh g; st_LRULowWater := lruLow g;
  st_Pins := size (pins g); st_IndexedCgroups := size (byCgroup g); st_IndexedLineages := size (byLineage g);
  st_IndexedOrigins := size (byOriginIP g); st_IndexedTTYs := size (byTTY g); st_tally := tally g |}.

(** ** Causal chains (causalengine/engine.go) *)

Record chain_origin := { co_Type : string; co_User : string; co_SourceIP : string; co_SourcePort : Z; co_StartedAt : Time.time }.

Record Process := {
  pr_PID : Z; pr_StartTicks : Z; pr_Comm : string; pr_ExePath : string; pr_ExeSHA : string; pr_Cgroup : string;
  pr_UID : Z; pr_SpawnedAt : Time.time; pr_Exited : bool
}.

Record CausalChain := {
  cc_Found : bool; cc_LineageID : Z; cc_OriginIP : string; cc_Origin : option chain_origin;
  cc_Processes : list Process; cc_Target : option Process
}.

Definition no_chain : CausalChain :=
  {| cc_Found := false; cc_LineageID := 0; cc_OriginIP := ""; cc_Origin := None; cc_Processes := []; cc_Target := None |}.

Definition toProcess (n : ProcessNode) : Process := {|
  pr_PID := PID (Key n); pr_StartTicks := StartTicks (Key n); pr_Comm := Comm n; pr_ExePath := ExePath n;
  pr_ExeSHA := ExeSHA n; pr_Cgroup := Cgroup n; pr_UID := p_UID n; pr_SpawnedAt := SpawnedAt n;
  pr_Exited := negb (Time.IsZero (ExitedAt n)) |}.

Definition originFor (origins : option LineageStore) (id : Z) : option chain_origin :=
  s ← origins;
  if (id =? 0)%Z then None
  else o ← LineageStore.Get id s;
       Some {| co_Type := RootType_String (o_Type o); co_User := o_UserName o; co_SourceIP := o_SourceIP o;
               co_SourcePort := o_SourcePort o; co_StartedAt := o_CreatedAt o |}.

Definition TraceByKey (origins : option LineageStore) (key : ProcKey) (g : Graph) : CausalChain :=
  match hg_Get key g with
  | None => no_chain
  | Some target =>
      let procs := toProcess <$> rev (hg_Ancestors key (-1) g) in
      {| cc_Found := true; cc_LineageID := LineageID target; cc_OriginIP := OriginIP target;
         cc_Origin := originFor origins (LineageID target); cc_Processes := procs; cc_Target := last procs |}
  end.

Definition TraceByPID (origins : option LineageStore) (pid : Z) (now : Time.time) (c : ProcKeyCache) (g : Graph) :
    CausalChain * ProcKeyCache :=
  if (pid =? 0)%Z then (no_chain, c)
  else match cache_Get pid now c with
       | (None, c) => (no_chain, c)
       | (Some pk, c) => (TraceByKey origins pk g, c)
       end.

Definition TraceByLineage (origins : option LineageStore) srt (id : Z) (g : Graph) : CausalChain :=
  if (id =? 0)%Z then no_chain
  else match ByLineage srt id g with
       | [] => no_chain
       | nodes =>
           {| cc_Found := true; cc_LineageID := id; cc_OriginIP := firstNonEmpty (OriginIP <$> nodes);
              cc_Origin := originFor origins id; cc_Processes := toProcess <$> nodes; cc_Target := None |}
       end.

(** ** The stage of the pipeline (pipeline.go) *)

Record hot := { h_cache : ProcKeyCache; h_graph : Graph }.

Record hot_env := {
  he_proc : Z → stat_read; he_now : Time.time; he_later : Time.time;
  he_cache_ord : gmap Z procKeyEntry → list Z; he_seen : gmap ProcKey ProcessNode → list ProcKey
}.

Definition spawned_node (ev : Event) (pk : ProcKey) (source : Z) : ProcessNode := {|
  Key := pk; Parent := ZeroKey; p_UID := ev_UID ev; p_GID := 0; p_LoginUID := 0; CgroupID := ev_CGroupID ev;
  Cgroup := ev_Container ev; Comm := ev_Comm ev; ExePath := firstNonEmpty [tag ev "image"; ev_Image ev];
  ExeSHA := tag ev "exe_sha256"; Argv := tag ev "argv"; LineageID := source; OriginIP := tag ev "origin_ip"; TTY := "";
  ContainerID := ""; SpawnedAt := ev_Time ev; ExitedAt := Time.zero; p_State := StateLive; LastSeen := Time.zero |}.

Definition with_parent (ppk : ProcKey) (lineage : Z) (ip : string) (n : ProcessNode) : ProcessNode := {|
  Key := Key n; Parent := ppk; p_UID := p_UID n; p_GID := p_GID n; p_LoginUID := p_LoginUID n; CgroupID := CgroupID n;
  Cgroup := Cgroup n; Comm := Comm n; ExePath := ExePath n; ExeSHA := ExeSHA n; Argv := Argv n; LineageID := lineage;
  OriginIP := ip; TTY := TTY n; ContainerID := ContainerID n; SpawnedAt := SpawnedAt n; ExitedAt := ExitedAt n;
  p_State := p_State n; LastSeen := LastSeen n |}.

Definition populateHotGraph (x : hot_env) (ev : Event) (source : Z) (h : hot) : hot :=
  if (ev_PID ev =? 0)%Z then h
  else
    let '(r, c) := cache_Resolve (he_cache_ord x) (he_proc x) (ev_PID ev) (he_now x) (he_later x) (h_cache h) in
    match r with
    | Err _ => {| h_cache := c; h_graph := h_graph h |}
    | Ok pk =>
        let node := spawned_node ev pk source in
        let '(node, c) :=
          if (ev_ParentPID ev =? 0)%Z then (node, c)
          else
            let '(r, c) := cache_Resolve (he_cache_ord x) (he_proc x) (ev_ParentPID ev) (he_now x) (he_later x) c in
            match r with
            | Err _ => (node, c)
            | Ok ppk =>
                match hg_Get ppk (h_graph h) with
                | Some pn => (with_parent ppk (or_z (LineageID node) (LineageID pn)) (or_s (OriginIP node) (OriginIP pn)) node, c)
                | None => (with_parent ppk (LineageID node) (OriginIP node) node, c)
                end
            end in
        {| h_cache := c; h_graph := (Insert (he_seen x) node (he_later x) (h_graph h)).2 |}
    end.

(** a process ends: only the cache is asked for its name *)
Definition hot_exit (x : hot_env) (ev : Event) (h : hot) : hot :=
  if (ev_PID ev =? 0)%Z then h
  else let '(k, c) := cache_Get (ev_PID ev) (he_now x) (h_cache h) in
       {| h_cache := c;
          h_graph := match k with
                     | Some pk => (MarkExit pk (ev_Time ev) (he_now x) (h_graph h)).2
                     | None => h_graph h
                     end |}.

Definition hot_stage (x : hot_env) (ev : Event) (h : hot) : hot :=
  if bool_decide (ev_Sensor ev = "ebpf.spawn") || bool_decide (ev_Sensor ev = "ebpf.proc")
  then populateHotGraph x ev (explicit_source ev) h
  else if bool_decide (ev_Sensor ev = "ebpf.exit") then hot_exit x ev h
  else h.

(** ** Indices list exactly the nodes *)

Section index_facts.
Context {K : Type} `{Countable K} (none : K) (f : ProcessNode → K).

Definition listed (m : gmap K (list ProcKey)) (v : K) : list ProcKey := default [] (m !! v).

Definition idx_ok (m : gmap K (list ProcKey)) (nodes : gmap ProcKey ProcessNode) : Prop :=
  ∀ v, NoDup (listed m v) ∧ ∀ k, k ∈ listed m v ↔ v ≠ none ∧ ∃ n, nodes !! k = Some n ∧ f n = v.

Lemma elem_of_remove_key (k x : ProcKey) (l : list ProcKey) : NoDup l → x ∈ remove_key k l ↔ x ∈ l ∧ x ≠ k.
Proof.
  induction 1 as [|y l Hy Hl IH]; cbn [remove_key]; [set_solver|].
  case_bool_decide; subst; [|set_solver]. split; [intros Hx; split; [by right|by intros ->]|].
  intros [Hx%elem_of_cons Hne]. by destruct Hx as [->|?].
Qed.

Lemma remove_key_subset (k x : ProcKey) (l : list ProcKey) : x ∈ remove_key k l → x ∈ l.
Proof. induction l as [|y l IH]; cbn [remove_key]; [done|]. case_bool_decide; set_solver. Qed.

Lemma NoDup_remove_key (k : ProcKey) (l : list ProcKey) : NoDup l → NoDup (remove_key k l).
Proof.
  induction 1 as [|y l Hy Hl IH]; cbn [remove_key]; [constructor|]. case_bool_decide; [done|].
  constructor; [|done]. by intros ?%remove_key_subset.
Qed.

Lemma remove_key_absent (k : ProcKey) (l : list ProcKey) : k ∉ l → remove_key k l = l.
Proof. induction l as [|y l IH]; cbn [remove_key]; [done|]. intros Hk. case_bool_decide; [set_solver|]. f_equal. apply IH. set_solver. Qed.

Lemma listed_add (v w : K) (k : ProcKey) (m : gmap K (list ProcKey)) :
  listed (idx_add none v k m) w = if decide (v ≠ none ∧ w = v) then listed m w ++ [k] else listed m w.
Proof.
  unfold idx_add, listed. case_bool_decide as Hv; [by rewrite decide_False by naive_solver|].
  case_decide as Hd.
  - destruct Hd as [_ ->]. by rewrite lookup_insert_eq.
  - rewrite lookup_insert_ne; [done|]. naive_solver.
Qed.

Lemma listed_remove (v w : K) (k : ProcKey) (m : gmap K (list ProcKey)) :
  listed (idx_remove none v k m) w = if decide (v ≠ none ∧ w = v) then remove_key k (listed m w) else listed m w.
Proof.
  unfold idx_remove, listed. case_bool_decide as Hv; [by rewrite decide_False by naive_solver|].
  case_decide as Hd.
  - destruct Hd as [_ ->]. destruct (m !! v) as [l|] eqn:El; [|by rewrite El]. case_bool_decide as Hk.
    + by rewrite lookup_insert_eq.
    + rewrite El. cbn. by rewrite remove_key_absent.
  - destruct (m !! v) as [l|] eqn:El; [|done]. case_bool_decide; [|done]. rewrite lookup_insert_ne; [done|]. naive_solver.
Qed.

Lemma idx_ok_fresh (k : ProcKey) (n : ProcessNode) (m : gmap K (list ProcKey)) (nodes : gmap ProcKey ProcessNode) :
  nodes !! k = None → idx_ok m nodes → idx_ok (idx_add none (f n) k m) (<[k := n]> nodes).
Proof.
  intros Hk Hm v. destruct (Hm v) as [Hnd Hin]. rewrite listed_add.
  assert (Hout : k ∉ listed m v) by (rewrite Hin; intros (_ & x & Hx & _); congruence).
  case_decide as Hd.
  - destruct Hd as [Hn ->]. split; [apply NoDup_app; split; [done|]; split; [set_solver|apply NoDup_singleton]|].
    intros x. rewrite elem_of_app, list_elem_of_singleton, Hin. split.
    + intros [(Hv & y & Hy & Hf)| ->]; (split; [done|]); [exists y|exists n; by rewrite lookup_insert_eq].
      by rewrite lookup_insert_ne by congruence.
    + intros (_ & y & Hy & Hf). destruct (decide (x = k)) as [->|]; [by right|left].
      rewrite lookup_insert_ne in Hy by done. split; [done|]. by exists y.
  - split; [done|]. intros x. rewrite Hin. split; intros (Hv & y & Hy & Hf); (split; [done|]).
    + exists y. by rewrite lookup_insert_ne by congruence.
    + destruct (decide (x = k)) as [->|].
      * rewrite lookup_insert_eq in Hy. injection Hy as <-. exfalso. apply Hd. split; congruence.
      * rewrite lookup_insert_ne in Hy by done. by exists y.
Qed.

Lemma idx_ok_delete (k : ProcKey) (n : ProcessNode) (m : gmap K (list ProcKey)) (nodes : gmap ProcKey ProcessNode) :
  nodes !! k = Some n → idx_ok m nodes → idx_ok (idx_remove none (f n) k m) (delete k nodes).
Proof.
  intros Hk Hm v. destruct (Hm v) as [Hnd Hin]. rewrite listed_remove.
  assert (Hdel : ∀ x, (v ≠ none ∧ ∃ y, delete k nodes !! x = Some y ∧ f y = v) ↔ x ∈ listed m v ∧ x ≠ k).
  { intros x. rewrite Hin. split.
    - intros (Hv & y & [Hne Hy]%lookup_delete_Some & Hf). split; [|done]. split; [done|]. by exists y.
    - intros ((Hv & y & Hy & Hf) & Hne). split; [done|]. exists y. by rewrite lookup_delete_ne. }
  case_decide as Hd.
  - split; [by apply NoDup_remove_key|]. intros x. rewrite Hdel. by apply elem_of_remove_key.
  - split; [done|]. intros x. rewrite Hdel. split; [|by intros [? _]]. intros Hx. split; [done|].
    intros ->. apply Hin in Hx as (Hv & y & Hy & Hf). apply Hd. split; congruence.
Qed.

Lemma idx_ok_same (k : ProcKey) (old n : ProcessNode) (m : gmap K (list ProcKey)) (nodes : gmap ProcKey ProcessNode) :
  nodes !! k = Some old → f n = f old → idx_ok m nodes → idx_ok m (<[k := n]> nodes).
Proof.
  intros Hk Hf Hm v. destruct (Hm v) as [Hnd Hin]. split; [done|]. intros x. rewrite Hin.
  split; intros (Hv & y & Hy & Hfy); (split; [done|]); destruct (decide (x = k)) as [->|Hne].
  - exists n. rewrite lookup_insert_eq. split; congruence.
  - exists y. by rewrite lookup_insert_ne.
  - rewrite lookup_insert_eq in Hy. exists old. split; congruence.
  - rewrite lookup_insert_ne in Hy by done. by exists y.
Qed.

Lemma idx_ok_move (k : ProcKey) (old n : ProcessNode) (m : gmap K (list ProcKey)) (nodes : gmap ProcKey ProcessNode) :
  nodes !! k = Some old → idx_ok m nodes → idx_ok (idx_move none (f old) (f n) k m) (<[k := n]> nodes).
Proof.
  intros Hk Hm. unfold idx_move. case_bool_decide as He; [by eapply idx_ok_same|].
  rewrite <- insert_delete_eq. apply idx_ok_fresh; [apply lookup_delete_eq|]. by apply idx_ok_delete.
Qed.
End index_facts.

(** ** The invariant of the graph *)

Definition dead_one (_ : ProcKey) (n : ProcessNode) : Z := if is_live n then 0 else 1.

Record graph_ok (g : Graph) : Prop := {
  ok_keys : ∀ k n, g_nodes g !! k = Some n → Key n = k;
  ok_cgroup : idx_ok 0%Z CgroupID (byCgroup g) (g_nodes g);
  ok_lineage : idx_ok 0%Z LineageID (byLineage g) (g_nodes g);
  ok_origin : idx_ok "" OriginIP (byOriginIP g) (g_nodes g);
  ok_tty : idx_ok "" TTY (byTTY g) (g_nodes g);
  ok_dead : nonLiveCount g = msum dead_one (g_nodes g);
  ok_size : (Z.of_nat (size (g_nodes g)) ≤ maxNodes g)%Z
}.

Lemma idx_ok_empty {K} `{Countable K} (none : K) (f : ProcessNode → K) : idx_ok none f ∅ ∅.
Proof.
  intros v. unfold listed. rewrite lookup_empty. split; [constructor|]. intros k. cbn. rewrite elem_of_nil.
  split; [done|]. by intros (_ & n & Hn & _).
Qed.

Lemma new_graph_ok (maxn high low : Z) (retention : Time.duration) : graph_ok (NewGraph maxn high low retention).
Proof.
  constructor; cbn [g_nodes byCgroup byLineage byOriginIP byTTY nonLiveCount maxNodes NewGraph]; try apply idx_ok_empty;
    [by intros k n ?%lookup_empty_Some|by rewrite msum_empty|].
  rewrite map_size_empty. destruct (Z.leb_spec maxn 0); lia.
Qed.

(** only these fields matter to the invariant *)
Lemma graph_ok_ext (g g' : Graph) :
  g_nodes g' = g_nodes g → byCgroup g' = byCgroup g → byLineage g' = byLineage g → byOriginIP g' = byOriginIP g →
  byTTY g' = byTTY g → nonLiveCount g' = nonLiveCount g → maxNodes g' = maxNodes g → graph_ok g → graph_ok g'.
Proof. intros En Ec El Eo Et Ed Em [H1 H2 H3 H4 H5 H6 H7]. by constructor; rewrite ?En, ?Ec, ?El, ?Eo, ?Et, ?Ed, ?Em. Qed.

Lemma removeLocked_nodes (k : ProcKey) (r : EvictReason) (g : Graph) : g_nodes (removeLocked k r g) = delete k (g_nodes g).
Proof. unfold removeLocked. destruct (g_nodes g !! k) eqn:E; cbn; [done|]. by rewrite delete_id. Qed.

Lemma removeLocked_limits (k : ProcKey) (r : EvictReason) (g : Graph) :
  maxNodes (removeLocked k r g) = maxNodes g ∧ lruHigh (removeLocked k r g) = lruHigh g ∧ lruLow (removeLocked k r g) = lruLow g ∧
  exitedRetention (removeLocked k r g) = exitedRetention g.
Proof. unfold removeLocked. by destruct (g_nodes g !! k). Qed.

Lemma hot_removeLocked_ok (k : ProcKey) (r : EvictReason) (g : Graph) : graph_ok g → graph_ok (removeLocked k r g).
Proof.
  intros Hg. pose proof (removeLocked_nodes k r g) as Hn. unfold removeLocked in *.
  destruct (g_nodes g !! k) as [n|] eqn:E; [|done]. destruct Hg as [H1 H2 H3 H4 H5 H6 H7]. pose proof (H1 k n E) as Hk. subst k.
  constructor; cbn in *.
  - intros k x [_ Hx]%lookup_delete_Some. by apply H1.
  - by apply idx_ok_delete.
  - by apply idx_ok_delete.
  - by apply idx_ok_delete.
  - by apply idx_ok_delete.
  - rewrite (msum_delete _ _ _ n) by done. rewrite <- H6. unfold dead_one. destruct (is_live n); lia.
  - rewrite map_size_delete_Some by by eexists. lia.
Qed.

Lemma remove_all_ok (r : EvictReason) (ks : list ProcKey) : ∀ g, graph_ok g → graph_ok (foldl (λ g k, removeLocked k r g) g ks).
Proof. induction ks as [|k ks IH]; intros g Hg; [done|]. cbn. by apply IH, hot_removeLocked_ok. Qed.

Section run.
Context (ord : gmap ProcKey ProcessNode → list ProcKey) (by_seen : gmap ProcKey ProcessNode → list ProcKey).

Lemma evict_down_ok (ks : list ProcKey) : ∀ g, graph_ok g → graph_ok (evict_down ks g).
Proof. induction ks as [|k ks IH]; intros g Hg; cbn; [done|]. destruct (_ <=? _)%Z; [done|]. by apply IH, hot_removeLocked_ok. Qed.

Lemma evictLRU_ok (now : Time.time) (g : Graph) : graph_ok g → graph_ok (evictLRULocked by_seen now g).
Proof. intros Hg. unfold evictLRULocked. destruct (_ <=? _)%Z; [done|]. destruct (_ =? _)%Z; [done|]. by apply evict_down_ok. Qed.

Lemma merge_key (old n : ProcessNode) : Key (merge old n) = Key old.
Proof. done. Qed.

Lemma update_ok (old n : ProcessNode) (g : Graph) (count : Z) (t : tallies) :
  graph_ok g → g_nodes g !! Key old = Some old → Key n = Key old →
  count = (nonLiveCount g - dead_one (Key old) old + dead_one (Key old) n)%Z →
  graph_ok (with_counts count t (hooked g) (reindexLocked old n (with_nodes (<[Key old := n]> (g_nodes g)) g))).
Proof.
  intros [H1 H2 H3 H4 H5 H6 H7] Ho Hk Hc. constructor; cbn.
  - intros k x. destruct (decide (k = Key old)) as [->|]; [rewrite lookup_insert_eq; congruence|].
    rewrite lookup_insert_ne by done. apply H1.
  - by apply idx_ok_move.
  - by apply idx_ok_move.
  - by apply idx_ok_move.
  - by apply idx_ok_move.
  - rewrite msum_insert, Ho. cbn. by rewrite <- H6.
  - by rewrite map_size_insert_Some by by eexists.
Qed.

Lemma fresh_ok (n : ProcessNode) (g : Graph) :
  graph_ok g → g_nodes g !! Key n = None → (Z.of_nat (size (g_nodes g)) < maxNodes g)%Z →
  graph_ok (with_counts (nonLiveCount g + dead_one (Key n) n) (tally g) (hooked g)
              (indexLocked n (with_nodes (<[Key n := n]> (g_nodes g)) g))).
Proof.
  intros [H1 H2 H3 H4 H5 H6 H7] Hn Hs. constructor; cbn.
  - intros k x. destruct (decide (k = Key n)) as [->|]; [rewrite lookup_insert_eq; congruence|].
    rewrite lookup_insert_ne by done. apply H1.
  - by apply idx_ok_fresh.
  - by apply idx_ok_fresh.
  - by apply idx_ok_fresh.
  - by apply idx_ok_fresh.
  - rewrite msum_fresh by done. rewrite <- H6. lia.
  - rewrite map_size_insert_None by done. lia.
Qed.

Lemma evictLRU_frame (now : Time.time) (g : Graph) :
  maxNodes (evictLRULocked by_seen now g) = maxNodes g ∧ g_nodes (evictLRULocked by_seen now g) ⊆ g_nodes g.
Proof.
  unfold evictLRULocked. destruct (_ <=? _)%Z; [done|]. destruct (_ =? _)%Z; [done|].
  generalize (by_seen (filter (λ p, is_live p.2 = false ∧ pinned now p.1 g = false) (g_nodes g))) as ks.
  intros ks. revert g. induction ks as [|k ks IH]; intros g; cbn; [done|]. destruct (_ <=? _)%Z; [done|].
  destruct (IH (removeLocked k EvictLRU g)) as [Hm Hs]. destruct (removeLocked_limits k EvictLRU g) as [-> _] in Hm.
  split; [done|]. etransitivity; [exact Hs|]. rewrite removeLocked_nodes. apply delete_subseteq.
Qed.

Lemma Insert_ok (n : ProcessNode) (now : Time.time) (g : Graph) : graph_ok g → graph_ok (Insert by_seen n now g).2.
Proof.
  intros Hg. unfold Insert. destruct (_ =? 0)%Z; [done|]. cbv zeta.
  set (n' := with_times _ _ n). change (Key n) with (Key n'). destruct (g_nodes g !! Key n') as [old|] eqn:E; cbn [snd].
  - pose proof (ok_keys g Hg _ _ E) as Hk. rewrite <- Hk in E |- *.
    set (count := if is_live old && negb (is_live (merge old n')) then (nonLiveCount g + 1)%Z
                  else if negb (is_live old) && is_live (merge old n') then (nonLiveCount g - 1)%Z else nonLiveCount g).
    eapply graph_ok_ext; [..|apply (update_ok old (merge old n') g count (tally g) Hg E eq_refl)]; try reflexivity.
    unfold count, dead_one. destruct (is_live old), (is_live (merge old n')); cbn; lia.
  - set (g1 := if (lruHigh g <=? Z.of_nat (size (g_nodes g)))%Z then evictLRULocked by_seen now g else g).
    assert (Hg1 : graph_ok g1) by (unfold g1; destruct (_ <=? _)%Z; [by apply evictLRU_ok|done]).
    assert (E1 : g_nodes g1 !! Key n' = None).
    { unfold g1. destruct (_ <=? _)%Z; [|done]. eapply lookup_weaken_None; [exact E|apply evictLRU_frame]. }
    destruct (Z.leb_spec (maxNodes g1) (Z.of_nat (size (g_nodes g1)))); cbn [snd]; [by eapply graph_ok_ext; [..|exact Hg1]|].
    refine (graph_ok_ext _ _ _ _ _ _ _ _ _ (fresh_ok n' g1 Hg1 E1 ltac:(lia))); destruct (_ =? 0)%Z; try done.
    all: cbn; unfold dead_one; destruct (is_live n'); lia.
Qed.

Inductive hg_op :=
  | HInsert (n : ProcessNode) (now : Time.time)
  | HExit (k : ProcKey) (at_ now : Time.time)
  | HTouch (k : ProcKey) (now : Time.time)
  | HPin (k : ProcKey) (until : Time.time)
  | HUnpin (k : ProcKey)
  | HSweep (at_ clock : Time.time)
  | HRemove (k : ProcKey).

Definition hg_exec (g : Graph) (o : hg_op) : Graph :=
  match o with
  | HInsert n now => (Insert by_seen n now g).2
  | HExit k at_ now => (MarkExit k at_ now g).2
  | HTouch k now => (hg_Touch k now g).2
  | HPin k until => Pin k until g
  | HUnpin k => Unpin k g
  | HSweep at_ clock => (Sweep ord at_ clock g).1
  | HRemove k => (Remove k g).2
  end.

(** a change of a node that keeps what the indices read *)
Lemma retouch_ok (k : ProcKey) (old n : ProcessNode) (g : Graph) (count : Z) (t : tallies) :
  graph_ok g → g_nodes g !! k = Some old →
  Key n = Key old → CgroupID n = CgroupID old → LineageID n = LineageID old → OriginIP n = OriginIP old → TTY n = TTY old →
  count = (nonLiveCount g - dead_one k old + dead_one k n)%Z →
  graph_ok (with_counts count t (hooked g) (with_nodes (<[k := n]> (g_nodes g)) g)).
Proof.
  intros [H1 H2 H3 H4 H5 H6 H7] Ho Hk Hcg Hli Hor Htt Hc. constructor; cbn.
  - intros j x. destruct (decide (j = k)) as [->|]; [rewrite lookup_insert_eq; intros [= <-]; rewrite Hk; by apply H1|].
    rewrite lookup_insert_ne by done. apply H1.
  - by eapply idx_ok_same.
  - by eapply idx_ok_same.
  - by eapply idx_ok_same.
  - by eapply idx_ok_same.
  - rewrite msum_insert, Ho. cbn. by rewrite <- H6.
  - by rewrite map_size_insert_Some by by eexists.
Qed.

Lemma exec_ok (o : hg_op) (g : Graph) : graph_ok g → graph_ok (hg_exec g o).
Proof.
  intros Hg. destruct o as [n now|k at_ now|k now|k until|k|at_ clock|k]; cbn [hg_exec].
  - by apply Insert_ok.
  - unfold MarkExit. destruct (g_nodes g !! k) as [n|] eqn:E; [|done]. destruct (is_live n) eqn:Hl; cbn [negb snd]; [|done].
    eapply retouch_ok; try done. unfold dead_one. rewrite Hl.
    match goal with |- context [is_live (exited ?t n)] => change (is_live (exited t n)) with false end. cbn iota. lia.
  - unfold hg_Touch. destruct (g_nodes g !! k) as [n|] eqn:E; [|done]. cbn [snd].
    refine (graph_ok_ext _ _ eq_refl eq_refl eq_refl eq_refl eq_refl eq_refl eq_refl
      (retouch_ok k n (with_times (SpawnedAt n) now n) g (nonLiveCount g) (tally g) Hg E eq_refl eq_refl eq_refl eq_refl eq_refl _)).
    change (dead_one k (with_times (SpawnedAt n) now n)) with (dead_one k n). lia.
  - unfold Pin. destruct (_ || _); [done|]. destruct (pins g !! k) as [old|]; [destruct (Time.After old until); [done|]|];
      by eapply graph_ok_ext; [..|exact Hg].
  - by eapply graph_ok_ext; [..|exact Hg].
  - unfold Sweep. cbn [fst]. apply remove_all_ok. by eapply graph_ok_ext; [..|exact Hg].
  - unfold Remove. destruct (has_key k (g_nodes g)); [|done]. by apply hot_removeLocked_ok.
Qed.

Lemma run_ok (ops : list hg_op) : ∀ g, graph_ok g → graph_ok (foldl hg_exec g ops).
Proof. induction ops as [|o ops IH]; intros g Hg; [done|]. cbn. by apply IH, exec_ok. Qed.
End run.

Lemma byIndex_spec {K} `{Countable K} (none : K) (f : ProcessNode → K) (srt : list ProcessNode → list ProcessNode)
    (m : gmap K (list ProcKey)) (g : Graph) (v : K) :
  (∀ l, srt l ≡ₚ l) → graph_ok g → idx_ok none f m (g_nodes g) →
  NoDup (byIndex srt (listed m v) g) ∧
  ∀ n, n ∈ byIndex srt (listed m v) g ↔ v ≠ none ∧ g_nodes g !! Key n = Some n ∧ f n = v.
Proof.
  intros Hsrt Hg Hm. destruct (Hm v) as [Hnd Hin]. unfold byIndex. split.
  - rewrite Hsrt. clear Hin. induction Hnd as [|k l Hk Hnd IH]; cbn; [constructor|].
    destruct (g_nodes g !! k) as [n|] eqn:E; [|done]. constructor; [|done].
    rewrite list_elem_of_omap. intros (k' & Hk' & E'). pose proof (ok_keys g Hg _ _ E). pose proof (ok_keys g Hg _ _ E'). congruence.
  - intros n. rewrite Hsrt, list_elem_of_omap. split.
    + intros (k & Hk & E). apply Hin in Hk as (Hv & x & Hx & Hf). pose proof (ok_keys g Hg _ _ E).
      split; [done|]. split; congruence.
    + intros (Hv & E & Hf). exists (Key n). split; [|done]. apply Hin. split; [done|]. by exists n.
Qed.

Lemma dead_count (m : gmap ProcKey ProcessNode) : msum dead_one m = Z.of_nat (size (filter (λ p, is_live p.2 = false) m)).
Proof.
  induction m as [|k n m Hk IH] using map_ind; [by rewrite msum_empty, map_filter_empty, map_size_empty|].
  rewrite msum_fresh, IH by done. unfold dead_one. destruct (is_live n) eqn:Hl.
  - rewrite map_filter_insert_False by (cbn; congruence). by rewrite delete_id.
  - rewrite map_filter_insert_True by done. rewrite map_size_insert_None; [lia|]. apply map_lookup_filter_None_2. by left.
Qed.

(** C18: Whatever is inserted, merged, marked, pinned, swept or removed, and in
    whatever order maps are walked, a query by lineage, control group, origin
    address or terminal gives exactly the nodes that carry it, each once; the
    counter that decides whether eviction runs is the number of exited nodes, and
    the graph stays within its size. *)
Theorem hot_indices_exact ord by_seen (srt : list ProcessNode → list ProcessNode) (maxn high low : Z)
    (retention : Time.duration) (ops : list hg_op) :
  (∀ l, srt l ≡ₚ l) →
  let g := foldl (hg_exec ord by_seen) (NewGraph maxn high low retention) ops in
  (∀ id, NoDup (ByLineage srt id g) ∧ ∀ n, n ∈ ByLineage srt id g ↔ id ≠ 0%Z ∧ g_nodes g !! Key n = Some n ∧ LineageID n = id) ∧
  (∀ id, NoDup (ByCgroup srt id g) ∧ ∀ n, n ∈ ByCgroup srt id g ↔ id ≠ 0%Z ∧ g_nodes g !! Key n = Some n ∧ CgroupID n = id) ∧
  (∀ ip, NoDup (ByOriginIP srt ip g) ∧ ∀ n, n ∈ ByOriginIP srt ip g ↔ ip ≠ "" ∧ g_nodes g !! Key n = Some n ∧ OriginIP n = ip) ∧
  (∀ t, NoDup (ByTTY srt t g) ∧ ∀ n, n ∈ ByTTY srt t g ↔ t ≠ "" ∧ g_nodes g !! Key n = Some n ∧ TTY n = t) ∧
  nonLiveCount g = Z.of_nat (size (filter (λ p, is_live p.2 = false) (g_nodes g))) ∧
  (Z.of_nat (size (g_nodes g)) ≤ maxNodes g)%Z.
Proof.
  intros Hsrt g. assert (Hg : graph_ok g) by (apply run_ok, new_graph_ok). rewrite <- dead_count.
  pose proof Hg as [H1 H2 H3 H4 H5 H6 H7].
  split; [intros id; by apply byIndex_spec|]. split; [intros id; by apply byIndex_spec|].
  split; [intros ip; by apply byIndex_spec|]. split; [intros t; by apply byIndex_spec|]. done.
Qed.

(** ** A graph fed by the kernel *)

Definition all_live (g : Graph) : Prop := map_Forall (λ _ n, is_live n = true) (g_nodes g).

Lemma all_live_none_dead (g : Graph) : graph_ok g → all_live g → nonLiveCount g = 0%Z.
Proof.
  intros Hg Hl. rewrite (ok_dead g Hg). apply msum_zero. intros k n Hn. unfold dead_one. by rewrite (Hl k n Hn).
Qed.

(** what one step may do to a graph of live nodes *)
Definition keeps_all (g g' : Graph) : Prop :=
  graph_ok g' ∧ all_live g' ∧ maxNodes g' = maxNodes g ∧ dom (g_nodes g) ⊆ dom (g_nodes g') ∧
  (Z.of_nat (size (g_nodes g)) = maxNodes g → dom (g_nodes g') = dom (g_nodes g)).

Lemma hot_keeps_refl (g : Graph) : graph_ok g → all_live g → keeps_all g g.
Proof. intros Hg Hl. split; [done|]. by split; [|split; [|split]]. Qed.

Lemma hot_keeps_trans (g1 g2 g3 : Graph) : keeps_all g1 g2 → keeps_all g2 g3 → keeps_all g1 g3.
Proof.
  intros (H1 & H2 & H3 & H4 & H5) (G1 & G2 & G3 & G4 & G5). split; [done|]. split; [done|]. split; [congruence|].
  split; [set_solver|]. intros Hf. rewrite G5; [by apply H5|]. rewrite H3, <- Hf. f_equal.
  rewrite <- !size_dom. by rewrite H5.
Qed.

Lemma keeps_insert (k : ProcKey) (n : ProcessNode) (g g' : Graph) :
  all_live g → is_live n = true → graph_ok g' → maxNodes g' = maxNodes g → g_nodes g' = <[k := n]> (g_nodes g) →
  is_Some (g_nodes g !! k) ∨ (Z.of_nat (size (g_nodes g)) < maxNodes g)%Z → keeps_all g g'.
Proof.
  intros Hl Hn Hok Hm Hg' Hk. unfold keeps_all, all_live. rewrite Hg'. split; [done|].
  split; [by apply map_Forall_insert_2|]. split; [done|]. split; [rewrite dom_insert_L; set_solver|].
  intros Hf. destruct Hk as [Hk|]; [|lia]. by apply dom_insert_lookup_L.
Qed.

Lemma Insert_keeps by_seen (n : ProcessNode) (now : Time.time) (g : Graph) :
  graph_ok g → all_live g → is_live n = true → keeps_all g (Insert by_seen n now g).2.
Proof.
  intros Hg Hl Hn. pose proof (Insert_ok by_seen n now g Hg) as Hok. revert Hok. unfold Insert.
  destruct (_ =? 0)%Z; [by intros; apply hot_keeps_refl|]. cbv zeta.
  set (n' := with_times _ _ n). change (Key n) with (Key n'). assert (Hn' : is_live n' = true) by done. clearbody n'.
  destruct (g_nodes g !! Key n') as [old|] eqn:E; cbn [snd]; intros Hok.
  - apply (keeps_insert (Key n') (merge old n')); [done| |done|done|done|left; by eexists]. unfold is_live, merge. cbn [p_State].
    rewrite Hn'. apply (Hl _ _ E).
  - assert (Hev : (if (lruHigh g <=? Z.of_nat (size (g_nodes g)))%Z then evictLRULocked by_seen now g else g) = g).
    { clear Hok. destruct (_ <=? _)%Z; [|done]. unfold evictLRULocked. destruct (_ <=? _)%Z; [done|].
      by rewrite (all_live_none_dead g Hg Hl). }
    rewrite Hev in *. destruct (Z.leb_spec (maxNodes g) (Z.of_nat (size (g_nodes g)))) as [Hfull|Hroom]; cbn [snd] in *.
    + split; [done|]. by repeat split.
    + destruct (_ =? 0)%Z; (apply (keeps_insert (Key n') n'); [done..|by right]).
Qed.

Lemma Sweep_keeps ord (at_ clock : Time.time) (g : Graph) :
  graph_ok g → all_live g → keeps_all g (Sweep ord at_ clock g).1.
Proof.
  intros Hg Hl. unfold Sweep. cbn [fst]. set (g1 := with_pins _ _).
  assert (Hk : keeps_all g g1).
  { split; [by eapply graph_ok_ext; [..|exact Hg]|]. by repeat split. }
  assert (Hnone : filter (λ k, match g_nodes g1 !! k with Some n => sweepable (if Time.IsZero at_ then clock else at_) g1 k n
    | None => false end = true) (ord (g_nodes g1)) = []); [|by rewrite Hnone].
  apply filter_none, Forall_forall. intros k _. rewrite not_true_iff_false. destruct (g_nodes g1 !! k) as [n|] eqn:E; [|done].
  unfold sweepable. rewrite (Hl k n E). by rewrite andb_false_r.
Qed.

(** the stage sees an event, or the sweeper runs *)
Inductive hot_op :=
  | HotEvent (x : hot_env) (ev : Event)
  | HotSweep (ord : gmap ProcKey ProcessNode → list ProcKey) (at_ clock : Time.time).

Definition hot_exec (h : hot) (o : hot_op) : hot :=
  match o with
  | HotEvent x ev => hot_stage x ev h
  | HotSweep ord at_ clock => {| h_cache := h_cache h; h_graph := (Sweep ord at_ clock (h_graph h)).1 |}
  end.

(** the event carries the sensor of some record of the kernel *)
Definition from_kernel (o : hot_op) : Prop :=
  match o with
  | HotEvent _ ev => ∃ fs id now raw ev0, Decode fs id now raw = Some ev0 ∧ ev_Sensor ev = ev_Sensor ev0
  | HotSweep _ _ _ => True
  end.

Lemma spawned_live (x : hot_env) (ev : Event) (source : Z) (h : hot) :
  graph_ok (h_graph h) → all_live (h_graph h) → keeps_all (h_graph h) (h_graph (populateHotGraph x ev source h)).
Proof.
  intros Hg Hl. unfold populateHotGraph. destruct (_ =? 0)%Z; [by apply hot_keeps_refl|].
  destruct (cache_Resolve _ _ (ev_PID ev) _ _ _) as [[pk|e] c]; [|by apply hot_keeps_refl].
  destruct (ev_ParentPID ev =? 0)%Z; [by apply Insert_keeps|].
  destruct (cache_Resolve _ _ (ev_ParentPID ev) _ _ _) as [[ppk|e] c']; [|by apply Insert_keeps].
  destruct (hg_Get ppk (h_graph h)); by apply Insert_keeps.
Qed.

Lemma kernel_step (o : hot_op) (h : hot) :
  from_kernel o → graph_ok (h_graph h) → all_live (h_graph h) → keeps_all (h_graph h) (h_graph (hot_exec h o)).
Proof.
  intros Ho Hg Hl. destruct o as [x ev|ord at_ clock]; [|by apply Sweep_keeps].
  destruct Ho as (fs & id & now & raw & ev0 & He & Hs). cbn [hot_exec]. unfold hot_stage.
  destruct (_ || _); [by apply spawned_live|]. rewrite bool_decide_false; [by apply hot_keeps_refl|].
  rewrite Hs. apply kernel_not; [by eapply Decode_kernel|by apply (bool_decide_unpack _)].
Qed.

Lemma kernel_steps (ops : list hot_op) : ∀ h,
  Forall from_kernel ops → graph_ok (h_graph h) → all_live (h_graph h) → keeps_all (h_graph h) (h_graph (foldl hot_exec h ops)).
Proof.
  induction ops as [|o ops IH]; intros h Ho Hg Hl; [by apply hot_keeps_refl|]. apply Forall_cons in Ho as [Ho Hos]. cbn.
  pose proof (kernel_step o h Ho Hg Hl) as Hk. eapply hot_keeps_trans; [exact Hk|]. destruct Hk as (Hg' & Hl' & _). by apply IH.
Qed.

(** C17: The graph fed with kernel records never learns that a process ended: every
    node stays live and none ever leaves, neither by the sweep nor under pressure;
    and once the graph is full the processes in it are the same for ever, so that
    no later process is ever added. *)
Theorem kernel_graph_freezes (c : ProcKeyCache) (maxn high low : Z) (retention : Time.duration) (before after : list hot_op) :
  Forall from_kernel before → Forall from_kernel after →
  let h1 := foldl hot_exec {| h_cache := c; h_graph := NewGraph maxn high low retention |} before in
  let h2 := foldl hot_exec h1 after in
  (∀ k n, hg_Get k (h_graph h2) = Some n → p_State n = StateLive) ∧
  (∀ k, is_Some (hg_Get k (h_graph h1)) → is_Some (hg_Get k (h_graph h2))) ∧
  (Z.of_nat (size (g_nodes (h_graph h1))) = maxNodes (h_graph h1) →
     ∀ k, is_Some (hg_Get k (h_graph h2)) → is_Some (hg_Get k (h_graph h1))).
Proof.
  intros Hb Ha h1 h2. assert (H1 : keeps_all (NewGraph maxn high low retention) (h_graph h1)).
  { apply (kernel_steps before {| h_cache := c; h_graph := NewGraph maxn high low retention |});
      [done|apply new_graph_ok|apply map_Forall_empty]. }
  destruct H1 as (Hg1 & Hl1 & _). destruct (kernel_steps after h1 Ha Hg1 Hl1) as (_ & Hl2 & _ & Hd & Hf).
  fold h2 in Hl2, Hd, Hf. split.
  - intros k n Hn. pose proof (Hl2 k n Hn) as Hx. by apply bool_decide_eq_true in Hx.
  - unfold hg_Get. split; [intros k; rewrite <- !elem_of_dom; apply Hd|].
    intros Hfull k. rewrite <- !elem_of_dom. by rewrite (Hf Hfull).
Qed.

(** ** The cache answers with a dead process *)

Lemma merge_exited (old n : ProcessNode) : p_State n = StateLive → p_State (merge old n) = p_State old.
Proof. intros Hn. unfold merge, is_live. cbn [p_State]. by rewrite Hn. Qed.

Lemma Insert_known by_seen (n old : ProcessNode) (now : Time.time) (g : Graph) :
  PID (Key n) ≠ 0%Z → g_nodes g !! Key n = Some old →
  ∃ spawned seen, g_nodes (Insert by_seen n now g).2 = <[Key n := merge old (with_times spawned seen n)]> (g_nodes g).
Proof.
  intros Hk Hold. unfold Insert. rewrite (proj2 (Z.eqb_neq _ _) Hk). cbv zeta.
  set (n' := with_times _ _ n). change (Key n) with (Key n'). change (Key n) with (Key n') in Hold. rewrite Hold.
  eexists _, _. reflexivity.
Qed.

(** the node the stage inserts for a resolved process is live and carries the event's own fields *)
Lemma populate_insert (x : hot_env) (ev : Event) (source : Z) (h : hot) (e : procKeyEntry) :
  ev_PID ev ≠ 0%Z → kc_entries (h_cache h) !! ev_PID ev = Some e → stale (he_now x) (h_cache h) e = false →
  ∃ n c, populateHotGraph x ev source h = {| h_cache := c; h_graph := (Insert (he_seen x) n (he_later x) (h_graph h)).2 |} ∧
    Key n = pe_key e ∧ p_State n = StateLive ∧ Comm n = ev_Comm ev ∧ ExePath n = firstNonEmpty [tag ev "image"; ev_Image ev].
Proof.
  intros Hp He Hs. unfold populateHotGraph, cache_Resolve at 1, cache_Get. rewrite (proj2 (Z.eqb_neq _ _) Hp), He, Hs.
  destruct (ev_ParentPID ev =? 0)%Z; [by eexists (spawned_node ev (pe_key e) source), _|].
  destruct (cache_Resolve _ _ (ev_ParentPID ev) _ _ _) as [[ppk|er] c]; [|by eexists (spawned_node ev (pe_key e) source), _].
  destruct (hg_Get ppk (h_graph h)); by eexists (with_parent ppk _ _ (spawned_node ev (pe_key e) source)), _.
Qed.

(** A process that starts under the number of one that ended less than the
    cache's time to live ago gets no node of its own: its program and name are
    written over the dead process, which stays exited, with the start and end it
    had, whatever /proc says of the new one. *)
Theorem reused_pid_joins_dead_process (x : hot_env) (ev : Event) (source : Z) (h : hot) (e : procKeyEntry) (dead : ProcessNode) :
  ev_PID ev ≠ 0%Z → PID (pe_key e) ≠ 0%Z →
  kc_entries (h_cache h) !! ev_PID ev = Some e → stale (he_now x) (h_cache h) e = false →
  hg_Get (pe_key e) (h_graph h) = Some dead → p_State dead = StateExited →
  let h' := populateHotGraph x ev source h in
  dom (g_nodes (h_graph h')) = dom (g_nodes (h_graph h)) ∧
  ∃ n, hg_Get (pe_key e) (h_graph h') = Some n ∧ p_State n = StateExited ∧
       SpawnedAt n = SpawnedAt dead ∧ ExitedAt n = ExitedAt dead ∧ p_UID n = p_UID dead ∧
       Comm n = or_s (ev_Comm ev) (Comm dead) ∧
       ExePath n = or_s (firstNonEmpty [tag ev "image"; ev_Image ev]) (ExePath dead).
Proof.
  intros Hp Hk He Hs Hd Hx h'. destruct (populate_insert x ev source h e Hp He Hs) as (n & c & Hh & Hkey & Hlive & Hcomm & Hexe).
  unfold h', hg_Get. rewrite Hh. cbn [h_graph]. rewrite <- Hkey in Hk, Hd.
  destruct (Insert_known (he_seen x) n dead (he_later x) (h_graph h) Hk Hd) as (sp & se & ->). rewrite <- Hkey.
  split; [apply dom_insert_lookup_L; by eexists|]. exists (merge dead (with_times sp se n)). rewrite lookup_insert_eq.
  split; [done|]. split; [by rewrite merge_exited|]. split; [done|]. split; [done|]. split; [done|].
  unfold merge. cbn [Comm ExePath with_times]. by rewrite Hcomm, Hexe.
Qed.

(** ** Walks up and down *)

Lemma anc_loop_path (m : gmap ProcKey ProcessNode) : (∀ k n, m !! k = Some n → Key n = k) → ∀ fuel seen cur,
  NoDup seen → Forall (λ k, is_Some (m !! k)) seen → size m < fuel + length seen →
  let l := anc_loop fuel m seen cur in
  NoDup (Key <$> l) ∧ Forall (λ n, m !! Key n = Some n ∧ Key n ∉ seen) l ∧
  head l = (if decide (cur ∈ seen) then None else m !! cur) ∧
  (∀ i a b, l !! i = Some a → l !! S i = Some b → Key b = Parent a) ∧
  (∀ a, last l = Some a → PID (Parent a) = 0%Z ∨ m !! Parent a = None ∨ Parent a ∈ seen ++ (Key <$> l)).
Proof.
  intros Hkeys fuel. induction fuel as [|fuel IH]; intros seen cur Hnd Hin Hsz; cbn [anc_loop].
  - exfalso. assert (length seen ≤ size m); [|cbn in Hsz; lia]. rewrite <- size_dom, <- (size_list_to_set (C := gset ProcKey)) by done.
    apply subseteq_size. intros k Hk%elem_of_list_to_set. apply elem_of_dom. by eapply Forall_forall in Hin.
  - case_bool_decide as Hc.
    { rewrite decide_True by done. repeat split; try done; constructor. }
    rewrite decide_False by done. destruct (m !! cur) as [n|] eqn:Hn; [|by repeat split; try done; constructor].
    pose proof (Hkeys _ _ Hn) as Hk. cbv zeta. destruct (Z.eqb_spec (PID (Parent n)) 0) as [Hz|Hz].
    { split; [cbn; apply NoDup_singleton|]. split; [constructor; [by rewrite Hk|constructor]|]. split; [done|].
      split; [by intros [|[|i]] a b|]. intros a [= <-]. by left. }
    destruct (IH (cur :: seen) (Parent n)) as (I1 & I2 & I3 & I4 & I5);
      [by constructor|by constructor; [eexists|]|cbn; lia|].
    set (l := anc_loop fuel m (cur :: seen) (Parent n)) in *. split.
    { cbn. constructor; [|done]. intros (y & Hy & Hyl)%list_elem_of_fmap. rewrite Forall_forall in I2.
      destruct (I2 y Hyl) as [_ Hnot]. apply Hnot. rewrite <- Hy, Hk. left. }
    split; [constructor; [by rewrite Hk|eapply Forall_impl; [exact I2|]; set_solver]|]. split; [done|]. split.
    + intros [|i] a b; cbn; [|apply I4]. intros [= <-] Hb. change (l !! 0 = Some b) in Hb. rewrite <- head_lookup, I3 in Hb.
      destruct (decide _); [done|]. by apply Hkeys.
    + intros a. cbn. destruct (last l) as [a'|] eqn:Hl.
      * rewrite last_cons, Hl. intros [= <-]. destruct (I5 a' eq_refl) as [?|[?|Hm]]; [by left|by right; left|right; right].
        rewrite Hk. set_solver.
      * rewrite last_cons, Hl. intros [= <-]. apply last_None in Hl. rewrite Hl in I3 |- *. cbn in I3 |- *. right.
        destruct (decide (Parent n ∈ cur :: seen)) as [Hp|_]; [right; rewrite Hk; set_solver|by left].
Qed.

(** The ancestry of a process, asked without a limit, is a path: it starts with the
    process itself, each next one is the parent of the one before, none occurs
    twice, and it stops only where the parent is unknown, not in the graph or already
    on the path, so that a loop of parents cannot hold it up. *)
Theorem ancestry_is_parent_path ord by_seen (maxn high low : Z) (retention : Time.duration) (ops : list hg_op) (key : ProcKey) :
  let g := foldl (hg_exec ord by_seen) (NewGraph maxn high low retention) ops in
  let l := hg_Ancestors key (-1) g in
  NoDup (Key <$> l) ∧ head l = hg_Get key g ∧
  (∀ i a b, l !! i = Some a → l !! S i = Some b → hg_Get (Parent a) g = Some b) ∧
  (∀ a, last l = Some a → PID (Parent a) = 0%Z ∨ hg_Get (Parent a) g = None ∨ Parent a ∈ Key <$> l).
Proof.
  intros g l. assert (Hg : graph_ok g) by (apply run_ok, new_graph_ok).
  destruct (anc_loop_path (g_nodes g) (ok_keys g Hg) (S (size (g_nodes g))) [] key) as (H1 & H2 & H3 & H4 & H5);
    [constructor|constructor|cbn; lia|].
  split; [exact H1|]. split; [by rewrite decide_False in H3 by set_solver|]. split; [|exact H5].
  intros i a b Ha Hb. rewrite <- (H4 i a b Ha Hb). rewrite Forall_lookup in H2. by destruct (H2 _ _ Hb).
Qed.

Definition edge (g : Graph) (k c : ProcKey) : Prop := c ∈ kids k g.

Lemma size_apart (X Y : gset ProcKey) : X ## Y → size (X ∪ Y) = size X + size Y.
Proof. apply size_union. Qed.

Lemma visit_spec (m : gmap ProcKey ProcessNode) (d : Z) (cs : list ProcKey) : ∀ seen seen' out more,
  visit m d cs seen = (seen', out, more) →
  seen' = seen ∪ list_to_set cs ∧ (∀ n, n ∈ out ↔ ∃ k, k ∈ seen' ∖ seen ∧ m !! k = Some n) ∧
  (∀ k, k ∈ more.*1 ↔ k ∈ seen' ∖ seen) ∧ length more = size (seen' ∖ seen).
Proof.
  induction cs as [|c cs IH]; intros seen seen' out more; cbn [visit].
  - intros [= <- <- <-]. split; [set_solver|]. rewrite (difference_diag_L seen). split; [set_solver|]. split; [set_solver|].
    by rewrite size_empty.
  - case_bool_decide as Hc.
    { intros Hv. destruct (IH _ _ _ _ Hv) as (-> & H2 & H3 & H4). split; [set_solver|done]. }
    destruct (visit m d cs ({[c]} ∪ seen)) as [[s o] q] eqn:Hv. intros [= <- <- <-].
    destruct (IH _ _ _ _ Hv) as (-> & H2 & H3 & H4). cbn [list_to_set].
    assert (Hd : ({[c]} ∪ seen ∪ list_to_set cs) ∖ seen = {[c]} ∪ ({[c]} ∪ seen ∪ list_to_set cs) ∖ ({[c]} ∪ seen)).
    { apply set_eq. intros k. destruct (decide (k = c)); set_solver. }
    split; [set_solver|]. rewrite Hd. split; [|split].
    + intros n. rewrite elem_of_app, H2. clear Hd. generalize (({[c]} ∪ seen ∪ list_to_set cs) ∖ ({[c]} ∪ seen)). intros D.
      transitivity (m !! c = Some n ∨ ∃ k, k ∈ D ∧ m !! k = Some n); [|set_solver].
      destruct (m !! c) as [x|]; [change (option_list (Some x)) with [x]; rewrite list_elem_of_singleton|
        change (option_list (@None ProcessNode)) with (@nil ProcessNode); rewrite elem_of_nil]; naive_solver.
    + intros k. cbn. rewrite elem_of_cons, H3. set_solver.
    + cbn [length]. rewrite H4, size_apart by set_solver. by rewrite size_singleton.
Qed.

Lemma kids_all (k : ProcKey) (g : Graph) : list_to_set (kids k g) ⊆ all_children g.
Proof.
  intros c. unfold kids, all_children. rewrite !elem_of_list_to_set. destruct (g_children g !! k) as [l|] eqn:Hl; [|set_solver].
  cbn. intros Hc. apply list_elem_of_In, in_concat. exists l. split; [|by apply list_elem_of_In].
  apply list_elem_of_In, list_elem_of_fmap. exists (k, l). split; [done|]. by apply elem_of_map_to_list.
Qed.

(** the queue empties: a key joins it once *)
Lemma desc_loop_ends (g : Graph) (depth : Z) : ∀ fuel seen q,
  length q + size (all_children g ∖ seen) ≤ fuel → is_Some (desc_loop fuel g depth seen q).
Proof.
  intros fuel. induction fuel as [|fuel IH]; intros seen [|[k d] q] Hf; cbn [desc_loop length] in *; [by eexists|lia|by eexists|].
  destruct (_ && _); [apply IH; lia|]. destruct (visit (g_nodes g) d (kids k g) seen) as [[seen' out] more] eqn:Hv.
  apply visit_spec in Hv as (Hs & _ & _ & Hm). destruct (IH seen' (q ++ more)) as [rest ->]; [|by eexists].
  rewrite length_app, Hm. pose proof (kids_all k g) as Hk.
  assert (all_children g ∖ seen = (seen' ∖ seen) ∪ (all_children g ∖ seen')) as He.
  { apply set_eq. intros c. destruct (decide (c ∈ seen')); set_solver. }
  rewrite He, size_apart in Hf by set_solver. lia.
Qed.

(** without a limit the walk reaches all that can be reached *)
Lemma desc_loop_spec (g : Graph) : ∀ fuel seen q out,
  desc_loop fuel g (-1) seen q = Some out →
  (∀ k, k ∈ q.*1 → k ∈ seen) → (∀ k c, k ∈ seen → k ∉ q.*1 → edge g k c → c ∈ seen) →
  ∃ all : gset ProcKey, seen ⊆ all ∧ (∀ k c, k ∈ all → edge g k c → c ∈ all) ∧
    (∀ k, k ∈ all → k ∈ seen ∨ ∃ k0, k0 ∈ q.*1 ∧ tc (edge g) k0 k) ∧
    ∀ n, n ∈ out ↔ ∃ k, k ∈ all ∖ seen ∧ g_nodes g !! k = Some n.
Proof.
  intros fuel. induction fuel as [|fuel IH]; intros seen [|[k d] q] out Ho Hq Hdone; cbn [desc_loop] in Ho; try discriminate.
  1, 2: injection Ho as <-; exists seen; (split; [done|]; split; [intros k c Hk; apply Hdone; set_solver|];
    split; [by left|]; rewrite (difference_diag_L seen); set_solver).
  change (0 <=? -1)%Z with false in Ho. cbn iota beta in Ho.
  destruct (visit (g_nodes g) d (kids k g) seen) as [[seen' o] more] eqn:Hv. apply visit_spec in Hv as (Hs & Hout & Hmore & _).
  cbn in Ho. destruct (desc_loop fuel g (-1) seen' (q ++ more)) as [rest|] eqn:Hr; [|done]. injection Ho as <-.
  cbn [fmap list_fmap fst] in Hq, Hdone.
  assert (Hnew : ∀ c, c ∈ seen' ∖ seen → edge g k c) by (unfold edge; set_solver).
  assert (Hq' : ∀ c, c ∈ (q ++ more).*1 → c ∈ seen') by (intros c; rewrite fmap_app, elem_of_app, Hmore; set_solver).
  destruct (IH seen' (q ++ more) rest Hr Hq') as (all & A1 & A2 & A3 & A4).
  { intros k' c Hk' Hnk He. rewrite fmap_app, elem_of_app, Hmore in Hnk.
    destruct (decide (k' = k)) as [->|]; [unfold edge in He; set_solver|].
    assert (c ∈ seen) by (apply (Hdone k'); [set_solver|set_solver|done]). set_solver. }
  exists all. split; [set_solver|]. split; [done|]. split.
  - intros c Hc. destruct (A3 c Hc) as [Hc'|(k0 & Hk0 & Ht)].
    + destruct (decide (c ∈ seen)); [by left|right]. exists k. split; [by left|]. apply tc_once, Hnew. set_solver.
    + right. rewrite fmap_app, elem_of_app, Hmore in Hk0. destruct Hk0 as [|Hk0]; [exists k0; by split; [right|]|].
      exists k. split; [by left|]. eapply tc_l; [by apply Hnew|done].
  - intros n. rewrite elem_of_app, Hout, A4. split.
    + intros [(c & Hc & Hn)|(c & Hc & Hn)]; exists c; set_solver.
    + intros (c & Hc & Hn). destruct (decide (c ∈ seen')); [left|right]; exists c; set_solver.
Qed.

(** C20: Whatever the edges are, loops and stale entries included, the walk over the
    descendants ends within one turn per known child, and without a limit it gives
    exactly the nodes that can be reached over the edges, the start itself left out. *)
Theorem descendants_are_reachable (key : ProcKey) (g : Graph) :
  (∀ depth, is_Some (desc_loop (S (size (all_children g))) g depth {[key]} [(key, 0%Z)])) ∧
  ∀ n, n ∈ Descendants key (-1) g ↔ ∃ k, k ≠ key ∧ tc (edge g) key k ∧ hg_Get k g = Some n.
Proof.
  assert (Hend : ∀ depth, is_Some (desc_loop (S (size (all_children g))) g depth {[key]} [(key, 0%Z)])).
  { intros depth. apply desc_loop_ends. cbn [length].
    pose proof (subseteq_size (all_children g ∖ {[key]}) (all_children g) ltac:(set_solver)). lia. }
  split; [done|]. intros n. unfold Descendants. destruct (Hend (-1)%Z) as [out Ho]. rewrite Ho. cbn [default].
  destruct (desc_loop_spec g _ _ _ _ Ho) as (all & A1 & A2 & A3 & A4); [set_solver..|]. rewrite A4. split.
  - intros (k & Hk & Hn). exists k. destruct (A3 k) as [|(k0 & Hk0 & Ht)]; [set_solver..|].
    split; [set_solver|]. split; [|done]. set_solver.
  - intros (k & Hne & Ht & Hn). exists k. split; [|done].
    assert (Hall : ∀ a b, tc (edge g) a b → a ∈ all → b ∈ all) by (induction 1; naive_solver). set_solver.
Qed.

(** ** Witnesses *)

Module HotDemo.

Definition as_ranged (m : gmap ProcKey ProcessNode) : list ProcKey := (map_to_list m).*1.
Definition key (pid : Z) : ProcKey := {| PID := pid; StartTicks := 77 |}.

(** the two processes of the records, as /proc shows them *)
Definition proc (pid : Z) : stat_read :=
  if (pid =? 4242)%Z then StatLine "4242 (sh) (1) S 100 1 1 0 -1 0 0 0 0 0 0 0 0 0 20 0 1 0 77 0"
  else if (pid =? 100)%Z then StatLine "100 (sshd) S 1 1 1 0 -1 0 0 0 0 0 0 0 0 0 20 0 1 0 77 0"
  else StatMissing.

Definition env0 : hot_env := {|
  he_proc := proc; he_now := 11; he_later := 12; he_cache_ord := λ m, (map_to_list m).*1; he_seen := as_ranged |}.

Definition cache : ProcKeyCache := NewProcKeyCache {| co_MaxSize := 0; co_TTL := 0 |}.

(** the record of a kind, decoded *)
Definition seen (k : Z) (payload : bytes) : Event :=
  default (base_event 0 0 Decoder.Demo.hdr) (Decode Decoder.Demo.fs 62 10 (hdr_bytes (Process.Demo.hdr k) ++ payload)).

Definition spawn : Event := seen KindProcSpawn (to_array 260 (bytes_of "/bin/sh")).

Definition before : list hot_op := [HotEvent env0 spawn].
Definition after : list hot_op := [HotEvent env0 (seen KindProcExit []); HotSweep as_ranged (2 ^ 60)%Z 0%Z].

Definition start : hot := {| h_cache := cache; h_graph := NewGraph 1 0 0 0 |}.

Lemma demo_kernel (k : Z) (payload : bytes) :
  is_Some (Decode Decoder.Demo.fs 62 10 (hdr_bytes (Process.Demo.hdr k) ++ payload)) → from_kernel (HotEvent env0 (seen k payload)).
Proof. intros [ev Hev]. unfold from_kernel, seen. rewrite Hev. by eexists _, _, _, _, ev. Qed.

(** the shell is the only process the graph has room for; its exit and the sweep leave it *)
Lemma kernel_graph_freezes_witness :
  dom (g_nodes (h_graph (foldl hot_exec start before))) = {[key 4242]} ∧
  p_State <$> hg_Get (key 4242) (h_graph (foldl hot_exec (foldl hot_exec start before) after)) = Some StateLive.
Proof.
  split; [vm_compute; reflexivity|].
  destruct (kernel_graph_freezes cache 1 0 0 0 before after) as (H1 & H2 & _).
  - constructor; [apply demo_kernel; vm_compute; by eexists|constructor].
  - constructor; [apply demo_kernel; vm_compute; by eexists|]. by repeat constructor.
  - destruct (H2 (key 4242)) as [n Hn]; [vm_compute; by eexists|].
    etransitivity; [exact (f_equal (fmap p_State) Hn)|]. exact (f_equal Some (H1 _ _ Hn)).
Defined.

Definition child : ProcessNode := with_parent (key 100) 9 "203.0.113.7" (spawned_node spawn (key 4242) 0).
Definition ops : list hg_op :=
  [HInsert child 5; HInsert (spawned_node spawn (key 100) 9) 6; HExit (key 4242) 7 7; HSweep (2 ^ 60)%Z 0%Z; HInsert child 8].

Lemma hot_indices_exact_witness :
  map (PID ∘ Key) (ByLineage id 9 (foldl (hg_exec as_ranged as_ranged) (NewGraph 8 6 5 0) ops)) = [100; 4242]%Z ∧
  nonLiveCount (foldl (hg_exec as_ranged as_ranged) (NewGraph 8 6 5 0) ops) =
    Z.of_nat (size (filter (λ p, is_live p.2 = false) (g_nodes (foldl (hg_exec as_ranged as_ranged) (NewGraph 8 6 5 0) ops)))).
Proof.
  split; [vm_compute; reflexivity|].
  destruct (hot_indices_exact as_ranged as_ranged id 8 6 5 0 ops) as (_ & _ & _ & _ & H & _); [done|exact H].
Defined.

(** the number 4242 again, five seconds after its process ended *)
Definition graph : Graph := (MarkExit (key 4242) 20 20 (Insert as_ranged child 5 (NewGraph 8 6 5 0)).2).2.
Definition again : hot := {| h_cache := cache_Put (λ m, (map_to_list m).*1) (key 4242) 5 cache; h_graph := graph |}.
Definition entry : procKeyEntry := {| pe_key := key 4242; pe_at := 5 |}.
Definition dead : ProcessNode := default child (hg_Get (key 4242) graph).

Lemma reused_pid_joins_dead_process_witness :
  dom (g_nodes (h_graph (populateHotGraph env0 spawn 0 again))) = dom (g_nodes graph) ∧
  p_State <$> hg_Get (key 4242) (h_graph (populateHotGraph env0 spawn 0 again)) = Some StateExited.
Proof.
  destruct (reused_pid_joins_dead_process env0 spawn 0 again entry dead) as [H1 (n & Hn & Hs & _)];
    [vm_compute; discriminate|discriminate|vm_compute; reflexivity..|].
  split; [exact H1|]. etransitivity; [exact (f_equal (fmap p_State) Hn)|]. exact (f_equal Some Hs).
Defined.

(** A parent learned on a second sight joins the ancestry and not the descendants. *)
Example late_parent_has_no_edge :
  let g := foldl (hg_exec as_ranged as_ranged) (NewGraph 8 6 5 0)
             [HInsert (spawned_node spawn (key 100) 9) 5; HInsert (spawned_node spawn (key 4242) 0) 6; HInsert child 7] in
  map (PID ∘ Key) (hg_Ancestors (key 4242) (-1) g) = [4242; 100]%Z ∧ Descendants (key 100) (-1) g = [].
Proof. split; vm_compute; reflexivity. Qed.

End HotDemo.
