(* ===== verification/LedgerFeed.v ===== *)
(** * The ledger stage of the pipeline (src/pkg/pipeline/pipeline.go 423-531)

    The first stage an event meets turns connects and byte counts of the kernel
    into events of the egress ledger.  It reads the tags the decoder wrote: the
    stages that add names, hashes and cgroups to the event run after it.

    The classifier, the process tree, and the lookups of cgroup, negotiated
    protocol and application are what the daemon plugs into the pipeline. *)

From S2P Require Import Prelude GoStd Bytes NetIP Model Decoder EgressPolicy EgressLedger Pipeline Provenance Process FlowLabels.
From S2P Require DestClass.

(** ** The stage *)

Definition parseUint (s : string) : Z := if Str.empty s then 0%Z else Str.scan_uint 64 s.

(** a port read into an int first *)
Definition port_text (s : string) : Z := if Str.empty s then 0%Z else u16 (Str.scan_int s).

Record lookups := {
  lk_DestClassifier : option DestClass.Classifier; lk_ProcTree : option Graph;
  lk_CGroup : option (Z → string * string * string); lk_ALPN : option (Z → string → Z → string); lk_App : option (Z → string) }.

Definition is_flow (ev : Event) : bool :=
  bool_decide (ev_Sensor ev = "ebpf.net") &&
  (bool_decide (tag ev "kind" = "net_connect") || bool_decide (tag ev "kind" = "net_bytes")).

Definition parent_comm (x : lookups) (ev : Event) : string :=
  if Str.empty (tag ev "parent_comm") && negb (ev_ParentPID ev =? 0)%Z then
    match lk_ProcTree x with
    | Some g => match Ancestors (ev_ParentPID ev) 1 g with n :: _ => pn_Comm n | [] => "" end
    | None => ""
    end
  else tag ev "parent_comm".

(** the first 32 bytes of the decoded payload *)
Definition payload_prefix (ev : Event) : bytes :=
  if Str.empty (tag ev "payload_b64") then []
  else match base64_decode (tag ev "payload_b64") with Some b => take 32 b | None => [] end.

Definition alpn_of (x : lookups) (ev : Event) (port : Z) : string :=
  if Str.empty (tag ev "alpn") && negb (ev_PID ev =? 0)%Z then
    match lk_ALPN x with Some f => f (ev_PID ev) (tag ev "dst_ip") port | None => "" end
  else tag ev "alpn".

(** the bytes received and sent *)
Definition flow_bytes (ev : Event) : Z * Z :=
  let b := parseUint (tag ev "bytes") in
  if (0 <? b)%Z then
    (if bool_decide (tag ev "direction" = "in") || bool_decide (tag ev "dir" = "in") then (b, 0%Z) else (0%Z, b))
  else (0%Z, 0%Z).

Definition ledger_event (x : lookups) (ev : Event) : LedgerEvent :=
  let binary := firstNonEmpty [ev_Image ev; ev_Comm ev] in
  let ip := parseIPOrNil (tag ev "dst_ip") in
  let port := port_text (tag ev "dst_port") in
  let connect := bool_decide (tag ev "kind" = "net_connect") in
  let '(container, class, unit_) :=
    match lk_CGroup x with Some f => if (ev_PID ev =? 0)%Z then ("", "", "") else f (ev_PID ev) | None => ("", "", "") end in {|
  le_Time := ev_Time ev; le_Binary := binary; le_ExeSHA := tag ev "exe_sha256"; le_UID := ev_UID ev;
  le_CGroupID := parseUint (tag ev "cgroup_id"); le_DestIP := ip; le_DestPort := port; le_Protocol := tag ev "protocol";
  le_SNI := tag ev "sni"; le_DNSName := tag ev "dns_name"; le_BytesOut := (flow_bytes ev).2; le_BytesIn := (flow_bytes ev).1;
  le_Connect := connect; le_Deny := false; le_Verify := false;
  le_DestClass := match lk_DestClassifier x, ip with
                  | Some c, Some ip => DestClass.dc_Class (DestClass.Classify c (Some ip) (tag ev "sni"))
                  | _, _ => ""
                  end;
  le_Role := if connect then "client" else ""; le_PID := ev_PID ev; le_PPID := ev_ParentPID ev; le_Comm := ev_Comm ev;
  le_ContainerID := container; le_ContainerClass := class; le_Unit := unit_;
  le_ServiceRole := role_Classify binary (ev_Comm ev) "" 0; le_ParentComm := parent_comm x ev;
  le_L7Protocol := l7_Classify {|
    sg_L4 := tag ev "protocol"; sg_DstPort := port; sg_SNI := tag ev "sni"; sg_ALPN := alpn_of x ev port;
    sg_HTTPRequestLine := tag ev "http_request_line"; sg_PayloadPrefix := payload_prefix ev;
    sg_QUICConfirmed := bool_decide (tag ev "quic_confirmed" = "1") |};
  le_App := match lk_App x with Some f => if (ev_PID ev =? 0)%Z then "" else f (ev_PID ev) | None => "" end;
  le_SrcPort := port_text (tag ev "src_port") |}.

Definition ledger_stage (x : lookups) (now : Time.time) (listening : gset Z) (ev : Event) (l : Ledger) : Ledger :=
  if is_flow ev then ledger_Observe now listening (ledger_event x ev) l else l.

(** ** From kernel records to the ledger *)

(** a record that is read, with what its handling consults, or one of the
    ledger's own operations *)
Inductive feed_op : Type :=
  | FRecord (fs : procfs) (id : Z) (read : Time.time) (raw : bytes) (x : lookups) (now : Time.time) (listening : gset Z)
  | FTick (now : Time.time) (x : tick_io)
  | FRestart (ok state_ok : bool) (ord : list FlowRecord → list FlowRecord).

Section feed.
Context (iter : gmap (list Z) FlowRecord → list (list Z * FlowRecord)).

Definition feed_step (l : Ledger) (op : feed_op) : Ledger :=
  match op with
  | FRecord fs id read raw x now ls =>
      match Decode fs id read raw with Some ev => ledger_stage x now ls ev l | None => l end
  | FTick now x => (ledger_Tick iter now x l).1
  | FRestart ok st ord => reopen st (ledger_Close ok ord l)
  end.

(** what the ledger is asked to do *)
Definition ledger_ops (ops : list feed_op) : list ledger_op := omap (λ op,
  match op with
  | FRecord fs id read raw x now ls =>
      ev ← Decode fs id read raw; if is_flow ev then Some (LObserve now ls (ledger_event x ev)) else None
  | FTick now x => Some (LTick now x)
  | FRestart ok st ord => Some (LRestart ok st ord)
  end) ops.

Lemma feed_ledger (ops : list feed_op) (l : Ledger) : foldl feed_step l ops = foldl (ledger_exec iter) l (ledger_ops ops).
Proof.
  revert l. induction ops as [|op ops IH]; intros l; [done|]. cbn [foldl]. rewrite IH.
  destruct op as [fs id read raw x now ls|now x|ok st ord]; [|done..]. cbn [feed_step ledger_ops omap list_omap].
  destruct (Decode fs id read raw) as [ev|]; [|done]. cbn. unfold ledger_stage. by destruct (is_flow ev).
Qed.
End feed.

(** ** What the decoder gives the stage *)

(** a flow is a connect or a byte count *)
Lemma flow_record (fs : procfs) (id : Z) (read : Time.time) (raw : bytes) (ev : Event) :
  Decode fs id read raw = Some ev → is_flow ev = true →
  let h := read_hdr raw in
  h_Kind h = KindNetConnect ∧ ev = decodeNetEvent (drop hdrSize raw) (base_event id read h) ∨
  h_Kind h = KindNetBytes ∧ ev = decodeNetBytesEvent (drop hdrSize raw) (base_event id read h).
Proof.
  intros Hd Hf. destruct (Decode_some fs id read raw ev Hd) as (h & Hh & _ & _ & _ & Hk). rewrite <-Hh. cbv zeta.
  assert (ev = decode_payload fs (h_Kind h) (drop hdrSize raw) (base_event id read h)) as He.
  { unfold Decode in Hd. rewrite <-Hh in Hd. destruct (_ <? _)%nat; [done|]. by injection Hd as <-. }
  clear Hh Hd.
  unfold is_flow in Hf. apply andb_prop in Hf as [_ Hf]. rewrite Hk in Hf. apply orb_prop in Hf as [Hf|Hf]; apply bool_decide_eq_true in Hf.
  - apply (switch_key _ _ _ [KindNetConnect]) in Hf; [|by apply (bool_decide_unpack _)|done]. cbn in Hf. rewrite orb_false_r in Hf.
    apply Z.eqb_eq in Hf. left. split; [done|]. by rewrite He, Hf.
  - apply (switch_key _ _ _ [KindNetBytes]) in Hf; [|by apply (bool_decide_unpack _)|done]. cbn in Hf. rewrite orb_false_r in Hf.
    apply Z.eqb_eq in Hf. right. split; [done|]. by rewrite He, Hf.
Qed.

(** the tags a flow record can carry *)
Definition flow_tags : list string := ["dst_ip"; "family"; "dst_port"; "src_port"; "outbound"; "bytes"; "dir"; "quic_confirmed"].

Lemma set_other (k k' v : string) (ev : Event) : k' ∉ flow_tags → k ∈ flow_tags → tag (set_tag k v ev) k' = tag ev k'.
Proof. intros Hn Hk. apply tag_set_ne. intros ->. by apply Hn. Qed.

Lemma flow_other (k : string) (b : bytes) (ev : Event) :
  k ∉ flow_tags → tag (decodeNetEvent b ev) k = tag ev k ∧ tag (decodeNetBytesEvent b ev) k = tag ev k.
Proof.
  intros Hk. unfold decodeNetEvent, decodeNetBytesEvent, set_addr, set_sport, tag_if. split.
  - repeat case_match; rewrite ?(set_other _ k) by (done || apply (bool_decide_unpack _); vm_compute; exact I); done.
  - repeat case_match; rewrite ?(set_other _ k) by (done || apply (bool_decide_unpack _); vm_compute; exact I); done.
Qed.

(** every other tag but the two of the header and the switches is empty *)
Lemma flow_empty (fs : procfs) (id : Z) (read : Time.time) (raw : bytes) (ev : Event) (k : string) :
  Decode fs id read raw = Some ev → is_flow ev = true → k ∉ flow_tags → k ∉ "kind" :: "ts_ns" :: defaultBoolTags → tag ev k = "".
Proof.
  intros Hd Hf Hk Hb. destruct (flow_record fs id read raw ev Hd Hf) as [[_ ->]|[_ ->]];
    rewrite ?(proj1 (flow_other k _ _ Hk)), ?(proj2 (flow_other k _ _ Hk)); by apply base_absent.
Qed.

(** ** Types of the rows *)

Section typed.
Context (services : list string) (protos : list string) (classes : list string).

(** widths of the numbers, labels from their tables, times in order *)
Record row_typed (r : FlowRecord) : Prop := {
  rt_port : (0 ≤ fk_DestPort (fr_Key r) < 2 ^ 16)%Z;
  rt_uid : (0 ≤ fk_UID (fr_Key r) < 2 ^ 32)%Z;
  rt_class : fk_DestClass (fr_Key r) ∈ classes ∨ fk_DestClass (fr_Key r) = "" ∧ fk_DestCIDR (fr_Key r) = "";
  rt_role : fk_Role (fr_Key r) ∈ [""; "client"; "server"];
  rt_service : fm_ServiceRole (fr_Metrics r) ∈ services;
  rt_l7 : fm_L7Protocol (fr_Metrics r) ∈ protos;
  rt_counters : Forall (λ n, (0 ≤ n < 2 ^ 64)%Z)
    [fm_Connects (fr_Metrics r); fm_BytesOut (fr_Metrics r); fm_BytesIn (fr_Metrics r)];
  rt_seen : (fm_FirstSeen (fr_Metrics r) ≤ fm_LastSeen (fr_Metrics r))%Z }.

Lemma last_some_in (l : list string) (a b : string) : a ∈ l → b ∈ l → last_some a b ∈ l.
Proof. intros. unfold last_some. by case_match. Qed.

#[export] Instance typed_kept : RowKept row_typed.
Proof.
  constructor.
  - intros b r []. by constructor.
  - intros r r' [] []. constructor; cbn [mergeRecord fr_Key fr_Metrics fm_ServiceRole fm_L7Protocol fm_Connects fm_BytesOut
      fm_BytesIn fm_FirstSeen fm_LastSeen]; try done.
    + by apply last_some_in.
    + by apply last_some_in.
    + repeat (apply Forall_cons_2; [apply u64_bound|]). constructor.
    + unfold Time.Before, Time.After. repeat case_match; bool_to_prop; lia.
  - intros r []. constructor; cbn; try done.
    + apply Z.mod_pos_bound. lia.
    + apply (bool_decide_unpack _). vm_compute. exact I.
Qed.

Lemma inferRole_in (ls : gset Z) (s d : Z) : inferRole ls s d ∈ [""; "client"; "server"].
Proof. unfold inferRole. repeat case_match; apply (bool_decide_unpack _); vm_compute; exact I. Qed.

Lemma typed_fits (o : Options) (ls : gset Z) (ev : LedgerEvent) :
  (0 ≤ le_DestPort ev < 2 ^ 16)%Z → (0 ≤ le_UID ev < 2 ^ 32)%Z →
  class_of o ev ∈ classes ∨ class_of o ev = "" ∧ le_DestIP ev = None → le_Role ev ∈ [""; "client"] →
  le_ServiceRole ev ∈ services → le_ServiceRole ev ≠ "" → le_L7Protocol ev ∈ protos → le_L7Protocol ev ≠ "" →
  fits row_typed o ls ev.
Proof.
  intros Hp Hu Hc Hr Hs Hs0 Hl Hl0 _ t b m row Hm. subst row.
  assert (∀ a n, n ≠ "" → last_some a n = n) as Hlast by (intros a n Hn; unfold last_some, Str.empty; by rewrite bool_decide_eq_false_2).
  constructor; cbn [fr_Key fr_Metrics flow_key fk_DestPort fk_UID fk_DestClass fk_DestCIDR fk_Role bump_metrics fm_ServiceRole
    fm_L7Protocol fm_Connects fm_BytesOut fm_BytesIn fm_FirstSeen fm_LastSeen]; rewrite ?Hlast by done; try done.
  - destruct Hc as [Hc|[Hc Hi]]; [by left|right]. by rewrite Hi.
  - rewrite !elem_of_cons in Hr. destruct Hr as [->|[->|Hr%elem_of_nil]]; [apply inferRole_in| |done].
    apply (bool_decide_unpack _). vm_compute. exact I.
  - assert (0 ≤ fm_Connects m < 2 ^ 64)%Z.
    { destruct Hm as [->|Hm]; [done|]. destruct Hm as [_ _ _ _ _ _ Hm _]. by apply Forall_inv in Hm. }
    repeat apply Forall_cons_2; try apply u64_bound; [|constructor]. destruct (le_Connect ev); [apply u64_bound|done].
  - assert (fm_FirstSeen m ≤ fm_LastSeen m)%Z by (destruct Hm as [->|[]]; [done|exact rt_seen0]).
    unfold Time.Before, Time.After. repeat case_match; bool_to_prop; lia.
Qed.
End typed.

(** nothing but the address is known of the flow *)
Record row_nameless (r : FlowRecord) : Prop := {
  rn_texts : Forall (λ s, s = "")
    [fk_ExeSHA (fr_Key r); fk_Protocol (fr_Key r); fk_SNI (fr_Key r); fk_DNSName (fr_Key r)];
  rn_numbers : Forall (λ n, n = 0%Z)
    [fk_CGroupID (fr_Key r); fm_DistinctDsts (fr_Metrics r); fm_DenyEvents (fr_Metrics r); fm_VerifyEvents (fr_Metrics r)];
  rn_class : fk_DestClass (fr_Key r) ∈ "" :: DestClass.address_classes;
  rn_l7 : fm_L7Protocol (fr_Metrics r) ∈ nameless }.

Ltac all_four H := repeat (apply Forall_cons in H as [? H]).

#[export] Instance nameless_kept : RowKept row_nameless.
Proof.
  constructor.
  - intros b r []. by constructor.
  - intros r r' [Ht Hn Hc Hl] [Ht' Hn' Hc' Hl']. all_four Hn. all_four Hn'.
    constructor; cbn [mergeRecord fr_Key fr_Metrics fm_DistinctDsts fm_DenyEvents fm_VerifyEvents fm_L7Protocol]; try done.
    + by repeat apply Forall_cons_2; try apply Forall_nil_2; simplify_eq; rewrite ?H0, ?H1, ?H2, ?H4, ?H5, ?H6.
    + by apply last_some_in.
  - intros r [Ht Hn Hc Hl]. all_four Hn. all_four Ht. constructor; cbn; try done; repeat apply Forall_cons_2; done || apply Forall_nil_2.
Qed.

Lemma nameless_fits (o : Options) (ls : gset Z) (ev : LedgerEvent) :
  le_ExeSHA ev = "" → le_Protocol ev = "" → le_SNI ev = "" → le_DNSName ev = "" → le_CGroupID ev = 0%Z →
  le_Deny ev = false → le_Verify ev = false → class_of o ev ∈ "" :: DestClass.address_classes →
  le_L7Protocol ev ∈ nameless → le_L7Protocol ev ≠ "" → fits row_nameless o ls ev.
Proof.
  intros He Hp Hs Hd Hg Hdeny Hv Hc Hl Hl0 _ t b m row Hm. subst row.
  assert (Forall (λ n, n = 0%Z) [fm_DistinctDsts m; fm_DenyEvents m; fm_VerifyEvents m]) as Hz.
  { destruct Hm as [->|[_ Hn _ _]]; [by repeat apply Forall_cons_2; try apply Forall_nil_2|]. by apply Forall_cons in Hn as [_ Hn]. }
  all_four Hz. constructor; cbn [fr_Key fr_Metrics flow_key fk_ExeSHA fk_Protocol fk_SNI fk_DNSName fk_CGroupID fk_DestClass
    bump_metrics fm_DistinctDsts fm_DenyEvents fm_VerifyEvents fm_L7Protocol]; rewrite ?Hdeny, ?Hv; try done.
  - by repeat apply Forall_cons_2; try apply Forall_nil_2.
  - by repeat apply Forall_cons_2; try apply Forall_nil_2.
  - unfold last_some, Str.empty. by rewrite bool_decide_eq_false_2.
Qed.

(** ** The event of a kernel record *)

Lemma port_text_bound (s : string) : (0 ≤ port_text s < 2 ^ 16)%Z.
Proof. unfold port_text. case_match; [done|]. apply Z.mod_pos_bound. lia. Qed.

Lemma le_at_bound (n : nat) (b : bytes) (i : nat) : Forall byte_ok b → (0 ≤ le_at n b i < 256 ^ Z.of_nat n)%Z.
Proof.
  intros Hb. unfold le_at, slice. pose proof (le_dec_bound (take (i + n - i) (drop i b))) as H.
  assert (length (take (i + n - i) (drop i b)) ≤ n) as Hl by (rewrite length_take; lia).
  specialize (H ltac:(by apply Forall_take, Forall_drop)). split; [apply H|]. eapply Z.lt_le_trans; [apply H|].
  apply Z.pow_le_mono_r; lia.
Qed.

Section record.
Context (fs : procfs) (id : Z) (read : Time.time) (raw : bytes) (x : lookups) (ev : Event).
Context (Hdec : Decode fs id read raw = Some ev) (Hflow : is_flow ev = true).

Lemma record_empty (k : string) : k ∉ flow_tags → k ∉ "kind" :: "ts_ns" :: defaultBoolTags → tag ev k = "".
Proof. by apply (flow_empty fs id read raw). Qed.

Ltac empty_tag := apply record_empty; apply (bool_decide_unpack _); vm_compute; exact I.

Lemma record_uid : Forall byte_ok raw → (0 ≤ ev_UID ev < 2 ^ 32)%Z.
Proof.
  intros Hb. destruct (Decode_some fs id read raw ev Hdec) as (h & -> & _ & Hid & _). rewrite (k_UID _ _ Hid).
  by apply (le_at_bound 4).
Qed.

Lemma record_names :
  le_ExeSHA (ledger_event x ev) = "" ∧ le_Protocol (ledger_event x ev) = "" ∧ le_SNI (ledger_event x ev) = "" ∧
  le_DNSName (ledger_event x ev) = "" ∧ le_CGroupID (ledger_event x ev) = 0%Z.
Proof.
  assert (tag ev "cgroup_id" = "") as Hc by empty_tag. unfold ledger_event. destruct (match lk_CGroup x with Some _ => _ | None => _ end) as [[a b] c].
  cbn [le_ExeSHA le_Protocol le_SNI le_DNSName le_CGroupID]. rewrite Hc. split_and!; [empty_tag..|reflexivity].
Qed.

Lemma record_l7 : le_L7Protocol (ledger_event x ev) ∈ nameless.
Proof.
  unfold ledger_event. destruct (match lk_CGroup x with Some _ => _ | None => _ end) as [[a b] c]. cbn [le_L7Protocol].
  apply l7_nameless; cbn [sg_L4 sg_SNI sg_HTTPRequestLine]; [|empty_tag..].
  assert (tag ev "protocol" = "") as -> by empty_tag. done.
Qed.

Lemma record_class :
  lk_DestClassifier x ≠ None →
  le_DestClass (ledger_event x ev) ∈ DestClass.address_classes ∨
  le_DestClass (ledger_event x ev) = "" ∧ le_DestIP (ledger_event x ev) = None.
Proof.
  intros Hx. unfold ledger_event. destruct (match lk_CGroup x with Some _ => _ | None => _ end) as [[a b] c].
  cbn [le_DestClass le_DestIP]. destruct (lk_DestClassifier x) as [cl|]; [|done]. destruct (parseIPOrNil _) as [ip|]; [left|by right].
  assert (tag ev "sni" = "") as -> by empty_tag. apply DestClass.Classify_nameless.
Qed.

Lemma record_labels :
  le_Role (ledger_event x ev) ∈ [""; "client"] ∧ le_ServiceRole (ledger_event x ev) ∈ Roles ∧
  le_Deny (ledger_event x ev) = false ∧ le_Verify (ledger_event x ev) = false ∧
  (0 ≤ le_DestPort (ledger_event x ev) < 2 ^ 16)%Z ∧ le_UID (ledger_event x ev) = ev_UID ev.
Proof.
  unfold ledger_event. destruct (match lk_CGroup x with Some _ => _ | None => _ end) as [[a b] c].
  cbn [le_Role le_ServiceRole le_Deny le_Verify le_DestPort le_UID]. split_and!; [|apply role_in|done..|apply port_text_bound|apply port_text_bound|done].
  case_bool_decide; apply (bool_decide_unpack _); vm_compute; exact I.
Qed.

End record.

(** ** The theorems *)

Lemma label_not_empty (l : list string) (s : string) : "" ∉ l → s ∈ l → s ≠ "".
Proof. by intros Hl Hs ->. Qed.

(** a label of one table is one of a larger table *)
Ltac wider_table H :=
  revert H; lazymatch goal with |- ?s ∈ _ → _ => generalize s end; apply Forall_forall, (bool_decide_unpack _); vm_compute; exact I.

(** records are bytes and meet the daemon's classifier; map ranges are in any order *)
Definition feed_ok (op : feed_op) : Prop :=
  match op with
  | FRecord _ _ _ raw x _ _ => Forall byte_ok raw ∧ lk_DestClassifier x ≠ None
  | FTick _ x => ∀ rs, io_rows x rs ≡ₚ rs
  | FRestart _ _ ord => ∀ rs, ord rs ≡ₚ rs
  end.

Lemma feed_permuted (ops : list feed_op) : Forall feed_ok ops → Forall rows_permuted (ledger_ops ops).
Proof.
  intros Hops. apply Forall_forall. intros lop (op & Hin & Hop)%list_elem_of_omap. rewrite Forall_forall in Hops. specialize (Hops op Hin).
  destruct op as [fs id read raw x now ls|now x|ok st ord]; [|by simplify_eq..].
  destruct (Decode fs id read raw) as [ev|]; [|done]. cbn in Hop. by destruct (is_flow ev); simplify_eq.
Qed.

(** a kind of rows that every flow of the kernel makes *)
Lemma feed_fits (Q : FlowRecord → Prop) (o : Options) (ops : list feed_op) :
  Forall feed_ok ops →
  (∀ fs id read raw x ls ev, Decode fs id read raw = Some ev → is_flow ev = true → Forall byte_ok raw → lk_DestClassifier x ≠ None →
    fits Q o ls (ledger_event x ev)) →
  Forall (op_fits Q o) (ledger_ops ops).
Proof.
  intros Hops HQ. apply Forall_forall. intros lop (op & Hin & Hop)%list_elem_of_omap. rewrite Forall_forall in Hops. specialize (Hops op Hin).
  destruct op as [fs id read raw x now ls|now x|ok st ord]; [|by simplify_eq..].
  destruct (Decode fs id read raw) as [ev|] eqn:Hd; [|done]. cbn in Hop. destruct (is_flow ev) eqn:Hf; [|done]. simplify_eq.
  destruct Hops. by apply (HQ fs id read raw).
Qed.

Section theorems.
Context (iter : gmap (list Z) FlowRecord → list (list Z * FlowRecord)).
Context (iter_all : ∀ m, iter m ≡ₚ map_to_list m).

(** C33: the rows of the ledger are well typed.  Whatever bytes the kernel ring
    delivers and in whatever order records, ticks - failed ones included - and
    restarts follow each other, every row a timeline returns has a 16-bit port, a
    32-bit user, 64-bit counters, a first time not after the last, and a
    destination class, role, service role and protocol taken from their tables;
    only a row without an address has no class. *)
Theorem kernel_rows_typed (o : Options) (ops : list feed_op) (ord : list FlowRecord → list FlowRecord)
    (now start end_ : Time.time) (f : FlowFilter) :
  o_DestClassifier o = None → Forall feed_ok ops → (∀ rs, ord rs ≡ₚ rs) →
  Forall (row_typed Roles Protos DestClass.Classes) (QueryTimeline iter ord now start end_ f (foldl (feed_step iter) (NewLedger o) ops)).
Proof.
  intros Ho Hops Hord. rewrite feed_ledger. apply (timeline_rows iter iter_all _ o); [done|].
  apply exec_rows; [done|apply _|by apply feed_permuted|]. apply feed_fits; [done|].
  intros fs id read raw x ls ev Hd Hf Hb Hx. destruct (record_labels x ev) as (Hr & Hs & _ & _ & Hp & Hu).
  pose proof (record_l7 fs id read raw x ev Hd Hf) as Hl.
  apply typed_fits; [done|rewrite Hu; by apply (record_uid fs id read raw)| |set_solver|done| | |].
  - unfold class_of. rewrite Ho. destruct (record_class fs id read raw x ev Hd Hf Hx) as [Hc|Hc]; [left|by right].
    wider_table Hc.
  - revert Hs. apply label_not_empty, (bool_decide_unpack _). vm_compute. exact I.
  - wider_table Hl.
  - revert Hl. apply label_not_empty, (bool_decide_unpack _). vm_compute. exact I.
Qed.

(** the ledger of the kernel's flows knows addresses only.  The stage runs
    before those that add the hash, the cgroup, the names and the class to the
    event, so in every timeline of such a ledger the hash, transport, server name
    and host name are empty, the cgroup, the deny, verify and distinct counters
    are 0, the class is one an address alone can have, and the protocol is never
    https or udp-other. *)
Theorem kernel_rows_name_nothing (o : Options) (ops : list feed_op) (ord : list FlowRecord → list FlowRecord)
    (now start end_ : Time.time) (f : FlowFilter) :
  o_DestClassifier o = None → Forall feed_ok ops → (∀ rs, ord rs ≡ₚ rs) →
  Forall row_nameless (QueryTimeline iter ord now start end_ f (foldl (feed_step iter) (NewLedger o) ops)).
Proof.
  intros Ho Hops Hord. rewrite feed_ledger. apply (timeline_rows iter iter_all _ o); [done|].
  apply exec_rows; [done|apply _|by apply feed_permuted|]. apply feed_fits; [done|].
  intros fs id read raw x ls ev Hd Hf Hb Hx. destruct (record_names fs id read raw x ev Hd Hf) as (He & Hp & Hsni & Hdns & Hg).
  destruct (record_labels x ev) as (_ & _ & Hdeny & Hv & _). pose proof (record_l7 fs id read raw x ev Hd Hf) as Hl.
  apply nameless_fits; try done.
  - unfold class_of. rewrite Ho. destruct (record_class fs id read raw x ev Hd Hf Hx) as [Hc|[-> _]]; [by right|left].
  - revert Hl. apply label_not_empty, (bool_decide_unpack _). vm_compute. exact I.
Qed.

End theorems.

(** ** From the wire to the timeline *)

(** what a record says of a counter: a connect counts one, a byte count its
    32-bit amount in the direction of its byte 28 *)
Definition wire_amount (c : counter) (raw : bytes) : Z :=
  let k := h_Kind (read_hdr raw) in
  let b := drop hdrSize raw in
  let n := if (k =? KindNetBytes)%Z && (29 <=? length b)%nat then le_at 4 b 24 else 0%Z in
  match c with
  | CConnects => if (k =? KindNetConnect)%Z then 1%Z else 0%Z
  | CBytesOut => if byte_is b 28 0 then n else 0%Z
  | CBytesIn => if byte_is b 28 0 then 0%Z else n
  | CDeny | CVerify => 0%Z
  end.

(** the records of a run the ledger keeps add up to *)
Definition wire_recorded (c : counter) (o : Options) (ops : list feed_op) : Z := sumZ (omap (λ op,
  match op with
  | FRecord fs id read raw x _ _ =>
      ev ← Decode fs id read raw;
      if is_flow ev && negb (dropped o (ledger_event x ev)) then Some (wire_amount c raw) else None
  | _ => None
  end) ops).

Lemma bytes_tags (b : bytes) (ev : Event) :
  29 ≤ length b → tag (decodeNetBytesEvent b ev) "bytes" = Str.itoa (le_at 4 b 24) ∧
  tag (decodeNetBytesEvent b ev) "dir" = if byte_is b 28 0 then "out" else "in".
Proof.
  intros Hl. unfold decodeNetBytesEvent, tag_if. rewrite (proj2 (Nat.ltb_ge _ _)) by done.
  destruct ((29 <? length b)%nat && byte_is b 29 1); rewrite ?(tag_set_ne "quic_confirmed") by done;
    rewrite ?(tag_set_ne "dir") by done; by rewrite !tag_set_eq.
Qed.

Lemma connect_bytes (b : bytes) (ev : Event) : tag (decodeNetEvent b ev) "bytes" = tag ev "bytes".
Proof. unfold decodeNetEvent, set_addr, set_sport, tag_if. repeat case_match; by rewrite ?tag_set_ne by done. Qed.

Lemma parseUint_itoa (n : Z) : (0 ≤ n < 2 ^ 32)%Z → parseUint (Str.itoa n) = n.
Proof.
  intros Hn. unfold parseUint. rewrite Str.scan_uint_itoa by lia. destruct (Str.empty (Str.itoa n)) eqn:He; [|done].
  apply bool_decide_eq_true in He. pose proof (Str.scan_uint_itoa 64 n ltac:(lia)) as Hs. rewrite He in Hs. done.
Qed.

Lemma record_bytes (fs : procfs) (id : Z) (read : Time.time) (raw : bytes) (ev : Event) :
  Decode fs id read raw = Some ev → is_flow ev = true → Forall byte_ok raw →
  flow_bytes ev = (wire_amount CBytesIn raw, wire_amount CBytesOut raw).
Proof.
  intros Hd Hf Hb.
  assert (tag ev "direction" = "") as Hdir by (apply (flow_empty fs id read raw ev _ Hd Hf); apply (bool_decide_unpack _); vm_compute; exact I).
  assert (∀ e, tag (base_event id read (read_hdr raw)) "bytes" = e → e = "") as Hbase.
  { intros e <-. apply base_absent, (bool_decide_unpack _). vm_compute. exact I. }
  unfold flow_bytes, wire_amount. rewrite Hdir. cbv zeta.
  destruct (flow_record fs id read raw ev Hd Hf) as [[-> ->]|[-> ->]].
  { rewrite connect_bytes, (Hbase _ eq_refl). change (parseUint "") with 0%Z. cbn. by destruct (byte_is _ _ _). }
  rewrite Z.eqb_refl. cbn [andb]. destruct (Nat.leb_spec 29 (length (drop hdrSize raw))) as [Hl|Hl].
  - destruct (bytes_tags (drop hdrSize raw) (base_event id read (read_hdr raw)) Hl) as [-> ->].
    assert (0 ≤ le_at 4 (drop hdrSize raw) 24 < 2 ^ 32)%Z as Hn by (apply (le_at_bound 4), Forall_drop, Hb).
    rewrite parseUint_itoa by done. revert Hn. generalize (le_at 4 (drop hdrSize raw) 24). intros n Hn.
    destruct (Z.ltb_spec 0 n); destruct (byte_is _ 28 0); cbn; f_equal; lia.
  - unfold decodeNetBytesEvent. rewrite (proj2 (Nat.ltb_lt _ _)) by lia. rewrite (Hbase _ eq_refl). change (parseUint "") with 0%Z.
    cbn. by destruct (byte_is _ _ _).
Qed.

Lemma record_amount (c : counter) (fs : procfs) (id : Z) (read : Time.time) (raw : bytes) (x : lookups) (ev : Event) :
  Decode fs id read raw = Some ev → is_flow ev = true → Forall byte_ok raw → amount c (ledger_event x ev) = wire_amount c raw.
Proof.
  intros Hd Hf Hb. pose proof (record_bytes fs id read raw ev Hd Hf Hb) as Hbytes.
  destruct (Decode_some fs id read raw ev Hd) as (h & -> & _ & _ & _ & Hk).
  unfold ledger_event. destruct (match lk_CGroup x with Some _ => _ | None => _ end) as [[a b] g].
  destruct c; cbn [amount le_Connect le_BytesOut le_BytesIn le_Deny le_Verify]; rewrite ?Hbytes; try done.
  rewrite Hk. unfold wire_amount. destruct (flow_record fs id read raw ev Hd Hf) as [[-> _]|[-> _]]; reflexivity.
Qed.

Lemma recorded_wire (c : counter) (o : Options) (ops : list feed_op) :
  Forall feed_ok ops → recorded c o (ledger_ops ops) = wire_recorded c o ops.
Proof.
  unfold wire_recorded. induction 1 as [|op ops Hop _ IH]; [done|].
  destruct op as [fs id read raw x now ls|now x|ok st ord]; cbn [ledger_ops omap list_omap recorded] in *; [|exact IH..].
  destruct (Decode fs id read raw) as [ev|] eqn:Hd; [|exact IH]. cbn [mbind option_bind]. destruct (is_flow ev) eqn:Hf; [|exact IH].
  cbn [andb recorded]. fold (ledger_ops ops). rewrite IH. destruct Hop as [Hb _].
  destruct (dropped o (ledger_event x ev)); cbn [negb]; [done|].
  by rewrite (record_amount c fs id read raw x ev Hd Hf Hb).
Qed.

(** every record is read within the span, no tick is late enough to delete and a
    shutdown can write *)
Definition feed_in_span (o : Options) (L H : Time.time) (op : feed_op) : Prop :=
  match op with
  | FRecord _ _ read _ _ _ _ => Time.IsZero read = false ∧ (L + o_HotBucket o + o_WarmBucket o + o_ColdBucket o ≤ read ≤ H)%Z
  | FTick now x => clock_ok o L now ∧ orders_ok x
  | FRestart ok _ ord => ok = true ∧ ∀ rs, ord rs ≡ₚ rs
  end.

Lemma feed_span (o : Options) (L H : Time.time) (ops : list feed_op) :
  Forall (feed_in_span o L H) ops → Forall (op_ok o L H) (ledger_ops ops).
Proof.
  intros Hops. apply Forall_forall. intros lop (op & Hin & Hop)%list_elem_of_omap. rewrite Forall_forall in Hops. specialize (Hops op Hin).
  destruct op as [fs id read raw x now ls|now x|ok st ord]; [|by simplify_eq..].
  destruct (Decode fs id read raw) as [ev|] eqn:Hd; [|done]. cbn in Hop. destruct (is_flow ev); [|done]. simplify_eq.
  destruct Hops as [Hz Hr]. intros _.
  assert (le_Time (ledger_event x ev) = read) as Ht.
  { destruct (Decode_some fs id read raw ev Hd) as (h & _ & _ & Hid & _). transitivity (ev_Time ev); [|apply (k_Time _ _ Hid)].
    unfold ledger_event. by destruct (match lk_CGroup x with Some _ => _ | None => _ end) as [[a b] g]. }
  unfold event_time. by rewrite Ht, Hz.
Qed.

Section wire.
Context (iter : gmap (list Z) FlowRecord → list (list Z * FlowRecord)).
Context (iter_all : ∀ m, iter m ≡ₚ map_to_list m).
Context (iter_sorted : ∀ m, StronglySorted (λ p q, (key_ts p.1 ≤ key_ts q.1)%Z) (iter m)).

(** C13: what the kernel counted is what the timeline shows.  Feed the ledger any
    kernel records, of any kind and well formed or not, mixed with ticks - which
    flush, roll rows down to the files and prune - and restarts: as long as no
    tick reports an error, no shutdown fails to write and no tick is late enough
    for the retention to delete, a timeline over all of it adds up, for connects
    and for bytes in either direction, to exactly what the bytes of the kept
    records say, modulo 2^64; no flow is lost on the way and none counted twice. *)
Theorem kernel_counts_reach_timeline (c : counter) (o : Options) (ops : list feed_op) (L H : Time.time) (l : Ledger)
    (ord : list FlowRecord → list FlowRecord) (now start end_ : Time.time) :
  (Time.Hour ≤ o_WarmRetention (opts_defaults o))%Z → (0 ≤ L)%Z → Forall feed_ok ops →
  Forall (feed_in_span (opts_defaults o) L H) ops → ledger_run iter (ledger_ops ops) (NewLedger o) = Some l →
  (∀ rs, ord rs ≡ₚ rs) → (0 ≤ start ≤ L)%Z → (H ≤ end_ < 2 ^ 63)%Z →
  (start < now - o_HotWindow (opts_defaults o) < end_)%Z →
  l = foldl (feed_step iter) (NewLedger o) ops ∧
  rec_sum c (QueryTimeline iter ord now start end_ any_flow l) ≡64 wire_recorded c (opts_defaults o) ops.
Proof.
  intros HW HL Hf Hops Hrun Hord Hst He Hw. split.
  - rewrite feed_ledger. by apply run_exec.
  - apply feed_span in Hops. rewrite <-recorded_wire by done. by apply (timeline_counts_every_flow iter iter_all iter_sorted c o _ L H).
Qed.
End wire.

(** ** The theorems at work *)

Module Demo.
Definition hdr (kind : Z) : xhEventHdr := {|
  h_TsNs := 1700000000; h_Kind := kind; h_PID := 4242; h_TID := 4242; h_PPID := 100; h_UID := 33; h_GID := 33;
  h_CGroupID := 77; h_Comm := to_array 16 (bytes_of "curl") |}.

Definition connect : bytes := hdr_bytes (hdr KindNetConnect) ++ connect4_payload (replicate 12 0%Z) 93 184 216 34 443 51000 [].

(** 70,000 bytes sent *)
Definition sent : bytes :=
  hdr_bytes (hdr KindNetBytes) ++ le_enc 4 2 ++ replicate 12 0%Z ++ [93; 184; 216; 34]%Z ++ le_enc 2 443 ++ le_enc 2 51000 ++
  le_enc 4 70000 ++ [0; 0; 0; 0]%Z.

Definition plugs : lookups := {|
  lk_DestClassifier := Some (DestClass.New []); lk_ProcTree := None; lk_CGroup := None; lk_ALPN := None; lk_App := None |}.

Definition fs : procfs := {| fs_readlink := λ _, None; fs_readfile := λ _, None |}.

Definition record (s : Z) (raw : bytes) : feed_op :=
  FRecord fs 1 (EgressLedger.Demo.base + s * Time.Second) raw plugs 0 ∅.

Definition ops : list feed_op :=
  [record 0 connect; record 1 sent; FTick (EgressLedger.Demo.base + 120 * Time.Second) EgressLedger.Demo.io; record 300 sent;
   record 301 [1; 2; 3]%Z; FRestart true true (λ l, l); FTick (EgressLedger.Demo.base + 7200 * Time.Second) EgressLedger.Demo.io;
   record 7201 sent].

Definition late : Time.time := (EgressLedger.Demo.base + 7300 * Time.Second)%Z.
Definition early : Time.time := (EgressLedger.Demo.base - 8000 * Time.Second)%Z.
Definition ledger : Ledger := foldl (feed_step EgressLedger.Demo.iter) (NewLedger EgressLedger.Demo.opts) ops.
Definition final : Ledger :=
  default (NewLedger EgressLedger.Demo.opts) (ledger_run EgressLedger.Demo.iter (ledger_ops ops) (NewLedger EgressLedger.Demo.opts)).
Definition rows : list FlowRecord := QueryTimeline EgressLedger.Demo.iter (λ l, l) late early late any_flow ledger.
End Demo.

Lemma Demo_feed_ok : Forall feed_ok Demo.ops.
Proof.
  assert (∀ raw, bool_decide (Forall byte_ok raw) = true → Forall byte_ok raw) as Hraw by (intros raw H; exact (bool_decide_eq_true_1 _ H)).
  assert (lk_DestClassifier Demo.plugs ≠ None) as Hx by discriminate.
  repeat apply Forall_cons_2; [..|apply Forall_nil_2];
    first [split; [apply Hraw; vm_compute; reflexivity|exact Hx]|intros rs; reflexivity].
Qed.

Lemma kernel_rows_typed_witness :
  length Demo.rows = 3 ∧ Forall (row_typed Roles Protos DestClass.Classes) Demo.rows.
Proof.
  split; [vm_compute; reflexivity|].
  refine (kernel_rows_typed EgressLedger.Demo.iter EgressLedger.Demo.iter_all EgressLedger.Demo.opts Demo.ops (λ l, l) Demo.late Demo.early
    Demo.late any_flow _ Demo_feed_ok _); [reflexivity|intros rs; reflexivity].
Defined.

Lemma kernel_rows_name_nothing_witness :
  fm_L7Protocol ∘ fr_Metrics <$> Demo.rows = ["tls-other"; "tls-other"; "tls-other"] ∧ Forall row_nameless Demo.rows.
Proof.
  split; [vm_compute; reflexivity|].
  refine (kernel_rows_name_nothing EgressLedger.Demo.iter EgressLedger.Demo.iter_all EgressLedger.Demo.opts Demo.ops (λ l, l) Demo.late
    Demo.early Demo.late any_flow _ Demo_feed_ok _); [reflexivity|intros rs; reflexivity].
Defined.

Lemma kernel_counts_reach_timeline_witness :
  wire_recorded CBytesOut (opts_defaults EgressLedger.Demo.opts) Demo.ops = 210000%Z ∧
  rec_sum CBytesOut (QueryTimeline EgressLedger.Demo.iter (λ l, l) Demo.late Demo.early Demo.late any_flow Demo.final) ≡64
    wire_recorded CBytesOut (opts_defaults EgressLedger.Demo.opts) Demo.ops.
Proof.
  split; [vm_compute; reflexivity|].
  refine (proj2 (kernel_counts_reach_timeline EgressLedger.Demo.iter EgressLedger.Demo.iter_all EgressLedger.Demo.iter_sorted CBytesOut
    EgressLedger.Demo.opts Demo.ops (EgressLedger.Demo.base - 7000 * Time.Second) (EgressLedger.Demo.base + 7202 * Time.Second)
    Demo.final (λ l, l) Demo.late Demo.early Demo.late _ _ Demo_feed_ok _ _ _ _ _ _)).
  - vm_compute. discriminate.
  - vm_compute. discriminate.
  - repeat apply Forall_cons_2; [..|apply Forall_nil_2];
      first [split; [vm_compute; reflexivity|split; vm_compute; discriminate]
            |split; [split; [vm_compute; discriminate|split; [vm_compute; discriminate|vm_compute; reflexivity]]|exact Demo_orders]
            |split; [reflexivity|intros rs; reflexivity]].
  - assert (match ledger_run EgressLedger.Demo.iter (ledger_ops Demo.ops) (NewLedger EgressLedger.Demo.opts) with
            | Some _ => true | None => false end = true) as Hrun by (vm_compute; reflexivity).
    unfold Demo.final. destruct (ledger_run _ _ _); [reflexivity|discriminate Hrun].
  - intros rs. reflexivity.
  - split; vm_compute; discriminate.
  - split; [vm_compute; discriminate|vm_compute; reflexivity].
  - split; vm_compute; reflexivity.
Defined.
