(* ===== verification/CGroupClass.v ===== *)
(** * Cgroup classes (src/pkg/cgroupclass/cgroupclass.go)

    A process is a user's, the system's, a container's or the kernel's, by the
    path of its cgroup; answers are kept in a bounded cache.

    The file reader and the clock are arguments, and so is the order in which a
    full cache is ranged over. *)

From S2P Require Import Prelude GoStd Bytes Model Decoder Process.
From stdpp Require Import pretty.

(** ** Data *)

Inductive CGroup : Type := CGUnknown | CGUser | CGSystem | CGContainer | CGKernel.

#[export] Instance CGroup_eq_dec : EqDecision CGroup.
Proof. solve_decision. Defined.

Definition CGroup_String (c : CGroup) : string :=
  match c with
  | CGUser => "user" | CGSystem => "system" | CGContainer => "container" | CGKernel => "kernel" | CGUnknown => "unknown"
  end.

Record Info := {
  in_Class : CGroup; in_Unit : string; in_ContainerID : string; in_UserID : string; in_RawPath : string }.

Record cacheEntry := { ce_info : Info; ce_used : Time.time }.

Record Classifier := { cg_cache : gmap Z cacheEntry; cg_cap : Z }.

Definition New (cap : Z) : Classifier := {| cg_cache := ∅; cg_cap := if (cap <=? 0)%Z then 4096 else cap |}.

(** ** Paths *)

Definition leaf (p : string) : string := default "" (last (Str.Split "/" p)).

Definition runtime_prefixes : list string := ["docker-"; "cri-containerd-"; "crio-"; "libpod-"; "containerd-"].

Definition isContainerPath (p : string) : bool :=
  Str.Contains p "/kubepods" || Str.Contains p "/lxc/" || Str.HasPrefix p "/machine.slice/" ||
  existsb (Str.HasPrefix (leaf p)) runtime_prefixes.

Definition unit_suffixes : list string := [".service"; ".scope"; ".socket"; ".mount"].

(** the last segment that names a unit *)
Definition extractUnit (p : string) : string :=
  default "" (List.find (λ seg, existsb (Str.HasSuffix seg) unit_suffixes) (rev (Str.Split "/" p))).

(** up to the first of [.:/] *)
Fixpoint upto_mark (s : string) : string :=
  match s with
  | EmptyString => EmptyString
  | String c s' => if bool_decide (c ∈ ["."; ":"; "/"]%char) then EmptyString else String c (upto_mark s')
  end.

Definition extractUserID (p : string) : string :=
  match Str.Index p "/user-" with None => "" | Some i => upto_mark (Str.from (i + Str.len "/user-") p) end.

Definition extractContainerID (p : string) : string :=
  let l := leaf p in
  let l := match List.find (Str.HasPrefix l) ["docker-"; "cri-containerd-"; "crio-"] with Some pfx => Str.TrimPrefix l pfx | None => l end in
  foldl Str.TrimSuffix l [".scope"; ".slice"].

Definition classifyPath (p : string) : Info :=
  if Str.empty p || bool_decide (p = "/") then
    {| in_Class := CGKernel; in_Unit := ""; in_ContainerID := ""; in_UserID := ""; in_RawPath := p |}
  else if isContainerPath p then
    {| in_Class := CGContainer; in_Unit := ""; in_ContainerID := extractContainerID p; in_UserID := ""; in_RawPath := p |}
  else if Str.HasPrefix p "/user.slice/" || Str.Contains p "/user-" then
    {| in_Class := CGUser; in_Unit := extractUnit p; in_ContainerID := ""; in_UserID := extractUserID p; in_RawPath := p |}
  else
    {| in_Class := CGSystem; in_Unit := extractUnit p; in_ContainerID := ""; in_UserID := ""; in_RawPath := p |}.

(** the third field of a line *)
Definition cgroup_path (line : string) : option string :=
  i ← Str.IndexByte line ":"; let rest := Str.from (S i) line in
  j ← Str.IndexByte rest ":"; Some (Str.from (S j) rest).

(** the loop over the lines: the last path that is not the root, or the one of
    the first unified line *)
Fixpoint pick_path (lines : list string) (last : string) : string :=
  match lines with
  | [] => last
  | line :: lines' =>
      match cgroup_path line with
      | None => pick_path lines' last
      | Some path =>
          if Str.HasPrefix line "0::" then path
          else pick_path lines' (if negb (Str.empty path) && negb (bool_decide (path = "/")) then path else last)
      end
  end.

Definition parseCgroupFile (data : string) : Info := classifyPath (pick_path (Str.scan_lines data) "").

(** ** Numbers *)

Definition digit_char (d : Z) : ascii := ascii_of_nat (Z.to_nat (48 + d)).

(** the digits written from the right end of a buffer of [fuel] bytes *)
Fixpoint uitoa_loop (fuel : nat) (v : Z) (acc : string) : string :=
  match fuel with
  | O => acc
  | S f => if (v <=? 0)%Z then acc else uitoa_loop f (v / 10) (String (digit_char (v mod 10)) acc)
  end.

Definition uitoa (v : Z) : string := if (v =? 0)%Z then "0" else uitoa_loop 10 v "".

(** [None] is a read error *)
Definition readAndParse (pid : Z) (read : string → option string) : Info :=
  match read ("/proc/" +:+ (uitoa pid +:+ "/cgroup")) with
  | None => {| in_Class := CGKernel; in_Unit := ""; in_ContainerID := ""; in_UserID := ""; in_RawPath := "" |}
  | Some data => parseCgroupFile data
  end.

(** ** The cache *)

(** the first entry used before all others *)
Fixpoint oldest_idx (all : list (Z * Time.time)) (i best : nat) (used : Time.time) : nat :=
  match all with
  | [] => best
  | (_, t) :: all' => if Time.Before t used then oldest_idx all' (S i) i t else oldest_idx all' (S i) best used
  end.

Fixpoint evict_loop (fuel : nat) (target : Z) (all : list (Z * Time.time)) (cache : gmap Z cacheEntry) : gmap Z cacheEntry :=
  match fuel with
  | O => cache
  | S f =>
      if (target <? Z.of_nat (size cache))%Z then
        match all with
        | [] => cache
        | (_, t) :: rest =>
            let k := oldest_idx rest 1 0 t in
            match all !! k with
            | Some (pid, _) => evict_loop f target (delete k all) (delete pid cache)
            | None => cache
            end
        end
      else cache
  end.

Definition evict_target (cap : Z) : Z := Z.max 1 (cap - Z.max 1 (cap / 10)).

(** [ord] is the order of the range over the map *)
Definition evictLocked (ord : gmap Z cacheEntry → list (Z * cacheEntry)) (c : Classifier) : Classifier :=
  let target := evict_target (cg_cap c) in
  if (Z.of_nat (size (cg_cache c)) <=? target)%Z then c
  else
    let all := (λ p, (p.1, ce_used p.2)) <$> ord (cg_cache c) in
    {| cg_cache := evict_loop (length all) target all (cg_cache c); cg_cap := cg_cap c |}.

Definition with_cache (m : gmap Z cacheEntry) (c : Classifier) : Classifier := {| cg_cache := m; cg_cap := cg_cap c |}.

Definition Classify (ord : gmap Z cacheEntry → list (Z * cacheEntry)) (read : string → option string) (now : Time.time) (pid : Z)
    (c : Classifier) : Info * Classifier :=
  match cg_cache c !! pid with
  | Some e => (ce_info e, with_cache (<[pid := {| ce_info := ce_info e; ce_used := now |}]> (cg_cache c)) c)
  | None =>
      let info := readAndParse pid read in
      let c := if (cg_cap c <=? Z.of_nat (size (cg_cache c)))%Z then evictLocked ord c else c in
      (info, with_cache (<[pid := {| ce_info := info; ce_used := now |}]> (cg_cache c)) c)
  end.

Definition Forget (pid : Z) (c : Classifier) : Classifier := with_cache (delete pid (cg_cache c)) c.

Definition cg_Len (c : Classifier) : Z := Z.of_nat (size (cg_cache c)).

(** ** The stage of the pipeline *)

Definition cgroup_stage (ord : gmap Z cacheEntry → list (Z * cacheEntry)) (read : string → option string) (now : Time.time)
    (ev : Event) (c : Classifier) : Event * Classifier :=
  let c := if bool_decide (ev_Sensor ev = "ebpf.exit") then Forget (ev_PID ev) c else c in
  if (ev_PID ev =? 0)%Z then (ev, c)
  else
    let '(info, c) := Classify ord read now (ev_PID ev) c in
    if bool_decide (in_Class info = CGUnknown) then (ev, c)
    else
      let ev := set_tag "cgroup_class" (CGroup_String (in_Class info)) ev in
      let ev := if Str.empty (in_Unit info) then ev else set_tag "cgroup_unit" (in_Unit info) ev in
      let ev := if Str.empty (in_UserID info) then ev else set_tag "cgroup_user_id" (in_UserID info) ev in
      let ev := if negb (Str.empty (in_ContainerID info)) && Str.empty (tag ev "container_id")
                then set_tag "container_id" (in_ContainerID info) ev else ev in
      (ev, c).

(** ** Decimal numbers *)

Lemma digit_char_pretty (d : Z) : (0 ≤ d < 10)%Z → digit_char d = pretty_N_char (Z.to_N d).
Proof.
  intros Hd. assert (d = 0 ∨ d = 1 ∨ d = 2 ∨ d = 3 ∨ d = 4 ∨ d = 5 ∨ d = 6 ∨ d = 7 ∨ d = 8 ∨ d = 9)%Z as Hin by lia.
  by destruct_or!; subst.
Qed.

Lemma uitoa_loop_pretty (fuel : nat) (v : Z) (acc : string) :
  (0 ≤ v < 10 ^ Z.of_nat fuel)%Z → uitoa_loop fuel v acc = pretty_N_go (Z.to_N v) acc.
Proof.
  revert v acc. induction fuel as [|f IH]; intros v acc Hv.
  - assert (v = 0)%Z as -> by (change (10 ^ Z.of_nat 0)%Z with 1%Z in Hv; lia). by rewrite pretty_N_go_0.
  - cbn [uitoa_loop]. destruct (Z.leb_spec v 0) as [Hz|Hpos]; [by replace v with 0%Z by lia; rewrite pretty_N_go_0|].
    rewrite pretty_N_go_step by lia. rewrite digit_char_pretty by (apply Z.mod_pos_bound; lia).
    assert (0 ≤ v / 10 < 10 ^ Z.of_nat f)%Z as Hq.
    { rewrite Nat2Z.inj_succ, Z.pow_succ_r in Hv by lia. split; [apply Z.div_pos; lia|apply Z.div_lt_upper_bound; lia]. }
    rewrite IH by done. f_equal; [rewrite Z2N.inj_div by lia; done|f_equal; f_equal; rewrite Z2N.inj_mod by lia; done].
Qed.

(** ten bytes are enough for any pid *)
Lemma uitoa_itoa (v : Z) : (0 ≤ v < 2 ^ 32)%Z → uitoa v = Str.itoa v.
Proof.
  intros Hv. unfold uitoa, Str.itoa. destruct (Z.eqb_spec v 0) as [->|Hz]; [done|].
  rewrite uitoa_loop_pretty by (change (10 ^ Z.of_nat 10)%Z with 10000000000%Z; lia).
  destruct v as [|q|q]; [done| |lia]. cbn [Z.to_N]. unfold pretty, pretty_Z, pretty, pretty_positive, pretty, pretty_N.
  by rewrite decide_False by done.
Qed.

(** ** Paths *)

Lemma Split_no (c : ascii) (s : string) : Str.CountByte s c = 0 → Str.Split c s = [s].
Proof.
  induction s as [|d s IH]; [done|]. cbn [Str.CountByte Str.Split]. case_bool_decide; intros Hc; [lia|].
  rewrite bool_decide_false by congruence. by rewrite IH.
Qed.

(** what follows a separator is split on its own *)
Lemma Split_app (c : ascii) (p x : string) : ∃ w ws, Str.Split c (p +:+ String c x) = w :: ws ++ Str.Split c x.
Proof.
  induction p as [|d p (w & ws & IH)].
  - exists "", []. change ("" +:+ String c x) with (String c x). cbn [Str.Split]. by rewrite bool_decide_true.
  - change (String d p +:+ String c x) with (String d (p +:+ String c x)). cbn [Str.Split]. rewrite IH.
    case_bool_decide; [by exists "", (w :: ws)|by exists (String d w), ws].
Qed.

Lemma leaf_app (p x : string) : Str.CountByte x "/" = 0 → leaf (p +:+ String "/" x) = x.
Proof.
  intros Hx. unfold leaf. destruct (Split_app "/" p x) as (w & ws & ->). rewrite (Split_no "/" x) by done.
  by rewrite app_comm_cons, last_snoc.
Qed.

Lemma HasPrefix_app (a b : string) : Str.HasPrefix (a +:+ b) a = true.
Proof. induction a as [|c a IH]; [done|]. change (String c a +:+ b) with (String c (a +:+ b)). cbn [Str.HasPrefix]. by rewrite bool_decide_true. Qed.

(** whoever names the last part of a cgroup decides that it is a container *)
Lemma runtime_name_is_container (p pfx x : string) :
  pfx ∈ runtime_prefixes → Str.CountByte x "/" = 0 → in_Class (classifyPath (p +:+ String "/" (pfx +:+ x))) = CGContainer.
Proof.
  intros Hp Hx. assert (isContainerPath (p +:+ String "/" (pfx +:+ x)) = true) as Hc.
  { unfold isContainerPath. rewrite leaf_app.
    - apply orb_true_iff. right. apply existsb_exists. exists pfx. split; [by apply list_elem_of_In|apply HasPrefix_app].
    - unfold runtime_prefixes in Hp. rewrite !elem_of_cons in Hp. destruct_or!; subst; cbn; try done. by apply elem_of_nil in Hp. }
  unfold classifyPath. rewrite Hc.
  assert (Str.empty (p +:+ String "/" (pfx +:+ x)) = false) as -> by (unfold Str.empty; apply bool_decide_false; by destruct p).
  rewrite bool_decide_false; [done|]. intros He. rewrite He in Hc. vm_compute in Hc. discriminate.
Qed.

(** a process in the root of the unified hierarchy is the kernel's, whatever
    the other hierarchies say of it *)
Lemma unified_root_is_kernel (lines rest : list string) (lst : string) :
  Forall (λ l, Str.HasPrefix l "0::" = false) lines → pick_path (lines ++ "0::/" :: rest) lst = "/".
Proof.
  intros Hl. revert lst. induction Hl as [|l lines Hl _ IH]; intros lst; [done|]. cbn [app pick_path].
  destruct (cgroup_path l); [|apply IH]. rewrite Hl. apply IH.
Qed.

(** ** The cache keeps its bound *)

Section bound.
Context (ord : gmap Z cacheEntry → list (Z * cacheEntry)) (Hord : ∀ m, ord m ≡ₚ map_to_list m).

Lemma oldest_in_range (all : list (Z * Time.time)) (i best : nat) (used : Time.time) :
  best < i → oldest_idx all i best used < i + length all.
Proof.
  revert i best used. induction all as [|[p t] all IH]; intros i best used Hb; cbn; [lia|].
  pose proof (IH (S i) i t). pose proof (IH (S i) best used). destruct (Time.Before t used); lia.
Qed.

(** the list the loop walks and the map it deletes from hold the same pids *)
Record tracks (all : list (Z * Time.time)) (m : gmap Z cacheEntry) : Prop := {
  tr_nodup : NoDup all.*1; tr_dom : dom m = list_to_set all.*1 }.

Lemma tracks_size (all : list (Z * Time.time)) (m : gmap Z cacheEntry) : tracks all m → size m = length all.
Proof. intros [Hn Hd]. rewrite <-size_dom, Hd, size_list_to_set by done. apply length_fmap. Qed.

Lemma tracks_delete (all : list (Z * Time.time)) (m : gmap Z cacheEntry) (k : nat) (pid : Z) (t : Time.time) :
  all !! k = Some (pid, t) → tracks all m → tracks (delete k all) (delete pid m).
Proof.
  intros Hk [Hn Hd]. pose proof (delete_Permutation all k _ Hk) as Hp.
  assert (all.*1 ≡ₚ pid :: (delete k all).*1) as Hp1 by (by rewrite Hp at 1).
  rewrite Hp1 in Hn. apply NoDup_cons in Hn as [Hnin Hn]. split; [done|].
  rewrite dom_delete_L, Hd. apply set_eq. intros x. rewrite elem_of_difference, elem_of_singleton, !elem_of_list_to_set.
  rewrite Hp1 at 1. rewrite elem_of_cons. set_solver.
Qed.

(** the loop never indexes past its list and stops at the target *)
Lemma evict_loop_target (fuel : nat) (target : Z) (all : list (Z * Time.time)) (m : gmap Z cacheEntry) :
  (0 ≤ target)%Z → length all ≤ fuel → tracks all m → (Z.of_nat (size (evict_loop fuel target all m)) ≤ target)%Z.
Proof.
  intros Ht. revert all m. induction fuel as [|f IH]; intros all m Hl Htr; pose proof (tracks_size _ _ Htr) as Hs; cbn [evict_loop].
  - rewrite Hs. lia.
  - destruct (Z.ltb_spec target (Z.of_nat (size m))) as [Hlt|Hge]; [|lia].
    destruct all as [|[p t] all]; [cbn in Hs; lia|].
    pose proof (oldest_in_range all 1 0 t ltac:(lia)) as Hk.
    destruct (lookup_lt_is_Some_2 ((p, t) :: all) (oldest_idx all 1 0 t) ltac:(cbn; lia)) as [[pid u] Hpid].
    rewrite Hpid. apply IH; [|by eapply tracks_delete].
    pose proof (length_delete ((p, t) :: all) _ ltac:(by eexists)). cbn [length] in *. lia.
Qed.

Lemma ord_tracks (m : gmap Z cacheEntry) : tracks ((λ p, (p.1, ce_used p.2)) <$> ord m) m.
Proof.
  assert (((λ p : Z * cacheEntry, (p.1, ce_used p.2)) <$> ord m).*1 ≡ₚ (map_to_list m).*1) as Hp.
  { rewrite <-list_fmap_compose. change (compose fst _) with (@fst Z cacheEntry). by rewrite Hord. }
  split; [rewrite Hp; apply NoDup_fst_map_to_list|]. apply set_eq. intros x.
  rewrite elem_of_list_to_set, Hp, elem_of_dom. rewrite list_elem_of_fmap. split.
  - intros [e He]. exists (x, e). split; [done|]. by apply elem_of_map_to_list.
  - intros ([y e] & -> & He). exists e. by apply elem_of_map_to_list.
Qed.

Lemma evictLocked_target (c : Classifier) : (cg_Len (evictLocked ord c) ≤ evict_target (cg_cap c))%Z.
Proof.
  unfold evictLocked, cg_Len. destruct (Z.leb_spec (Z.of_nat (size (cg_cache c))) (evict_target (cg_cap c))) as [|Hgt]; [done|].
  cbn [cg_cache]. apply evict_loop_target; [unfold evict_target; lia|done|apply ord_tracks].
Qed.

Lemma evictLocked_cap (c : Classifier) : cg_cap (evictLocked ord c) = cg_cap c.
Proof. unfold evictLocked. by case_match. Qed.

Lemma size_insert_le {A} (k : Z) (x : A) (m : gmap Z A) : size (<[k := x]> m) ≤ S (size m).
Proof. rewrite map_size_insert. destruct (m !! k); cbn; lia. Qed.

(** no step grows the cache past its cap *)
Definition within (c : Classifier) : Prop := (2 ≤ cg_cap c)%Z ∧ (cg_Len c ≤ cg_cap c)%Z.

Lemma Classify_within (read : string → option string) (now : Time.time) (pid : Z) (c : Classifier) :
  within c → within (Classify ord read now pid c).2.
Proof.
  intros [H2 Hl]. unfold Classify. destruct (cg_cache c !! pid) as [e|] eqn:He; [split; [done|]|].
  - unfold cg_Len in *. cbn. by rewrite map_size_insert, He.
  - pose proof (evictLocked_cap c) as Hcap. pose proof (evictLocked_target c) as Ht. unfold within, cg_Len, evict_target in *.
    set (e := {| ce_info := readAndParse pid read; ce_used := now |}).
    pose proof (size_insert_le pid e (cg_cache (evictLocked ord c))). pose proof (size_insert_le pid e (cg_cache c)).
    destruct (Z.leb_spec (cg_cap c) (Z.of_nat (size (cg_cache c)))) as [Hfull|Hroom]; split; cbn [snd cg_cap cg_cache with_cache]; lia.
Qed.

Lemma Forget_within (pid : Z) (c : Classifier) : within c → within (Forget pid c).
Proof.
  intros [H2 Hl]. split; [done|]. unfold cg_Len, Forget, with_cache in *. cbn. rewrite map_size_delete. destruct (cg_cache c !! pid); cbn; lia.
Qed.

Lemma stage_within (read : string → option string) (now : Time.time) (ev : Event) (c : Classifier) :
  within c → within (cgroup_stage ord read now ev c).2.
Proof.
  intros Hw. unfold cgroup_stage.
  set (c0 := if bool_decide (ev_Sensor ev = "ebpf.exit") then Forget (ev_PID ev) c else c).
  assert (within c0) as H0 by (subst c0; case_bool_decide; [by apply Forget_within|done]). clearbody c0.
  destruct (ev_PID ev =? 0)%Z; [done|]. pose proof (Classify_within read now (ev_PID ev) c0 H0) as Hc.
  destruct (Classify ord read now (ev_PID ev) c0) as [info c1]. by case_bool_decide.
Qed.

(** any events, with what the file system and the clock say at each *)
Definition stage_all (es : list ((string → option string) * Time.time * Event)) (c : Classifier) : Classifier :=
  foldl (λ c x, (cgroup_stage ord x.1.1 x.1.2 x.2 c).2) c es.

Lemma stage_cap (read : string → option string) (now : Time.time) (ev : Event) (c : Classifier) :
  cg_cap (cgroup_stage ord read now ev c).2 = cg_cap c.
Proof.
  clear Hord. unfold cgroup_stage, Classify, evictLocked, Forget, with_cache. by repeat (case_match; simplify_eq/=).
Qed.

Lemma stage_all_within (es : list ((string → option string) * Time.time * Event)) (c : Classifier) :
  within c → within (stage_all es c) ∧ cg_cap (stage_all es c) = cg_cap c.
Proof.
  revert c. induction es as [|[[read now] ev] es IH]; intros c Hc; [done|].
  destruct (IH _ (stage_within read now ev c Hc)) as [Hi He]. split; [exact Hi|].
  rewrite <-(stage_cap read now ev c). exact He.
Qed.

(** However many processes are seen and whatever the order in which the map
    is ranged over, the cache never holds more entries than its cap, when that is
    at least two. *)
Theorem class_cache_bounded (cap : Z) (es : list ((string → option string) * Time.time * Event)) :
  cap ≠ 1%Z → (cg_Len (stage_all es (New cap)) ≤ cg_cap (New cap))%Z.
Proof.
  intros Hcap. assert (within (New cap)) as Hw.
  { unfold within, New, cg_Len. cbn. rewrite map_size_empty. destruct (Z.leb_spec cap 0); lia. }
  destruct (stage_all_within es _ Hw) as [[_ Hle] Heq]. by rewrite Heq in Hle.
Qed.

End bound.

(** ** Kernel records *)

Section kernel.
Context (ord : gmap Z cacheEntry → list (Z * cacheEntry)) (fs : procfs).

(** one record, with its id, the cgroup files as they are and the clock *)
Definition cgroup_feed (c : Classifier) (r : (string → option string) * Time.time * Z * bytes) : Classifier :=
  let '(read, now, id, raw) := r in
  match Decode fs id now raw with None => c | Some ev => (cgroup_stage ord read now ev c).2 end.

Definition cgroup_feed_all (rs : list ((string → option string) * Time.time * Z * bytes)) (c : Classifier) : Classifier :=
  foldl cgroup_feed c rs.

Lemma kernel_no_exit (ev : Event) : kernel_event ev → bool_decide (ev_Sensor ev = "ebpf.exit") = false.
Proof. intros Hk. apply bool_decide_false. apply kernel_not; [done|]. by apply (bool_decide_unpack _). Qed.

(** the stage leaves in the cache what the classifier does *)
Lemma stage_state (read : string → option string) (now : Time.time) (ev : Event) (c : Classifier) :
  bool_decide (ev_Sensor ev = "ebpf.exit") = false → ev_PID ev ≠ 0%Z →
  (cgroup_stage ord read now ev c).2 = (Classify ord read now (ev_PID ev) c).2.
Proof.
  intros Hs Hp. unfold cgroup_stage. rewrite Hs, (proj2 (Z.eqb_neq _ _)) by done.
  destruct (Classify ord read now (ev_PID ev) c) as [i c']. by destruct (bool_decide (in_Class i = CGUnknown)).
Qed.

(** an entry is never replaced while the cache has room *)
Lemma classify_keeps (read : string → option string) (now : Time.time) (p : Z) (c : Classifier) (pid : Z) (i : Info) :
  ce_info <$> cg_cache c !! pid = Some i → (cg_Len c < cg_cap c)%Z →
  ce_info <$> cg_cache (Classify ord read now p c).2 !! pid = Some i ∧ (cg_Len (Classify ord read now p c).2 ≤ cg_Len c + 1)%Z.
Proof.
  intros Hi Hroom. unfold Classify, cg_Len in *. rewrite (proj2 (Z.leb_gt _ _)) by lia.
  assert (∀ j, (∀ e, cg_cache c !! p = Some e → ce_info j = ce_info e) →
    ce_info <$> <[p := j]> (cg_cache c) !! pid = Some i ∧ (Z.of_nat (size (<[p := j]> (cg_cache c))) ≤ Z.of_nat (size (cg_cache c)) + 1)%Z) as Hins.
  { intros j Hj. split; [|pose proof (size_insert_le p j (cg_cache c)); lia].
    destruct (decide (pid = p)) as [->|Hne]; [|by rewrite lookup_insert_ne].
    destruct (cg_cache c !! p) as [e|]; [|discriminate Hi]. rewrite lookup_insert_eq. cbn in Hi |- *. by rewrite (Hj e). }
  destruct (cg_cache c !! p) as [e|]; cbn [snd cg_cache with_cache]; apply Hins; naive_solver.
Qed.

Lemma feed_keeps (c : Classifier) (r : (string → option string) * Time.time * Z * bytes) (pid : Z) (i : Info) (n : nat) :
  ce_info <$> cg_cache c !! pid = Some i → (cg_Len c + Z.of_nat (S n) ≤ cg_cap c)%Z →
  ce_info <$> cg_cache (cgroup_feed c r) !! pid = Some i ∧ (cg_Len (cgroup_feed c r) + Z.of_nat n ≤ cg_cap (cgroup_feed c r))%Z.
Proof.
  destruct r as [[[read now] id] raw]. intros Hi Hroom. unfold cgroup_feed.
  destruct (Decode fs id now raw) as [ev|] eqn:Hd; [|split; [done|lia]]. apply Decode_kernel, kernel_no_exit in Hd.
  rewrite stage_cap. destruct (decide (ev_PID ev = 0%Z)) as [Hz|Hz].
  - unfold cgroup_stage. rewrite Hd, Hz. cbn [Z.eqb snd]. split; [done|lia].
  - rewrite stage_state by done. destruct (classify_keeps read now (ev_PID ev) c pid i Hi ltac:(lia)) as [Hk Hl]. split; [exact Hk|lia].
Qed.

Lemma feed_all_keeps (rs : list ((string → option string) * Time.time * Z * bytes)) (c : Classifier) (pid : Z) (i : Info) :
  ce_info <$> cg_cache c !! pid = Some i → (cg_Len c + Z.of_nat (length rs) ≤ cg_cap c)%Z →
  ce_info <$> cg_cache (cgroup_feed_all rs c) !! pid = Some i.
Proof.
  revert c. induction rs as [|r rs IH]; intros c Hi Hroom; [done|]. cbn.
  destruct (feed_keeps c r pid i (length rs) Hi Hroom). by apply IH.
Qed.

(** the tag the stage writes is the class of the entry *)
Lemma stage_class (read : string → option string) (now : Time.time) (ev : Event) (c : Classifier) (i : Info) :
  ev_PID ev ≠ 0%Z → bool_decide (ev_Sensor ev = "ebpf.exit") = false → ce_info <$> cg_cache c !! ev_PID ev = Some i →
  in_Class i ≠ CGUnknown → tag (cgroup_stage ord read now ev c).1 "cgroup_class" = CGroup_String (in_Class i).
Proof.
  intros Hp Hs Hi Hu. unfold cgroup_stage, Classify. rewrite Hs, (proj2 (Z.eqb_neq _ _)) by done.
  destruct (cg_cache c !! ev_PID ev) as [e|]; [|done]. injection Hi as ->. rewrite bool_decide_false by done. cbn [fst].
  repeat case_match; rewrite ?tag_set_ne by done; by rewrite tag_set_eq.
Qed.

(** Processes fed by the kernel keep the class of the first process that had
    their number: no record of the kernel's makes the cache forget a process, so
    as long as the cache has room, whatever the cgroup files say later, an event
    of a pid already seen is stamped with the class read then. *)
Theorem class_outlives_process (rs : list ((string → option string) * Time.time * Z * bytes)) (c : Classifier)
    (read : string → option string) (now : Time.time) (id : Z) (raw : bytes) (ev : Event) (i : Info) :
  ce_info <$> cg_cache c !! ev_PID ev = Some i → in_Class i ≠ CGUnknown →
  (cg_Len c + Z.of_nat (length rs) ≤ cg_cap c)%Z → ev_PID ev ≠ 0%Z → Decode fs id now raw = Some ev →
  tag (cgroup_stage ord read now ev (cgroup_feed_all rs c)).1 "cgroup_class" = CGroup_String (in_Class i).
Proof.
  intros Hi Hu Hroom Hp Hd. apply stage_class; [done|by eapply kernel_no_exit, Decode_kernel|by apply feed_all_keeps|done].
Qed.

End kernel.

(** ** A shell whose pid becomes a container's *)

Module Demo.
Definition shell (p : string) : option string := Some ("0::/user.slice/user-1000.slice/session-2.scope" +:+ String "010" "").
Definition inside (p : string) : option string :=
  if bool_decide (p = "/proc/4242/cgroup") then Some ("0::/system.slice/docker-4f0c.scope" +:+ String "010" "") else None.
Definition order (m : gmap Z cacheEntry) : list (Z * cacheEntry) := map_to_list m.
Definition exit : bytes := hdr_bytes (Process.Demo.hdr KindProcExit).
Definition first : bytes := hdr_bytes Decoder.Demo.hdr ++ Decoder.Demo.payload.
Definition decoded : Event := match Decode Decoder.Demo.fs 9 30 first with Some ev => ev | None => base_event 0 0 Decoder.Demo.hdr end.
Definition start : Classifier := cgroup_feed order Decoder.Demo.fs (New 0) (shell, 5%Z, 1%Z, first).
Definition later : list ((string → option string) * Time.time * Z * bytes) := [(inside, 10%Z, 2%Z, exit)].
Definition numbered (p : Z) : Event := base_event 0 0
  {| h_TsNs := 0; h_Kind := 1; h_PID := p; h_TID := p; h_PPID := 1; h_UID := 0; h_GID := 0; h_CGroupID := 0; h_Comm := [] |}.
End Demo.

Lemma class_cache_bounded_witness :
  let c := stage_all Demo.order (map (λ p, (Demo.shell, p, Demo.numbered p)) [1; 2; 3; 4; 5; 3; 7]%Z) (New 3) in
  (cg_Len c ≤ 3)%Z ∧ map fst (map_to_list (cg_cache c)) ≡ₚ [4; 5; 7]%Z.
Proof.
  intros c. split.
  - refine (class_cache_bounded Demo.order (λ m, Permutation_refl (map_to_list m)) 3 _ _). discriminate.
  - apply (bool_decide_unpack _). vm_compute. exact I.
Defined.

(** the files now say container, the event says user *)
Lemma class_outlives_process_witness :
  in_Class (readAndParse 4242 Demo.inside) = CGContainer ∧
  tag (cgroup_stage Demo.order Demo.inside 30 Demo.decoded (cgroup_feed_all Demo.order Decoder.Demo.fs Demo.later Demo.start)).1
    "cgroup_class" = "user".
Proof.
  split; [vm_compute; reflexivity|].
  refine (class_outlives_process Demo.order Decoder.Demo.fs Demo.later Demo.start Demo.inside 30 9 Demo.first Demo.decoded
            {| in_Class := CGUser; in_Unit := "session-2.scope"; in_ContainerID := ""; in_UserID := "1000";
               in_RawPath := "/user.slice/user-1000.slice/session-2.scope" |} _ _ _ _ _).
  - vm_compute. reflexivity.
  - discriminate.
  - vm_compute. discriminate.
  - vm_compute. discriminate.
  - vm_compute. reflexivity.
Defined.
