(* ===== verification/ConnState.v ===== *)
(** * The connection table (src/pkg/connstate/connstate.go, src/pkg/pipeline/helpers.go)

    Rows are objects that the table and its index by process both point to, so
    the model has a heap of rows: what is written through one map is read
    through the other.

    The order of a range over the table and the clock are arguments. *)

From S2P Require Import Prelude GoStd Bytes NetIP Prefix Model Decoder Process LedgerFeed CGroupClass.

(** ** Data *)

Inductive State : Type :=
  | StateUnknown | StateNew | StateSynSent | StateEstablished | StateFinWait | StateClosed | StateReset | StateTimeout.

#[export] Instance State_eq_dec : EqDecision State.
Proof. solve_decision. Defined.

Definition State_String (s : State) : string :=
  match s with
  | StateNew => "new" | StateSynSent => "syn_sent" | StateEstablished => "established" | StateFinWait => "fin_wait"
  | StateClosed => "closed" | StateReset => "reset" | StateTimeout => "timeout" | StateUnknown => "unknown"
  end.

Definition ProtoTCP : Z := 6.
Definition ProtoUDP : Z := 17.

Definition Proto_String (p : Z) : string :=
  if (p =? ProtoTCP)%Z then "tcp" else if (p =? ProtoUDP)%Z then "udp" else "unknown".

Inductive Direction : Type := DirUnknown | DirOutbound | DirInbound.

Definition Direction_String (d : Direction) : string :=
  match d with DirOutbound => "outbound" | DirInbound => "inbound" | DirUnknown => "unknown" end.

#[export] Instance Addr_countable : Countable Addr.
Proof.
  refine (inj_countable' (λ a, match a with Addr4 b => inl b | Addr6 b z => inr (b, z) end)
                         (λ x, match x with inl b => Addr4 b | inr (b, z) => Addr6 b z end) _). by intros [].
Defined.

(** [None] is the zero [netip.Addr] *)
Record Tuple := { tu_Proto : Z; tu_SrcAddr : option Addr; tu_SrcPort : Z; tu_DstAddr : option Addr; tu_DstPort : Z }.

#[export] Instance Tuple_eq_dec : EqDecision Tuple.
Proof. solve_decision. Defined.

#[export] Instance Tuple_countable : Countable Tuple.
Proof.
  refine (inj_countable' (λ t, (tu_Proto t, tu_SrcAddr t, tu_SrcPort t, tu_DstAddr t, tu_DstPort t))
                         (λ x, match x with (a, b, c, d, e) => {| tu_Proto := a; tu_SrcAddr := b; tu_SrcPort := c; tu_DstAddr := d; tu_DstPort := e |} end) _).
  by intros [].
Defined.

Record Conn := {
  cn_Tuple : Tuple; cn_Direction : Direction; cn_State : State;
  cn_PID : Z; cn_PPID : Z; cn_Comm : string; cn_Exe : string; cn_ExeSHA : string; cn_Class : CGroup; cn_Unit : string; cn_UserID : string;
  cn_DNSName : string; cn_SNI : string; cn_ALPN : string; cn_BytesOut : Z; cn_BytesIn : Z;
  cn_OpenedAt : Time.time; cn_LastSeen : Time.time; cn_ClosedAt : Time.time }.

(** a new row *)
Definition new_conn (tup : Tuple) (d : Direction) (s : State) (now : Time.time) : Conn := {|
  cn_Tuple := tup; cn_Direction := d; cn_State := s; cn_PID := 0; cn_PPID := 0; cn_Comm := ""; cn_Exe := ""; cn_ExeSHA := "";
  cn_Class := CGUnknown; cn_Unit := ""; cn_UserID := ""; cn_DNSName := ""; cn_SNI := ""; cn_ALPN := ""; cn_BytesOut := 0; cn_BytesIn := 0;
  cn_OpenedAt := now; cn_LastSeen := Time.zero; cn_ClosedAt := Time.zero |}.

(** the fields that change after a row is made, its owner apart *)
Definition with_life (s : State) (dns sni alpn : string) (out in_ : Z) (seen closed : Time.time) (c : Conn) : Conn := {|
  cn_Tuple := cn_Tuple c; cn_Direction := cn_Direction c; cn_State := s; cn_PID := cn_PID c; cn_PPID := cn_PPID c; cn_Comm := cn_Comm c;
  cn_Exe := cn_Exe c; cn_ExeSHA := cn_ExeSHA c; cn_Class := cn_Class c; cn_Unit := cn_Unit c; cn_UserID := cn_UserID c; cn_DNSName := dns;
  cn_SNI := sni; cn_ALPN := alpn; cn_BytesOut := out; cn_BytesIn := in_; cn_OpenedAt := cn_OpenedAt c; cn_LastSeen := seen;
  cn_ClosedAt := closed |}.

Definition with_state (s : State) (seen closed : Time.time) (c : Conn) : Conn :=
  with_life s (cn_DNSName c) (cn_SNI c) (cn_ALPN c) (cn_BytesOut c) (cn_BytesIn c) seen closed c.
Definition with_names (dns sni alpn : string) (c : Conn) : Conn :=
  with_life (cn_State c) dns sni alpn (cn_BytesOut c) (cn_BytesIn c) (cn_LastSeen c) (cn_ClosedAt c) c.
Definition with_counts (out in_ : Z) (c : Conn) : Conn :=
  with_life (cn_State c) (cn_DNSName c) (cn_SNI c) (cn_ALPN c) out in_ (cn_LastSeen c) (cn_ClosedAt c) c.

(** [c_1 == "" ? v : c_1] *)
Definition or_text (s v : string) : string := if Str.empty s then v else s.
Definition or_num (n v : Z) : Z := if (n =? 0)%Z then v else n.

Definition mergeAttribution (pid ppid : Z) (comm exe exeSHA : string) (class : CGroup) (unit userID : string) (c : Conn) : Conn := {|
  cn_Tuple := cn_Tuple c; cn_Direction := cn_Direction c; cn_State := cn_State c; cn_PID := or_num (cn_PID c) pid;
  cn_PPID := or_num (cn_PPID c) ppid; cn_Comm := or_text (cn_Comm c) comm; cn_Exe := or_text (cn_Exe c) exe;
  cn_ExeSHA := or_text (cn_ExeSHA c) exeSHA; cn_Class := if bool_decide (cn_Class c = CGUnknown) then class else cn_Class c;
  cn_Unit := or_text (cn_Unit c) unit; cn_UserID := or_text (cn_UserID c) userID; cn_DNSName := cn_DNSName c; cn_SNI := cn_SNI c;
  cn_ALPN := cn_ALPN c; cn_BytesOut := cn_BytesOut c; cn_BytesIn := cn_BytesIn c; cn_OpenedAt := cn_OpenedAt c;
  cn_LastSeen := cn_LastSeen c; cn_ClosedAt := cn_ClosedAt c |}.

(** rows are numbered in the order they are made *)
Record Table := {
  t_heap : gmap nat Conn; t_next : nat; t_conns : gmap Tuple nat; t_byPID : gmap Z (gmap Tuple nat);
  t_dnsHints : gmap (Z * string) (string * Time.time); t_cap : Z; t_closed : Z; t_dropped : Z }.

Definition New (cap : Z) : Table := {|
  t_heap := ∅; t_next := 0; t_conns := ∅; t_byPID := ∅; t_dnsHints := ∅; t_cap := if (cap <=? 0)%Z then 100000 else cap;
  t_closed := 0; t_dropped := 0 |}.

Definition with_heap (h : gmap nat Conn) (t : Table) : Table := {|
  t_heap := h; t_next := t_next t; t_conns := t_conns t; t_byPID := t_byPID t; t_dnsHints := t_dnsHints t; t_cap := t_cap t;
  t_closed := t_closed t; t_dropped := t_dropped t |}.
Definition with_maps (conns : gmap Tuple nat) (byPID : gmap Z (gmap Tuple nat)) (t : Table) : Table := {|
  t_heap := t_heap t; t_next := t_next t; t_conns := conns; t_byPID := byPID; t_dnsHints := t_dnsHints t; t_cap := t_cap t;
  t_closed := t_closed t; t_dropped := t_dropped t |}.
Definition with_hints (m : gmap (Z * string) (string * Time.time)) (t : Table) : Table := {|
  t_heap := t_heap t; t_next := t_next t; t_conns := t_conns t; t_byPID := t_byPID t; t_dnsHints := m; t_cap := t_cap t;
  t_closed := t_closed t; t_dropped := t_dropped t |}.
Definition with_ended (closed dropped : Z) (t : Table) : Table := {|
  t_heap := t_heap t; t_next := t_next t; t_conns := t_conns t; t_byPID := t_byPID t; t_dnsHints := t_dnsHints t; t_cap := t_cap t;
  t_closed := closed; t_dropped := dropped |}.

(** a write through a pointer *)
Definition mutate (p : nat) (f : Conn → Conn) (t : Table) : Table := with_heap (alter f p (t_heap t)) t.

(** [c := &Conn{...}; t.conns[e.Tuple] = c] *)
Definition allocate (c : Conn) (t : Table) : nat * Table :=
  (t_next t, {| t_heap := <[t_next t := c]> (t_heap t); t_next := S (t_next t); t_conns := <[cn_Tuple c := t_next t]> (t_conns t);
                t_byPID := t_byPID t; t_dnsHints := t_dnsHints t; t_cap := t_cap t; t_closed := t_closed t; t_dropped := t_dropped t |}).

(** ** The index by process *)

Definition index_put (pid : Z) (tup : Tuple) (p : nat) (m : gmap Z (gmap Tuple nat)) : gmap Z (gmap Tuple nat) :=
  <[pid := <[tup := p]> (default ∅ (m !! pid))]> m.

Definition indexInsertLocked (p : nat) (t : Table) : Table :=
  match t_heap t !! p with
  | Some c => if (cn_PID c =? 0)%Z then t else with_maps (t_conns t) (index_put (cn_PID c) (cn_Tuple c) p (t_byPID t)) t
  | None => t
  end.

Definition indexRemoveLocked (pid : Z) (tup : Tuple) (t : Table) : Table :=
  match t_byPID t !! pid with
  | None => t
  | Some m =>
      let m := delete tup m in
      with_maps (t_conns t) (if bool_decide (m = ∅) then delete pid (t_byPID t) else <[pid := m]> (t_byPID t)) t
  end.

Definition removeLocked (tup : Tuple) (t : Table) : Table :=
  match t_conns t !! tup with
  | None => t
  | Some p => indexRemoveLocked (default 0%Z (cn_PID <$> t_heap t !! p)) tup (with_maps (delete tup (t_conns t)) (t_byPID t) t)
  end.

Definition terminal (s : State) : bool := match s with StateClosed | StateReset | StateTimeout => true | _ => false end.

(** ** Eviction *)

(** the row of the two seen last earlier *)
Definition older_row (best : option Conn) (c : Conn) : option Conn :=
  match best with Some b => if Time.Before (cn_LastSeen c) (cn_LastSeen b) then Some c else best | None => Some c end.

(** the rows in the order of the range *)
Definition ranged (ord : gmap Tuple nat → list Tuple) (t : Table) : list (Tuple * Conn) :=
  omap (λ tup, p ← t_conns t !! tup; c ← t_heap t !! p; Some (tup, c)) (ord (t_conns t)).

Definition oldest_rows (ord : gmap Tuple nat → list Tuple) (t : Table) : option Conn * option Conn :=
  foldl (λ '(closed, any) x, (if terminal (cn_State x.2) then older_row closed x.2 else closed, older_row any x.2)) (None, None) (ranged ord t).

Definition evictOneLocked (ord : gmap Tuple nat → list Tuple) (t : Table) : bool * Table :=
  match oldest_rows ord t with
  | (Some c, _) => (true, removeLocked (cn_Tuple c) t)
  | (None, Some c) => (true, removeLocked (cn_Tuple c) t)
  | (None, None) => (false, t)
  end.

(** ** Name hints *)

(** [ip.String()] of a [netip.Addr] *)
Definition Addr_String (a : Addr) : string :=
  match a with
  | Addr4 b => dotted (byte_at b 0) (byte_at b 1) (byte_at b 2) (byte_at b 3)
  | Addr6 b z =>
      (if Is4In6 a then "::ffff:" +:+ IP_String b else IP_String b) +:+ (if Str.empty z then "" else String "%" z)
  end.

Definition Addr_text (a : option Addr) : string := match a with Some a => Addr_String a | None => "invalid IP" end.

Definition Tuple_String (t : Tuple) : string :=
  Proto_String (tu_Proto t) +:+ (" " +:+ (Addr_text (tu_SrcAddr t) +:+ (":" +:+ (Str.itoa (tu_SrcPort t) +:+ (" -> " +:+
    (Addr_text (tu_DstAddr t) +:+ (":" +:+ Str.itoa (tu_DstPort t)))))))).

Definition dnsAttributionTTL : Time.duration := (60 * Time.Second)%Z.

Definition lookupDNSHintLocked (pid : Z) (ip : Addr) (now : Time.time) (t : Table) : string * Table :=
  let key := (pid, Addr_String ip) in
  match t_dnsHints t !! key with
  | None => ("", t)
  | Some (qname, at_) =>
      if (dnsAttributionTTL <? Time.Sub now at_)%Z then ("", with_hints (delete key (t_dnsHints t)) t) else (qname, t)
  end.

Definition pruneDNSHintsLocked (now : Time.time) (t : Table) : Table :=
  with_hints (filter (λ x, (Time.Sub now x.2.2 ≤ dnsAttributionTTL)%Z) (t_dnsHints t)) t.

Definition RecordDNS (pid : Z) (qname : string) (ips : list string) (now : Time.time) (t : Table) : Table :=
  if (pid =? 0)%Z || Str.empty qname || bool_decide (ips = []) then t
  else
    let t := with_hints (foldl (λ m ip, <[(pid, ip) := (qname, now)]> m) (t_dnsHints t) ips) t in
    if (4096 <? Z.of_nat (size (t_dnsHints t)))%Z then pruneDNSHintsLocked now t else t.

(** ** Events *)

Record ConnectEvent := {
  ce_Time : Time.time; ce_PID : Z; ce_PPID : Z; ce_Comm : string; ce_Exe : string; ce_ExeSHA : string; ce_Class : CGroup;
  ce_Unit : string; ce_UserID : string; ce_Tuple : Tuple }.

(** the row of the tuple: there already, or made, with room found for it *)
Definition find_row (ord : gmap Tuple nat → list Tuple) (fresh : Conn) (t : Table) : option nat * Table :=
  match t_conns t !! cn_Tuple fresh with
  | Some p => (Some p, t)
  | None =>
      let '(room, t) := if (t_cap t <=? Z.of_nat (size (t_conns t)))%Z then evictOneLocked ord t else (true, t) in
      if room then let '(p, t) := allocate fresh t in (Some p, indexInsertLocked p t)
      else (None, with_ended (t_closed t) (u64 (t_dropped t + 1)) t)
  end.

(** [c.LastSeen = now; mergeAttribution(c, ...)], and the index *)
Definition refresh (e : ConnectEvent) (now : Time.time) (p : nat) (t : Table) : Table :=
  let prevPID := default 0%Z (cn_PID <$> t_heap t !! p) in
  let t := mutate p (λ c, mergeAttribution (ce_PID e) (ce_PPID e) (ce_Comm e) (ce_Exe e) (ce_ExeSHA e) (ce_Class e) (ce_Unit e)
                            (ce_UserID e) (with_state (cn_State c) now (cn_ClosedAt c) c)) t in
  if (prevPID =? 0)%Z && negb (default 0%Z (cn_PID <$> t_heap t !! p) =? 0)%Z then indexInsertLocked p t else t.

(** a name for a row that has none *)
Definition hint_row (now : Time.time) (p : nat) (t : Table) : Table :=
  match t_heap t !! p with
  | Some c =>
      match tu_DstAddr (cn_Tuple c) with
      | Some dst =>
          if Str.empty (cn_DNSName c) && negb (cn_PID c =? 0)%Z then
            let '(q, t) := lookupDNSHintLocked (cn_PID c) dst now t in
            if Str.empty q then t else mutate p (with_names q (cn_SNI c) (cn_ALPN c)) t
          else t
      | None => t
      end
  | None => t
  end.

Definition known_state (c : Conn) : Conn :=
  if bool_decide (cn_State c = StateUnknown) then with_state StateNew (cn_LastSeen c) (cn_ClosedAt c) c else c.

Definition connect_time (e : ConnectEvent) (clock : Time.time) : Time.time := if Time.IsZero (ce_Time e) then clock else ce_Time e.

Definition OnConnect (ord : gmap Tuple nat → list Tuple) (clock : Time.time) (e : ConnectEvent) (t : Table) : Table :=
  let now := connect_time e clock in
  match find_row ord (new_conn (ce_Tuple e) DirOutbound StateNew now) t with
  | (None, t) => t
  | (Some p, t) => hint_row now p (mutate p known_state (refresh e now p t))
  end.

Definition OnAccept (ord : gmap Tuple nat → list Tuple) (clock : Time.time) (e : ConnectEvent) (t : Table) : Table :=
  let now := connect_time e clock in
  match find_row ord (new_conn (ce_Tuple e) DirInbound StateEstablished now) t with
  | (None, t) => t
  | (Some p, t) => refresh e now p t
  end.

(** a write to the row of a tuple, if there is one *)
Definition at_row (tup : Tuple) (f : Conn → Conn) (t : Table) : Table :=
  match t_conns t !! tup with Some p => mutate p f t | None => t end.

Definition OnEstablished (tup : Tuple) (when : Time.time) (t : Table) : Table :=
  at_row tup (λ c, with_state StateEstablished when (cn_ClosedAt c) c) t.

Definition end_row (s : State) (tup : Tuple) (when : Time.time) (t : Table) : Table :=
  match t_conns t !! tup with
  | Some p => let t := mutate p (with_state s when when) t in with_ended (u64 (t_closed t + 1)) (t_dropped t) t
  | None => t
  end.

Definition OnClose : Tuple → Time.time → Table → Table := end_row StateClosed.
Definition OnReset : Tuple → Time.time → Table → Table := end_row StateReset.

Definition AttachDNS (tup : Tuple) (qname : string) (t : Table) : Table :=
  at_row tup (λ c, if Str.empty (cn_DNSName c) then with_names qname (cn_SNI c) (cn_ALPN c) c else c) t.

(** the first row of the range with the same destination *)
Definition same_dst (tup k : Tuple) : bool :=
  bool_decide (tu_Proto k = tu_Proto tup) && bool_decide (tu_DstAddr k = tu_DstAddr tup) && bool_decide (tu_DstPort k = tu_DstPort tup).

Definition exact_or_dst (ord : gmap Tuple nat → list Tuple) (tup : Tuple) (f : Conn → Conn) (t : Table) : Table :=
  match t_conns t !! tup with
  | Some p => mutate p f t
  | None => match List.find (same_dst tup) (ord (t_conns t)) with Some k => at_row k f t | None => t end
  end.

(** [dir] 0 is outbound *)
Definition add_bytes (dir bytes : Z) (c : Conn) : Conn :=
  if (dir =? 0)%Z then with_counts (u64 (cn_BytesOut c + bytes)) (cn_BytesIn c) c
  else with_counts (cn_BytesOut c) (u64 (cn_BytesIn c + bytes)) c.

Definition UpdateBytes (ord : gmap Tuple nat → list Tuple) (tup : Tuple) (dir bytes : Z) (t : Table) : Table :=
  if (bytes =? 0)%Z then t else exact_or_dst ord tup (add_bytes dir bytes) t.

Definition AttachSNI (ord : gmap Tuple nat → list Tuple) (tup : Tuple) (sni : string) (t : Table) : Table :=
  if Str.empty sni then t
  else exact_or_dst ord tup (λ c, if Str.empty (cn_SNI c) then with_names (cn_DNSName c) sni (cn_ALPN c) c else c) t.

Definition AttachALPN (ord : gmap Tuple nat → list Tuple) (tup : Tuple) (alpn : string) (t : Table) : Table :=
  if Str.empty alpn then t
  else exact_or_dst ord tup (λ c, if Str.empty (cn_ALPN c) then with_names (cn_DNSName c) (cn_SNI c) alpn c else c) t.

(** one row of a sweep *)
Definition sweep_row (now : Time.time) (retainAfter idleTimeout : Time.duration) (st : Table * Z) (tup : Tuple) : Table * Z :=
  let '(t, removed) := st in
  match t_conns t !! tup with
  | None => (t, removed)
  | Some p =>
      match t_heap t !! p with
      | None => (t, removed)
      | Some c =>
          if terminal (cn_State c) then
            if (retainAfter <=? Time.Sub now (cn_LastSeen c))%Z then (removeLocked tup t, (removed + 1)%Z) else (t, removed)
          else if (0 <? idleTimeout)%Z && (idleTimeout <=? Time.Sub now (cn_LastSeen c))%Z then
            (with_ended (u64 (t_closed t + 1)) (t_dropped t) (mutate p (with_state StateTimeout (cn_LastSeen c) now) t), removed)
          else (t, removed)
      end
  end.

Definition Sweep (ord : gmap Tuple nat → list Tuple) (now : Time.time) (retainAfter idleTimeout : Time.duration) (t : Table) : Table * Z :=
  foldl (sweep_row now retainAfter idleTimeout) (t, 0%Z) (ord (t_conns t)).

(** ** Reading the table *)

(** [sort.Slice] by [OpenedAt], newest first; the order of the range decides
    between rows opened together *)
Definition newer (a b : Conn) : Prop := (cn_OpenedAt b ≤ cn_OpenedAt a)%Z.
#[export] Instance newer_dec : RelDecision newer.
Proof. intros a b. unfold newer. apply _. Defined.
#[export] Instance newer_total : Total newer.
Proof. intros a b. unfold newer. lia. Qed.
#[export] Instance newer_trans : Transitive newer.
Proof. intros a b c. unfold newer. lia. Qed.

Definition by_opened (l : list Conn) : list Conn := merge_sort newer l.

(** the rows a map points to *)
Definition pointed_rows (ord : gmap Tuple nat → list Tuple) (m : gmap Tuple nat) (t : Table) : list Conn :=
  omap (λ tup, p ← m !! tup; t_heap t !! p) (ord m).

Definition Snapshot (ord : gmap Tuple nat → list Tuple) (t : Table) : list Conn := by_opened (pointed_rows ord (t_conns t) t).

Definition SnapshotByPID (ord : gmap Tuple nat → list Tuple) (pid : Z) (t : Table) : list Conn :=
  by_opened (pointed_rows ord (default ∅ (t_byPID t !! pid)) t).

Definition SnapshotByClass (ord : gmap Tuple nat → list Tuple) (class : CGroup) (t : Table) : list Conn :=
  by_opened (filter (λ c, cn_Class c = class) (pointed_rows ord (t_conns t) t)).

Definition Lookup (tup : Tuple) (t : Table) : option Conn := p ← t_conns t !! tup; t_heap t !! p.

Record Stats := { st_Live : Z; st_ByState : State → Z; st_ByClass : CGroup → Z; st_Closed : Z; st_Dropped : Z }.

Definition tab_Stats (ord : gmap Tuple nat → list Tuple) (t : Table) : Stats :=
  let rows := pointed_rows ord (t_conns t) t in {|
  st_Live := Z.of_nat (size (t_conns t));
  st_ByState s := Z.of_nat (length (filter (λ c, cn_State c = s) rows));
  st_ByClass k := Z.of_nat (length (filter (λ c, cn_Class c = k) rows));
  st_Closed := t_closed t; st_Dropped := t_dropped t |}.

(** ** The pipeline's side *)

(** the tuple of a connect or byte event *)
Definition event_tuple (ev : Event) (dst : Addr) : Tuple := {|
  tu_Proto := ProtoTCP; tu_SrcAddr := None; tu_SrcPort := port_text (tag ev "src_port"); tu_DstAddr := Some dst;
  tu_DstPort := port_text (tag ev "dst_port") |}.

Definition connect_event (ev : Event) (dst : Addr) (info : option Info) : ConnectEvent := {|
  ce_Time := ev_Time ev; ce_PID := ev_PID ev; ce_PPID := ev_ParentPID ev; ce_Comm := ev_Comm ev; ce_Exe := ev_Image ev;
  ce_ExeSHA := tag ev "exe_sha256";
  ce_Class := match info with Some i => in_Class i | None => CGUnknown end;
  ce_Unit := match info with Some i => in_Unit i | None => "" end;
  ce_UserID := match info with Some i => in_UserID i | None => "" end;
  ce_Tuple := event_tuple ev dst |}.

(** [cls] is the nil classifier or the classifier with its own arguments *)
Definition feedConnstate (ord : gmap Tuple nat → list Tuple) (clock : Time.time) (cls : option (Classifier → Info * Classifier)) (ev : Event)
    (t : Table) (c : Classifier) : Table * Classifier :=
  if Str.empty (tag ev "dst_ip") then (t, c)
  else
    match ParseAddr (tag ev "dst_ip") with
    | None => (t, c)
    | Some dst =>
        match cls with
        | Some classify =>
            if negb (ev_PID ev =? 0)%Z then
              let '(info, c) := classify c in (OnConnect ord clock (connect_event ev dst (Some info)) t, c)
            else (OnConnect ord clock (connect_event ev dst None) t, c)
        | None => (OnConnect ord clock (connect_event ev dst None) t, c)
        end
    end.

Definition feedConnstateBytes (ord : gmap Tuple nat → list Tuple) (ev : Event) (t : Table) : Table :=
  if Str.empty (tag ev "dst_ip") then t
  else
    match ParseAddr (tag ev "dst_ip") with
    | None => t
    | Some dst =>
        let nbytes := if Str.empty (tag ev "bytes") then 0%Z else Str.scan_uint 64 (tag ev "bytes") in
        if (nbytes =? 0)%Z then t
        else UpdateBytes ord (event_tuple ev dst) (if bool_decide (tag ev "dir" = "in") then 1 else 0) nbytes t
    end.

(** the stages that feed the table *)
Definition conn_stage (ord : gmap Tuple nat → list Tuple) (clock : Time.time) (cls : option (Classifier → Info * Classifier)) (ev : Event)
    (t : Table) (c : Classifier) : Table * Classifier :=
  let net := bool_decide (ev_Sensor ev = "ebpf.net") in
  let '(t, c) := if net && bool_decide (tag ev "kind" = "net_connect") then feedConnstate ord clock cls ev t c else (t, c) in
  (if net && bool_decide (tag ev "kind" = "net_bytes") then feedConnstateBytes ord ev t else t, c).

(** the newest row of the process to that address that has a name *)
Definition lookup_named (name : Conn → string) (ord : gmap Tuple nat → list Tuple) (pid : Z) (dstIP : string) (dstPort : Z) (t : Table) : string :=
  if (pid =? 0)%Z then ""
  else
    match List.find (λ c, negb (Str.empty (name c)) && bool_decide (Addr_text (tu_DstAddr (cn_Tuple c)) = dstIP) &&
                          (tu_DstPort (cn_Tuple c) =? dstPort)%Z) (SnapshotByPID ord pid t) with
    | Some c => name c
    | None => ""
    end.

Definition lookupSNIFromConnstate : (gmap Tuple nat → list Tuple) → Z → string → Z → Table → string := lookup_named cn_SNI.
Definition lookupALPNFromConnstate : (gmap Tuple nat → list Tuple) → Z → string → Z → Table → string := lookup_named cn_ALPN.

(** ** Calls *)

Inductive op : Type :=
  | DoConnect (clock : Time.time) (e : ConnectEvent)
  | DoAccept (clock : Time.time) (e : ConnectEvent)
  | DoEstablished (tup : Tuple) (when : Time.time)
  | DoClose (tup : Tuple) (when : Time.time)
  | DoReset (tup : Tuple) (when : Time.time)
  | DoAttachDNS (tup : Tuple) (qname : string)
  | DoBytes (tup : Tuple) (dir bytes : Z)
  | DoSNI (tup : Tuple) (sni : string)
  | DoALPN (tup : Tuple) (alpn : string)
  | DoRecordDNS (pid : Z) (qname : string) (ips : list string) (now : Time.time)
  | DoSweep (now : Time.time) (retainAfter idleTimeout : Time.duration).

Section calls.
Context (ord : gmap Tuple nat → list Tuple).

Definition call (t : Table) (o : op) : Table :=
  match o with
  | DoConnect clock e => OnConnect ord clock e t
  | DoAccept clock e => OnAccept ord clock e t
  | DoEstablished tup w => OnEstablished tup w t
  | DoClose tup w => OnClose tup w t
  | DoReset tup w => OnReset tup w t
  | DoAttachDNS tup q => AttachDNS tup q t
  | DoBytes tup d n => UpdateBytes ord tup d n t
  | DoSNI tup s => AttachSNI ord tup s t
  | DoALPN tup a => AttachALPN ord tup a t
  | DoRecordDNS pid q ips now => RecordDNS pid q ips now t
  | DoSweep now r i => (Sweep ord now r i t).1
  end.

Definition calls (os : list op) (t : Table) : Table := foldl call t os.

End calls.

(** ** What the two maps agree on *)

(** the pointer the index has *)
Definition indexed (t : Table) (pid : Z) (tup : Tuple) : option nat := m ← t_byPID t !! pid; m !! tup.

Record table_ok (t : Table) : Prop := {
  ok_row : ∀ tup p, t_conns t !! tup = Some p → ∃ c, t_heap t !! p = Some c ∧ cn_Tuple c = tup;
  ok_fresh : ∀ p, is_Some (t_heap t !! p) → p < t_next t;
  ok_index : ∀ pid tup p, indexed t pid tup = Some p ↔
    t_conns t !! tup = Some p ∧ pid ≠ 0%Z ∧ cn_PID <$> t_heap t !! p = Some pid;
  ok_cap : (1 ≤ t_cap t)%Z }.

Lemma fresh_table_ok (cap : Z) : table_ok (New cap).
Proof.
  constructor; cbn; [done|intros p []; done| |destruct (Z.leb_spec cap 0); lia].
  intros pid tup p. unfold indexed. cbn. split; [done|]. by intros [? _].
Qed.

(** a write that keeps what the maps look at *)
Lemma mutate_ok (p : nat) (f : Conn → Conn) (t : Table) :
  (∀ c, t_heap t !! p = Some c → cn_Tuple (f c) = cn_Tuple c ∧ cn_PID (f c) = cn_PID c) → table_ok t → table_ok (mutate p f t).
Proof.
  intros Hf [Hr Hn Hi Hc].
  assert (∀ q, cn_PID <$> alter f p (t_heap t) !! q = cn_PID <$> t_heap t !! q) as Hpid.
  { intros q. destruct (decide (p = q)) as [<-|Hne]; [|by rewrite lookup_alter_ne]. rewrite lookup_alter_eq.
    destruct (t_heap t !! p) as [c|] eqn:He; [|done]. cbn. by destruct (Hf c eq_refl) as [_ ->]. }
  constructor; cbn; [| | |done].
  - intros tup q Hq. destruct (Hr tup q Hq) as (c & Hh & Ht). destruct (decide (p = q)) as [<-|Hne].
    + exists (f c). rewrite lookup_alter_eq, Hh. split; [done|]. destruct (Hf c Hh) as [-> _]. done.
    + exists c. by rewrite lookup_alter_ne.
  - intros q Hq. apply Hn. destruct (decide (p = q)) as [<-|Hne]; [|by rewrite lookup_alter_ne in Hq].
    rewrite lookup_alter_eq in Hq. by apply fmap_is_Some in Hq.
  - intros pid tup q. rewrite Hpid. apply Hi.
Qed.

Lemma index_put_indexed (pid pid' : Z) (tup tup' : Tuple) (p : nat) (m : gmap Z (gmap Tuple nat)) :
  (index_put pid tup p m !! pid' ≫= (.!! tup')) =
  if decide (pid = pid' ∧ tup = tup') then Some p else m !! pid' ≫= (.!! tup').
Proof.
  unfold index_put. destruct (decide (pid = pid')) as [<-|Hp].
  - rewrite lookup_insert_eq. cbn. destruct (decide (tup = tup')) as [<-|Ht].
    + rewrite lookup_insert_eq. by rewrite decide_True.
    + rewrite lookup_insert_ne by done. rewrite decide_False by naive_solver. by destruct (m !! pid).
  - rewrite lookup_insert_ne by done. by rewrite decide_False by naive_solver.
Qed.

Lemma indexRemove_indexed (pid pid' : Z) (tup tup' : Tuple) (t : Table) :
  indexed (indexRemoveLocked pid tup t) pid' tup' = if decide (pid = pid' ∧ tup = tup') then None else indexed t pid' tup'.
Proof.
  unfold indexed, indexRemoveLocked. destruct (decide (pid = pid')) as [<-|Hp].
  - destruct (t_byPID t !! pid) as [m|] eqn:Hm; cbn; [|rewrite Hm; by case_decide].
    case_bool_decide as He; [rewrite lookup_delete_eq|rewrite lookup_insert_eq]; cbn.
    + destruct (decide (tup = tup')) as [<-|Ht]; [by rewrite decide_True|]. rewrite decide_False by naive_solver.
      by rewrite <-(lookup_delete_ne m tup tup' Ht), He.
    + destruct (decide (tup = tup')) as [<-|Ht]; [rewrite lookup_delete_eq; by rewrite decide_True|].
      rewrite lookup_delete_ne by done. by rewrite decide_False by naive_solver.
  - rewrite decide_False by naive_solver. destruct (t_byPID t !! pid) as [m|] eqn:Hm; [|done]. cbn.
    case_bool_decide; [by rewrite lookup_delete_ne|by rewrite lookup_insert_ne].
Qed.

Lemma indexRemove_other (pid : Z) (tup : Tuple) (t : Table) :
  t_heap (indexRemoveLocked pid tup t) = t_heap t ∧ t_next (indexRemoveLocked pid tup t) = t_next t ∧
  t_conns (indexRemoveLocked pid tup t) = t_conns t ∧ t_cap (indexRemoveLocked pid tup t) = t_cap t.
Proof. unfold indexRemoveLocked. by destruct (t_byPID t !! pid). Qed.

Lemma removeLocked_conns (tup : Tuple) (t : Table) : t_conns (removeLocked tup t) = delete tup (t_conns t).
Proof.
  unfold removeLocked. destruct (t_conns t !! tup) eqn:He; [|by rewrite delete_id].
  by destruct (indexRemove_other (default 0%Z (cn_PID <$> t_heap t !! n)) tup (with_maps (delete tup (t_conns t)) (t_byPID t) t))
    as (_ & _ & -> & _).
Qed.

Lemma removeLocked_heap (tup : Tuple) (t : Table) :
  t_heap (removeLocked tup t) = t_heap t ∧ t_next (removeLocked tup t) = t_next t ∧ t_cap (removeLocked tup t) = t_cap t.
Proof.
  unfold removeLocked. destruct (t_conns t !! tup); [|done].
  by destruct (indexRemove_other (default 0%Z (cn_PID <$> t_heap t !! n)) tup (with_maps (delete tup (t_conns t)) (t_byPID t) t))
    as (-> & -> & _ & ->).
Qed.

Lemma removeLocked_ok (tup : Tuple) (t : Table) : table_ok t → table_ok (removeLocked tup t).
Proof.
  intros [Hr Hn Hi Hc]. destruct (removeLocked_heap tup t) as (Hh & Hx & Hk).
  constructor; rewrite ?Hh, ?Hx, ?Hk, ?removeLocked_conns; [| |intros pid tup' p|done].
  - intros tup' p [_ Hp]%lookup_delete_Some. by apply Hr.
  - done.
  - unfold removeLocked. destruct (t_conns t !! tup) as [q|] eqn:Hq; [|rewrite delete_id by done; apply Hi].
    destruct (Hr tup q Hq) as (c & Hhc & Htc). rewrite indexRemove_indexed, Hhc. cbn [fmap option_fmap option_map default].
    change (indexed (with_maps (delete tup (t_conns t)) (t_byPID t) t) pid tup') with (indexed t pid tup').
    rewrite lookup_delete_Some. pose proof (Hi pid tup' p) as Hip. case_decide as Hd.
    + destruct Hd as [_ ->]. split; [done|]. by intros ([] & _).
    + rewrite Hip. split; [intros (H1 & H2 & H3)|tauto]. split_and!; try done. intros ->.
      assert (p = q) as -> by congruence. apply Hd. split; [|done]. rewrite Hhc in H3. by injection H3.
Qed.

Lemma allocate_ok (c : Conn) (t : Table) :
  t_conns t !! cn_Tuple c = None → cn_PID c = 0%Z → table_ok t → table_ok (allocate c t).2.
Proof.
  intros Hnew H0 [Hr Hn Hi Hc].
  assert (t_heap t !! t_next t = None) as Hf.
  { destruct (t_heap t !! t_next t) as [d|] eqn:Hd; [|done]. specialize (Hn (t_next t) ltac:(by eexists)). lia. }
  assert (∀ tup p, t_conns t !! tup = Some p → p ≠ t_next t) as Hne.
  { intros tup p Hp ->. destruct (Hr _ _ Hp) as (d & Hd & _). congruence. }
  constructor; cbn; [| |intros pid tup p|done].
  - intros tup p Hp. apply lookup_insert_Some in Hp as [[<- <-]|[Hx Hp]]; [exists c; by rewrite lookup_insert_eq|].
    rewrite lookup_insert_ne by (specialize (Hne _ _ Hp); congruence). by apply Hr.
  - intros p Hp. destruct (decide (p = t_next t)) as [->|Hx]; [lia|]. rewrite lookup_insert_ne in Hp by done. specialize (Hn p Hp). lia.
  - change (indexed _ pid tup) with (indexed t pid tup). rewrite (Hi pid tup p). split.
    + intros (H1 & H2 & H3). rewrite !lookup_insert_ne by (specialize (Hne _ _ H1); congruence). done.
    + intros (H1 & H2 & H3). apply lookup_insert_Some in H1 as [[<- <-]|[Hx H1]].
      * rewrite lookup_insert_eq in H3. cbn in H3. congruence.
      * rewrite lookup_insert_ne in H3 by (specialize (Hne _ _ H1); congruence). done.
Qed.

(** a row gets its owner and its place in the index *)
Lemma set_owner_ok (tup : Tuple) (p : nat) (c : Conn) (f : Conn → Conn) (t : Table) :
  t_conns t !! tup = Some p → t_heap t !! p = Some c → cn_Tuple (f c) = cn_Tuple c → (cn_PID c ≠ 0%Z → cn_PID (f c) = cn_PID c) →
  table_ok t →
  table_ok (if (cn_PID c =? 0)%Z && negb (cn_PID (f c) =? 0)%Z then indexInsertLocked p (mutate p f t) else mutate p f t).
Proof.
  intros Hp Hh Ht Hk Hok. destruct (Z.eqb_spec (cn_PID c) 0) as [H0|H0]; cbn [andb].
  2: apply mutate_ok; [|done]; intros d Hd; assert (d = c) as -> by congruence; auto.
  destruct (Z.eqb_spec (cn_PID (f c)) 0) as [Hz|Hz]; cbn [negb].
  { apply mutate_ok; [|done]. intros d Hd. assert (d = c) as -> by congruence. split; [done|congruence]. }
  destruct Hok as [Hr Hn Hi Hc]. destruct (Hr _ _ Hp) as (d & Hd & Htd). assert (d = c) as -> by congruence. clear Hd.
  unfold indexInsertLocked. cbn [mutate with_heap t_heap]. rewrite lookup_alter_eq, Hh. cbn [fmap option_fmap option_map].
  rewrite (proj2 (Z.eqb_neq _ _)) by done. rewrite Ht, Htd.
  constructor; cbn; [| |intros pid tup' q|done].
  - intros tup' q Hq. destruct (Hr tup' q Hq) as (d & Hd & Htd'). destruct (decide (p = q)) as [<-|Hne].
    + exists (f c). rewrite lookup_alter_eq, Hh. split; [done|]. congruence.
    + exists d. by rewrite lookup_alter_ne.
  - intros q Hq. apply Hn. destruct (decide (p = q)) as [<-|Hne]; [by rewrite Hh|by rewrite lookup_alter_ne in Hq].
  - unfold indexed. cbn [t_byPID with_maps]. rewrite index_put_indexed. case_decide as Hd.
    + destruct Hd as [<- <-]. split; [intros [= <-]|intros (H1 & _ & _); congruence].
      rewrite lookup_alter_eq, Hh. cbn. done.
    + change (t_byPID t !! pid ≫= (.!! tup')) with (indexed t pid tup'). rewrite (Hi pid tup' q).
      destruct (decide (p = q)) as [<-|Hne]; [|by rewrite lookup_alter_ne].
      rewrite lookup_alter_eq, Hh. cbn. split; intros (H1 & H2 & H3); [congruence|].
      destruct (Hr _ _ H1) as (d & Hd' & Htd'). exfalso. apply Hd. split; [congruence|congruence].
Qed.

(** ** Every call keeps the table in order and within its cap *)

Section order.
Context (ord : gmap Tuple nat → list Tuple) (Hord : ∀ m, range_order m (ord m)).

Lemma ranged_row (t : Table) (x : Tuple * Conn) :
  table_ok t → x ∈ ranged ord t → is_Some (t_conns t !! cn_Tuple x.2) ∧ Lookup (cn_Tuple x.2) t = Some x.2.
Proof.
  intros Hok Hx. unfold ranged in Hx. apply list_elem_of_omap in Hx as (tup & _ & Hx).
  apply bind_Some in Hx as (p & Hp & Hx). apply bind_Some in Hx as (c & Hc & [= <-]). cbn [snd].
  destruct (ok_row t Hok tup p Hp) as (d & Hd & Ht). assert (d = c) as -> by congruence. rewrite Ht. unfold Lookup. by rewrite Hp.
Qed.

Lemma ranged_nonempty (t : Table) (tup : Tuple) : table_ok t → is_Some (t_conns t !! tup) → ranged ord t ≠ [].
Proof.
  intros Hok [p Hp] He. destruct (ok_row t Hok tup p Hp) as (c & Hc & _).
  assert ((tup, c) ∈ ranged ord t) as Hin; [|rewrite He in Hin; by apply elem_of_nil in Hin].
  unfold ranged. apply list_elem_of_omap. exists tup. split; [apply Hord; by eexists|]. by rewrite Hp; cbn; rewrite Hc.
Qed.

(** the eviction's candidates are rows, and there is one when there is a row *)
Lemma oldest_from (l : list (Tuple * Conn)) (a b : option Conn) :
  let '(a', b') := foldl (λ '(closed, any) x, (if terminal (cn_State x.2) then older_row closed x.2 else closed, older_row any x.2)) (a, b) l in
  (∀ c, a' = Some c → a = Some c ∨ c ∈ l.*2) ∧ (∀ c, b' = Some c → b = Some c ∨ c ∈ l.*2) ∧ (l ≠ [] ∨ is_Some b → is_Some b').
Proof.
  revert a b. induction l as [|[tup c] l IH]; intros a b.
  { cbn. split_and!; [by left|by left|by intros [|]]. }
  cbn [foldl fst snd]. specialize (IH (if terminal (cn_State c) then older_row a c else a) (older_row b c)).
  destruct (foldl _ _ l) as [a' b']. destruct IH as (Ha & Hb & Hs).
  assert (∀ o d, older_row o c = Some d → o = Some d ∨ d = c) as Hold.
  { intros [e|] d; cbn; [destruct (Time.Before _ _)|]; intros [= <-]; auto. }
  rewrite fmap_cons. cbn [snd]. split_and!.
  - intros d Hd. destruct (Ha d Hd) as [H|H]; [|right; by right].
    destruct (terminal (cn_State c)); [|by left]. apply Hold in H as [H| ->]; [by left|right; by left].
  - intros d Hd. destruct (Hb d Hd) as [H|H]; [|right; by right]. apply Hold in H as [H| ->]; [by left|right; by left].
  - intros _. apply Hs. right. destruct b as [e|]; cbn; [destruct (Time.Before _ _)|]; by eexists.
Qed.

Lemma evict_removes (t : Table) :
  table_ok t → t_conns t ≠ ∅ → ∃ tup, is_Some (t_conns t !! tup) ∧ evictOneLocked ord t = (true, removeLocked tup t).
Proof.
  intros Hok Hne. apply map_choose in Hne as (tup & p & Hp).
  pose proof (oldest_from (ranged ord t) None None) as Ho. unfold evictOneLocked, oldest_rows.
  destruct (foldl _ _ (ranged ord t)) as [a b]. destruct Ho as (Ha & Hb & Hs).
  assert (∀ c, c ∈ (ranged ord t).*2 → is_Some (t_conns t !! cn_Tuple c)) as Hrow.
  { intros c (x & -> & Hx)%list_elem_of_fmap. by apply ranged_row. }
  destruct a as [c|].
  - destruct (Ha c eq_refl) as [|Hc]; [done|]. exists (cn_Tuple c). auto.
  - destruct (Hs (or_introl (ranged_nonempty t tup Hok ltac:(by eexists)))) as [c ->].
    destruct (Hb c eq_refl) as [|Hc]; [done|]. exists (cn_Tuple c). auto.
Qed.

(** the counters the calls leave alone, and the room *)
Record good (cap : Z) (t : Table) : Prop := {
  go_ok : table_ok t; go_cap : t_cap t = cap; go_size : (Z.of_nat (size (t_conns t)) ≤ cap)%Z; go_dropped : t_dropped t = 0%Z }.

Lemma removeLocked_dropped (tup : Tuple) (t : Table) : t_dropped (removeLocked tup t) = t_dropped t.
Proof. unfold removeLocked, indexRemoveLocked. by repeat case_match. Qed.

Lemma removeLocked_good (cap : Z) (tup : Tuple) (t : Table) : good cap t → good cap (removeLocked tup t).
Proof.
  intros [Ho Hc Hs Hd]. destruct (removeLocked_heap tup t) as (_ & _ & Hk).
  constructor; [by apply removeLocked_ok|congruence| |by rewrite removeLocked_dropped].
  rewrite removeLocked_conns, map_size_delete. destruct (t_conns t !! tup); cbn; lia.
Qed.

Lemma mutate_good (cap : Z) (p : nat) (f : Conn → Conn) (t : Table) :
  (∀ c, t_heap t !! p = Some c → cn_Tuple (f c) = cn_Tuple c ∧ cn_PID (f c) = cn_PID c) → good cap t → good cap (mutate p f t).
Proof. intros Hf [Ho Hc Hs Hd]. constructor; [by apply mutate_ok|done..]. Qed.

(** a row for the tuple is always found: eviction makes room *)
Lemma find_row_good (cap : Z) (fresh : Conn) (t : Table) :
  cn_PID fresh = 0%Z → good cap t →
  ∃ p t', find_row ord fresh t = (Some p, t') ∧ good cap t' ∧ t_conns t' !! cn_Tuple fresh = Some p ∧
    ∀ tup, tup ≠ cn_Tuple fresh ∨ is_Some (t_conns t !! tup) → Lookup tup t' = Lookup tup t ∨ Lookup tup t' = None.
Proof.
  intros H0 Hg. pose proof Hg as [Ho Hc Hs Hd]. unfold find_row. destruct (t_conns t !! cn_Tuple fresh) as [p|] eqn:Hp.
  { exists p, t. split_and!; try done. intros; by left. }
  assert (∃ u, (if (t_cap t <=? Z.of_nat (size (t_conns t)))%Z then evictOneLocked ord t else (true, t)) = (true, u) ∧ good cap u ∧
    (Z.of_nat (size (t_conns u)) < cap)%Z ∧ t_conns u !! cn_Tuple fresh = None ∧
    ∀ tup, Lookup tup u = Lookup tup t ∨ Lookup tup u = None) as (u & -> & Hu & Hsu & Hnu & Hlu).
  { destruct (Z.leb_spec (t_cap t) (Z.of_nat (size (t_conns t)))) as [Hfull|Hroom].
    - destruct (evict_removes t Ho) as (tup & [q Hq] & ->).
      { intros He. rewrite He, map_size_empty in Hfull. pose proof (ok_cap t Ho). lia. }
      exists (removeLocked tup t). split_and!; [done|by apply removeLocked_good| | |].
      + rewrite removeLocked_conns, map_size_delete, Hq. cbn.
        assert (0 < size (t_conns t)); [|lia]. apply map_size_pos with (k := tup) (v := q). done.
      + rewrite removeLocked_conns. apply lookup_delete_None. by right.
      + intros tup'. unfold Lookup. destruct (removeLocked_heap tup t) as (-> & _). rewrite removeLocked_conns.
        destruct (decide (tup = tup')) as [<-|Hne]; [right; by rewrite lookup_delete_eq|left; by rewrite lookup_delete_ne].
    - exists t. split_and!; [done|done|lia|done|by left]. }
  destruct Hu as [Hou Hcu Hsu' Hdu].
  assert (indexInsertLocked (t_next u) (allocate fresh u).2 = (allocate fresh u).2) as He.
  { unfold indexInsertLocked, allocate. cbn. rewrite lookup_insert_eq. by rewrite H0. }
  eexists _, _. split; [reflexivity|]. cbn [allocate]. unfold allocate in He. cbn [snd] in He. rewrite He. split_and!.
  - constructor; cbn; [exact (allocate_ok fresh u Hnu H0 Hou)|done| |done].
    rewrite map_size_insert, Hnu. cbn. lia.
  - cbn. by rewrite lookup_insert_eq.
  - intros tup Hx. assert (tup ≠ cn_Tuple fresh) as Hne by (destruct Hx as [Hx|[q Hq]]; [done|congruence]).
    destruct (Hlu tup) as [Hl|Hl]; [left; rewrite <-Hl|right]; revert Hl; unfold Lookup; cbn; rewrite lookup_insert_ne by done.
    + intros _. destruct (t_conns u !! tup) as [q|] eqn:Hq; [|done]. cbn. rewrite lookup_insert_ne; [done|].
      destruct (ok_row u Hou _ _ Hq) as (d & Hd' & _). pose proof (ok_fresh u Hou q ltac:(by eexists)). lia.
    + destruct (t_conns u !! tup) as [q|] eqn:Hq; [|done]. cbn. rewrite lookup_insert_ne; [done|].
      destruct (ok_row u Hou _ _ Hq) as (d & Hd' & _). pose proof (ok_fresh u Hou q ltac:(by eexists)). lia.
Qed.

(** what [refresh] writes *)
Definition owned (e : ConnectEvent) (now : Time.time) (c : Conn) : Conn :=
  mergeAttribution (ce_PID e) (ce_PPID e) (ce_Comm e) (ce_Exe e) (ce_ExeSHA e) (ce_Class e) (ce_Unit e) (ce_UserID e)
    (with_state (cn_State c) now (cn_ClosedAt c) c).

Lemma indexInsert_other (p : nat) (t : Table) :
  t_heap (indexInsertLocked p t) = t_heap t ∧ t_conns (indexInsertLocked p t) = t_conns t ∧ t_cap (indexInsertLocked p t) = t_cap t ∧
  t_dropped (indexInsertLocked p t) = t_dropped t.
Proof. unfold indexInsertLocked. by repeat case_match. Qed.

Lemma refresh_other (e : ConnectEvent) (now : Time.time) (p : nat) (t : Table) :
  t_heap (refresh e now p t) = alter (owned e now) p (t_heap t) ∧ t_conns (refresh e now p t) = t_conns t ∧
  t_cap (refresh e now p t) = t_cap t ∧ t_dropped (refresh e now p t) = t_dropped t.
Proof.
  destruct (indexInsert_other p (mutate p (owned e now) t)) as (H1 & H2 & H3 & H4).
  unfold refresh. case_match; [|done]. split_and!; [exact H1|exact H2|exact H3|exact H4].
Qed.

Lemma refresh_good (cap : Z) (e : ConnectEvent) (now : Time.time) (tup : Tuple) (p : nat) (t : Table) :
  t_conns t !! tup = Some p → good cap t → good cap (refresh e now p t).
Proof.
  intros Hp [Ho Hc Hs Hd]. destruct (refresh_other e now p t) as (_ & Hx & Hk & Hz).
  constructor; rewrite ?Hx, ?Hk, ?Hz; [|done..]. destruct (ok_row t Ho tup p Hp) as (c & Hh & _).
  unfold refresh. fold (owned e now). cbn [mutate with_heap t_heap]. rewrite Hh, lookup_alter_eq, Hh. cbn [fmap option_fmap option_map default].
  apply (set_owner_ok tup p c (owned e now) t Hp Hh); [done| |done].
  intros H0. cbn. unfold or_num. by rewrite (proj2 (Z.eqb_neq _ _)).
Qed.

Lemma hint_other (now : Time.time) (p : nat) (t : Table) :
  ∃ q h, hint_row now p t = with_hints h (mutate p (λ c, if Str.empty (cn_DNSName c) then with_names q (cn_SNI c) (cn_ALPN c) c else c) t) ∨
    hint_row now p t = with_hints h t.
Proof.
  assert (∀ u, u = with_hints (t_dnsHints u) u) as Hid by (by intros []).
  unfold hint_row. destruct (t_heap t !! p) as [c|] eqn:Hc; [|exists "", (t_dnsHints t); right; apply Hid].
  destruct (tu_DstAddr (cn_Tuple c)) as [dst|]; [|exists "", (t_dnsHints t); right; apply Hid].
  destruct (Str.empty (cn_DNSName c) && negb (cn_PID c =? 0)%Z) eqn:Hcond; [|exists "", (t_dnsHints t); right; apply Hid].
  apply andb_prop in Hcond as [He _]. unfold lookupDNSHintLocked.
  destruct (t_dnsHints t !! (cn_PID c, Addr_String dst)) as [[q at_]|]; [|exists "", (t_dnsHints t); right; apply Hid].
  destruct (dnsAttributionTTL <? Time.Sub now at_)%Z; [exists ""; eexists; right; reflexivity|].
  destruct (Str.empty q); [exists "", (t_dnsHints t); right; apply Hid|].
  exists q, (t_dnsHints t). left. unfold mutate, with_heap, with_hints. cbn. f_equal.
  apply map_eq. intros i. destruct (decide (p = i)) as [<-|Hne]; [|by rewrite !lookup_alter_ne].
  rewrite !lookup_alter_eq, Hc. cbn. by rewrite He.
Qed.

Lemma with_hints_good (cap : Z) h (t : Table) : good cap t → good cap (with_hints h t).
Proof. intros [[Hr Hn Hi Hc] ? ? ?]. constructor; [|done..]. constructor; [exact Hr|exact Hn|exact Hi|exact Hc]. Qed.

Lemma with_ended_good (cap closed : Z) (t : Table) : good cap t → good cap (with_ended closed (t_dropped t) t).
Proof. intros [[Hr Hn Hi Hc] ? ? ?]. constructor; [|done..]. constructor; [exact Hr|exact Hn|exact Hi|exact Hc]. Qed.

Lemma hint_good (cap : Z) (now : Time.time) (p : nat) (t : Table) : good cap t → good cap (hint_row now p t).
Proof.
  intros Hg. destruct (hint_other now p t) as (q & h & [-> | ->]); apply with_hints_good; [|done].
  apply mutate_good; [|done]. intros c _. by destruct (Str.empty (cn_DNSName c)).
Qed.

Lemma at_row_good (cap : Z) (tup : Tuple) (f : Conn → Conn) (t : Table) :
  (∀ c, cn_Tuple (f c) = cn_Tuple c ∧ cn_PID (f c) = cn_PID c) → good cap t → good cap (at_row tup f t).
Proof. intros Hf Hg. unfold at_row. destruct (t_conns t !! tup); [|done]. apply mutate_good; auto. Qed.

Lemma exact_or_dst_good (cap : Z) (tup : Tuple) (f : Conn → Conn) (t : Table) :
  (∀ c, cn_Tuple (f c) = cn_Tuple c ∧ cn_PID (f c) = cn_PID c) → good cap t → good cap (exact_or_dst ord tup f t).
Proof.
  intros Hf Hg. unfold exact_or_dst. destruct (t_conns t !! tup); [apply mutate_good; auto|].
  destruct (List.find _ _); [by apply at_row_good|done].
Qed.

Lemma sweep_good (cap : Z) (now : Time.time) (r i : Time.duration) (ks : list Tuple) (t : Table) (n : Z) :
  good cap t → good cap (foldl (sweep_row now r i) (t, n) ks).1.
Proof.
  revert t n. induction ks as [|k ks IH]; intros t n Hg; [done|]. cbn [foldl].
  destruct (sweep_row now r i (t, n) k) as [t' n'] eqn:Hs. apply IH. revert Hs. unfold sweep_row.
  destruct (t_conns t !! k) as [p|]; [|by intros [= <- <-]]. destruct (t_heap t !! p) as [c|]; [|by intros [= <- <-]].
  destruct (terminal (cn_State c)).
  - destruct (r <=? _)%Z; intros [= <- <-]; [by apply removeLocked_good|done].
  - destruct ((0 <? i)%Z && _); intros [= <- <-]; [|done]. apply (with_ended_good cap _ (mutate p _ t)), mutate_good; [|done]. by intros.
Qed.

Lemma end_row_good (cap : Z) (s : State) (tup : Tuple) (w : Time.time) (t : Table) : good cap t → good cap (end_row s tup w t).
Proof.
  intros Hg. unfold end_row. destruct (t_conns t !! tup); [|done]. apply (with_ended_good cap _ (mutate n _ t)), mutate_good; [|done]. by intros.
Qed.

Lemma record_good (cap : Z) (pid : Z) (q : string) (ips : list string) (now : Time.time) (t : Table) :
  good cap t → good cap (RecordDNS pid q ips now t).
Proof.
  intros Hg. unfold RecordDNS. case_match; [done|]. case_match; [|by apply with_hints_good].
  by repeat apply with_hints_good.
Qed.

Lemma call_good (cap : Z) (o : op) (t : Table) : good cap t → good cap (call ord t o).
Proof.
  intros Hg. destruct o as [clock e|clock e|tup w|tup w|tup w|tup q|tup d n|tup s|tup a|pid q ips now|now r i]; cbn [call].
  - unfold OnConnect. destruct (find_row_good cap (new_conn (ce_Tuple e) DirOutbound StateNew (connect_time e clock)) t eq_refl Hg)
      as (p & t' & -> & Hg' & Hp & _).
    apply hint_good, mutate_good; [|by eapply refresh_good]. intros c _. unfold known_state. by case_bool_decide.
  - unfold OnAccept. destruct (find_row_good cap (new_conn (ce_Tuple e) DirInbound StateEstablished (connect_time e clock)) t eq_refl Hg)
      as (p & t' & -> & Hg' & Hp & _). by eapply refresh_good.
  - by apply at_row_good.
  - by apply end_row_good.
  - by apply end_row_good.
  - apply at_row_good; [|done]. intros c. by destruct (Str.empty (cn_DNSName c)).
  - unfold UpdateBytes. case_match; [done|]. apply exact_or_dst_good; [|done]. intros c. unfold add_bytes. by case_match.
  - unfold AttachSNI. case_match; [done|]. apply exact_or_dst_good; [|done]. intros c. by destruct (Str.empty (cn_SNI c)).
  - unfold AttachALPN. case_match; [done|]. apply exact_or_dst_good; [|done]. intros c. by destruct (Str.empty (cn_ALPN c)).
  - by apply record_good.
  - by apply sweep_good.
Qed.

Lemma calls_good (cap : Z) (os : list op) (t : Table) : good cap t → good cap (calls ord os t).
Proof. revert t. induction os as [|o os IH]; intros t Hg; [done|]. apply (IH (call ord t o)). by apply call_good. Qed.

Lemma New_good (cap : Z) : good (t_cap (New cap)) (New cap).
Proof. constructor; [apply fresh_table_ok|done| |done]. cbn. rewrite map_size_empty. destruct (cap <=? 0)%Z eqn:He; bool_to_prop; lia. Qed.

(** C37: Whatever is called, in any order and with any order of the ranges, the
    table never holds more rows than its cap and never drops an insertion. *)
Theorem table_bounded (cap : Z) (os : list op) :
  (Z.of_nat (size (t_conns (calls ord os (New cap)))) ≤ t_cap (New cap))%Z ∧ t_dropped (calls ord os (New cap)) = 0%Z.
Proof. destruct (calls_good _ os _ (New_good cap)) as [_ _ Hs Hd]. split; [exact Hs|exact Hd]. Qed.

Lemma rows_of_perm (t : Table) (m : gmap Tuple nat) :
  pointed_rows ord m t ≡ₚ omap (λ x, t_heap t !! x.2) (map_to_list m).
Proof.
  unfold pointed_rows. assert (ord m ≡ₚ (map_to_list m).*1) as -> by (eapply range_order_perm; [apply Hord|apply some_order_ok]).
  assert (∀ l : list (Tuple * nat), (∀ x, x ∈ l → m !! x.1 = Some x.2) →
    omap (λ tup, p ← m !! tup; t_heap t !! p) l.*1 = omap (λ x, t_heap t !! x.2) l) as H.
  { induction l as [|x l IH]; intros Hl; [done|]. rewrite fmap_cons. cbn [omap list_omap].
    rewrite (Hl x) by (by left). cbn [mbind option_bind]. rewrite IH by (intros; apply Hl; by right). done. }
  rewrite H; [done|]. intros [k v]. apply elem_of_map_to_list.
Qed.

Lemma by_opened_perm (l : list Conn) : by_opened l ≡ₚ l.
Proof. apply merge_sort_Permutation. Qed.

Lemma row_tuple (t : Table) (tup : Tuple) (c : Conn) : table_ok t → Lookup tup t = Some c → cn_Tuple c = tup.
Proof.
  intros Hok (p & Hp & Hc)%bind_Some. destruct (ok_row t Hok tup p Hp) as (d & Hd & Ht). congruence.
Qed.

Lemma rows_NoDup (t : Table) (m : gmap Tuple nat) :
  (∀ tup p, m !! tup = Some p → t_conns t !! tup = Some p) → table_ok t → NoDup (pointed_rows ord m t).
Proof.
  intros Hm Hok. unfold pointed_rows. apply (NoDup_fmap_1 cn_Tuple).
  assert (∀ l, cn_Tuple <$> omap (λ tup, p ← m !! tup; t_heap t !! p) l = filter (λ tup, is_Some (m !! tup)) l) as ->.
  { induction l as [|tup l IH]; [done|]. rewrite filter_cons. cbn [omap list_omap]. destruct (m !! tup) as [p|] eqn:Hp; cbn.
    - destruct (ok_row t Hok tup p (Hm _ _ Hp)) as (c & Hc & Ht). rewrite Hc. rewrite decide_True by (by eexists). cbn. by rewrite Ht, IH.
    - rewrite decide_False by (by intros []). done. }
  apply NoDup_filter, Hord.
Qed.

Lemma elem_rows (t : Table) (m : gmap Tuple nat) (c : Conn) :
  c ∈ pointed_rows ord m t ↔ ∃ tup p, m !! tup = Some p ∧ t_heap t !! p = Some c.
Proof.
  unfold pointed_rows. rewrite list_elem_of_omap. split.
  - intros (tup & _ & (p & Hp & Hc)%bind_Some). by exists tup, p.
  - intros (tup & p & Hp & Hc). exists tup. split; [apply Hord; by eexists|]. by rewrite Hp.
Qed.

(** C29: Whatever is called, the rows kept under a process are exactly those of
    the table that belong to it, the same objects with the same contents. *)
Theorem index_agrees (cap : Z) (os : list op) (pid : Z) :
  pid ≠ 0%Z → let t := calls ord os (New cap) in
  SnapshotByPID ord pid t ≡ₚ filter (λ c, cn_PID c = pid) (Snapshot ord t).
Proof.
  intros Hpid t. destruct (calls_good _ os _ (New_good cap)) as [Hok _ _ _]. fold t in Hok. clearbody t.
  unfold SnapshotByPID, Snapshot. rewrite !by_opened_perm.
  assert (∀ tup p, default ∅ (t_byPID t !! pid) !! tup = Some p ↔ indexed t pid tup = Some p) as Hidx.
  { intros tup p. unfold indexed. by destruct (t_byPID t !! pid). }
  apply NoDup_Permutation.
  - apply rows_NoDup; [|done]. intros tup p Hp%Hidx%(ok_index t Hok). tauto.
  - apply NoDup_filter, rows_NoDup; done.
  - intros c. rewrite list_elem_of_filter, !elem_rows. split.
    + intros (tup & p & Hp%Hidx%(ok_index t Hok) & Hc). destruct Hp as (H1 & _ & H3). rewrite Hc in H3. injection H3 as H3.
      split; [done|]. by exists tup, p.
    + intros (He & tup & p & Hp & Hc). exists tup, p. split; [|done]. apply Hidx, (ok_index t Hok). split_and!; [exact Hp|done|rewrite Hc; cbn; by rewrite He].
Qed.

(** ** How a row changes *)

(** what is left of the row of [tup] after a call is related to what it was *)
Definition evolves (R : Conn → Conn → Prop) (tup : Tuple) (t t' : Table) : Prop :=
  ∀ c', Lookup tup t' = Some c' → ∃ c, Lookup tup t = Some c ∧ R c c'.

Section evolves.
Context (R : Conn → Conn → Prop) `{!PreOrder R}.

#[export] Instance evolves_preorder (tup : Tuple) : PreOrder (evolves R tup).
Proof.
  split; [intros t c Hc; by exists c|]. intros t u v Htu Huv c Hc. destruct (Huv c Hc) as (d & Hd & Hdc).
  destruct (Htu d Hd) as (e & He & Hed). exists e. split; [done|by etrans].
Qed.

Lemma evolves_same (tup : Tuple) (t t' : Table) : t_heap t' = t_heap t → t_conns t' = t_conns t → evolves R tup t t'.
Proof. intros Hh Hc c'. unfold Lookup. rewrite Hh, Hc. intros. by exists c'. Qed.

(** a write to another row, or one the relation allows *)
Lemma evolves_mutate (tup : Tuple) (p : nat) (f : Conn → Conn) (t : Table) :
  (∀ c, t_conns t !! tup = Some p → Lookup tup t = Some c → R c (f c)) → evolves R tup t (mutate p f t).
Proof.
  intros Hf c'. unfold Lookup. cbn. intros (q & Hq & Hc')%bind_Some. destruct (decide (p = q)) as [<-|Hne].
  - rewrite lookup_alter_eq in Hc'. destruct (t_heap t !! p) as [c|] eqn:Hh; [|done]. injection Hc' as <-.
    exists c. rewrite Hq. cbn. split; [done|]. apply Hf; [done|]. unfold Lookup. by rewrite Hq.
  - rewrite lookup_alter_ne in Hc' by done. exists c'. by rewrite Hq.
Qed.

Lemma evolves_mutate_all (tup : Tuple) (p : nat) (f : Conn → Conn) (t : Table) : (∀ c, R c (f c)) → evolves R tup t (mutate p f t).
Proof. intros Hf. apply evolves_mutate. auto. Qed.

Lemma evolves_remove (tup k : Tuple) (t : Table) : evolves R tup t (removeLocked k t).
Proof.
  intros c'. unfold Lookup. destruct (removeLocked_heap k t) as (-> & _). rewrite removeLocked_conns.
  intros (q & [_ Hq]%lookup_delete_Some & Hc)%bind_Some. exists c'. by rewrite Hq.
Qed.

Lemma evolves_at_row (tup k : Tuple) (f : Conn → Conn) (t : Table) :
  (tup = k → ∀ c, Lookup tup t = Some c → R c (f c)) → table_ok t → evolves R tup t (at_row k f t).
Proof.
  intros Hf Hok. unfold at_row. destruct (t_conns t !! k) as [p|] eqn:Hp; [|done]. apply evolves_mutate.
  intros c Hq Hc. apply Hf; [|done]. destruct (ok_row t Hok _ _ Hp) as (d & Hd & <-). destruct (ok_row t Hok _ _ Hq) as (e & He & <-).
  congruence.
Qed.

Lemma evolves_exact (tup k : Tuple) (f : Conn → Conn) (t : Table) :
  (∀ c, R c (f c)) → table_ok t → evolves R tup t (exact_or_dst ord k f t).
Proof.
  intros Hf Hok. unfold exact_or_dst. destruct (t_conns t !! k) as [p|]; [by apply evolves_mutate_all|].
  destruct (List.find _ _); [|done]. apply evolves_at_row; auto.
Qed.

Lemma evolves_hint (tup : Tuple) (now : Time.time) (p : nat) (t : Table) :
  (∀ c q, Str.empty (cn_DNSName c) = true → R c (with_names q (cn_SNI c) (cn_ALPN c) c)) → evolves R tup t (hint_row now p t).
Proof.
  intros Hf. destruct (hint_other now p t) as (q & h & [-> | ->]); [|by apply evolves_same].
  transitivity (mutate p (λ c, if Str.empty (cn_DNSName c) then with_names q (cn_SNI c) (cn_ALPN c) c else c) t); [|by apply evolves_same].
  apply evolves_mutate_all. intros c. destruct (Str.empty (cn_DNSName c)) eqn:He; [by apply Hf|done].
Qed.

Lemma evolves_refresh (tup : Tuple) (e : ConnectEvent) (now : Time.time) (p : nat) (t : Table) :
  (∀ c, t_conns t !! tup = Some p → Lookup tup t = Some c → R c (owned e now c)) → evolves R tup t (refresh e now p t).
Proof.
  intros Hf. transitivity (mutate p (owned e now) t); [by apply evolves_mutate|].
  destruct (refresh_other e now p t) as (Hh & Hc & _). by apply evolves_same.
Qed.

(** a row that was there is found unchanged, or was evicted *)
Lemma evolves_find (cap : Z) (fresh : Conn) (t t' : Table) (p : nat) (tup : Tuple) :
  cn_PID fresh = 0%Z → good cap t → find_row ord fresh t = (Some p, t') → tup ≠ cn_Tuple fresh ∨ is_Some (t_conns t !! tup) →
  evolves R tup t t'.
Proof.
  intros H0 Hg Hf Ht. destruct (find_row_good cap fresh t H0 Hg) as (p' & u & Hf' & _ & _ & Hl).
  assert (u = t') as -> by congruence. intros c' Hc'. destruct (Hl tup Ht) as [Hk|Hk]; [exists c'; by rewrite <-Hk|congruence].
Qed.

Lemma evolves_sweep (tup : Tuple) (now : Time.time) (r i : Time.duration) (ks : list Tuple) (t : Table) (n : Z) :
  (∀ c, terminal (cn_State c) = false → R c (with_state StateTimeout (cn_LastSeen c) now c)) →
  evolves R tup t (foldl (sweep_row now r i) (t, n) ks).1.
Proof.
  intros Hf. revert t n. induction ks as [|k ks IH]; intros t n; [done|]. cbn [foldl].
  destruct (sweep_row now r i (t, n) k) as [u n'] eqn:Hs. transitivity u; [|apply IH]. revert Hs. unfold sweep_row.
  destruct (t_conns t !! k) as [p|] eqn:Hp; [|by intros [= <- <-]]. destruct (t_heap t !! p) as [c|] eqn:Hh; [|by intros [= <- <-]].
  destruct (terminal (cn_State c)) eqn:Ht.
  - destruct (r <=? _)%Z; intros [= <- <-]; [apply evolves_remove|done].
  - destruct ((0 <? i)%Z && _); intros [= <- <-]; [|done].
    transitivity (mutate p (with_state StateTimeout (cn_LastSeen c) now) t); [|by apply evolves_same].
    apply evolves_mutate. intros d Hq Hd. unfold Lookup in Hd. rewrite Hq in Hd. cbn in Hd. assert (d = c) as -> by congruence. by apply Hf.
Qed.

End evolves.

(** *** The first owner keeps the row *)

(** text and numbers that are set stay *)
Record steady (c c' : Conn) : Prop := {
  sd_made : cn_Tuple c' = cn_Tuple c ∧ cn_Direction c' = cn_Direction c ∧ cn_OpenedAt c' = cn_OpenedAt c;
  sd_pid : (cn_PID c ≠ 0 → cn_PID c' = cn_PID c)%Z; sd_ppid : (cn_PPID c ≠ 0 → cn_PPID c' = cn_PPID c)%Z;
  sd_text : Forall (λ f, f c ≠ "" → f c' = f c) [cn_Comm; cn_Exe; cn_ExeSHA; cn_Unit; cn_UserID; cn_DNSName; cn_SNI; cn_ALPN];
  sd_class : cn_Class c ≠ CGUnknown → cn_Class c' = cn_Class c;
  sd_ended : terminal (cn_State c) = true → cn_State c' = cn_State c }.

#[export] Instance steady_preorder : PreOrder steady.
Proof.
  split.
  - intros c. constructor; try done. by repeat constructor.
  - intros c d e [(?&?&?) Hp Hpp Ht Hc He] [(?&?&?) Hp' Hpp' Ht' Hc' He']. constructor.
    + split_and!; congruence.
    + intros Hn. specialize (Hp Hn). rewrite <-Hp. apply Hp'. congruence.
    + intros Hn. specialize (Hpp Hn). rewrite <-Hpp. apply Hpp'. congruence.
    + rewrite Forall_forall in Ht, Ht' |- *. intros f Hf Hn. specialize (Ht f Hf Hn). rewrite <-Ht. apply (Ht' f Hf). congruence.
    + intros Hn. specialize (Hc Hn). rewrite <-Hc. apply Hc'. congruence.
    + intros Hn. specialize (He Hn). rewrite <-He. apply He'. congruence.
Qed.

Lemma or_text_set (s v : string) : s ≠ "" → or_text s v = s.
Proof. intros. unfold or_text, Str.empty. by rewrite bool_decide_false. Qed.

Lemma or_num_set (n v : Z) : n ≠ 0%Z → or_num n v = n.
Proof. intros. unfold or_num. by rewrite (proj2 (Z.eqb_neq _ _)). Qed.

Ltac steady_tac :=
  constructor; cbn; [done|try done; apply or_num_set|try done; apply or_num_set|
                     repeat constructor; cbn; intros; first [done|by apply or_text_set|idtac]|
                     try done; intros; by rewrite bool_decide_false|try done].

Lemma steady_owned (e : ConnectEvent) (now : Time.time) (c : Conn) : steady c (owned e now c).
Proof. steady_tac. Qed.

Lemma steady_counts (o i : Z) (c : Conn) : steady c (with_counts o i c).
Proof. steady_tac. Qed.

Lemma steady_names (q s a : string) (c : Conn) :
  (cn_DNSName c ≠ "" → q = cn_DNSName c) → (cn_SNI c ≠ "" → s = cn_SNI c) → (cn_ALPN c ≠ "" → a = cn_ALPN c) → steady c (with_names q s a c).
Proof. intros. steady_tac; auto. Qed.

Lemma steady_state (s : State) (seen closed : Time.time) (c : Conn) : terminal (cn_State c) = false → steady c (with_state s seen closed c).
Proof. intros. steady_tac. congruence. Qed.

Lemma empty_not (s v : string) : Str.empty s = true → s ≠ "" → v = s.
Proof. unfold Str.empty. intros He%bool_decide_eq_true. congruence. Qed.

(** the calls the daemon makes *)
Definition daemon_call (o : op) : bool :=
  match o with DoConnect _ _ | DoBytes _ _ _ | DoSNI _ _ | DoALPN _ _ | DoRecordDNS _ _ _ _ | DoSweep _ _ _ => true | _ => false end.

Lemma call_steady (cap : Z) (o : op) (t : Table) (tup : Tuple) :
  daemon_call o = true → good cap t → is_Some (t_conns t !! tup) → evolves steady tup t (call ord t o).
Proof.
  intros Hd Hg Ht. pose proof (go_ok _ _ Hg) as Hok.
  destruct o as [clock e|clock e|k w|k w|k w|k q|k d n|k s|k a|pid q ips now|now r i]; try discriminate Hd; cbn [call].
  - unfold OnConnect. destruct (find_row ord _ t) as [[p|] u] eqn:Hf.
    2: destruct (find_row_good cap (new_conn (ce_Tuple e) DirOutbound StateNew (connect_time e clock)) t eq_refl Hg) as (? & ? & ? & _); congruence.
    transitivity u; [exact (evolves_find steady cap (new_conn (ce_Tuple e) DirOutbound StateNew (connect_time e clock)) t u p tup eq_refl Hg Hf (or_intror Ht))|].
    transitivity (refresh e (connect_time e clock) p u); [apply evolves_refresh; [apply _|]; intros; apply steady_owned|].
    transitivity (mutate p known_state (refresh e (connect_time e clock) p u)).
    + apply evolves_mutate_all; [apply _|]. intros c. unfold known_state. case_bool_decide as Hs; [|done]. apply steady_state. by rewrite Hs.
    + apply evolves_hint; [apply _|]. intros c q He. apply steady_names; [by apply empty_not|done|done].
  - unfold UpdateBytes. case_match; [done|]. apply evolves_exact; [apply _| |done]. intros c. unfold add_bytes. case_match; apply steady_counts.
  - unfold AttachSNI. case_match; [done|]. apply evolves_exact; [apply _| |done]. intros c.
    destruct (Str.empty (cn_SNI c)) eqn:He; [|done]. apply steady_names; [done|by apply empty_not|done].
  - unfold AttachALPN. case_match; [done|]. apply evolves_exact; [apply _| |done]. intros c.
    destruct (Str.empty (cn_ALPN c)) eqn:He; [|done]. apply steady_names; [done|done|by apply empty_not].
  - apply evolves_same; [apply _| |]; unfold RecordDNS; by repeat case_match.
  - apply evolves_sweep; [apply _|]. intros c Hc. by apply steady_state.
Qed.

Definition present (tup : Tuple) (t : Table) : Prop := is_Some (Lookup tup t).

Lemma present_conns (tup : Tuple) (t : Table) : present tup t → is_Some (t_conns t !! tup).
Proof. intros [c (p & Hp & _)%bind_Some]. by eexists. Qed.

Lemma calls_steady (cap : Z) (os : list op) (t : Table) (tup : Tuple) (c c' : Conn) :
  forallb daemon_call os = true → good cap t → (∀ k, present tup (calls ord (take k os) t)) →
  Lookup tup t = Some c → Lookup tup (calls ord os t) = Some c' → steady c c'.
Proof.
  revert t c. induction os as [|o os IH]; intros t c Hd Hg Hp Hc Hc'.
  { cbn in Hc'. by assert (c = c') as -> by congruence. }
  cbn [forallb] in Hd. apply andb_prop in Hd as [Ho Hd]. destruct (Hp 1) as [d Hd1]. change (calls ord (take 1 (o :: os)) t) with (call ord t o) in Hd1.
  destruct (call_steady cap o t tup Ho Hg (present_conns tup t (Hp 0)) d Hd1) as (e & He & Hed).
  assert (e = c) as -> by congruence. etrans; [exact Hed|].
  apply (IH (call ord t o)); [done|by apply call_good|intros k; exact (Hp (S k))|done|exact Hc'].
Qed.

(** As long as a row stays in the table, the calls the daemon makes change
    nothing in it that was set: another process that connects to the same
    address through the same key is not recorded, neither in the row nor under
    its own number, and a row that has timed out stays timed out however often
    the address is connected to again. *)
Theorem row_keeps_first_owner (cap : Z) (os os' : list op) (tup : Tuple) (c c' : Conn) :
  let t := calls ord os (New cap) in
  forallb daemon_call os' = true → (∀ k, present tup (calls ord (take k os') t)) →
  Lookup tup t = Some c → Lookup tup (calls ord os' t) = Some c' →
  steady c c' ∧
  (cn_PID c ≠ 0%Z → ∀ pid, pid ≠ cn_PID c → Forall (λ d, cn_Tuple d ≠ tup) (SnapshotByPID ord pid (calls ord os' t))).
Proof.
  intros t Hd Hp Hc Hc'. pose proof (calls_good _ os _ (New_good cap)) as Hg. fold t in Hg. clearbody t.
  pose proof (calls_steady _ os' t tup c c' Hd Hg Hp Hc Hc') as Hst. split; [done|]. intros Hn pid Hpid.
  apply Forall_forall. intros d Hin Ht. pose proof (go_ok _ _ (calls_good _ os' t Hg)) as Hok.
  unfold SnapshotByPID in Hin. rewrite by_opened_perm in Hin. apply elem_rows in Hin as (k & p & Hk & Hh).
  assert (indexed (calls ord os' t) pid k = Some p) as Hi by (unfold indexed; by destruct (t_byPID (calls ord os' t) !! pid)).
  apply (ok_index _ Hok) in Hi as (H1 & _ & H3). rewrite Hh in H3. injection H3 as H3.
  destruct (ok_row _ Hok k p H1) as (e & He & Hte). assert (e = d) as -> by congruence. subst k. rewrite Ht in H1.
  unfold Lookup in Hc'. rewrite H1 in Hc'. cbn in Hc'. assert (d = c') as -> by congruence.
  apply Hpid. rewrite <-H3. by apply (sd_pid _ _ Hst).
Qed.

(** *** Nothing but a connect keeps a row alive *)

Definition idle (c c' : Conn) : Prop :=
  cn_LastSeen c' = cn_LastSeen c ∧ (terminal (cn_State c) = true → terminal (cn_State c') = true).

#[export] Instance idle_preorder : PreOrder idle.
Proof. split; [by intros c|]. intros c d e [H1 H2] [H3 H4]. split; [congruence|auto]. Qed.

(** calls that are not a connect, accept or change of state of that tuple *)
Definition quiet (tup : Tuple) (o : op) : Prop :=
  match o with
  | DoConnect _ e | DoAccept _ e => ce_Tuple e ≠ tup
  | DoEstablished k _ | DoClose k _ | DoReset k _ => k ≠ tup
  | _ => True
  end.

#[export] Instance quiet_dec (tup : Tuple) (o : op) : Decision (quiet tup o).
Proof. destruct o; cbn; apply _. Defined.

Lemma evolves_found (cap : Z) (fresh : Conn) (t u : Table) (p : nat) (tup : Tuple) (e : ConnectEvent) (now : Time.time) :
  cn_PID fresh = 0%Z → good cap t → find_row ord fresh t = (Some p, u) → cn_Tuple fresh ≠ tup → evolves idle tup t (refresh e now p u).
Proof.
  intros H0 Hg Hf Hne. transitivity u; [by eapply evolves_find; [apply _|done|exact Hg|exact Hf|left]|].
  apply evolves_refresh; [apply _|]. intros c Hp Hc. destruct (find_row_good cap fresh t H0 Hg) as (q & v & Hf' & Hgv & Hq & _).
  assert (v = u ∧ q = p) as [-> ->] by (split; congruence). pose proof (go_ok _ _ Hgv) as Hok.
  destruct (ok_row _ Hok _ _ Hp) as (d & Hd & Ht). destruct (ok_row _ Hok _ _ Hq) as (d' & Hd' & Ht'). congruence.
Qed.

Lemma end_row_idle (s : State) (k tup : Tuple) (w : Time.time) (t : Table) :
  k ≠ tup → table_ok t → evolves idle tup t (end_row s k w t).
Proof.
  intros Hk Hok. unfold end_row. destruct (t_conns t !! k) as [p|] eqn:Hp; [|done].
  transitivity (at_row k (with_state s w w) t); [apply evolves_at_row; [apply _|by intros ->|done]|].
  unfold at_row. rewrite Hp. apply evolves_same; [apply _|done..].
Qed.

Lemma call_idle (cap : Z) (o : op) (t : Table) (tup : Tuple) : quiet tup o → good cap t → evolves idle tup t (call ord t o).
Proof.
  intros Hq Hg. pose proof (go_ok _ _ Hg) as Hok.
  destruct o as [clock e|clock e|k w|k w|k w|k q|k d n|k s|k a|pid q ips now|now r i]; cbn [call quiet] in *.
  - unfold OnConnect. destruct (find_row ord _ t) as [[p|] u] eqn:Hf.
    2: destruct (find_row_good cap (new_conn (ce_Tuple e) DirOutbound StateNew (connect_time e clock)) t eq_refl Hg) as (? & ? & ? & _); congruence.
    transitivity (refresh e (connect_time e clock) p u).
    { exact (evolves_found cap (new_conn (ce_Tuple e) DirOutbound StateNew (connect_time e clock)) t u p tup e _ eq_refl Hg Hf Hq). }
    transitivity (mutate p known_state (refresh e (connect_time e clock) p u)).
    + apply evolves_mutate_all; [apply _|]. intros c. unfold known_state. case_bool_decide as Hs; [|done]. split; [done|]. by rewrite Hs.
    + by apply evolves_hint; [apply _|].
  - unfold OnAccept. destruct (find_row ord _ t) as [[p|] u] eqn:Hf.
    2: destruct (find_row_good cap (new_conn (ce_Tuple e) DirInbound StateEstablished (connect_time e clock)) t eq_refl Hg) as (? & ? & ? & _); congruence.
    exact (evolves_found cap (new_conn (ce_Tuple e) DirInbound StateEstablished (connect_time e clock)) t u p tup e _ eq_refl Hg Hf Hq).
  - apply evolves_at_row; [apply _|by intros ->|done].
  - by apply end_row_idle.
  - by apply end_row_idle.
  - apply evolves_at_row; [apply _| |done]. intros _ c _. by destruct (Str.empty (cn_DNSName c)).
  - unfold UpdateBytes. case_match; [done|]. apply evolves_exact; [apply _| |done]. intros c. unfold add_bytes. by case_match.
  - unfold AttachSNI. case_match; [done|]. apply evolves_exact; [apply _| |done]. intros c. by destruct (Str.empty (cn_SNI c)).
  - unfold AttachALPN. case_match; [done|]. apply evolves_exact; [apply _| |done]. intros c. by destruct (Str.empty (cn_ALPN c)).
  - apply evolves_same; [apply _| |]; unfold RecordDNS; by repeat case_match.
  - apply evolves_sweep; [apply _|]. by intros c Hc.
Qed.

Lemma calls_idle (cap : Z) (os : list op) (t : Table) (tup : Tuple) :
  Forall (quiet tup) os → good cap t → evolves idle tup t (calls ord os t).
Proof.
  intros Hq. revert t. induction Hq as [|o os Ho _ IH]; intros t Hg; [done|].
  transitivity (call ord t o); [by eapply call_idle|]. apply IH. by apply call_good.
Qed.

(** the turn of a sweep that reaches the tuple *)
Lemma sweep_idle (tup : Tuple) (now : Time.time) (r i : Time.duration) (ks : list Tuple) (t : Table) (n : Z) :
  evolves idle tup t (foldl (sweep_row now r i) (t, n) ks).1.
Proof. apply evolves_sweep; [apply _|]. by intros c Hc. Qed.

Lemma sweep_split (tup : Tuple) (now : Time.time) (r i : Time.duration) (t : Table) (c : Conn) :
  table_ok t → Lookup tup t = Some c → ∃ u n, evolves idle tup t u ∧ evolves idle tup (sweep_row now r i (u, n) tup).1 (Sweep ord now r i t).1.
Proof.
  intros Hok (p & Hp & _)%bind_Some. assert (tup ∈ ord (t_conns t)) as Hin by (apply Hord; by eexists).
  apply list_elem_of_split in Hin as (k1 & k2 & Hk). unfold Sweep. rewrite Hk, foldl_app. cbn [foldl].
  destruct (foldl (sweep_row now r i) (t, 0%Z) k1) as [u n] eqn:Hu. exists u, n. split.
  - replace u with (foldl (sweep_row now r i) (t, 0%Z) k1).1 by (by rewrite Hu). apply sweep_idle.
  - destruct (sweep_row now r i (u, n) tup) as [v m]. apply sweep_idle.
Qed.

(** a row idle for long enough is ended by a sweep, and an ended one removed *)
Lemma sweep_ends (tup : Tuple) (now : Time.time) (r i : Time.duration) (t : Table) (c c' : Conn) :
  table_ok t → Lookup tup t = Some c → (0 < i)%Z → (i ≤ Time.Sub now (cn_LastSeen c))%Z →
  Lookup tup (Sweep ord now r i t).1 = Some c' → terminal (cn_State c') = true.
Proof.
  intros Hok Hc Hi Hle Hc'. destruct (sweep_split tup now r i t c Hok Hc) as (u & n & Hu & Hv).
  destruct (Hv c' Hc') as (d & Hd & _ & Hdt). apply Hdt. clear Hv Hdt Hc' c'. revert Hd. unfold sweep_row.
  destruct (t_conns u !! tup) as [p|] eqn:Hp; [|unfold Lookup; cbn; by rewrite Hp].
  destruct (t_heap u !! p) as [e|] eqn:He; [|unfold Lookup; cbn; rewrite Hp; cbn; by rewrite He].
  assert (Lookup tup u = Some e) as Hlu by (unfold Lookup; by rewrite Hp). destruct (Hu e Hlu) as (c0 & Hc0 & Hls & _).
  assert (c0 = c) as -> by congruence. destruct (terminal (cn_State e)) eqn:Ht.
  - destruct (r <=? _)%Z; cbn [fst]; [|intros; congruence]. unfold Lookup. rewrite removeLocked_conns, lookup_delete_eq. done.
  - rewrite Hls, (proj2 (Z.ltb_lt _ _)), (proj2 (Z.leb_le _ _)) by done. unfold Lookup. cbn. rewrite Hp. cbn.
    rewrite lookup_alter_eq, He. by intros [= <-].
Qed.

Lemma sweep_removes (tup : Tuple) (now : Time.time) (r i : Time.duration) (t : Table) (c : Conn) :
  table_ok t → Lookup tup t = Some c → terminal (cn_State c) = true → (r ≤ Time.Sub now (cn_LastSeen c))%Z →
  Lookup tup (Sweep ord now r i t).1 = None.
Proof.
  intros Hok Hc Ht Hle. destruct (sweep_split tup now r i t c Hok Hc) as (u & n & Hu & Hv).
  destruct (Lookup tup (Sweep ord now r i t).1) as [c'|] eqn:Hc'; [|done]. destruct (Hv c' Hc') as (d & Hd & _). exfalso. revert Hd. clear Hv.
  unfold sweep_row. destruct (t_conns u !! tup) as [p|] eqn:Hp; [|unfold Lookup; cbn; by rewrite Hp].
  destruct (t_heap u !! p) as [e|] eqn:He; [|unfold Lookup; cbn; rewrite Hp; cbn; by rewrite He].
  assert (Lookup tup u = Some e) as Hlu by (unfold Lookup; by rewrite Hp). destruct (Hu e Hlu) as (c0 & Hc0 & Hls & Hte).
  assert (c0 = c) as -> by congruence. rewrite Hte by done. rewrite Hls, (proj2 (Z.leb_le _ _)) by done.
  unfold Lookup. cbn [fst]. by rewrite removeLocked_conns, lookup_delete_eq.
Qed.

(** the row, if there is one, was last seen by [T], and has ended *)
Definition seen_by (T : Time.time) (tup : Tuple) (t : Table) : Prop := ∀ c, Lookup tup t = Some c → (cn_LastSeen c ≤ T)%Z.
Definition ended (tup : Tuple) (t : Table) : Prop := ∀ c, Lookup tup t = Some c → terminal (cn_State c) = true.

(** no call that concerns the row carries a time after [T] *)
Definition touched_by (T : Time.time) (tup : Tuple) (o : op) : Prop :=
  match o with
  | DoConnect clock e | DoAccept clock e => ce_Tuple e = tup → (connect_time e clock ≤ T)%Z
  | DoEstablished k w | DoClose k w | DoReset k w => k = tup → (w ≤ T)%Z
  | _ => True
  end.

(** and none opens it again *)
Definition not_reopened (T : Time.time) (tup : Tuple) (o : op) : Prop :=
  match o with
  | DoConnect _ e | DoAccept _ e => ce_Tuple e ≠ tup
  | DoEstablished k _ => k ≠ tup
  | DoClose k w | DoReset k w => k = tup → (w ≤ T)%Z
  | _ => True
  end.

#[export] Instance touched_by_dec (T : Time.time) (tup : Tuple) (o : op) : Decision (touched_by T tup o).
Proof. destruct o; cbn; apply _. Defined.

#[export] Instance not_reopened_dec (T : Time.time) (tup : Tuple) (o : op) : Decision (not_reopened T tup o).
Proof. destruct o; cbn; apply _. Defined.

Lemma idle_seen (T : Time.time) (tup : Tuple) (t t' : Table) : evolves idle tup t t' → seen_by T tup t → seen_by T tup t'.
Proof. intros He Ht c' Hc'. destruct (He c' Hc') as (c & Hc & Hls & _). rewrite Hls. by apply Ht. Qed.

Lemma idle_ended (tup : Tuple) (t t' : Table) : evolves idle tup t t' → ended tup t → ended tup t'.
Proof. intros He Ht c' Hc'. destruct (He c' Hc') as (c & Hc & _ & Hte). by apply Hte, Ht. Qed.

(** a write to the row itself *)
Lemma Lookup_mutate (tup : Tuple) (p : nat) (f : Conn → Conn) (t : Table) (c' : Conn) :
  t_conns t !! tup = Some p → Lookup tup (mutate p f t) = Some c' → ∃ c, c' = f c.
Proof.
  intros Hp. unfold Lookup. cbn. rewrite Hp. cbn. rewrite lookup_alter_eq. destruct (t_heap t !! p) as [c|]; [|done].
  intros [= <-]. by exists c.
Qed.

Lemma connected_seen (cap : Z) (fresh : Conn) (t u : Table) (p : nat) (e : ConnectEvent) (now T : Time.time) :
  cn_PID fresh = 0%Z → good cap t → find_row ord fresh t = (Some p, u) → (now ≤ T)%Z → seen_by T (cn_Tuple fresh) (refresh e now p u).
Proof.
  intros H0 Hg Hf Hn c. destruct (find_row_good cap fresh t H0 Hg) as (q & v & Hf' & _ & Hq & _).
  assert (v = u ∧ q = p) as [-> ->] by (split; congruence). destruct (refresh_other e now p u) as (Hh & Hc & _).
  unfold Lookup. rewrite Hh, Hc. intros Hl. destruct (Lookup_mutate (cn_Tuple fresh) p (owned e now) u c Hq Hl) as [d ->]. done.
Qed.

Lemma at_row_seen (T w : Time.time) (st : State) (g : Conn → Time.time) (tup : Tuple) (t : Table) :
  (w ≤ T)%Z → seen_by T tup t → seen_by T tup (at_row tup (λ c, with_state st w (g c) c) t).
Proof.
  intros Hw Ht. unfold at_row. destruct (t_conns t !! tup) as [p|] eqn:Hp; [|done].
  intros c Hc. by destruct (Lookup_mutate tup p _ t c Hp Hc) as [d ->].
Qed.

Lemma end_row_at_row (st : State) (tup k : Tuple) (w : Time.time) (t : Table) :
  Lookup k (end_row st tup w t) = Lookup k (at_row tup (with_state st w w) t).
Proof. unfold end_row, at_row. by destruct (t_conns t !! tup). Qed.

Lemma end_row_ended (st : State) (tup : Tuple) (w : Time.time) (t : Table) : terminal st = true → ended tup (end_row st tup w t).
Proof.
  intros Hst c. rewrite end_row_at_row. unfold at_row. destruct (t_conns t !! tup) as [p|] eqn:Hp.
  - intros Hc. by destruct (Lookup_mutate tup p _ t c Hp Hc) as [d ->].
  - unfold Lookup. by rewrite Hp.
Qed.

Lemma call_seen (cap : Z) (T : Time.time) (tup : Tuple) (o : op) (t : Table) :
  touched_by T tup o → good cap t → seen_by T tup t → seen_by T tup (call ord t o).
Proof.
  intros Ho Hg Ht. destruct (decide (quiet tup o)) as [Hq|Hq]; [by eapply idle_seen; [eapply call_idle|]|].
  destruct o as [clock e|clock e|k w|k w|k w|k q|k d n|k s|k a|pid q ips now|now r i]; cbn [call quiet touched_by] in *;
    try done; apply dec_stable in Hq.
  - unfold OnConnect. destruct (find_row ord _ t) as [[p|] u] eqn:Hf.
    2: destruct (find_row_good cap (new_conn (ce_Tuple e) DirOutbound StateNew (connect_time e clock)) t eq_refl Hg) as (? & ? & ? & _); congruence.
    apply (idle_seen T tup (refresh e (connect_time e clock) p u)).
    + transitivity (mutate p known_state (refresh e (connect_time e clock) p u)); [|by apply evolves_hint; [apply _|]].
      apply evolves_mutate_all; [apply _|]. intros c. unfold known_state. case_bool_decide as Hs; [|done]. split; [done|]. by rewrite Hs.
    + rewrite <- Hq.
      exact (connected_seen cap (new_conn (ce_Tuple e) DirOutbound StateNew (connect_time e clock)) t u p e _ T eq_refl Hg Hf (Ho Hq)).
  - unfold OnAccept. destruct (find_row ord _ t) as [[p|] u] eqn:Hf.
    2: destruct (find_row_good cap (new_conn (ce_Tuple e) DirInbound StateEstablished (connect_time e clock)) t eq_refl Hg) as (? & ? & ? & _); congruence.
    rewrite <- Hq.
    exact (connected_seen cap (new_conn (ce_Tuple e) DirInbound StateEstablished (connect_time e clock)) t u p e _ T eq_refl Hg Hf (Ho Hq)).
  - subst k. by apply at_row_seen; [apply Ho|].
  - subst k. intros c. unfold OnClose. rewrite end_row_at_row. by apply (at_row_seen T w StateClosed (λ _, w)); [apply Ho|].
  - subst k. intros c. unfold OnReset. rewrite end_row_at_row. by apply (at_row_seen T w StateReset (λ _, w)); [apply Ho|].
Qed.

Lemma not_reopened_touched (T : Time.time) (tup : Tuple) (o : op) : not_reopened T tup o → touched_by T tup o.
Proof. destruct o; cbn; intros Hn; first [done|intros He; by destruct (Hn He)]. Qed.

Lemma call_ended (cap : Z) (T : Time.time) (tup : Tuple) (o : op) (t : Table) :
  not_reopened T tup o → good cap t → ended tup t → ended tup (call ord t o).
Proof.
  intros Ho Hg Ht. destruct (decide (quiet tup o)) as [Hq|Hq]; [by eapply idle_ended; [eapply call_idle|]|].
  destruct o; cbn [call quiet not_reopened] in *; try done; apply dec_stable in Hq; subst; by apply end_row_ended.
Qed.

Lemma calls_seen (cap : Z) (T : Time.time) (tup : Tuple) (os : list op) : ∀ t,
  Forall (touched_by T tup) os → good cap t → seen_by T tup t → seen_by T tup (calls ord os t).
Proof.
  induction os as [|o os IH]; intros t Ho Hg Ht; [done|]. apply Forall_cons in Ho as [Ho Hos]. cbn.
  apply IH; [done|by apply call_good|by eapply call_seen].
Qed.

Lemma calls_ended (cap : Z) (T : Time.time) (tup : Tuple) (os : list op) : ∀ t,
  Forall (not_reopened T tup) os → good cap t → ended tup t → ended tup (calls ord os t).
Proof.
  induction os as [|o os IH]; intros t Ho Hg Ht; [done|]. apply Forall_cons in Ho as [Ho Hos]. cbn.
  apply IH; [done|by apply call_good|by eapply call_ended].
Qed.

Lemma Sub_earlier (now a b : Time.time) : (a ≤ b)%Z → (Time.Sub now b ≤ Time.Sub now a)%Z.
Proof. unfold Time.Sub. lia. Qed.

(** C34: A row is gone after two sweeps, the first at least the idle time and the
    second at least the retention after an instant, if it was last seen by then, no
    connect, accept, establishment, close or reset of it carries a later time, and
    it is not connected to, accepted or established again between the two sweeps.
    Every other call is free: bytes counted on the flow, names attached to it, other
    rows and other sweeps do not keep it. *)
Theorem idle_row_is_reaped (cap : Z) (os os1 os2 : list op) (tup : Tuple) (T now1 now2 : Time.time) (r1 i1 r2 i2 : Time.duration) :
  let t := calls ord os (New cap) in
  seen_by T tup t → Forall (touched_by T tup) os1 → Forall (not_reopened T tup) os2 → (0 < i1)%Z →
  (i1 ≤ Time.Sub now1 T)%Z → (r2 ≤ Time.Sub now2 T)%Z →
  Lookup tup (calls ord (os1 ++ DoSweep now1 r1 i1 :: os2 ++ [DoSweep now2 r2 i2]) t) = None.
Proof.
  intros t Ht Ho1 Ho2 Hi H1 H2. pose proof (calls_good _ os _ (New_good cap)) as Hg. fold t in Hg. clearbody t.
  unfold calls. rewrite foldl_app. cbn [foldl]. rewrite foldl_app. fold (calls ord os1 t). cbn [foldl].
  pose proof (calls_good _ os1 t Hg) as Hga. pose proof (calls_seen _ T tup os1 t Ho1 Hg Ht) as Ha.
  set (a := calls ord os1 t) in *. clearbody a.
  pose proof (call_good _ (DoSweep now1 r1 i1) a Hga) as Hgb. pose proof (call_idle _ (DoSweep now1 r1 i1) a tup I Hga) as Hab.
  pose proof (idle_seen T tup _ _ Hab Ha) as Hb.
  assert (He : ended tup (call ord a (DoSweep now1 r1 i1))).
  { intros c' Hc'. destruct (Hab c' Hc') as (c & Hc & _). apply (sweep_ends tup now1 r1 i1 a c c' (go_ok _ _ Hga) Hc Hi); [|exact Hc'].
    etrans; [exact H1|]. by apply Sub_earlier, Ha. }
  set (b := call ord a (DoSweep now1 r1 i1)) in *. clearbody b. fold (calls ord os2 b).
  pose proof (calls_good _ os2 b Hgb) as Hgd. pose proof (calls_ended _ T tup os2 b Ho2 Hgb He) as Hed.
  assert (Hd : seen_by T tup (calls ord os2 b)).
  { apply (calls_seen (t_cap (New cap)) T tup os2 b); [|exact Hgb|exact Hb]. eapply Forall_impl; [exact Ho2|]. apply not_reopened_touched. }
  set (d := calls ord os2 b) in *. clearbody d. destruct (Lookup tup d) as [c|] eqn:Hc.
  - apply (sweep_removes tup now2 r2 i2 d c (go_ok _ _ Hgd) Hc); [by apply Hed|]. etrans; [exact H2|]. by apply Sub_earlier, Hd.
  - destruct (Lookup tup (call ord d (DoSweep now2 r2 i2))) as [ce|] eqn:Hce; [|done].
    destruct (call_idle _ (DoSweep now2 r2 i2) d tup I Hgd ce Hce) as (cd & Hcd' & _). congruence.
Qed.
End order.

(** ** Two processes, one address *)

Module Demo.
Definition site : Addr := Addr4 [93; 184; 216; 34]%Z.
Definition key (sport : Z) : Tuple :=
  {| tu_Proto := ProtoTCP; tu_SrcAddr := None; tu_SrcPort := sport; tu_DstAddr := Some site; tu_DstPort := 443 |}.
Definition event (at_ pid : Z) (comm : string) : ConnectEvent := {|
  ce_Time := at_; ce_PID := pid; ce_PPID := 1; ce_Comm := comm; ce_Exe := ""; ce_ExeSHA := ""; ce_Class := CGUser; ce_Unit := "";
  ce_UserID := "1000"; ce_Tuple := key 0 |}.
Definition first : list op := [DoConnect 0 (event 1000 4242 "firefox")].
Definition second : list op := [DoConnect 0 (event 2000 5151 "implant"); DoSNI (key 51000) "c2.example"].
Definition order : gmap Tuple nat → list Tuple := some_order.
Definition settled : Table := calls order first (New 0).
Definition joined : Table := calls order second settled.
Definition sample : Conn := new_conn (key 0) DirOutbound StateNew 0.
Definition row_at (t : Table) : Conn := default sample (Lookup (key 0) t).
End Demo.

(** the name the second process asked for is found for the first *)
Lemma row_keeps_first_owner_witness :
  let t' := calls Demo.order Demo.second (calls Demo.order Demo.first (New 0)) in
  steady (Demo.row_at Demo.settled) (Demo.row_at Demo.joined) ∧ cn_PID (Demo.row_at Demo.joined) = 4242%Z ∧
  lookupSNIFromConnstate Demo.order 4242 "93.184.216.34" 443 t' = "c2.example" ∧
  lookupSNIFromConnstate Demo.order 5151 "93.184.216.34" 443 t' = "" ∧
  Forall (λ d, cn_Tuple d ≠ Demo.key 0) (SnapshotByPID Demo.order 5151 t').
Proof.
  intros t'. pose proof (row_keeps_first_owner Demo.order (λ m, some_order_ok m) 0 Demo.first Demo.second (Demo.key 0)
    (Demo.row_at Demo.settled) (Demo.row_at Demo.joined)) as H.
  destruct H as [Hs Hf].
  - reflexivity.
  - intros [|[|[|k]]]; (eexists; vm_compute; reflexivity).
  - vm_compute. reflexivity.
  - vm_compute. reflexivity.
  - split_and!; [exact Hs|vm_compute; reflexivity..|]. apply Hf; vm_compute; discriminate.
Defined.

(** bytes are counted and the row is established once more before the last instant *)
Lemma idle_row_is_reaped_witness :
  cn_BytesOut (Demo.row_at (calls Demo.order [DoBytes (Demo.key 0) 0 700] Demo.settled)) = 700%Z ∧
  cn_State (Demo.row_at (calls Demo.order [DoEstablished (Demo.key 0) 1500] Demo.settled)) = StateEstablished ∧
  Lookup (Demo.key 0) (calls Demo.order
    ([DoEstablished (Demo.key 0) 1500; DoBytes (Demo.key 0) 0 700] ++ DoSweep (1500 + 31 * Time.Minute) (2 * Time.Minute) (30 * Time.Minute) ::
     [DoBytes (Demo.key 0) 0 700; DoClose (Demo.key 0) 1400] ++
     [DoSweep (1500 + 32 * Time.Minute) (2 * Time.Minute) (30 * Time.Minute)]) Demo.settled) = None.
Proof.
  split; [vm_compute; reflexivity|]. split; [vm_compute; reflexivity|].
  refine (idle_row_is_reaped Demo.order (λ m, some_order_ok m) 0 Demo.first _ _ (Demo.key 0) 1500 _ _ _ _ _ _ _ _ _ _ _ _).
  - intros c Hc. assert (c = Demo.row_at Demo.settled) as -> by (unfold Demo.row_at, Demo.settled; by rewrite Hc). vm_compute. discriminate.
  - apply (bool_decide_unpack _). vm_compute. exact I.
  - apply (bool_decide_unpack _). vm_compute. exact I.
  - reflexivity.
  - vm_compute. discriminate.
  - vm_compute. discriminate.
Defined.

(** a third connect is made room for *)
Lemma table_bounded_witness :
  let os := [DoConnect 0 (Demo.event 1000 4242 "a"); DoConnect 0 {| ce_Time := 2000; ce_PID := 7; ce_PPID := 1; ce_Comm := "b"; ce_Exe := "";
    ce_ExeSHA := ""; ce_Class := CGUser; ce_Unit := ""; ce_UserID := ""; ce_Tuple := Demo.key 2 |}] in
  (Z.of_nat (size (t_conns (calls Demo.order os (New 1)))) ≤ 1)%Z ∧ t_dropped (calls Demo.order os (New 1)) = 0%Z.
Proof. intros os. exact (table_bounded Demo.order (λ m, some_order_ok m) 1 os). Defined.

Lemma index_agrees_witness :
  let t := calls Demo.order (Demo.first ++ Demo.second) (New 0) in
  SnapshotByPID Demo.order 4242 t ≡ₚ filter (λ c, cn_PID c = 4242%Z) (Snapshot Demo.order t) ∧
  length (SnapshotByPID Demo.order 4242 t) = 1.
Proof.
  intros t. split; [|vm_compute; reflexivity].
  exact (index_agrees Demo.order (λ m, some_order_ok m) 0 (Demo.first ++ Demo.second) 4242 ltac:(discriminate)).
Defined.
