(* ===== verification/Verdict.v ===== *)
(** * The verdict engine (src/pkg/verdict, src/pkg/policy, src/pkg/knowngood,
    src/pkg/telemetrycorpus, src/cmd/xhelix/verdict_wiring.go)

    A connection goes through a chain of layers, the first that decides wins:
    the operator's policy, the telemetry catalogue and the catalogue of known
    services, as the daemon builds them.  The policy is read from a file that is
    watched; verdicts asked for by the user interface are cached.

    The order [sort.Slice] leaves equal elements in, the order of map ranges, the
    clock, the file system and the YAML package are arguments. *)

From S2P Require Import Prelude GoStd Bytes NetIP CIDR Prefix CGroupClass ConnState.

(** ** Prefix sets (cidr.go) *)

Record labelled := { lb_p : Prefix; lb_label : string }.

Record CIDREntry := { cd_CIDR : string; cd_Label : string }.

Record CIDRSet := { cs_v4 : list labelled; cs_v6 : list labelled }.

(** [sort.Slice] by descending length *)
Definition longer (a b : labelled) : Prop := (pf_bits (lb_p b) ≤ pf_bits (lb_p a))%Z.

#[export] Instance longer_dec : RelDecision longer.
Proof. intros a b. unfold longer. apply _. Defined.
#[export] Instance longer_total : Total longer.
Proof. intros a b. unfold longer. lia. Qed.
#[export] Instance longer_trans : Transitive longer.
Proof. intros a b c. unfold longer. lia. Qed.

Definition sorts (srt : list labelled → list labelled) : Prop := ∀ l, srt l ≡ₚ l ∧ StronglySorted longer (srt l).

Definition parse_entries (entries : list CIDREntry) : list labelled :=
  omap (λ e, p ← ParsePrefix (cd_CIDR e); Some {| lb_p := p; lb_label := cd_Label e |}) entries.

Definition NewCIDRSet (srt : list labelled → list labelled) (entries : list CIDREntry) : CIDRSet :=
  let ps := parse_entries entries in {|
  cs_v4 := srt (filter (λ x, Is4 (pf_ip (lb_p x)) = true) ps); cs_v6 := srt (filter (λ x, ¬ Is4 (pf_ip (lb_p x)) = true) ps) |}.

Definition cs_Lookup (ip : string) (c : CIDRSet) : string :=
  match ParseAddr (Str.TrimSpace ip) with
  | None => ""
  | Some addr =>
      match List.find (λ e, pf_Contains (lb_p e) addr) (if Is6 addr then cs_v6 c else cs_v4 c) with
      | Some e => lb_label e
      | None => ""
      end
  end.

Definition cs_Size (c : CIDRSet) : Z * Z := (Z.of_nat (length (cs_v4 c)), Z.of_nat (length (cs_v6 c))).

(** ** The engine (verdict.go) *)

Definition ActionAllow : string := "allow".
Definition ActionPrompt : string := "prompt".
Definition ActionDeny : string := "deny".

Record Reason := { rs_Layer : string; rs_RuleID : string; rs_Note : string }.

Record EngineVerdict := {
  vd_Action : string; vd_Confidence : Z; vd_Layer : string; vd_Reasons : list Reason; vd_AnalysedAt : Time.time; vd_Level : Z }.

(** the input of a decision *)
Record Query := {
  q_PID : Z; q_Comm : string; q_Exe : string; q_ExeSHA : string; q_UID : string; q_DstIP : string; q_DstPort : Z; q_DNSName : string;
  q_SNI : string; q_Proto : string; q_Country : string; q_ASN : Z; q_ASNName : string }.

(** a layer's answer: whether it decides, the action, the confidence, the trace *)
Definition layer_answer : Type := bool * string * Z * list Reason.
Definition undecided : layer_answer := (false, "", 0%Z, []).

(** the interface of a layer *)
Record Layer := { ly_Name : string; ly_Eval : Query → layer_answer }.

Record Engine := { en_layers : list Layer; en_SkipLayers : option (list string); en_Level : option Z }.

Definition new_engine (layers : list Layer) : Engine := {| en_layers := layers; en_SkipLayers := None; en_Level := None |}.

Definition en_Add (l : Layer) (e : Engine) : Engine :=
  {| en_layers := en_layers e ++ [l]; en_SkipLayers := en_SkipLayers e; en_Level := en_Level e |}.

Fixpoint run_layers (skip : list string) (level : Z) (now : Time.time) (c : Query) (layers : list Layer) (trace : list Reason) : EngineVerdict :=
  match layers with
  | [] => {| vd_Action := ActionAllow; vd_Confidence := 35; vd_Layer := "default";
             vd_Reasons := trace ++ [{| rs_Layer := "default"; rs_RuleID := ""; rs_Note := "no layer matched; allowed by default" |}];
             vd_AnalysedAt := now; vd_Level := level |}
  | l :: layers' =>
      if bool_decide (ly_Name l ∈ skip) then run_layers skip level now c layers' trace
      else
        let '(decided, action, conf, reasons) := ly_Eval l c in
        let trace := trace ++ reasons in
        if decided then {| vd_Action := action; vd_Confidence := conf; vd_Layer := ly_Name l; vd_Reasons := trace;
                           vd_AnalysedAt := now; vd_Level := level |}
        else run_layers skip level now c layers' trace
  end.

Definition en_Decide (now : Time.time) (c : Query) (e : Engine) : EngineVerdict :=
  run_layers (default [] (en_SkipLayers e)) (default 1%Z (en_Level e)) now c (en_layers e) [].

Definition MatchHost (pattern host : string) : bool :=
  if Str.empty pattern || Str.empty host then false
  else
    let host := Str.ToLower host in
    let pattern := Str.ToLower pattern in
    if bool_decide (pattern = host) then true
    else if Str.HasPrefix pattern "*." then
      let suffix := Str.from 1 pattern in
      (Str.HasSuffix host suffix && (Str.len suffix <? Str.len host)%nat) || bool_decide (host = Str.from 1 suffix)
    else false.

(** what the layers take for the host: the name the client sends, then the one
    the address was resolved from *)
Definition host_of (c : Query) : string := if Str.empty (q_SNI c) then q_DNSName c else q_SNI c.

(** ** Known services (knowngood.go, seed.go, cidrs.go) *)

Record KnownGood := { kg_Pattern : string; kg_Category : string; kg_Confidence : string; kg_ASN : Z; kg_Note : string }.

Definition known_good (p c f : string) (asn : Z) (n : string) : KnownGood :=
  {| kg_Pattern := p; kg_Category := c; kg_Confidence := f; kg_ASN := asn; kg_Note := n |}.

Record Corpus := { co_hostRules : list KnownGood; co_asnRules : gmap Z KnownGood; co_cidrs : CIDRSet; co_cidrSeeds : list CIDREntry }.

Section corpus.
Context (srt : list labelled → list labelled).

Definition new_corpus : Corpus := {| co_hostRules := []; co_asnRules := ∅; co_cidrs := NewCIDRSet srt []; co_cidrSeeds := [] |}.

Definition AddCIDR (cidr label : string) (c : Corpus) : Corpus :=
  let seeds := co_cidrSeeds c ++ [{| cd_CIDR := cidr; cd_Label := label |}] in
  {| co_hostRules := co_hostRules c; co_asnRules := co_asnRules c; co_cidrs := NewCIDRSet srt seeds; co_cidrSeeds := seeds |}.

Definition LookupIP (ip : string) (c : Corpus) : string := cs_Lookup ip (co_cidrs c).

Definition co_Add (e : KnownGood) (c : Corpus) : Corpus :=
  {| co_hostRules := if Str.empty (kg_Pattern e) then co_hostRules c else co_hostRules c ++ [e];
     co_asnRules := if (kg_ASN e =? 0)%Z then co_asnRules c else <[kg_ASN e := e]> (co_asnRules c);
     co_cidrs := co_cidrs c; co_cidrSeeds := co_cidrSeeds c |}.

Definition co_Lookup (host : string) (asn : Z) (c : Corpus) : option KnownGood :=
  match (if Str.empty host then None else List.find (λ e, MatchHost (kg_Pattern e) host) (co_hostRules c)) with
  | Some e => Some e
  | None => if (asn =? 0)%Z then None else co_asnRules c !! asn
  end.

Definition known_answer (e : KnownGood) : layer_answer :=
  (true, ActionAllow, if bool_decide (kg_Confidence e = "likely") then 20%Z else 10%Z,
   [{| rs_Layer := "knowngood"; rs_RuleID := "kg." +:+ kg_Category e;
       rs_Note := "matched " +:+ (kg_Pattern e +:+ (" (" +:+ (kg_Category e +:+ ")"))) |}]).

Definition by_address (k : Corpus) (c : Query) : layer_answer :=
  if Str.empty (q_DstIP c) then undecided
  else
    let label := LookupIP (q_DstIP c) k in
    if Str.empty label then undecided
    else (true, ActionAllow, 25%Z,
          [{| rs_Layer := "knowngood"; rs_RuleID := "kg.cidr"; rs_Note := "matched " +:+ (q_DstIP c +:+ (" in " +:+ label)) |}]).

Definition knowngood_Eval (k : Corpus) (c : Query) : layer_answer :=
  let host := host_of c in
  if negb (Str.empty host) || negb (q_ASN c =? 0)%Z then
    match co_Lookup host (q_ASN c) k with Some e => known_answer e | None => by_address k c end
  else by_address k c.

Definition knowngood_Layer (k : Corpus) : Layer := {| ly_Name := "knowngood"; ly_Eval := knowngood_Eval k |}.

Definition kg_seed : list KnownGood := [
  known_good "*.ubuntu.com" "os-update" "verified" 0 "Ubuntu archives + livepatch";
  known_good "*.canonical.com" "os-update" "verified" 0 "";
  known_good "*.launchpad.net" "os-update" "verified" 0 "";
  known_good "*.snapcraft.io" "os-update" "verified" 0 "Snap store";
  known_good "*.debian.org" "os-update" "verified" 0 "";
  known_good "*.fedoraproject.org" "os-update" "verified" 0 "";
  known_good "*.redhat.com" "os-update" "verified" 0 "";
  known_good "*.centos.org" "os-update" "verified" 0 "";
  known_good "*.archlinux.org" "os-update" "verified" 0 "";
  known_good "*.pool.ntp.org" "time" "verified" 0 "";
  known_good "time.cloudflare.com" "time" "verified" 0 "";
  known_good "time.google.com" "time" "verified" 0 "";
  known_good "one.one.one.one" "dns" "verified" 0 "Cloudflare 1.1.1.1";
  known_good "dns.google" "dns" "verified" 0 "";
  known_good "dns.quad9.net" "dns" "verified" 0 "";
  known_good "*.letsencrypt.org" "tls-pki" "verified" 0 "";
  known_good "*.digicert.com" "tls-pki" "verified" 0 "";
  known_good "*.sectigo.com" "tls-pki" "verified" 0 "";
  known_good "*.pki.goog" "tls-pki" "verified" 0 "";
  known_good "*.docker.io" "package-registry" "verified" 0 "";
  known_good "*.docker.com" "package-registry" "verified" 0 "";
  known_good "registry.npmjs.org" "package-registry" "verified" 0 "";
  known_good "*.pypi.org" "package-registry" "verified" 0 "";
  known_good "files.pythonhosted.org" "package-registry" "verified" 0 "";
  known_good "rubygems.org" "package-registry" "verified" 0 "";
  known_good "*.crates.io" "package-registry" "verified" 0 "";
  known_good "proxy.golang.org" "package-registry" "verified" 0 "";
  known_good "sum.golang.org" "package-registry" "verified" 0 "";
  known_good "*.github.com" "source-forge" "verified" 0 "";
  known_good "*.githubusercontent.com" "source-forge" "verified" 0 "";
  known_good "*.gitlab.com" "source-forge" "verified" 0 "";
  known_good "*.bitbucket.org" "source-forge" "verified" 0 "";
  known_good "*.cloudflare.com" "cdn-broad" "verified" 0 "";
  known_good "*.cloudfront.net" "cdn-broad" "verified" 0 "";
  known_good "*.fastly.net" "cdn-broad" "verified" 0 "";
  known_good "*.akamaized.net" "cdn-broad" "verified" 0 "";
  known_good "*.akamai.net" "cdn-broad" "verified" 0 "";
  known_good "*.google.com" "platform" "likely" 0 "Google search/services — broad";
  known_good "*.googleapis.com" "platform" "likely" 0 "";
  known_good "*.gstatic.com" "platform" "likely" 0 "";
  known_good "*.microsoft.com" "platform" "likely" 0 "Microsoft — broad";
  known_good "*.windows.com" "platform" "likely" 0 "";
  known_good "*.apple.com" "platform" "likely" 0 "";
  known_good "*.icloud.com" "platform" "likely" 0 "";
  known_good "*.mozilla.org" "platform" "verified" 0 "";
  known_good "*.mozilla.net" "platform" "verified" 0 "";
  known_good "" "cdn-broad" "verified" 13335 "Cloudflare";
  known_good "" "cdn-broad" "likely" 16509 "Amazon AWS";
  known_good "" "cdn-broad" "likely" 15169 "Google";
  known_good "" "cdn-broad" "likely" 8075 "Microsoft"].

(** the ranges, with the label each group is given *)
Definition cidr_seed : list (string * list string) := [
  ("Cloudflare cdn AS13335", [
    "173.245.48.0/20"; "103.21.244.0/22"; "103.22.200.0/22"; "103.31.4.0/22"; "141.101.64.0/18"; "108.162.192.0/18";
    "190.93.240.0/20"; "188.114.96.0/20"; "197.234.240.0/22"; "198.41.128.0/17"; "162.158.0.0/15"; "104.16.0.0/13";
    "104.24.0.0/14"; "172.64.0.0/13"; "131.0.72.0/22"]);
  ("Google AS15169", [
    "8.8.4.0/24"; "8.8.8.0/24"; "8.34.208.0/20"; "8.35.192.0/20"; "23.236.48.0/20"; "23.251.128.0/19"; "34.0.0.0/15";
    "34.2.0.0/16"; "34.3.0.0/23"; "34.96.0.0/12"; "34.124.0.0/14"; "34.128.0.0/10"; "35.184.0.0/13"; "35.192.0.0/14";
    "35.196.0.0/15"; "35.198.0.0/16"; "35.199.0.0/17"; "35.199.128.0/18"; "35.200.0.0/13"; "35.208.0.0/12";
    "35.224.0.0/12"; "35.240.0.0/13"; "64.233.160.0/19"; "66.102.0.0/20"; "66.249.64.0/19"; "72.14.192.0/18";
    "74.125.0.0/16"; "108.59.80.0/20"; "108.170.192.0/18"; "108.177.0.0/17"; "142.250.0.0/15"; "142.251.0.0/16";
    "172.217.0.0/16"; "172.253.0.0/16"; "173.194.0.0/16"; "192.178.0.0/15"; "209.85.128.0/17"; "216.58.192.0/19";
    "216.239.32.0/19"]);
  ("AWS", [
    "3.0.0.0/9"; "3.128.0.0/9"; "13.32.0.0/15"; "13.34.0.0/15"; "13.224.0.0/14"; "13.248.0.0/14"; "15.177.0.0/16";
    "15.193.0.0/16"; "15.197.0.0/16"; "18.32.0.0/11"; "18.64.0.0/10"; "18.128.0.0/9"; "23.20.0.0/14"; "34.192.0.0/10";
    "35.71.64.0/20"; "35.71.96.0/19"; "50.16.0.0/14"; "52.0.0.0/11"; "52.32.0.0/11"; "52.64.0.0/12"; "52.80.0.0/12";
    "52.84.0.0/15"; "52.92.0.0/17"; "52.94.0.0/22"; "54.144.0.0/12"; "54.160.0.0/11"; "54.192.0.0/12"; "54.208.0.0/13";
    "54.216.0.0/14"; "54.220.0.0/15"; "54.222.0.0/15"; "54.224.0.0/12"; "54.240.0.0/12"; "99.78.128.0/17";
    "99.84.0.0/16"; "100.20.0.0/14"; "184.72.0.0/15"]);
  ("Microsoft AS8075", [
    "13.64.0.0/11"; "13.96.0.0/13"; "13.104.0.0/14"; "20.0.0.0/11"; "20.33.0.0/16"; "20.34.0.0/15"; "20.36.0.0/14";
    "20.40.0.0/13"; "20.48.0.0/12"; "20.64.0.0/10"; "20.128.0.0/16"; "20.184.0.0/13"; "23.96.0.0/13"; "40.64.0.0/10";
    "40.74.0.0/15"; "40.76.0.0/14"; "40.80.0.0/12"; "40.96.0.0/12"; "40.112.0.0/13"; "40.120.0.0/14"; "40.124.0.0/16";
    "40.125.0.0/17"; "40.126.0.0/18"; "52.96.0.0/12"; "52.112.0.0/14"; "52.120.0.0/14"; "52.125.128.0/22";
    "52.126.0.0/15"; "52.224.0.0/11"; "65.52.0.0/14"; "70.37.0.0/17"; "104.40.0.0/13"; "104.146.0.0/15";
    "104.208.0.0/13"; "131.107.0.0/16"; "131.253.1.0/24"; "131.253.3.0/24"; "131.253.5.0/24"; "131.253.6.0/24";
    "131.253.21.0/24"; "131.253.22.0/23"; "131.253.24.0/21"; "131.253.32.0/20"; "137.116.0.0/15"; "138.91.0.0/16";
    "157.55.0.0/16"; "168.61.0.0/16"; "168.62.0.0/15"]);
  ("Apple AS714", [
    "17.0.0.0/8"; "144.178.0.0/19"; "144.178.36.0/22"]);
  ("Akamai", [
    "23.32.0.0/11"; "23.64.0.0/14"; "23.72.0.0/13"; "104.64.0.0/10"; "184.24.0.0/13"; "184.84.0.0/14"; "23.192.0.0/11"]);
  ("Fastly cdn AS54113", [
    "23.235.32.0/20"; "43.249.72.0/22"; "103.244.50.0/24"; "103.245.222.0/23"; "103.245.224.0/24"; "104.156.80.0/20";
    "140.248.64.0/18"; "140.248.192.0/19"; "146.75.0.0/16"; "151.101.0.0/16"; "157.52.64.0/18"; "167.82.0.0/17";
    "167.82.128.0/20"; "167.82.160.0/20"; "167.82.224.0/20"; "172.111.64.0/18"; "185.31.16.0/22"; "199.27.72.0/21";
    "199.232.0.0/16"]);
  ("GitHub AS36459", [
    "140.82.112.0/20"; "143.55.64.0/20"; "192.30.252.0/22"; "185.199.108.0/22"]);
  ("Cloudflare DNS", [
    "1.1.1.1/32"]);
  ("Cloudflare DNS", [
    "1.0.0.1/32"]);
  ("Google Public DNS", [
    "8.8.8.8/32"]);
  ("Google Public DNS", [
    "8.8.4.4/32"]);
  ("Quad9 DNS", [
    "9.9.9.9/32"]);
  ("Quad9 DNS", [
    "149.112.112.112/32"]);
  ("OpenDNS", [
    "208.67.222.222/32"]);
  ("OpenDNS", [
    "208.67.220.220/32"])].

Definition seedCIDRs (c : Corpus) : Corpus :=
  foldl (λ c '(label, cidrs), foldl (λ c e, AddCIDR e label c) c cidrs) c cidr_seed.

Definition kg_NewDefault : Corpus := seedCIDRs (foldl (λ c e, co_Add e c) new_corpus kg_seed).

End corpus.

(** ** Telemetry (telemetrycorpus.go, seed.go) *)

Definition CatTelemetry : string := "telemetry".
Definition CatAnalytics : string := "analytics".
Definition CatCrash : string := "crash".
Definition CatAds : string := "ads".
Definition CatTracker : string := "tracker".

Record Endpoint := { ep_Pattern : string; ep_Product : string; ep_Category : string; ep_Note : string }.

Definition endpoint (p pr c n : string) : Endpoint := {| ep_Pattern := p; ep_Product := pr; ep_Category := c; ep_Note := n |}.

Definition tlm_Lookup (host : string) (l : list Endpoint) : option Endpoint :=
  if Str.empty host then None else List.find (λ e, MatchHost (ep_Pattern e) host) l.

Definition telemetry_Eval (l : list Endpoint) (block : bool) (c : Query) : layer_answer :=
  let host := host_of c in
  if Str.empty host then undecided
  else
    match tlm_Lookup host l with
    | None => undecided
    | Some e =>
        let note := ep_Product e +:+ (" " +:+ (ep_Category e +:+ (" — " +:+ ep_Pattern e))) in
        let note := if Str.empty (ep_Note e) then note else note +:+ (" (" +:+ (ep_Note e +:+ ")")) in
        let r n := {| rs_Layer := "telemetry"; rs_RuleID := "tlm." +:+ (ep_Category e +:+ ("." +:+ ep_Product e)); rs_Note := n |} in
        if block then (true, ActionDeny, 92%Z, [r ("blocked: " +:+ note)]) else (false, "", 0%Z, [r ("tagged: " +:+ note)])
    end.

Definition telemetry_Layer (l : list Endpoint) (block : bool) : Layer := {| ly_Name := "telemetry"; ly_Eval := telemetry_Eval l block |}.

Definition tlm_seed : list Endpoint := [
  endpoint "*.google-analytics.com" "GoogleAnalytics" CatAnalytics "";
  endpoint "*.googletagmanager.com" "GoogleTagManager" CatAnalytics "";
  endpoint "*.analytics.google.com" "GA4" CatAnalytics "";
  endpoint "*.doubleclick.net" "GoogleAds" CatAds "";
  endpoint "*.googlesyndication.com" "GoogleAdSense" CatAds "";
  endpoint "*.adservice.google.com" "GoogleAds" CatAds "";
  endpoint "*.segment.io" "Segment" CatAnalytics "";
  endpoint "*.segment.com" "Segment" CatAnalytics "";
  endpoint "*.mixpanel.com" "Mixpanel" CatAnalytics "";
  endpoint "*.amplitude.com" "Amplitude" CatAnalytics "";
  endpoint "*.posthog.com" "PostHog" CatAnalytics "";
  endpoint "*.heap.io" "Heap" CatAnalytics "";
  endpoint "*.hotjar.com" "Hotjar" CatTracker "";
  endpoint "*.fullstory.com" "FullStory" CatTracker "";
  endpoint "*.intercom.io" "Intercom" CatTracker "";
  endpoint "*.statsig.com" "Statsig" CatAnalytics "";
  endpoint "*.sentry.io" "Sentry" CatCrash "";
  endpoint "*.bugsnag.com" "Bugsnag" CatCrash "";
  endpoint "*.rollbar.com" "Rollbar" CatCrash "";
  endpoint "*.crashlytics.com" "Crashlytics" CatCrash "";
  endpoint "*.firebaseio.com" "Firebase" CatAnalytics "";
  endpoint "*.crashpad.chromium.org" "Chromium" CatCrash "";
  endpoint "*.scorecardresearch.com" "Comscore" CatTracker "";
  endpoint "*.quantserve.com" "Quantcast" CatTracker "";
  endpoint "*.criteo.com" "Criteo" CatAds "";
  endpoint "*.taboola.com" "Taboola" CatAds "";
  endpoint "*.outbrain.com" "Outbrain" CatAds "";
  endpoint "*.facebook.net" "Meta" CatTracker "Facebook Pixel";
  endpoint "*.fbcdn.net" "Meta" CatTracker "";
  endpoint "graph.facebook.com" "Meta" CatTracker "Graph API";
  endpoint "*.events.data.microsoft.com" "Windows" CatTelemetry "Universal Telemetry Client";
  endpoint "*.vortex.data.microsoft.com" "Windows" CatTelemetry "";
  endpoint "*.telecommand.telemetry.microsoft.com" "Windows" CatTelemetry "";
  endpoint "*.watson.telemetry.microsoft.com" "Windows" CatCrash "Windows Error Reporting";
  endpoint "settings-win.data.microsoft.com" "Windows" CatTelemetry "";
  endpoint "*.dc.services.visualstudio.com" "VSCode" CatTelemetry "App Insights — VSCode + many MS products";
  endpoint "*.applicationinsights.azure.com" "AppInsights" CatTelemetry "";
  endpoint "*.in.applicationinsights.azure.com" "AppInsights" CatTelemetry "";
  endpoint "*.live.com" "Microsoft" CatTelemetry "Various Live services — broad";
  endpoint "*.officeapps.live.com" "Office" CatTelemetry "";
  endpoint "*.office.com" "Office" CatTelemetry "Office signals — broad";
  endpoint "*.bingapis.com" "Bing" CatTelemetry "";
  endpoint "*.apple.com.akadns.net" "Apple" CatTelemetry "Akamai-hosted Apple services";
  endpoint "diagnostics.apple.com" "Apple" CatTelemetry "";
  endpoint "metrics.apple.com" "Apple" CatTelemetry "";
  endpoint "*.metrics.icloud.com" "iCloud" CatTelemetry "";
  endpoint "clients2.google.com" "Chrome" CatTelemetry "Update + safe-browsing";
  endpoint "clients4.google.com" "Chrome" CatTelemetry "";
  endpoint "*.update.googleapis.com" "Chrome" CatTelemetry "Omaha update";
  endpoint "*.gvt1.com" "Chrome" CatTelemetry "Google update infrastructure";
  endpoint "*.gvt2.com" "Chrome" CatTelemetry "";
  endpoint "tools.google.com" "Chrome" CatTelemetry "";
  endpoint "*.metric.gstatic.com" "Chrome" CatTelemetry "";
  endpoint "*.chromeexperiments.com" "Chrome" CatTelemetry "";
  endpoint "*.telemetry.mozilla.org" "Firefox" CatTelemetry "";
  endpoint "incoming.telemetry.mozilla.org" "Firefox" CatTelemetry "";
  endpoint "*.services.mozilla.com" "Firefox" CatTelemetry "Sync + push + accounts";
  endpoint "shavar.services.mozilla.com" "Firefox" CatTracker "tracking-protection lists (functional)";
  endpoint "*.cdn.mozilla.net" "Firefox" CatTelemetry "";
  endpoint "popcon.ubuntu.com" "Ubuntu" CatTelemetry "popularity-contest";
  endpoint "metrics.ubuntu.com" "Ubuntu" CatTelemetry "";
  endpoint "motd.ubuntu.com" "Ubuntu" CatTelemetry "Message-of-the-day phone-home";
  endpoint "daisy.ubuntu.com" "Ubuntu" CatCrash "apport crash submission";
  endpoint "errors.ubuntu.com" "Ubuntu" CatCrash "";
  endpoint "contracts.canonical.com" "Ubuntu" CatTelemetry "";
  endpoint "api.snapcraft.io" "Snap" CatTelemetry "store calls";
  endpoint "dashboard.snapcraft.io" "Snap" CatTelemetry "";
  endpoint "*.flathub.org" "Flatpak" CatTelemetry "";
  endpoint "*.jetbrains.com" "JetBrains" CatTelemetry "broad — includes update + analytics";
  endpoint "data.services.jetbrains.com" "JetBrains" CatTelemetry "";
  endpoint "*.uxfeedback.ru" "JetBrains" CatAnalytics "";
  endpoint "*.crashlytics.com" "JetBrains" CatCrash "";
  endpoint "vscode-update.azurewebsites.net" "VSCode" CatTelemetry "update channel";
  endpoint "*.gallerycdn.vsassets.io" "VSCode" CatTelemetry "extension gallery";
  endpoint "marketplace.visualstudio.com" "VSCode" CatTelemetry "";
  endpoint "*.copilot-proxy.githubusercontent.com" "Copilot" CatTelemetry "";
  endpoint "*.slack.com" "Slack" CatTelemetry "functional + analytics — broad";
  endpoint "*.slack-edge.com" "Slack" CatAnalytics "";
  endpoint "*.discord.com" "Discord" CatTelemetry "broad — functional + analytics";
  endpoint "*.discord-attachments-uploads.com" "Discord" CatAnalytics "";
  endpoint "*.zoom.us" "Zoom" CatTelemetry "broad";
  endpoint "*.spclient.wg.spotify.com" "Spotify" CatAnalytics "";
  endpoint "spclient.wg.spotify.com" "Spotify" CatAnalytics "";
  endpoint "*.steam-chat.com" "Steam" CatAnalytics "";
  endpoint "steamcommunity.com" "Steam" CatAnalytics "broad";
  endpoint "*.mozilla.cloudflare-dns.com" "Firefox-DoH" CatTelemetry ""].

(** ** The policy (policy.go) *)

Record AppKey := { ak_ExeSHA : string; ak_Exe : string; ak_Comm : string; ak_Unit : string }.

Record AppRules := {
  ar_Match : AppKey; ar_AllowOnlyDomains : list string; ar_AllowCountries : list string; ar_AllowASNs : list Z;
  ar_DenyDomains : list string; ar_DenyCountries : list string; ar_DenyASNs : list Z; ar_DenyPorts : list Z }.

Record Global := {
  gl_DenyDomains : list string; gl_DenyCountries : list string; gl_DenyASNs : list Z; gl_DenyIPCIDRs : list string;
  gl_nets : list IPNet }.

Record Document := { do_Global : Global; do_Apps : list AppRules }.

Definition no_global : Global := {| gl_DenyDomains := []; gl_DenyCountries := []; gl_DenyASNs := []; gl_DenyIPCIDRs := []; gl_nets := [] |}.
Definition empty_document : Document := {| do_Global := no_global; do_Apps := [] |}.

Definition normalizeCIDR (raw : string) : string :=
  let raw := Str.TrimSpace raw in
  if Str.empty raw then ""
  else if Str.Contains raw "/" then raw
  else if Str.Contains raw ":" then raw +:+ "/128"
  else raw +:+ "/32".

Definition compileCIDRs (raws : list string) : list IPNet :=
  omap (λ raw, if Str.empty (normalizeCIDR raw) then None else snd <$> ParseCIDR (normalizeCIDR raw)) raws.

(** [Load]: the document with its ranges compiled; [None] is nil *)
Definition pol_Load (d : option Document) : Document :=
  let d := default empty_document d in
  let g := do_Global d in
  {| do_Global := {| gl_DenyDomains := gl_DenyDomains g; gl_DenyCountries := gl_DenyCountries g; gl_DenyASNs := gl_DenyASNs g;
                     gl_DenyIPCIDRs := gl_DenyIPCIDRs g; gl_nets := compileCIDRs (gl_DenyIPCIDRs g) |};
     do_Apps := do_Apps d |}.

(** the first of the lists that has a match gives the note *)
Definition note_if {A} (o : option A) (f : A → string) (rest : string) : string := match o with Some x => f x | None => rest end.

Definition find_country (l : list string) (c : Query) : option string :=
  List.find (λ cc, bool_decide (cc = q_Country c) && negb (Str.empty (q_Country c))) l.
Definition find_asn (l : list Z) (c : Query) : option Z := List.find (λ asn, (asn =? q_ASN c)%Z && negb (asn =? 0)%Z) l.

Definition matchGlobal (g : Global) (host : string) (c : Query) : string :=
  note_if (List.find (λ p, MatchHost p host) (gl_DenyDomains g)) (λ p, "global deny: domain " +:+ p)
    (note_if (find_country (gl_DenyCountries g) c) (λ cc, "global deny: country " +:+ cc)
       (note_if (find_asn (gl_DenyASNs g) c) (λ _, "global deny: ASN")
          match ParseIP (q_DstIP c) with
          | Some ip => if existsb (λ n, Contains n (Some ip)) (gl_nets g) then "global deny: dst_ip " +:+ q_DstIP c else ""
          | None => ""
          end)).

(** how well a rule fits the process *)
Definition app_score (k : AppKey) (c : Query) : Z :=
  if negb (Str.empty (ak_ExeSHA k)) && bool_decide (ak_ExeSHA k = q_ExeSHA c) then 100
  else if negb (Str.empty (ak_Exe k)) && bool_decide (ak_Exe k = q_Exe c) then 80
  else if negb (Str.empty (ak_Unit k)) && bool_decide (ak_Unit k = q_Comm c) then 50
  else if negb (Str.empty (ak_Comm k)) && bool_decide (ak_Comm k = q_Comm c) then 30
  else 0.

Definition matchApp (rules : list AppRules) (c : Query) : option AppRules :=
  (foldl (λ best r, if (best.2 <? app_score (ar_Match r) c)%Z then (Some r, app_score (ar_Match r) c) else best) (None, 0%Z) rules).1.

Definition matchAppDeny (a : AppRules) (host : string) (c : Query) : string :=
  note_if (List.find (λ p, MatchHost p host) (ar_DenyDomains a)) (λ p, "app deny: domain " +:+ p)
    (note_if (find_country (ar_DenyCountries a) c) (λ cc, "app deny: country " +:+ cc)
       (note_if (find_asn (ar_DenyASNs a) c) (λ _, "app deny: ASN")
          (note_if (List.find (λ p, (p =? q_DstPort c)%Z && negb (p =? 0)%Z) (ar_DenyPorts a)) (λ _, "app deny: port") ""))).

Definition policy_reason (id note : string) : list Reason := [{| rs_Layer := "policy"; rs_RuleID := id; rs_Note := note |}].

Definition policy_Eval (doc : Document) (c : Query) : layer_answer :=
  let host := host_of c in
  let r := matchGlobal (do_Global doc) host c in
  if negb (Str.empty r) then (true, ActionDeny, 95%Z, policy_reason "policy.global.deny" r)
  else
    match matchApp (do_Apps doc) c with
    | None => undecided
    | Some app =>
        let r := matchAppDeny app host c in
        if negb (Str.empty r) then (true, ActionDeny, 95%Z, policy_reason "policy.app.deny" r)
        else if negb (bool_decide (ar_AllowOnlyDomains app = [])) && negb (existsb (λ p, MatchHost p host) (ar_AllowOnlyDomains app)) then
          (true, ActionDeny, 90%Z, policy_reason "policy.app.allow-only-domains" "host not in app's allow-only-domains list")
        else if negb (bool_decide (ar_AllowCountries app = [])) && negb (Str.empty (q_Country c)) &&
                negb (bool_decide (q_Country c ∈ ar_AllowCountries app)) then
          (true, ActionDeny, 90%Z, policy_reason "policy.app.country-restricted"
                                     ("country " +:+ (q_Country c +:+ " not in app's allow-countries list")))
        else if negb (bool_decide (ar_AllowASNs app = [])) && negb (q_ASN c =? 0)%Z && negb (bool_decide (q_ASN c ∈ ar_AllowASNs app)) then
          (true, ActionDeny, 90%Z, policy_reason "policy.app.asn-restricted" "ASN not in app's allow-asns list")
        else undecided
    end.

Definition policy_Layer (doc : Document) : Layer := {| ly_Name := "policy"; ly_Eval := policy_Eval doc |}.

(** ** The policy file (yaml.go) *)

Record yamlAppMatch := { ym_ExeSHA : string; ym_Exe : string; ym_Comm : string; ym_Unit : string }.

Record yamlAppRule := {
  ya_Match : yamlAppMatch; ya_AllowOnlyDomains : list string; ya_AllowCountries : list string; ya_AllowASNs : list Z;
  ya_DenyDomains : list string; ya_DenyCountries : list string; ya_DenyASNs : list Z; ya_DenyPorts : list Z }.

Record yamlGlobal := { yg_DenyDomains : list string; yg_DenyCountries : list string; yg_DenyASNs : list Z; yg_DenyIPCIDRs : list string }.

Record yamlDocument := { yd_BlockTelemetry : bool; yd_Global : yamlGlobal; yd_Apps : list yamlAppRule }.

Record FullDocument := { fd_Doc : Document; fd_BlockTelemetry : bool }.

Definition empty_full : FullDocument := {| fd_Doc := empty_document; fd_BlockTelemetry := false |}.

Definition app_of_yaml (a : yamlAppRule) : AppRules := {|
  ar_Match := {| ak_ExeSHA := ym_ExeSHA (ya_Match a); ak_Exe := ym_Exe (ya_Match a); ak_Comm := ym_Comm (ya_Match a); ak_Unit := ym_Unit (ya_Match a) |};
  ar_AllowOnlyDomains := ya_AllowOnlyDomains a; ar_AllowCountries := ya_AllowCountries a; ar_AllowASNs := ya_AllowASNs a;
  ar_DenyDomains := ya_DenyDomains a; ar_DenyCountries := ya_DenyCountries a; ar_DenyASNs := ya_DenyASNs a; ar_DenyPorts := ya_DenyPorts a |}.

Definition yaml_of_app (a : AppRules) : yamlAppRule := {|
  ya_Match := {| ym_ExeSHA := ak_ExeSHA (ar_Match a); ym_Exe := ak_Exe (ar_Match a); ym_Comm := ak_Comm (ar_Match a); ym_Unit := ak_Unit (ar_Match a) |};
  ya_AllowOnlyDomains := ar_AllowOnlyDomains a; ya_AllowCountries := ar_AllowCountries a; ya_AllowASNs := ar_AllowASNs a;
  ya_DenyDomains := ar_DenyDomains a; ya_DenyCountries := ar_DenyCountries a; ya_DenyASNs := ar_DenyASNs a; ya_DenyPorts := ar_DenyPorts a |}.

Section yaml.
Context (Unmarshal : string → option yamlDocument) (Marshal : yamlDocument → string).

(** [None] is an error *)
Definition ParseYAML (b : string) : option FullDocument :=
  if Str.empty b then Some empty_full
  else
    y ← Unmarshal b;
    Some {| fd_Doc := {| do_Global := {| gl_DenyDomains := yg_DenyDomains (yd_Global y); gl_DenyCountries := yg_DenyCountries (yd_Global y);
                                         gl_DenyASNs := yg_DenyASNs (yd_Global y); gl_DenyIPCIDRs := yg_DenyIPCIDRs (yd_Global y);
                                         gl_nets := [] |};
                        do_Apps := app_of_yaml <$> yd_Apps y |};
            fd_BlockTelemetry := yd_BlockTelemetry y |}.

Definition SerialiseYAML (fd : FullDocument) : string :=
  let g := do_Global (fd_Doc fd) in
  Marshal {| yd_BlockTelemetry := fd_BlockTelemetry fd;
             yd_Global := {| yg_DenyDomains := gl_DenyDomains g; yg_DenyCountries := gl_DenyCountries g; yg_DenyASNs := gl_DenyASNs g;
                             yg_DenyIPCIDRs := gl_DenyIPCIDRs g |};
             yd_Apps := yaml_of_app <$> do_Apps (fd_Doc fd) |}.

Record FileSource := { fs_cur : option FullDocument; fs_lastM : Time.time }.

(** the file: its contents and the time of its last change *)
Inductive policy_file : Type := Missing | Unreadable | Holds (b : string) (mtime : Time.time).

Definition fs_Load (file : policy_file) (s : FileSource) : option FullDocument * FileSource :=
  match file with
  | Missing => (Some empty_full, {| fs_cur := Some empty_full; fs_lastM := fs_lastM s |})
  | Unreadable => (None, s)
  | Holds b mtime =>
      match ParseYAML b with
      | None => (None, s)
      | Some fd => (Some fd, {| fs_cur := Some fd; fs_lastM := mtime |})
      end
  end.

(** [Current] *)
Definition fs_Current (s : FileSource) : FullDocument := default empty_full (fs_cur s).

(** one tick of [Watch]: the document [OnChange] is called with *)
Definition watch_tick (file : policy_file) (s : FileSource) : option FullDocument * FileSource :=
  match file with
  | Holds _ mtime => if Time.After mtime (fs_lastM s) then fs_Load file s else (None, s)
  | Unreadable => (None, s)
  | Missing => (None, s)
  end.

(** [Save], the write done at [now]; [false] is a failed write *)
Definition fs_Save (written : bool) (now : Time.time) (fd : FullDocument) (file : policy_file) (s : FileSource) : policy_file * FileSource :=
  if written then (Holds (SerialiseYAML fd) now, {| fs_cur := fs_cur s; fs_lastM := Time.zero |}) else (file, s).

End yaml.

(** ** The daemon's engine (verdict_wiring.go) *)

Record cachedVerdict := { cv_v : EngineVerdict; cv_expires : Time.time }.

Record verdictCtx := {
  vx_policy : Document; vx_kg : Corpus; vx_tlm : list Endpoint; vx_source : option FileSource; vx_blockTelemetry : bool;
  vx_cache : gmap string cachedVerdict }.

Definition cacheCap : Z := 4096.
Definition cacheTTL : Time.duration := (5 * Time.Minute)%Z.

Definition newVerdictCtx (srt : list labelled → list labelled) : verdictCtx := {|
  vx_policy := empty_document; vx_kg := kg_NewDefault srt; vx_tlm := tlm_seed; vx_source := None; vx_blockTelemetry := false;
  vx_cache := ∅ |}.

(** the chain the daemon builds *)
Definition vx_engine (vc : verdictCtx) : Engine :=
  new_engine [policy_Layer (vx_policy vc); telemetry_Layer (vx_tlm vc) (vx_blockTelemetry vc); knowngood_Layer (vx_kg vc)].

Definition vx_with (pol : Document) (src : option FileSource) (block : bool) (cache : gmap string cachedVerdict) (vc : verdictCtx) : verdictCtx := {|
  vx_policy := pol; vx_kg := vx_kg vc; vx_tlm := vx_tlm vc; vx_source := src; vx_blockTelemetry := block; vx_cache := cache |}.

Definition applySource (vc : verdictCtx) : verdictCtx :=
  match vx_source vc with
  | None => vc
  | Some s =>
      let fd := fs_Current s in
      vx_with (pol_Load (Some (fd_Doc fd))) (Some s) (fd_BlockTelemetry fd) (vx_cache vc) vc
  end.

Definition loadPolicyFile (Unmarshal : string → option yamlDocument) (file : policy_file) (vc : verdictCtx) : bool * verdictCtx :=
  match fs_Load Unmarshal file {| fs_cur := None; fs_lastM := Time.zero |} with
  | (None, _) => (false, vc)
  | (Some _, s) => (true, applySource (vx_with (vx_policy vc) (Some s) (vx_blockTelemetry vc) (vx_cache vc) vc))
  end.

(** a tick of the watcher, with what the change does *)
Definition vx_tick (Unmarshal : string → option yamlDocument) (file : policy_file) (vc : verdictCtx) : verdictCtx :=
  match vx_source vc with
  | None => vc
  | Some s =>
      match watch_tick Unmarshal file s with
      | (None, s) => vx_with (vx_policy vc) (Some s) (vx_blockTelemetry vc) (vx_cache vc) vc
      | (Some _, s) =>
          let vc := applySource (vx_with (vx_policy vc) (Some s) (vx_blockTelemetry vc) (vx_cache vc) vc) in
          vx_with (vx_policy vc) (vx_source vc) (vx_blockTelemetry vc) ∅ vc
      end
  end.

(** ** Cached verdicts *)

(** the custom conversion of a port *)
Fixpoint port_digits (fuel : nat) (v : Z) (acc : string) : string :=
  match fuel with
  | O => acc
  | S f => if (0 <? v)%Z then port_digits f (v / 10) (String (digit_char (v mod 10)) acc) else acc
  end.

Definition shortuint16 (v : Z) : string := if (v =? 0)%Z then "0" else port_digits 6 v "".

Definition vx_cacheKey (c : Conn) : string :=
  let id := cn_ExeSHA c in
  let id := if Str.empty id then cn_Exe c else id in
  let id := if Str.empty id then cn_Comm c else id in
  id +:+ ("|" +:+ (Addr_text (tu_DstAddr (cn_Tuple c)) +:+ ("|" +:+ (shortuint16 (tu_DstPort (cn_Tuple c)) +:+ ("|" +:+
    (cn_DNSName c +:+ ("|" +:+ cn_SNI c))))))).

Definition conn_query (c : Conn) : Query := {|
  q_PID := cn_PID c; q_Comm := cn_Comm c; q_Exe := cn_Exe c; q_ExeSHA := cn_ExeSHA c; q_UID := cn_UserID c;
  q_DstIP := Addr_text (tu_DstAddr (cn_Tuple c)); q_DstPort := tu_DstPort (cn_Tuple c); q_DNSName := cn_DNSName c; q_SNI := cn_SNI c;
  q_Proto := Proto_String (tu_Proto (cn_Tuple c)); q_Country := ""; q_ASN := 0; q_ASNName := "" |}.

(** a quarter of the entries, the first the range gives, at least one *)
Definition evict_quarter (ord : gmap string cachedVerdict → list string) (m : gmap string cachedVerdict) : gmap string cachedVerdict :=
  foldl (λ m k, delete k m) m (take (Z.to_nat (Z.max 1 (cacheCap / 4))) (ord m)).

Definition decideForConn (ord : gmap string cachedVerdict → list string) (now : Time.time) (c : Conn) (vc : verdictCtx) : EngineVerdict * verdictCtx :=
  let key := vx_cacheKey c in
  let fresh :=
    let v := en_Decide now (conn_query c) (vx_engine vc) in
    let m := if (cacheCap <=? Z.of_nat (size (vx_cache vc)))%Z then evict_quarter ord (vx_cache vc) else vx_cache vc in
    (v, vx_with (vx_policy vc) (vx_source vc) (vx_blockTelemetry vc) (<[key := {| cv_v := v; cv_expires := Time.Add now cacheTTL |}]> m) vc) in
  match vx_cache vc !! key with
  | Some cv => if Time.Before now (cv_expires cv) then (cv_v cv, vc) else fresh
  | None => fresh
  end.

(** ** Prefix sets answer with a longest prefix *)

Lemma find_first {A} (f : A → bool) (l : list A) (x : A) :
  List.find f l = Some x → ∃ l1 l2, l = l1 ++ x :: l2 ∧ f x = true ∧ Forall (λ y, f y = false) l1.
Proof.
  induction l as [|y l IH]; [done|]. cbn. destruct (f y) eqn:Hy.
  - intros [= ->]. exists [], l. done.
  - intros (l1 & l2 & -> & Hx & Hl)%IH. exists (y :: l1), l2. split_and!; [done|done|by constructor].
Qed.

(** the entries that parse, in the family of the address *)
Definition candidates (entries : list CIDREntry) (addr : Addr) : list labelled :=
  filter (λ x, pf_Contains (lb_p x) addr = true) (parse_entries entries).

Lemma contains_family (p : Prefix) (a : Addr) : pf_Contains p a = true → Is4 (pf_ip p) = Is4 a.
Proof.
  unfold pf_Contains. intros [[[_ _]%andb_true_iff Hb]%andb_true_iff _]%andb_true_iff. apply Z.eqb_eq in Hb.
  by destruct (pf_ip p), a.
Qed.

Lemma sorted_find (srt : list labelled → list labelled) (l : list labelled) (f : labelled → bool) :
  sorts srt → match List.find f (srt l) with
              | Some e => e ∈ l ∧ f e = true ∧ ∀ e', e' ∈ l → f e' = true → (pf_bits (lb_p e') ≤ pf_bits (lb_p e))%Z
              | None => ∀ e', e' ∈ l → f e' = false
              end.
Proof.
  intros Hsrt. destruct (Hsrt l) as [Hp Hs]. destruct (List.find f (srt l)) as [e|] eqn:Hf.
  - apply find_first in Hf as (l1 & l2 & Hl & He & H1). split_and!; [rewrite <-Hp, Hl; set_solver|done|].
    intros e' Hin Hfe. rewrite <-Hp, Hl in Hin. apply elem_of_app in Hin as [Hin|Hin].
    + rewrite Forall_forall in H1. rewrite (H1 e' Hin) in Hfe. done.
    + apply elem_of_cons in Hin as [->|Hin]; [done|]. rewrite Hl in Hs. apply StronglySorted_app in Hs as (_ & _ & Hs).
      apply StronglySorted_inv in Hs as [_ Hall]. rewrite Forall_forall in Hall. by apply (Hall e' Hin).
  - intros e' Hin. rewrite <-Hp in Hin. apply list_elem_of_In in Hin. by apply (List.find_none f (srt l)).
Qed.

(** Whatever order the sort leaves entries of one length in, the answer for
    an address is the label of an entry that contains it and is at least as long
    as every other entry that does; it is empty when none does. *)
Theorem lookup_most_specific (srt : list labelled → list labelled) (entries : list CIDREntry) (ip : string) :
  sorts srt →
  match ParseAddr (Str.TrimSpace ip) with
  | None => cs_Lookup ip (NewCIDRSet srt entries) = ""
  | Some addr =>
      (candidates entries addr = [] ∧ cs_Lookup ip (NewCIDRSet srt entries) = "") ∨
      ∃ e, e ∈ candidates entries addr ∧ cs_Lookup ip (NewCIDRSet srt entries) = lb_label e ∧
           Forall (λ e', (pf_bits (lb_p e') ≤ pf_bits (lb_p e))%Z) (candidates entries addr)
  end.
Proof.
  intros Hsrt. unfold cs_Lookup. destruct (ParseAddr (Str.TrimSpace ip)) as [addr|]; [|done].
  set (ps := parse_entries entries). set (fam := filter (λ x, Is4 (pf_ip (lb_p x)) = Is4 addr) ps).
  assert ((if Is6 addr then cs_v6 (NewCIDRSet srt entries) else cs_v4 (NewCIDRSet srt entries)) = srt fam) as ->.
  { unfold NewCIDRSet, Is6, fam. cbn [cs_v4 cs_v6]. fold ps. destruct (Is4 addr); cbn [negb]; f_equal.
    apply list_filter_iff. intros x. destruct (Is4 (pf_ip (lb_p x))); split; congruence. }
  assert (∀ e, e ∈ candidates entries addr ↔ e ∈ fam ∧ pf_Contains (lb_p e) addr = true) as Hc.
  { intros e. unfold candidates, fam. fold ps. rewrite !list_elem_of_filter. split; [|naive_solver].
    intros [He Hin]. split_and!; [by apply contains_family|done|done]. }
  pose proof (sorted_find srt fam (λ e, pf_Contains (lb_p e) addr) Hsrt) as Hf.
  destruct (List.find _ (srt fam)) as [e|].
  - right. destruct Hf as (Hin & He & Hmax). exists e. split_and!; [by apply Hc|done|]. apply Forall_forall. intros e' [Hin' He']%Hc. auto.
  - left. split; [|done]. destruct (candidates entries addr) as [|e l] eqn:Hl; [done|]. exfalso.
    destruct (proj1 (Hc e) ltac:(left)) as [Hin He]. rewrite (Hf e Hin) in He. done.
Qed.

(** ** What the daemon's chain denies *)

Definition decides (a : layer_answer) : bool := a.1.1.1.

Lemma policy_cases (doc : Document) (c : Query) :
  policy_Eval doc c = undecided ∨ ∃ conf rs, policy_Eval doc c = (true, ActionDeny, conf, rs).
Proof. unfold policy_Eval. repeat case_match; eauto. Qed.

Lemma knowngood_cases (k : Corpus) (c : Query) :
  knowngood_Eval k c = undecided ∨ ∃ conf rs, knowngood_Eval k c = (true, ActionAllow, conf, rs).
Proof. unfold knowngood_Eval, by_address, known_answer. repeat case_match; eauto. Qed.

(** only the policy and a blocked telemetry endpoint deny *)
Lemma decide_denies (now : Time.time) (c : Query) (vc : verdictCtx) :
  vd_Action (en_Decide now c (vx_engine vc)) = ActionDeny ↔
  decides (policy_Eval (vx_policy vc) c) = true ∨ (vx_blockTelemetry vc = true ∧ is_Some (tlm_Lookup (host_of c) (vx_tlm vc))).
Proof.
  unfold en_Decide, vx_engine, new_engine. cbn [en_layers en_SkipLayers en_Level default run_layers ly_Name ly_Eval policy_Layer].
  rewrite !bool_decide_false by (by intros ?%elem_of_nil). destruct (policy_cases (vx_policy vc) c) as [Hp|(conf & rs & Hp)]; rewrite Hp.
  2: cbn; split; [by left|done].
  unfold undecided. cbn [app telemetry_Layer ly_Eval ly_Name knowngood_Layer].
  assert (∀ tr, vd_Action (let '(decided, action, conf, reasons) := knowngood_Eval (vx_kg vc) c in
    if decided then {| vd_Action := action; vd_Confidence := conf; vd_Layer := "knowngood"; vd_Reasons := tr ++ reasons;
                       vd_AnalysedAt := now; vd_Level := 1 |}
    else {| vd_Action := ActionAllow; vd_Confidence := 35; vd_Layer := "default";
            vd_Reasons := (tr ++ reasons) ++ [{| rs_Layer := "default"; rs_RuleID := ""; rs_Note := "no layer matched; allowed by default" |}];
            vd_AnalysedAt := now; vd_Level := 1 |}) = ActionAllow) as Hk.
  { intros tr. destruct (knowngood_cases (vx_kg vc) c) as [Hk|(conf & rs & Hk)]; rewrite Hk; done. }
  unfold telemetry_Eval. destruct (Str.empty (host_of c)) eqn:Hh.
  - unfold undecided, tlm_Lookup. rewrite Hh, Hk. cbn. split; [done|]. by intros [?|[_ []]].
  - destruct (tlm_Lookup (host_of c) (vx_tlm vc)) as [e|].
    + destruct (vx_blockTelemetry vc).
      * cbn. split; [right; split; [done|by eexists]|done].
      * rewrite Hk. cbn. split; [done|]. by intros [?|[? _]].
    + unfold undecided. rewrite Hk. cbn. split; [done|]. by intros [?|[_ []]].
Qed.

(** Once the client names a server, the name the address was resolved from
    plays no part in any verdict: a denied domain is reached by naming another. *)
Theorem client_name_hides_resolved (now : Time.time) (vc : verdictCtx) (c c' : Conn) :
  cn_SNI c ≠ "" → cn_SNI c' = cn_SNI c → cn_Comm c' = cn_Comm c → cn_Exe c' = cn_Exe c → cn_ExeSHA c' = cn_ExeSHA c →
  cn_Tuple c' = cn_Tuple c →
  en_Decide now (conn_query c') (vx_engine vc) = en_Decide now (conn_query c) (vx_engine vc).
Proof.
  intros Hs HS HC HE HH HT.
  assert (host_of (conn_query c') = host_of (conn_query c)) as Hh.
  { unfold host_of. cbn. rewrite HS. unfold Str.empty. by rewrite bool_decide_false. }
  assert (∀ k, app_score k (conn_query c') = app_score k (conn_query c)) as Ha.
  { intros k. unfold app_score. cbn. by rewrite HC, HE, HH. }
  assert (matchApp (do_Apps (vx_policy vc)) (conn_query c') = matchApp (do_Apps (vx_policy vc)) (conn_query c)) as Hm.
  { unfold matchApp. f_equal. generalize (@None AppRules, 0%Z). induction (do_Apps (vx_policy vc)) as [|r l IH]; intros acc; [done|].
    cbn [foldl]. by rewrite !Ha, IH. }
  assert (∀ a, matchAppDeny a (host_of (conn_query c)) (conn_query c') = matchAppDeny a (host_of (conn_query c)) (conn_query c)) as Hd.
  { intros a. unfold matchAppDeny, find_country, find_asn. cbn. by rewrite HT. }
  assert (matchGlobal (do_Global (vx_policy vc)) (host_of (conn_query c)) (conn_query c') =
          matchGlobal (do_Global (vx_policy vc)) (host_of (conn_query c)) (conn_query c)) as Hg.
  { unfold matchGlobal, find_country, find_asn. cbn. by rewrite HT. }
  assert (policy_Eval (vx_policy vc) (conn_query c') = policy_Eval (vx_policy vc) (conn_query c)) as Hp.
  { unfold policy_Eval. cbn zeta. rewrite Hh, Hg, Hm. destruct (matchApp (do_Apps (vx_policy vc)) (conn_query c)) as [a|]; [|reflexivity]. by rewrite Hd. }
  assert (telemetry_Eval (vx_tlm vc) (vx_blockTelemetry vc) (conn_query c') =
          telemetry_Eval (vx_tlm vc) (vx_blockTelemetry vc) (conn_query c)) as Ht by (unfold telemetry_Eval; by rewrite Hh).
  assert (knowngood_Eval (vx_kg vc) (conn_query c') = knowngood_Eval (vx_kg vc) (conn_query c)) as Hk.
  { unfold knowngood_Eval, by_address. rewrite Hh. cbn. by rewrite HT. }
  unfold en_Decide, vx_engine, new_engine. cbn [en_layers en_SkipLayers en_Level default run_layers ly_Name ly_Eval policy_Layer
    telemetry_Layer knowngood_Layer]. by rewrite Hp, Ht, Hk.
Qed.

(** a query without names, process or country: only the address can be denied *)
Definition nameless (c : Query) : Prop :=
  q_Comm c = "" ∧ q_Exe c = "" ∧ q_ExeSHA c = "" ∧ q_DNSName c = "" ∧ q_SNI c = "" ∧ q_Country c = "" ∧ q_ASN c = 0%Z.

Lemma find_false {A} (f : A → bool) (l : list A) : (∀ x, f x = false) → List.find f l = None.
Proof. intros Hf. induction l as [|x l IH]; [done|]. cbn. by rewrite Hf. Qed.

Lemma MatchHost_empty (p : string) : MatchHost p "" = false.
Proof. unfold MatchHost. cbn. by rewrite orb_true_r. Qed.

Lemma nameless_app (rules : list AppRules) (c : Query) : nameless c → matchApp rules c = None.
Proof.
  intros (Hc & He & Hs & _). unfold matchApp.
  assert (∀ k, app_score k c = 0%Z) as H0.
  { intros k. unfold app_score, Str.empty. rewrite Hc, He, Hs.
    assert (∀ s : string, negb (bool_decide (s = "")) && bool_decide (s = "") = false) as H by (intros s; by destruct (bool_decide (s = ""))).
    by rewrite !H. }
  assert (∀ l : list AppRules, foldl (λ best r, if (best.2 <? app_score (ar_Match r) c)%Z then (Some r, app_score (ar_Match r) c) else best)
            (None, 0%Z) l = (None, 0%Z)) as ->; [|done].
  induction l as [|r l IH]; [done|]. cbn [foldl]. by rewrite H0.
Qed.

Lemma nameless_policy (doc : Document) (c : Query) :
  nameless c → decides (policy_Eval doc c) = true ↔
  ∃ ip, ParseIP (q_DstIP c) = Some ip ∧ existsb (λ n, Contains n (Some ip)) (gl_nets (do_Global doc)) = true.
Proof.
  intros Hn. pose proof Hn as (_ & _ & _ & Hd & Hs & Hcc & Ha). unfold policy_Eval. rewrite nameless_app by done.
  assert (host_of c = "") as -> by (unfold host_of; by rewrite Hs, Hd).
  unfold matchGlobal, find_country, find_asn. rewrite (find_false (λ p, MatchHost p "")) by apply MatchHost_empty.
  rewrite (find_false (λ cc, bool_decide (cc = q_Country c) && negb (Str.empty (q_Country c)))) by (intros; rewrite Hcc; by rewrite andb_false_r).
  rewrite (find_false (λ asn, (asn =? q_ASN c)%Z && negb (asn =? 0)%Z)) by (intros z; rewrite Ha; by destruct (z =? 0)%Z).
  cbn [note_if]. destruct (ParseIP (q_DstIP c)) as [ip|]; [|split; [done|by intros (? & ? & _)]].
  destruct (existsb (λ n, Contains n (Some ip)) (gl_nets (do_Global doc))) eqn:He; cbn.
  - split; [by eauto|done].
  - split; [done|]. intros (ip' & Hip & He'). injection Hip as <-. by rewrite He in He'.
Qed.

(** ** Saving and reloading *)

Lemma app_yaml (a : AppRules) : app_of_yaml (yaml_of_app a) = a.
Proof. by destruct a as [[] ? ? ? ? ? ? ?]. Qed.

(** C35: A policy saved from the interface is in force after the next tick of the
    watcher, every field of it, and no verdict given before is kept. *)
Theorem saved_policy_takes_effect (Unmarshal : string → option yamlDocument) (Marshal : yamlDocument → string)
    (Hround : ∀ y, Unmarshal (Marshal y) = Some y) (Hsome : ∀ y, Marshal y ≠ "") (now : Time.time) (fd : FullDocument)
    (file : policy_file) (s : FileSource) (vc : verdictCtx) :
  vx_source vc = Some s → Time.After now Time.zero = true →
  let '(file', s') := fs_Save Marshal true now fd file s in
  let vc' := vx_tick Unmarshal file' (vx_with (vx_policy vc) (Some s') (vx_blockTelemetry vc) (vx_cache vc) vc) in
  vx_policy vc' = pol_Load (Some (fd_Doc fd)) ∧ vx_blockTelemetry vc' = fd_BlockTelemetry fd ∧ vx_cache vc' = ∅.
Proof.
  intros Hs Hnow. unfold fs_Save, vx_tick. cbn [vx_source vx_with watch_tick fs_lastM]. rewrite Hnow. cbn [fs_Load].
  unfold ParseYAML, SerialiseYAML. unfold Str.empty. rewrite bool_decide_false by apply Hsome. rewrite Hround. cbn.
  split; [|done]. rewrite <-list_fmap_compose. unfold pol_Load. cbn. f_equal.
  rewrite <-(list_fmap_id (do_Apps (fd_Doc fd))) at 2. apply list_fmap_ext. intros i a _. apply app_yaml.
Qed.

(** ** Cached verdicts are current *)

(** a verdict computed with the present rules for a row with that key *)
Definition current (vc : verdictCtx) (k : string) (now : Time.time) (v : EngineVerdict) : Prop :=
  ∃ c t, vx_cacheKey c = k ∧ v = en_Decide t (conn_query c) (vx_engine vc) ∧ (t = now ∨ (now < Time.Add t cacheTTL)%Z).

Definition cache_ok (vc : verdictCtx) : Prop :=
  (Z.of_nat (size (vx_cache vc)) ≤ cacheCap)%Z ∧
  ∀ k cv, vx_cache vc !! k = Some cv →
    ∃ c t, vx_cacheKey c = k ∧ cv_v cv = en_Decide t (conn_query c) (vx_engine vc) ∧ cv_expires cv = Time.Add t cacheTTL.

Inductive verdict_op : Type := VDecide (now : Time.time) (c : Conn) | VTick (file : policy_file).

Section cache.
Context (ord : gmap string cachedVerdict → list string) (Hord : ∀ m, range_order m (ord m))
        (Unmarshal : string → option yamlDocument).

Definition verdict_step (vc : verdictCtx) (o : verdict_op) : verdictCtx :=
  match o with VDecide now c => (decideForConn ord now c vc).2 | VTick file => vx_tick Unmarshal file vc end.

Lemma engine_with (src : option FileSource) (cache : gmap string cachedVerdict) (vc : verdictCtx) :
  vx_engine (vx_with (vx_policy vc) src (vx_blockTelemetry vc) cache vc) = vx_engine vc.
Proof. done. Qed.

Lemma delete_all_lookup (ks : list string) (m : gmap string cachedVerdict) (k : string) (cv : cachedVerdict) :
  foldl (λ m k, delete k m) m ks !! k = Some cv → m !! k = Some cv.
Proof. revert m. induction ks as [|k' ks IH]; intros m; [done|]. cbn. intros Hk%IH. by apply lookup_delete_Some in Hk as [_ ?]. Qed.

Lemma delete_all_size (ks : list string) (m : gmap string cachedVerdict) : size (foldl (λ m k, delete k m) m ks) ≤ size m.
Proof.
  revert m. induction ks as [|k' ks IH]; intros m; [done|]. cbn. etrans; [apply IH|]. rewrite map_size_delete. destruct (m !! k'); cbn; lia.
Qed.

(** a full cache loses at least one entry *)
Lemma evict_quarter_size (m : gmap string cachedVerdict) : m ≠ ∅ → size (evict_quarter ord m) < size m.
Proof.
  intros Hne. unfold evict_quarter. change (Z.to_nat (Z.max 1 (cacheCap / 4))) with (S 1023).
  apply map_choose in Hne as (k0 & cv & Hk0). destruct (Hord m) as [_ Hin].
  destruct (ord m) as [|k ks]; [exfalso; by apply (elem_of_nil (A:=string) k0), Hin; eexists|]. cbn [take foldl].
  destruct (proj1 (Hin k) ltac:(left)) as [cv' Hk]. eapply Nat.le_lt_trans; [apply delete_all_size|].
  rewrite map_size_delete, Hk. cbn. pose proof (map_size_pos m k cv' Hk). lia.
Qed.

Lemma decide_ok (now : Time.time) (c : Conn) (vc : verdictCtx) :
  cache_ok vc → cache_ok (decideForConn ord now c vc).2 ∧ current vc (vx_cacheKey c) now (decideForConn ord now c vc).1 ∧
  vx_engine (decideForConn ord now c vc).2 = vx_engine vc.
Proof.
  intros [Hsz Hok]. unfold decideForConn.
  set (m := if (cacheCap <=? Z.of_nat (size (vx_cache vc)))%Z then evict_quarter ord (vx_cache vc) else vx_cache vc).
  set (v := en_Decide now (conn_query c) (vx_engine vc)).
  assert (∀ k cv, m !! k = Some cv → vx_cache vc !! k = Some cv) as Hm.
  { intros k cv. subst m. case_match; [apply delete_all_lookup|done]. }
  assert (Z.of_nat (size m) < cacheCap)%Z as Hms.
  { subst m. destruct (Z.leb_spec cacheCap (Z.of_nat (size (vx_cache vc)))); [|lia].
    assert (vx_cache vc ≠ ∅) as Hne by (intros He; rewrite He, map_size_empty in *; unfold cacheCap in *; lia).
    pose proof (evict_quarter_size _ Hne). lia. }
  assert (cache_ok (vx_with (vx_policy vc) (vx_source vc) (vx_blockTelemetry vc)
            (<[vx_cacheKey c := {| cv_v := v; cv_expires := Time.Add now cacheTTL |}]> m) vc)) as Hfresh.
  { split; cbn [vx_cache vx_with].
    - rewrite map_size_insert. destruct (m !! vx_cacheKey c); cbn; lia.
    - intros k cv [[<- <-]|[_ Hk]]%lookup_insert_Some; [by exists c, now|]. by apply Hok, Hm. }
  assert (current vc (vx_cacheKey c) now v) as Hv by (exists c, now; split_and!; [done|done|by left]).
  destruct (vx_cache vc !! vx_cacheKey c) as [cv|] eqn:Hc; [|done].
  destruct (Time.Before now (cv_expires cv)) eqn:Hb; [|done].
  split_and!; [done| |done]. destruct (Hok _ _ Hc) as (c' & t & Hk & Hcv & He). exists c', t. split_and!; [done|done|right].
  rewrite <-He. unfold Time.Before in Hb. bool_to_prop. done.
Qed.

Lemma tick_ok (file : policy_file) (vc : verdictCtx) : cache_ok vc → cache_ok (vx_tick Unmarshal file vc).
Proof.
  intros Hok. unfold vx_tick. destruct (vx_source vc) as [s|]; [|done]. destruct (watch_tick Unmarshal file s) as [[fd|] s']; [|done].
  split; cbn [vx_cache vx_with]; [rewrite map_size_empty; unfold cacheCap; lia|]. intros k cv. by rewrite lookup_empty.
Qed.

(** C36: Through any asking and any changes of the policy file, in sequence, a
    verdict given for a row was computed with the policy now in force, less than
    five minutes ago, for a row with the same key; the cache stays within its
    cap. *)
Theorem cached_verdicts_follow_policy (vc : verdictCtx) (os : list verdict_op) (now : Time.time) (c : Conn) :
  vx_cache vc = ∅ →
  let vc' := foldl verdict_step vc os in
  current vc' (vx_cacheKey c) now (decideForConn ord now c vc').1 ∧ (Z.of_nat (size (vx_cache vc')) ≤ cacheCap)%Z.
Proof.
  intros H0 vc'. assert (cache_ok vc') as Hok; [|split; [by apply decide_ok|apply Hok]].
  subst vc'. assert (cache_ok vc) as Hv.
  { split; rewrite H0; [rewrite map_size_empty; unfold cacheCap; lia|]. intros k cv. by rewrite lookup_empty. }
  clear H0. revert vc Hv. induction os as [|o os IH]; intros vc Hv; [done|]. cbn. apply IH.
  destruct o as [t d|file]; cbn; [by apply decide_ok|by apply tick_ok].
Qed.

End cache.

(** ** Rows and rules to try them on *)

Module Demo.
(** the sort: by descending length, stable *)
Definition srt : list labelled → list labelled := merge_sort longer.
Definition ranges : list CIDREntry :=
  [{| cd_CIDR := "8.8.0.0/16"; cd_Label := "Google" |}; {| cd_CIDR := "8.8.8.8/32"; cd_Label := "Public DNS" |};
   {| cd_CIDR := "10.0.0.0"; cd_Label := "dropped" |}].
Definition rules : Document := pol_Load (Some {|
  do_Global := {| gl_DenyDomains := ["*.bad.example"]; gl_DenyCountries := ["XX"]; gl_DenyASNs := [64500%Z]; gl_DenyIPCIDRs := ["203.0.113.0/24"];
                  gl_nets := [] |};
  do_Apps := [{| ar_Match := {| ak_ExeSHA := ""; ak_Exe := ""; ak_Comm := "curl"; ak_Unit := "" |}; ar_AllowOnlyDomains := ["*.good.example"];
                 ar_AllowCountries := []; ar_AllowASNs := []; ar_DenyDomains := []; ar_DenyCountries := []; ar_DenyASNs := []; ar_DenyPorts := [] |}] |}).
Definition ctx : verdictCtx := {|
  vx_policy := rules; vx_kg := new_corpus srt; vx_tlm := []; vx_source := Some {| fs_cur := None; fs_lastM := 0 |}; vx_blockTelemetry := false;
  vx_cache := ∅ |}.
(** a row of curl to an address that resolved to a denied name *)
Definition curl_row (dns sni : string) : Conn :=
  with_names dns sni "" (mergeAttribution 4242 1 "sh" "" "" CGUser "" "" (new_conn (ConnState.Demo.key 0) DirOutbound StateNew 0)).
(** a concrete format *)
Definition match_fields (m : yamlAppMatch) : string * string * string * string := (ym_ExeSHA m, ym_Exe m, ym_Comm m, ym_Unit m).
Definition app_fields (a : yamlAppRule) :=
  (match_fields (ya_Match a), (ya_AllowOnlyDomains a, ya_AllowCountries a, ya_AllowASNs a),
   (ya_DenyDomains a, ya_DenyCountries a, ya_DenyASNs a, ya_DenyPorts a)).
Definition app_from (x : string * string * string * string * (list string * list string * list Z) *
                         (list string * list string * list Z * list Z)) : yamlAppRule :=
  let '((sha, exe, comm, unit), (d, c, a), (dd, dc, da, dp)) := x in
  {| ya_Match := {| ym_ExeSHA := sha; ym_Exe := exe; ym_Comm := comm; ym_Unit := unit |}; ya_AllowOnlyDomains := d; ya_AllowCountries := c;
     ya_AllowASNs := a; ya_DenyDomains := dd; ya_DenyCountries := dc; ya_DenyASNs := da; ya_DenyPorts := dp |}.
Definition marshal (y : yamlDocument) : string :=
  let g := yd_Global y in
  text_of (yd_BlockTelemetry y, (yg_DenyDomains g, yg_DenyCountries g, yg_DenyASNs g, yg_DenyIPCIDRs g), app_fields <$> yd_Apps y).
Definition unmarshal (s : string) : option yamlDocument :=
  x ← of_text s;
  let '(b, (d, c, a, r), apps) := x in
  Some {| yd_BlockTelemetry := b; yd_Global := {| yg_DenyDomains := d; yg_DenyCountries := c; yg_DenyASNs := a; yg_DenyIPCIDRs := r |};
          yd_Apps := app_from <$> apps |}.
Definition fd : FullDocument := {| fd_Doc := rules; fd_BlockTelemetry := true |}.
Definition order (m : gmap string cachedVerdict) : list string := some_order m.
End Demo.

Lemma demo_sorts : sorts Demo.srt.
Proof.
  intros l. split; [apply merge_sort_Permutation|]. by apply StronglySorted_merge_sort; apply _.
Qed.

Lemma demo_yaml (y : yamlDocument) : Demo.unmarshal (Demo.marshal y) = Some y.
Proof.
  unfold Demo.unmarshal, Demo.marshal. rewrite of_text_of. cbn. rewrite <-list_fmap_compose.
  destruct y as [b [] apps]. cbn. do 2 f_equal. rewrite <-(list_fmap_id apps) at 2. apply list_fmap_ext. by intros i [[]] _.
Qed.

Lemma demo_yaml_some (y : yamlDocument) : Demo.marshal y ≠ "".
Proof. unfold Demo.marshal, text_of. by destruct (encode _). Qed.

Lemma lookup_most_specific_witness :
  cs_Lookup " 8.8.8.8" (NewCIDRSet Demo.srt Demo.ranges) = "Public DNS" ∧
  match ParseAddr "8.8.8.8" with
  | None => False
  | Some addr => ∃ e, e ∈ candidates Demo.ranges addr ∧ lb_label e = "Public DNS" ∧
      Forall (λ e', (pf_bits (lb_p e') ≤ pf_bits (lb_p e))%Z) (candidates Demo.ranges addr)
  end.
Proof.
  split; [vm_compute; reflexivity|].
  pose proof (lookup_most_specific Demo.srt Demo.ranges " 8.8.8.8" demo_sorts) as H.
  destruct H as [[H _]|(e & Hin & Hl & Hall)]; [vm_compute in H; discriminate H|].
  exists e. split; [exact Hin|]. split; [|exact Hall]. rewrite <-Hl. vm_compute. reflexivity.
Defined.

(** the same row, with and without the client's name *)
Lemma client_name_hides_resolved_witness :
  vd_Action (en_Decide 7 (conn_query (Demo.curl_row "c2.bad.example" "")) (vx_engine Demo.ctx)) = ActionDeny ∧
  vd_Action (en_Decide 7 (conn_query (Demo.curl_row "c2.bad.example" "www.good.example")) (vx_engine Demo.ctx)) = ActionAllow ∧
  en_Decide 7 (conn_query (Demo.curl_row "c2.bad.example" "www.good.example")) (vx_engine Demo.ctx) =
  en_Decide 7 (conn_query (Demo.curl_row "" "www.good.example")) (vx_engine Demo.ctx).
Proof.
  split; [vm_compute; reflexivity|]. split; [vm_compute; reflexivity|].
  refine (client_name_hides_resolved 7 Demo.ctx (Demo.curl_row "" "www.good.example") (Demo.curl_row "c2.bad.example" "www.good.example") _ _ _ _ _ _);
    first [discriminate|reflexivity].
Defined.

Lemma saved_policy_takes_effect_witness :
  let '(file', s') := fs_Save Demo.marshal true 5 Demo.fd Missing {| fs_cur := None; fs_lastM := 0 |} in
  let vc' := vx_tick Demo.unmarshal file'
               (vx_with (vx_policy Demo.ctx) (Some s') (vx_blockTelemetry Demo.ctx) (vx_cache Demo.ctx) Demo.ctx) in
  vx_policy vc' = pol_Load (Some (fd_Doc Demo.fd)) ∧ vx_blockTelemetry vc' = fd_BlockTelemetry Demo.fd ∧ vx_cache vc' = ∅.
Proof.
  exact (saved_policy_takes_effect Demo.unmarshal Demo.marshal demo_yaml demo_yaml_some 5 Demo.fd Missing {| fs_cur := None; fs_lastM := 0 |}
           Demo.ctx eq_refl eq_refl).
Defined.

(** asked twice, the second answer is the cached one *)
Lemma cached_verdicts_follow_policy_witness :
  let vc' := foldl (verdict_step Demo.order Demo.unmarshal) Demo.ctx [VDecide 100 (Demo.curl_row "c2.bad.example" ""); VTick Missing] in
  vd_AnalysedAt (decideForConn Demo.order 200 (Demo.curl_row "c2.bad.example" "") vc').1 = 100%Z ∧
  current vc' (vx_cacheKey (Demo.curl_row "c2.bad.example" "")) 200 (decideForConn Demo.order 200 (Demo.curl_row "c2.bad.example" "") vc').1 ∧
  (Z.of_nat (size (vx_cache vc')) ≤ cacheCap)%Z.
Proof.
  intros vc'. split; [vm_compute; reflexivity|].
  exact (cached_verdicts_follow_policy Demo.order (λ m, some_order_ok m) Demo.unmarshal Demo.ctx
           [VDecide 100 (Demo.curl_row "c2.bad.example" ""); VTick Missing] 200 (Demo.curl_row "c2.bad.example" "") eq_refl).
Defined.
