(* ===== verification/PacketFilter.v ===== *)
(** * The packet filter (src/pkg/enforce/nfqueue/nfqueue_linux.go,
    src/cmd/xhelix/enforce_wiring.go)

    Outgoing packets that open a connection are queued to the daemon, which
    parses them, asks the verdict engine and answers accept or drop.  Arming
    writes the state the filter reads one field at a time, while the queue
    already runs.

    The answers of nft and of the queue, the clock and whether a verdict came in
    time are arguments. *)

From S2P Require Import Prelude GoStd Bytes NetIP CIDR Prefix CGroupClass ConnState Verdict.

(** ** Packets *)

Record Packet := { pk_Proto : Z; pk_Src : option Addr; pk_Dst : option Addr; pk_SrcPort : Z; pk_DstPort : Z; pk_Flags : Z }.

Definition no_packet : Packet := {| pk_Proto := 0; pk_Src := None; pk_Dst := None; pk_SrcPort := 0; pk_DstPort := 0; pk_Flags := 0 |}.

(** [netip.AddrFromSlice] of 4 or 16 bytes *)
Definition AddrFromSlice (b : bytes) : option Addr :=
  if (length b =? 4)%nat then Some (Addr4 b) else if (length b =? 16)%nat then Some (Addr6 b "") else None.

Definition port_at (b : bytes) (i : nat) : Z := (byte_at b i * 256 + byte_at b (i + 1))%Z.

Definition parseL4 (body : bytes) (proto : Z) (src dst : option Addr) : Packet :=
  if (proto =? 6)%Z then
    if (length body <? 14)%nat then no_packet
    else {| pk_Proto := ProtoTCP; pk_Src := src; pk_Dst := dst; pk_SrcPort := port_at body 0; pk_DstPort := port_at body 2; pk_Flags := byte_at body 13 |}
  else if (proto =? 17)%Z then
    if (length body <? 8)%nat then no_packet
    else {| pk_Proto := ProtoUDP; pk_Src := src; pk_Dst := dst; pk_SrcPort := port_at body 0; pk_DstPort := port_at body 2; pk_Flags := 0 |}
  else no_packet.

Definition parseV4 (pkt : bytes) : Packet :=
  if (length pkt <? 20)%nat then no_packet
  else
    let ihl := Z.to_nat (Z.land (byte_at pkt 0) 0x0f * 4) in
    if (ihl <? 20)%nat || (length pkt <? ihl)%nat then no_packet
    else parseL4 (drop ihl pkt) (byte_at pkt 9) (AddrFromSlice (slice pkt 12 16)) (AddrFromSlice (slice pkt 16 20)).

Definition parseV6 (pkt : bytes) : Packet :=
  if (length pkt <? 40)%nat then no_packet
  else parseL4 (drop 40 pkt) (byte_at pkt 6) (AddrFromSlice (slice pkt 8 24)) (AddrFromSlice (slice pkt 24 40)).

Definition parseL3 (pkt : bytes) : Packet :=
  if (length pkt <? 1)%nat then no_packet
  else
    let v := Z.shiftr (byte_at pkt 0) 4 in
    if (v =? 4)%Z then parseV4 pkt else if (v =? 6)%Z then parseV6 pkt else no_packet.

(** ** The queue's answer *)

Inductive PacketVerdict : Type := VerdictAccept | VerdictDrop | VerdictRepeat.

#[export] Instance PacketVerdict_eq_dec : EqDecision PacketVerdict.
Proof. solve_decision. Defined.

Record QueueStats := { qs_Enqueued : Z; qs_Accepted : Z; qs_Dropped : Z; qs_Failed : Z; qs_TimedOut : Z; qs_NotParsed : Z }.

Definition qs_add (enq acc drp fail tim np : Z) (s : QueueStats) : QueueStats := {|
  qs_Enqueued := u64 (qs_Enqueued s + enq); qs_Accepted := u64 (qs_Accepted s + acc); qs_Dropped := u64 (qs_Dropped s + drp);
  qs_Failed := u64 (qs_Failed s + fail); qs_TimedOut := u64 (qs_TimedOut s + tim); qs_NotParsed := u64 (qs_NotParsed s + np) |}.

(** [payload] is the copied packet, if there is one; [verdict] the function's
    answer, [None] when the deadline passed; [sent] whether the kernel took the
    answer.  The result is what is told to the kernel. *)
Definition onPacket (payload : option bytes) (verdict : Packet → option PacketVerdict) (sent : bool) (s : QueueStats) :
    PacketVerdict * QueueStats :=
  let s := qs_add 1 0 0 0 0 0 s in
  let pkt := match payload with Some b => parseL3 b | None => no_packet end in
  if (pk_Proto pkt =? 0)%Z then (VerdictAccept, qs_add 0 1 0 0 0 1 s)
  else
    let '(v, s) := match verdict pkt with Some v => (v, s) | None => (VerdictAccept, qs_add 0 0 0 0 1 0 s) end in
    match v with
    | VerdictDrop => (v, if sent then qs_add 0 0 1 0 0 0 s else qs_add 0 0 0 1 0 0 s)
    | VerdictRepeat => (v, if sent then s else qs_add 0 0 0 1 0 0 s)
    | VerdictAccept => (v, if sent then qs_add 0 1 0 0 0 0 s else qs_add 0 0 0 1 0 0 s)
    end.

(** ** Arming *)

Definition modeOff : Z := 0.
Definition modeSoft : Z := 1.
Definition modeHard : Z := 2.

Definition modeName (m : Z) : string := if (m =? modeSoft)%Z then "soft" else if (m =? modeHard)%Z then "hard" else "off".

(** [ef_running] says that the manager's queue is open, [ef_rules] that the nft
    table is in place *)
Record enforceCtx := {
  ef_armed : bool; ef_since : Z; ef_soak : Z; ef_mode : Z; ef_wouldDrop : Z; ef_running : bool; ef_rules : bool }.

Definition newEnforceCtx : enforceCtx := {|
  ef_armed := false; ef_since := 0; ef_soak := 0; ef_mode := modeOff; ef_wouldDrop := 0; ef_running := false; ef_rules := false |}.

Definition store_mode (m : Z) (e : enforceCtx) : enforceCtx := {|
  ef_armed := ef_armed e; ef_since := ef_since e; ef_soak := ef_soak e; ef_mode := m; ef_wouldDrop := ef_wouldDrop e;
  ef_running := ef_running e; ef_rules := ef_rules e |}.
Definition store_queue (running rules : bool) (e : enforceCtx) : enforceCtx := {|
  ef_armed := ef_armed e; ef_since := ef_since e; ef_soak := ef_soak e; ef_mode := ef_mode e; ef_wouldDrop := ef_wouldDrop e;
  ef_running := running; ef_rules := rules |}.
Definition store_armed (b : bool) (e : enforceCtx) : enforceCtx := {|
  ef_armed := b; ef_since := ef_since e; ef_soak := ef_soak e; ef_mode := ef_mode e; ef_wouldDrop := ef_wouldDrop e;
  ef_running := ef_running e; ef_rules := ef_rules e |}.
Definition store_times (since soak : Z) (e : enforceCtx) : enforceCtx := {|
  ef_armed := ef_armed e; ef_since := since; ef_soak := soak; ef_mode := ef_mode e; ef_wouldDrop := ef_wouldDrop e;
  ef_running := ef_running e; ef_rules := ef_rules e |}.
Definition store_would (n : Z) (e : enforceCtx) : enforceCtx := {|
  ef_armed := ef_armed e; ef_since := ef_since e; ef_soak := ef_soak e; ef_mode := ef_mode e; ef_wouldDrop := n;
  ef_running := ef_running e; ef_rules := ef_rules e |}.

Definition parse_mode (s : string) : option Z :=
  if bool_decide (s = "soft") then Some modeSoft else if bool_decide (s = "hard") || Str.empty s then Some modeHard else None.

(** the stores of a successful [Arm], in its order; packets are handled between
    them once the third has opened the queue *)
Definition arm_stores (soak : Time.duration) (mode : Z) (now : Time.time) : list (enforceCtx → enforceCtx) := [
  store_mode mode;
  λ e, store_queue (ef_running e) true e;
  λ e, store_queue true (ef_rules e) e;
  store_armed true;
  λ e, store_times (i64 now) (ef_soak e) e;
  λ e, store_times (ef_since e) (i64 (now + Z.max 0 soak)) e;
  store_would 0].

Definition run_stores (fs : list (enforceCtx → enforceCtx)) (e : enforceCtx) : enforceCtx := foldl (λ e f, f e) e fs.

Inductive arm_error : Type := ErrUnknownMode | ErrNftInstall | ErrQueueStart.

(** [nft] and [start] say whether the rules could be installed and the queue
    opened *)
Definition ef_Arm (nft start : bool) (soak : Time.duration) (modeStr : string) (now : Time.time) (e : enforceCtx) :
    result arm_error unit * enforceCtx :=
  if ef_armed e then (Ok tt, e)
  else
    match parse_mode modeStr with
    | None => (Err ErrUnknownMode, e)
    | Some mode =>
        if negb nft then (Err ErrNftInstall, store_mode mode e)
        else if negb start then (Err ErrQueueStart, store_queue (ef_running e) false (store_mode mode e))
        else (Ok tt, run_stores (arm_stores soak mode now) e)
    end.

Definition InSoak (now : Time.time) (e : enforceCtx) : bool := ef_armed e && (i64 now <? ef_soak e)%Z.

Definition ef_Disarm (e : enforceCtx) : enforceCtx :=
  if negb (ef_armed e) then e else store_mode modeOff (store_armed false (store_queue false false e)).

(** [Status], without the counters of the queue; [es_since] is [None] when not
    armed *)
Record enforceStatus := {
  es_armed : bool; es_mode : string; es_in_soak : bool; es_soak_left_s : Z; es_would_drop : Z; es_since : option string }.

Definition Status (now : Time.time) (e : enforceCtx) : enforceStatus := {|
  es_armed := ef_armed e; es_mode := modeName (ef_mode e); es_in_soak := ef_armed e && (i64 now <? ef_soak e)%Z;
  es_soak_left_s := if ef_armed e && (i64 now <? ef_soak e)%Z then i64 (ef_soak e - i64 now) / Time.Second else 0;
  es_would_drop := ef_wouldDrop e;
  es_since := if ef_armed e then Some (Time.FormatRFC3339 (ef_since e)) else None |}.

(** the request of the local interface (handlers_enforce.go): the soak in
    seconds and the mode it arms with *)
Definition arm_request (soakSeconds : Z) (mode : string) : Time.duration * string :=
  let s := if (soakSeconds <=? 0)%Z then 30%Z else soakSeconds in
  let s := if (600 <? s)%Z then 600%Z else s in
  ((s * Time.Second)%Z, if Str.empty mode then "soft" else mode).

(** ** The verdict of a packet *)

Definition packet_tuple (p : Packet) : Tuple := {|
  tu_Proto := ProtoTCP; tu_SrcAddr := None; tu_SrcPort := pk_SrcPort p; tu_DstAddr := pk_Dst p; tu_DstPort := pk_DstPort p |}.

(** what is asked of the engine, with the row of the table if there is one *)
Definition packet_query (p : Packet) (row : option Conn) : Query :=
  let d {A} (x : A) (f : Conn → A) : A := match row with Some c => f c | None => x end in {|
  q_PID := d 0%Z cn_PID; q_Comm := d "" cn_Comm; q_Exe := d "" cn_Exe; q_ExeSHA := d "" cn_ExeSHA; q_UID := d "" cn_UserID;
  q_DstIP := Addr_text (pk_Dst p); q_DstPort := pk_DstPort p; q_DNSName := d "" cn_DNSName; q_SNI := d "" cn_SNI;
  q_Proto := Proto_String (pk_Proto p); q_Country := ""; q_ASN := 0; q_ASNName := "" |}.

(** a TCP packet that is not a first one is let through *)
Definition not_first (p : Packet) : bool := (pk_Proto p =? ProtoTCP)%Z && negb (Z.land (pk_Flags p) 0x12 =? 0x02)%Z.

(** [tab] is the nil table or the table; the two clock readings are that of the
    engine and that of the soak test *)
Definition verdict_fn (vc : verdictCtx) (tab : option Table) (now : Time.time) (p : Packet) (e : enforceCtx) : PacketVerdict * enforceCtx :=
  if not_first p then (VerdictAccept, e)
  else
    let v := en_Decide now (packet_query p (t ← tab; Lookup (packet_tuple p) t)) (vx_engine vc) in
    if negb (bool_decide (vd_Action v = ActionDeny)) then (VerdictAccept, e)
    else
      let e := store_would (u64 (ef_wouldDrop e + 1)) e in
      if (ef_mode e =? modeSoft)%Z || InSoak now e then (VerdictAccept, e) else (VerdictDrop, e).

(** ** What the queue answers *)

(** the packet and whether its answer comes in time and is taken *)
Record queued := { qd_payload : option bytes; qd_now : Time.time; qd_intime : bool; qd_sent : bool }.

(** one packet through the manager and the function the daemon gives it *)
Definition filter_packet (vc : verdictCtx) (tab : option Table) (st : QueueStats * enforceCtx) (q : queued) :
    PacketVerdict * (QueueStats * enforceCtx) :=
  let '(s, e) := st in
  let pkt := match qd_payload q with Some b => parseL3 b | None => no_packet end in
  let r := verdict_fn vc tab (qd_now q) pkt e in
  let '(v, s) := onPacket (qd_payload q) (λ _, if qd_intime q then Some r.1 else None) (qd_sent q) s in
  (v, (s, if (pk_Proto pkt =? 0)%Z then e else r.2)).

Definition filter_all (vc : verdictCtx) (tab : option Table) (qs : list queued) (st : QueueStats * enforceCtx) : QueueStats * enforceCtx :=
  foldl (λ st q, (filter_packet vc tab st q).2) st qs.

(** handling packets changes nothing but the counter of denials *)
Lemma verdict_state (vc : verdictCtx) (tab : option Table) (now : Time.time) (p : Packet) (e : enforceCtx) :
  ∃ n, (verdict_fn vc tab now p e).2 = store_would n e.
Proof.
  assert (e = store_would (ef_wouldDrop e) e) as Hid by (by destruct e).
  unfold verdict_fn. repeat case_match; cbn; eexists; first [reflexivity|exact Hid].
Qed.

Lemma filter_state (vc : verdictCtx) (tab : option Table) (qs : list queued) (st : QueueStats * enforceCtx) :
  ∃ n, (filter_all vc tab qs st).2 = store_would n st.2.
Proof.
  revert st. induction qs as [|q qs IH]; intros [s e]; [exists (ef_wouldDrop e); by destruct e|].
  unfold filter_all. cbn [foldl]. destruct (IH (filter_packet vc tab (s, e) q).2) as [n Hn].
  assert (∃ m, (filter_packet vc tab (s, e) q).2.2 = store_would m e) as [m Hm].
  { unfold filter_packet. destruct (onPacket _ _ _ s) as [v s']. cbn. case_match; [exists (ef_wouldDrop e); by destruct e|apply verdict_state]. }
  exists n. rewrite Hm in Hn. exact Hn.
Qed.

(** whether the engine denies the packet *)
Definition denied (vc : verdictCtx) (tab : option Table) (now : Time.time) (p : Packet) : Prop :=
  vd_Action (en_Decide now (packet_query p (t ← tab; Lookup (packet_tuple p) t)) (vx_engine vc)) = ActionDeny.

#[export] Instance denied_dec (vc : verdictCtx) (tab : option Table) (now : Time.time) (p : Packet) : Decision (denied vc tab now p).
Proof. unfold denied. apply _. Defined.

Lemma verdict_fn_drop (vc : verdictCtx) (tab : option Table) (now : Time.time) (p : Packet) (e : enforceCtx) :
  (verdict_fn vc tab now p e).1 = VerdictDrop ↔
  not_first p = false ∧ denied vc tab now p ∧ ef_mode e ≠ modeSoft ∧ InSoak now e = false.
Proof.
  unfold verdict_fn, denied. destruct (not_first p); [split; [done|by intros []]|].
  case_bool_decide as Hd; cbn [negb]; [|split; [done|by intros (_ & ? & _)]].
  change (ef_mode (store_would _ e)) with (ef_mode e). change (InSoak now (store_would _ e)) with (InSoak now e).
  destruct (Z.eqb_spec (ef_mode e) modeSoft) as [Hm|Hm]; cbn [orb]; [split; [done|by intros (_ & _ & ? & _)]|].
  destruct (InSoak now e); cbn; (split; [done|]); [by intros (_ & _ & _ & ?)|done].
Qed.

Lemma parse_mode_hard (s : string) (m : Z) : parse_mode s = Some m → m = modeHard ↔ m ≠ modeSoft.
Proof.
  unfold parse_mode. destruct (bool_decide (s = "soft")); [by intros [= <-]|]. destruct (_ || _); [|done]. by intros [= <-].
Qed.

(** C30: Once armed, and whatever packets were handled since, the verdict function
    answers drop for a packet exactly when the mode is hard, the soak is over, the
    packet opens a connection or is a datagram, and the engine denies it; otherwise
    it answers accept.  (An answer later than the queue's deadline is not waited for.) *)
Theorem drop_characterised (vc : verdictCtx) (tab : option Table) (soak : Time.duration) (mode : string) (now0 now : Time.time)
    (e : enforceCtx) (s : QueueStats) (qs : list queued) (p : Packet) (m : Z) :
  ef_armed e = false → parse_mode mode = Some m → (0 ≤ now0)%Z → (now0 + Z.max 0 soak ≤ max_int64)%Z → (0 ≤ now ≤ max_int64)%Z →
  let armed := filter_all vc tab qs (s, (ef_Arm true true soak mode now0 e).2) in
  (verdict_fn vc tab now p armed.2).1 =
    if bool_decide (m = modeHard) && bool_decide (now0 + Z.max 0 soak ≤ now)%Z && negb (not_first p) && bool_decide (denied vc tab now p)
    then VerdictDrop else VerdictAccept.
Proof.
  intros Hna Hm H0 H1 H2 armed. destruct (filter_state vc tab qs (s, (ef_Arm true true soak mode now0 e).2)) as [n Hn].
  cbn [snd] in Hn. subst armed. rewrite Hn. clear Hn.
  assert (∀ v, (v = VerdictDrop ↔ (m = modeHard ∧ (now0 + Z.max 0 soak ≤ now)%Z ∧ not_first p = false ∧ denied vc tab now p)) →
    (v = VerdictAccept ∨ v = VerdictDrop) →
    v = if bool_decide (m = modeHard) && bool_decide (now0 + Z.max 0 soak ≤ now)%Z && negb (not_first p) && bool_decide (denied vc tab now p)
        then VerdictDrop else VerdictAccept) as Hif.
  { intros v Hv [Ha| ->]; destruct (bool_decide (m = modeHard) && _ && _ && _) eqn:Hb.
    - bool_to_prop. apply Hv. destruct (not_first p); naive_solver.
    - done.
    - done.
    - exfalso. destruct (proj1 Hv eq_refl) as (Q1 & Q2 & Q3 & Q4). rewrite Q3 in Hb. by rewrite !bool_decide_true in Hb. }
  apply Hif; [|unfold verdict_fn; repeat case_match; auto].
  rewrite verdict_fn_drop. unfold ef_Arm. rewrite Hna, Hm. cbn.
  assert (i64 (now0 + 0 `max` soak) = now0 + 0 `max` soak)%Z as Hi1.
  { rewrite <-(u64_small (now0 + 0 `max` soak)) at 1 by (unfold max_int64 in *; lia). apply i64_u64. unfold min_int64, max_int64 in *. lia. }
  assert (i64 now = now) as Hi2.
  { rewrite <-(u64_small now) at 1 by (unfold max_int64 in *; lia). apply i64_u64. unfold min_int64, max_int64 in *. lia. }
  unfold InSoak. cbn. rewrite Hi1, Hi2, Z.ltb_ge.
  assert (m = modeHard ↔ m ≠ modeSoft) as ->; [|tauto].
  by apply parse_mode_hard in Hm.
Qed.

(** C31: While a hard arming is under way, between the opening of the queue and
    the store of the soak's end, a denied packet is dropped however long the soak
    is to be; once arming is complete the same packet is let through until the
    soak ends. *)
Theorem dropped_while_arming (vc : verdictCtx) (tab : option Table) (soak : Time.duration) (now0 now : Time.time) (k : nat) (p : Packet) :
  3 ≤ k ≤ 5 → not_first p = false → denied vc tab now p → (0 ≤ now0)%Z → (now < now0 + Z.max 0 soak ≤ max_int64)%Z → (0 ≤ now)%Z →
  let stores := arm_stores soak modeHard now0 in
  ef_running (run_stores (take k stores) newEnforceCtx) = true ∧
  (verdict_fn vc tab now p (run_stores (take k stores) newEnforceCtx)).1 = VerdictDrop ∧
  (verdict_fn vc tab now p (run_stores stores newEnforceCtx)).1 = VerdictAccept.
Proof.
  intros Hk Hf Hd H0 H1 H2 stores.
  assert (∀ z, (0 ≤ z ≤ max_int64)%Z → i64 z = z) as Hi.
  { intros z Hz. rewrite <-(u64_small z) at 1 by (unfold max_int64 in *; lia). apply i64_u64. unfold min_int64, max_int64 in *. lia. }
  assert (k = 3 ∨ k = 4 ∨ k = 5) as Hcases by lia. split_and!.
  - by destruct Hcases as [->|[->| ->]].
  - apply verdict_fn_drop. split_and!; [done|done|by destruct Hcases as [->|[->| ->]]|].
    destruct Hcases as [->|[->| ->]]; unfold InSoak; cbn; rewrite ?Hi by (unfold max_int64 in *; lia); try done; by apply Z.ltb_ge.
  - destruct (verdict_fn vc tab now p (run_stores stores newEnforceCtx)).1 eqn:Hv; [done| |].
    + apply verdict_fn_drop in Hv as (_ & _ & _ & Hs). exfalso. revert Hs. unfold InSoak. cbn.
      rewrite !Hi by (unfold max_int64 in *; lia). rewrite Z.ltb_ge. lia.
    + exfalso. revert Hv. unfold verdict_fn. by repeat case_match.
Qed.

(** A packet whose flow has no row yet is denied exactly when its address is
    in a range the policy denies for all: names, countries, networks, and the
    rules of any application play no part. *)
Theorem unmatched_packet_denied_by_address (vc : verdictCtx) (tab : option Table) (now : Time.time) (p : Packet) :
  (t ← tab; Lookup (packet_tuple p) t) = None →
  denied vc tab now p ↔
  ∃ ip, ParseIP (Addr_text (pk_Dst p)) = Some ip ∧ existsb (λ n, Contains n (Some ip)) (gl_nets (do_Global (vx_policy vc))) = true.
Proof.
  intros Hrow. unfold denied. rewrite Hrow, decide_denies, nameless_policy by done. cbn [packet_query q_DstIP].
  split; [intros [H|[_ [e He]]]; [exact H|discriminate He]|by left].
Qed.

(** A packet that does not parse is accepted and never shown to the engine;
    an IPv6 packet with an extension header before its transport header is such a
    packet, whatever it carries. *)
Theorem extension_header_passes (vc : verdictCtx) (tab : option Table) (st : QueueStats * enforceCtx) (q : queued) (b : bytes) :
  qd_payload q = Some b → Z.shiftr (byte_at b 0) 4 = 6%Z → byte_at b 6 ≠ 6%Z → byte_at b 6 ≠ 17%Z →
  let r := filter_packet vc tab st q in r.1 = VerdictAccept ∧ r.2.2 = st.2 ∧ qs_NotParsed r.2.1 = u64 (u64 (qs_NotParsed st.1 + 0) + 1).
Proof.
  destruct st as [s e]. intros Hq Hv H6 H17 r. assert (parseL3 b = no_packet) as Hp.
  { unfold parseL3. rewrite Hv. cbn. case_match; [done|]. unfold parseV6, parseL4. case_match; [done|].
    by rewrite (proj2 (Z.eqb_neq _ _) H6), (proj2 (Z.eqb_neq _ _) H17). }
  subst r. unfold filter_packet, onPacket. rewrite Hq, Hp. done.
Qed.

(** ** Counters *)

Definition adds_up (s : QueueStats) : Prop := qs_Enqueued s ≡64 qs_Accepted s + qs_Dropped s + qs_Failed s.

Lemma qs_add_up (enq acc drp fail tim np : Z) (s : QueueStats) :
  enq = (acc + drp + fail)%Z → adds_up s → adds_up (qs_add enq acc drp fail tim np s).
Proof. intros -> Hs. unfold adds_up, qs_add in *. cbn. rewrite !u64_eq64, Hs. eq64_lia. Qed.

Lemma qs_add_add (a1 a2 a3 a4 a5 a6 b1 b2 b3 b4 b5 b6 : Z) (s : QueueStats) :
  (a1 + b1 = a2 + b2 + (a3 + b3) + (a4 + b4))%Z → adds_up s → adds_up (qs_add b1 b2 b3 b4 b5 b6 (qs_add a1 a2 a3 a4 a5 a6 s)).
Proof.
  intros He Hs. unfold adds_up, qs_add in *. cbn. rewrite !u64_eq64, Hs. constructor. f_equal. lia.
Qed.

(** Through any packets, every one counted as queued is counted once as
    accepted, dropped or failed, and everything the daemon's function is asked
    about is accepted or dropped. *)
Theorem queue_counters_add_up (vc : verdictCtx) (tab : option Table) (qs : list queued) (st : QueueStats * enforceCtx) :
  adds_up st.1 → adds_up (filter_all vc tab qs st).1.
Proof.
  revert st. induction qs as [|q qs IH]; intros [s e] Hs; [done|]. apply IH. cbn [fst] in Hs. unfold filter_packet.
  set (pkt := match qd_payload q with Some b => parseL3 b | None => no_packet end).
  set (r := verdict_fn vc tab (qd_now q) pkt e).
  assert (adds_up (onPacket (qd_payload q) (λ _, if qd_intime q then Some r.1 else None) (qd_sent q) s).2) as Ho.
  { unfold onPacket. fold pkt. destruct (pk_Proto pkt =? 0)%Z; [by apply qs_add_add|].
    assert (r.1 = VerdictAccept ∨ r.1 = VerdictDrop) as Hr by (subst r; unfold verdict_fn; repeat case_match; auto).
    destruct (qd_intime q); [destruct Hr as [-> | ->]; destruct (qd_sent q); by apply qs_add_add|].
    destruct (qd_sent q); cbn [snd].
    all: unfold adds_up, qs_add in *; cbn; rewrite !u64_eq64, Hs; constructor; f_equal; lia. }
  destruct (onPacket _ _ _ s) as [v s']. exact Ho.
Qed.

(** ** A connection to a denied range *)

Module Demo.
(** SYN from port 51000 to 203.0.113.9:443 *)
Definition syn : bytes :=
  ([69; 0; 0; 40; 0; 0; 0; 0; 64; 6; 0; 0; 10; 0; 0; 5; 203; 0; 113; 9] ++ [199; 56; 1; 187; 0; 0; 0; 0; 0; 0; 0; 0; 80; 2; 0; 0; 0; 0; 0; 0])%Z.
(** the same in IPv6, behind a header of destination options *)
Definition behind_options : bytes :=
  ([96; 0; 0; 0; 0; 28; 60; 64] ++ replicate 16 0 ++ replicate 16 0 ++ [6; 0; 1; 4; 0; 0; 0; 0] ++
   [199; 56; 1; 187; 0; 0; 0; 0; 0; 0; 0; 0; 80; 2; 0; 0; 0; 0; 0; 0])%Z.
Definition packet : Packet := parseL3 syn.
Definition stats : QueueStats :=
  {| qs_Enqueued := 0; qs_Accepted := 0; qs_Dropped := 0; qs_Failed := 0; qs_TimedOut := 0; qs_NotParsed := 0 |}.
Definition queue (t : Time.time) : queued := {| qd_payload := Some syn; qd_now := t; qd_intime := true; qd_sent := true |}.
Definition table : Table := ConnState.New 0.
End Demo.

Lemma demo_denied (now : Time.time) : denied Verdict.Demo.ctx (Some Demo.table) now Demo.packet.
Proof. vm_compute. reflexivity. Qed.

Lemma drop_characterised_witness :
  let armed := filter_all Verdict.Demo.ctx (Some Demo.table) [Demo.queue 5000000000] (Demo.stats, (ef_Arm true true (30 * Time.Second) "hard" 0 newEnforceCtx).2) in
  (verdict_fn Verdict.Demo.ctx (Some Demo.table) 29000000000 Demo.packet armed.2).1 = VerdictAccept ∧
  (verdict_fn Verdict.Demo.ctx (Some Demo.table) 30000000000 Demo.packet armed.2).1 = VerdictDrop.
Proof.
  assert (∀ now, (0 ≤ now ≤ max_int64)%Z → (verdict_fn Verdict.Demo.ctx (Some Demo.table) now Demo.packet
    (filter_all Verdict.Demo.ctx (Some Demo.table) [Demo.queue 5000000000] (Demo.stats, (ef_Arm true true (30 * Time.Second) "hard" 0 newEnforceCtx).2)).2).1 =
    if bool_decide (modeHard = modeHard) && bool_decide (0 + Z.max 0 (30 * Time.Second) ≤ now)%Z && negb (not_first Demo.packet) &&
       bool_decide (denied Verdict.Demo.ctx (Some Demo.table) now Demo.packet) then VerdictDrop else VerdictAccept) as H.
  { intros now Hnow.
    refine (drop_characterised Verdict.Demo.ctx (Some Demo.table) (30 * Time.Second) "hard" 0 now newEnforceCtx Demo.stats [Demo.queue 5000000000]
              Demo.packet modeHard eq_refl eq_refl _ _ Hnow); vm_compute; discriminate. }
  intros armed. split.
  - etrans; [apply H; split; vm_compute; discriminate|vm_compute; reflexivity].
  - etrans; [apply H; split; vm_compute; discriminate|vm_compute; reflexivity].
Defined.

Lemma dropped_while_arming_witness :
  (verdict_fn Verdict.Demo.ctx (Some Demo.table) 10 Demo.packet (run_stores (take 3 (arm_stores (30 * Time.Second) modeHard 5)) newEnforceCtx)).1
    = VerdictDrop ∧
  (verdict_fn Verdict.Demo.ctx (Some Demo.table) 10 Demo.packet (run_stores (arm_stores (30 * Time.Second) modeHard 5) newEnforceCtx)).1
    = VerdictAccept.
Proof.
  destruct (dropped_while_arming Verdict.Demo.ctx (Some Demo.table) (30 * Time.Second) 5 10 3 Demo.packet) as (_ & H1 & H2).
  - lia.
  - reflexivity.
  - vm_compute. reflexivity.
  - discriminate.
  - split; [vm_compute; reflexivity|vm_compute; discriminate].
  - discriminate.
  - split; [exact H1|exact H2].
Defined.

Lemma unmatched_packet_denied_by_address_witness :
  denied Verdict.Demo.ctx (Some Demo.table) 7 Demo.packet ↔
  ∃ ip, ParseIP "203.0.113.9" = Some ip ∧ existsb (λ n, Contains n (Some ip)) (gl_nets (do_Global (vx_policy Verdict.Demo.ctx))) = true.
Proof. exact (unmatched_packet_denied_by_address Verdict.Demo.ctx (Some Demo.table) 7 Demo.packet eq_refl). Defined.

Lemma extension_header_passes_witness :
  let r := filter_packet Verdict.Demo.ctx (Some Demo.table) (Demo.stats, (ef_Arm true true 0 "hard" 0 newEnforceCtx).2)
             {| qd_payload := Some Demo.behind_options; qd_now := 100; qd_intime := true; qd_sent := true |} in
  r.1 = VerdictAccept ∧ r.2.2 = (ef_Arm true true 0 "hard" 0 newEnforceCtx).2 ∧ qs_NotParsed r.2.1 = 1%Z.
Proof.
  refine (extension_header_passes Verdict.Demo.ctx (Some Demo.table) (Demo.stats, (ef_Arm true true 0 "hard" 0 newEnforceCtx).2)
           {| qd_payload := Some Demo.behind_options; qd_now := 100; qd_intime := true; qd_sent := true |} Demo.behind_options eq_refl _ _ _);
    first [reflexivity|discriminate].
Defined.

Lemma queue_counters_add_up_witness :
  adds_up (filter_all Verdict.Demo.ctx (Some Demo.table) [Demo.queue 5; Demo.queue 6] (Demo.stats, newEnforceCtx)).1.
Proof.
  refine (queue_counters_add_up Verdict.Demo.ctx (Some Demo.table) [Demo.queue 5; Demo.queue 6] (Demo.stats, newEnforceCtx) _).
  constructor. reflexivity.
Defined.
