(* ===== verification/KernelPolicy.v ===== *)
(** * Egress policies against kernel connects (src/sensors/ebpf/decoder.go,
    src/pkg/pipeline/pipeline.go, src/pkg/egresspolicy)

    The decoder, the policy stage and the policy engine put together: what the
    engine is asked about a connect the kernel reports.  Nothing is modelled
    here; the operations are those of Decoder, Pipeline and EgressPolicy. *)

From S2P Require Import Prelude GoStd Bytes NetIP Model Decoder SecretTaint EgressGuard EgressPolicy Pipeline.

(** ** The event of a connect *)

Lemma connect_kind (k : Z) : EventKind_String k = "net_connect" → k = KindNetConnect.
Proof.
  intros H. apply (switch_key _ _ _ [KindNetConnect]) in H; [|by apply (bool_decide_unpack _)|done].
  cbn in H. rewrite orb_false_r in H. by apply Z.eqb_eq in H.
Qed.

(** only a spawn names an image *)
Lemma connect_image (fs : procfs) (b : bytes) (ev : Event) :
  ev_Image (decode_payload fs KindNetConnect b ev) = ev_Image ev.
Proof.
  change (decode_payload fs KindNetConnect) with decodeNetEvent. unfold decodeNetEvent, set_addr, set_sport, tag_if.
  cbv zeta. repeat case_match; reflexivity.
Qed.

(** the tags the request reads and the kernel never writes *)
Definition request_tags : list string :=
  ["cgroup_class"; "protocol"; "sni"; "dns_name"; "dest_class"; "dst_country"; "dst_asn"].

Record kernel_connect (ev : Event) : Prop := {
  kc_image : ev_Image ev = "";
  kc_comm : Str.len (ev_Comm ev) ≤ 16;
  kc_tags k : k ∈ request_tags → tag ev k = "" }.

Lemma nullTerm_len (b : bytes) : Str.len (nullTerm b) ≤ length b.
Proof.
  induction b as [|c b IH]; [done|]. cbn [nullTerm length]. destruct (c =? 0)%Z; [cbn; lia|].
  rewrite Str.len_app. change (Str.len (Str.byte_str c)) with 1. lia.
Qed.

Lemma slice_le (l : bytes) (i j : nat) : length (slice l i j) ≤ j - i.
Proof. unfold slice. rewrite length_take. lia. Qed.

Lemma request_tag_free (k : string) :
  k ∈ request_tags → k ∈ reserved ∧ k ∉ "kind" :: "ts_ns" :: defaultBoolTags.
Proof.
  intros Hk. assert (Forall (λ k, k ∈ reserved ∧ k ∉ "kind" :: "ts_ns" :: defaultBoolTags) request_tags) as Hf
    by (by apply (bool_decide_unpack _)).
  rewrite Forall_forall in Hf. by apply Hf.
Qed.

Lemma Decode_connect (fs : procfs) (id : Z) (now : Time.time) (raw : bytes) (ev : Event) :
  Decode fs id now raw = Some ev → is_connect ev = true → kernel_connect ev.
Proof.
  intros Hd Hc. pose proof (Decode_some _ _ _ _ _ Hd) as (h & Hh & Hl & He & Hs & Hk).
  unfold is_connect in Hc. apply andb_prop in Hc as [_ Hc%bool_decide_eq_true]. rewrite Hk in Hc. apply connect_kind in Hc.
  constructor.
  - unfold Decode in Hd. rewrite (proj2 (Nat.ltb_ge _ _)) in Hd by done. cbv zeta in Hd. rewrite <-Hh, Hc in Hd.
    injection Hd as <-. apply connect_image.
  - rewrite (k_Comm _ _ He). change (ev_Comm (base_event id now h)) with (nullTerm (h_Comm h)).
    etrans; [apply nullTerm_len|]. subst h. unfold read_hdr. cbn [h_Comm]. etrans; [apply slice_le|]. lia.
  - intros k [H1 H2]%request_tag_free. by apply (reserved_empty _ _ _ _ _ He).
Qed.

(** ** What the engine is asked *)

Lemma kernel_request (ev : Event) :
  kernel_connect ev →
  policy_request ev = {|
    rq_Binary := firstNonEmpty [ev_Comm ev]; rq_UID := ev_UID ev; rq_Cgroup := ""; rq_DestIP := parseIPOrNil (tag ev "dst_ip");
    rq_DestPort := parseUint16 (tag ev "dst_port"); rq_Protocol := ""; rq_SNI := ""; rq_DNSName := ""; rq_DestClass := "";
    rq_Country := ""; rq_ASN := "" |}.
Proof.
  intros [Hi _ Ht]. unfold policy_request. rewrite Hi.
  by rewrite (Ht "cgroup_class"), (Ht "protocol"), (Ht "sni"), (Ht "dns_name"), (Ht "dest_class"), (Ht "dst_country"),
    (Ht "dst_asn") by (by apply (bool_decide_unpack (_ ∈ request_tags))).
Qed.

Lemma Get_none (binary : string) (s : Store) :
  s_policies s !! binary = None → s_policies s !! Str.Base binary = None → Get binary s = None.
Proof. intros H1 H2. unfold Get. rewrite H1. by case_match. Qed.

Lemma firstNonEmpty_one (s : string) : firstNonEmpty [s] = s.
Proof. cbn. destruct s; reflexivity. Qed.

(** a rule that asks for nothing but address and port, which is all a kernel
    connect carries; a rule for the protocol "" counts *)
Definition address_rule (r : Rule) : bool :=
  Str.empty (ru_DestClass r) && Str.empty (ru_Country r) && Str.empty (ru_ASN r) &&
  (negb (nonempty (ru_Protocols r)) || containsStringCI (ru_Protocols r) "") &&
  Str.empty (ru_SNI r) && Str.empty (ru_DNSName r).

(** a policy without its other rules *)
Definition address_rules (p : Policy) : Policy := {|
  p_SchemaVersion := p_SchemaVersion p; p_Binary := p_Binary p; p_Mode := p_Mode p; p_SignedAt := p_SignedAt p;
  p_Signer := p_Signer p; p_Comment := p_Comment p; p_Allow := filter (λ r, address_rule r = true) (p_Allow p);
  p_Deny := filter (λ r, address_rule r = true) (p_Deny p); p_OnlyUIDs := p_OnlyUIDs p; p_OnlyCgroups := p_OnlyCgroups p;
  p_ExceptUIDs := p_ExceptUIDs p; p_ExceptCgroups := p_ExceptCgroups p |}.

Lemma EqualFold_nothing (s : string) : s ≠ "" → Str.EqualFold s "" = false.
Proof. intros Hs. apply bool_decide_eq_false_2. intros H. by apply Hs, ToLower_empty. Qed.

Lemma matchHostname_nothing (s : string) : matchHostname s "" = false.
Proof. unfold matchHostname. cbv zeta. by rewrite orb_true_r. Qed.

Lemma negb_empty (s : string) : negb (Str.empty s) = true → s ≠ "".
Proof. unfold Str.empty. by case_bool_decide. Qed.

(** against a request without names, only the address rules can match *)
Lemma kernel_rule (r : Rule) (ev : Event) :
  kernel_connect ev → matchRule r (policy_request ev) = true → address_rule r = true.
Proof.
  intros Hk. rewrite (kernel_request ev Hk). unfold matchRule. rewrite !unless_true.
  cbn [rq_DestClass rq_Country rq_ASN rq_Protocol rq_SNI rq_DNSName]. rewrite !matchHostname_nothing.
  intros (_ & H1 & H2 & H3 & _ & H4 & H5 & H6 & _). unfold address_rule.
  assert (∀ s, negb (Str.empty s) = false ∨ Str.EqualFold s "" = true → Str.empty s = true) as Hf.
  { intros s [?%negb_false_iff|Hs]; [done|]. destruct (decide (s = "")) as [->|Hn]; [done|].
    by rewrite EqualFold_nothing in Hs. }
  rewrite !Hf by done. destruct H5 as [->%negb_false_iff|?], H6 as [->%negb_false_iff|?]; try done.
  by destruct H4 as [->| ->]; rewrite ?orb_true_r.
Qed.

Lemma kernel_admits (rs : list Rule) (ev : Event) :
  kernel_connect ev →
  admits (filter (λ r, address_rule r = true) rs) (policy_request ev) = admits rs (policy_request ev).
Proof.
  intros Hk. unfold admits. induction rs as [|r rs IH]; [done|]. rewrite filter_cons. cbn [existsb].
  destruct (decide (address_rule r = true)) as [Ha|Ha]; [cbn [existsb]; by rewrite IH|].
  rewrite IH. destruct (matchRule r _) eqn:Hm; [|done]. destruct Ha. by apply (kernel_rule r ev).
Qed.

(** ** What policies can do about a kernel connect *)

(** a connect the kernel reports is judged by the policy of the name its
    process gives itself.  The request names the 16-byte command name and never
    the executable, and of the destination only the address and the port; so two
    processes with one command name get one answer, and a policy filed under a
    longer name, such as the path of an executable, is never consulted. *)
Theorem kernel_policy_request (fs : procfs) (id : Z) (now : Time.time) (raw : bytes) (ev : Event) :
  Decode fs id now raw = Some ev → is_connect ev = true →
  policy_request ev = {|
    rq_Binary := ev_Comm ev; rq_UID := ev_UID ev; rq_Cgroup := ""; rq_DestIP := parseIPOrNil (tag ev "dst_ip");
    rq_DestPort := parseUint16 (tag ev "dst_port"); rq_Protocol := ""; rq_SNI := ""; rq_DNSName := ""; rq_DestClass := "";
    rq_Country := ""; rq_ASN := "" |} ∧
  ∀ s mode, (∀ b sp, s_policies s !! b = Some sp → 16 < Str.len b) →
    let verdict := Decide (Some (NewEngine (Some s) mode)) (policy_request ev) in
    pd_Action verdict = ActionObserve ∧ pd_PolicyID verdict = "".
Proof.
  intros Hd Hc. pose proof (Decode_connect _ _ _ _ _ Hd Hc) as Hk. pose proof (kernel_request ev Hk) as Hr.
  rewrite firstNonEmpty_one in Hr. split; [done|]. intros s mode Hs verdict. subst verdict. unfold Decide.
  cbn [NewEngine e_store]. rewrite Get_none; [done|..]; rewrite Hr; cbn [rq_Binary]; pose proof (kc_comm ev Hk) as Hl.
  - destruct (s_policies s !! ev_Comm ev) as [sp|] eqn:He; [|done]. specialize (Hs _ _ He). lia.
  - destruct (s_policies s !! Str.Base (ev_Comm ev)) as [sp|] eqn:He; [|done].
    specialize (Hs _ _ He). pose proof (Str.Base_len (ev_Comm ev)). lia.
Qed.

(** rules that ask for more than an address are dead for kernel connects:
    the engine answers as if the policy's allow and deny rules on a destination
    class, a country, an ASN, a protocol, an SNI or a DNS name were not there,
    and a policy limited to some cgroups only observes. *)
Theorem rules_beyond_the_address_are_dead (fs : procfs) (id : Z) (now : Time.time) (raw : bytes) (ev : Event)
    (mode : string) (p : Policy) :
  Decode fs id now raw = Some ev → is_connect ev = true →
  pd_Action (policy_decision mode p (policy_request ev)) = pd_Action (policy_decision mode (address_rules p) (policy_request ev)) ∧
  (p_OnlyCgroups p ≠ [] → "" ∉ p_OnlyCgroups p → pd_Action (policy_decision mode p (policy_request ev)) = ActionObserve).
Proof.
  intros Hd Hc. pose proof (Decode_connect _ _ _ _ _ Hd Hc) as Hk. split.
  - unfold policy_decision. change (subjectInScope (address_rules p)) with (subjectInScope p).
    cbn [p_Mode address_rules]. repeat (case_match; [done|]). case_match; [|done].
    by rewrite !deny_default_action; cbn [p_Allow p_Deny address_rules]; rewrite !kernel_admits.
  - intros Hne Hin. unfold policy_decision. assert (subjectInScope p (policy_request ev) = false) as ->; [|done].
    unfold subjectInScope. case_match; [done|]. rewrite (kernel_request ev Hk). cbn [rq_Cgroup].
    assert (nonempty (p_OnlyCgroups p) = true) as -> by (by destruct (p_OnlyCgroups p)).
    assert (containsStringCI (p_OnlyCgroups p) "" = false) as ->; [|done].
    apply not_true_iff_false. intros (c & Hc' & He)%existsb_exists. apply list_elem_of_In in Hc'.
    destruct (decide (c = "")) as [->|Hn]; [done|]. by rewrite EqualFold_nothing in He.
Qed.

(** an operator's correction of a draft may rewrite what its rules say of the
    destination's address, port and names; the classes and the mode stay, nobody
    is exempted, and more may be denied *)
Record corrects (q draft : Policy) : Prop := {
  co_mode : p_Mode q = p_Mode draft;
  co_classes : ru_DestClass <$> p_Allow q = ru_DestClass <$> p_Allow draft;
  co_scope : p_OnlyUIDs q = [] ∧ p_OnlyCgroups q = [] ∧ p_ExceptUIDs q = [] ∧ p_ExceptCgroups q = []
}.

(** the class of a group of classified flows *)
Lemma group_classified (flows : list LedgerFlow) (f : LedgerFlow) :
  Forall (λ f, f_DestClass f ≠ "") flows → f ∈ flows → group_class flows (key_of f) ≠ "".
Proof.
  intros Hf Hin. unfold group_class. destruct (filter (λ c, c ≠ "") _) as [|c l] eqn:Hl.
  - assert (f_DestClass f ∈ ([] : list string)) as Hx%elem_of_nil; [|done]. rewrite <-Hl. apply list_elem_of_filter.
    split; [by eapply Forall_forall in Hf|]. apply list_elem_of_fmap_2. by apply list_elem_of_filter.
  - cbn. assert (c ∈ c :: l) as Hx by by left. rewrite <-Hl in Hx. by apply list_elem_of_filter in Hx as [? _].
Qed.

(** every allow rule of a draft drawn from classified flows names a class *)
Lemma draft_classes (order : list ProposalRule → list ProposalRule) (binary : string) (flows : list LedgerFlow) (st en : Time.time) :
  (∀ l, order l ≡ₚ l) → Forall (λ f, f_DestClass f ≠ "") flows →
  Forall (λ c, c ≠ "") (ru_DestClass <$> p_Allow (ToPolicy (proposeOne order binary flows st en))).
Proof.
  intros Ho Hf. unfold proposeOne, ToPolicy. case_bool_decide; [constructor|]. destruct (mode_note _ _).
  cbn [p_Allow po_Allow]. apply Forall_forall.
  intros c (r & -> & (pr & -> & Hpr)%list_elem_of_fmap)%list_elem_of_fmap. rewrite Ho in Hpr.
  apply list_elem_of_fmap in Hpr as ([k ag] & -> & Hka%elem_of_map_to_list).
  pose proof (aggregate_spec flows k) as Hs. rewrite Hka in Hs. destruct Hs as [(f & Hin & <-) Hc].
  cbn. rewrite Hc. by apply group_classified.
Qed.

(** a rule with a class matches no kernel connect *)
Lemma classes_admit_nothing (rs : list Rule) (ev : Event) :
  kernel_connect ev → Forall (λ c, c ≠ "") (ru_DestClass <$> rs) → admits rs (policy_request ev) = false.
Proof.
  intros Hk Hc. apply not_true_iff_false. intros (r & Hr & Hm)%existsb_exists. apply (kernel_rule r ev Hk) in Hm.
  apply list_elem_of_In in Hr. rewrite Forall_forall in Hc. specialize (Hc _ (list_elem_of_fmap_2 ru_DestClass _ _ Hr)).
  unfold address_rule, Str.empty in Hm. by rewrite (bool_decide_eq_false_2 (ru_DestClass r = "")) in Hm by done.
Qed.

Section lockdown.
Context {S G D : Type} `{TaintStore S} `{Guard G D}.
Context (EdSign : list Z → string → list Z) (b64enc : list Z → string) (YamlPolicy : Policy → option string).

(** C10: the lock-down the workflow proposes cuts its program off.  The ledger
    gives every flow a destination class, the draft copies it into its rules,
    and the policy stage asks the engine before anything stamps that class on
    the event: once the draft, or any correction of it that keeps the classes of
    its rules, is signed and stored under the command name, every connect of
    that program which the kernel reports - the observed ones too - is denied,
    and the denial is carried to the guard. *)
Theorem proposed_lockdown_denies_everything (fs : procfs) (id : Z) (now : Time.time) (raw : bytes) (ev : Event)
    (order : list ProposalRule → list ProposalRule) (flows : list LedgerFlow) (st en : Time.time) (q : Policy)
    (d : D) (p : Pipeline (S:=S) (G:=G)) (g : G) (s : EgressPolicy.Store) (mode : string)
    (signer : string) (priv : list Z) (signed_at : Time.time) (sp : SignedPolicy)
    (Hsort : ∀ l, order l ≡ₚ l)
    (Hclass : Forall (λ f, f_DestClass f ≠ "") flows)
    (Hmode : p_Mode (ToPolicy (proposeOne order (ev_Comm ev) flows st en)) = ModeDenyDefault)
    (Hq : corrects q (ToPolicy (proposeOne order (ev_Comm ev) flows st en)))
    (Hstored : s_policies s !! ev_Comm ev = Some sp)
    (Hsigned : (Sign EdSign b64enc YamlPolicy q signer priv signed_at).2 = Ok sp) :
  Decode fs id now raw = Some ev → is_connect ev = true →
  p_EgressPolicy p = Some (NewEngine (Some s) mode) → p_EgressGuard p = Some g → p_Emit p = true →
  pd_Action (EgressPolicy.Decide (Some (NewEngine (Some s) mode)) (policy_request ev)) = ActionDeny ∧
  tag (egress_path d ev p).1.1 "egress_decision" = "deny" ∧
  p_EgressGuard (egress_path d ev p).1.2 =
    Some (gd_ApplyDeny d (lineageIDFromEvent ev)
            (tag ev "dst_ip" +:+ (":" +:+ Str.itoa (port_tag ev "dst_port"))) (5 * Time.Minute) g).1.
Proof.
  intros Hd Hc He Hg Hem. pose proof (Decode_connect _ _ _ _ _ Hd Hc) as Hk. destruct Hq as [Hqm Hqc Hqs].
  assert (pd_Action (EgressPolicy.Decide (Some (NewEngine (Some s) mode)) (policy_request ev)) = ActionDeny) as Hv.
  { unfold EgressPolicy.Decide. cbn [NewEngine e_store]. unfold Get.
    rewrite (kernel_request ev Hk) at 1. cbn [rq_Binary]. rewrite firstNonEmpty_one, Hstored.
    apply Sign_spec in Hsigned as (_ & _ & _ & b & _ & ->). cbn [sp_Policy e_defaultMode]. rewrite touched_action.
    change (policy_decision ?m (sign_defaults _ _ ?q) ?r) with (policy_decision m q r).
    rewrite deny_default_everywhere by (by rewrite ?Hqm). rewrite (classes_admit_nothing (p_Allow q)); [by rewrite andb_false_r|done|].
    rewrite Hqc. by apply draft_classes. }
  split; [done|]. by destruct (policy_denies d ev p _ g Hc He Hg Hem Hv) as (? & ? & _).
Qed.
End lockdown.

(** curl connects to 93.184.216.34:443, as it has been seen to do *)
Module Demo.
Definition raw : bytes := hdr_bytes Decoder.Demo.hdr ++ Decoder.Demo.payload.

Definition ev : Event := default (base_event 1 0 Decoder.Demo.hdr) (Decode Decoder.Demo.fs 1 0 raw).

Definition flow : LedgerFlow := {|
  f_Binary := "curl"; f_DestCIDR := "93.184.216.34"; f_DestPort := 443; f_Protocol := ""; f_SNI := ""; f_DNSName := "";
  f_DestClass := "raw"; f_BytesOut := 10; f_BytesIn := 20; f_Connects := 40; f_FirstSeen := 24 * Time.Hour;
  f_LastSeen := 24 * Time.Hour + 5 |}.

Definition proposed : Policy := ToPolicy (proposeOne (λ l, l) "curl" [flow] 1 2).

(** the ledger writes the address without a mask; the operator adds it *)
Definition masked (r : Rule) : Rule := {|
  ru_DestCIDR := "93.184.216.34/32"; ru_DestClass := ru_DestClass r; ru_Country := ru_Country r; ru_ASN := ru_ASN r;
  ru_Ports := ru_Ports r; ru_Protocols := ru_Protocols r; ru_SNI := ru_SNI r; ru_DNSName := ru_DNSName r;
  ru_Comment := ru_Comment r |}.

Definition corrected : Policy := {|
  p_SchemaVersion := p_SchemaVersion proposed; p_Binary := p_Binary proposed; p_Mode := p_Mode proposed; p_SignedAt := p_SignedAt proposed;
  p_Signer := p_Signer proposed; p_Comment := p_Comment proposed; p_Allow := masked <$> p_Allow proposed; p_Deny := [];
  p_OnlyUIDs := []; p_OnlyCgroups := []; p_ExceptUIDs := []; p_ExceptCgroups := [] |}.

Definition signed : SignedPolicy :=
  match (Sign EgressPolicy.Demo.sign EgressPolicy.Demo.enc64 EgressPolicy.Demo.yaml corrected "op" EgressPolicy.Demo.priv 5000000000).2 with
  | Ok sp => sp
  | Err _ => EgressPolicy.Demo.signed "curl"
  end.

Definition store (b : string) (sp : SignedPolicy) : EgressPolicy.Store := with_policies {[b := sp]} EgressPolicy.Demo.store0.

Definition pipe : Pipeline (S:=memStore) (G:=guard) :=
  {| p_EgressPolicy := Some (NewEngine (Some (store "curl" signed)) ""); p_SecretTaint := Some (SecretTaint.NewStore 0);
     p_AssetResolver := None; p_TrustZone := None; p_EgressGuard := Some Pipeline.Demo.g0; p_Emit := true |}.
End Demo.

Lemma kernel_policy_request_witness :
  rq_Binary (policy_request Demo.ev) = "curl" ∧
  pd_Action (Decide (Some (NewEngine (Some (Demo.store "/usr/bin/curl-7.88" (EgressPolicy.Demo.signed "/usr/bin/curl-7.88"))) ""))
               (policy_request Demo.ev)) = ActionObserve.
Proof.
  destruct (kernel_policy_request Decoder.Demo.fs 1 0 Demo.raw Demo.ev ltac:(vm_compute; reflexivity) ltac:(vm_compute; reflexivity))
    as [Hr Hl].
  split; [rewrite Hr; vm_compute; reflexivity|].
  refine (proj1 (Hl (Demo.store "/usr/bin/curl-7.88" (EgressPolicy.Demo.signed "/usr/bin/curl-7.88")) "" _)).
  intros b sp Hb. unfold Demo.store, with_policies in Hb. cbn [s_policies] in Hb. apply lookup_singleton_Some in Hb as [<- _]. vm_compute. lia.
Defined.

Lemma rules_beyond_the_address_are_dead_witness :
  let p := EgressPolicy.Demo.policy "curl" in
  p_Allow (address_rules p) = [] ∧
  pd_Action (policy_decision "" p (policy_request Demo.ev)) = pd_Action (policy_decision "" (address_rules p) (policy_request Demo.ev)).
Proof.
  intros p. split; [vm_compute; reflexivity|].
  refine (proj1 (rules_beyond_the_address_are_dead Decoder.Demo.fs 1 0 Demo.raw Demo.ev "" p _ _)); vm_compute; reflexivity.
Defined.

Lemma proposed_lockdown_denies_everything_witness :
  tag Demo.ev "dst_ip" = "93.184.216.34" ∧ tag Demo.ev "dst_port" = "443" ∧
  tag (egress_path Pipeline.Demo.env Demo.ev Demo.pipe).1.1 "egress_decision" = "deny".
Proof.
  split; [vm_compute; reflexivity|]. split; [vm_compute; reflexivity|].
  refine (proj1 (proj2 (proposed_lockdown_denies_everything EgressPolicy.Demo.sign EgressPolicy.Demo.enc64 EgressPolicy.Demo.yaml
    Decoder.Demo.fs 1 0 Demo.raw Demo.ev (λ l, l) [Demo.flow] 1 2 Demo.corrected Pipeline.Demo.env Demo.pipe Pipeline.Demo.g0
    (Demo.store "curl" Demo.signed) "" "op" EgressPolicy.Demo.priv 5000000000 Demo.signed
    (λ l, reflexivity l) _ _ _ _ _ _ _ _ _ _))).
  - constructor; [discriminate|constructor].
  - vm_compute. reflexivity.
  - constructor; [vm_compute; reflexivity..|repeat split].
  - vm_compute. reflexivity.
  - vm_compute. reflexivity.
  - vm_compute. reflexivity.
  - vm_compute. reflexivity.
  - reflexivity.
  - reflexivity.
  - reflexivity.
Defined.
