(* ===== verification/DnsPoison.v ===== *)
(** * The DNS shim (src/pkg/deception/dnspoison)

    The wire format (wire.go), the classifier (classify.go) and the answer to
    one query over UDP or TCP (server.go).  The entropy vote on a label is
    floating point and a variable; so is the upstream resolver.  Sockets and
    the JSON logger are left out.  A slice out of range is a Go panic: [None]
    where a definition returns an [option] of what the function returns. *)

From S2P Require Import Prelude GoStd Bytes.

(** ** Wire format (wire.go) *)

Inductive dns_error : Type :=
  | ErrShortHeader | ErrNoQuestion | ErrShortFooter | ErrNameOverrun | ErrShortPointer
  | ErrLabelOverrun | ErrNameLoop | ErrQueryLength.

Record message := { m_id : Z; m_flags : Z; m_question : list bytes; m_qtype : Z; m_qclass : Z }.

(** [dnsName.String] *)
Definition dnsName_String (labels : list bytes) : string := Str.Join (string_of <$> labels) ".".

(** [binary.BigEndian] on a slice known to be long enough *)
Definition byte_at (b : bytes) (i : nat) : Z := default 0%Z (b !! i).
Definition be16 (b : bytes) (i : nat) : Z := (byte_at b i * 256 + byte_at b (i + 1))%Z.
Definition be32 (b : bytes) (i : nat) : Z := (be16 b i * 65536 + be16 b (i + 2))%Z.

(** [end_] is the offset past the name in the caller's buffer *)
Fixpoint readName_loop (safety : nat) (b : bytes) (off : nat) (jumped : bool) (end_ : nat) (labels : list bytes) :
    result dns_error (list bytes * nat) :=
  match safety with
  | O => Err ErrNameLoop
  | S safety' =>
      if (length b <=? off)%nat then Err ErrNameOverrun
      else
        let ln := byte_at b off in
        if (ln =? 0)%Z then Ok (labels, if jumped then end_ else off + 1)
        else if (Z.land ln 0xC0 =? 0xC0)%Z then
          if (length b <=? off + 1)%nat then Err ErrShortPointer
          else
            let target := Z.to_nat (Z.land (be16 b off) 0x3FFF) in
            readName_loop safety' b target true (if jumped then end_ else off + 2) labels
        else
          let off := off + 1 in
          if (length b <? off + Z.to_nat ln)%nat then Err ErrLabelOverrun
          else readName_loop safety' b (off + Z.to_nat ln) jumped end_ (labels ++ [take (Z.to_nat ln) (drop off b)])
  end.

Definition readName (b : bytes) (off : nat) : result dns_error (list bytes * nat) :=
  readName_loop 128 b off false off [].

Definition parseQuery (b : bytes) : result dns_error message :=
  if (length b <? 12)%nat then Err ErrShortHeader
  else if (be16 b 4 =? 0)%Z then Err ErrNoQuestion
  else match readName b 12 with
       | Err e => Err e
       | Ok (name, off) =>
           if (length b <? off + 4)%nat then Err ErrShortFooter
           else Ok {| m_id := be16 b 0; m_flags := be16 b 2; m_question := name;
                      m_qtype := be16 b off; m_qclass := be16 b (off + 2) |}
       end.

(** [binary.BigEndian.PutUint16(out[i:i+2], v)] *)
Definition put16 (i : nat) (v : Z) (out : bytes) : bytes :=
  <[i := u8 (Z.shiftr v 8)]> (<[(i + 1)%nat := u8 v]> out).

Definition enc16 (v : Z) : bytes := [u8 (Z.shiftr v 8); u8 v].
Definition enc32 (v : Z) : bytes := [u8 (Z.shiftr v 24); u8 (Z.shiftr v 16); u8 (Z.shiftr v 8); u8 v].

(** [b[:n]] *)
Definition slice_to (n : nat) (b : bytes) : option bytes := if (n <=? length b)%nat then Some (take n b) else None.

(** the 16 bytes of the answer section *)
Definition answer (ip : bytes) (ttl : Z) : bytes :=
  enc16 0xC00C ++ (enc16 1 ++ (enc16 1 ++ (enc32 ttl ++ (enc16 4 ++ ip)))).

Definition encodeAResponse (query ip : bytes) (ttl : Z) : option (result dns_error bytes) :=
  if (length query <? 12)%nat then Some (Err ErrQueryLength)
  else if (be16 query 4 =? 0)%Z then Some (Err ErrNoQuestion)
  else match readName query 12 with
       | Err e => Some (Err e)
       | Ok (_, end_) =>
           out ← slice_to (end_ + 4) query;
           Some (Ok (put16 10 0 (put16 8 0 (put16 6 1 (put16 2 0x8180 out))) ++ answer ip ttl))
       end.

Definition encodeNXDomain (query : bytes) : option (result dns_error bytes) :=
  if (length query <? 12)%nat then Some (Err ErrQueryLength)
  else match readName query 12 with
       | Err e => Some (Err e)
       | Ok (_, end_) =>
           out ← slice_to (end_ + 4) query;
           Some (Ok (put16 10 0 (put16 8 0 (put16 6 0 (put16 2 0x8183 out)))))
       end.

(** ** Classifier (classify.go) *)

Inductive MatchKind : Type := MatchNone | MatchKnownBad | MatchDGA.

#[export] Instance MatchKind_eq_dec : EqDecision MatchKind.
Proof. solve_decision. Defined.

Record Classifier := { c_knownBad : list string; c_IgnoreSuffixes : list string }.

Definition defaultIgnoreSuffixes : list string :=
  [".local"; ".localdomain"; ".internal"; ".intranet"; ".arpa"; ".in-addr.arpa"; ".ip6.arpa";
   ".test"; ".invalid"; ".example"; ".onion"].

Definition NewClassifier : Classifier := {| c_knownBad := []; c_IgnoreSuffixes := defaultIgnoreSuffixes |}.

Definition SetKnownBad (domains : list string) (c : Classifier) : Classifier :=
  {| c_knownBad := filter (λ d, d ≠ "") ((λ d, Str.ToLower (Str.TrimSpace d)) <$> domains);
     c_IgnoreSuffixes := c_IgnoreSuffixes c |}.

(** [strings.Split(s, ".")] *)
Fixpoint split_dot (s : string) : list string :=
  match s with
  | EmptyString => [""]
  | String c s' =>
      if bool_decide (c = "."%char) then "" :: split_dot s'
      else match split_dot s' with
           | w :: ws => String c w :: ws
           | [] => [String c ""]
           end
  end.

Section server.
Context (labelLooksDGA : string → bool).

Definition looksDGA (name : string) : bool :=
  let labels := split_dot name in
  let labels := if (2 <=? length labels)%nat then take (length labels - 1) labels else labels in
  existsb labelLooksDGA labels.

Definition Classify (c : Classifier) (name : string) : MatchKind :=
  let name := Str.ToLower (Str.TrimSuffix name ".") in
  if Str.empty name then MatchNone
  else if existsb (Str.Contains name) (c_knownBad c) then MatchKnownBad
  else if existsb (Str.HasSuffix name) (c_IgnoreSuffixes c) then MatchNone
  else if looksDGA name then MatchDGA else MatchNone.

(** ** One query (server.go) *)

Record Config := { cf_Upstream : string; cf_SinkIP : string; cf_AnswerTTL : Z; cf_LogPassthrough : bool;
                   cf_Classifier : Classifier; cf_sinkV4 : bytes }.

Inductive dns_event : Type :=
  | PoisonEvent (peer name : string) (qtype : Z) (match_ : MatchKind) (sink : string) (bytesIn bytesOut : nat)
  | PassthroughEvent (peer name : string) (qtype : Z) (bytesIn bytesOut : nat) (upstream : string) (forwarded : bool).

(** the datagram the upstream resolver answers with, [None] on a network
    error; the read buffer holds 1500 bytes *)
Definition forwardUDP (upstream_answer : option bytes) : option bytes := take 1500 <$> upstream_answer.

(** the response bytes ([None] is nil), the event, whether it was poisoned *)
Definition reply : Type := option bytes * option dns_event * bool.

Definition poison (cfg : Config) (query : bytes) (name : string) (msg : message) (kind : MatchKind) (peer : string) :
    option reply :=
  r ← (if (m_qtype msg =? 1)%Z then encodeAResponse query (cf_sinkV4 cfg) (cf_AnswerTTL cfg) else encodeNXDomain query);
  Some (match r with
        | Err _ => (None, None, false)
        | Ok resp => (Some resp, Some (PoisonEvent peer name (m_qtype msg) kind (cf_SinkIP cfg) (length query) (length resp)), true)
        end).

(** [resp, _ := encodeNXDomain(query)] *)
Definition nx_or_nil (query : bytes) : option (option bytes) :=
  r ← encodeNXDomain query; Some (match r with Ok b => Some b | Err _ => None end).

Definition opt_len (b : option bytes) : nat := match b with Some l => length l | None => 0 end.

Definition passthrough (cfg : Config) (upstream_answer : option bytes) (query : bytes) (name : string) (msg : message)
    (peer : string) : option reply :=
  if Str.empty (cf_Upstream cfg) then
    resp ← nx_or_nil query;
    Some (resp, Some (PassthroughEvent peer name (m_qtype msg) (length query) (opt_len resp) "" false), false)
  else
    let answer := forwardUDP upstream_answer in
    resp ← match answer with Some r => Some (Some r) | None => nx_or_nil query end;
    Some (resp, Some (PassthroughEvent peer (if cf_LogPassthrough cfg then name else "") (m_qtype msg) (length query) (opt_len resp)
                        (cf_Upstream cfg) (bool_decide (is_Some answer))), false).

Definition respond (cfg : Config) (upstream_answer : option bytes) (query : bytes) (peer : string) : option reply :=
  match parseQuery query with
  | Err _ => Some (None, None, false)
  | Ok msg =>
      let name := dnsName_String (m_question msg) in
      let kind := Classify (cf_Classifier cfg) name in
      if bool_decide (kind = MatchNone) then passthrough cfg upstream_answer query name msg peer
      else poison cfg query name msg kind peer
  end.

(** what [emit] hands to the logger *)
Definition emit (ev : option dns_event) : option dns_event :=
  match ev with
  | Some (PassthroughEvent _ "" _ _ _ _ _) => None
  | _ => ev
  end.

(** one datagram: what is written back and logged *)
Definition handleUDP (cfg : Config) (upstream_answer : option bytes) (query : bytes) (peer : string) :
    option (option bytes * option dns_event) :=
  '(resp, ev, _) ← respond cfg upstream_answer query peer; Some (resp, emit ev).

(** one connection: the bytes the peer sends until it stops *)
Definition handleTCP (cfg : Config) (upstream_answer : option bytes) (input : bytes) (peer : string) :
    option (option bytes * option dns_event) :=
  match read_full 2 input with
  | None => Some (None, None)
  | Some (lenBuf, rest) =>
      let n := be16 lenBuf 0 in
      if (n =? 0)%Z || (65535 <? n)%Z then Some (None, None)
      else match read_full (Z.to_nat n) rest with
           | None => Some (None, None)
           | Some (query, _) =>
               match respond cfg upstream_answer query peer with
               | None => None
               | Some (resp, ev, _) => Some ((λ r : bytes, enc16 (Z.of_nat (length r)) ++ r) <$> resp, emit ev)
               end
           end
  end.

End server.

(** ** Queries as RFC 1035 writes them *)

(** a name in full: each label with its length, then the empty label *)
Definition encode_name (labels : list bytes) : bytes :=
  (labels ≫= λ l, Z.of_nat (length l) :: l) ++ [0%Z].

Definition label_ok (l : bytes) : Prop := 1 ≤ length l ≤ 63.

Definition wire (id flags qd an ns ar : Z) (labels : list bytes) (qtype qclass : Z) (rest : bytes) : bytes :=
  enc16 id ++ (enc16 flags ++ (enc16 qd ++ (enc16 an ++ (enc16 ns ++ (enc16 ar ++
    (encode_name labels ++ (enc16 qtype ++ (enc16 qclass ++ rest)))))))).

(** a client's reading of one answer record at [off] *)
Definition read_answer (b : bytes) (off : nat) : option (list bytes * Z * Z * Z * bytes) :=
  match readName b off with
  | Ok (name, o) => Some (name, be16 b o, be16 b (o + 2), be32 b (o + 4), take (Z.to_nat (be16 b (o + 8))) (drop (o + 10) b))
  | Err _ => None
  end.

Definition word (v : Z) : Prop := (0 ≤ v < 65536)%Z.

(** ** Reading and writing *)

Lemma enc16_dec (v : Z) : word v → (u8 (Z.shiftr v 8) * 256 + u8 v)%Z = v.
Proof.
  unfold word, u8. intros Hv. rewrite Z.shiftr_div_pow2 by lia. change (2 ^ 8)%Z with 256%Z.
  rewrite (Z.mod_small (v / 256)); [|split; [apply Z.div_pos; lia|apply Z.div_lt_upper_bound; lia]].
  pose proof (Z.div_mod v 256 ltac:(lia)). lia.
Qed.

Lemma byte_at_app (a b : bytes) (i : nat) : byte_at (a ++ b) (length a + i) = byte_at b i.
Proof. unfold byte_at. rewrite lookup_app_r by lia. do 2 f_equal. lia. Qed.

Lemma be16_app (a b : bytes) (i : nat) : be16 (a ++ b) (length a + i) = be16 b i.
Proof. unfold be16. by rewrite <-Nat.add_assoc, !byte_at_app. Qed.

Lemma be16_enc (v : Z) (b : bytes) : word v → be16 (enc16 v ++ b) 0 = v.
Proof. intros Hv. unfold be16. cbn. by apply enc16_dec. Qed.

Lemma be16_at (a b : bytes) (n : nat) (v : Z) : word v → length a = n → be16 (a ++ (enc16 v ++ b)) n = v.
Proof. intros Hv <-. rewrite <-(Nat.add_0_r (length a)), be16_app. by apply be16_enc. Qed.

(** a byte that is no pointer is less than 192, and a label's length is none *)
Lemma not_pointer (z : Z) : (0 ≤ z < 256)%Z → Z.land z 0xC0 ≠ 0xC0%Z → (z < 192)%Z.
Proof.
  intros Hz. revert z Hz. assert (Forall (λ z, Z.land z 0xC0 ≠ 0xC0%Z → (z < 192)%Z) (seqZ 0 256)) as Hall.
  { vm_compute seqZ. repeat (apply Forall_cons_2; [first [intros _; reflexivity|intros H; exfalso; apply H; reflexivity]|]).
    apply Forall_nil_2. }
  rewrite Forall_forall in Hall. intros z Hz. apply Hall, elem_of_seqZ. lia.
Qed.

Lemma label_length (n : nat) : 1 ≤ n ≤ 63 → Z.land (Z.of_nat n) 0xC0 ≠ 0xC0%Z.
Proof.
  intros Hn. assert (Forall (λ n, Z.land (Z.of_nat n) 0xC0 ≠ 0xC0%Z) (seq 1 63)) as Hall.
  { vm_compute seq. repeat (apply Forall_cons_2; [discriminate|]). apply Forall_nil_2. }
  rewrite Forall_forall in Hall. apply Hall, elem_of_seq. lia.
Qed.

(** where a name ends in the caller's buffer *)
Lemma readName_end (safety : nat) (b : bytes) (off : nat) (jumped : bool) (e0 : nat) (acc ls : list bytes) (e : nat) :
  Forall byte_ok b → readName_loop safety b off jumped e0 acc = Ok (ls, e) →
  if jumped then e = e0
  else off < e ≤ length b ∧ (Z.of_nat e ≤ Z.of_nat off + 192 * (Z.of_nat safety - 1) + 2)%Z.
Proof.
  intros Hb. revert off jumped e0 acc. induction safety as [|safety IH]; intros off jumped e0 acc; [done|].
  cbn [readName_loop]. destruct (length b <=? off)%nat eqn:Hl; [done|]. bool_to_prop.
  destruct (byte_at b off =? 0)%Z eqn:Hz.
  { intros [= <- <-]. destruct jumped; [done|]. lia. }
  destruct (Z.land (byte_at b off) 0xC0 =? 0xC0)%Z eqn:Hp.
  - destruct (length b <=? off + 1)%nat eqn:Hl1; [done|]. bool_to_prop. intros H%IH. subst e. destruct jumped; [done|]. lia.
  - destruct (length b <? off + 1 + Z.to_nat (byte_at b off))%nat eqn:Hl1; [done|]. destruct safety as [|safety]; [done|]. intros H%IH.
    destruct jumped; [done|]. bool_to_prop.
    assert (byte_at b off < 192)%Z.
    { apply not_pointer; [|done]. unfold byte_at. destruct (lookup_lt_is_Some_2 b off Hl) as [z Hzz].
      rewrite Hzz. rewrite Forall_forall in Hb. apply Hb. by eapply list_elem_of_lookup_2. }
    lia.
Qed.

Lemma readName_bound (b : bytes) (ls : list bytes) (e : nat) :
  Forall byte_ok b → readName b 12 = Ok (ls, e) → 12 < e ≤ length b ∧ (Z.of_nat e ≤ 24398)%Z.
Proof.
  intros Hb. unfold readName. generalize (eq_refl (Z.of_nat 128)). generalize 128 at 1 3. intros safety Hs H.
  pose proof (readName_end _ _ _ _ _ _ _ _ Hb H) as [H1 H2]. split; [exact H1|]. rewrite Hs in H2. lia.
Qed.

(** a name written in full is read back, from wherever it starts *)
Lemma readName_full (safety : nat) (labels : list bytes) (pre post : bytes) (jumped : bool) (e0 : nat) (acc : list bytes) :
  Forall label_ok labels → length labels < safety →
  readName_loop safety (pre ++ (encode_name labels ++ post)) (length pre) jumped e0 acc =
  Ok (acc ++ labels, if jumped then e0 else length pre + length (encode_name labels)).
Proof.
  revert labels pre acc. induction safety as [|safety IH]; intros labels pre acc Hok Hlen; [lia|]. cbn [readName_loop].
  assert (∀ i, byte_at (pre ++ (encode_name labels ++ post)) (length pre + i) = byte_at (encode_name labels ++ post) i) as Hat
    by (intros; apply byte_at_app).
  specialize (Hat 0). rewrite Nat.add_0_r in Hat. rewrite Hat.
  rewrite (proj2 (Nat.leb_gt _ _)).
  2:{ rewrite !length_app. unfold encode_name. rewrite length_app. cbn. lia. }
  destruct labels as [|l labels]; [cbn; by rewrite app_nil_r|].
  inversion Hok as [|? ? Hl Hok']; subst.
  assert (byte_at (encode_name (l :: labels) ++ post) 0 = Z.of_nat (length l)) as -> by done.
  unfold label_ok in Hl. rewrite (proj2 (Z.eqb_neq _ _)) by lia. rewrite (proj2 (Z.eqb_neq _ _)) by (by apply label_length).
  assert (pre ++ (encode_name (l :: labels) ++ post) =
          (pre ++ Z.of_nat (length l) :: l) ++ (encode_name labels ++ post)) as Hsplit.
  { unfold encode_name. cbn [mbind list_bind]. by rewrite <-!app_assoc. }
  rewrite Hsplit, Nat2Z.id. rewrite (proj2 (Nat.ltb_ge _ _)) by (rewrite !length_app; cbn; lia).
  assert (length pre + 1 + length l = length (pre ++ Z.of_nat (length l) :: l)) as Hlen' by (rewrite length_app; cbn; lia).
  rewrite Hlen'. rewrite IH by (done || cbn in Hlen; lia). f_equal. f_equal.
  - rewrite <-app_assoc. f_equal. cbn. f_equal.
    rewrite <-!app_assoc, drop_app_ge by lia. replace (length pre + 1 - length pre) with 1 by lia.
    cbn [app drop]. rewrite <-?app_assoc. apply take_app_length.
  - destruct jumped; [done|]. rewrite <-Hlen'. unfold encode_name. cbn [mbind list_bind].
    rewrite !length_app. cbn. lia.
Qed.

Lemma encode_name_length (labels : list bytes) : 1 ≤ length (encode_name labels).
Proof. unfold encode_name. rewrite length_app. cbn. lia. Qed.

(** the header of a message, as one block of 12 bytes *)
Definition header (id flags qd an ns ar : Z) : bytes :=
  enc16 id ++ (enc16 flags ++ (enc16 qd ++ (enc16 an ++ (enc16 ns ++ enc16 ar)))).

Lemma wire_header (id flags qd an ns ar : Z) (labels : list bytes) (qtype qclass : Z) (rest : bytes) :
  wire id flags qd an ns ar labels qtype qclass rest =
  header id flags qd an ns ar ++ (encode_name labels ++ (enc16 qtype ++ (enc16 qclass ++ rest))).
Proof. reflexivity. Qed.

Lemma wire_name (id flags qd an ns ar : Z) (labels : list bytes) (qtype qclass : Z) (rest : bytes) :
  Forall label_ok labels → length labels ≤ 127 →
  readName (wire id flags qd an ns ar labels qtype qclass rest) 12 = Ok (labels, 12 + length (encode_name labels)).
Proof.
  intros Hok Hl. unfold readName. rewrite wire_header.
  exact (readName_full 128 labels (header id flags qd an ns ar) _ false 12 [] Hok ltac:(lia)).
Qed.

Lemma wire_qd (id flags qd an ns ar : Z) (labels : list bytes) (qtype qclass : Z) (rest : bytes) :
  word qd → be16 (wire id flags qd an ns ar labels qtype qclass rest) 4 = qd.
Proof.
  intros Hq. change 4 with (length (enc16 id ++ enc16 flags)). unfold wire. rewrite app_assoc. by apply be16_at.
Qed.

Lemma parse_wire (id flags qd an ns ar : Z) (labels : list bytes) (qtype qclass : Z) (rest : bytes) :
  Forall label_ok labels → length labels ≤ 127 →
  word id → word flags → word qd → qd ≠ 0%Z → word qtype → word qclass →
  parseQuery (wire id flags qd an ns ar labels qtype qclass rest) =
  Ok {| m_id := id; m_flags := flags; m_question := labels; m_qtype := qtype; m_qclass := qclass |}.
Proof.
  intros Hok Hl Hid Hfl Hqd Hq0 Hqt Hqc. unfold parseQuery. rewrite wire_name by done.
  assert (length (wire id flags qd an ns ar labels qtype qclass rest) = 12 + length (encode_name labels) + 4 + length rest) as Hlen.
  { rewrite wire_header, !length_app. cbn. lia. }
  rewrite Hlen. rewrite (proj2 (Nat.ltb_ge _ _)) by lia.
  rewrite wire_qd by done.
  rewrite (proj2 (Z.eqb_neq _ _)) by done. rewrite (proj2 (Nat.ltb_ge _ _)) by lia.
  assert (length (header id flags qd an ns ar ++ encode_name labels) = 12 + length (encode_name labels)) as Ho
    by (rewrite length_app; done).
  f_equal. f_equal.
  - by apply (be16_enc id).
  - by apply (be16_at (enc16 id)).
  - rewrite wire_header, app_assoc. by apply be16_at.
  - rewrite wire_header, app_assoc, app_assoc. apply be16_at; [done|]. rewrite length_app, Ho. done.
Qed.

(** the header rewritten in place *)
Lemma put_header (id flags qd an ns ar fl an' : Z) (tl : bytes) :
  put16 10 0 (put16 8 0 (put16 6 an' (put16 2 fl (header id flags qd an ns ar ++ tl)))) = header id fl qd an' 0 0 ++ tl.
Proof. reflexivity. Qed.

Lemma enc16_mod (v : Z) : (u8 (Z.shiftr v 8) * 256 + u8 v)%Z = (v mod 65536)%Z.
Proof.
  unfold u8. rewrite Z.shiftr_div_pow2 by lia. change (2 ^ 8)%Z with 256%Z. change 65536%Z with (256 * 256)%Z.
  rewrite Z.rem_mul_r by lia. lia.
Qed.

Lemma be32_at (a b : bytes) (n : nat) (v : Z) :
  (0 ≤ v < 4294967296)%Z → length a = n → be32 (a ++ (enc32 v ++ b)) n = v.
Proof.
  intros Hv Hn. unfold be32.
  assert (enc32 v = enc16 (Z.shiftr v 16) ++ enc16 v) as ->.
  { unfold enc32, enc16. by rewrite Z.shiftr_shiftr by lia. }
  rewrite <-app_assoc. rewrite be16_at; [|split|done].
  - assert (be16 (a ++ (enc16 (Z.shiftr v 16) ++ (enc16 v ++ b))) (n + 2) = (v mod 65536)%Z) as ->.
    { rewrite (app_assoc a). replace (n + 2) with (length (a ++ enc16 (Z.shiftr v 16)) + 0) by (rewrite length_app; cbn; lia).
      rewrite be16_app. unfold be16. cbn. apply enc16_mod. }
    rewrite Z.shiftr_div_pow2 by lia. change (2 ^ 16)%Z with 65536%Z.
    pose proof (Z.div_mod v 65536 ltac:(lia)). lia.
  - apply Z.shiftr_nonneg. lia.
  - rewrite Z.shiftr_div_pow2 by lia. apply Z.div_lt_upper_bound; lia.
Qed.

(** what both encoders keep of the query: its first question *)
Lemma wire_question (id flags qd an ns ar : Z) (labels : list bytes) (qtype qclass : Z) (rest : bytes) :
  slice_to (12 + length (encode_name labels) + 4) (wire id flags qd an ns ar labels qtype qclass rest) =
  Some (wire id flags qd an ns ar labels qtype qclass []).
Proof.
  unfold slice_to. rewrite !wire_header, (proj2 (Nat.leb_le _ _)).
  2:{ rewrite !length_app. cbn. lia. }
  f_equal. rewrite !app_assoc, !app_nil_r, take_app_length'; [done|]. rewrite !length_app. cbn. lia.
Qed.

Lemma wire_long (id flags qd an ns ar : Z) (labels : list bytes) (qtype qclass : Z) (rest : bytes) :
  12 ≤ length (wire id flags qd an ns ar labels qtype qclass rest).
Proof. rewrite wire_header, length_app. cbn. lia. Qed.

Lemma encodeA_wire (id flags qd an ns ar : Z) (labels : list bytes) (qtype qclass : Z) (rest ip : bytes) (ttl : Z) :
  Forall label_ok labels → length labels ≤ 127 → word qd → qd ≠ 0%Z →
  encodeAResponse (wire id flags qd an ns ar labels qtype qclass rest) ip ttl =
  Some (Ok (wire id 0x8180 qd 1 0 0 labels qtype qclass (answer ip ttl))).
Proof.
  intros Hok Hl Hq Hq0. unfold encodeAResponse. rewrite (proj2 (Nat.ltb_ge _ _)) by apply wire_long.
  rewrite wire_qd, (proj2 (Z.eqb_neq _ _)), wire_name, wire_question by done. cbn [mbind option_bind].
  do 2 f_equal. rewrite !wire_header, put_header, <-!app_assoc. done.
Qed.

(** the answer's name is a pointer back to the question *)
Lemma read_poisoned (id qd : Z) (labels : list bytes) (qtype qclass : Z) (ip : bytes) (ttl : Z) :
  Forall label_ok labels → length labels ≤ 126 → (0 ≤ ttl < 4294967296)%Z → length ip = 4 →
  read_answer (wire id 0x8180 qd 1 0 0 labels qtype qclass (answer ip ttl)) (12 + length (encode_name labels) + 4) =
  Some (labels, 1, 1, ttl, ip)%Z.
Proof.
  intros Hok Hl Ht Hip.
  set (q := wire id 0x8180 qd 1 0 0 labels qtype qclass []).
  assert (Hq : ∀ t, wire id 0x8180 qd 1 0 0 labels qtype qclass t = q ++ t).
  { intros t. unfold q. rewrite !wire_header, <-!app_assoc. done. }
  assert (Hlen : length q = 12 + length (encode_name labels) + 4).
  { unfold q. rewrite wire_header, !length_app. cbn. lia. }
  rewrite <-Hlen. unfold read_answer.
  assert (readName (wire id 0x8180 qd 1 0 0 labels qtype qclass (answer ip ttl)) (length q) = Ok (labels, length q + 2)) as ->.
  { unfold readName. change 128 with (S 127). generalize (eq_refl 127). generalize 127 at 1 3. intros safety Hs.
    cbn [readName_loop].
    assert (byte_at (wire id 0x8180 qd 1 0 0 labels qtype qclass (answer ip ttl)) (length q) = 0xC0%Z) as ->.
    { rewrite Hq, <-(Nat.add_0_r (length q)), byte_at_app. done. }
    assert (be16 (wire id 0x8180 qd 1 0 0 labels qtype qclass (answer ip ttl)) (length q) = 0xC00C%Z) as ->.
    { rewrite Hq. apply (be16_at q _ _ 0xC00C); [split|]; done. }
    assert (length (wire id 0x8180 qd 1 0 0 labels qtype qclass (answer ip ttl)) = length q + 16) as ->.
    { rewrite Hq, length_app. unfold answer. rewrite !length_app. cbn. rewrite Hip. lia. }
    rewrite !(proj2 (Nat.leb_gt _ _)) by lia. cbn [Z.eqb Z.land Pos.land Pos.eqb].
    exact (readName_full safety labels (header id 0x8180 qd 1 0 0) _ true (length q + 2) [] Hok ltac:(lia)). }
  rewrite Hq. rewrite <-!(Nat.add_assoc (length q)), !be16_app. unfold be32. rewrite <-!(Nat.add_assoc (length q)), !be16_app.
  change (be16 (answer ip ttl) (2 + 4) * 65536 + be16 (answer ip ttl) (2 + 4 + 2))%Z
    with (be32 ((enc16 0xC00C ++ enc16 1 ++ enc16 1) ++ (enc32 ttl ++ (enc16 4 ++ ip))) 6).
  rewrite (be32_at (enc16 0xC00C ++ enc16 1 ++ enc16 1) (enc16 4 ++ ip) 6) by done.
  rewrite drop_app_add. change (Z.to_nat (be16 (answer ip ttl) (2 + 8))) with 4.
  change (drop (2 + 10) (answer ip ttl)) with ip. rewrite take_ge by lia. done.
Qed.

(** ** Every query is answered without a panic *)

Lemma length_put16 (i : nat) (v : Z) (b : bytes) : length (put16 i v b) = length b.
Proof. unfold put16. by rewrite !length_insert. Qed.

Lemma parse_ok (q : bytes) (msg : message) :
  parseQuery q = Ok msg →
  ∃ ls e, 12 ≤ length q ∧ be16 q 4 ≠ 0%Z ∧ readName q 12 = Ok (ls, e) ∧ e + 4 ≤ length q ∧ m_question msg = ls.
Proof.
  unfold parseQuery. destruct (length q <? 12)%nat eqn:H1; [done|]. destruct (be16 q 4 =? 0)%Z eqn:H2; [done|].
  destruct (readName q 12) as [[ls e]|] eqn:H3; [|done]. destruct (length q <? e + 4)%nat eqn:H4; [done|]. bool_to_prop.
  intros [= <-]. exists ls, e. done.
Qed.

(** a reply's bound: the longest question, its footer and one answer *)
Definition reply_ok (r : bytes) : Prop := (Z.of_nat (length r) ≤ 24418)%Z.

Lemma encode_total (q ip : bytes) (ttl : Z) (msg : message) :
  Forall byte_ok q → length ip = 4 → parseQuery q = Ok msg →
  (∃ r, encodeAResponse q ip ttl = Some (Ok r) ∧ reply_ok r) ∧ ∃ r, encodeNXDomain q = Some (Ok r) ∧ reply_ok r.
Proof.
  intros Hb Hip (ls & e & H12 & Hq & Hn & He & _)%parse_ok.
  pose proof (readName_bound _ _ _ Hb Hn) as [_ Hbd].
  unfold encodeAResponse, encodeNXDomain, slice_to, reply_ok.
  rewrite (proj2 (Nat.ltb_ge _ _)), (proj2 (Z.eqb_neq _ _)), Hn, (proj2 (Nat.leb_le _ _)) by lia. cbn [mbind option_bind].
  split; eexists; (split; [reflexivity|]).
  - rewrite length_app, !length_put16, length_take. unfold answer. rewrite !length_app. cbn. rewrite Hip. lia.
  - rewrite !length_put16, length_take. lia.
Qed.

Lemma respond_total (looks : string → bool) (cfg : Config) (up : option bytes) (query : bytes) (peer : string) :
  Forall byte_ok query → length (cf_sinkV4 cfg) = 4 →
  ∃ resp ev p, respond looks cfg up query peer = Some (resp, ev, p) ∧ ∀ r, resp = Some r → reply_ok r.
Proof.
  intros Hb Hip. unfold respond. destruct (parseQuery query) as [msg|] eqn:Hm; [|by eexists _, _, _].
  destruct (encode_total query (cf_sinkV4 cfg) (cf_AnswerTTL cfg) msg Hb Hip Hm) as [(ra & Ha & Hoka) (rn & Hn & Hokn)].
  case_bool_decide.
  - unfold passthrough, nx_or_nil. rewrite Hn. cbn [mbind option_bind].
    destruct (Str.empty _); [eexists _, _, _; split; [done|]; by intros ? [= <-]|].
    destruct up as [r|]; cbn [mbind option_bind]; (eexists _, _, _; split; [done|]); intros ? [= <-]; [|done].
    unfold reply_ok. rewrite length_take. lia.
  - unfold poison. destruct (m_qtype msg =? 1)%Z; [rewrite Ha|rewrite Hn]; cbn [mbind option_bind];
      (eexists _, _, _; split; [done|]); by intros ? [= <-].
Qed.

(** whatever bytes arrive, over UDP or over TCP, the shim answers without
    slicing out of range: compression pointers cannot make the name reader loop
    or the encoders overrun.  No reply is longer than 24418 bytes, so the
    16-bit length put before a TCP reply is that reply's length. *)
Theorem query_never_panics (looks : string → bool) (cfg : Config) (up : option bytes) (input : bytes) (peer : string) :
  Forall byte_ok input → length (cf_sinkV4 cfg) = 4 →
  (∃ out ev, handleUDP looks cfg up input peer = Some (out, ev) ∧ ∀ r, out = Some r → reply_ok r) ∧
  (∃ out ev, handleTCP looks cfg up input peer = Some (out, ev) ∧
    ∀ o, out = Some o → ∃ r, o = enc16 (Z.of_nat (length r)) ++ r ∧ be16 o 0 = Z.of_nat (length r)).
Proof.
  intros Hb Hip. split.
  - unfold handleUDP. destruct (respond_total looks cfg up input peer Hb Hip) as (resp & ev & p & -> & Hr). by eexists _, _.
  - unfold handleTCP. destruct (read_full 2 input) as [[lenBuf rest]|] eqn:H1; [|by eexists _, _].
    destruct ((be16 lenBuf 0 =? 0)%Z || (65535 <? be16 lenBuf 0)%Z); [by eexists _, _|].
    destruct (read_full (Z.to_nat (be16 lenBuf 0)) rest) as [[q rest']|] eqn:H2; [|by eexists _, _].
    assert (Forall byte_ok q) as Hq.
    { unfold read_full in H1, H2. repeat case_match; simplify_eq. by apply Forall_take, Forall_drop. }
    destruct (respond_total looks cfg up q peer Hq Hip) as (resp & ev & p & -> & Hr).
    eexists _, _. split; [done|]. intros o Ho. destruct resp as [r|]; [|done]. injection Ho as <-.
    exists r. split; [done|]. apply be16_enc. specialize (Hr r eq_refl). unfold reply_ok in Hr. unfold word. lia.
Qed.

(** the deception the shim is for.  A well-formed A query for a name the
    classifier flags, whatever its flags, counts and additional records, is
    answered with the sink: the reply carries the query's id and question, says
    no error with one answer, and a client reading that answer finds the
    question's own name (through the compression pointer), type A, class IN,
    the configured TTL and the sink's address.  The upstream plays no part. *)
Theorem poisoned_query_sinks (looks : string → bool) (cfg : Config) (up : option bytes) (peer : string)
    (id flags qd an ns ar : Z) (labels : list bytes) (qclass : Z) (rest : bytes) :
  Forall label_ok labels → length labels ≤ 126 →
  Forall word [id; flags; qd; qclass] → qd ≠ 0%Z →
  (0 ≤ cf_AnswerTTL cfg < 4294967296)%Z → length (cf_sinkV4 cfg) = 4 →
  Classify looks (cf_Classifier cfg) (dnsName_String labels) ≠ MatchNone →
  let query := wire id flags qd an ns ar labels 1 qclass rest in
  let resp := wire id 0x8180 qd 1 0 0 labels 1 qclass (answer (cf_sinkV4 cfg) (cf_AnswerTTL cfg)) in
  respond looks cfg up query peer =
    Some (Some resp, Some (PoisonEvent peer (dnsName_String labels) 1
                             (Classify looks (cf_Classifier cfg) (dnsName_String labels)) (cf_SinkIP cfg)
                             (length query) (length resp)), true) ∧
  parseQuery resp = Ok {| m_id := id; m_flags := 0x8180; m_question := labels; m_qtype := 1; m_qclass := qclass |} ∧
  read_answer resp (12 + length (encode_name labels) + 4) = Some (labels, 1%Z, 1%Z, cf_AnswerTTL cfg, cf_sinkV4 cfg).
Proof.
  intros Hok Hl Hw Hqd Httl Hip Hc query resp. rewrite !Forall_cons in Hw. destruct Hw as (Hid & Hfl & Hq & Hqc & _).
  assert (word 1) as H1 by (unfold word; lia). assert (word 0x8180) as H2 by (unfold word; lia).
  split_and!.
  - unfold respond, query. rewrite parse_wire by (done || lia). cbn [m_question m_qtype].
    rewrite bool_decide_false by done. unfold poison. cbn [m_qtype Z.eqb Pos.eqb].
    rewrite encodeA_wire by (done || lia). reflexivity.
  - unfold resp. apply parse_wire; done || lia.
  - unfold resp. by apply read_poisoned.
Qed.

(** a resolver whose list holds one rat's domain, and a query for it *)
Module Demo.
Definition cfg : Config :=
    {| cf_Upstream := "10.0.0.2:53"; cf_SinkIP := "10.66.0.1"; cf_AnswerTTL := 60; cf_LogPassthrough := false;
       cf_Classifier := SetKnownBad [" Evil-C2.com "] NewClassifier; cf_sinkV4 := [10; 66; 0; 1]%Z |}.
Definition labels : list bytes := bytes_of <$> ["www"; "evil-c2"; "com"].
Definition looks (l : string) : bool := (20 <=? String.length l)%nat.
Definition query : bytes := wire 4660 0x0100 1 0 0 1 labels 1 1 [0; 0; 41]%Z.
End Demo.

Lemma query_never_panics_witness :
  (∃ out ev, handleUDP Demo.looks Demo.cfg None Demo.query "10.0.0.9" = Some (out, ev) ∧ ∀ r, out = Some r → reply_ok r) ∧
  (∃ out ev, handleTCP Demo.looks Demo.cfg None Demo.query "10.0.0.9" = Some (out, ev) ∧
    ∀ o, out = Some o → ∃ r, o = enc16 (Z.of_nat (length r)) ++ r ∧ be16 o 0 = Z.of_nat (length r)).
Proof.
  refine (query_never_panics Demo.looks Demo.cfg None Demo.query "10.0.0.9" _ eq_refl).
  unfold byte_ok. apply (bool_decide_unpack _). vm_compute. exact I.
Defined.

Lemma poisoned_query_sinks_witness :
  dnsName_String Demo.labels = "www.evil-c2.com" ∧
  Classify Demo.looks (cf_Classifier Demo.cfg) "www.evil-c2.com" = MatchKnownBad ∧
  read_answer (wire 4660 0x8180 1 1 0 0 Demo.labels 1 1 (answer [10; 66; 0; 1]%Z 60)) 33 =
    Some (Demo.labels, 1%Z, 1%Z, 60%Z, [10; 66; 0; 1]%Z).
Proof.
  split; [vm_compute; reflexivity|]. split; [vm_compute; reflexivity|].
  refine (proj2 (proj2 (poisoned_query_sinks Demo.looks Demo.cfg None "10.0.0.9" 4660 0x0100 1 0 0 1 Demo.labels 1
            [0; 0; 41]%Z _ _ _ _ _ eq_refl _))).
  - repeat constructor.
  - vm_compute. repeat constructor.
  - repeat constructor; vm_compute; done.
  - discriminate.
  - split; [discriminate|reflexivity].
  - vm_compute. discriminate.
Defined.
