(* ===== verification/Nonce.v ===== *)
(** * Single-use nonces (src/pkg/nonce)

    The issuer and verifier of replay-resistant tokens: outstanding nonces, the
    consumed set and the result counters.  HMAC-SHA256 is a parameter [HMAC key
    msg] giving the hex tag; random bytes and clock readings are arguments of
    the operations that draw them. *)

From S2P Require Import Prelude GoStd Bytes.

Definition DefaultTTL : Time.duration := 5 * Time.Minute.
Definition MaxTTL : Time.duration := 1 * Time.Hour.

Inductive ConsumeResult : Type :=
  | ConsumeOK | ConsumeReplayed | ConsumeExpired | ConsumeInvalidScope
  | ConsumeBadSignature | ConsumeNotIssued.

#[export] Instance ConsumeResult_eq_dec : EqDecision ConsumeResult.
Proof. solve_decision. Defined.

Record Nonce := {
  Version : Z;
  ID : string;
  Scope : string;
  IssuedAt : Time.time;
  ExpiresAt : Time.time;
  Signature : string
}.

(** the atomic counters of the store *)
Inductive counter : Type :=
  | issuedCount | okCount | replayedCount | expiredCount | badSig | notIssued | invalidScope.

#[export] Instance counter_eq_dec : EqDecision counter.
Proof. solve_decision. Defined.

Record Store := {
  issued : gmap string Nonce;
  consumed : gmap string Time.time;
  key : bytes;
  maxSize : Z;
  counters : counter → Z
}.

Definition count_up (c : counter) (f : counter → Z) : counter → Z :=
  λ c', if decide (c' = c) then u64 (f c' + 1) else f c'.

Definition bump (c : counter) (s : Store) : Store :=
  {| issued := issued s; consumed := consumed s; key := key s; maxSize := maxSize s;
     counters := count_up c (counters s) |}.

Inductive nonce_error : Type := ErrShortKey | ErrScopeRequired | ErrRand.

Definition NewStore (k : bytes) (max : Z) : result nonce_error Store :=
  if (Z.of_nat (length k) <? 32)%Z then Err ErrShortKey
  else Ok {| issued := ∅; consumed := ∅; key := k;
             maxSize := if (max <=? 0)%Z then 1000000 else max; counters := λ _, 0%Z |}.

(** 8 big-endian clock bytes and 8 random bytes in hex; [rnd] is the random
    half as a 64-bit number *)
Definition newID (now : Time.time) (rnd : Z) : string := hex16 (u64 now) +:+ hex16 (u64 rnd).

(** [ord] is the order in which the runtime walks a map *)
Abbreviation walk := (∀ V : Type, gmap string V → list string) (only parsing).

(** the loop of [evictOldestLocked]: the key with the earliest time, the first
    visited among equals, the empty string when there is none *)
Definition older {V} (at_ : V → Time.time) (m : gmap string V) (best : string * Time.time)
    (id : string) : string * Time.time :=
  match m !! id with
  | Some v => if Str.empty best.1 || Time.Before (at_ v) best.2 then (id, at_ v) else best
  | None => best
  end.

Definition oldest {V} (at_ : V → Time.time) (m : gmap string V) (ks : list string) : string :=
  (foldl (older at_ m) ("", Time.zero) ks).1.

Definition with_maps (i : gmap string Nonce) (c : gmap string Time.time) (s : Store) : Store :=
  {| issued := i; consumed := c; key := key s; maxSize := maxSize s; counters := counters s |}.

Definition evictOldestLocked (ord : walk) (s : Store) : Store :=
  let o := oldest ExpiresAt (issued s) (ord _ (issued s)) in
  if negb (Str.empty o) then with_maps (delete o (issued s)) (consumed s) s
  else
    let o' := oldest id (consumed s) (ord _ (consumed s)) in
    if negb (Str.empty o') then with_maps (issued s) (delete o' (consumed s)) s else s.

Definition Sweep (now : Time.time) (s : Store) : Store * nat :=
  let dead := filter (λ kn, Time.After now (ExpiresAt kn.2) = true) (issued s) in
  let issued' := filter (λ kn, Time.After now (ExpiresAt kn.2) = false) (issued s) in
  let cutoff := Time.Add now (- MaxTTL) in
  let old := filter (λ ka, Time.Before ka.2 cutoff = true) (consumed s) in
  let consumed' := filter (λ ka, Time.Before ka.2 cutoff = false) (consumed s) in
  (Nat.iter (size dead) (bump expiredCount) (with_maps issued' consumed' s), size dead + size old).

Section nonce.
Context (HMAC : bytes → string → string).

Definition sep : string := String (ascii_of_nat 31) "".

Definition sign_input (n : Nonce) : string :=
  foldr (λ f acc, f +:+ sep +:+ acc) ""
    [Str.itoa (Version n); ID n; Scope n; Str.itoa (i64 (IssuedAt n)); Str.itoa (i64 (ExpiresAt n))].

Definition sign (s : Store) (n : Nonce) : string := HMAC (key s) (sign_input n).

Definition clampTTL (ttl : Time.duration) : Time.duration :=
  let ttl1 := if (ttl <=? 0)%Z then DefaultTTL else ttl in
  if (MaxTTL <? ttl1)%Z then MaxTTL else ttl1.

Definition Issue (ord : walk) (scope : string) (ttl : Time.duration) (idnow : Time.time)
    (rnd : option Z) (now : Time.time) (s : Store) : Store * result nonce_error Nonce :=
  if Str.empty scope then (s, Err ErrScopeRequired)
  else
    match rnd with
    | None => (s, Err ErrRand)
    | Some r =>
        let unsigned := {| Version := 1; ID := newID idnow r; Scope := scope; IssuedAt := now;
                           ExpiresAt := Time.Add now (clampTTL ttl); Signature := "" |} in
        let n := {| Version := 1; ID := newID idnow r; Scope := scope; IssuedAt := now;
                    ExpiresAt := Time.Add now (clampTTL ttl); Signature := sign s unsigned |} in
        let s1 := if (maxSize s <=? Z.of_nat (size (issued s) + size (consumed s)))%Z
                  then evictOldestLocked ord s else s in
        (bump issuedCount (with_maps (<[ID n := n]> (issued s1)) (consumed s1) s1), Ok n)
    end.

(** [t1] is the clock at the expiry test, [t2] when the nonce is burned *)
Definition Consume (on : option Nonce) (scope : string) (t1 t2 : Time.time) (s : Store) :
    Store * ConsumeResult :=
  match on with
  | None => (bump badSig s, ConsumeBadSignature)
  | Some n =>
      if negb (Version n =? 1)%Z || Str.empty (ID n) then (bump badSig s, ConsumeBadSignature)
      else if negb (bool_decide (sign s n = Signature n)) then (bump badSig s, ConsumeBadSignature)
      else if negb (bool_decide (Scope n = scope)) then (bump invalidScope s, ConsumeInvalidScope)
      else if Time.After t1 (ExpiresAt n) then (bump expiredCount s, ConsumeExpired)
      else if has_key (ID n) (consumed s) then (bump replayedCount s, ConsumeReplayed)
      else if negb (has_key (ID n) (issued s)) then (bump notIssued s, ConsumeNotIssued)
      else (bump okCount (with_maps (delete (ID n) (issued s)) (<[ID n := t2]> (consumed s)) s),
            ConsumeOK)
  end.

(** ** Traces *)

Inductive op : Type :=
  | OIssue (scope : string) (ttl : Time.duration) (idnow : Time.time) (rnd : option Z) (now : Time.time)
  | OConsume (n : option Nonce) (scope : string) (t1 t2 : Time.time)
  | OSweep (now : Time.time).

(** what one operation reports: an id minted or an id redeemed *)
Inductive obs : Type := Minted (id : string) | Redeemed (id : string) | Nothing.

#[global] Instance obs_eq_dec : EqDecision obs.
Proof. solve_decision. Defined.

Definition exec (ord : walk) (o : op) (s : Store) : Store * obs :=
  match o with
  | OIssue scope ttl idnow rnd now =>
      let p := Issue ord scope ttl idnow rnd now s in
      (p.1, match p.2 with Ok n => Minted (ID n) | Err _ => Nothing end)
  | OConsume n scope t1 t2 =>
      let p := Consume n scope t1 t2 s in
      (p.1, match p.2, n with ConsumeOK, Some n => Redeemed (ID n) | _, _ => Nothing end)
  | OSweep now => ((Sweep now s).1, Nothing)
  end.

Fixpoint run (ord : walk) (ops : list op) (s : Store) : Store * list obs :=
  match ops with
  | [] => (s, [])
  | o :: ops' =>
      let p := exec ord o s in
      let q := run ord ops' p.1 in (q.1, p.2 :: q.2)
  end.

(** how often [x] occurs *)
Fixpoint times (x : obs) (xs : list obs) : nat :=
  match xs with [] => 0 | y :: ys => (if decide (y = x) then 1 else 0) + times x ys end.

(** ** Maps under the operations *)

Lemma bump_issued (c : counter) (s : Store) : issued (bump c s) = issued s.
Proof. done. Qed.

Lemma iter_bump (n : nat) (c : counter) (s : Store) :
  issued (Nat.iter n (bump c) s) = issued s ∧ consumed (Nat.iter n (bump c) s) = consumed s ∧
  key (Nat.iter n (bump c) s) = key s ∧ maxSize (Nat.iter n (bump c) s) = maxSize s.
Proof. by induction n. Qed.

(** the running best of the eviction scan is an entry of the map *)
Definition is_entry {V} (at_ : V → Time.time) (m : gmap string V) (b : string * Time.time) : Prop :=
  ∃ v, m !! b.1 = Some v ∧ at_ v = b.2.

Lemma older_step {V} (at_ : V → Time.time) (m : gmap string V) b (k : string) (w : V) :
  m !! k = Some w → b.1 = "" ∨ is_entry at_ m b →
  is_entry at_ m (older at_ m b k) ∧ ((older at_ m b k).2 ≤ at_ w)%Z ∧
  (b.1 ≠ "" → ((older at_ m b k).2 ≤ b.2)%Z).
Proof.
  intros Hw Hb. unfold older. rewrite Hw. unfold Str.empty, Time.Before.
  destruct (bool_decide (b.1 = "")) eqn:He; bool_to_prop; simpl.
  - split; [by exists w|]. by split.
  - destruct Hb as [?|Hb]; [done|]. destruct (Z.ltb_spec (at_ w) b.2); simpl.
    + split; [by exists w|]. split; [done|]. lia.
    + done.
Qed.

Lemma older_fold {V} (at_ : V → Time.time) (m : gmap string V) (l : list string) : ∀ b,
  m !! "" = None → (∀ k, k ∈ l → is_Some (m !! k)) → is_entry at_ m b →
  is_entry at_ m (foldl (older at_ m) b l) ∧ ((foldl (older at_ m) b l).2 ≤ b.2)%Z ∧
  ∀ k w, k ∈ l → m !! k = Some w → ((foldl (older at_ m) b l).2 ≤ at_ w)%Z.
Proof.
  induction l as [|k l IH]; intros b He Hl Hb; simpl.
  { split_and!; [done..|]. intros k w Hk. by apply elem_of_nil in Hk. }
  destruct (Hl k) as [w Hw]; [by apply list_elem_of_here|].
  destruct (older_step at_ m b k w Hw) as (H1 & H2 & H3); [by right|].
  destruct (IH (older at_ m b k)) as (I1 & I2 & I3); [done| |done|].
  { intros k' Hk'. apply Hl. by apply list_elem_of_further. }
  assert (b.1 ≠ "") by (intros Hn; destruct Hb as (v & Hv & _); congruence).
  specialize (H3 ltac:(done)). split_and!; [done|lia|].
  intros k' w' [->|Hin]%elem_of_cons Hk'; [simplify_eq; lia|by eapply I3].
Qed.

(** the eviction scan returns a key of the map with the earliest time *)
Lemma oldest_spec {V} (at_ : V → Time.time) (m : gmap string V) (ks : list string) :
  range_order m ks → m !! "" = None → m ≠ ∅ →
  ∃ v, m !! oldest at_ m ks = Some v ∧ ∀ k w, m !! k = Some w → (at_ v ≤ at_ w)%Z.
Proof.
  intros [_ Hk] He Hne. unfold oldest. destruct ks as [|k ks].
  { destruct Hne. apply map_empty. intros k. destruct (m !! k) eqn:E; [|done].
    exfalso. by eapply (not_elem_of_nil k), Hk. }
  assert (is_Some (m !! k)) as [w Hw] by (apply Hk, list_elem_of_here). simpl.
  destruct (older_step at_ m ("", Time.zero) k w Hw) as (H1 & H2 & _); [by left|].
  destruct (older_fold at_ m ks (older at_ m ("", Time.zero) k)) as ((v & Hv & Ht) & I2 & I3); [done| |done|].
  { intros k' Hk'. apply Hk. by apply list_elem_of_further. }
  exists v. split; [done|]. rewrite Ht. intros k' w' Hk'.
  assert (k' ∈ k :: ks) as [->|Hin]%elem_of_cons by (apply Hk; eauto); [simplify_eq; lia|by eapply I3].
Qed.

(** an eviction only deletes *)
Lemma evict_sub (ord : walk) (s : Store) :
  issued (evictOldestLocked ord s) ⊆ issued s ∧ consumed (evictOldestLocked ord s) ⊆ consumed s.
Proof. unfold evictOldestLocked. repeat case_match; simpl; split; (apply delete_subseteq || reflexivity). Qed.

Lemma Sweep_maps (now : Time.time) (s : Store) :
  issued (Sweep now s).1 = filter (λ kn, Time.After now (ExpiresAt kn.2) = false) (issued s) ∧
  consumed (Sweep now s).1 =
    filter (λ ka, Time.Before ka.2 (Time.Add now (- MaxTTL)) = false) (consumed s) ∧
  maxSize (Sweep now s).1 = maxSize s ∧ key (Sweep now s).1 = key s.
Proof.
  unfold Sweep. cbn [fst].
  match goal with |- context [Nat.iter ?n (bump ?c) ?x] => destruct (iter_bump n c x) as (-> & -> & -> & ->) end.
  done.
Qed.

Definition same_maps (s s' : Store) : Prop :=
  issued s' = issued s ∧ consumed s' = consumed s ∧ maxSize s' = maxSize s ∧ key s' = key s.

(** a redemption either fails and touches only a counter, or burns an
    outstanding nonce that verifies *)
Lemma Consume_cases (on : option Nonce) (scope : string) (t1 t2 : Time.time) (s : Store) :
  ((Consume on scope t1 t2 s).2 ≠ ConsumeOK ∧ same_maps s (Consume on scope t1 t2 s).1) ∨
  (∃ n, on = Some n ∧ Version n = 1%Z ∧ ID n ≠ "" ∧ sign s n = Signature n ∧ Scope n = scope ∧
    (t1 ≤ ExpiresAt n)%Z ∧ consumed s !! ID n = None ∧ is_Some (issued s !! ID n) ∧
    Consume on scope t1 t2 s =
      (bump okCount (with_maps (delete (ID n) (issued s)) (<[ID n := t2]> (consumed s)) s), ConsumeOK)).
Proof.
  destruct on as [n|]; [|by left]. unfold Consume.
  destruct (negb (Version n =? 1)%Z || Str.empty (ID n)) eqn:H1; [by left|].
  destruct (negb (bool_decide (sign s n = Signature n))) eqn:H2; [by left|].
  destruct (negb (bool_decide (Scope n = scope))) eqn:H3; [by left|].
  destruct (Time.After t1 (ExpiresAt n)) eqn:H4; [by left|].
  destruct (has_key (ID n) (consumed s)) eqn:H5; [by left|].
  destruct (negb (has_key (ID n) (issued s))) eqn:H6; [by left|].
  unfold Str.empty, Time.After in *. bool_to_prop. right. exists n.
  apply has_key_false in H5. apply has_key_true in H6. by split_and!.
Qed.

(** ** Single use *)

Definition outstanding (id : string) (s : Store) : nat := if has_key id (issued s) then 1 else 0.

Definition one (b : bool) : nat := if b then 1 else 0.

Lemma has_key_mono {V} (k : string) (m m' : gmap string V) :
  m ⊆ m' → one (has_key k m) ≤ one (has_key k m').
Proof.
  intros Hs. unfold has_key. destruct (m !! k) eqn:E; [|simpl; lia].
  by rewrite (lookup_weaken _ _ _ _ E Hs).
Qed.

(** redeeming an id uses up an outstanding copy, minting adds at most one *)
Lemma exec_outstanding (ord : walk) (o : op) (s : Store) (id : string) :
  times (Redeemed id) [(exec ord o s).2] + outstanding id (exec ord o s).1 ≤
  times (Minted id) [(exec ord o s).2] + outstanding id s.
Proof.
  destruct o as [scope ttl idnow rnd now|on scope t1 t2|now]; cbn [exec fst snd].
  - unfold Issue. destruct (Str.empty scope); [done|]. destruct rnd as [r|]; [|done].
    set (s1 := if (_ <=? _)%Z then evictOldestLocked ord s else s).
    assert (outstanding id s1 ≤ outstanding id s) as Hle.
    { subst s1. case_match; [|done]. apply has_key_mono, evict_sub. }
    clearbody s1. cbn [fst snd ID]. unfold outstanding, has_key in *. cbn [issued bump with_maps ID times].
    destruct (decide (newID idnow r = id)) as [->|Hne].
    + rewrite lookup_insert_eq, decide_False, decide_True by done. lia.
    + rewrite lookup_insert_ne, !decide_False by congruence. lia.
  - destruct (Consume_cases on scope t1 t2 s) as [[Hne Hs]|(n & -> & _ & _ & _ & _ & _ & _ & Hi & Heq)].
    + destruct (Consume on scope t1 t2 s) as [s' r]. cbn [fst snd] in *.
      replace (outstanding id s') with (outstanding id s) by (by unfold outstanding; rewrite (proj1 Hs)).
      by destruct r, on.
    + rewrite Heq. unfold outstanding, has_key in *. cbn [issued bump with_maps times fst snd].
      destruct (decide (ID n = id)) as [<-|Hne].
      * rewrite lookup_delete_eq, decide_True, decide_False by done. by destruct Hi as [? ->].
      * rewrite lookup_delete_ne, !decide_False by congruence. lia.
  - cbn [times]. rewrite !decide_False by done. apply (has_key_mono id).
    destruct (Sweep_maps now s) as [-> _]. apply map_filter_subseteq.
Qed.

Lemma run_outstanding (ord : walk) (ops : list op) (id : string) : ∀ s,
  times (Redeemed id) (run ord ops s).2 + outstanding id (run ord ops s).1 ≤
  times (Minted id) (run ord ops s).2 + outstanding id s.
Proof.
  induction ops as [|o ops IH]; intros s; [done|].
  pose proof (exec_outstanding ord o s id) as H1. specialize (IH (exec ord o s).1).
  cbn [run fst snd times] in *. lia.
Qed.

(** ** Size *)

Definition total (s : Store) : nat := size (issued s) + size (consumed s).

Record store_ok (s : Store) : Prop := {
  ok_issued : issued s !! "" = None;
  ok_consumed : consumed s !! "" = None;
  ok_max : (1 ≤ maxSize s)%Z;
  ok_size : (Z.of_nat (total s) ≤ maxSize s)%Z
}.

Lemma newID_nonempty (t : Time.time) (r : Z) : newID t r ≠ "".
Proof. done. Qed.

Lemma size_sub {V} (m m' : gmap string V) : m ⊆ m' → size m ≤ size m'.
Proof. intros. rewrite <-!size_dom. by apply subseteq_size, subseteq_dom. Qed.

Lemma size_delete_in {V} (m : gmap string V) (k : string) (v : V) :
  m !! k = Some v → S (size (delete k m)) = size m.
Proof. intros Hk. rewrite map_size_delete, Hk. pose proof (map_size_pos m k v Hk). simpl. lia. Qed.

Lemma sub_None {V} (m m' : gmap string V) (k : string) : m ⊆ m' → m' !! k = None → m !! k = None.
Proof. intros Hs Hk. by eapply lookup_weaken_None. Qed.

(** evicting from a non-empty store makes room *)
Lemma evict_total (ord : walk) (s : Store) :
  (∀ V (m : gmap string V), range_order m (ord V m)) → store_ok s → 0 < total s →
  total (evictOldestLocked ord s) < total s.
Proof.
  intros Hord [Hi Hc _ _] Hpos. unfold evictOldestLocked, total in *.
  destruct (decide (issued s = ∅)) as [He|Hne].
  - rewrite He in *. rewrite map_size_empty in *.
    assert (oldest ExpiresAt (∅ : gmap string Nonce) (ord _ ∅) = "") as ->.
    { destruct (ord Nonce ∅) as [|k ks] eqn:Ho; [done|]. exfalso.
      destruct (Hord _ (∅ : gmap string Nonce)) as [_ Hk].
      assert (is_Some ((∅ : gmap string Nonce) !! k)) as [? Hs] by (apply Hk; rewrite Ho; apply list_elem_of_here).
      by rewrite lookup_empty in Hs. }
    simpl. destruct (oldest_spec id (consumed s) (ord _ (consumed s))) as (v & Hv & _); [done..| |].
    { intros H0. rewrite H0, map_size_empty in Hpos. lia. }
    unfold Str.empty. rewrite bool_decide_eq_false_2 by (intros Heq; congruence). simpl.
    rewrite map_size_empty. pose proof (size_delete_in _ _ _ Hv). lia.
  - destruct (oldest_spec ExpiresAt (issued s) (ord _ (issued s))) as (v & Hv & _); [done..|].
    unfold Str.empty. rewrite bool_decide_eq_false_2 by (intros Heq; congruence). simpl.
    pose proof (size_delete_in _ _ _ Hv). lia.
Qed.

Lemma evict_keeps (ord : walk) (s : Store) :
  maxSize (evictOldestLocked ord s) = maxSize s ∧ key (evictOldestLocked ord s) = key s.
Proof. unfold evictOldestLocked. by repeat case_match. Qed.

Lemma store_ok_sub (s s' : Store) :
  issued s' ⊆ issued s → consumed s' ⊆ consumed s → maxSize s' = maxSize s → store_ok s → store_ok s'.
Proof.
  intros Hi Hc Hm [H1 H2 H3 H4]. split; [by eapply sub_None|by eapply sub_None|by rewrite Hm|].
  rewrite Hm. pose proof (size_sub _ _ Hi). pose proof (size_sub _ _ Hc). unfold total in *. lia.
Qed.

Lemma nonce_exec_ok (ord : walk) (o : op) (s : Store) :
  (∀ V (m : gmap string V), range_order m (ord V m)) → store_ok s → store_ok (exec ord o s).1.
Proof.
  intros Hord Hok. destruct o as [scope ttl idnow rnd now|on scope t1 t2|now]; cbn [exec fst].
  - unfold Issue. destruct (Str.empty scope); [done|]. destruct rnd as [r|]; [|done].
    set (s1 := if (_ <=? _)%Z then evictOldestLocked ord s else s).
    assert (store_ok s1 ∧ (Z.of_nat (total s1) < maxSize s1)%Z) as [Hok1 Hlt].
    { subst s1. case_match; bool_to_prop; [|split; [done|unfold total; lia]].
      destruct (evict_sub ord s) as [Hi Hc]. destruct (evict_keeps ord s) as [Hm _].
      split; [by eapply store_ok_sub|]. rewrite Hm. destruct Hok as [Hi0 Hc0 Hm0 Hs0].
      assert (0 < total s) by (unfold total in *; lia).
      pose proof (evict_total ord s Hord ltac:(by split) ltac:(done)). lia. }
    clearbody s1. destruct Hok1 as [H1 H2 H3 H4]. split; simpl; [|done|done|].
    + by rewrite lookup_insert_ne by apply newID_nonempty.
    + unfold total in *. simpl. rewrite map_size_insert. case_match; simpl; lia.
  - destruct (Consume_cases on scope t1 t2 s) as [[_ (Hi & Hc & Hm & _)]|(n & -> & _ & Hn & _ & _ & _ & Hc & [v Hi] & Heq)].
    + eapply store_ok_sub; [by rewrite Hi|by rewrite Hc|done|done].
    + rewrite Heq. destruct Hok as [H1 H2 H3 H4]. split; simpl; [|by rewrite lookup_insert_ne|done|].
      * by rewrite lookup_delete_ne.
      * unfold total in *. simpl. rewrite map_size_insert, Hc. pose proof (size_delete_in _ _ _ Hi). simpl. lia.
  - destruct (Sweep_maps now s) as (Hi & Hc & Hm & _).
    eapply store_ok_sub; [rewrite Hi|rewrite Hc|done|done]; apply map_filter_subseteq.
Qed.

Lemma nonce_run_ok (ord : walk) (ops : list op) : ∀ s,
  (∀ V (m : gmap string V), range_order m (ord V m)) → store_ok s → store_ok (run ord ops s).1.
Proof. induction ops as [|o ops IH]; intros s Hord Hok; [done|]. apply IH; [done|]. by apply nonce_exec_ok. Qed.

Lemma NewStore_ok (k : bytes) (max : Z) (s : Store) : NewStore k max = Ok s → store_ok s.
Proof.
  unfold NewStore. intros H. case_match; simplify_eq. case_match; bool_to_prop; split; simpl; try done; try lia.
  unfold total. simpl. rewrite !map_size_empty. lia.
Qed.

(** ** Replay records *)

Fixpoint issues (ops : list op) : nat :=
  match ops with
  | [] => 0
  | OIssue _ _ _ _ _ :: ops' => S (issues ops')
  | _ :: ops' => issues ops'
  end.

(** sweeps that run no later than [t] *)
Definition sweeps_by (t : Time.time) (o : op) : Prop :=
  match o with OSweep now => (now ≤ t)%Z | _ => True end.

(** a replay record survives as long as there is room and no late sweep *)
Lemma exec_keeps_record (ord : walk) (o : op) (s : Store) (id : string) (at_ : Time.time) :
  consumed s !! id = Some at_ → sweeps_by (at_ + MaxTTL) o →
  (Z.of_nat (total s + issues [o]) ≤ maxSize s)%Z →
  consumed (exec ord o s).1 !! id = Some at_ ∧ key (exec ord o s).1 = key s ∧
  maxSize (exec ord o s).1 = maxSize s ∧ total (exec ord o s).1 ≤ total s + issues [o].
Proof.
  intros Hc Hsw Hroom. destruct o as [scope ttl idnow rnd now|on scope t1 t2|now]; cbn [exec fst].
  - change (issues _) with 1 in *.
    unfold Issue. destruct (Str.empty scope); [split_and!; (done || simpl; lia)|].
    destruct rnd as [r|]; [|split_and!; (done || simpl; lia)]. unfold total in *.
    rewrite (proj2 (Z.leb_gt _ _)) by lia. simpl. split_and!; try done.
    rewrite map_size_insert. case_match; simpl; lia.
  - change (issues _) with 0 in *. rewrite !Nat.add_0_r in *.
    destruct (Consume_cases on scope t1 t2 s) as [[_ (Hi & Hc' & Hm & Hk)]|(n & -> & _ & _ & _ & _ & _ & Hn & [v Hi] & Heq)].
    + unfold total. by rewrite Hi, Hc', Hm, Hk.
    + rewrite Heq. simpl. split_and!; try done.
      * rewrite lookup_insert_ne; [done|]. congruence.
      * unfold total. simpl. rewrite map_size_insert, Hn. pose proof (size_delete_in _ _ _ Hi). simpl. lia.
  - change (issues _) with 0 in *. rewrite !Nat.add_0_r in *. simpl in Hsw.
    destruct (Sweep_maps now s) as (Hi & Hc' & -> & ->). split_and!; try done.
    + rewrite Hc'. apply map_lookup_filter_Some. split; [done|]. simpl. apply Z.ltb_ge. unfold Time.Add. lia.
    + unfold total. rewrite Hi, Hc'. apply Nat.add_le_mono; apply size_sub, map_filter_subseteq.
Qed.

Lemma run_keeps_record (ord : walk) (ops : list op) (id : string) (at_ : Time.time) : ∀ s,
  consumed s !! id = Some at_ → Forall (sweeps_by (at_ + MaxTTL)) ops →
  (Z.of_nat (total s + issues ops) ≤ maxSize s)%Z →
  consumed (run ord ops s).1 !! id = Some at_ ∧ key (run ord ops s).1 = key s.
Proof.
  induction ops as [|o ops IH]; intros s Hc Hsw Hroom; [done|]. apply Forall_cons in Hsw as [Ho Hops].
  assert (issues (o :: ops) = issues [o] + issues ops) as Hiss by (by destruct o).
  destruct (exec_keeps_record ord o s id at_) as (H1 & H2 & H3 & H4); [done|done|lia|].
  cbn [run fst]. destruct (IH (exec ord o s).1) as [I1 I2]; [done|done|rewrite H3; lia|].
  split; [done|congruence].
Qed.

(** ** Properties *)

(** C3: a nonce is redeemed at most once per minting: over any sequence of
    operations on a new store, whatever nonces the callers present, the number
    of successful redemptions of an id is at most the number of times that id
    was minted. *)
Theorem nonce_single_use (ord : walk) (k : bytes) (max : Z) (s : Store) (ops : list op) (id : string) :
  NewStore k max = Ok s →
  times (Redeemed id) (run ord ops s).2 ≤ times (Minted id) (run ord ops s).2.
Proof.
  intros Hn. pose proof (run_outstanding ord ops id s) as H.
  assert (outstanding id s = 0) as H0; [|lia].
  unfold NewStore in Hn. case_match; simplify_eq. unfold outstanding, has_key. simpl. by rewrite lookup_empty.
Qed.

(** a freshly minted nonce lives at most [MaxTTL], is accepted once at its
    own scope until it expires, is reported as replayed when presented again in
    that time, and is refused at any other scope. *)
Theorem nonce_lifecycle (ord : walk) (scope scope' : string) (ttl : Time.duration)
    (idnow now t1 t2 t3 t4 : Time.time) (r : Z) (s s1 : Store) (n : Nonce) :
  consumed s !! newID idnow r = None →
  Issue ord scope ttl idnow (Some r) now s = (s1, Ok n) →
  (t1 ≤ ExpiresAt n)%Z → (t3 ≤ ExpiresAt n)%Z →
  (0 < ExpiresAt n - now ≤ MaxTTL)%Z ∧ ID n = newID idnow r ∧
  (scope' ≠ scope → (Consume (Some n) scope' t1 t2 s1).2 = ConsumeInvalidScope) ∧
  (Consume (Some n) scope t1 t2 s1).2 = ConsumeOK ∧
  (Consume (Some n) scope t3 t4 (Consume (Some n) scope t1 t2 s1).1).2 = ConsumeReplayed.
Proof.
  intros Hfresh HI Ht1 Ht3. unfold Issue in HI. destruct (Str.empty scope); [done|]. simplify_eq.
  set (s0 := if (_ <=? _)%Z then evictOldestLocked ord s else s).
  assert (consumed s0 !! newID idnow r = None ∧ key s0 = key s) as [Hc Hk].
  { subst s0. case_match; [|done]. destruct (evict_keeps ord s). split; [|done].
    eapply sub_None; [apply evict_sub|done]. }
  clearbody s0. cbn [ExpiresAt ID] in *.
  assert (sign (bump issuedCount (with_maps (issued s0) (consumed s0) s0))
    {| Version := 1; ID := newID idnow r; Scope := scope; IssuedAt := now;
       ExpiresAt := Time.Add now (clampTTL ttl); Signature := "" |} =
    sign s {| Version := 1; ID := newID idnow r; Scope := scope; IssuedAt := now;
       ExpiresAt := Time.Add now (clampTTL ttl); Signature := "" |}) as Hsig
    by (unfold sign; simpl; by rewrite Hk).
  split; [|split; [done|]].
  { unfold Time.Add, clampTTL, MaxTTL, DefaultTTL, Time.Hour, Time.Minute, Time.Second in *.
    repeat case_match; bool_to_prop; lia. }
  unfold Consume. cbn [Version ID Scope ExpiresAt Signature]. unfold sign, sign_input in *.
  cbn [key bump with_maps Version ID Scope IssuedAt ExpiresAt] in *. rewrite Hk in *.
  unfold Str.empty. rewrite (bool_decide_eq_false_2 (newID idnow r = "")) by apply newID_nonempty.
  rewrite (bool_decide_eq_true_2 (HMAC _ _ = HMAC _ _)) by done.
  rewrite (proj2 (Z.ltb_ge _ _) Ht1 : Time.After t1 _ = false).
  rewrite (proj2 (Z.ltb_ge _ _) Ht3 : Time.After t3 _ = false). simpl.
  rewrite (bool_decide_eq_true_2 (scope = scope)) by done. simpl.
  unfold has_key. simpl. rewrite Hc, lookup_insert_eq. simpl.
  split; [|split; [done|]].
  - intros Hne. by rewrite bool_decide_eq_false_2.
  - rewrite Hk, bool_decide_eq_true_2 by done. simpl. by rewrite lookup_insert_eq.
Qed.

(** once a nonce has been redeemed, presenting it again before it expires
    is reported as a replay after any further operations, provided the store
    has room for what they mint and no sweep runs more than [MaxTTL] after the
    redemption; records are never lost to ordinary expiry. *)
Theorem replay_detected (ord : walk) (s : Store) (n : Nonce) (scope : string)
    (t1 t2 t3 t4 : Time.time) (ops : list op) :
  (Consume (Some n) scope t1 t2 s).2 = ConsumeOK →
  let s1 := (Consume (Some n) scope t1 t2 s).1 in
  Forall (sweeps_by (t2 + MaxTTL)) ops → (Z.of_nat (total s1 + issues ops) ≤ maxSize s1)%Z →
  (t3 ≤ ExpiresAt n)%Z →
  (Consume (Some n) scope t3 t4 (run ord ops s1).1).2 = ConsumeReplayed.
Proof.
  intros HC s1 Hsw Hroom Ht3.
  destruct (Consume_cases (Some n) scope t1 t2 s) as [[? _]|(n' & ? & Hv & Hid & Hsg & Hsc & _ & _ & _ & Heq)];
    [done|]. simplify_eq.
  assert (consumed s1 !! ID n' = Some t2) as Hrec by (subst s1; rewrite Heq; apply lookup_insert_eq).
  destruct (run_keeps_record ord ops (ID n') t2 s1 Hrec Hsw Hroom) as [Hc Hk].
  assert (key s1 = key s) as Hks by (subst s1; by rewrite Heq).
  unfold Consume, sign, Str.empty in *. rewrite Hk, Hks, Hv.
  rewrite (bool_decide_eq_false_2 (ID n' = "")) by done.
  rewrite (bool_decide_eq_true_2 (HMAC _ _ = _)) by done. simpl.
  rewrite bool_decide_eq_true_2 by done. rewrite (proj2 (Z.ltb_ge _ _) Ht3 : Time.After t3 _ = false). simpl.
  unfold has_key. by rewrite Hc.
Qed.

(** the store never holds more than [maxSize] outstanding and consumed
    entries together, for any operations and any map-iteration order. *)
Theorem nonce_store_bounded (ord : walk) (k : bytes) (max : Z) (s : Store) (ops : list op) :
  (∀ V (m : gmap string V), range_order m (ord V m)) → NewStore k max = Ok s →
  (Z.of_nat (total (run ord ops s).1) ≤ maxSize (run ord ops s).1)%Z.
Proof. intros Hord Hn. by apply nonce_run_ok; [|eapply NewStore_ok]. Qed.

End nonce.

(** ** Witnesses *)

Module Demo.
Definition hmac (k : bytes) (m : string) : string := Str.itoa (Z.of_nat (length k)) +:+ m.
Definition key0 : bytes := replicate 32 1%Z.
Definition order : ∀ V : Type, gmap string V → list string := λ V m, some_order m.
Definition store0 : Store :=
  {| issued := ∅; consumed := ∅; key := key0; maxSize := 4; counters := λ _, 0%Z |}.
Definition minted : Store * result nonce_error Nonce := Issue hmac order "submit" 60 1 (Some 5%Z) 100 store0.
Definition n0 : Nonce := match minted.2 with Ok n => n | Err _ => {| Version := 0; ID := ""; Scope := "";
  IssuedAt := 0; ExpiresAt := 0; Signature := "" |} end.
Definition ops0 : list op :=
  [OIssue "submit" 60 1 (Some 5%Z) 100; OConsume (Some n0) "submit" 110 110; OSweep 120;
   OConsume (Some n0) "submit" 130 130].
End Demo.

Lemma nonce_single_use_witness :
  times (Redeemed (ID Demo.n0)) (run Demo.hmac Demo.order Demo.ops0 Demo.store0).2 = 1 ∧
  times (Redeemed (ID Demo.n0)) (run Demo.hmac Demo.order Demo.ops0 Demo.store0).2 ≤
  times (Minted (ID Demo.n0)) (run Demo.hmac Demo.order Demo.ops0 Demo.store0).2.
Proof.
  split; [vm_compute; reflexivity|].
  apply (nonce_single_use Demo.hmac Demo.order Demo.key0 4 Demo.store0 Demo.ops0). reflexivity.
Defined.

Lemma nonce_lifecycle_witness :
  (Consume Demo.hmac (Some Demo.n0) "submit" 150 151 Demo.minted.1).2 = ConsumeOK.
Proof.
  apply (nonce_lifecycle Demo.hmac Demo.order "submit" "other" 60 1 100 150 151 152 153 5
    Demo.store0 Demo.minted.1 Demo.n0); vm_compute; done.
Defined.

Lemma replay_detected_witness :
  let s1 := (Consume Demo.hmac (Some Demo.n0) "submit" 110 111 Demo.minted.1).1 in
  (Consume Demo.hmac (Some Demo.n0) "submit" 150 151
     (run Demo.hmac Demo.order [OSweep 120; OIssue "submit" 60 2 (Some 9%Z) 125] s1).1).2 = ConsumeReplayed.
Proof.
  apply (replay_detected Demo.hmac Demo.order Demo.minted.1 Demo.n0 "submit" 110 111 150 151).
  - vm_compute; reflexivity.
  - repeat constructor; vm_compute; done.
  - vm_compute; done.
  - vm_compute; done.
Defined.

Lemma nonce_store_bounded_witness :
  (Z.of_nat (total (run Demo.hmac Demo.order Demo.ops0 Demo.store0).1) ≤ 4)%Z.
Proof.
  apply (nonce_store_bounded Demo.hmac Demo.order Demo.key0 4 Demo.store0 Demo.ops0);
    [intros V m; apply some_order_ok|reflexivity].
Defined.
