(* ===== verification/MaintenanceChain.v ===== *)
(** * Maintenance grants (src/pkg/maintenancechain)

    Signed, time-boxed grants that unlock guarded behaviour: minting,
    validation, the SQLite table with its in-memory cache, and the coverage
    tests the exec guard asks.  Ed25519, the JSON encodings and the failures of
    the database are parameters; SQL statements act on a list of rows. *)

From S2P Require Import Prelude GoStd Bytes.

(** [Scope] is an open string type with four named values *)
Definition ScopeDeploy : string := "deploy".
Definition ScopeUpdate : string := "update".
Definition ScopeBackup : string := "backup".
Definition ScopeCustom : string := "custom".

Record Grant := {
  ID : string;
  AppName : string;
  CgroupMatch : string;
  Scope : string;
  AllowExec : list string;
  AllowWrite : list string;
  Reason : string;
  CreatedBy : string;
  CreatedAt : Time.time;
  ExpiresAt : Time.time;
  SignedBy : string;
  Signature : bytes
}.

(** the fields the signature covers *)
Record canonical := {
  c_ID : string;
  c_AppName : string;
  c_CgroupMatch : string;
  c_Scope : string;
  c_AllowExec : list string;
  c_AllowWrite : list string;
  c_Reason : string;
  c_CreatedBy : string;
  c_CreatedAt : Time.time;
  c_ExpiresAt : Time.time;
  c_SignedBy : string
}.

Definition canonical_of (g : Grant) : canonical :=
  {| c_ID := ID g; c_AppName := AppName g; c_CgroupMatch := CgroupMatch g; c_Scope := Scope g;
     c_AllowExec := AllowExec g; c_AllowWrite := AllowWrite g; c_Reason := Reason g;
     c_CreatedBy := CreatedBy g; c_CreatedAt := CreatedAt g; c_ExpiresAt := ExpiresAt g;
     c_SignedBy := SignedBy g |}.

Definition scopeDefaultExec (s : string) : list string :=
  if decide (s = ScopeDeploy) then
    ["/bin/sh"; "/bin/bash"; "/usr/bin/sh"; "/usr/bin/bash";
     "/usr/bin/rsync"; "/usr/bin/git"; "/usr/bin/install"]
  else if decide (s = ScopeUpdate) then
    ["/usr/bin/apt-get"; "/usr/bin/apt"; "/usr/bin/dpkg"; "/usr/bin/pip"; "/usr/bin/pip3";
     "/usr/bin/npm"; "/usr/bin/yarn"]
  else if decide (s = ScopeBackup) then
    ["/usr/bin/tar"; "/usr/bin/gzip"; "/usr/bin/gpg"; "/usr/bin/rsync"; "/usr/bin/mysqldump";
     "/usr/bin/pg_dump"]
  else [].

Definition scopeDefaultWrite (s : string) : list string :=
  if decide (s = ScopeDeploy) then ["/srv/"; "/opt/"; "/var/www/"; "/app/"; "/home/"]
  else if decide (s = ScopeUpdate) then ["/var/lib/dpkg/"; "/var/cache/apt/"; "/tmp/"; "/var/tmp/"]
  else if decide (s = ScopeBackup) then ["/var/backups/"; "/tmp/"; "/mnt/"]
  else [].

Definition matchesCgroup (g : Grant) (cgroupPath : string) : bool :=
  if Str.empty (CgroupMatch g) then false
  else bool_decide (cgroupPath = CgroupMatch g) || Str.HasPrefix cgroupPath (CgroupMatch g +:+ "/").

(** one [AllowExec] entry: an exact path or a prefix ending in a star *)
Definition execPatternMatches (allowed binaryPath : string) : bool :=
  bool_decide (allowed = binaryPath) ||
  (Str.HasSuffix allowed "*" && Str.HasPrefix binaryPath (Str.upto (Str.len allowed - 1) allowed)).

Definition CoversExec (g : Grant) (cgroupPath binaryPath : string) : bool :=
  matchesCgroup g cgroupPath && existsb (λ a, execPatternMatches a binaryPath) (AllowExec g).

Definition CoversWrite (g : Grant) (cgroupPath filePath : string) : bool :=
  matchesCgroup g cgroupPath && existsb (λ p, Str.HasPrefix filePath p) (AllowWrite g).

Definition IsExpired (now : Time.time) (g : Grant) : bool := Time.After now (ExpiresAt g).

Definition Remaining (now : Time.time) (g : Grant) : Time.duration :=
  let r := Time.Sub (ExpiresAt g) now in if (r <? 0)%Z then 0%Z else r.

Inductive grant_error : Type :=
  | ErrNil | ErrAppName | ErrCgroup | ErrReason | ErrTTL | ErrSignerKey | ErrCanonical
  | ErrExpired | ErrUnknownSigner | ErrBadSignature | ErrMarshal | ErrInsert | ErrDB | ErrNotFound.

Definition ttl_ok (ttl : Time.duration) : bool :=
  negb ((ttl <? Time.Minute)%Z || (24 * Time.Hour <? ttl)%Z).

(** ** The grants table *)

Record row := {
  r_id : string;
  r_created : Z;
  r_expires : Z;
  r_revoked : bool;
  r_raw : string
}.

(** [t.Unix()] *)
Definition Unix (t : Time.time) : Z := (t / Time.Second)%Z.

Definition row_of (g : Grant) (raw : string) : row :=
  {| r_id := ID g; r_created := Unix (CreatedAt g); r_expires := Unix (ExpiresAt g);
     r_revoked := false; r_raw := raw |}.

Definition has_row (id : string) (db : list row) : bool := existsb (λ r, bool_decide (r_id r = id)) db.

(** [UPDATE grants SET revoked=1 WHERE id=? AND revoked=0], with the number of
    rows affected *)
Definition revoke_rows (id : string) (db : list row) : list row * nat :=
  ((λ r, if bool_decide (r_id r = id) && negb (r_revoked r)
         then {| r_id := r_id r; r_created := r_created r; r_expires := r_expires r;
                 r_revoked := true; r_raw := r_raw r |} else r) <$> db,
   length (filter (λ r, r_id r = id ∧ r_revoked r = false) db)).

Section grants.
Context {PrivateKey PublicKey : Type}.
Context (Sign : PrivateKey → string → bytes).
Context (VerifySig : PublicKey → string → bytes → bool).
Context (jsonCanonical : canonical → option string).
Context (jsonGrant : Grant → option string).
Context (unjsonGrant : string → option Grant).

Definition canonicalBytes (g : Grant) : option string := jsonCanonical (canonical_of g).

Record MintParams := {
  p_AppName : string;
  p_CgroupMatch : string;
  p_Scope : string;
  p_AllowExec : list string;
  p_AllowWrite : list string;
  p_Reason : string;
  p_CreatedBy : string;
  p_TTL : Time.duration;
  p_SignerName : string;
  p_SignerKey : option PrivateKey
}.

Definition set_sig (sg : bytes) (g : Grant) : Grant :=
  {| ID := ID g; AppName := AppName g; CgroupMatch := CgroupMatch g; Scope := Scope g;
     AllowExec := AllowExec g; AllowWrite := AllowWrite g; Reason := Reason g;
     CreatedBy := CreatedBy g; CreatedAt := CreatedAt g; ExpiresAt := ExpiresAt g;
     SignedBy := SignedBy g; Signature := sg |}.

(** the unsigned grant [Mint] builds; [id] is the id drawn by [newID] *)
Definition draft (p : MintParams) (id : string) (now : Time.time) : Grant :=
  {| ID := id; AppName := p_AppName p; CgroupMatch := p_CgroupMatch p; Scope := p_Scope p;
     AllowExec := if (length (p_AllowExec p) =? 0)%nat then scopeDefaultExec (p_Scope p) else p_AllowExec p;
     AllowWrite := if (length (p_AllowWrite p) =? 0)%nat then scopeDefaultWrite (p_Scope p)
                   else p_AllowWrite p;
     Reason := p_Reason p; CreatedBy := p_CreatedBy p; CreatedAt := now;
     ExpiresAt := Time.Add now (p_TTL p); SignedBy := p_SignerName p; Signature := [] |}.

Definition Mint (p : MintParams) (id : string) (now : Time.time) : result grant_error Grant :=
  if Str.empty (p_AppName p) then Err ErrAppName
  else if Str.empty (p_CgroupMatch p) then Err ErrCgroup
  else if Str.empty (p_Reason p) then Err ErrReason
  else if negb (ttl_ok (p_TTL p)) then Err ErrTTL
  else
    match p_SignerKey p with
    | None => Err ErrSignerKey
    | Some k =>
        let g := draft p id now in
        match canonicalBytes g with
        | None => Err ErrCanonical
        | Some c => Ok (set_sig (Sign k c) g)
        end
    end.

Definition Validate (trust : gmap string PublicKey) (now : Time.time) (g : Grant) :
    result grant_error unit :=
  if Time.After now (ExpiresAt g) then Err ErrExpired
  else
    match trust !! SignedBy g with
    | None => Err ErrUnknownSigner
    | Some pub =>
        match canonicalBytes g with
        | None => Err ErrCanonical
        | Some c => if VerifySig pub c (Signature g) then Ok tt else Err ErrBadSignature
        end
    end.

(** ** The store *)

Record Store := { db : list row; trust : gmap string PublicKey; active : list Grant }.

Definition scanGrants (rows : list row) : list Grant := omap (λ r, unjsonGrant (r_raw r)) rows.

(** [perm] is the order in which SQLite returns the rows *)
Definition hydrate (perm : list row → list row) (now : Time.time) (s : Store) : Store :=
  {| db := db s; trust := trust s;
     active := scanGrants (perm (filter (λ r, (Unix now < r_expires r)%Z ∧ r_revoked r = false) (db s))) |}.

Definition Open (perm : list row → list row) (rows : list row) (tr : gmap string PublicKey)
    (now : Time.time) : Store :=
  hydrate perm now {| db := rows; trust := tr; active := [] |}.

(** [dberr]: the statement fails for a reason other than its constraints *)
Definition Add (p : MintParams) (id : string) (now now2 : Time.time) (dberr : bool) (s : Store) :
    Store * result grant_error Grant :=
  match Mint p id now with
  | Err e => (s, Err e)
  | Ok g =>
      match Validate (trust s) now2 g with
      | Err e => (s, Err e)
      | Ok _ =>
          match jsonGrant g with
          | None => (s, Err ErrMarshal)
          | Some raw =>
              if dberr || has_row (ID g) (db s) then (s, Err ErrInsert)
              else ({| db := db s ++ [row_of g raw]; trust := trust s; active := active s ++ [g] |}, Ok g)
          end
      end
  end.

Definition AddSigned (og : option Grant) (now : Time.time) (dberr : bool) (s : Store) :
    Store * result grant_error unit :=
  match og with
  | None => (s, Err ErrNil)
  | Some g =>
      if Str.empty (AppName g) then (s, Err ErrAppName)
      else if Str.empty (CgroupMatch g) then (s, Err ErrCgroup)
      else if Str.empty (Reason g) then (s, Err ErrReason)
      else if negb (ttl_ok (Time.Sub (ExpiresAt g) (CreatedAt g))) then (s, Err ErrTTL)
      else
        match Validate (trust s) now g with
        | Err e => (s, Err e)
        | Ok _ =>
            match jsonGrant g with
            | None => (s, Err ErrMarshal)
            | Some raw =>
                if dberr then (s, Err ErrInsert)
                else
                  let db' := if has_row (ID g) (db s) then db s else db s ++ [row_of g raw] in
                  ({| db := db'; trust := trust s; active := active s ++ [g] |}, Ok tt)
            end
        end
  end.

Definition removeFromCache (id : string) (gs : list Grant) : list Grant := filter (λ g, ID g ≠ id) gs.

Definition Revoke (id : string) (dberr : bool) (s : Store) : Store * result grant_error unit :=
  if dberr then (s, Err ErrDB)
  else
    let '(db', n) := revoke_rows id (db s) in
    if (n =? 0)%nat then ({| db := db'; trust := trust s; active := active s |}, Err ErrNotFound)
    else ({| db := db'; trust := trust s; active := removeFromCache id (active s) |}, Ok tt).

Definition ActiveFor (now : Time.time) (cgroupPath : string) (s : Store) : list Grant :=
  filter (λ g, IsExpired now g = false ∧ matchesCgroup g cgroupPath = true) (active s).

Definition store_CoversExec (now : Time.time) (cgroupPath binaryPath : string) (s : Store) : bool :=
  existsb (λ g, CoversExec g cgroupPath binaryPath) (ActiveFor now cgroupPath s).

Definition store_CoversWrite (now : Time.time) (cgroupPath filePath : string) (s : Store) : bool :=
  existsb (λ g, CoversWrite g cgroupPath filePath) (ActiveFor now cgroupPath s).

Definition Sweep (now : Time.time) (s : Store) : Store * nat :=
  let kept := filter (λ g, Time.After now (ExpiresAt g) = false) (active s) in
  ({| db := db s; trust := trust s; active := kept |}, length (active s) - length kept).

Definition RegisterTrustKey (name : string) (pub : PublicKey) (s : Store) : Store :=
  {| db := db s; trust := <[name := pub]> (trust s); active := active s |}.

(** ** Operation sequences *)

Inductive op : Type :=
  | OAdd (p : MintParams) (id : string) (now now2 : Time.time) (dberr : bool)
  | OAddSigned (g : option Grant) (now : Time.time) (dberr : bool)
  | ORevoke (id : string) (dberr : bool)
  | OSweep (now : Time.time)
  | OTrust (name : string) (pub : PublicKey)
  | ORestart (perm : list row → list row) (tr : gmap string PublicKey) (now : Time.time).

Definition exec (s : Store) (o : op) : Store :=
  match o with
  | OAdd p id now now2 dberr => (Add p id now now2 dberr s).1
  | OAddSigned g now dberr => (AddSigned g now dberr s).1
  | ORevoke id dberr => (Revoke id dberr s).1
  | OSweep now => (Sweep now s).1
  | OTrust name pub => RegisterTrustKey name pub s
  | ORestart perm tr now => Open perm (db s) tr now
  end.

Definition run (ops : list op) (s : Store) : Store := foldl exec s ops.

(** the keys an operation makes trusted all satisfy [K]; row orders are orders *)
Definition trusts_only (K : PublicKey → Prop) (o : op) : Prop :=
  match o with
  | OTrust _ pub => K pub
  | ORestart perm tr _ => map_Forall (λ _ pub, K pub) tr ∧ ∀ l, perm l ≡ₚ l
  | _ => True
  end.

(** a grant that some key in [K] signed, with the limits every grant obeys *)
Record authorised (K : PublicKey → Prop) (g : Grant) : Prop := {
  au_app : AppName g ≠ "";
  au_cgroup : CgroupMatch g ≠ "";
  au_reason : Reason g ≠ "";
  au_ttl : (Time.Minute ≤ ExpiresAt g - CreatedAt g ≤ 24 * Time.Hour)%Z;
  au_signed : ∃ pub c, K pub ∧ canonicalBytes g = Some c ∧ VerifySig pub c (Signature g) = true
}.

Lemma ttl_ok_spec (ttl : Time.duration) :
  ttl_ok ttl = true ↔ (Time.Minute ≤ ttl ≤ 24 * Time.Hour)%Z.
Proof.
  unfold ttl_ok. rewrite negb_true_iff, orb_false_iff, Z.ltb_ge, Z.ltb_ge. done.
Qed.

Lemma Validate_ok (tr : gmap string PublicKey) (now : Time.time) (g : Grant) (u : unit) :
  Validate tr now g = Ok u →
  (now ≤ ExpiresAt g)%Z ∧ ∃ pub c, tr !! SignedBy g = Some pub ∧ canonicalBytes g = Some c ∧
    VerifySig pub c (Signature g) = true.
Proof.
  unfold Validate, Time.After. intros H. repeat case_match; simplify_eq. bool_to_prop. eauto 10.
Qed.

(** what a successful mint hands out *)
Lemma Mint_ok (p : MintParams) (id : string) (now : Time.time) (g : Grant) :
  Mint p id now = Ok g →
  AppName g ≠ "" ∧ CgroupMatch g ≠ "" ∧ Reason g ≠ "" ∧
  (Time.Minute ≤ ExpiresAt g - CreatedAt g ≤ 24 * Time.Hour)%Z ∧ ID g = id.
Proof.
  unfold Mint, Str.empty. intros H. repeat (case_match; [done|]). destruct (p_SignerKey p); [|done].
  case_match; simplify_eq. bool_to_prop. simpl.
  match goal with H : ttl_ok _ = true |- _ => apply ttl_ok_spec in H end.
  split_and!; try done; unfold Time.Add; lia.
Qed.

(** how an accepted grant enters the store *)
Lemma Add_cases (p : MintParams) (id : string) (now now2 : Time.time) (dberr : bool) (s : Store) :
  (Add p id now now2 dberr s).1 = s ∨
  ∃ g raw, Mint p id now = Ok g ∧ Validate (trust s) now2 g = Ok tt ∧ jsonGrant g = Some raw ∧
    has_row (ID g) (db s) = false ∧
    (Add p id now now2 dberr s).1 =
      {| db := db s ++ [row_of g raw]; trust := trust s; active := active s ++ [g] |}.
Proof.
  unfold Add. destruct (Mint p id now) as [g|] eqn:Hm; [|by left].
  destruct (Validate _ _ _) as [[]|] eqn:Hv; [|by left]. destruct (jsonGrant g) as [raw|] eqn:Hj; [|by left].
  destruct (dberr || has_row (ID g) (db s)) eqn:Hb; [by left|]. bool_to_prop. right. by exists g, raw.
Qed.

Lemma AddSigned_cases (og : option Grant) (now : Time.time) (dberr : bool) (s : Store) :
  (AddSigned og now dberr s).1 = s ∨
  ∃ g raw, og = Some g ∧ AppName g ≠ "" ∧ CgroupMatch g ≠ "" ∧ Reason g ≠ "" ∧
    (Time.Minute ≤ ExpiresAt g - CreatedAt g ≤ 24 * Time.Hour)%Z ∧
    Validate (trust s) now g = Ok tt ∧ jsonGrant g = Some raw ∧
    AddSigned og now dberr s =
      ({| db := if has_row (ID g) (db s) then db s else db s ++ [row_of g raw];
          trust := trust s; active := active s ++ [g] |}, Ok tt).
Proof.
  unfold AddSigned. destruct og as [g|]; [|by left]. unfold Str.empty.
  destruct (bool_decide (AppName g = "")) eqn:H1; [by left|].
  destruct (bool_decide (CgroupMatch g = "")) eqn:H2; [by left|].
  destruct (bool_decide (Reason g = "")) eqn:H3; [by left|].
  destruct (negb (ttl_ok _)) eqn:H4; [by left|].
  destruct (Validate _ _ _) as [[]|] eqn:Hv; [|by left]. destruct (jsonGrant g) as [raw|] eqn:Hj; [|by left].
  destruct dberr; [by left|]. right. exists g, raw. bool_to_prop. apply ttl_ok_spec in H4.
  split_and!; try done; unfold Time.Sub, Time.Hour, Time.Minute, Time.Second, max_int64, min_int64 in *; lia.
Qed.

(** ** Invariant of the store *)

Context (Hjson : ∀ g raw, jsonGrant g = Some raw → unjsonGrant raw = Some g).

(** a row holds the encoding of an authorised grant under that grant's id *)
Definition row_ok (K : PublicKey → Prop) (r : row) : Prop :=
  ∃ g, unjsonGrant (r_raw r) = Some g ∧ ID g = r_id r ∧ authorised K g.

Record store_ok (K : PublicKey → Prop) (s : Store) : Prop := {
  so_trust : map_Forall (λ _ pub, K pub) (trust s);
  so_active : Forall (authorised K) (active s);
  so_rows : Forall (row_ok K) (db s)
}.

Lemma valid_authorised (K : PublicKey → Prop) (tr : gmap string PublicKey) (now : Time.time) (g : Grant) :
  map_Forall (λ _ pub, K pub) tr → Validate tr now g = Ok tt →
  AppName g ≠ "" → CgroupMatch g ≠ "" → Reason g ≠ "" →
  (Time.Minute ≤ ExpiresAt g - CreatedAt g ≤ 24 * Time.Hour)%Z → authorised K g.
Proof.
  intros Htr (_ & pub & c & Hp & Hc & Hv)%Validate_ok ? ? ? ?. split; try done.
  exists pub, c. split; [by eapply Htr|done].
Qed.

Lemma new_row_ok (K : PublicKey → Prop) (g : Grant) (raw : string) :
  authorised K g → jsonGrant g = Some raw → row_ok K (row_of g raw).
Proof. intros Ha Hj. exists g. simpl. by rewrite (Hjson g raw Hj). Qed.

Lemma revoke_rows_ok (K : PublicKey → Prop) (id : string) (rs : list row) :
  Forall (row_ok K) rs → Forall (row_ok K) (revoke_rows id rs).1.
Proof.
  intros H. simpl. apply Forall_fmap. eapply Forall_impl; [exact H|].
  intros r Hr. unfold compose. by case_match.
Qed.

Lemma scanGrants_in (rows : list row) (g : Grant) :
  g ∈ scanGrants rows ↔ ∃ r, r ∈ rows ∧ unjsonGrant (r_raw r) = Some g.
Proof. unfold scanGrants. rewrite list_elem_of_omap. naive_solver. Qed.

Lemma grants_exec_ok (K : PublicKey → Prop) (s : Store) (o : op) :
  store_ok K s → trusts_only K o → store_ok K (exec s o).
Proof.
  intros Hok Hto. destruct Hok as [Ht Ha Hr].
  destruct o as [p id now now2 e|og now e|id e|now|name pub|perm tr now]; simpl in Hto; cbn [exec].
  - destruct (Add_cases p id now now2 e s) as [->|(g & raw & Hm & Hv & Hj & _ & ->)]; [done|].
    destruct (Mint_ok _ _ _ _ Hm) as (?&?&?&?&_).
    assert (authorised K g) by eauto using valid_authorised.
    split; simpl; [done|by apply Forall_app_2; [|constructor]|].
    apply Forall_app_2; [done|]. constructor; [by apply new_row_ok|constructor].
  - destruct (AddSigned_cases og now e s) as [->|(g & raw & -> & ? & ? & ? & ? & Hv & Hj & ->)]; [done|].
    assert (authorised K g) by eauto using valid_authorised.
    split; simpl; [done|by apply Forall_app_2; [|constructor]|].
    case_match; [done|]. apply Forall_app_2; [done|]. constructor; [by apply new_row_ok|constructor].
  - unfold Revoke. destruct e; [done|].
    pose proof (revoke_rows_ok K id (db s) Hr) as Hr'. destruct (revoke_rows id (db s)) as [db' n].
    case_match; split; simpl; try done. by apply Forall_filter.
  - split; simpl; [done|by apply Forall_filter|done].
  - split; simpl; [by apply map_Forall_insert_2|done..].
  - destruct Hto as [Htr Hp]. split; simpl; [done| |done].
    apply Forall_forall. intros g (r & Hin & Hg)%scanGrants_in.
    rewrite Hp in Hin. apply list_elem_of_filter in Hin as [_ Hin].
    rewrite Forall_forall in Hr. destruct (Hr r Hin) as (g' & Hg' & _ & Ha'). by simplify_eq.
Qed.

Lemma grants_run_ok (K : PublicKey → Prop) (ops : list op) : ∀ s,
  store_ok K s → Forall (trusts_only K) ops → store_ok K (run ops s).
Proof.
  induction ops as [|o ops IH]; intros s Hs Ho; [done|]. apply Forall_cons in Ho as [Ho Hops].
  apply IH; [by apply grants_exec_ok|done].
Qed.

(** ** Revocation *)

(** [id] is revoked: no cached grant carries it and every row of it is marked *)
Definition revoked (id : string) (s : Store) : Prop :=
  Forall (λ g, ID g ≠ id) (active s) ∧ Forall (λ r, r_id r = id → r_revoked r = true) (db s).

(** operations that do not add a grant with this id *)
Definition not_adding (id : string) (o : op) : Prop :=
  match o with
  | OAdd _ id' _ _ _ => id' ≠ id
  | OAddSigned (Some g) _ _ => ID g ≠ id
  | _ => True
  end.

Lemma revoke_rows_revoked (id id' : string) (rs : list row) :
  id = id' ∨ Forall (λ r, r_id r = id → r_revoked r = true) rs →
  Forall (λ r, r_id r = id → r_revoked r = true) (revoke_rows id' rs).1.
Proof.
  intros H. simpl. apply Forall_fmap, Forall_forall. intros r Hr. unfold compose.
  destruct (bool_decide (r_id r = id')) eqn:E1; destruct (r_revoked r) eqn:E2; simpl; bool_to_prop;
    try done; intros <-; destruct H as [?|H]; try done; rewrite Forall_forall in H;
    specialize (H r Hr eq_refl); congruence.
Qed.

Lemma Revoke_revokes (id : string) (s s' : Store) (u : unit) :
  Revoke id false s = (s', Ok u) → revoked id s'.
Proof.
  unfold Revoke. intros H. pose proof (revoke_rows_revoked id id (db s) (or_introl eq_refl)) as Hr.
  destruct (revoke_rows id (db s)) as [db' n]. simpl in *. case_match; simplify_eq. split; [|done].
  simpl. apply Forall_forall. by intros g [? _]%list_elem_of_filter.
Qed.

Lemma exec_revoked (K : PublicKey → Prop) (id : string) (s : Store) (o : op) :
  store_ok K s → trusts_only K o → not_adding id o → revoked id s → revoked id (exec s o).
Proof.
  intros Hok Hto Hna [Ha Hr].
  destruct o as [p id' now now2 e|og now e|id' e|now|name pub|perm tr now]; simpl in Hna; cbn [exec].
  - destruct (Add_cases p id' now now2 e s) as [->|(g & raw & Hm & Hv & Hj & _ & ->)]; [done|].
    destruct (Mint_ok _ _ _ _ Hm) as (_&_&_&_&Hid).
    split; simpl; apply Forall_app_2; try done; constructor; try constructor; simpl; congruence.
  - destruct (AddSigned_cases og now e s) as [->|(g & raw & -> & ? & ? & ? & ? & Hv & Hj & ->)]; [done|].
    split; simpl; [by apply Forall_app_2; [|constructor]|].
    case_match; [done|]. apply Forall_app_2; [done|]. by constructor; [|constructor].
  - unfold Revoke. destruct e; [done|].
    pose proof (revoke_rows_revoked id id' (db s) (or_intror Hr)) as Hr'.
    destruct (revoke_rows id' (db s)) as [db' n].
    case_match; split; simpl; try done. by apply Forall_filter.
  - split; simpl; [by apply Forall_filter|done].
  - done.
  - split; simpl; [|done]. apply Forall_forall. intros g (r & Hin & Hg)%scanGrants_in ->%eq_sym.
    destruct Hto as [_ Hp]. rewrite Hp in Hin. apply list_elem_of_filter in Hin as [[_ Hun] Hin].
    destruct Hok as [_ _ Hrows]. rewrite Forall_forall in Hrows, Hr.
    destruct (Hrows r Hin) as (g' & Hg' & Hid & _). simplify_eq.
    specialize (Hr r Hin (eq_sym Hid)). congruence.
Qed.

Lemma run_revoked (K : PublicKey → Prop) (id : string) (ops : list op) : ∀ s,
  store_ok K s → Forall (trusts_only K) ops → Forall (not_adding id) ops → revoked id s →
  revoked id (run ops s).
Proof.
  induction ops as [|o ops IH]; intros s Hok Hto Hna Hrv; [done|].
  apply Forall_cons in Hto as [Ho Hto]. apply Forall_cons in Hna as [Hn Hna].
  apply IH; [by apply grants_exec_ok|done|done|by eapply exec_revoked].
Qed.

Definition new_store (tr : gmap string PublicKey) : Store := {| db := []; trust := tr; active := [] |}.

Lemma new_store_ok (K : PublicKey → Prop) (tr : gmap string PublicKey) :
  map_Forall (λ _ pub, K pub) tr → store_ok K (new_store tr).
Proof. intros. by split; [|constructor..]. Qed.

(** the cgroup subtree and the exec patterns as relations *)
Lemma matchesCgroup_spec (g : Grant) (cg : string) :
  matchesCgroup g cg = true ↔
  CgroupMatch g ≠ "" ∧ (cg = CgroupMatch g ∨ ∃ t, cg = (CgroupMatch g +:+ "/") +:+ t).
Proof.
  unfold matchesCgroup, Str.empty. case_bool_decide as He; [naive_solver|].
  rewrite orb_true_iff, bool_decide_eq_true, Str.HasPrefix_spec. naive_solver.
Qed.

Lemma execPatternMatches_spec (a bin : string) :
  execPatternMatches a bin = true ↔ a = bin ∨ ∃ pre t, a = pre +:+ "*" ∧ bin = pre +:+ t.
Proof.
  unfold execPatternMatches. rewrite orb_true_iff, bool_decide_eq_true, andb_true_iff, Str.HasSuffix_spec,
    Str.HasPrefix_spec.
  assert (∀ pre, Str.upto (Str.len (pre +:+ "*") - 1) (pre +:+ "*") = pre) as Hu.
  { intros pre. rewrite Str.len_app. simpl. replace (Str.len pre + 1 - 1) with (Str.len pre) by lia.
    apply Str.upto_app. }
  split; (intros [?|H]; [by left|right]).
  - destruct H as [[pre ->] [t Ht]]. rewrite Hu in Ht. eauto.
  - destruct H as (pre & t & -> & ->). rewrite Hu. eauto.
Qed.

(** ** Properties *)

(** C4: an exec is unlocked only by a grant: at any point of any history of
    mints, imports, revocations, sweeps, key registrations and restarts, if the
    store covers an exec at [now] then some unexpired grant, signed by a trusted
    key and limited to 1 minute to 24 hours, names that cgroup or an ancestor of
    it and lists that binary. *)
Theorem exec_needs_authorised_grant (K : PublicKey → Prop) (tr : gmap string PublicKey) (ops : list op)
    (now : Time.time) (cg bin : string) :
  map_Forall (λ _ pub, K pub) tr → Forall (trusts_only K) ops →
  store_CoversExec now cg bin (run ops (new_store tr)) = true →
  ∃ g, authorised K g ∧ (now ≤ ExpiresAt g)%Z ∧
    (cg = CgroupMatch g ∨ ∃ t, cg = (CgroupMatch g +:+ "/") +:+ t) ∧
    ∃ a, a ∈ AllowExec g ∧ (a = bin ∨ ∃ pre t, a = pre +:+ "*" ∧ bin = pre +:+ t).
Proof.
  intros Htr Hops Hc. destruct (grants_run_ok K ops _ (new_store_ok K tr Htr) Hops) as [_ Ha _].
  unfold store_CoversExec in Hc. apply existsb_exists in Hc as (g & Hg & Hc).
  apply list_elem_of_In, list_elem_of_filter in Hg as [[Hexp Hcg] Hin]. exists g.
  apply andb_true_iff in Hc as [_ (a & Ha' & Hpat)%existsb_exists]. apply list_elem_of_In in Ha'.
  apply execPatternMatches_spec in Hpat. apply matchesCgroup_spec in Hcg as [_ Hcg].
  rewrite Forall_forall in Ha. unfold IsExpired, Time.After in Hexp. bool_to_prop. eauto 10.
Qed.

(** revocation holds: after a successful [Revoke] of an id no cached grant
    carries it, however many operations follow and across restarts, as long as
    none of them adds a grant with that id. *)
Theorem revoke_takes_effect (K : PublicKey → Prop) (tr : gmap string PublicKey) (ops ops' : list op)
    (id : string) (s' : Store) (u : unit) :
  map_Forall (λ _ pub, K pub) tr → Forall (trusts_only K) ops → Forall (trusts_only K) ops' →
  Forall (not_adding id) ops' → Revoke id false (run ops (new_store tr)) = (s', Ok u) →
  ∀ g, g ∈ active (run ops' s') → ID g ≠ id.
Proof.
  intros Htr Hops Hops' Hna Hrv g Hg.
  pose proof (grants_exec_ok K _ (ORevoke id false) (grants_run_ok K ops _ (new_store_ok K tr Htr) Hops) I) as Hok.
  cbn [exec] in Hok. rewrite Hrv in Hok. apply Revoke_revokes in Hrv.
  destruct (run_revoked K id ops' s' Hok Hops' Hna Hrv) as [Ha _]. rewrite Forall_forall in Ha. auto.
Qed.

(** importing a signed grant again undoes its revocation: if the id is
    revoked and [AddSigned] accepts the grant, the grant is active in memory
    again, the table still says revoked, and a second [Revoke] fails and leaves
    it active. *)
Theorem revoked_grant_reactivated (s s' : Store) (g : Grant) (now : Time.time) (u : unit) :
  revoked (ID g) s → has_row (ID g) (db s) = true →
  AddSigned (Some g) now false s = (s', Ok u) →
  g ∈ active s' ∧ db s' = db s ∧
  ∃ s2, Revoke (ID g) false s' = (s2, Err ErrNotFound) ∧ g ∈ active s2.
Proof.
  intros [_ Hr] Hrow Hadd.
  destruct (AddSigned_cases (Some g) now false s) as [Hs|(g' & raw & ? & _ & _ & _ & _ & _ & _ & Heq)].
  { exfalso. assert (length (active s') = S (length (active s))) as Hl; [|rewrite Hadd in Hs; simpl in Hs; subst; lia].
    unfold AddSigned in Hadd. repeat (case_match; simplify_eq/=); rewrite length_app; simpl; lia. }
  simplify_eq. rewrite Heq in Hadd. simplify_eq. rewrite Hrow. simpl.
  assert (g' ∈ active s ++ [g']) as Hin by (apply elem_of_app; right; apply list_elem_of_here).
  split_and!; [done|done|]. unfold Revoke. simpl.
  assert (filter (λ r, r_id r = ID g' ∧ r_revoked r = false) (db s) = []) as ->; [|simpl; eauto].
  apply filter_none. eapply Forall_impl; [exact Hr|]. simpl. intros r H1 [H2 H3].
  rewrite (H1 H2) in H3. done.
Qed.

(** a minted grant validates against a trust map that holds the signer's
    key from the moment it is minted until its expiry and not later, and it
    expires exactly its TTL after the mint. *)
Theorem minted_grant_validates (p : MintParams) (id : string) (now t : Time.time) (g : Grant)
    (tr : gmap string PublicKey) (k : PrivateKey) (pub : PublicKey) :
  (∀ m, VerifySig pub m (Sign k m) = true) →
  p_SignerKey p = Some k → tr !! p_SignerName p = Some pub → Mint p id now = Ok g →
  ExpiresAt g = (now + p_TTL p)%Z ∧
  Validate tr t g = (if (t <=? now + p_TTL p)%Z then Ok tt else Err ErrExpired).
Proof.
  intros Hsig Hk Htr Hm. unfold Mint in Hm. repeat (case_match; [done|]). rewrite Hk in Hm.
  destruct (canonicalBytes (draft p id now)) as [c|] eqn:Hc; simplify_eq. split; [done|].
  unfold Validate, Time.After, Time.Add. simpl. rewrite Htr.
  change (canonicalBytes (set_sig _ _)) with (canonicalBytes (draft p id now)). rewrite Hc, Hsig.
  unfold Time.Add. destruct (Z.leb_spec t (now + p_TTL p)); [by rewrite (proj2 (Z.ltb_ge _ _))|].
  by rewrite (proj2 (Z.ltb_lt _ _)).
Qed.

End grants.

(** ** Witnesses *)

Module Demo.
Definition sign (k : Z) (m : string) : bytes := [k; Z.of_nat (Str.len m)].
Definition verify (p : Z) (m : string) (s : bytes) : bool := bool_decide (s = sign p m).
Definition canon (c : canonical) : option string := Some (c_ID c +:+ "|" +:+ c_CgroupMatch c).

(** grants known to the toy encoder: one, under its own id *)
Definition params : MintParams (PrivateKey:=Z) :=
  {| p_AppName := "billing"; p_CgroupMatch := "/system.slice/php"; p_Scope := "deploy";
     p_AllowExec := []; p_AllowWrite := []; p_Reason := "rollout"; p_CreatedBy := "ops";
     p_TTL := Time.Hour; p_SignerName := "ops"; p_SignerKey := Some 42%Z |}.

Definition g0 : Grant := set_sig (sign 42 "g0|/system.slice/php") (draft params "g0" 1000).

#[export] Instance Grant_eq_dec : EqDecision Grant.
Proof. solve_decision. Defined.

Definition enc (g : Grant) : option string := if decide (g = g0) then Some "g0" else None.
Definition dec (s : string) : option Grant := if decide (s = "g0") then Some g0 else None.

Lemma enc_dec (g : Grant) (raw : string) : enc g = Some raw → dec raw = Some g.
Proof. unfold enc, dec. intros H. by case_decide; simplify_eq. Qed.

Definition tr : gmap string Z := {["ops" := 42%Z]}.
Definition trusted (k : Z) : Prop := k = 42%Z.
Definition ops : list (op (PrivateKey:=Z) (PublicKey:=Z)) := [OAdd params "g0" 1000 2000 false].
Definition s0 : Store (PublicKey:=Z) := run sign verify canon enc dec ops (new_store tr).
Definition s1 : Store (PublicKey:=Z) := (Revoke "g0" false s0).1.

Lemma tr_ok : map_Forall (λ _ pub, trusted pub) tr.
Proof. apply map_Forall_singleton. done. Qed.
End Demo.

Lemma exec_needs_authorised_grant_witness :
  ∃ g, authorised Demo.verify Demo.canon Demo.trusted g ∧ (3000 ≤ ExpiresAt g)%Z ∧
    ("/system.slice/php/w1" = CgroupMatch g ∨ ∃ t, "/system.slice/php/w1" = (CgroupMatch g +:+ "/") +:+ t) ∧
    ∃ a, a ∈ AllowExec g ∧ (a = "/bin/sh" ∨ ∃ pre t, a = pre +:+ "*" ∧ "/bin/sh" = pre +:+ t).
Proof.
  apply (exec_needs_authorised_grant Demo.sign Demo.verify Demo.canon Demo.enc Demo.dec Demo.enc_dec
    Demo.trusted Demo.tr Demo.ops 3000 "/system.slice/php/w1" "/bin/sh" Demo.tr_ok).
  - by repeat constructor.
  - vm_compute. reflexivity.
Defined.

Lemma revoke_takes_effect_witness :
  Forall (λ g, ID g ≠ "g0")
    (active (run Demo.sign Demo.verify Demo.canon Demo.enc Demo.dec
               [ORestart (λ l, l) Demo.tr 5000] Demo.s1)).
Proof.
  apply Forall_forall.
  apply (revoke_takes_effect Demo.sign Demo.verify Demo.canon Demo.enc Demo.dec Demo.enc_dec
    Demo.trusted Demo.tr Demo.ops [ORestart (λ l, l) Demo.tr 5000] "g0" Demo.s1 tt Demo.tr_ok).
  - by repeat constructor.
  - constructor; [|constructor]. split; [apply Demo.tr_ok|done].
  - by repeat constructor.
  - vm_compute. reflexivity.
Defined.

Lemma revoked_grant_reactivated_witness :
  let s2 := (AddSigned Demo.verify Demo.canon Demo.enc (Some Demo.g0) 6000 false Demo.s1).1 in
  Demo.g0 ∈ active s2 ∧ db s2 = db Demo.s1 ∧
  ∃ s3, Revoke (ID Demo.g0) false s2 = (s3, Err ErrNotFound) ∧ Demo.g0 ∈ active s3.
Proof.
  intros s2. apply (revoked_grant_reactivated Demo.verify Demo.canon Demo.enc Demo.s1 s2 Demo.g0 6000 tt).
  - split; vm_compute; repeat constructor.
  - vm_compute. reflexivity.
  - vm_compute. reflexivity.
Defined.

Lemma minted_grant_validates_witness :
  ExpiresAt Demo.g0 = (1000 + Time.Hour)%Z ∧
  Validate Demo.verify Demo.canon Demo.tr 9000 Demo.g0 = Ok tt.
Proof.
  apply (minted_grant_validates Demo.sign Demo.verify Demo.canon Demo.params "g0" 1000 9000 Demo.g0
    Demo.tr 42%Z 42%Z).
  - intros m. by apply bool_decide_eq_true_2.
  - reflexivity.
  - vm_compute. reflexivity.
  - vm_compute. reflexivity.
Defined.
