(* ===== verification/ActionLog.v ===== *)
(** * Containment states (src/pkg/actionlog)

    The per-lineage containment state machine and its history.  A
    [ContainmentState] is a string in the code; a transition with an empty
    [From] takes the current state. *)

From S2P Require Import Prelude GoStd.

Definition StateObserved : string := "observed".
Definition StateTriaged : string := "triaged".
Definition StateSuspended : string := "suspended".
Definition StateIsolated : string := "isolated".
Definition StateContained : string := "contained".
Definition StateRemediated : string := "remediated".
Definition StateReleased : string := "released".
Definition StateTerminated : string := "terminated".

Definition AllStates : list string :=
  [StateObserved; StateTriaged; StateSuspended; StateIsolated; StateContained; StateRemediated;
   StateReleased; StateTerminated].

(** the allowed destinations of a state, [None] when the state is not a key *)
Definition validTransitions : list (string * list string) :=
  [(StateObserved, [StateTriaged; StateSuspended; StateIsolated; StateContained; StateTerminated]);
   (StateTriaged, [StateObserved; StateSuspended; StateIsolated; StateContained; StateReleased;
                   StateTerminated]);
   (StateSuspended, [StateIsolated; StateContained; StateRemediated; StateReleased; StateTerminated]);
   (StateIsolated, [StateContained; StateRemediated; StateReleased; StateTerminated]);
   (StateContained, [StateRemediated; StateReleased; StateTerminated]);
   (StateRemediated, [StateReleased; StateTerminated]);
   (StateReleased, [StateObserved]);
   (StateTerminated, [])].

Definition CanTransition (from to : string) : bool :=
  bool_decide (from = to) ||
  existsb (λ row, bool_decide (row.1 = from) && existsb (λ s, bool_decide (s = to)) row.2) validTransitions.

Record Transition := {
  t_LineageID : Z;
  t_From : string;
  t_To : string;
  t_At : Time.time;
  t_Reason : string;
  t_PlanID : string;
  t_OperatorID : string
}.

Inductive log_error : Type :=
  | ErrLineage | ErrIllegal | ErrReason | ErrAuthority | ErrFromMismatch.

#[export] Instance log_error_eq_dec : EqDecision log_error.
Proof. solve_decision. Defined.

Definition Transition_Validate (t : Transition) : option log_error :=
  if (t_LineageID t =? 0)%Z then Some ErrLineage
  else if negb (CanTransition (t_From t) (t_To t)) then Some ErrIllegal
  else if Str.empty (t_Reason t) then Some ErrReason
  else if Str.empty (t_PlanID t) && Str.empty (t_OperatorID t) then Some ErrAuthority
  else None.

Record Log := { state : gmap Z string; history : gmap Z (list Transition) }.

Definition New : Log := {| state := ∅; history := ∅ |}.

Definition State (l : Log) (id : Z) : string := default StateObserved (state l !! id).

Definition set_from (from : string) (t : Transition) : Transition :=
  {| t_LineageID := t_LineageID t; t_From := from; t_To := t_To t; t_At := t_At t;
     t_Reason := t_Reason t; t_PlanID := t_PlanID t; t_OperatorID := t_OperatorID t |}.
Definition set_at (at_ : Time.time) (t : Transition) : Transition :=
  {| t_LineageID := t_LineageID t; t_From := t_From t; t_To := t_To t; t_At := at_;
     t_Reason := t_Reason t; t_PlanID := t_PlanID t; t_OperatorID := t_OperatorID t |}.

(** [now] is the clock, read when the transition carries no time *)
Definition Record_ (t : Transition) (now : Time.time) (l : Log) : Log * option log_error :=
  let current := State l (t_LineageID t) in
  if negb (Str.empty (t_From t)) && negb (bool_decide (t_From t = current)) then (l, Some ErrFromMismatch)
  else
    let t1 := if Str.empty (t_From t) then set_from current t else t in
    let t2 := if Time.IsZero (t_At t1) then set_at now t1 else t1 in
    match Transition_Validate t2 with
    | Some e => (l, Some e)
    | None =>
        ({| state := <[t_LineageID t := t_To t]> (state l);
            history := <[t_LineageID t := default [] (history l !! t_LineageID t) ++ [t2]]> (history l) |},
         None)
    end.

Definition History (l : Log) (id : Z) : list Transition := default [] (history l !! id).

Definition run (ts : list (Transition * Time.time)) (l : Log) : Log :=
  foldl (λ l p, (Record_ p.1 p.2 l).1) l ts.

(** ** Legal histories *)

(** one recorded step: in the table, justified and authorised *)
Definition legal (t : Transition) : Prop :=
  CanTransition (t_From t) (t_To t) = true ∧ t_Reason t ≠ "" ∧
  (t_PlanID t ≠ "" ∨ t_OperatorID t ≠ "").

(** the steps of [h] lead from [s] to [s'] *)
Fixpoint path (s : string) (h : list Transition) (s' : string) : Prop :=
  match h with
  | [] => s = s'
  | t :: h' => t_From t = s ∧ legal t ∧ path (t_To t) h' s'
  end.

Lemma path_snoc (h : list Transition) (t : Transition) : ∀ s s',
  path s h s' → t_From t = s' → legal t → path s (h ++ [t]) (t_To t).
Proof. induction h as [|u h IH]; intros s s'; simpl; [naive_solver|]. intros (? & ? & ?) ? ?. naive_solver. Qed.

(** what a successful record does *)
Lemma Record_cases (t : Transition) (now : Time.time) (l : Log) :
  (∃ e, Record_ t now l = (l, Some e)) ∨
  ∃ t2, t_From t2 = State l (t_LineageID t) ∧ t_To t2 = t_To t ∧ t_LineageID t2 = t_LineageID t ∧
    t_LineageID t ≠ 0%Z ∧ legal t2 ∧
    Record_ t now l =
      ({| state := <[t_LineageID t := t_To t]> (state l);
          history := <[t_LineageID t := History l (t_LineageID t) ++ [t2]]> (history l) |}, None).
Proof.
  unfold Record_. destruct (negb (Str.empty (t_From t)) && _) eqn:Hf; [eauto|].
  set (t1 := if Str.empty (t_From t) then _ else t).
  set (t2 := if Time.IsZero (t_At t1) then _ else t1).
  assert (t_From t2 = State l (t_LineageID t)) as Hfrom.
  { subst t2 t1. unfold Str.empty in *.
    repeat (case_match; simpl in * ); try done; by destruct (decide (t_From t = State l (t_LineageID t)));
      [|rewrite bool_decide_eq_false_2 in Hf by done]. }
  assert (t_To t2 = t_To t ∧ t_LineageID t2 = t_LineageID t) as [Hto Hid]
    by (subst t2 t1; by repeat case_match).
  clearbody t2. clear t1.
  unfold Transition_Validate, Str.empty.
  destruct (t_LineageID t2 =? 0)%Z eqn:E1; [by eauto|].
  destruct (negb (CanTransition _ _)) eqn:E2; [by eauto|].
  destruct (bool_decide (t_Reason t2 = "")) eqn:E3; [by eauto|].
  destruct (bool_decide (t_PlanID t2 = "") && _) eqn:E4; [by eauto|]. bool_to_prop.
  assert (legal t2) as Hl.
  { split_and!; [done..|]. apply andb_false_iff in E4 as [E4|E4]; bool_to_prop; auto. }
  right. exists t2. split_and!; try done. congruence.
Qed.

Record log_ok (l : Log) : Prop := {
  lo_path : ∀ id, path StateObserved (History l id) (State l id);
  lo_ids : ∀ id, Forall (λ t, t_LineageID t = id) (History l id)
}.

Lemma Record_ok (t : Transition) (now : Time.time) (l : Log) : log_ok l → log_ok (Record_ t now l).1.
Proof.
  intros [Hp Hi]. destruct (Record_cases t now l) as [[e ->]|(t2 & Hf & Ht & Hid & Hnz & Hl & ->)]; [done|].
  split; intros id; unfold History, State in *; simpl;
    (destruct (decide (t_LineageID t = id)) as [<-|Hne];
     [rewrite !lookup_insert_eq|rewrite !lookup_insert_ne by done; auto]).
  - simpl. rewrite <-Ht. eapply path_snoc; [apply Hp|done|done].
  - simpl. apply Forall_app. split; [apply Hi|by constructor].
Qed.

Lemma New_ok : log_ok New.
Proof. split; intros id; unfold History, State; simpl; rewrite !lookup_empty; simpl; [done|constructor]. Qed.

Lemma log_run_ok (ts : list (Transition * Time.time)) : ∀ l, log_ok l → log_ok (run ts l).
Proof. induction ts as [|p ts IH]; intros l Hl; [done|]. apply IH. by apply Record_ok. Qed.

Lemma path_known (h : list Transition) : ∀ s s',
  s ∈ AllStates → path s h s' → s' ∈ AllStates.
Proof.
  assert (∀ a b, a ∈ AllStates → CanTransition a b = true → b ∈ AllStates) as Hstep.
  { intros a b Ha Hc. unfold CanTransition in Hc. apply orb_true_iff in Hc as [->%bool_decide_eq_true|Hc]; [done|].
    apply existsb_exists in Hc as ([r ds] & Hin & [_ (d & Hd & ->%bool_decide_eq_true)%existsb_exists]%andb_true_iff).
    unfold validTransitions in Hin. simpl in Hin. apply list_elem_of_In. simpl in Hd.
    repeat (destruct Hin as [[= <- <-]|Hin]; [simpl in Hd; unfold AllStates; simpl; tauto|]). done. }
  induction h as [|t h IH]; intros s s' Hs; simpl; [by intros <-|].
  intros (<- & (Hc & _) & Hp). eapply IH; [|done]. by eapply Hstep.
Qed.

(** a terminated lineage stays terminated *)
Lemma CanTransition_terminated (to : string) : CanTransition StateTerminated to = true → to = StateTerminated.
Proof.
  unfold CanTransition. intros [H|H]%orb_true_iff; [by apply bool_decide_eq_true in H|].
  apply existsb_exists in H as ([r ds] & Hin & [Hr Hd]%andb_true_iff). simpl in *.
  apply bool_decide_eq_true in Hr. subst r. unfold validTransitions in Hin. simpl in Hin.
  repeat (destruct Hin as [Hin|Hin]; [injection Hin as Hs <-; by vm_compute in Hs|]).
  destruct Hin as [Hin|[]]. by injection Hin as <-.
Qed.

(** ** Properties *)

(** in every log the daemon can build, the history of each lineage is an
    unbroken chain of legal, justified and authorised steps from "observed" to
    the state the log reports, and that state is one of the eight named ones. *)
Theorem history_is_legal_path (ts : list (Transition * Time.time)) (id : Z) :
  let l := run ts New in
  path StateObserved (History l id) (State l id) ∧ State l id ∈ AllStates ∧
  Forall (λ t, t_LineageID t = id) (History l id).
Proof.
  intros l. destruct (log_run_ok ts New New_ok) as [Hp Hi]. split; [apply Hp|]. split; [|apply Hi].
  eapply path_known; [|apply Hp]. apply list_elem_of_here.
Qed.

(** "terminated" is absorbing: whatever is recorded afterwards, a
    terminated lineage is reported terminated. *)
Theorem terminated_is_final (ts : list (Transition * Time.time)) (l : Log) (id : Z) :
  State l id = StateTerminated → State (run ts l) id = StateTerminated.
Proof.
  revert l. induction ts as [|[t now] ts IH]; intros l Hl; [done|]. apply IH. simpl.
  destruct (Record_cases t now l) as [[e ->]|(t2 & Hf & Ht & _ & _ & (Hc & _) & ->)]; [done|].
  unfold State. simpl. destruct (decide (t_LineageID t = id)) as [<-|Hne].
  - rewrite lookup_insert_eq. simpl. apply CanTransition_terminated. by rewrite <-Hl, <-Hf, <-Ht.
  - by rewrite lookup_insert_ne.
Qed.

Lemma terminated_is_final_witness :
  let mk from to := {| t_LineageID := 7; t_From := from; t_To := to; t_At := 5; t_Reason := "r";
                       t_PlanID := "p"; t_OperatorID := "" |} in
  let l := run [(mk "" StateTerminated, 1%Z)] New in
  State l 7 = StateTerminated ∧ State (run [(mk "" StateObserved, 2%Z)] l) 7 = StateTerminated.
Proof.
  intros mk l. split; [vm_compute; reflexivity|].
  apply (terminated_is_final [(mk "" StateObserved, 2%Z)] l 7). vm_compute. reflexivity.
Defined.
