(* ===== verification/Decision.v ===== *)
(** * Action plans (src/pkg/decision) and runtime capabilities (src/pkg/runtime)

    What a plan may contain, the planner [Plan] that composes score, crown-jewel
    tier, rule mode and current containment state, and the capability inventory
    that annotates plans.  The inventory is used through the
    [CapabilityChecker] interface.  ULID strings come from a third-party
    package and are arguments. *)

From S2P Require Import Prelude GoStd Model ActionLog.

Record ActionPlan := {
  AlertID : string;
  PlanID : string;
  RuleID : string;
  LineageID : Z;
  ProcKey : string;
  CreatedAt : Time.time;
  Score : Z;
  Tier : string;
  Confidence : string;
  Snapshot : bool;
  Memscan : bool;
  Delay : Time.duration;
  RequireStepUp : bool;
  SuspendProcess : bool;
  IsolateCgroup : bool;
  BanRemoteIP : bool;
  Tarpit : bool;
  IsolateHost : bool;
  RemediateFile : bool;
  LockLocalUser : bool;
  KillProcess : bool;
  Reasons : list string;
  Preconditions : list string;
  CapabilityWarnings : list string;
  Reversible : bool;
  ExpiresAt : Time.time
}.

(** field assignments *)
Definition set_AlertID (v : string) (p : ActionPlan) : ActionPlan :=
  {| AlertID := v; PlanID := PlanID p; RuleID := RuleID p; LineageID := LineageID p; ProcKey
     := ProcKey p; CreatedAt := CreatedAt p; Score := Score p; Tier := Tier p; Confidence :=
     Confidence p; Snapshot := Snapshot p; Memscan := Memscan p; Delay := Delay p;
     RequireStepUp := RequireStepUp p; SuspendProcess := SuspendProcess p; IsolateCgroup :=
     IsolateCgroup p; BanRemoteIP := BanRemoteIP p; Tarpit := Tarpit p; IsolateHost :=
     IsolateHost p; RemediateFile := RemediateFile p; LockLocalUser := LockLocalUser p;
     KillProcess := KillProcess p; Reasons := Reasons p; Preconditions := Preconditions p;
     CapabilityWarnings := CapabilityWarnings p; Reversible := Reversible p; ExpiresAt :=
     ExpiresAt p |}.
Definition set_PlanID (v : string) (p : ActionPlan) : ActionPlan :=
  {| AlertID := AlertID p; PlanID := v; RuleID := RuleID p; LineageID := LineageID p; ProcKey
     := ProcKey p; CreatedAt := CreatedAt p; Score := Score p; Tier := Tier p; Confidence :=
     Confidence p; Snapshot := Snapshot p; Memscan := Memscan p; Delay := Delay p;
     RequireStepUp := RequireStepUp p; SuspendProcess := SuspendProcess p; IsolateCgroup :=
     IsolateCgroup p; BanRemoteIP := BanRemoteIP p; Tarpit := Tarpit p; IsolateHost :=
     IsolateHost p; RemediateFile := RemediateFile p; LockLocalUser := LockLocalUser p;
     KillProcess := KillProcess p; Reasons := Reasons p; Preconditions := Preconditions p;
     CapabilityWarnings := CapabilityWarnings p; Reversible := Reversible p; ExpiresAt :=
     ExpiresAt p |}.
Definition set_RuleID (v : string) (p : ActionPlan) : ActionPlan :=
  {| AlertID := AlertID p; PlanID := PlanID p; RuleID := v; LineageID := LineageID p; ProcKey
     := ProcKey p; CreatedAt := CreatedAt p; Score := Score p; Tier := Tier p; Confidence :=
     Confidence p; Snapshot := Snapshot p; Memscan := Memscan p; Delay := Delay p;
     RequireStepUp := RequireStepUp p; SuspendProcess := SuspendProcess p; IsolateCgroup :=
     IsolateCgroup p; BanRemoteIP := BanRemoteIP p; Tarpit := Tarpit p; IsolateHost :=
     IsolateHost p; RemediateFile := RemediateFile p; LockLocalUser := LockLocalUser p;
     KillProcess := KillProcess p; Reasons := Reasons p; Preconditions := Preconditions p;
     CapabilityWarnings := CapabilityWarnings p; Reversible := Reversible p; ExpiresAt :=
     ExpiresAt p |}.
Definition set_LineageID (v : Z) (p : ActionPlan) : ActionPlan :=
  {| AlertID := AlertID p; PlanID := PlanID p; RuleID := RuleID p; LineageID := v; ProcKey :=
     ProcKey p; CreatedAt := CreatedAt p; Score := Score p; Tier := Tier p; Confidence :=
     Confidence p; Snapshot := Snapshot p; Memscan := Memscan p; Delay := Delay p;
     RequireStepUp := RequireStepUp p; SuspendProcess := SuspendProcess p; IsolateCgroup :=
     IsolateCgroup p; BanRemoteIP := BanRemoteIP p; Tarpit := Tarpit p; IsolateHost :=
     IsolateHost p; RemediateFile := RemediateFile p; LockLocalUser := LockLocalUser p;
     KillProcess := KillProcess p; Reasons := Reasons p; Preconditions := Preconditions p;
     CapabilityWarnings := CapabilityWarnings p; Reversible := Reversible p; ExpiresAt :=
     ExpiresAt p |}.
Definition set_ProcKey (v : string) (p : ActionPlan) : ActionPlan :=
  {| AlertID := AlertID p; PlanID := PlanID p; RuleID := RuleID p; LineageID := LineageID p;
     ProcKey := v; CreatedAt := CreatedAt p; Score := Score p; Tier := Tier p; Confidence :=
     Confidence p; Snapshot := Snapshot p; Memscan := Memscan p; Delay := Delay p;
     RequireStepUp := RequireStepUp p; SuspendProcess := SuspendProcess p; IsolateCgroup :=
     IsolateCgroup p; BanRemoteIP := BanRemoteIP p; Tarpit := Tarpit p; IsolateHost :=
     IsolateHost p; RemediateFile := RemediateFile p; LockLocalUser := LockLocalUser p;
     KillProcess := KillProcess p; Reasons := Reasons p; Preconditions := Preconditions p;
     CapabilityWarnings := CapabilityWarnings p; Reversible := Reversible p; ExpiresAt :=
     ExpiresAt p |}.
Definition set_Score (v : Z) (p : ActionPlan) : ActionPlan :=
  {| AlertID := AlertID p; PlanID := PlanID p; RuleID := RuleID p; LineageID := LineageID p;
     ProcKey := ProcKey p; CreatedAt := CreatedAt p; Score := v; Tier := Tier p; Confidence :=
     Confidence p; Snapshot := Snapshot p; Memscan := Memscan p; Delay := Delay p;
     RequireStepUp := RequireStepUp p; SuspendProcess := SuspendProcess p; IsolateCgroup :=
     IsolateCgroup p; BanRemoteIP := BanRemoteIP p; Tarpit := Tarpit p; IsolateHost :=
     IsolateHost p; RemediateFile := RemediateFile p; LockLocalUser := LockLocalUser p;
     KillProcess := KillProcess p; Reasons := Reasons p; Preconditions := Preconditions p;
     CapabilityWarnings := CapabilityWarnings p; Reversible := Reversible p; ExpiresAt :=
     ExpiresAt p |}.
Definition set_Tier (v : string) (p : ActionPlan) : ActionPlan :=
  {| AlertID := AlertID p; PlanID := PlanID p; RuleID := RuleID p; LineageID := LineageID p;
     ProcKey := ProcKey p; CreatedAt := CreatedAt p; Score := Score p; Tier := v; Confidence
     := Confidence p; Snapshot := Snapshot p; Memscan := Memscan p; Delay := Delay p;
     RequireStepUp := RequireStepUp p; SuspendProcess := SuspendProcess p; IsolateCgroup :=
     IsolateCgroup p; BanRemoteIP := BanRemoteIP p; Tarpit := Tarpit p; IsolateHost :=
     IsolateHost p; RemediateFile := RemediateFile p; LockLocalUser := LockLocalUser p;
     KillProcess := KillProcess p; Reasons := Reasons p; Preconditions := Preconditions p;
     CapabilityWarnings := CapabilityWarnings p; Reversible := Reversible p; ExpiresAt :=
     ExpiresAt p |}.
Definition set_Memscan (v : bool) (p : ActionPlan) : ActionPlan :=
  {| AlertID := AlertID p; PlanID := PlanID p; RuleID := RuleID p; LineageID := LineageID p;
     ProcKey := ProcKey p; CreatedAt := CreatedAt p; Score := Score p; Tier := Tier p;
     Confidence := Confidence p; Snapshot := Snapshot p; Memscan := v; Delay := Delay p;
     RequireStepUp := RequireStepUp p; SuspendProcess := SuspendProcess p; IsolateCgroup :=
     IsolateCgroup p; BanRemoteIP := BanRemoteIP p; Tarpit := Tarpit p; IsolateHost :=
     IsolateHost p; RemediateFile := RemediateFile p; LockLocalUser := LockLocalUser p;
     KillProcess := KillProcess p; Reasons := Reasons p; Preconditions := Preconditions p;
     CapabilityWarnings := CapabilityWarnings p; Reversible := Reversible p; ExpiresAt :=
     ExpiresAt p |}.
Definition set_BanRemoteIP (v : bool) (p : ActionPlan) : ActionPlan :=
  {| AlertID := AlertID p; PlanID := PlanID p; RuleID := RuleID p; LineageID := LineageID p;
     ProcKey := ProcKey p; CreatedAt := CreatedAt p; Score := Score p; Tier := Tier p;
     Confidence := Confidence p; Snapshot := Snapshot p; Memscan := Memscan p; Delay := Delay
     p; RequireStepUp := RequireStepUp p; SuspendProcess := SuspendProcess p; IsolateCgroup :=
     IsolateCgroup p; BanRemoteIP := v; Tarpit := Tarpit p; IsolateHost := IsolateHost p;
     RemediateFile := RemediateFile p; LockLocalUser := LockLocalUser p; KillProcess :=
     KillProcess p; Reasons := Reasons p; Preconditions := Preconditions p; CapabilityWarnings
     := CapabilityWarnings p; Reversible := Reversible p; ExpiresAt := ExpiresAt p |}.
Definition set_Tarpit (v : bool) (p : ActionPlan) : ActionPlan :=
  {| AlertID := AlertID p; PlanID := PlanID p; RuleID := RuleID p; LineageID := LineageID p;
     ProcKey := ProcKey p; CreatedAt := CreatedAt p; Score := Score p; Tier := Tier p;
     Confidence := Confidence p; Snapshot := Snapshot p; Memscan := Memscan p; Delay := Delay
     p; RequireStepUp := RequireStepUp p; SuspendProcess := SuspendProcess p; IsolateCgroup :=
     IsolateCgroup p; BanRemoteIP := BanRemoteIP p; Tarpit := v; IsolateHost := IsolateHost p;
     RemediateFile := RemediateFile p; LockLocalUser := LockLocalUser p; KillProcess :=
     KillProcess p; Reasons := Reasons p; Preconditions := Preconditions p; CapabilityWarnings
     := CapabilityWarnings p; Reversible := Reversible p; ExpiresAt := ExpiresAt p |}.
Definition set_IsolateHost (v : bool) (p : ActionPlan) : ActionPlan :=
  {| AlertID := AlertID p; PlanID := PlanID p; RuleID := RuleID p; LineageID := LineageID p;
     ProcKey := ProcKey p; CreatedAt := CreatedAt p; Score := Score p; Tier := Tier p;
     Confidence := Confidence p; Snapshot := Snapshot p; Memscan := Memscan p; Delay := Delay
     p; RequireStepUp := RequireStepUp p; SuspendProcess := SuspendProcess p; IsolateCgroup :=
     IsolateCgroup p; BanRemoteIP := BanRemoteIP p; Tarpit := Tarpit p; IsolateHost := v;
     RemediateFile := RemediateFile p; LockLocalUser := LockLocalUser p; KillProcess :=
     KillProcess p; Reasons := Reasons p; Preconditions := Preconditions p; CapabilityWarnings
     := CapabilityWarnings p; Reversible := Reversible p; ExpiresAt := ExpiresAt p |}.
Definition set_LockLocalUser (v : bool) (p : ActionPlan) : ActionPlan :=
  {| AlertID := AlertID p; PlanID := PlanID p; RuleID := RuleID p; LineageID := LineageID p;
     ProcKey := ProcKey p; CreatedAt := CreatedAt p; Score := Score p; Tier := Tier p;
     Confidence := Confidence p; Snapshot := Snapshot p; Memscan := Memscan p; Delay := Delay
     p; RequireStepUp := RequireStepUp p; SuspendProcess := SuspendProcess p; IsolateCgroup :=
     IsolateCgroup p; BanRemoteIP := BanRemoteIP p; Tarpit := Tarpit p; IsolateHost :=
     IsolateHost p; RemediateFile := RemediateFile p; LockLocalUser := v; KillProcess :=
     KillProcess p; Reasons := Reasons p; Preconditions := Preconditions p; CapabilityWarnings
     := CapabilityWarnings p; Reversible := Reversible p; ExpiresAt := ExpiresAt p |}.
Definition set_Reasons (v : list string) (p : ActionPlan) : ActionPlan :=
  {| AlertID := AlertID p; PlanID := PlanID p; RuleID := RuleID p; LineageID := LineageID p;
     ProcKey := ProcKey p; CreatedAt := CreatedAt p; Score := Score p; Tier := Tier p;
     Confidence := Confidence p; Snapshot := Snapshot p; Memscan := Memscan p; Delay := Delay
     p; RequireStepUp := RequireStepUp p; SuspendProcess := SuspendProcess p; IsolateCgroup :=
     IsolateCgroup p; BanRemoteIP := BanRemoteIP p; Tarpit := Tarpit p; IsolateHost :=
     IsolateHost p; RemediateFile := RemediateFile p; LockLocalUser := LockLocalUser p;
     KillProcess := KillProcess p; Reasons := v; Preconditions := Preconditions p;
     CapabilityWarnings := CapabilityWarnings p; Reversible := Reversible p; ExpiresAt :=
     ExpiresAt p |}.
Definition set_Preconditions (v : list string) (p : ActionPlan) : ActionPlan :=
  {| AlertID := AlertID p; PlanID := PlanID p; RuleID := RuleID p; LineageID := LineageID p;
     ProcKey := ProcKey p; CreatedAt := CreatedAt p; Score := Score p; Tier := Tier p;
     Confidence := Confidence p; Snapshot := Snapshot p; Memscan := Memscan p; Delay := Delay
     p; RequireStepUp := RequireStepUp p; SuspendProcess := SuspendProcess p; IsolateCgroup :=
     IsolateCgroup p; BanRemoteIP := BanRemoteIP p; Tarpit := Tarpit p; IsolateHost :=
     IsolateHost p; RemediateFile := RemediateFile p; LockLocalUser := LockLocalUser p;
     KillProcess := KillProcess p; Reasons := Reasons p; Preconditions := v;
     CapabilityWarnings := CapabilityWarnings p; Reversible := Reversible p; ExpiresAt :=
     ExpiresAt p |}.
Definition set_CapabilityWarnings (v : list string) (p : ActionPlan) : ActionPlan :=
  {| AlertID := AlertID p; PlanID := PlanID p; RuleID := RuleID p; LineageID := LineageID p;
     ProcKey := ProcKey p; CreatedAt := CreatedAt p; Score := Score p; Tier := Tier p;
     Confidence := Confidence p; Snapshot := Snapshot p; Memscan := Memscan p; Delay := Delay
     p; RequireStepUp := RequireStepUp p; SuspendProcess := SuspendProcess p; IsolateCgroup :=
     IsolateCgroup p; BanRemoteIP := BanRemoteIP p; Tarpit := Tarpit p; IsolateHost :=
     IsolateHost p; RemediateFile := RemediateFile p; LockLocalUser := LockLocalUser p;
     KillProcess := KillProcess p; Reasons := Reasons p; Preconditions := Preconditions p;
     CapabilityWarnings := v; Reversible := Reversible p; ExpiresAt := ExpiresAt p |}.

(** ** Reading a plan *)

(** the executor's order: evidence first, the irreversible kill last *)
Definition actionOrder : list (string * (ActionPlan → bool)) :=
  [("snapshot", Snapshot); ("memscan", Memscan); ("delay", λ p, (0 <? Delay p)%Z);
   ("require_step_up", RequireStepUp); ("suspend_process", SuspendProcess);
   ("isolate_cgroup", IsolateCgroup); ("ban_remote_ip", BanRemoteIP); ("tarpit", Tarpit);
   ("isolate_host", IsolateHost); ("remediate_file", RemediateFile);
   ("lock_local_user", LockLocalUser); ("kill_process", KillProcess)].

Definition Actions (p : ActionPlan) : list string := (filter (λ a, a.2 p = true) actionOrder).*1.

Definition IsNoOp (p : ActionPlan) : bool := (length (Actions p) =? 0)%nat.

Definition HasDestructiveAction (p : ActionPlan) : bool := KillProcess p || RemediateFile p.

Definition IsHardAction (p : ActionPlan) : bool :=
  SuspendProcess p || IsolateCgroup p || IsolateHost p || BanRemoteIP p || KillProcess p ||
  RemediateFile p || LockLocalUser p.

Definition HasExpired (now : Time.time) (p : ActionPlan) : bool :=
  if Time.IsZero (ExpiresAt p) then false else Time.After now (ExpiresAt p).

Inductive plan_error : Type :=
  | PErrNil | PErrProvenance | PErrPlanID | PErrScore | PErrKillReversible | PErrRemediateReversible
  | PErrPreconditions | PErrKillSnapshot | PErrTarpitReasons.

Definition Validate (op : option ActionPlan) : option plan_error :=
  match op with
  | None => Some PErrNil
  | Some p =>
      if Str.empty (AlertID p) && Str.empty (RuleID p) then Some PErrProvenance
      else if Str.empty (PlanID p) then Some PErrPlanID
      else if (Score p <? 0)%Z || (100 <? Score p)%Z then Some PErrScore
      else if KillProcess p && Reversible p then Some PErrKillReversible
      else if RemediateFile p && Reversible p then Some PErrRemediateReversible
      else if IsolateHost p && (length (Preconditions p) =? 0)%nat then Some PErrPreconditions
      else if KillProcess p && negb (Snapshot p) then Some PErrKillSnapshot
      else if Tarpit p && (length (Reasons p) =? 0)%nat then Some PErrTarpitReasons
      else None
  end.

(** ** Constructors; [now] and [now2] are their two clock readings *)

Definition NewNoOp (alertID planID : string) (now : Time.time) : ActionPlan :=
  {| AlertID := alertID; PlanID := planID; RuleID := ""; LineageID := 0; ProcKey := ""; CreatedAt := now;
     Score := 0; Tier := "observed"; Confidence := ""; Snapshot := false; Memscan := false; Delay := 0;
     RequireStepUp := false; SuspendProcess := false; IsolateCgroup := false; BanRemoteIP := false;
     Tarpit := false; IsolateHost := false; RemediateFile := false; LockLocalUser := false;
     KillProcess := false; Reasons := []; Preconditions := []; CapabilityWarnings := [];
     Reversible := true; ExpiresAt := Time.zero |}.

Definition NewSoftBlock (alertID planID : string) (score : Z) (now now2 : Time.time) : ActionPlan :=
  {| AlertID := alertID; PlanID := planID; RuleID := ""; LineageID := 0; ProcKey := ""; CreatedAt := now;
     Score := score; Tier := "triaged"; Confidence := ""; Snapshot := false; Memscan := false;
     Delay := 2 * Time.Second; RequireStepUp := true; SuspendProcess := false; IsolateCgroup := false;
     BanRemoteIP := false; Tarpit := false; IsolateHost := false; RemediateFile := false;
     LockLocalUser := false; KillProcess := false; Reasons := []; Preconditions := [];
     CapabilityWarnings := []; Reversible := true; ExpiresAt := Time.Add now2 (15 * Time.Minute) |}.

Definition NewSuspend (alertID planID : string) (score : Z) (now now2 : Time.time) : ActionPlan :=
  {| AlertID := alertID; PlanID := planID; RuleID := ""; LineageID := 0; ProcKey := ""; CreatedAt := now;
     Score := score; Tier := "suspended"; Confidence := ""; Snapshot := true; Memscan := false;
     Delay := 0; RequireStepUp := false; SuspendProcess := true; IsolateCgroup := true;
     BanRemoteIP := true; Tarpit := false; IsolateHost := false; RemediateFile := false;
     LockLocalUser := false; KillProcess := false; Reasons := []; Preconditions := [];
     CapabilityWarnings := []; Reversible := true; ExpiresAt := Time.Add now2 (2 * Time.Hour) |}.

Definition NewIsolate (alertID planID : string) (score : Z) (now now2 : Time.time) : ActionPlan :=
  set_LockLocalUser true (set_Memscan true
    (set_Tier "isolated" (NewSuspend alertID planID score now now2))).

Definition NewContain (alertID planID : string) (score : Z) (preconditions : list string)
    (now now2 : Time.time) : ActionPlan :=
  set_Preconditions preconditions (set_IsolateHost true
    (set_Tier "contained" (NewIsolate alertID planID score now now2))).

Definition AddCapabilityWarning (missing action : string) (p : ActionPlan) : ActionPlan :=
  set_CapabilityWarnings
    (CapabilityWarnings p ++ [action +:+ " skipped: missing capability " +:+ missing]) p.

(** ** The capability interface *)

(** Annotation may only append warnings: the planner's guarantees rest on
    nothing else. *)
Class CapabilityChecker (C : Type) := {
  AnnotatePlan : C → ActionPlan → ActionPlan;
  AnnotatePlan_warns (c : C) (p : ActionPlan) :
    ∃ ws, AnnotatePlan c p = set_CapabilityWarnings (CapabilityWarnings p ++ ws) p
}.

(** ** The tier ladder *)

Inductive tier : Type := tierObserved | tierTriaged | tierSuspended | tierIsolated | tierContained.

(** the iota values of the constants *)
Definition ord (t : tier) : nat :=
  match t with
  | tierObserved => 0 | tierTriaged => 1 | tierSuspended => 2 | tierIsolated => 3 | tierContained => 4
  end.

Definition tierFromScore (score : Z) : tier :=
  if (100 <=? score)%Z then tierContained
  else if (90 <=? score)%Z then tierIsolated
  else if (75 <=? score)%Z then tierSuspended
  else if (50 <=? score)%Z then tierTriaged
  else tierObserved.

Definition tierFromState (s : string) : tier :=
  if decide (s = StateContained) then tierContained
  else if decide (s = StateIsolated) then tierIsolated
  else if decide (s = StateSuspended) then tierSuspended
  else if decide (s = StateTriaged) then tierTriaged
  else tierObserved.

Definition upgradeForCrownJewel (base : tier) (cjTier : string) : tier :=
  if decide (cjTier = "L1" ∨ cjTier = "L2") then
    if ord base <? ord tierSuspended then tierSuspended else base
  else if decide (cjTier = "L3") then
    if ord base <? ord tierTriaged then tierTriaged else base
  else base.

Definition upgradeForRuleMode (base : tier) (mode : RuleMode) : tier :=
  match mode with
  | ModeQuarantine => if ord base <? ord tierSuspended then tierSuspended else base
  | ModeBlock => if ord base <? ord tierIsolated then tierIsolated else base
  | ModeDetect => base
  end.

Section plan.
Context {C : Type} `{CapabilityChecker C}.
Context (ulid_String : Z → string).

Record Input := {
  in_Alert : Alert;
  in_Score : Z;
  in_LineageID : Z;
  in_ProcKey : string;
  in_Caps : option C;
  in_State : option Log;
  in_CrownJewelTier : string;
  in_AttributedIPs : list string;
  in_BastionAvailable : bool;
  in_OffHostMirrorAvailable : bool
}.

Definition buildPlanForTier (t : tier) (i : Input) (now now2 : Time.time) : ActionPlan :=
  let aid := ulid_String (ev_ID (al_Event (in_Alert i))) in
  match t with
  | tierContained => NewContain aid "" (in_Score i) ["bastion_count>=2"; "off_host_mirror"] now now2
  | tierIsolated => NewIsolate aid "" (in_Score i) now now2
  | tierSuspended => NewSuspend aid "" (in_Score i) now now2
  | tierTriaged => NewSoftBlock aid "" (in_Score i) now now2
  | tierObserved => NewNoOp aid "" now
  end.

(** [fmt.Sprintf("%v", ips)] *)
Definition bracketed (ips : list string) : string := "[" +:+ String.concat " " ips +:+ "]".

(** steps 1 to 4: the tier before the layer-5 check *)
Definition proposedTier (i : Input) : tier :=
  let t0 := tierFromScore (in_Score i) in
  let t1 := upgradeForCrownJewel t0 (in_CrownJewelTier i) in
  let t2 := upgradeForRuleMode t1 (al_Mode (in_Alert i)) in
  match in_State i with
  | Some l => let cur := tierFromState (State l (in_LineageID i)) in
              if ord t2 <? ord cur then cur else t2
  | None => t2
  end.

Definition layer5 (i : Input) (p : ActionPlan) : ActionPlan :=
  if IsolateHost p && negb (in_BastionAvailable i && in_OffHostMirrorAvailable i) then
    AddCapabilityWarning "bastion+off-host-mirror" "isolate_host"
      (set_Tier "isolated" (set_IsolateHost false p))
  else if IsolateHost p then
    set_Preconditions (Preconditions p ++ ["bastion_count>=2"; "off_host_mirror"]) p
  else p.

Definition attribution (i : Input) (p : ActionPlan) : ActionPlan :=
  let p1 := if BanRemoteIP p && (length (in_AttributedIPs i) =? 0)%nat then
              set_Reasons (Reasons p ++ ["ban_remote_ip skipped: no attributed remote IPs"])
                (set_BanRemoteIP false p)
            else p in
  if Tarpit p1 && (length (in_AttributedIPs i) =? 0)%nat then set_Tarpit false p1
  else if Tarpit p1 then
    set_Reasons (Reasons p1 ++ ["tarpit attribution: " +:+ bracketed (in_AttributedIPs i)]) p1
  else p1.

Definition provenance (i : Input) (p : ActionPlan) : ActionPlan :=
  let p1 := if Str.empty (al_Reason (in_Alert i)) then p
            else set_Reasons (Reasons p ++ [al_Reason (in_Alert i)]) p in
  if Str.empty (in_CrownJewelTier i) then p1
  else set_Reasons (Reasons p1 ++ ["crown-jewel tier=" +:+ in_CrownJewelTier i]) p1.

(** [planID] is the ULID drawn for the plan *)
Definition Plan (i : Input) (planID : string) (now now2 : Time.time) : ActionPlan :=
  let p0 := buildPlanForTier (proposedTier i) i now now2 in
  let p1 := set_Score (in_Score i) (set_RuleID (al_RuleID (in_Alert i)) (set_ProcKey (in_ProcKey i)
              (set_LineageID (in_LineageID i) (set_PlanID planID p0)))) in
  let p2 := if Str.empty (AlertID p1)
            then set_AlertID (ulid_String (ev_ID (al_Event (in_Alert i)))) p1 else p1 in
  let p3 := provenance i (attribution i (layer5 i p2)) in
  match in_Caps i with Some c => AnnotatePlan c p3 | None => p3 end.

(** ** The plan by tier *)

Definition tier_name (t : tier) : string :=
  match t with
  | tierObserved => "observed" | tierTriaged => "triaged" | tierSuspended => "suspended"
  | tierIsolated => "isolated" | tierContained => "contained"
  end.

(** the tier after the layer-5 check *)
Definition finalTier (i : Input) : tier :=
  match proposedTier i with
  | tierContained => if in_BastionAvailable i && in_OffHostMirrorAvailable i then tierContained
                     else tierIsolated
  | t => t
  end.

(** a plan without its annotation *)
Lemma Plan_annotated (i : Input) (planID : string) (now now2 : Time.time) :
  ∃ p ws, Plan i planID now now2 = set_CapabilityWarnings ws p ∧
    p = provenance i (attribution i (layer5 i (set_Score (in_Score i) (set_RuleID (al_RuleID (in_Alert i))
          (set_ProcKey (in_ProcKey i) (set_LineageID (in_LineageID i) (set_PlanID planID
            (buildPlanForTier (proposedTier i) i now now2)))))))).
Proof.
  unfold Plan.
  assert (∀ p, AlertID p = ulid_String (ev_ID (al_Event (in_Alert i))) →
    (if Str.empty (AlertID p) then set_AlertID (ulid_String (ev_ID (al_Event (in_Alert i)))) p else p) = p) as Ha.
  { intros p Hp. destruct p. simpl in *. rewrite Hp. by case_match. }
  rewrite Ha by (by destruct (proposedTier i)).
  set (p3 := provenance _ _). destruct (in_Caps i) as [c|].
  - destruct (AnnotatePlan_warns c p3) as [ws ->]. by eexists _, _.
  - exists p3, (CapabilityWarnings p3). split; [by destruct p3|done].
Qed.

(** what an executor reads of a plan *)
Definition bits (p : ActionPlan) : string * Time.duration * list bool :=
  (Tier p, Delay p,
   [Snapshot p; Memscan p; RequireStepUp p; SuspendProcess p; IsolateCgroup p; BanRemoteIP p; Tarpit p;
    IsolateHost p; RemediateFile p; LockLocalUser p; KillProcess p; Reversible p]).

(** who asked for it *)
Definition origin (p : ActionPlan) : string * string * Z * Z := (AlertID p, PlanID p, Score p, LineageID p).

Lemma provenance_keeps (i : Input) (p : ActionPlan) :
  bits (provenance i p) = bits p ∧ origin (provenance i p) = origin p ∧
  Preconditions (provenance i p) = Preconditions p.
Proof. unfold provenance. by repeat case_match. Qed.

Lemma attribution_keeps (i : Input) (p : ActionPlan) :
  Tarpit p = false →
  bits (attribution i p) =
    bits (set_BanRemoteIP (BanRemoteIP p && negb (length (in_AttributedIPs i) =? 0)%nat) p) ∧
  origin (attribution i p) = origin p ∧ Preconditions (attribution i p) = Preconditions p.
Proof.
  intros Ht. unfold attribution. destruct (BanRemoteIP p) eqn:Hb, (length (in_AttributedIPs i) =? 0)%nat;
    unfold bits; simpl; rewrite ?Ht; simpl; rewrite ?Ht, ?Hb; done.
Qed.

Lemma layer5_keeps (i : Input) (p : ActionPlan) :
  origin (layer5 i p) = origin p ∧
  bits (layer5 i p) =
    (if IsolateHost p && negb (in_BastionAvailable i && in_OffHostMirrorAvailable i)
     then bits (set_Tier "isolated" (set_IsolateHost false p)) else bits p) ∧
  (IsolateHost (layer5 i p) = true → Preconditions (layer5 i p) ≠ []).
Proof.
  unfold layer5. destruct (IsolateHost p && _) eqn:H1; [done|].
  destruct (IsolateHost p) eqn:H2; [|by rewrite H2].
  split_and!; [done|done|]. intros _ [_ [=]]%app_eq_nil.
Qed.

(** the action bits of a finished plan, by final tier *)
Definition tier_bits (t : tier) (ban : bool) : string * Time.duration * list bool :=
  let hard := 2 <=? ord t in
  (tier_name t, if ord t =? 1 then (2 * Time.Second)%Z else 0%Z,
   [hard; 3 <=? ord t; ord t =? 1; hard; hard; hard && ban; false; 4 <=? ord t; false; 3 <=? ord t;
    false; true]).

Lemma Plan_summary (i : Input) (planID : string) (now now2 : Time.time) :
  let p := Plan i planID now now2 in
  bits p = tier_bits (finalTier i) (negb (length (in_AttributedIPs i) =? 0)%nat) ∧
  origin p = (ulid_String (ev_ID (al_Event (in_Alert i))), planID, in_Score i, in_LineageID i) ∧
  (IsolateHost p = true → Preconditions p ≠ []).
Proof.
  cbv zeta. destruct (Plan_annotated i planID now now2) as (q & ws & -> & Hq).
  set (p1 := set_Score _ _) in Hq.
  assert (bits p1 = tier_bits (proposedTier i) true ∧
    origin p1 = (ulid_String (ev_ID (al_Event (in_Alert i))), planID, in_Score i, in_LineageID i)) as [Hb1 Ho1]
    by (subst p1; by destruct (proposedTier i)).
  clearbody p1. destruct (layer5_keeps i p1) as (Ho2 & Hb2 & Hpre2). set (p2 := layer5 i p1) in *.
  assert (bits p2 = tier_bits (finalTier i) true) as Hb2'.
  { rewrite Hb2. unfold finalTier, bits in *. simpl. injection Hb1 as -> -> -> -> -> -> -> -> -> -> -> -> -> ->.
    by destruct (proposedTier i), (in_BastionAvailable i && in_OffHostMirrorAvailable i). }
  clearbody p2.
  assert (Tarpit p2 = false ∧ BanRemoteIP p2 = (2 <=? ord (finalTier i))) as [Ht Hban]
    by (injection Hb2' as _ _ _ _ _ _ _ Hba Hta _ _ _ _ _; by rewrite Hba, andb_true_r).
  destruct (attribution_keeps i p2 Ht) as (Hb3 & Ho3 & Hp3).
  destruct (provenance_keeps i (attribution i p2)) as (Hb4 & Ho4 & Hp4). rewrite <-Hq in *.
  assert (bits (set_CapabilityWarnings ws q) = bits q ∧ origin (set_CapabilityWarnings ws q) = origin q ∧
    IsolateHost (set_CapabilityWarnings ws q) = IsolateHost q ∧
    Preconditions (set_CapabilityWarnings ws q) = Preconditions q) as (-> & -> & -> & ->) by done.
  split_and!; [| by rewrite Ho4, Ho3, Ho2 |].
  - rewrite Hb4, Hb3. unfold bits, tier_bits in *. simpl. rewrite Hban.
    injection Hb2' as -> -> -> -> -> -> -> _ -> -> -> -> -> ->. done.
  - rewrite Hp4, Hp3. intros Hih. apply Hpre2. rewrite <-Hih.
    assert (IsolateHost q = IsolateHost (attribution i p2)) as ->
      by (unfold bits in Hb4; by injection Hb4).
    unfold bits in Hb3. by injection Hb3.
Qed.

(** floors that the code's upgrades impose *)
Definition jewelFloor (cj : string) : tier :=
  if decide (cj = "L1" ∨ cj = "L2") then tierSuspended
  else if decide (cj = "L3") then tierTriaged else tierObserved.

Definition modeFloor (m : RuleMode) : tier :=
  match m with ModeDetect => tierObserved | ModeQuarantine => tierSuspended | ModeBlock => tierIsolated end.

Definition stateFloor (i : Input) : tier :=
  match in_State i with
  | Some l => tierFromState (State l (in_LineageID i))
  | None => tierObserved
  end.

Lemma ord_inj (a b : tier) : ord a = ord b → a = b.
Proof. by destruct a, b. Qed.

Lemma upgradeForCrownJewel_max (t : tier) (cj : string) :
  ord (upgradeForCrownJewel t cj) = ord t `max` ord (jewelFloor cj).
Proof. unfold upgradeForCrownJewel, jewelFloor. repeat case_decide; destruct t; done. Qed.

Lemma upgradeForRuleMode_max (t : tier) (m : RuleMode) :
  ord (upgradeForRuleMode t m) = ord t `max` ord (modeFloor m).
Proof. by destruct t, m. Qed.

Lemma proposedTier_max (i : Input) :
  ord (proposedTier i) =
  ord (tierFromScore (in_Score i)) `max` ord (jewelFloor (in_CrownJewelTier i))
    `max` ord (modeFloor (al_Mode (in_Alert i))) `max` ord (stateFloor i).
Proof.
  unfold proposedTier, stateFloor. rewrite <-upgradeForCrownJewel_max, <-upgradeForRuleMode_max.
  destruct (in_State i) as [l|]; [|simpl; lia]. case_match; bool_to_prop; lia.
Qed.

Lemma Actions_snapshot (p : ActionPlan) : Snapshot p = true → head (Actions p) = Some "snapshot".
Proof. intros Hs. unfold Actions, actionOrder. by rewrite filter_cons_True. Qed.

(** ** Properties *)

(** the planner takes the strongest of its four inputs (score, crown-jewel
    tier, rule mode, current containment state) and never de-escalates: the
    plan's tier is their maximum, lowered from "contained" to "isolated" exactly
    when the bastion or the off-host mirror is missing. *)
Theorem plan_tier_is_join (i : Input) (planID : string) (now now2 : Time.time) :
  ∃ t, Tier (Plan i planID now now2) = tier_name t ∧
    ord t = (let m := ord (tierFromScore (in_Score i)) `max` ord (jewelFloor (in_CrownJewelTier i))
                        `max` ord (modeFloor (al_Mode (in_Alert i))) `max` ord (stateFloor i) in
             if (m =? 4)%nat && negb (in_BastionAvailable i && in_OffHostMirrorAvailable i) then 3 else m).
Proof.
  destruct (Plan_summary i planID now now2) as [Hb _]. exists (finalTier i).
  split; [by injection Hb|].
  rewrite <-proposedTier_max. unfold finalTier. by destruct (proposedTier i); simpl; repeat case_match.
Qed.

(** every plan the planner emits for a score in range passes the structural
    validator, provided ids are non-empty. *)
Theorem plan_is_valid (i : Input) (planID : string) (now now2 : Time.time) :
  (∀ z, ulid_String z ≠ "") → planID ≠ "" → (0 ≤ in_Score i ≤ 100)%Z →
  Validate (Some (Plan i planID now now2)) = None.
Proof.
  intros Hu Hid Hs. destruct (Plan_summary i planID now now2) as (Hb & Ho & Hpre).
  injection Hb as _ _ _ _ _ _ _ _ Htar _ Hrem _ Hkill _. injection Ho as Ha Hp Hsc _. unfold Validate, Str.empty. rewrite Ha, Hp, Hsc, Htar, Hrem, Hkill.
  rewrite bool_decide_eq_false_2 by apply Hu. rewrite (bool_decide_eq_false_2 (planID = "")) by done.
  rewrite (proj2 (Z.ltb_ge _ _)) by lia. rewrite (proj2 (Z.ltb_ge _ _)) by lia. simpl.
  destruct (IsolateHost _); [|done]. simpl. specialize (Hpre eq_refl). by destruct (Preconditions _).
Qed.

(** a plan is never irreversible and never reaches past its evidence: no
    kill, no file remediation, no tarpit; host isolation only with bastion and
    mirror; a remote ban only with an attributed address; process suspension
    always with a snapshot, which is the first action run. *)
Theorem plan_is_safe (i : Input) (planID : string) (now now2 : Time.time) :
  let p := Plan i planID now now2 in
  HasDestructiveAction p = false ∧ Reversible p = true ∧ Tarpit p = false ∧
  (IsolateHost p = true → in_BastionAvailable i = true ∧ in_OffHostMirrorAvailable i = true) ∧
  (BanRemoteIP p = true → in_AttributedIPs i ≠ []) ∧
  (IsHardAction p = true → head (Actions p) = Some "snapshot") ∧
  (IsHardAction p = true ↔ 2 ≤ ord (finalTier i)).
Proof.
  intros p. subst p. destruct (Plan_summary i planID now now2) as (Hb & _ & _).
  injection Hb as _ _ Hsn _ _ Hsu Hic Hban Htar Hih Hrem Hlk Hkill Hrev.
  pose proof (Actions_snapshot (Plan i planID now now2)) as Hsnap. rewrite Hsn in Hsnap.
  unfold HasDestructiveAction, IsHardAction. rewrite Hsu, Hic, Hban, Hlk, Hih, Htar, Hrem, Hkill, Hrev. simpl.
  split_and!; try done.
  - unfold finalTier. destruct (proposedTier i); simpl; try done.
    by destruct (in_BastionAvailable i), (in_OffHostMirrorAvailable i).
  - rewrite andb_true_iff. intros [_ Hl] Hn. by rewrite Hn in Hl.
  - destruct (finalTier i); try done; intros _; by apply Hsnap.
  - destruct (finalTier i), (in_AttributedIPs i); simpl; (done || lia || split; (done || lia)).
Qed.

End plan.

(** ** The capability inventory (src/pkg/runtime) *)

(** the fields planning reads; discovery probes and subsystem constructors set them *)
Record CapabilitySet := {
  HasNFTables : bool;
  HasCgroupV2 : bool;
  NetbanReady : bool;
  QuarantineReady : bool;
  RemediateReady : bool;
  SnapshotReady : bool;
  MemscanReady : bool;
  TarpitReady : bool;
  BastionCount : Z;
  OffHostMirror : bool;
  WebAuthnReady : bool
}.

(** the closure [require] *)
Definition require (have : bool) (action missing : string) : list string :=
  if have then [] else [action +:+ " requires " +:+ missing].

Definition CanExecute (c : CapabilitySet) (op : option ActionPlan) : list string :=
  match op with
  | None => []
  | Some p =>
      (if Snapshot p then require (SnapshotReady c) "snapshot" "pkg/snapshot ready" else []) ++
      (if Memscan p then require (MemscanReady c) "memscan" "pkg/memscan ready" else []) ++
      (if SuspendProcess p then require (QuarantineReady c) "suspend_process" "pkg/quarantine ready" else []) ++
      (if IsolateCgroup p then
         require (HasCgroupV2 c) "isolate_cgroup" "cgroup v2" ++
         require (HasNFTables c) "isolate_cgroup" "nftables binary" ++
         require (QuarantineReady c) "isolate_cgroup" "pkg/quarantine ready" else []) ++
      (if BanRemoteIP p then
         require (NetbanReady c) "ban_remote_ip" "pkg/netban ready" ++
         require (HasNFTables c) "ban_remote_ip" "nftables binary" else []) ++
      (if Tarpit p then
         require (TarpitReady c) "tarpit" "pkg/tarpit ready" ++
         require (HasNFTables c) "tarpit" "nftables binary" else []) ++
      (if IsolateHost p then
         require (2 <=? BastionCount c)%Z "isolate_host" "BastionCount>=2" ++
         require (OffHostMirror c) "isolate_host" "off-host evidence mirror" ++
         require (NetbanReady c) "isolate_host" "pkg/netban ready" else []) ++
      (if RemediateFile p then require (RemediateReady c) "remediate_file" "pkg/remediate ready" else []) ++
      (if RequireStepUp p then require (WebAuthnReady c) "require_step_up" "WebAuthn endpoint live" else [])
  end.

Definition CapabilitySet_AnnotatePlan (c : CapabilitySet) (p : ActionPlan) : ActionPlan :=
  foldl (λ p w, set_CapabilityWarnings (CapabilityWarnings p ++ [w]) p) p (CanExecute c (Some p)).

Lemma annotate_fold (ws : list string) : ∀ p,
  foldl (λ p w, set_CapabilityWarnings (CapabilityWarnings p ++ [w]) p) p ws =
  set_CapabilityWarnings (CapabilityWarnings p ++ ws) p.
Proof.
  induction ws as [|w ws IH]; intros p; simpl; [destruct p; simpl; by rewrite app_nil_r|].
  rewrite IH. destruct p. simpl. by rewrite <-app_assoc.
Qed.

(** the inventory keeps the interface's promise *)
#[export] Instance CapabilitySet_checker : CapabilityChecker CapabilitySet := {
  AnnotatePlan := CapabilitySet_AnnotatePlan;
  AnnotatePlan_warns c p := ex_intro _ _ (annotate_fold (CanExecute c (Some p)) p)
}.

Lemma require_nil (b : bool) (a m : string) : require b a m = [] ↔ b = true.
Proof. unfold require. by destruct b. Qed.

(** No silent degradation: a plan of the planner that carries no capability
    warning has, for every enabled action, the capabilities that action needs;
    a missing one always leaves a warning on the plan. *)
Theorem missing_capability_always_warned (ulid : Z → string) (i : Input) (c : CapabilitySet)
    (planID : string) (now now2 : Time.time) :
  in_Caps i = Some c →
  let p := Plan ulid i planID now now2 in
  CapabilityWarnings p = [] →
  (Snapshot p = true → SnapshotReady c = true) ∧
  (SuspendProcess p = true → QuarantineReady c = true) ∧
  (IsolateCgroup p = true → HasCgroupV2 c = true ∧ HasNFTables c = true) ∧
  (BanRemoteIP p = true → NetbanReady c = true ∧ HasNFTables c = true) ∧
  (Memscan p = true → MemscanReady c = true) ∧
  (IsolateHost p = true → (2 ≤ BastionCount c)%Z ∧ OffHostMirror c = true) ∧
  (RequireStepUp p = true → WebAuthnReady c = true).
Proof.
  intros Hc p Hw. subst p. unfold Plan in *. rewrite Hc in *. cbn [AnnotatePlan CapabilitySet_checker] in *.
  unfold CapabilitySet_AnnotatePlan in *. rewrite annotate_fold in *.
  match type of Hw with CapabilityWarnings (set_CapabilityWarnings _ ?x) = _ => set (q := x) in * end.
  clearbody q. cbn [CapabilityWarnings set_CapabilityWarnings] in Hw. apply app_eq_nil in Hw as [_ Hw].
  cbn [Snapshot SuspendProcess IsolateCgroup BanRemoteIP Memscan IsolateHost RequireStepUp set_CapabilityWarnings].
  unfold CanExecute in Hw. repeat setoid_rewrite app_nil in Hw.
  destruct Hw as (H1 & H2 & H3 & H4 & H5 & _ & H7 & _ & H9).
  split_and!; intros Hb; rewrite Hb in *; rewrite ?app_nil, ?require_nil, ?Z.leb_le in *; tauto.
Qed.

(** ** Witnesses *)

Module Demo.
Definition alert : Alert :=
  {| al_Event := NewEvent 9 100 "demo" SeverityHigh; al_RuleID := "r"; al_Reason := "why";
     al_EvidenceIDs := []; al_Mode := ModeBlock; al_Action := ""; al_Class := 0 |}.
Definition caps : CapabilitySet :=
  {| HasNFTables := true; HasCgroupV2 := true; NetbanReady := true; QuarantineReady := true;
     RemediateReady := true; SnapshotReady := true; MemscanReady := true; TarpitReady := true;
     BastionCount := 2; OffHostMirror := true; WebAuthnReady := true |}.
Definition input : Input (C:=CapabilitySet) :=
  {| in_Alert := alert; in_Score := 80; in_LineageID := 3; in_ProcKey := ""; in_Caps := Some caps;
     in_State := Some New; in_CrownJewelTier := "L1"; in_AttributedIPs := ["9.9.9.9"];
     in_BastionAvailable := true; in_OffHostMirrorAvailable := false |}.
Definition ulid (z : Z) : string := "01H" +:+ Str.itoa z.
End Demo.

Lemma plan_is_valid_witness :
  Tier (Plan Demo.ulid Demo.input "P1" 1 2) = "isolated" ∧
  Validate (Some (Plan Demo.ulid Demo.input "P1" 1 2)) = None.
Proof.
  split; [vm_compute; reflexivity|].
  apply (plan_is_valid Demo.ulid Demo.input "P1" 1 2); [done|done|simpl; lia].
Defined.

Lemma missing_capability_always_warned_witness :
  SuspendProcess (Plan Demo.ulid Demo.input "P1" 1 2) = true ∧
  (SuspendProcess (Plan Demo.ulid Demo.input "P1" 1 2) = true → QuarantineReady Demo.caps = true).
Proof.
  split; [vm_compute; reflexivity|].
  apply (missing_capability_always_warned Demo.ulid Demo.input Demo.caps "P1" 1 2);
    vm_compute; reflexivity.
Defined.
