(* ===== verification/Takeover.v ===== *)
(** * Takeover scoring and planning (src/pkg/takeover)

    Signals per lineage, the scorer with diminishing returns and co-occurrence
    bonuses, the rolling aggregator and the planner that turns a score into an
    action plan.  Maps are iterated in an order given as an argument; scores are
    unbounded integers here (weights in the code are at most a few hundred). *)

From S2P Require Import Prelude GoStd Model ActionLog Decision.

(** ** Signals *)

Definition SignalCanaryTouch : string := "canary_touch".
Definition SignalTaintExpand : string := "taint_expand".
Definition SignalPassportMissing : string := "passport_missing".
Definition SignalLOTL : string := "lotl".
Definition SignalCapAbuse : string := "cap_abuse".
Definition SignalNewBinary : string := "new_binary".
Definition SignalNewEndpoint : string := "new_endpoint".
Definition SignalParentMismatch : string := "parent_mismatch".
Definition SignalCredAccess : string := "cred_access".
Definition SignalPersistence : string := "persistence".
Definition SignalDefenseEvasion : string := "defense_evasion".
Definition SignalLateralMove : string := "lateral_move".
Definition SignalRuleHit : string := "rule_hit".
Definition SignalShellAttempt : string := "shell_attempt".
Definition SignalInterpAttempt : string := "interp_attempt".
Definition SignalDownloader : string := "downloader".
Definition SignalReconTool : string := "recon_tool".
Definition SignalPrivTool : string := "priv_tool".
Definition SignalForbiddenSyscall : string := "forbidden_syscall".
Definition SignalForbiddenWrite : string := "forbidden_write".
Definition SignalForbiddenConnect : string := "forbidden_connect".
Definition SignalRWXMemory : string := "rwx_memory".
Definition SignalC2Beacon : string := "c2_beacon".
Definition SignalDecoyTouch : string := "decoy_touch".
Definition SignalCrashLoop : string := "crash_loop".
Definition SignalIdentityMismatch : string := "identity_mismatch".
Definition SignalBase64Decode : string := "base64_decode".
Definition SignalRecursiveDelete : string := "recursive_delete".
Definition SignalChmodExec : string := "chmod_exec".
Definition SignalCredBrokerDeny : string := "credbroker_deny".
Definition SignalCredBrokerHoneyTouch : string := "credbroker_honey_touch".

Definition AllKinds : list string :=
  [SignalCanaryTouch; SignalTaintExpand; SignalPassportMissing; SignalLOTL; SignalCapAbuse;
   SignalNewBinary; SignalNewEndpoint; SignalParentMismatch; SignalCredAccess;
   SignalPersistence; SignalDefenseEvasion; SignalLateralMove; SignalRuleHit;
   SignalShellAttempt; SignalInterpAttempt; SignalDownloader; SignalReconTool; SignalPrivTool;
   SignalForbiddenSyscall; SignalForbiddenWrite; SignalForbiddenConnect; SignalRWXMemory;
   SignalC2Beacon; SignalDecoyTouch; SignalCrashLoop; SignalIdentityMismatch;
   SignalBase64Decode; SignalRecursiveDelete; SignalChmodExec; SignalCredBrokerDeny;
   SignalCredBrokerHoneyTouch].

Record Signal := {
  s_LineageID : Z;
  s_Kind : string;
  s_At : Time.time;
  s_Source : string;
  s_Detail : string;
  s_Weight : Z;
  s_Confidence : string;
  s_RemoteIP : string
}.

(** a weight table; a missing kind reads as 0 *)
Abbreviation Weights := (gmap string Z) (only parsing).

Definition DefaultWeights : Weights := list_to_map
  [(SignalCanaryTouch, 80); (SignalPassportMissing, 75); (SignalDefenseEvasion, 85);
   (SignalTaintExpand, 35); (SignalCredAccess, 50); (SignalPersistence, 55); (SignalLateralMove,
   50); (SignalParentMismatch, 40); (SignalCapAbuse, 45); (SignalLOTL, 25); (SignalNewBinary,
   20); (SignalNewEndpoint, 15); (SignalRuleHit, 30); (SignalShellAttempt, 80);
   (SignalDownloader, 75); (SignalForbiddenWrite, 80); (SignalRWXMemory, 95); (SignalC2Beacon,
   85); (SignalDecoyTouch, 85); (SignalCrashLoop, 80); (SignalIdentityMismatch, 90);
   (SignalBase64Decode, 35); (SignalRecursiveDelete, 40); (SignalChmodExec, 45);
   (SignalInterpAttempt, 70); (SignalReconTool, 75); (SignalPrivTool, 80);
   (SignalForbiddenSyscall, 50); (SignalForbiddenConnect, 60); (SignalCredBrokerDeny, 80);
   (SignalCredBrokerHoneyTouch, 95)]%Z.

(** ** The scorer *)

Record ScorerCoRule := { co_ID : string; co_Need : list string; co_Window : Time.duration; co_Bonus : Z }.

Definition DefaultCoRules : list ScorerCoRule :=
  [{| co_ID := "cooccur.dropper_chain"; co_Need := [SignalBase64Decode; SignalChmodExec];
      co_Window := 60 * Time.Second; co_Bonus := 30 |};
   {| co_ID := "cooccur.beacon_then_shell"; co_Need := [SignalC2Beacon; SignalShellAttempt];
      co_Window := 90 * Time.Second; co_Bonus := 35 |};
   {| co_ID := "cooccur.exfil_chain"; co_Need := [SignalDecoyTouch; SignalForbiddenConnect];
      co_Window := 5 * Time.Minute; co_Bonus := 30 |};
   {| co_ID := "cooccur.recon_then_persist"; co_Need := [SignalReconTool; SignalPersistence];
      co_Window := 5 * Time.Minute; co_Bonus := 25 |};
   {| co_ID := "cooccur.delete_after_shell"; co_Need := [SignalShellAttempt; SignalRecursiveDelete];
      co_Window := 2 * Time.Minute; co_Bonus := 20 |};
   {| co_ID := "cooccur.identity_then_attack"; co_Need := [SignalIdentityMismatch; SignalShellAttempt];
      co_Window := 5 * Time.Minute; co_Bonus := 40 |}].

Record Scorer := { W : Weights; CoRules : list ScorerCoRule }.

(** [None] is the nil table *)
Definition NewScorer (w : option Weights) : Scorer :=
  {| W := default DefaultWeights w; CoRules := DefaultCoRules |}.

Definition dimFactor (idx : nat) : Z :=
  match idx with 0%nat => 100%Z | 1%nat => 50%Z | 2%nat => 25%Z | 3%nat => 10%Z | _ => 0%Z end.

Definition scaleInt (weight factorPct : Z) : Z := Z.quot (weight * factorPct + 50) 100.

Record KindContribution := { kc_Kind : string; kc_Count : nat; kc_Score : Z }.

Record Result := {
  res_Score : Z;
  res_Contributions : list KindContribution;
  res_CoBonuses : list (string * Z)
}.

(** grouping by kind keeps the order of arrival *)
Definition groupByKind (sigs : list Signal) : gmap string (list Signal) :=
  foldl (λ m s, <[s_Kind s := default [] (m !! s_Kind s) ++ [s]]> m) ∅ sigs.

Definition effectiveWeight (w : Weights) (kind : string) (s : Signal) : Z :=
  if (s_Weight s <=? 0)%Z then default 0%Z (w !! kind) else s_Weight s.

(** the inner loop over the signals of one kind, from position [i] *)
Fixpoint kindScore (w : Weights) (kind : string) (i : nat) (ksigs : list Signal) : Z :=
  match ksigs with
  | [] => 0%Z
  | s :: rest => (scaleInt (effectiveWeight w kind s) (dimFactor i) + kindScore w kind (S i) rest)%Z
  end.

Definition contribution (w : Weights) (byKind : gmap string (list Signal)) (kind : string) :
    KindContribution :=
  let ksigs := default [] (byKind !! kind) in
  {| kc_Kind := kind; kc_Count := length ksigs; kc_Score := kindScore w kind 0 ksigs |}.

(** the youngest signal of a non-empty group *)
Definition newest (group : list Signal) : option Time.time :=
  match group with
  | [] => None
  | s :: rest => Some (foldl (λ n s', if Time.After (s_At s') n then s_At s' else n) (s_At s) rest)
  end.

(** the loop of [evalCoRule] over the kinds still needed, with the running
    maximum and minimum once the first kind is in *)
Fixpoint coSpan (byKind : gmap string (list Signal)) (acc : option (Time.time * Time.time))
    (need : list string) : option (option (Time.time * Time.time)) :=
  match need with
  | [] => Some acc
  | k :: need' =>
      match newest (default [] (byKind !! k)) with
      | None => None
      | Some n =>
          let acc' := match acc with
                      | None => (n, n)
                      | Some (mx, mn) => (if Time.After n mx then n else mx, if Time.Before n mn then n else mn)
                      end in
          coSpan byKind (Some acc') need'
      end
  end.

Definition evalCoRule (r : ScorerCoRule) (byKind : gmap string (list Signal)) : option Z :=
  match coSpan byKind None (co_Need r) with
  | None => None
  | Some acc =>
      let '(mx, mn) := default (Time.zero, Time.zero) acc in
      if (0 <? co_Window r)%Z && (co_Window r <? Time.Sub mx mn)%Z then None else Some (co_Bonus r)
  end.

Definition coBonuses (rules : list ScorerCoRule) (byKind : gmap string (list Signal)) : list (string * Z) :=
  omap (λ r, b ← evalCoRule r byKind; Some (co_ID r, b)) rules.

Definition clamp (total : Z) : Z :=
  let t := if (100 <? total)%Z then 100%Z else total in if (t <? 0)%Z then 0%Z else t.

(** [order] is the order in which the groups are visited *)
Definition Score (s : Scorer) (order : gmap string (list Signal) → list string) (sigs : list Signal) : Result :=
  match sigs with
  | [] => {| res_Score := 0; res_Contributions := []; res_CoBonuses := [] |}
  | _ =>
      let byKind := groupByKind sigs in
      let contribs := contribution (W s) byKind <$> order byKind in
      let bonuses := coBonuses (CoRules s) byKind in
      {| res_Score := clamp (sumZ (kc_Score <$> contribs) + sumZ bonuses.*2);
         res_Contributions := contribs; res_CoBonuses := bonuses |}
  end.

(** ** The aggregator *)

Record Aggregator := {
  ttl : Time.duration;
  signals : gmap Z (list Signal);
  remoteIP : gmap Z (gset string)
}.

Definition DefaultSignalTTL : Time.duration := 30 * Time.Minute.

Definition NewAggregator (t : Time.duration) : Aggregator :=
  {| ttl := if (t <=? 0)%Z then DefaultSignalTTL else t; signals := ∅; remoteIP := ∅ |}.

(** drops the leading signals before [cutoff], stopping at the first that is not *)
Fixpoint evictOlder (sigs : list Signal) (cutoff : Time.time) : list Signal :=
  match sigs with
  | [] => []
  | s :: rest => if Time.Before (s_At s) cutoff then evictOlder rest cutoff else sigs
  end.

Definition set_At (t : Time.time) (s : Signal) : Signal :=
  {| s_LineageID := s_LineageID s; s_Kind := s_Kind s; s_At := t; s_Source := s_Source s;
     s_Detail := s_Detail s; s_Weight := s_Weight s; s_Confidence := s_Confidence s;
     s_RemoteIP := s_RemoteIP s |}.

Definition stamp (now : Time.time) (s : Signal) : Signal := if Time.IsZero (s_At s) then set_At now s else s.

Definition sigs_of (a : Aggregator) (lid : Z) : list Signal := default [] (signals a !! lid).

Definition agg_Record (s0 : Signal) (now : Time.time) (a : Aggregator) : Aggregator :=
  let s := stamp now s0 in
  let kept := evictOlder (sigs_of a (s_LineageID s)) (Time.Add (s_At s) (- ttl a)) in
  {| ttl := ttl a; signals := <[s_LineageID s := kept ++ [s]]> (signals a);
     remoteIP := if Str.empty (s_RemoteIP s) then remoteIP a
                 else <[s_LineageID s := {[s_RemoteIP s]} ∪ default ∅ (remoteIP a !! s_LineageID s)]>
                        (remoteIP a) |}.

Definition Snapshot (lid : Z) (now : Time.time) (a : Aggregator) : Aggregator * list Signal :=
  let live := evictOlder (sigs_of a lid) (Time.Add now (- ttl a)) in
  ({| ttl := ttl a; signals := <[lid := live]> (signals a); remoteIP := remoteIP a |}, live).

Definition AttributedIPs (lid : Z) (a : Aggregator) : list string :=
  merge_sort String.le (elements (default ∅ (remoteIP a !! lid))).

Definition Forget (lid : Z) (a : Aggregator) : Aggregator :=
  {| ttl := ttl a; signals := delete lid (signals a); remoteIP := delete lid (remoteIP a) |}.

Definition Lineages (now : Time.time) (a : Aggregator) : Aggregator * list Z :=
  let live := filter (λ kv, kv.2 ≠ []) ((λ sigs, evictOlder sigs (Time.Add now (- ttl a))) <$> signals a) in
  ({| ttl := ttl a; signals := live; remoteIP := remoteIP a |}, sort_Z (some_order live)).

(** ** The planner *)

(** [ev.Time = s.At] after [NewEvent]; [id] is the fresh event id *)
Definition syntheticEvent (id : Z) (s : Signal) : Event :=
  let ev := NewEvent id (s_At s) "takeover.planner" SeverityHigh in
  if Str.empty (s_Detail s) then set_tag "last_signal" (s_Kind s) ev
  else set_tag "last_signal" (s_Kind s +:+ ":" +:+ s_Detail s) ev.

Definition lineageReason (r : Result) (last_ : Signal) : string :=
  if Str.empty (s_Detail last_)
  then "takeover score=" +:+ Str.itoa (res_Score r) +:+ " last=" +:+ s_Kind last_
  else "takeover score=" +:+ Str.itoa (res_Score r) +:+ " last=" +:+ s_Kind last_ +:+ ":" +:+ s_Detail last_.

Section planner.
Context {C : Type} `{CapabilityChecker C}.
Context (ulid_String : Z → string).
Context (order : gmap string (list Signal) → list string).

Record Planner := {
  pl_Agg : Aggregator;
  pl_Scorer : Scorer;
  pl_State : option Log;
  pl_Caps : option C;
  pl_MinScoreToPlan : Z;
  pl_ResolveCJTier : option (Alert → string);
  pl_PreconditionProbe : option (bool * bool)
}.

Definition set_Agg (a : Aggregator) (p : Planner) : Planner :=
  {| pl_Agg := a; pl_Scorer := pl_Scorer p; pl_State := pl_State p; pl_Caps := pl_Caps p;
     pl_MinScoreToPlan := pl_MinScoreToPlan p; pl_ResolveCJTier := pl_ResolveCJTier p;
     pl_PreconditionProbe := pl_PreconditionProbe p |}.

Definition NewPlanner (t : Time.duration) (w : option Weights) (st : option Log) (caps : option C)
    (minScore : Z) (cj : option (Alert → string)) (probe : option (bool * bool)) : Planner :=
  {| pl_Agg := NewAggregator t; pl_Scorer := NewScorer w; pl_State := st; pl_Caps := caps;
     pl_MinScoreToPlan := if (minScore <=? 0)%Z then 50%Z else minScore;
     pl_ResolveCJTier := cj; pl_PreconditionProbe := probe |}.

Definition OnSignal (s : Signal) (now : Time.time) (p : Planner) : Planner :=
  set_Agg (agg_Record s now (pl_Agg p)) p.

(** the ids and clock readings drawn while planning *)
Record draws := { d_EventID : Z; d_PlanID : string; d_Now : Time.time; d_Now2 : Time.time }.

Definition planInput (alert : Alert) (r : Result) (lid : Z) (p : Planner) : Input :=
  {| in_Alert := alert; in_Score := res_Score r; in_LineageID := lid; in_ProcKey := "";
     in_Caps := pl_Caps p; in_State := pl_State p;
     in_CrownJewelTier := match pl_ResolveCJTier p with Some f => f alert | None => "" end;
     in_AttributedIPs := AttributedIPs lid (pl_Agg p);
     in_BastionAvailable := match pl_PreconditionProbe p with Some bm => bm.1 | None => false end;
     in_OffHostMirrorAvailable := match pl_PreconditionProbe p with Some bm => bm.2 | None => false end |}.

Definition planWithAlert (alert : Alert) (r : Result) (lid : Z) (d : draws) (p : Planner) : ActionPlan :=
  Plan ulid_String (planInput alert r lid p) (d_PlanID d) (d_Now d) (d_Now2 d).

(** nothing to do: the score is below the threshold and no containment is held *)
Definition belowThreshold (r : Result) (lid : Z) (p : Planner) : bool :=
  (res_Score r <? pl_MinScoreToPlan p)%Z &&
  match pl_State p with None => true | Some l => bool_decide (State l lid = StateObserved) end.

Definition planner_Plan (lid : Z) (now : Time.time) (d : draws) (p : Planner) : Planner * option ActionPlan :=
  let '(a, sigs) := Snapshot lid now (pl_Agg p) in
  let p1 := set_Agg a p in
  match last sigs with
  | None => (p1, None)
  | Some last_ =>
      let r := Score (pl_Scorer p) order sigs in
      if belowThreshold r lid p1 then (p1, None)
      else
        let alert := {| al_Event := syntheticEvent (d_EventID d) last_; al_RuleID := "takeover.composite";
                        al_Reason := lineageReason r last_; al_EvidenceIDs := []; al_Mode := ModeDetect;
                        al_Action := ""; al_Class := 0 |} in
        (p1, Some (planWithAlert alert r lid d p1))
  end.

Definition PlanFromAlert (alert : Alert) (lid : Z) (now : Time.time) (d : draws) (p : Planner) :
    Planner * ActionPlan :=
  let '(a, sigs) := Snapshot lid now (pl_Agg p) in
  let p1 := set_Agg a p in
  (p1, planWithAlert alert (Score (pl_Scorer p) order sigs) lid d p1).

Definition planner_Forget (lid : Z) (p : Planner) : Planner := set_Agg (Forget lid (pl_Agg p)) p.

End planner.

(** ** The score does not depend on the order of the groups *)

Lemma groupByKind_snoc (sigs : list Signal) (s : Signal) :
  groupByKind (sigs ++ [s]) =
  <[s_Kind s := default [] (groupByKind sigs !! s_Kind s) ++ [s]]> (groupByKind sigs).
Proof. unfold groupByKind. by rewrite foldl_app. Qed.

(** a group is the subsequence of its kind *)
Lemma groupByKind_lookup (sigs : list Signal) (k : string) :
  default [] (groupByKind sigs !! k) = filter (λ s, s_Kind s = k) sigs.
Proof.
  induction sigs as [|s sigs IH] using rev_ind; [done|].
  rewrite groupByKind_snoc, filter_app. destruct (decide (s_Kind s = k)) as [<-|Hne].
  - by rewrite lookup_insert_eq, filter_cons_True, IH by done.
  - by rewrite lookup_insert_ne, filter_cons_False, app_nil_r by done.
Qed.

Lemma groupByKind_dom (sigs : list Signal) (k : string) :
  is_Some (groupByKind sigs !! k) ↔ ∃ s, s ∈ sigs ∧ s_Kind s = k.
Proof.
  induction sigs as [|s sigs IH] using rev_ind.
  - split; [by intros [? ?]|]. intros (s & Hs & _). by apply elem_of_nil in Hs.
  - rewrite groupByKind_snoc. destruct (decide (s_Kind s = k)) as [<-|Hne].
    + rewrite lookup_insert_eq. split; [|eauto]. intros _. exists s. split; [|done].
      apply elem_of_app. right. apply list_elem_of_here.
    + rewrite lookup_insert_ne, IH by done. setoid_rewrite elem_of_app. split.
      * intros (s' & ? & ?). eauto.
      * intros (s' & [?|Hs'] & Hk); [eauto|]. apply list_elem_of_singleton in Hs'. by subst.
Qed.

(** ** Diminishing returns *)

Definition floodCap (w : Z) : Z := (scaleInt w 100 + scaleInt w 50 + scaleInt w 25 + scaleInt w 10)%Z.

Lemma scaleInt_mono (w w' f : Z) : (0 ≤ w ≤ w')%Z → (0 ≤ f)%Z → (0 ≤ scaleInt w f ≤ scaleInt w' f)%Z.
Proof.
  intros Hw Hf. unfold scaleInt. rewrite !Z.quot_div_nonneg by nia.
  split; [apply Z.div_pos; nia|apply Z.div_le_mono; nia].
Qed.

Lemma scaleInt_zero (w : Z) : scaleInt w 0 = 0%Z.
Proof. unfold scaleInt. by rewrite Z.mul_0_r. Qed.

Lemma kindScore_tail (w : Weights) (k : string) (l : list Signal) : ∀ i, 4 ≤ i → kindScore w k i l = 0%Z.
Proof.
  induction l as [|s l IH]; intros i Hi; simpl; [done|]. rewrite IH by lia.
  do 4 (destruct i; [lia|]). simpl. by rewrite scaleInt_zero.
Qed.

(** however many signals of a kind arrive, only the first four count *)
Lemma kindScore_bound (w : Weights) (k : string) (m : Z) (l : list Signal) :
  (0 ≤ m)%Z → Forall (λ s, (0 ≤ effectiveWeight w k s ≤ m)%Z) l → (0 ≤ kindScore w k 0 l ≤ floodCap m)%Z.
Proof.
  intros Hm Hl. unfold floodCap.
  pose proof (scaleInt_mono m m 100 ltac:(lia) ltac:(lia)). pose proof (scaleInt_mono m m 50 ltac:(lia) ltac:(lia)).
  pose proof (scaleInt_mono m m 25 ltac:(lia) ltac:(lia)). pose proof (scaleInt_mono m m 10 ltac:(lia) ltac:(lia)).
  destruct l as [|s1 l]; [simpl; lia|]. apply Forall_cons in Hl as [He1 Hl].
  pose proof (scaleInt_mono _ m 100 He1 ltac:(lia)). destruct l as [|s2 l]; [simpl; lia|].
  apply Forall_cons in Hl as [He2 Hl]. pose proof (scaleInt_mono _ m 50 He2 ltac:(lia)).
  destruct l as [|s3 l]; [simpl; lia|]. apply Forall_cons in Hl as [He3 Hl].
  pose proof (scaleInt_mono _ m 25 He3 ltac:(lia)). destruct l as [|s4 l]; [simpl; lia|].
  apply Forall_cons in Hl as [He4 Hl]. pose proof (scaleInt_mono _ m 10 He4 ltac:(lia)).
  cbn [kindScore]. rewrite (kindScore_tail w k l) by lia. simpl. lia.
Qed.

(** a co-occurrence rule that needs an absent kind gives no bonus *)
Lemma coSpan_missing (byKind : gmap string (list Signal)) (k : string) (need : list string) : ∀ acc,
  k ∈ need → default [] (byKind !! k) = [] → coSpan byKind acc need = None.
Proof.
  induction need as [|k' need IH]; intros acc Hk Hn; [by apply elem_of_nil in Hk|]. simpl.
  apply elem_of_cons in Hk as [<-|Hk]; [by rewrite Hn|]. case_match; [|done]. by apply IH.
Qed.

Lemma coBonuses_single (rules : list ScorerCoRule) (k : string) (sigs : list Signal) :
  Forall (λ s, s_Kind s = k) sigs → Forall (λ r, ∃ k', k' ∈ co_Need r ∧ k' ≠ k) rules →
  coBonuses rules (groupByKind sigs) = [].
Proof.
  intros Hs Hr. unfold coBonuses. induction Hr as [|r rules (k' & Hk' & Hne) _ IH]; [done|]. csimpl.
  unfold evalCoRule. rewrite (coSpan_missing _ k'); [done|done|].
  rewrite groupByKind_lookup. apply filter_none. eapply Forall_impl; [exact Hs|]. simpl. congruence.
Qed.

(** ** Time-ordered aggregation *)

Lemma evictOlder_sorted (l : list Signal) (c : Time.time) :
  StronglySorted (λ a b, (s_At a ≤ s_At b)%Z) l → evictOlder l c = filter (λ s, (c ≤ s_At s)%Z) l.
Proof.
  induction 1 as [|s l Hl IH Hs]; [done|]. simpl. unfold Time.Before.
  destruct (Z.ltb_spec (s_At s) c) as [Hlt|Hge].
  - rewrite filter_cons_False by lia. done.
  - rewrite filter_cons_True by lia. f_equal. symmetry. apply filter_all.
    eapply Forall_impl; [exact Hs|]. simpl. intros; lia.
Qed.

Lemma StronglySorted_filter {A} (R : A → A → Prop) (P : A → Prop) `{∀ x, Decision (P x)} (l : list A) :
  StronglySorted R l → StronglySorted R (filter P l).
Proof.
  induction 1 as [|x l Hl IH Hx]; [constructor|]. rewrite filter_cons. case_decide; [|done].
  constructor; [done|]. by apply Forall_filter.
Qed.

Lemma StronglySorted_snoc {A} (R : A → A → Prop) (l : list A) (x : A) :
  StronglySorted R l → Forall (λ y, R y x) l → StronglySorted R (l ++ [x]).
Proof.
  induction 1 as [|y l Hl IH Hy]; intros Hx; simpl; [by repeat constructor|].
  apply Forall_cons in Hx as [? ?]. constructor; [auto|]. apply Forall_app. split; [done|by constructor].
Qed.

Inductive agg_op : Type :=
  | ARecord (s : Signal) (now : Time.time)
  | ASnapshot (lid : Z) (now : Time.time)
  | ALineages (now : Time.time).

Definition agg_exec (a : Aggregator) (o : agg_op) : Aggregator :=
  match o with
  | ARecord s now => agg_Record s now a
  | ASnapshot lid now => (Snapshot lid now a).1
  | ALineages now => (Lineages now a).1
  end.

Definition agg_run (ops : list agg_op) (a : Aggregator) : Aggregator := foldl agg_exec a ops.

(** the clock an operation works at *)
Definition at_of (o : agg_op) : Time.time :=
  match o with ARecord s now => s_At (stamp now s) | ASnapshot _ now => now | ALineages now => now end.

(** everything that was ever recorded *)
Definition recorded (ops : list agg_op) : list Signal :=
  omap (λ o, match o with ARecord s now => Some (stamp now s) | _ => None end) ops.

(** the abstract window: all recorded signals of a lineage from [cut] on *)
Definition window (lid : Z) (cut : Time.time) (h : list Signal) : list Signal :=
  filter (λ s, s_LineageID s = lid ∧ (cut ≤ s_At s)%Z) h.

Abbreviation by_time := (λ a b, (s_At a ≤ s_At b)%Z).

Lemma window_evict (lid : Z) (cut c : Time.time) (h : list Signal) :
  StronglySorted by_time h → (cut ≤ c)%Z → evictOlder (window lid cut h) c = window lid c h.
Proof.
  intros Hs Hc. unfold window. rewrite evictOlder_sorted by (by apply StronglySorted_filter).
  rewrite list_filter_filter. apply list_filter_iff. intros s. naive_solver lia.
Qed.

Lemma window_snoc (lid : Z) (cut : Time.time) (h : list Signal) (s : Signal) :
  window lid cut (h ++ [s]) =
  window lid cut h ++ (if decide (s_LineageID s = lid ∧ (cut ≤ s_At s)%Z) then [s] else []).
Proof. unfold window. rewrite filter_app, filter_cons, filter_nil. done. Qed.

(** the aggregator holds, for each lineage, a window of the recorded history
    whose start is at least the retention time in the past *)
Record agg_inv (cl : Time.time) (h : list Signal) (a : Aggregator) : Prop := {
  ai_ttl : (0 < ttl a)%Z;
  ai_sorted : StronglySorted by_time h;
  ai_past : Forall (λ s, (s_At s ≤ cl)%Z) h;
  ai_window : ∀ lid, ∃ cut, (cut ≤ cl - ttl a)%Z ∧ sigs_of a lid = window lid cut h
}.

Lemma agg_inv_later (cl cl' : Time.time) (h : list Signal) (a : Aggregator) :
  (cl ≤ cl')%Z → agg_inv cl h a → agg_inv cl' h a.
Proof.
  intros Hle [Ht Hs Hp Hw]. split; try done.
  - eapply Forall_impl; [exact Hp|]. simpl. intros; lia.
  - intros lid. destruct (Hw lid) as (cut & ? & ?). exists cut. split; [lia|done].
Qed.

Lemma agg_Record_inv (cl : Time.time) (h : list Signal) (a : Aggregator) (s0 : Signal) (now : Time.time) :
  agg_inv cl h a → (cl ≤ s_At (stamp now s0))%Z →
  agg_inv (s_At (stamp now s0)) (h ++ [stamp now s0]) (agg_Record s0 now a).
Proof.
  intros [Ht Hs Hp Hw] Hle. unfold agg_Record. set (s := stamp now s0) in *.
  assert (Forall (λ y, (s_At y ≤ s_At s)%Z) h) as Hp' by (eapply Forall_impl; [exact Hp|]; simpl; lia).
  split; simpl; [done|by apply StronglySorted_snoc|apply Forall_app; split; [done|by constructor]|].
  intros lid. destruct (Hw lid) as (cut & Hcut & Hwin). unfold sigs_of in *. simpl.
  destruct (decide (s_LineageID s = lid)) as [Heq|Hne].
  - exists (s_At s - ttl a)%Z. split; [lia|]. rewrite Heq, lookup_insert_eq, Hwin. simpl.
    rewrite window_evict by (done || unfold Time.Add; lia). unfold Time.Add.
    rewrite window_snoc, decide_True by (split; [done|lia]). done.
  - exists cut. split; [lia|]. rewrite lookup_insert_ne by done.
    rewrite window_snoc, decide_False by (intros [? _]; done). by rewrite app_nil_r.
Qed.

Lemma agg_Snapshot_inv (cl : Time.time) (h : list Signal) (a : Aggregator) (lid : Z) (now : Time.time) :
  agg_inv cl h a → (cl ≤ now)%Z →
  agg_inv now h (Snapshot lid now a).1 ∧ (Snapshot lid now a).2 = window lid (now - ttl a)%Z h.
Proof.
  intros [Ht Hs Hp Hw] Hle. unfold Snapshot.
  assert (evictOlder (sigs_of a lid) (Time.Add now (- ttl a)) = window lid (now - ttl a)%Z h) as Hev.
  { destruct (Hw lid) as (cut & Hcut & ->). by rewrite window_evict by (done || unfold Time.Add; lia). }
  rewrite Hev. split; [|done]. split; simpl; [done|done| |].
  - eapply Forall_impl; [exact Hp|]. simpl. intros; lia.
  - intros lid'. unfold sigs_of. simpl. destruct (decide (lid = lid')) as [<-|Hne].
    + exists (now - ttl a)%Z. rewrite lookup_insert_eq. split; [lia|done].
    + destruct (Hw lid') as (cut & Hcut & Hwin). exists cut. rewrite lookup_insert_ne by done. split; [lia|done].
Qed.

Lemma agg_Lineages_inv (cl : Time.time) (h : list Signal) (a : Aggregator) (now : Time.time) :
  agg_inv cl h a → (cl ≤ now)%Z → agg_inv now h (Lineages now a).1.
Proof.
  intros [Ht Hs Hp Hw] Hle. unfold Lineages. split; simpl; [done|done| |].
  - eapply Forall_impl; [exact Hp|]. simpl. intros; lia.
  - intros lid. exists (now - ttl a)%Z. split; [lia|]. destruct (Hw lid) as (cut & Hcut & Hwin).
    rewrite <-(window_evict lid cut) by (done || lia). rewrite <-Hwin. unfold sigs_of. simpl.
    change (Time.Add now (- ttl a)) with (now - ttl a)%Z.
    set (m := (λ sigs, evictOlder sigs (now - ttl a)%Z) <$> signals a).
    destruct (filter (λ kv : Z * list Signal, kv.2 ≠ []) m !! lid) as [l|] eqn:Hf.
    + apply map_lookup_filter_Some in Hf as [Hf _]. subst m. rewrite lookup_fmap in Hf.
      destruct (signals a !! lid); simplify_eq/=. done.
    + apply map_lookup_filter_None in Hf as [Hf|Hf]; subst m; rewrite lookup_fmap in Hf.
      * by destruct (signals a !! lid).
      * destruct (signals a !! lid) as [l|]; [|done]. simpl in *.
        specialize (Hf _ eq_refl). simpl in Hf. apply dec_stable in Hf. by rewrite Hf.
Qed.

(** operations happen in time order from [t] on *)
Fixpoint timed (t : Time.time) (ops : list agg_op) : Prop :=
  match ops with [] => True | o :: ops' => (t ≤ at_of o)%Z ∧ timed (at_of o) ops' end.

Definition clock (t : Time.time) (ops : list agg_op) : Time.time := default t (at_of <$> last ops).

Lemma agg_run_inv (ops : list agg_op) : ∀ (t : Time.time) (h : list Signal) (a : Aggregator),
  agg_inv t h a → timed t ops → agg_inv (clock t ops) (h ++ recorded ops) (agg_run ops a).
Proof.
  induction ops as [|o ops IH]; intros t h a Ha Htm.
  { unfold recorded. simpl. by rewrite app_nil_r. }
  destruct Htm as [Hle Htm].
  assert (clock t (o :: ops) = clock (at_of o) ops) as ->.
  { destruct ops as [|o2 ops]; [done|]. unfold clock. change (last (o :: o2 :: ops)) with (last (o2 :: ops)).
    destruct (last (o2 :: ops)) eqn:E; [done|]. by apply last_None in E. }
  destruct o as [s now|lid now|now]; cbn [at_of] in *.
  - change (recorded (ARecord s now :: ops)) with ([stamp now s] ++ recorded ops).
    rewrite (assoc_L (++)). apply IH; [|done]. by apply agg_Record_inv with t.
  - apply IH; [|done]. by eapply agg_Snapshot_inv.
  - apply IH; [|done]. by eapply agg_Lineages_inv.
Qed.

Lemma agg_run_ttl (ops : list agg_op) : ∀ a, ttl (agg_run ops a) = ttl a.
Proof. induction ops as [|o ops IH]; intros a; [done|]. simpl. rewrite IH. by destruct o. Qed.

(** ** Properties *)

(** the aggregator refines its specification: over any time-ordered
    operations, the signals it returns for a lineage are exactly the recorded
    ones of that lineage that are no older than the retention time. *)
Theorem snapshot_is_window (t : Time.duration) (t0 now : Time.time) (ops : list agg_op) (lid : Z) :
  timed t0 ops → (clock t0 ops ≤ now)%Z →
  (Snapshot lid now (agg_run ops (NewAggregator t))).2 =
  window lid (now - ttl (NewAggregator t))%Z (recorded ops).
Proof.
  intros Htm Hnow.
  assert (agg_inv t0 [] (NewAggregator t)) as H0.
  { split; simpl; [|constructor|constructor|].
    - unfold DefaultSignalTTL, Time.Minute, Time.Second. case_match; bool_to_prop; lia.
    - intros l. exists (t0 - ttl (NewAggregator t))%Z. split; [done|]. done. }
  pose proof (agg_run_inv ops t0 [] _ H0 Htm) as Hi.
  destruct (agg_Snapshot_inv _ _ _ lid now Hi Hnow) as [_ ->]. by rewrite agg_run_ttl.
Qed.

(** scores are reproducible: whatever order the runtime visits the signal
    groups in, the score and the fired bonuses are the same and the
    contributions are the same up to order; the score is between 0 and 100. *)
Theorem score_reproducible (s : Scorer) (o1 o2 : gmap string (list Signal) → list string)
    (sigs : list Signal) :
  (∀ m, range_order m (o1 m)) → (∀ m, range_order m (o2 m)) →
  res_Score (Score s o1 sigs) = res_Score (Score s o2 sigs) ∧
  res_CoBonuses (Score s o1 sigs) = res_CoBonuses (Score s o2 sigs) ∧
  res_Contributions (Score s o1 sigs) ≡ₚ res_Contributions (Score s o2 sigs) ∧
  (0 ≤ res_Score (Score s o1 sigs) ≤ 100)%Z.
Proof.
  intros H1 H2. destruct sigs as [|x sigs]; [done|]. unfold Score. cbn [res_Score res_CoBonuses res_Contributions].
  set (m := groupByKind (x :: sigs)). pose proof (range_order_perm m _ _ (H1 m) (H2 m)) as Hp.
  split_and!; [|done|by rewrite Hp| |].
  - f_equal. f_equal. apply sumZ_perm. by rewrite Hp.
  - unfold clamp. repeat case_match; bool_to_prop; lia.
  - unfold clamp. repeat case_match; bool_to_prop; lia.
Qed.

(** flooding does not help an attacker or a noisy sensor: any number of
    signals of a single kind, each of weight at most [w], scores at most the
    first four with diminishing returns (about 1.85 times [w]), provided every
    co-occurrence rule needs a second kind. *)
Theorem single_kind_flood_bounded (s : Scorer) (order : gmap string (list Signal) → list string)
    (k : string) (w : Z) (sigs : list Signal) :
  (∀ m, range_order m (order m)) → (0 ≤ w)%Z →
  Forall (λ x, s_Kind x = k ∧ (0 ≤ effectiveWeight (W s) k x ≤ w)%Z) sigs →
  Forall (λ r, ∃ k', k' ∈ co_Need r ∧ k' ≠ k) (CoRules s) →
  (res_Score (Score s order sigs) ≤ floodCap w)%Z.
Proof.
  intros Hord Hw Hs Hr. apply Forall_and in Hs as [Hk He].
  pose proof (kindScore_bound (W s) k w sigs Hw He) as Hb.
  destruct sigs as [|x sigs]; [simpl; pose proof (kindScore_bound (W s) k w [] Hw); simpl in *; lia|].
  unfold Score. cbn [res_Score]. rewrite (coBonuses_single _ k) by done. simpl.
  set (l := x :: sigs) in *. assert (order (groupByKind l) ≡ₚ [k]) as Hp.
  { apply NoDup_Permutation; [apply Hord|apply NoDup_singleton|]. intros k'.
    destruct (Hord (groupByKind l)) as [_ ->]. rewrite groupByKind_dom, list_elem_of_singleton.
    rewrite Forall_forall in Hk. split; [intros (y & Hy & <-); by apply Hk|].
    intros ->. exists x. split; [apply list_elem_of_here|]. apply Hk, list_elem_of_here. }
  rewrite (sumZ_perm _ (kc_Score <$> (contribution (W s) (groupByKind l) <$> [k]))) by (by rewrite Hp).
  cbn [fmap list_fmap contribution kc_Score sumZ foldr]. rewrite groupByKind_lookup.
  rewrite filter_all by done. unfold clamp. repeat case_match; bool_to_prop; lia.
Qed.

(** the signal of kind [k] at second [sec] *)
Definition sig_at (k : string) (sec : Z) : Signal :=
  {| s_LineageID := 1; s_Kind := k; s_At := sec * Time.Second; s_Source := ""; s_Detail := "";
     s_Weight := 0; s_Confidence := ""; s_RemoteIP := "" |}.

(** more evidence can lower the score: a base64 decode followed within 10
    seconds by a chmod +x scores 100 through the dropper-chain bonus, and a
    further base64 decode 90 seconds later drops the bonus and the score to 98,
    below the containment threshold. *)
Theorem new_signal_can_lower_score :
  let chain := [sig_at SignalBase64Decode 0; sig_at SignalChmodExec 10] in
  let more := chain ++ [sig_at SignalBase64Decode 100] in
  res_Score (Score (NewScorer None) some_order chain) = 100%Z ∧
  res_Score (Score (NewScorer None) some_order more) = 98%Z ∧
  tierFromScore 100 = tierContained ∧ tierFromScore 98 = tierIsolated.
Proof. split_and!; vm_compute; reflexivity. Qed.

(** an expired signal behind a fresh one is kept: eviction stops at the first
    signal that is young enough *)
Lemma stale_signal_survives :
  let s1 := sig_at SignalLOTL 5000 in
  let s2 := sig_at SignalLOTL 0 in
  let a := agg_Record s2 0 (agg_Record s1 0 (NewAggregator 0)) in
  (Snapshot 1 (5000 * Time.Second)%Z a).2 = [s1; set_At 0 s2].
Proof. vm_compute. reflexivity. Qed.

Lemma snapshot_is_window_witness :
  let ops := [ARecord (sig_at SignalLOTL 1) 0; ARecord (sig_at SignalLOTL 3000) 0; ASnapshot 1 (3000 * Time.Second)%Z] in
  (Snapshot 1 (3001 * Time.Second)%Z (agg_run ops (NewAggregator 0))).2 = [sig_at SignalLOTL 3000].
Proof.
  intros ops. rewrite (snapshot_is_window 0 0 (3001 * Time.Second)%Z ops 1).
  - vm_compute. reflexivity.
  - vm_compute. repeat split; done.
  - vm_compute. done.
Defined.

Lemma score_reproducible_witness :
  res_Score (Score (NewScorer None) some_order [sig_at SignalLOTL 1; sig_at SignalNewBinary 2]) =
  res_Score (Score (NewScorer None) (λ m, rev (some_order m)) [sig_at SignalLOTL 1; sig_at SignalNewBinary 2]).
Proof.
  apply (score_reproducible (NewScorer None) some_order (λ m, rev (some_order m))).
  - intros m. apply some_order_ok.
  - intros m. destruct (some_order_ok m) as [Hn Hk]. split.
    + by rewrite <-Permutation_rev.
    + intros k. rewrite <-Hk. rewrite !list_elem_of_In, <-in_rev. done.
Defined.

Lemma single_kind_flood_bounded_witness :
  (res_Score (Score (NewScorer None) some_order (replicate 10 (sig_at SignalNewEndpoint 1))) ≤ floodCap 15)%Z ∧
  floodCap 15 = 29%Z.
Proof.
  split; [|reflexivity].
  apply (single_kind_flood_bounded (NewScorer None) some_order SignalNewEndpoint 15).
  - intros m. apply some_order_ok.
  - lia.
  - apply Forall_replicate. split; [reflexivity|]. vm_compute. split; intros [=].
  - repeat (constructor; [eexists; split; [apply list_elem_of_here|intros [=]]|]). constructor.
Defined.
