(* ===== verification/Response.v ===== *)
(** * Active response (src/pkg/response, src/pkg/enforce)

    The response engine (policy mask, monitor and baseline gates, the backend
    calls), the executor of action plans and the quarantine tracker.  Backends
    are an environment of answers; every backend call an operation makes is an
    [effect] in the order it is made.  Log lines are left out. *)

From S2P Require Import Prelude GoStd NetIP Model ActionLog Decision.

Inductive os_signal : Type := sigSTOP | sigCONT | sigKILL.

Inductive effect : Type :=
  | ESnapshot (pid : Z) (comm rule : string)
  | EMemScan (pid : Z)
  | EBan (ip : list Z) (rule : string) (ttl : Time.duration)
  | ERestore (path rule : string)
  | ESignal (pid : Z) (sig : os_signal)
  | ELock (user : string)
  | EHostQuarantine (allow : list string)
  | EWebhook (a : Alert).

(** ** The quarantine tracker (enforce.Quarantine) *)

Inductive qstate : Type := QStopped | QResumed | QKilled.

#[export] Instance qstate_eq_dec : EqDecision qstate.
Proof. solve_decision. Defined.

Record QuarantineRecord := {
  q_PID : Z;
  q_Comm : string;
  q_Image : string;
  q_StoppedAt : Time.time;
  q_ResumedAt : Time.time;
  q_KilledAt : Time.time;
  q_RuleID : string;
  q_State : qstate
}.

Abbreviation records := (gmap Z QuarantineRecord) (only parsing).

Inductive q_error : Type := errInvalidPID | errNotQuarantined | errSend.

(** [send]: [None] when no signal function is installed, else whether a signal
    is delivered *)
Definition deliver (send : option (Z → os_signal → bool)) (pid : Z) (sg : os_signal) : bool * list effect :=
  match send with
  | None => (true, [])
  | Some f => (f pid sg, [ESignal pid sg])
  end.

Definition q_Stop (send : option (Z → os_signal → bool)) (pid : Z) (comm image ruleID : string)
    (now : Time.time) (q : records) : records * option q_error * list effect :=
  if (pid =? 0)%Z || (pid =? 1)%Z then (q, Some errInvalidPID, [])
  else if match q !! pid with Some r => bool_decide (q_State r = QStopped) | None => false end
  then (q, None, [])
  else
    let '(sent, fx) := deliver send pid sigSTOP in
    if sent then
      (<[pid := {| q_PID := pid; q_Comm := comm; q_Image := image; q_StoppedAt := now;
                   q_ResumedAt := Time.zero; q_KilledAt := Time.zero; q_RuleID := ruleID;
                   q_State := QStopped |}]> q, None, fx)
    else (q, Some errSend, fx).

Definition q_Resume (send : option (Z → os_signal → bool)) (pid : Z) (now : Time.time) (q : records) :
    records * option q_error * list effect :=
  match q !! pid with
  | None => (q, Some errNotQuarantined, [])
  | Some r =>
      let '(sent, fx) := deliver send pid sigCONT in
      if sent then
        (<[pid := {| q_PID := q_PID r; q_Comm := q_Comm r; q_Image := q_Image r;
                     q_StoppedAt := q_StoppedAt r; q_ResumedAt := now; q_KilledAt := q_KilledAt r;
                     q_RuleID := q_RuleID r; q_State := QResumed |}]> q, None, fx)
      else (q, Some errSend, fx)
  end.

Definition q_Kill (send : option (Z → os_signal → bool)) (pid : Z) (now : Time.time) (q : records) :
    records * option q_error * list effect :=
  match q !! pid with
  | None => (q, Some errNotQuarantined, [])
  | Some r =>
      let '(sent, fx) := deliver send pid sigKILL in
      if sent then
        (<[pid := {| q_PID := q_PID r; q_Comm := q_Comm r; q_Image := q_Image r;
                     q_StoppedAt := q_StoppedAt r; q_ResumedAt := q_ResumedAt r; q_KilledAt := now;
                     q_RuleID := q_RuleID r; q_State := QKilled |}]> q, None, fx)
      else (q, Some errSend, fx)
  end.

(** ** The panic switch (enforce.PanicSwitch): the flag and whether the pin
    file exists; the file operations may fail *)

Record PanicSwitch := { armed : bool; pinned : bool }.

Definition NewPanicSwitch (fileExists : bool) : PanicSwitch := {| armed := fileExists; pinned := fileExists |}.

Definition Arm (writeOK : bool) (p : PanicSwitch) : PanicSwitch * bool :=
  ({| armed := true; pinned := pinned p || writeOK |}, writeOK).

Definition Disarm (removeOK : bool) (p : PanicSwitch) : PanicSwitch * bool :=
  ({| armed := false; pinned := pinned p && negb removeOK |}, removeOK || negb (pinned p)).

(** ** The engine *)

Definition ActionLog : Z := Z.shiftl 1 0.
Definition ActionQuarantine : Z := Z.shiftl 1 1.
Definition ActionKill : Z := Z.shiftl 1 2.
Definition ActionNetBan : Z := Z.shiftl 1 3.
Definition ActionRemediate : Z := Z.shiftl 1 4.
Definition ActionWebhook : Z := Z.shiftl 1 5.
Definition ActionSnapshot : Z := Z.shiftl 1 6.
Definition ActionMemScan : Z := Z.shiftl 1 7.
Definition ActionLockUser : Z := Z.shiftl 1 8.
Definition ActionHostQuarantine : Z := Z.shiftl 1 9.

(** [mask & a != 0] *)
Definition has (mask a : Z) : bool := negb (Z.land mask a =? 0)%Z.

(** [a | b | ...] *)
Definition mask (l : list Z) : Z := foldl Z.lor 0%Z l.

(** the production policy *)
Definition Default : gmap string Z := list_to_map
  [("decoy_file_opened", mask [ActionLog; ActionWebhook; ActionSnapshot; ActionQuarantine]);
   ("decoy_service_connect", mask [ActionLog; ActionWebhook; ActionNetBan]);
   ("decoy_canary_token_used", mask [ActionLog; ActionWebhook; ActionNetBan]);
   ("decoy_dns_resolved", mask [ActionLog; ActionWebhook; ActionSnapshot]);
   ("mem_mprotect_rwx", mask [ActionLog; ActionWebhook; ActionSnapshot; ActionMemScan]);
   ("mem_canary_fail", mask [ActionLog; ActionWebhook; ActionSnapshot; ActionMemScan]);
   ("mem_kernel_anomaly", mask [ActionLog; ActionWebhook; ActionSnapshot]);
   ("mem_lkrg_violation", mask [ActionLog; ActionWebhook; ActionSnapshot; ActionMemScan; ActionQuarantine]);
   ("shell_with_socket_fd", mask [ActionLog; ActionWebhook; ActionSnapshot; ActionMemScan; ActionQuarantine]);
   ("memfd_run_pattern", mask [ActionLog; ActionWebhook; ActionSnapshot; ActionMemScan]);
   ("web_server_spawns_shell", mask [ActionLog; ActionWebhook; ActionSnapshot; ActionQuarantine]);
   ("binary_runs_from_tmp", mask [ActionLog; ActionWebhook; ActionSnapshot]);
   ("uid0_no_transition", mask [ActionLog; ActionWebhook; ActionSnapshot; ActionQuarantine]);
   ("ptrace_sensitive_target", mask [ActionLog; ActionWebhook; ActionSnapshot; ActionMemScan]);
   ("tamper_passwd", mask [ActionLog; ActionWebhook; ActionSnapshot]);
   ("tamper_shadow", mask [ActionLog; ActionWebhook; ActionSnapshot]);
   ("ld_so_preload_modified", mask [ActionLog; ActionWebhook; ActionSnapshot]);
   ("pam_module_drop", mask [ActionLog; ActionWebhook; ActionSnapshot]);
   ("ssh_key_added_root", mask [ActionLog; ActionWebhook; ActionSnapshot]);
   ("cron_new_unit", mask [ActionLog; ActionWebhook; ActionSnapshot]);
   ("outbound_to_known_bad", mask [ActionLog; ActionWebhook; ActionNetBan]);
   ("metadata_svc_unexpected", mask [ActionLog; ActionWebhook; ActionSnapshot]);
   ("netids.dga", mask [ActionLog; ActionWebhook]);
   ("bpf_syscall_unexpected", mask [ActionLog; ActionWebhook; ActionSnapshot]);
   ("ssh_brute_then_success", mask [ActionLog; ActionWebhook; ActionNetBan; ActionLockUser]);
   ("beacon.periodic_callback", mask [ActionLog; ActionWebhook; ActionSnapshot]);
   ("dnsexfil.tunnel_pattern", mask [ActionLog; ActionWebhook]);
   ("tamper.ptrace", mask [ActionLog; ActionWebhook]);
   ("tamper.binary_mtime", mask [ActionLog; ActionWebhook]);
   ("tamper.binary_inode", mask [ActionLog; ActionWebhook]);
   ("tamper.auditd_dead", mask [ActionLog; ActionWebhook]);
   ("tamper.binary_missing", mask [ActionLog; ActionWebhook]);
   ("tamper.pidfile", mask [ActionLog; ActionWebhook]);
   ("kallsyms_changed", mask [ActionLog; ActionWebhook]);
   ("modules_changed", mask [ActionLog; ActionWebhook]);
   ("syscall_address_drift", mask [ActionLog; ActionWebhook]);
   ("baseline.behavioural_deviation", mask [ActionLog; ActionWebhook]);
   ("baseline.rate_spike", mask [ActionLog; ActionWebhook])].

Record Engine := {
  policy : gmap string Z;
  monitorMode : bool;
  enforceRules : gset string;
  netBan : option (list Z → bool);
  hostBanner : option (bool * bool);
  hostAllowIPs : list string;
  remediator : option (string → bool);
  quarantine : bool;
  send : option (Z → os_signal → bool);
  panicSwitch : option PanicSwitch;
  webhook : option bool;
  snapshotter : option (Z → bool);
  memPatterns : nat;
  memscan : Z → bool;
  lockUser : option (string → bool)
}.

Definition ruleSet (ids : list string) : gset string :=
  list_to_set (filter (λ s, s ≠ "") (Str.TrimSpace <$> ids)).

(** the counters of the engine *)
Inductive stat : Type :=
  | st_alerts | st_quarantine | st_kill | st_netban | st_remediate | st_webhook | st_snapshot
  | st_memscan | st_lockUser | st_hostQuarantine | st_dropped.

#[export] Instance stat_eq_dec : EqDecision stat.
Proof. solve_decision. Defined.

Record estate := { tracked : records; stats : stat → Z }.

(** an action of the engine: new state and the backend calls made *)
Definition act : Type := estate → estate * list effect.

Definition count (s : stat) : act := λ e,
  ({| tracked := tracked e;
      stats := λ s', if decide (s' = s) then u64 (stats e s' + 1) else stats e s' |}, []).

Definition skip : act := λ e, (e, []).

Definition andThen (a b : act) : act := λ e,
  let r1 := a e in let r2 := b r1.1 in (r2.1, r1.2 ++ r2.2).
Infix "▷" := andThen (at level 61, left associativity) : xh_scope.

Definition emit (fx : list effect) : act := λ e, (e, fx).

Definition doQuarantine (g : Engine) (a : Alert) (now : Time.time) : act := λ e,
  if negb (quarantine g) || (ev_PID (al_Event a) =? 0)%Z then count st_dropped e
  else
    let ev := al_Event a in
    let '(q, err, fx) := q_Stop (send g) (ev_PID ev) (ev_Comm ev) (ev_Image ev) (al_RuleID a) now (tracked e) in
    let e1 := {| tracked := q; stats := stats e |} in
    (emit fx ▷ match err with Some _ => count st_dropped | None => count st_quarantine end) e1.

Definition doKill (g : Engine) (a : Alert) (now : Time.time) : act := λ e,
  let pid := ev_PID (al_Event a) in
  if negb (quarantine g) || (pid =? 0)%Z then count st_dropped e
  else
    let '(q1, err1, fx1) := q_Kill (send g) pid now (tracked e) in
    match err1 with
    | None => (emit fx1 ▷ count st_kill) {| tracked := q1; stats := stats e |}
    | Some _ =>
        let ev := al_Event a in
        let '(q2, _, fx2) := q_Stop (send g) pid (ev_Comm ev) (ev_Image ev) (al_RuleID a) now q1 in
        let '(q3, err3, fx3) := q_Kill (send g) pid now q2 in
        (emit (fx1 ++ fx2 ++ fx3) ▷ match err3 with Some _ => count st_dropped | None => count st_kill end)
          {| tracked := q3; stats := stats e |}
    end.

(** the address a ban would go to, without the port *)
Definition banTarget (a : Alert) : option (list Z) :=
  let s0 := tag (al_Event a) "src" in
  let s1 := if Str.empty s0 then tag (al_Event a) "src_ip" else s0 in
  if Str.empty s1 then None
  else ParseIP (match SplitHostPort s1 with Some (h, _) => h | None => s1 end).

Definition doNetBan (g : Engine) (a : Alert) : act :=
  match netBan g with
  | None => count st_dropped
  | Some ban =>
      match banTarget a with
      | None => count st_dropped
      | Some ip =>
          if IsLoopback ip || IsUnspecified ip then skip
          else emit [EBan ip (al_RuleID a) Time.Hour] ▷
               (if ban ip then count st_netban else count st_dropped)
      end
  end.

Definition doRemediate (g : Engine) (a : Alert) : act :=
  match remediator g with
  | None => count st_dropped
  | Some restore =>
      let path := tag (al_Event a) "path" in
      if Str.empty path then count st_dropped
      else emit [ERestore path (al_RuleID a)] ▷
           (if restore path then count st_remediate else count st_dropped)
  end.

Definition doWebhook (g : Engine) (a : Alert) : act :=
  match webhook g with
  | None => skip
  | Some ok => emit [EWebhook a] ▷ (if ok then count st_webhook else skip)
  end.

Definition doSnapshot (g : Engine) (a : Alert) : act :=
  match snapshotter g with
  | None => count st_dropped
  | Some capture =>
      let pid := ev_PID (al_Event a) in
      if (pid =? 0)%Z then count st_dropped
      else emit [ESnapshot pid (ev_Comm (al_Event a)) (al_RuleID a)] ▷
           (if capture pid then count st_snapshot else count st_dropped)
  end.

Definition doMemScan (g : Engine) (a : Alert) : act :=
  let pid := ev_PID (al_Event a) in
  if (memPatterns g =? 0)%nat || (pid =? 0)%Z then count st_dropped
  else emit [EMemScan pid] ▷ (if memscan g pid then count st_memscan else count st_dropped).

Definition doLockUser (g : Engine) (a : Alert) : act :=
  match lockUser g with
  | None => count st_dropped
  | Some lock =>
      let u0 := tag (al_Event a) "user" in
      let u := if Str.empty u0 then tag (al_Event a) "username" else u0 in
      if Str.empty u then count st_dropped
      else emit [ELock u] ▷ (if lock u then count st_lockUser else count st_dropped)
  end.

Definition doHostQuarantine (g : Engine) : act :=
  match hostBanner g with
  | None => count st_dropped
  | Some (quarantined, engageOK) =>
      if (length (hostAllowIPs g) =? 0)%nat then count st_dropped
      else if quarantined then skip
      else emit [EHostQuarantine (hostAllowIPs g)] ▷
           (if engageOK then count st_hostQuarantine else count st_dropped)
  end.

(** ** Alerts *)

Definition maskOr (mask allowed : Z) : Z :=
  let m := Z.land mask allowed in if (m =? 0)%Z then ActionLog else m.

Definition observeMask : Z := Z.lor ActionLog ActionWebhook.
Definition evidenceMask : Z := Z.lor (Z.lor (Z.lor ActionLog ActionWebhook) ActionSnapshot) ActionMemScan.

Definition policyMask (g : Engine) (rule : string) : Z :=
  let m := default 0%Z (policy g !! rule) in if (m =? 0)%Z then ActionLog else m.

(** the mask after the monitor-mode and baseline gates *)
Definition effectiveMask (g : Engine) (a : Alert) : Z :=
  let m0 := policyMask g (al_RuleID a) in
  let m1 := if monitorMode g && negb (bool_decide (al_RuleID a ∈ enforceRules g))
            then maskOr m0 observeMask else m0 in
  if decide (tag (al_Event a) "baseline_observing" = "true") then maskOr m1 observeMask
  else if decide (tag (al_Event a) "baseline_known" = "true") then maskOr m1 evidenceMask
  else m1.

Definition gateReason (g : Engine) (a : Alert) : string :=
  if decide (tag (al_Event a) "baseline_observing" = "true") then
    "autobaseline:observe (day-0 learning; destructive suppressed)"
  else if decide (tag (al_Event a) "baseline_known" = "true") then
    "autobaseline:known (action inside learned envelope; destructive suppressed)"
  else if monitorMode g then "monitor_mode" else "".

Definition describeMask (mask : Z) : string :=
  if (mask =? 0)%Z then "none"
  else
    String.concat ", " ((filter (λ p : Z * string, has mask p.1 = true)
      [(ActionLog, "log"); (ActionSnapshot, "snapshot"); (ActionMemScan, "memscan");
       (ActionNetBan, "netban"); (ActionRemediate, "remediate"); (ActionQuarantine, "quarantine");
       (ActionKill, "kill"); (ActionLockUser, "lock-user"); (ActionHostQuarantine, "host-quarantine");
       (ActionWebhook, "webhook")]).*2).

(** the alert as the sinks see it *)
Definition stampAlert (g : Engine) (a : Alert) : Alert :=
  let reason := gateReason g a in
  {| al_Event := if Str.empty reason then al_Event a
                 else set_tag "xhelix_gate_reason" reason (al_Event a);
     al_RuleID := al_RuleID a; al_Reason := al_Reason a; al_EvidenceIDs := al_EvidenceIDs a;
     al_Mode := al_Mode a; al_Action := describeMask (effectiveMask g a); al_Class := al_Class a |}.

Definition when (b : bool) (m : act) : act := if b then m else skip.

Definition panicArmed (g : Engine) : bool :=
  match panicSwitch g with Some p => armed p | None => false end.

Definition OnAlert (g : Engine) (a : Alert) (now : Time.time) : act :=
  count st_alerts ▷
  (if panicArmed g then skip
   else
     let mask := effectiveMask g a in
     let a' := stampAlert g a in
     when (has mask ActionSnapshot) (doSnapshot g a') ▷
     when (has mask ActionMemScan) (doMemScan g a') ▷
     when (has mask ActionNetBan) (doNetBan g a') ▷
     when (has mask ActionRemediate) (doRemediate g a') ▷
     when (has mask ActionQuarantine) (doQuarantine g a' now) ▷
     when (has mask ActionKill) (doKill g a' now) ▷
     when (has mask ActionLockUser) (doLockUser g a') ▷
     when (has mask ActionHostQuarantine) (doHostQuarantine g) ▷
     when (has mask ActionWebhook) (doWebhook g a')).

(** ** The executor of action plans *)

Record ExecResult := {
  x_PlanID : string;
  x_LineageID : Z;
  x_Tier : string;
  x_Ran : list string;
  x_Deferred : list string;
  x_Warnings : list string
}.

(** what the bits of a plan make the executor do: the names it reports as run
    or deferred, and the engine call *)
Record xstep := { xs_Ran : list string; xs_Deferred : list string; xs_Act : act }.

Definition x_run (b : bool) (name : string) (m : act) : xstep :=
  if b then {| xs_Ran := [name]; xs_Deferred := []; xs_Act := m |}
  else {| xs_Ran := []; xs_Deferred := []; xs_Act := skip |}.

Definition x_defer (b : bool) (name : string) : xstep :=
  {| xs_Ran := []; xs_Deferred := if b then [name] else []; xs_Act := skip |}.

Definition x_steps (g : Engine) (p : ActionPlan) (a : Alert) (now : Time.time) : list xstep :=
  [x_run (Snapshot p) "snapshot" (doSnapshot g a);
   x_run (Memscan p) "memscan" (doMemScan g a);
   x_defer (0 <? Delay p)%Z "delay";
   x_defer (RequireStepUp p) "require_step_up";
   x_run (SuspendProcess p) "suspend_process" (doQuarantine g a now);
   (if SuspendProcess p then x_defer (IsolateCgroup p) "isolate_cgroup (covered by suspend_process)"
    else x_run (IsolateCgroup p) "isolate_cgroup" (doQuarantine g a now));
   x_run (BanRemoteIP p) "ban_remote_ip" (doNetBan g a);
   x_defer (Tarpit p) "tarpit (backend pending P-FT.15)";
   x_run (IsolateHost p) "isolate_host" (doHostQuarantine g);
   x_run (RemediateFile p) "remediate_file" (doRemediate g a);
   x_run (LockLocalUser p) "lock_local_user" (doLockUser g a);
   x_run (KillProcess p) "kill_process" (doKill g a now)].

Definition Execute (g : Engine) (p : ActionPlan) (a : Alert) (now : Time.time) (e : estate) :
    estate * list effect * ExecResult :=
  let res ran def := {| x_PlanID := PlanID p; x_LineageID := LineageID p; x_Tier := Tier p;
                        x_Ran := ran; x_Deferred := def; x_Warnings := CapabilityWarnings p |} in
  if panicArmed g then (e, [], res [] (Actions p))
  else
    let steps := x_steps g p a now in
    let r := (foldr andThen skip (xs_Act <$> steps) ▷ when (bool_decide (webhook g ≠ None)) (doWebhook g a)) e in
    (r.1, r.2, res (concat (xs_Ran <$> steps)) (concat (xs_Deferred <$> steps))).

(** ** What each call can do *)

(** every backend call of [m] satisfies [P] *)
Definition only (P : effect → Prop) (m : act) : Prop := ∀ e, Forall P (m e).2.

(** [m] leaves the quarantine tracker alone *)
Definition keeps_tracked (m : act) : Prop := ∀ e, tracked (m e).1 = tracked e.

Lemma only_andThen (P : effect → Prop) (m1 m2 : act) : only P m1 → only P m2 → only P (m1 ▷ m2).
Proof. intros H1 H2 e. unfold andThen. simpl. apply Forall_app. split; [apply H1|apply H2]. Qed.

Lemma only_when (P : effect → Prop) (b : bool) (m : act) : (b = true → only P m) → only P (when b m).
Proof. intros Hm. destruct b; [by apply Hm|]. intros e. constructor. Qed.

Lemma only_count (P : effect → Prop) (s : stat) : only P (count s).
Proof. intros e. constructor. Qed.

Lemma only_skip (P : effect → Prop) : only P skip.
Proof. intros e. constructor. Qed.

Lemma only_emit (P : effect → Prop) (fx : list effect) : Forall P fx → only P (emit fx).
Proof. by intros H e. Qed.

Lemma keeps_andThen (m1 m2 : act) : keeps_tracked m1 → keeps_tracked m2 → keeps_tracked (m1 ▷ m2).
Proof. intros H1 H2 e. unfold andThen. simpl. by rewrite H2, H1. Qed.

Lemma keeps_when (b : bool) (m : act) : (b = true → keeps_tracked m) → keeps_tracked (when b m).
Proof. intros Hm. destruct b; [by apply Hm|done]. Qed.

#[export] Hint Resolve only_andThen only_count only_skip keeps_andThen : xh.
#[export] Hint Extern 1 (keeps_tracked (count _)) => intros ? : xh.
#[export] Hint Extern 1 (keeps_tracked skip) => intros ?; reflexivity : xh.
#[export] Hint Extern 1 (keeps_tracked (emit _)) => intros ?; reflexivity : xh.

Definition is_webhook (x : effect) : Prop := match x with EWebhook _ => True | _ => False end.
Definition is_evidence (x : effect) : Prop :=
  match x with ESnapshot _ _ _ | EMemScan _ => True | _ => False end.
Definition is_ban (x : effect) : Prop := match x with EBan _ _ _ => True | _ => False end.
Definition is_signal (x : effect) : Prop := match x with ESignal _ _ => True | _ => False end.

(** touches a process or an account on the host *)
Definition on_process (x : effect) : Prop :=
  match x with ESnapshot _ _ _ | EMemScan _ | ESignal _ _ | ELock _ => True | _ => False end.

Ltac solve_only :=
  repeat (case_match || apply only_andThen || apply only_count || apply only_skip ||
          (apply only_emit; repeat constructor)).

Lemma doSnapshot_only (g : Engine) (a : Alert) :
  only (λ x, x = ESnapshot (ev_PID (al_Event a)) (ev_Comm (al_Event a)) (al_RuleID a)) (doSnapshot g a).
Proof. unfold doSnapshot. solve_only. Qed.

Lemma doMemScan_only (g : Engine) (a : Alert) : only (λ x, x = EMemScan (ev_PID (al_Event a))) (doMemScan g a).
Proof. unfold doMemScan. solve_only. Qed.

Lemma doWebhook_only (g : Engine) (a : Alert) : only (λ x, x = EWebhook a) (doWebhook g a).
Proof. unfold doWebhook. solve_only. Qed.

Lemma doNetBan_only (g : Engine) (a : Alert) : only is_ban (doNetBan g a).
Proof. unfold doNetBan. solve_only. Qed.

Lemma doRemediate_only (g : Engine) (a : Alert) :
  only (λ x, ∃ p r, x = ERestore p r) (doRemediate g a).
Proof. unfold doRemediate. solve_only; eauto. Qed.

Lemma doLockUser_only (g : Engine) (a : Alert) : only (λ x, ∃ u, x = ELock u) (doLockUser g a).
Proof. unfold doLockUser. solve_only; eauto. Qed.

Lemma doHostQuarantine_only (g : Engine) : only (λ x, ∃ l, x = EHostQuarantine l) (doHostQuarantine g).
Proof. unfold doHostQuarantine. solve_only; eauto. Qed.

Lemma deliver_only send pid sg : Forall is_signal (deliver send pid sg).2.
Proof. unfold deliver. case_match; repeat constructor. Qed.

Lemma q_Stop_only send pid comm image rule now q :
  Forall is_signal (q_Stop send pid comm image rule now q).2.
Proof.
  unfold q_Stop. pose proof (deliver_only send pid sigSTOP). destruct (deliver send pid sigSTOP) as [[] fx].
  all: repeat (case_match; simpl; try constructor; try done).
Qed.

Lemma q_Kill_only send pid now q : Forall is_signal (q_Kill send pid now q).2.
Proof.
  unfold q_Kill. pose proof (deliver_only send pid sigKILL). destruct (deliver send pid sigKILL) as [[] fx].
  all: repeat (case_match; simpl; try constructor; try done).
Qed.

Lemma doQuarantine_only (g : Engine) (a : Alert) (now : Time.time) : only is_signal (doQuarantine g a now).
Proof.
  intros e. unfold doQuarantine. destruct (_ || _); [constructor|].
  pose proof (q_Stop_only (send g) (ev_PID (al_Event a)) (ev_Comm (al_Event a)) (ev_Image (al_Event a))
    (al_RuleID a) now (tracked e)) as Hs.
  destruct (q_Stop _ _ _ _ _ _ _) as [[q err] fx]. simpl in Hs.
  apply (only_andThen is_signal); [by apply only_emit|]. destruct err; apply only_count.
Qed.

Lemma doKill_only (g : Engine) (a : Alert) (now : Time.time) : only is_signal (doKill g a now).
Proof.
  intros e. unfold doKill. destruct (_ || _); [constructor|].
  pose proof (q_Kill_only (send g) (ev_PID (al_Event a)) now (tracked e)) as Hk.
  destruct (q_Kill _ _ _ (tracked e)) as [[q1 err1] fx1]. simpl in Hk. destruct err1.
  - pose proof (q_Stop_only (send g) (ev_PID (al_Event a)) (ev_Comm (al_Event a)) (ev_Image (al_Event a))
      (al_RuleID a) now q1) as Hs.
    destruct (q_Stop _ _ _ _ _ _ _) as [[q2 err2] fx2]. simpl in Hs.
    pose proof (q_Kill_only (send g) (ev_PID (al_Event a)) now q2) as Hk2.
    destruct (q_Kill _ _ _ q2) as [[q3 err3] fx3]. simpl in Hk2.
    apply (only_andThen is_signal); [|destruct err3; apply only_count].
    apply only_emit. by repeat apply Forall_app_2.
  - apply (only_andThen is_signal); [by apply only_emit|apply only_count].
Qed.

Lemma only_impl (P Q : effect → Prop) (m : act) : (∀ x, P x → Q x) → only P m → only Q m.
Proof. intros HPQ Hm e. eapply Forall_impl; [apply Hm|done]. Qed.

(** ** Masks *)

(** [m] has no bit outside [allowed] *)
Definition within (allowed m : Z) : Prop := ∀ x, Z.land allowed x = 0%Z → Z.land m x = 0%Z.

Lemma within_land (allowed m : Z) : within allowed (Z.land m allowed).
Proof. intros x Hx. by rewrite <-Z.land_assoc, Hx, Z.land_0_r. Qed.

Lemma within_sub (allowed m : Z) : Z.land m allowed = m → within allowed m.
Proof. intros <-. apply within_land. Qed.

Lemma within_maskOr (allowed m : Z) : Z.land ActionLog allowed = ActionLog → within allowed (maskOr m allowed).
Proof. intros Hl. unfold maskOr. case_match; [by apply within_sub|apply within_land]. Qed.

Lemma maskOr_within (allowed allowed' m : Z) :
  Z.land ActionLog allowed = ActionLog → within allowed m → within allowed (maskOr m allowed').
Proof.
  intros Hl Hm. unfold maskOr. case_match; [by apply within_sub|]. intros x Hx.
  rewrite (Z.land_comm m), <-Z.land_assoc, (Hm x Hx). apply Z.land_0_r.
Qed.

Lemma within_has (allowed m x : Z) : within allowed m → Z.land allowed x = 0%Z → has m x = false.
Proof. intros Hm Hx. unfold has. by rewrite (Hm x Hx). Qed.

(** the situations in which the engine must only observe *)
Definition mustObserve (g : Engine) (a : Alert) : Prop :=
  (monitorMode g = true ∧ al_RuleID a ∉ enforceRules g) ∨ tag (al_Event a) "baseline_observing" = "true".

Lemma observe_mask (g : Engine) (a : Alert) : mustObserve g a → within observeMask (effectiveMask g a).
Proof.
  intros Ho. unfold effectiveMask.
  destruct (decide (tag (al_Event a) "baseline_observing" = "true")) as [Hb|Hb]; [by apply within_maskOr|].
  destruct Ho as [[Hm Hr]|Ho]; [|done].
  rewrite Hm, bool_decide_eq_false_2 by done. simpl.
  case_decide; [apply maskOr_within; [done|]|]; by apply within_maskOr.
Qed.

(** a mask within the observe mask runs nothing but the webhook *)
Lemma OnAlert_observe (g : Engine) (a : Alert) (now : Time.time) (e : estate) :
  panicArmed g = true ∨ within observeMask (effectiveMask g a) →
  Forall is_webhook (OnAlert g a now e).2 ∧ tracked (OnAlert g a now e).1 = tracked e.
Proof.
  intros Hm. unfold OnAlert. destruct (panicArmed g); [split; [constructor|done]|].
  destruct Hm as [?|Hm]; [done|].
  rewrite !(within_has observeMask _ _ Hm) by reflexivity. simpl.
  destruct (has _ ActionWebhook); unfold doWebhook; [destruct (webhook g) as [[]|]|];
    (split; [repeat constructor|done]).
Qed.

(** ** Evidence first *)

(** the evidence captured by [m] comes before everything else it does *)
Definition evidence_first (fx : list effect) : Prop :=
  ∃ l1 l2, fx = l1 ++ l2 ∧ Forall is_evidence l1 ∧ Forall (λ x, ¬ is_evidence x) l2.

Definition ef (m : act) : Prop := ∀ e, evidence_first (m e).2.
Definition no_evidence (m : act) : Prop := only (λ x, ¬ is_evidence x) m.

Lemma ef_base (m : act) : only is_evidence m → ef m.
Proof. intros Hm e. exists (m e).2, []. split; [by rewrite app_nil_r|]. split; [apply Hm|constructor]. Qed.

Lemma ef_none (m : act) : no_evidence m → ef m.
Proof. intros Hm e. exists [], (m e).2. split; [done|]. split; [constructor|apply Hm]. Qed.

Lemma ef_snoc (m m' : act) : ef m → no_evidence m' → ef (m ▷ m').
Proof.
  intros Hm Hm' e. destruct (Hm e) as (l1 & l2 & Heq & H1 & H2).
  exists l1, (l2 ++ (m' (m e).1).2). unfold andThen. simpl. rewrite Heq, <-(assoc_L (++)).
  split; [done|]. split; [done|]. apply Forall_app. split; [done|apply Hm'].
Qed.

Lemma ef_cons (m m' : act) : only is_evidence m → ef m' → ef (m ▷ m').
Proof.
  intros Hm Hm' e. destruct (Hm' (m e).1) as (l1 & l2 & Heq & H1 & H2).
  exists ((m e).2 ++ l1), l2. unfold andThen. simpl. rewrite Heq, (assoc_L (++)).
  split; [done|]. split; [|done]. apply Forall_app. split; [apply Hm|done].
Qed.

Lemma no_evidence_calls (g : Engine) (a : Alert) (now : Time.time) :
  no_evidence (doNetBan g a) ∧ no_evidence (doRemediate g a) ∧ no_evidence (doQuarantine g a now) ∧
  no_evidence (doKill g a now) ∧ no_evidence (doLockUser g a) ∧ no_evidence (doHostQuarantine g) ∧
  no_evidence (doWebhook g a).
Proof.
  split_and!; eapply only_impl; try apply doNetBan_only; try apply doRemediate_only;
    try apply doQuarantine_only; try apply doKill_only; try apply doLockUser_only;
    try apply doHostQuarantine_only; try apply doWebhook_only; intros []; naive_solver.
Qed.

Lemma evidence_calls (g : Engine) (a : Alert) :
  only is_evidence (doSnapshot g a) ∧ only is_evidence (doMemScan g a).
Proof.
  split; (eapply only_impl; [|apply doSnapshot_only || apply doMemScan_only]); by intros ? ->.
Qed.

Lemma OnAlert_evidence_first (g : Engine) (a : Alert) (now : Time.time) : ef (OnAlert g a now).
Proof.
  unfold OnAlert. apply ef_cons; [apply only_count|]. destruct (panicArmed g); [apply ef_none, only_skip|].
  cbv zeta. destruct (evidence_calls g (stampAlert g a)) as [E1 E2].
  destruct (no_evidence_calls g (stampAlert g a) now) as (N1 & N2 & N3 & N4 & N5 & N6 & N7).
  do 7 (apply ef_snoc; [|by apply only_when]). apply ef_base, only_andThen; by apply only_when.
Qed.

Lemma x_run_only (P : effect → Prop) (b : bool) (name : string) (m : act) :
  only P m → only P (xs_Act (x_run b name m)).
Proof. intros Hm. unfold x_run. destruct b; [done|apply only_skip]. Qed.

(** the executor's engine calls, in order *)
Definition execAct (g : Engine) (p : ActionPlan) (a : Alert) (now : Time.time) : act :=
  foldr andThen skip (xs_Act <$> x_steps g p a now) ▷ when (bool_decide (webhook g ≠ None)) (doWebhook g a).

Lemma Execute_effects (g : Engine) (p : ActionPlan) (a : Alert) (now : Time.time) (e : estate) :
  panicArmed g = false →
  (Execute g p a now e).1.1 = (execAct g p a now e).1 ∧ (Execute g p a now e).1.2 = (execAct g p a now e).2.
Proof. intros Hp. unfold Execute. by rewrite Hp. Qed.

Lemma execAct_only (P : effect → Prop) (g : Engine) (p : ActionPlan) (a : Alert) (now : Time.time) :
  only P (doSnapshot g a) → only P (doMemScan g a) → only P (doQuarantine g a now) →
  only P (doNetBan g a) → only P (doHostQuarantine g) → only P (doRemediate g a) →
  only P (doLockUser g a) → only P (doKill g a now) → only P (doWebhook g a) →
  only P (execAct g p a now).
Proof.
  intros. unfold execAct. apply only_andThen; [|by apply only_when]. cbn [fmap list_fmap x_steps foldr].
  repeat (apply only_andThen; [|]); try apply only_skip; try (by apply x_run_only).
  destruct (SuspendProcess p); [apply only_skip|by apply x_run_only].
Qed.

(** calls that leave the tracker alone make an execution that does *)
Lemma execAct_keeps (g : Engine) (p : ActionPlan) (a : Alert) (now : Time.time) :
  keeps_tracked (doSnapshot g a) → keeps_tracked (doMemScan g a) → keeps_tracked (doQuarantine g a now) →
  keeps_tracked (doLockUser g a) → keeps_tracked (doKill g a now) → keeps_tracked (execAct g p a now).
Proof.
  intros H1 H2 H3 H4 H5.
  assert (∀ b n m, keeps_tracked m → keeps_tracked (xs_Act (x_run b n m))) as Hr
    by (intros [] n m Hm; done).
  assert (keeps_tracked (doNetBan g a)) as H6 by (unfold doNetBan; by repeat case_match).
  assert (keeps_tracked (doRemediate g a)) as H7 by (unfold doRemediate; by repeat case_match).
  assert (keeps_tracked (doHostQuarantine g)) as H8 by (unfold doHostQuarantine; by repeat case_match).
  assert (keeps_tracked (doWebhook g a)) as H9 by (unfold doWebhook; by repeat case_match).
  unfold execAct. apply keeps_andThen; [|by apply keeps_when]. cbn [fmap list_fmap x_steps foldr].
  repeat (apply keeps_andThen; [|]); try done; try (by apply Hr).
  destruct (SuspendProcess p); [done|by apply Hr].
Qed.

Lemma Execute_evidence_first (g : Engine) (p : ActionPlan) (a : Alert) (now : Time.time) (e : estate) :
  evidence_first (Execute g p a now e).1.2.
Proof.
  destruct (panicArmed g) eqn:Hp; [unfold Execute; rewrite Hp; by exists [], []|].
  destruct (Execute_effects g p a now e Hp) as [_ ->]. unfold execAct.
  destruct (evidence_calls g a) as [E1 E2].
  destruct (no_evidence_calls g a now) as (N1 & N2 & N3 & N4 & N5 & N6 & N7).
  apply ef_snoc; [|by apply only_when]. cbn [fmap list_fmap x_steps foldr].
  apply ef_cons; [by apply x_run_only|]. apply ef_cons; [by apply x_run_only|]. apply ef_none.
  repeat (apply only_andThen; [|]); try apply only_skip; try (by apply x_run_only).
  destruct (SuspendProcess p); [apply only_skip|by apply x_run_only].
Qed.

(** ** Properties *)

(** monitor mode, the learning window and the panic switch hold: for an
    alert whose rule is not promoted in monitor mode, or that was seen during
    the baseline window, or while the panic switch is armed, the engine calls
    no backend but the webhook and signals no process, whatever the policy. *)
Theorem observe_only_gates (g : Engine) (a : Alert) (now : Time.time) (e : estate) :
  mustObserve g a ∨ panicArmed g = true →
  Forall is_webhook (OnAlert g a now e).2 ∧ tracked (OnAlert g a now e).1 = tracked e.
Proof.
  intros [Ho|Hp]; apply OnAlert_observe; [right; by apply observe_mask|by left].
Qed.

(** evidence is captured before it is destroyed: in everything the engine
    does for an alert, and in everything the executor does for a plan, memory
    scans and snapshots come before every other backend call. *)
Theorem evidence_before_containment (g : Engine) (p : ActionPlan) (a : Alert) (now : Time.time) (e : estate) :
  evidence_first (OnAlert g a now e).2 ∧ evidence_first (Execute g p a now e).1.2.
Proof. split; [apply OnAlert_evidence_first|apply Execute_evidence_first]. Qed.

(** the executor does not honour monitor mode: an engine that must only
    observe an alert, and bans nobody for it, bans the same alert's address when
    a plan asks for it. *)
Theorem executor_ignores_monitor_mode (g : Engine) (p : ActionPlan) (a : Alert) (now : Time.time)
    (e : estate) (ban : list Z → bool) (ip : list Z) :
  mustObserve g a → panicArmed g = false → netBan g = Some ban → banTarget a = Some ip →
  IsLoopback ip = false → IsUnspecified ip = false → BanRemoteIP p = true →
  ¬ EBan ip (al_RuleID a) Time.Hour ∈ (OnAlert g a now e).2 ∧
  EBan ip (al_RuleID a) Time.Hour ∈ (Execute g p a now e).1.2.
Proof.
  intros Ho Hp Hn Hb Hl Hu Hbit. split.
  - intros Hin. destruct (OnAlert_observe g a now e (or_intror (observe_mask g a Ho))) as [Hw _].
    rewrite Forall_forall in Hw. by apply Hw in Hin.
  - destruct (Execute_effects g p a now e Hp) as [_ ->]. unfold execAct, andThen at 1. cbn [snd].
    apply elem_of_app. left. cbn [fmap list_fmap x_steps foldr].
    repeat (unfold andThen at 1; cbn [snd]; apply elem_of_app; 
            first [left; unfold x_run; rewrite Hbit; cbn [xs_Act]; unfold doNetBan; rewrite Hn, Hb, Hl, Hu;
                   cbn; apply list_elem_of_here | right]).
Qed.

(** what a rule may do under the production policy *)
Definition destructive (m : Z) : bool :=
  has m ActionQuarantine || has m ActionKill || has m ActionRemediate || has m ActionNetBan ||
  has m ActionLockUser || has m ActionHostQuarantine.

Definition quarantining : list string :=
  ["decoy_file_opened"; "mem_lkrg_violation"; "shell_with_socket_fd"; "web_server_spawns_shell";
   "uid0_no_transition"].

Definition banning : list string :=
  ["decoy_service_connect"; "decoy_canary_token_used"; "outbound_to_known_bad"; "ssh_brute_then_success"].

(** the claim for one entry *)
Definition policy_row (r : string) (v : Z) : bool :=
  let m := if (v =? 0)%Z then ActionLog else v in
  negb (has m ActionKill) && negb (has m ActionRemediate) && negb (has m ActionHostQuarantine) &&
  Bool.eqb (has m ActionQuarantine) (bool_decide (r ∈ quarantining)) &&
  Bool.eqb (has m ActionNetBan) (bool_decide (r ∈ banning)) &&
  Bool.eqb (destructive m) (bool_decide (r ∈ quarantining ++ banning)).

(** the production policy never kills, remediates or isolates the host, for
    any rule, known or not; it stops processes for exactly five rules, bans for
    exactly four, and nothing else it does is destructive. *)
Theorem default_policy_destructive_rules (g : Engine) (rule : string) :
  policy g = Default →
  let m := policyMask g rule in
  has m ActionKill = false ∧ has m ActionRemediate = false ∧ has m ActionHostQuarantine = false ∧
  has m ActionQuarantine = bool_decide (rule ∈ quarantining) ∧
  has m ActionNetBan = bool_decide (rule ∈ banning) ∧
  destructive m = bool_decide (rule ∈ quarantining ++ banning).
Proof.
  intros Hg m. subst m. unfold policyMask. rewrite Hg.
  destruct (Default !! rule) as [v|] eqn:Hv.
  - assert (forallb (λ p, policy_row p.1 p.2) (map_to_list Default) = true) as Hall
      by (vm_compute; reflexivity).
    pose proof (forallb_entries Default policy_row rule v Hall Hv) as Hrow.
    clear Hall. unfold policy_row in Hrow. cbn [default from_option]. unfold id.
    set (m := if (v =? 0)%Z then ActionLog else v) in *. clearbody m. bool_to_prop.
    repeat match goal with H : Bool.eqb _ _ = true |- _ => apply eqb_prop in H end. by split_and!.
  - assert (forallb (λ r, has_key r Default) (quarantining ++ banning) = true) as Hk
      by (vm_compute; reflexivity).
    rewrite forallb_forall in Hk.
    assert (rule ∉ quarantining ++ banning) as Hn
      by (intros Hin%list_elem_of_In%Hk; unfold has_key in Hin; by rewrite Hv in Hin).
    rewrite (bool_decide_eq_false_2 _ Hn). rewrite elem_of_app in Hn.
    rewrite (bool_decide_eq_false_2 (rule ∈ quarantining)) by tauto.
    rewrite (bool_decide_eq_false_2 (rule ∈ banning)) by tauto. done.
Qed.

(** ** Witnesses *)

Lemma default_policy_destructive_rules_witness :
  let g := {| policy := Default; monitorMode := false; enforceRules := ∅; netBan := None; hostBanner := None;
              hostAllowIPs := []; remediator := None; quarantine := true; send := None; panicSwitch := None;
              webhook := None; snapshotter := None; memPatterns := 0; memscan := λ _, true;
              lockUser := None |} in
  has (policyMask g "shell_with_socket_fd") ActionQuarantine = true.
Proof.
  intros g. destruct (default_policy_destructive_rules g "shell_with_socket_fd" eq_refl) as (_ & _ & _ & -> & _).
  vm_compute. reflexivity.
Defined.

Module Demo.
Definition engine : Engine :=
  {| policy := {["r" := Z.lor ActionLog ActionNetBan]}; monitorMode := true; enforceRules := ∅;
     netBan := Some (λ _, true); hostBanner := None; hostAllowIPs := []; remediator := None;
     quarantine := true; send := Some (λ _ _, true); panicSwitch := None; webhook := Some true;
     snapshotter := Some (λ _, true); memPatterns := 1; memscan := λ _, true; lockUser := None |}.
Definition alert : Alert :=
  {| al_Event := set_tag "src" "203.0.113.9:443" (NewEvent 9 100 "demo" SeverityHigh); al_RuleID := "r";
     al_Reason := "why"; al_EvidenceIDs := []; al_Mode := ModeDetect; al_Action := ""; al_Class := 0 |}.
Definition plan : ActionPlan := NewSuspend "a" "p" 80 1 2.
Definition start : estate := {| tracked := ∅; stats := λ _, 0%Z |}.

Lemma must_observe : mustObserve engine alert.
Proof. left. split; [reflexivity|]. vm_compute. intros [=]. Qed.
End Demo.

Lemma observe_only_gates_witness :
  Forall is_webhook (OnAlert Demo.engine Demo.alert 5 Demo.start).2 ∧
  tracked (OnAlert Demo.engine Demo.alert 5 Demo.start).1 = ∅.
Proof. apply (observe_only_gates Demo.engine Demo.alert 5 Demo.start). left. apply Demo.must_observe. Defined.

Lemma executor_ignores_monitor_mode_witness :
  let ip := v4InV6Prefix ++ [203; 0; 113; 9]%Z in
  ¬ EBan ip "r" Time.Hour ∈ (OnAlert Demo.engine Demo.alert 5 Demo.start).2 ∧
  EBan ip "r" Time.Hour ∈ (Execute Demo.engine Demo.plan Demo.alert 5 Demo.start).1.2.
Proof.
  intros ip. apply (executor_ignores_monitor_mode Demo.engine Demo.plan Demo.alert 5 Demo.start (λ _, true) ip
    Demo.must_observe); vm_compute; reflexivity.
Defined.
