(* ===== verification/PlannerWire.v ===== *)
(** * Planner wiring (src/pkg/daemon/wire)

    Connects alerts to the takeover planner and plans to the executor: the
    mapping of alerts to signals, the periodic tick in shadow and active mode,
    and the synthetic alert the executor's backends are given.  The wiring and
    the planner share one action log. *)

From S2P Require Import Prelude GoStd NetIP Model ActionLog Decision Takeover Response.

(** ** Alerts to signals *)

Definition ruleKinds : list (string * string) :=
  [("lolbin.suspicious", SignalLOTL); ("revshell.detected", SignalShellAttempt);
   ("shm.exec", SignalRWXMemory); ("webshell.argv", SignalInterpAttempt); ("cap.gained", SignalCapAbuse);
   ("contescape.detected", SignalDefenseEvasion); ("ptrace.suspicious", SignalDefenseEvasion);
   ("metadata.access_by_unexpected", SignalLateralMove);
   ("phishing.brand_lookalike", SignalForbiddenConnect); ("intel.bad_ip", SignalC2Beacon);
   ("beacon.periodic_callback", SignalC2Beacon); ("dnsexfil.tunnel_pattern", SignalForbiddenConnect);
   ("netids.dga", SignalForbiddenConnect); ("ml.anomaly", SignalRuleHit);
   ("baseline.behavioural_deviation", SignalNewBinary); ("baseline.rate_spike", SignalNewBinary);
   ("credbroker.unauthentic_open", SignalCredBrokerDeny);
   ("credbroker.honey_touched", SignalCredBrokerHoneyTouch)].

Fixpoint assoc (k : string) (l : list (string * string)) : string :=
  match l with [] => "" | (k', v) :: l' => if decide (k = k') then v else assoc k l' end.

Definition mapRuleIDToKind (ruleID : string) : string := assoc ruleID ruleKinds.

Definition severityToConfidence (s : Severity) : string :=
  match s with
  | SeverityCritical => "deterministic"
  | SeverityHigh => "high"
  | SeverityWarn => "medium"
  | _ => "low"
  end.

Definition weightForRuleMode (m : RuleMode) : Z :=
  match m with ModeBlock => 95 | ModeQuarantine => 80 | ModeDetect => 0 end.

Fixpoint firstNonEmpty (l : list string) : string :=
  match l with [] => "" | v :: l' => if Str.empty v then firstNonEmpty l' else v end.

Definition zeroSignal : Signal :=
  {| s_LineageID := 0; s_Kind := ""; s_At := Time.zero; s_Source := ""; s_Detail := ""; s_Weight := 0;
     s_Confidence := ""; s_RemoteIP := "" |}.

Definition AlertToSignal (a : Alert) : Signal :=
  let k0 := mapRuleIDToKind (al_RuleID a) in
  let ev := al_Event a in
  let kind := if Str.empty k0 then
                match ev_Severity ev with SeverityCritical | SeverityHigh => Some SignalRuleHit | _ => None end
              else Some k0 in
  match kind with
  | None => zeroSignal
  | Some k =>
      let lid := if (ev_CGroupID ev =? 0)%Z then ev_PID ev else ev_CGroupID ev in
      {| s_LineageID := lid; s_Kind := k; s_At := ev_Time ev; s_Source := "alert:" +:+ al_RuleID a;
         s_Detail := al_Reason a; s_Weight := weightForRuleMode (al_Mode a);
         s_Confidence := severityToConfidence (ev_Severity ev);
         s_RemoteIP := firstNonEmpty [tag ev "src_ip"; tag ev "dst_ip"] |}
  end.

Definition tierToState (t : string) : string :=
  if decide (t = "triaged") then StateTriaged
  else if decide (t = "suspended") then StateSuspended
  else if decide (t = "isolated") then StateIsolated
  else if decide (t = "contained") then StateContained
  else StateObserved.

Section wire.
Context {C : Type} `{CapabilityChecker C}.
Context (ulid_String : Z → string).
Context (order : gmap string (list Signal) → list string).
(** [net.IP.String] *)
Context (ip_String : list Z → string).

(** the alert handed to the executor: [id] and [now] as drawn by [NewEvent] *)
Definition lineageToSyntheticAlert (id : Z) (now : Time.time) (sigs : list Signal) : Alert :=
  match last sigs with
  | None =>
      {| al_Event := NewEvent id now "planner.tick" SeverityHigh; al_RuleID := "takeover.composite";
         al_Reason := ""; al_EvidenceIDs := []; al_Mode := ModeDetect; al_Action := ""; al_Class := 0 |}
  | Some l =>
      let ev0 := NewEvent id (s_At l) "planner.tick" SeverityHigh in
      let ip := s_RemoteIP l in
      let ev1 := if Str.empty ip then ev0
                 else set_tag "src" ip (set_tag "dst_ip" ip (set_tag "src_ip" ip ev0)) in
      let ev2 := match ParseIP ip with
                 | Some b => if IsUnspecified b then ev1 else set_tag "src_ip" (ip_String b) ev1
                 | None => ev1
                 end in
      {| al_Event := ev2; al_RuleID := "takeover.composite"; al_Reason := s_Detail l;
         al_EvidenceIDs := []; al_Mode := ModeDetect; al_Action := ""; al_Class := 0 |}
  end.

Record PlannerWiring := {
  w_active : bool;
  w_Log : Log;
  w_Plan : Planner (C:=C);
  w_Exec : Engine;
  w_estate : estate;
  w_shadowed : Z;
  w_executed : Z;
  w_rejected : Z
}.

(** [New]: the planner gets the wiring's log and the configured preconditions *)
Definition wire_New (active bastion mirror : bool) (minScore : Z) (caps : C) (engine : Engine) (e : estate) :
    PlannerWiring :=
  {| w_active := active; w_Log := New;
     w_Plan := NewPlanner 0 None (Some New) (Some caps) minScore None (Some (bastion, mirror));
     w_Exec := engine; w_estate := e; w_shadowed := 0; w_executed := 0; w_rejected := 0 |}.

Definition with_Plan (p : Planner) (w : PlannerWiring) : PlannerWiring :=
  {| w_active := w_active w; w_Log := w_Log w; w_Plan := p; w_Exec := w_Exec w; w_estate := w_estate w;
     w_shadowed := w_shadowed w; w_executed := w_executed w; w_rejected := w_rejected w |}.

(** recording goes to the one log object, so the planner sees it too *)
Definition with_Log (l : Log) (w : PlannerWiring) : PlannerWiring :=
  let p := w_Plan w in
  {| w_active := w_active w; w_Log := l;
     w_Plan := {| pl_Agg := pl_Agg p; pl_Scorer := pl_Scorer p; pl_State := Some l; pl_Caps := pl_Caps p;
                  pl_MinScoreToPlan := pl_MinScoreToPlan p; pl_ResolveCJTier := pl_ResolveCJTier p;
                  pl_PreconditionProbe := pl_PreconditionProbe p |};
     w_Exec := w_Exec w; w_estate := w_estate w;
     w_shadowed := w_shadowed w; w_executed := w_executed w; w_rejected := w_rejected w |}.

Definition with_counts (e : estate) (s x r : Z) (w : PlannerWiring) : PlannerWiring :=
  {| w_active := w_active w; w_Log := w_Log w; w_Plan := w_Plan w; w_Exec := w_Exec w; w_estate := e;
     w_shadowed := s; w_executed := x; w_rejected := r |}.

Definition wire_OnAlert (a : Alert) (now : Time.time) (w : PlannerWiring) : PlannerWiring :=
  let sg := AlertToSignal a in
  if Str.empty (s_Kind sg) then w else with_Plan (OnSignal sg now (w_Plan w)) w.

Definition MarkActive (w : PlannerWiring) : PlannerWiring :=
  {| w_active := true; w_Log := w_Log w; w_Plan := w_Plan w; w_Exec := w_Exec w; w_estate := w_estate w;
     w_shadowed := w_shadowed w; w_executed := w_executed w; w_rejected := w_rejected w |}.

(** what a tick does for one lineage *)
Inductive outcome : Type :=
  | Idle
  | Shadowed (p : ActionPlan)
  | Rejected (p : ActionPlan) (e : log_error)
  | Executed (p : ActionPlan) (fx : list effect) (r : ExecResult).

(** ids and clock readings drawn for one lineage *)
Record tick_draws := { td_plan : draws; td_event : Z; td_event_time : Time.time; td_log_time : Time.time;
                       td_exec_time : Time.time }.

Definition run_plan (p : ActionPlan) (a : Alert) (t : Time.time) (w : PlannerWiring) :
    PlannerWiring * outcome :=
  let '(e, fx, r) := Execute (w_Exec w) p a t (w_estate w) in
  (with_counts e (w_shadowed w) (w_executed w + 1) (w_rejected w) w, Executed p fx r).

Definition tick_lineage (now : Time.time) (lid : Z) (d : tick_draws) (w : PlannerWiring) :
    PlannerWiring * outcome :=
  let '(pl1, op) := planner_Plan ulid_String order lid now (td_plan d) (w_Plan w) in
  let w1 := with_Plan pl1 w in
  match op with
  | None => (w1, Idle)
  | Some p =>
      if IsNoOp p then (w1, Idle)
      else
        let '(agg, sigs) := Takeover.Snapshot lid now (pl_Agg pl1) in
        let w2 := with_Plan (set_Agg agg pl1) w1 in
        let alert := lineageToSyntheticAlert (td_event d) (td_event_time d) sigs in
        if negb (w_active w2) then
          (with_counts (w_estate w2) (w_shadowed w2 + 1) (w_executed w2) (w_rejected w2) w2, Shadowed p)
        else
          let from := State (w_Log w2) lid in
          let to := tierToState (Tier p) in
          if negb (bool_decide (from = to)) && CanTransition from to then
            let t := {| t_LineageID := lid; t_From := from; t_To := to; t_At := Time.zero;
                        t_Reason := "planner: " +:+ RuleID p; t_PlanID := PlanID p; t_OperatorID := "" |} in
            let '(l, err) := Record_ t (td_log_time d) (w_Log w2) in
            match err with
            | Some e => (with_counts (w_estate w2) (w_shadowed w2) (w_executed w2) (w_rejected w2 + 1) w2,
                         Rejected p e)
            | None => run_plan p alert (td_exec_time d) (with_Log l w2)
            end
          else run_plan p alert (td_exec_time d) w2
  end.

(** the loop over the live lineages *)
Fixpoint tick_lineages (now : Time.time) (draw : Z → tick_draws) (lids : list Z) (w : PlannerWiring) :
    PlannerWiring * list outcome :=
  match lids with
  | [] => (w, [])
  | lid :: rest =>
      let '(w1, o) := tick_lineage now lid (draw lid) w in
      let '(w2, os) := tick_lineages now draw rest w1 in (w2, o :: os)
  end.

Definition tickOnce (now : Time.time) (draw : Z → tick_draws) (w : PlannerWiring) :
    PlannerWiring * list outcome :=
  let '(agg, lids) := Lineages now (pl_Agg (w_Plan w)) in
  tick_lineages now draw lids (with_Plan (set_Agg agg (w_Plan w)) w).

(** ** The synthetic alert names no process *)

Lemma synthetic_target (id : Z) (now : Time.time) (sigs : list Signal) :
  let ev := al_Event (lineageToSyntheticAlert id now sigs) in
  ev_PID ev = 0%Z ∧ tag ev "user" = "" ∧ tag ev "username" = "".
Proof.
  unfold lineageToSyntheticAlert. destruct (last sigs) as [l|]; [|done]. simpl.
  assert (∀ k v ev, (ev_PID ev = 0%Z ∧ tag ev "user" = "" ∧ tag ev "username" = "") →
    k ≠ "user" → k ≠ "username" →
    ev_PID (set_tag k v ev) = 0%Z ∧ tag (set_tag k v ev) "user" = "" ∧ tag (set_tag k v ev) "username" = "") as Hset
    by (intros k v ev (? & ? & ?) ? ?; split_and!; [done|by rewrite tag_set_ne|by rewrite tag_set_ne]).
  repeat case_match; repeat apply Hset; done.
Qed.

(** given such an alert, the executor leaves every process and account alone *)
Lemma Execute_no_process (g : Engine) (p : ActionPlan) (a : Alert) (now : Time.time) (e : estate) :
  ev_PID (al_Event a) = 0%Z → tag (al_Event a) "user" = "" → tag (al_Event a) "username" = "" →
  Forall (λ x, ¬ on_process x) (Execute g p a now e).1.2 ∧
  tracked (Execute g p a now e).1.1 = tracked e.
Proof.
  intros Hpid Hu Hun. destruct (panicArmed g) eqn:Hp; [by unfold Execute; rewrite Hp|].
  assert (doSnapshot g a = count st_dropped) as E1 by (unfold doSnapshot; rewrite Hpid; by case_match).
  assert (doMemScan g a = count st_dropped) as E2 by (unfold doMemScan; rewrite Hpid, orb_true_r; done).
  assert (∀ s, doQuarantine g a now s = count st_dropped s) as E3
    by (intros s; unfold doQuarantine; rewrite Hpid, orb_true_r; done).
  assert (∀ s, doKill g a now s = count st_dropped s) as E4
    by (intros s; unfold doKill; rewrite Hpid, orb_true_r; done).
  assert (doLockUser g a = count st_dropped) as E5
    by (unfold doLockUser; rewrite Hu, Hun; by case_match).
  destruct (Execute_effects g p a now e Hp) as [-> ->]. split.
  - apply (execAct_only (λ x, ¬ on_process x)); rewrite ?E1, ?E2, ?E5; try apply only_count.
    + intros s. rewrite E3. apply only_count.
    + eapply only_impl; [|apply doNetBan_only]. intros []; simpl; tauto.
    + eapply only_impl; [|apply doHostQuarantine_only]. intros x [l ->]; simpl; tauto.
    + eapply only_impl; [|apply doRemediate_only]. intros x (q & r & ->); simpl; tauto.
    + intros s. rewrite E4. apply only_count.
    + eapply only_impl; [|apply doWebhook_only]. intros x ->; simpl; tauto.
  - apply execAct_keeps; rewrite ?E1, ?E2, ?E5; try done; intros s; rewrite ?E3, ?E4; done.
Qed.

(** what the executor reports *)
Lemma Execute_reports (g : Engine) (p : ActionPlan) (a : Alert) (now : Time.time) (e : estate) :
  panicArmed g = false → Decision.Snapshot p = true → SuspendProcess p = true →
  "snapshot" ∈ x_Ran (Execute g p a now e).2 ∧ "suspend_process" ∈ x_Ran (Execute g p a now e).2.
Proof.
  intros Hp Hs Hsu. unfold Execute. rewrite Hp. cbn [snd x_Ran].
  unfold x_steps. rewrite Hs, Hsu. cbn. split; [apply list_elem_of_here|].
  apply list_elem_of_further. apply elem_of_app. right. apply list_elem_of_here.
Qed.

(** the planner reads the log the wiring writes *)
Definition synced (w : PlannerWiring) : Prop := pl_State (w_Plan w) = Some (w_Log w).

(** an executed plan touched no process, and yet a suspension is reported as run *)
Definition reported_but_inert (g : Engine) (o : outcome) : Prop :=
  match o with
  | Executed p fx r =>
      Forall (λ x, ¬ on_process x) fx ∧
      (panicArmed g = false → Decision.Snapshot p = true → SuspendProcess p = true →
       "snapshot" ∈ x_Ran r ∧ "suspend_process" ∈ x_Ran r)
  | _ => True
  end.

(** the parts of the wiring a tick leaves alone *)
Definition same_host (w w' : PlannerWiring) : Prop :=
  w_Exec w' = w_Exec w ∧ tracked (w_estate w') = tracked (w_estate w) ∧ (synced w → synced w').

Lemma run_plan_inert (p : ActionPlan) (id : Z) (t0 : Time.time) (sigs : list Signal) (t : Time.time)
    (w : PlannerWiring) :
  let r := run_plan p (lineageToSyntheticAlert id t0 sigs) t w in
  same_host w r.1 ∧ reported_but_inert (w_Exec w) r.2.
Proof.
  destruct (synthetic_target id t0 sigs) as (H1 & H2 & H3).
  set (a := lineageToSyntheticAlert id t0 sigs) in *. clearbody a. unfold run_plan.
  destruct (Execute_no_process (w_Exec w) p a t (w_estate w) H1 H2 H3) as [Hfx Htr].
  pose proof (Execute_reports (w_Exec w) p a t (w_estate w)) as Hrep.
  destruct (Execute (w_Exec w) p a t (w_estate w)) as [[e fx] r]. simpl in *. done.
Qed.

Lemma planner_Plan_state (lid : Z) (now : Time.time) (d : draws) (p : Planner) :
  pl_State (planner_Plan ulid_String order lid now d p).1 = pl_State p.
Proof. unfold planner_Plan. simpl. by repeat case_match. Qed.

Lemma tick_lineage_inert (now : Time.time) (lid : Z) (d : tick_draws) (w : PlannerWiring) :
  same_host w (tick_lineage now lid d w).1 ∧ reported_but_inert (w_Exec w) (tick_lineage now lid d w).2.
Proof.
  unfold tick_lineage. pose proof (planner_Plan_state lid now (td_plan d) (w_Plan w)) as Hst.
  destruct (planner_Plan _ _ _ _ _ _) as [pl1 [p|]]; simpl in Hst.
  2:{ split; [|done]. split_and!; [done|done|]. unfold synced. simpl. congruence. }
  assert (∀ agg, same_host w (with_Plan (set_Agg agg pl1) (with_Plan pl1 w))) as Hs2.
  { intros agg. split_and!; [done|done|]. unfold synced. simpl. congruence. }
  destruct (IsNoOp p).
  { split; [|done]. split_and!; [done|done|]. unfold synced. simpl. congruence. }
  destruct (Takeover.Snapshot lid now (pl_Agg pl1)) as [agg sigs]. specialize (Hs2 agg).
  set (w2 := with_Plan (set_Agg agg pl1) (with_Plan pl1 w)) in *.
  destruct Hs2 as (Hx & Ht & Hsy). clearbody w2.
  assert (∀ w3, w_Exec w3 = w_Exec w2 → tracked (w_estate w3) = tracked (w_estate w2) → (synced w2 → synced w3) →
    let r := run_plan p (lineageToSyntheticAlert (td_event d) (td_event_time d) sigs) (td_exec_time d) w3 in
    same_host w r.1 ∧ reported_but_inert (w_Exec w) r.2) as Hrun.
  { intros w3 Hx3 Ht3 Hsy3. destruct (run_plan_inert p (td_event d) (td_event_time d) sigs (td_exec_time d) w3)
      as [(Hx4 & Ht4 & Hsy4) Hin]. rewrite Hx3, Hx in Hin. split; [|done]. split_and!; [congruence|congruence|auto]. }
  destruct (negb (w_active w2)); [done|]. destruct (_ && _); [|by apply Hrun].
  destruct (Record_ _ _ _) as [l [err|]]; [done|]. by apply Hrun.
Qed.

Lemma tick_lineages_inert (now : Time.time) (draw : Z → tick_draws) (lids : list Z) : ∀ w,
  same_host w (tick_lineages now draw lids w).1 ∧
  Forall (reported_but_inert (w_Exec w)) (tick_lineages now draw lids w).2.
Proof.
  induction lids as [|lid lids IH]; intros w; simpl; [by repeat constructor|].
  destruct (tick_lineage_inert now lid (draw lid) w) as [(Hx & Ht & Hs) Ho].
  destruct (tick_lineage now lid (draw lid) w) as [w1 o]. simpl in *.
  destruct (IH w1) as [(Hx1 & Ht1 & Hs1) Hos]. destruct (tick_lineages now draw lids w1) as [w2 os].
  simpl in *. rewrite Hx in *. split; [|by constructor]. split_and!; [congruence|congruence|auto].
Qed.

(** ** Logging *)

Definition pre_containment (s : string) : Prop :=
  s ∈ [StateObserved; StateTriaged; StateSuspended; StateIsolated].
Lemma contained_not_pre : ¬ pre_containment StateContained.
Proof. refine (proj1 (bool_decide_eq_false _) _). vm_compute. reflexivity. Qed.

Definition closed_state (s : string) : Prop := s ∈ [StateRemediated; StateReleased; StateTerminated].

(** what the planner hands the tick *)
Lemma planner_Plan_some (lid : Z) (now : Time.time) (d : draws) (pl pl1 : Planner) (p : ActionPlan) :
  planner_Plan ulid_String order lid now d pl = (pl1, Some p) →
  ∃ i, p = Plan ulid_String i (d_PlanID d) (d_Now d) (d_Now2 d) ∧ in_State i = pl_State pl ∧
       in_LineageID i = lid.
Proof.
  unfold planner_Plan. simpl. intros Hp. repeat case_match; simplify_eq. by eexists.
Qed.

Lemma finalTier_floor (i : Input (C:=C)) (l : Log) :
  in_State i = Some l → State l (in_LineageID i) ≠ StateContained →
  ord (tierFromState (State l (in_LineageID i))) ≤ ord (finalTier i).
Proof.
  intros Hl Hc. pose proof (proposedTier_max i) as Hm. unfold stateFloor in Hm. rewrite Hl in Hm.
  assert (ord (tierFromState (State l (in_LineageID i))) ≤ 3) as H3
    by (unfold tierFromState; repeat case_decide; simpl; (done || lia)).
  unfold finalTier. destruct (proposedTier i); simpl in *; try lia. case_match; simpl; lia.
Qed.

(** from a live state the log accepts every tier the planner can propose *)
Lemma live_transition (from : string) (t : tier) :
  pre_containment from → ord (tierFromState from) ≤ ord t → t ≠ tierObserved →
  from = tierToState (tier_name t) ∨ CanTransition from (tierToState (tier_name t)) = true.
Proof.
  intros Hf Ho Ht. unfold pre_containment in Hf.
  repeat (apply elem_of_cons in Hf as [->|Hf]; [destruct t; vm_compute in Ho; try lia; try done; 
    (left; reflexivity) || (right; reflexivity)|]). by apply elem_of_nil in Hf.
Qed.

(** from a closed state it accepts none *)
Lemma closed_transition (from : string) (t : tier) :
  closed_state from → t ≠ tierObserved →
  from ≠ tierToState (tier_name t) ∧ CanTransition from (tierToState (tier_name t)) = false.
Proof.
  intros Hf Ht. unfold closed_state in Hf.
  repeat (apply elem_of_cons in Hf as [->|Hf]; [destruct t; try done; (split; [intros Hx; vm_compute in Hx; discriminate|vm_compute; reflexivity])|]).
  by apply elem_of_nil in Hf.
Qed.

Lemma noop_observed (i : Input (C:=C)) planID now now2 :
  IsNoOp (Plan ulid_String i planID now now2) = false → finalTier i ≠ tierObserved.
Proof.
  intros Hn Ht. destruct (Plan_summary ulid_String i planID now now2) as [Hb _]. rewrite Ht in Hb.
  unfold IsNoOp, Actions in Hn. injection Hb as _ Hd H1 H2 H3 H4 H5 H6 H7 H8 H9 H10 H11 _.
  rewrite filter_none in Hn; [done|]. unfold actionOrder.
  repeat (constructor; [simpl; rewrite ?H1, ?H2, ?H3, ?H4, ?H5, ?H6, ?H7, ?H8, ?H9, ?H10, ?H11, ?Hd; done|]).
  constructor.
Qed.

(** ** Properties *)

(** C6: in active mode the planner never acts on a process: the alert it hands
    the executor carries no pid and no user, so over a whole tick no process is
    snapshotted, scanned, stopped or killed and no account is locked, while the
    executor, unless its panic switch is armed, reports the snapshot and the
    suspension of every plan that asks for both as run. *)
Theorem active_planner_touches_no_process (now : Time.time) (draw : Z → tick_draws) (w : PlannerWiring) :
  let r := tickOnce now draw w in
  tracked (w_estate r.1) = tracked (w_estate w) ∧ Forall (reported_but_inert (w_Exec w)) r.2.
Proof.
  unfold tickOnce. destruct (Lineages now (pl_Agg (w_Plan w))) as [agg lids].
  destruct (tick_lineages_inert now draw lids (with_Plan (set_Agg agg (w_Plan w)) w)) as [(_ & Ht & _) Ho].
  done.
Qed.

(** from "observed" to "isolated" the audit trail keeps up with
    enforcement: when an active tick executes a plan for a lineage in one of
    those states, the log afterwards holds the state of the plan's tier, which is
    never below the state before. *)
Theorem executed_plan_is_logged (now : Time.time) (lid : Z) (d : tick_draws) (w w' : PlannerWiring)
    (p : ActionPlan) (fx : list effect) (r : ExecResult) :
  synced w → lid ≠ 0%Z → pre_containment (State (w_Log w) lid) →
  tick_lineage now lid d w = (w', Executed p fx r) →
  State (w_Log w') lid = tierToState (Tier p) ∧
  ord (tierFromState (State (w_Log w) lid)) ≤ ord (tierFromState (State (w_Log w') lid)).
Proof.
  intros Hsy Hlid Hpre Ht. unfold tick_lineage in Ht.
  destruct (planner_Plan ulid_String order lid now (td_plan d) (w_Plan w)) as [pl1 [q|]] eqn:Hp; [|simplify_eq].
  destruct (planner_Plan_some _ _ _ _ _ _ Hp) as (i & Hq & Hin & Hil). rewrite Hsy in Hin.
  destruct (IsNoOp q) eqn:Hno; [simplify_eq|].
  assert (finalTier i ≠ tierObserved) as Hobs by (subst q; by eapply noop_observed).
  assert (Tier q = tier_name (finalTier i)) as Htier
    by (subst q; destruct (Plan_summary ulid_String i (d_PlanID (td_plan d)) (d_Now (td_plan d)) (d_Now2 (td_plan d))) as [Hb _]; by injection Hb).
  assert (ord (tierFromState (State (w_Log w) lid)) ≤ ord (finalTier i)) as Hord.
  { rewrite <-Hil. apply finalTier_floor; [done|]. rewrite Hil. intros Hc. rewrite Hc in Hpre. by apply contained_not_pre. }
  destruct (Takeover.Snapshot lid now (pl_Agg pl1)) as [agg sigs].
  set (w2 := with_Plan (set_Agg agg pl1) (with_Plan pl1 w)) in *.
  assert (w_Log w2 = w_Log w) as Hlog by done. clearbody w2.
  assert (∀ a t w3, run_plan q a t w3 = (w', Executed p fx r) → q = p ∧ w_Log w' = w_Log w3) as Hrun.
  { intros a t w3. unfold run_plan. destruct (Execute _ _ _ _ _) as [[e' fx'] r']. intros ?; by simplify_eq. }
  destruct (negb (w_active w2)); [done|]. rewrite Hlog, Htier in Ht.
  assert (tierFromState (tierToState (tier_name (finalTier i))) = finalTier i) as Hback
    by (by destruct (finalTier i)).
  destruct (live_transition _ _ Hpre Hord Hobs) as [Heq|Hcan].
  - rewrite bool_decide_eq_true_2 in Ht by done. simpl in Ht. destruct (Hrun _ _ _ Ht) as [<- ->].
    rewrite Hlog, Htier, Heq, Hback. done.
  - rewrite Hcan, andb_true_r in Ht. destruct (decide (State (w_Log w) lid = tierToState (tier_name (finalTier i)))) as [Heq|Hne].
    + rewrite bool_decide_eq_true_2 in Ht by done. simpl in Ht. destruct (Hrun _ _ _ Ht) as [<- ->].
      rewrite Hlog, Htier, Heq, Hback. done.
    + rewrite bool_decide_eq_false_2 in Ht by done. simpl in Ht.
      destruct (Record_ _ _ _) as [l [err|]] eqn:Hr; [simplify_eq|]. destruct (Hrun _ _ _ Ht) as [<- ->].
      match type of Hr with Record_ ?t ?n ?l0 = _ =>
        destruct (Record_cases t n l0) as [[e' He]|(t2 & _ & _ & _ & _ & _ & He)]; rewrite He in Hr end; simplify_eq.
      match goal with |- State ?L ?x = _ ∧ _ =>
        assert (State L x = tierToState (tier_name (finalTier i))) as -> by (unfold State; simpl; by rewrite lookup_insert_eq)
      end.
      by rewrite Htier, Hback.
Qed.

(** after remediation, release or termination enforcement is not logged:
    the state machine allows no step from those states to any tier, so whenever
    an active tick has a plan for such a lineage it executes the plan and the
    action log stays as it was. *)
Theorem closed_lineage_enforced_unlogged (now : Time.time) (lid : Z) (d : tick_draws) (w : PlannerWiring)
    (pl1 : Planner) (p : ActionPlan) :
  w_active w = true → closed_state (State (w_Log w) lid) →
  planner_Plan ulid_String order lid now (td_plan d) (w_Plan w) = (pl1, Some p) → IsNoOp p = false →
  ∃ w' fx r, tick_lineage now lid d w = (w', Executed p fx r) ∧ w_Log w' = w_Log w.
Proof.
  intros Hact Hcl Hp Hno. destruct (planner_Plan_some _ _ _ _ _ _ Hp) as (i & Hq & _ & _).
  assert (finalTier i ≠ tierObserved) as Hobs by (subst p; by eapply noop_observed).
  assert (Tier p = tier_name (finalTier i)) as Htier
    by (subst p; destruct (Plan_summary ulid_String i (d_PlanID (td_plan d)) (d_Now (td_plan d)) (d_Now2 (td_plan d))) as [Hb _]; by injection Hb).
  destruct (closed_transition _ _ Hcl Hobs) as [_ Hcan].
  unfold tick_lineage. rewrite Hp, Hno. destruct (Takeover.Snapshot lid now (pl_Agg pl1)) as [agg sigs].
  cbn [w_active w_Log with_Plan]. rewrite Hact, Htier, Hcan, andb_false_r. simpl. unfold run_plan.
  destruct (Execute _ _ _ _ _) as [[e' fx] r]. by eexists _, _, _.
Qed.

End wire.

(** ** Witnesses *)

Module Demo.
Definition alert : Alert :=
  {| al_Event := set_tag "src_ip" "203.0.113.9"
       {| ev_ID := 1; ev_Time := 1000; ev_Sensor := "demo"; ev_Severity := SeverityHigh;
          ev_Verdict := VerdictUnknown; ev_Host := ""; ev_PID := 55; ev_TID := 55; ev_Comm := "sh";
          ev_UID := 0; ev_GID := 0; ev_CGroupID := 7; ev_Container := ""; ev_Image := "/bin/sh";
          ev_ParentPID := 1; ev_ProcTree := []; ev_Rule := ""; ev_Tags := ∅ |};
     al_RuleID := "revshell.detected"; al_Reason := "reverse shell"; al_EvidenceIDs := [];
     al_Mode := ModeDetect; al_Action := ""; al_Class := 0 |}.
Definition d : tick_draws :=
  {| td_plan := {| d_EventID := 2; d_PlanID := "P2"; d_Now := 2000; d_Now2 := 2000 |};
     td_event := 3; td_event_time := 2000; td_log_time := 2000; td_exec_time := 2000 |}.
Definition w0 : PlannerWiring (C:=CapabilitySet) :=
  wire_OnAlert alert 1000
    (wire_New true false false 0 Decision.Demo.caps Response.Demo.engine Response.Demo.start).
Definition ulid : Z → string := Decision.Demo.ulid.
Definition ord_ (m : gmap string (list Signal)) : list string := some_order m.
Definition ipstr (ip : list Z) : string := "ip".
Definition r : PlannerWiring (C:=CapabilitySet) * outcome := tick_lineage ulid ord_ ipstr 2000 7 d w0.
Definition executed (o : outcome) : option (ActionPlan * list effect * ExecResult) :=
  match o with Executed p fx x => Some (p, fx, x) | _ => None end.

(** the same wiring with the lineage released *)
Definition released : Log := {| state := {[7%Z := StateReleased]}; history := ∅ |}.
Definition w1 : PlannerWiring (C:=CapabilitySet) := with_Log released w0.

Lemma plan1 : IsNoOp <$> (planner_Plan ulid ord_ 7 2000 (td_plan d) (w_Plan w1)).2 = Some false.
Proof. vm_compute. reflexivity. Qed.
End Demo.

Lemma executed_plan_is_logged_witness :
  State (w_Log Demo.r.1) 7 = StateSuspended.
Proof.
  destruct (Demo.executed Demo.r.2) as [[[p fx] x]|] eqn:E; [|exfalso; vm_compute in E; discriminate].
  assert (Tier p = "suspended") as Ht by (vm_compute in E; by injection E as <- _ _).
  assert (Demo.r = (Demo.r.1, Executed p fx x)) as Hr.
  { destruct Demo.r as [w o]. simpl in *. destruct o; try discriminate. simpl in E. by simplify_eq. }
  destruct (executed_plan_is_logged Demo.ulid Demo.ord_ Demo.ipstr 2000 7 Demo.d Demo.w0 Demo.r.1 p fx x) as [-> _].
  - reflexivity.
  - done.
  - refine (proj1 (bool_decide_eq_true _) _). vm_compute. reflexivity.
  - exact Hr.
  - by rewrite Ht.
Defined.

Lemma closed_lineage_enforced_unlogged_witness :
  ∃ p w' fx x, tick_lineage Demo.ulid Demo.ord_ Demo.ipstr 2000 7 Demo.d Demo.w1 = (w', Executed p fx x) ∧
    w_Log w' = w_Log Demo.w1.
Proof.
  destruct (planner_Plan Demo.ulid Demo.ord_ 7 2000 (td_plan Demo.d) (w_Plan Demo.w1)) as [pl1 [p|]] eqn:E.
  - exists p. apply (closed_lineage_enforced_unlogged Demo.ulid Demo.ord_ Demo.ipstr 2000 7 Demo.d Demo.w1 pl1 p).
    + reflexivity.
    + refine (proj1 (bool_decide_eq_true _) _). vm_compute. reflexivity.
    + exact E.
    + pose proof Demo.plan1 as Hn. rewrite E in Hn. by injection Hn.
  - exfalso. pose proof Demo.plan1 as Hn. rewrite E in Hn. discriminate Hn.
Defined.
